(* ===== verification/_CoqProject ===== *)
-Q . S2P
Prelude.v
Bitmap.v
Pmm.v
Mem.v
Heap.v
Vmm.v
Sbrk.v
Malloc.v
Fork.v
AddressSpace.v
Highmem.v
CircularBuffer.v
Dlist.v
Plist.v
Sched.v
StrScan.v
Memcmp.v
Strlib.v
Hashmap.v
Vsprintf.v
Semaphore.v
Timer.v
Mmap.v
Sort.v
Strtol.v
Packet.v
Hoare.v
Tcp.v
TcpStates.v
TcpStream.v
TcpRuns.v
TcpInvariant.v
TcpDiagram.v
Signal.v
Tty.v
