(* ===== verification/Prelude.v ===== *)
(** * mOS kernel: verification library

    mOS is a UNIX-like kernel for i386 PCs, in C, with its own C library. This
    library models the parts of it listed below, function by function, and
    proves what makes each of them correct; where the code does something else
    than it means to, a theorem states what it does. Paths below are relative
    to [src/src/kernel] unless they start with [libc], which is
    [src/src/libraries/libc].

    ** The parts and how they interact

    - _Memory_. The physical memory manager hands out frames from a bitmap; the
      virtual memory manager edits page tables, which it reaches only through
      the MMU by a recursive directory entry, and takes the frames of new
      tables from the physical one; [sbrk] maps frames behind the kernel heap;
      the heap allocator keeps its block list in the heap's own bytes and grows
      it by [sbrk]; a new address space takes its directory from that heap, and
      a forked one copies the parent's pages through heap pages mapped for the
      purpose; [mmap] keeps the areas of a process and maps their pages.
    - _Lists and threads_. Intrusive circular lists carry priority lists; the
      scheduler keeps the threads on five of them; semaphores put threads to
      sleep and wake them; timers hang on a list that the clock interrupt
      walks; signals interrupt threads that sleep and run handlers on the user
      stack; terminals wake the readers of a line and signal their owner.
    - _Network_. Packets carry checksummed headers; TCP runs on them, on timers
      and on the scheduler.
    - _Libraries_. String scanning, comparison and formatting, hash maps,
      circular buffers, sorting and number parsing, used by all of these.

    ** Files of the library

    - [Prelude]: outcomes, the state and error monad, machine integers, lemmas
      and tactics. [Hoare]: what a computation ends with and what it preserves.
    - [Bitmap], [Pmm]: [memory/pmm.c]; state [pmm], the bitmap words and the
      counters.
    - [Mem]: the memory class [Mem] with its laws [MemLaws], and
      [utils/string/memset.c], [memcpy.c] over it.
    - [Vmm]: [memory/vmm.c]; state [vm], that is physical memory, CR3, CR4.PSE,
      the TLB and the frame allocator; [page_walk] is the MMU.
    - [Heap]: the interface of [sbrk] to the allocator; [Sbrk]:
      [memory/sbrk.c], which implements it over [vm]; [Malloc]:
      [memory/malloc.c], which is written against it.
    - [Fork], [AddressSpace]: [vmm_fork] and [vmm_create_address_space] of
      [memory/vmm.c], on the heap over the machine.
    - [Highmem]: [memory/highmem.c]. [Mmap]: [memory/mmap.c].
    - [Dlist]: [include/list.h] at pointer level. [Plist]: [utils/plist.c].
      [Sched]: [proc/sched.c]. [Semaphore]: [locking/semaphore.c]. [Timer]:
      [system/timer.c]. [Signal]: [ipc/signal.c] and the page fault handler of
      [proc/sched.c]. [Tty]: [devices/char/n_tty.c] and [pty.c], against the
      class [Kernel] that [Signal] implements.
    - [StrScan], [Memcmp], [Strlib]: [utils/string/] and [utils/string.c].
      [Vsprintf]: [utils/vsprintf.c]. [Hashmap]: [utils/hashmap.c].
      [CircularBuffer]: [utils/circular_buffer.c]. [Sort], [Strtol]: the
      sorting, searching and number parsing of [libc/stdlib]. (The C library's
      [list.h] and libcore's [hashmap.c] are copies of the kernel's files.)
    - [Packet]: the checksums of [net/net.c] and the IPv4, UDP and TCP headers.
      [Tcp]: [net/tcp.c], [tcp_input.c], [tcp_output.c], [tcp_timer.c];
      [TcpStates], [TcpInvariant]: what its steps keep; [TcpDiagram]: its
      states against RFC 793; [TcpStream], [TcpRuns]: streams and whole
      exchanges.

    ** How code is modelled

    A C function that changes state is a computation of the monad [M]: it takes
    the state and returns a result with the new state, or a fault ([Assert] for
    a failed assertion or a panic, [Segv] for an access nothing backs, [Fuel]).
    Integers are [Z] with the wrap-around of their C type written out ([u32],
    [s32], [u8], ...). Pointers are addresses; heaps of objects are finite maps
    by address. Components that share an operation meet in a class ([Mem],
    [Heap], [Kernel]), so that clients are proved against its laws. What
    happens while a thread sleeps is a list of events, an argument; an interrupt
    between two instructions of a running TCP call is not modelled. Where a
    component takes an object from [kcalloc] but its state is not the heap, the
    address is a parameter, with the hypothesis that it is not in use. What C
    leaves uninitialised is a field of the state ([junk] of [Tcp]).

    ** What the theorems show

    - Memory: the allocator returns a frame that was free and marks it; mapping
      a page changes one translation and keeps the TLB coherent; [sbrk] and
      [kmalloc] implement a growing heap with first fit, and what is around the
      heap stays as it was ([around] of [Sbrk]); [vmm_create_address_space]
      makes a directory, and cuts the heap's list doing so; [vmm_fork], from
      the state before the call, gives the child its own copy of every page and
      leaves the parent alone; [mmap] returns a free, zeroed range.
    - Lists and threads: sequences of list operations act on sequences; the two
      rings of a priority list stay consistent and sorted; [schedule] runs the
      first thread of the best ready list and hands it to [handle_signal] when
      it has a signal, and round robin reaches everyone while the [int]
      priorities have room; a semaphore refines an abstract one; a tick runs exactly the timers that
      are due; the signal delivered is the documented one and its handler's
      return restores the interrupted context; the terminal ring is a line
      editor on a list.
    - Network: headers validate, and corruption of one word is noticed; a
      connection moves along RFC 793's diagram under the RFC's conditions or
      along the departures that [TcpDiagram] lists, delivers in-order text in
      order, completes the handshake with any well-formed options, and keeps
      every variable within its type.
    - Libraries: the word-at-a-time routines equal the byte loops; formatted
      output is the rendered text cut to the buffer and reads back; the hash
      map is a map as long as no run of slots exceeds half its table; sorting
      sorts; parsing clamps to the type.
    - What goes wrong: double allocation of a run of frames, keys lost by hash
      map removal, areas below the first one, asserts reachable from the
      network and from signals, and the others recorded as findings.

    ** Bounds and fuel

    Loops that are not structural take a number of rounds, and every theorem
    about such a loop assumes at least the rounds the code needs, or shows that
    a fixed number suffices: [2 ^ 20] rounds ([sbrk_fuel], [page_fuel]) cover
    every page of the address space; three rounds fold the carries of a
    checksum; list walks take the length of the list; string loops one round
    for each character. The loops of [vmm_fork] are the 768 tables and 1024
    entries of the code. No theorem holds because fuel runs out, except
    [tcp_zero_option_loops], which states that the loop does not end.

    ** Not modelled

    - Assembly and port I/O: interrupt entry, context switch (it is the change
      of the current thread, directory and stack), the ATA, keyboard, mouse,
      PCI and network card drivers, descriptor tables, the real-time clock.
      What they do is fixed by the hardware, not by the C code.
    - Process creation, exit and ELF loading: they compose the address space,
      open files and the assembly entry of a thread.
    - The ext2 file system, the virtual file system, the in-memory file
      systems, pipes, message
      queues and the terminals' device registration: calls through pointers
      stored in inodes to the code modelled here and to the drivers; ext2 moves
      whole blocks through the buffer of the disk driver.
    - UDP, raw and packet sockets, ARP, DHCP and DNS beyond their headers: they
      exchange packets with the network card.
    - System call dispatch and boot order; the C library beyond [libc/stdlib],
      the GUI libraries and the applications, which are user programs. *)
From Stdlib Require Import ZArith Lia Bool.
From stdpp Require Import base list gmap option.

Open Scope Z_scope.

(** ** Outcomes of kernel code

    [Assert] is the [int $0x01] trap raised by [assert], [assert_not_reached]
    and [kernel_panic]; [Segv] is an access through a pointer that no modelled
    object backs; [Fuel] is a loop that exceeded the bound a definition was
    given (every such bound comes with a theorem that it is not reached). *)
Inductive fault := Assert | Segv | Fuel.

Inductive outcome (A : Type) :=
| Ok (a : A)
| Fail (f : fault).
Arguments Ok {A} _.
Arguments Fail {A} _.

#[export] Instance fault_eq_dec : EqDecision fault.
Proof. solve_decision. Defined.

(** The state and error monad in which effectful kernel functions are written. *)
Definition M (S A : Type) : Type := S -> outcome (A * S).

#[export] Instance M_ret {S} : MRet (M S) := fun A a s => Ok (a, s).
#[export] Instance M_bind {S} : MBind (M S) := fun A B k m s =>
  match m s with
  | Ok (a, s') => k a s'
  | Fail f => Fail f
  end.
#[export] Instance M_fmap {S} : FMap (M S) := fun A B g m s =>
  match m s with
  | Ok (a, s') => Ok (g a, s')
  | Fail f => Fail f
  end.

Definition mfail {S A} (f : fault) : M S A := fun _ => Fail f.
Definition gets {S A} (g : S -> A) : M S A := fun s => Ok (g s, s).
Definition modify {S} (g : S -> S) : M S unit := fun s => Ok (tt, g s).
Definition massert {S} (b : bool) : M S unit := if b then mret tt else mfail Assert.
(** A pointer dereference: the object, or a fault when nothing is there. *)
Definition deref {S A} (g : S -> option A) : M S A := fun s =>
  match g s with
  | Some a => Ok (a, s)
  | None => Fail Segv
  end.
(** A fallible pure computation as a step that keeps the state. *)
Definition mlift {S A} (o : outcome A) : M S A := fun s =>
  match o with
  | Ok a => Ok (a, s)
  | Fail f => Fail f
  end.
Definition mwhen {S} (b : bool) (m : M S unit) : M S unit := if b then m else mret tt.

(** Running a computation on one field of a larger state. *)
Definition zoom {S T A} (get : S -> T) (put : T -> S -> S) (m : M T A) : M S A := fun s =>
  match m (get s) with
  | Ok (a, t) => Ok (a, put t s)
  | Fail f => Fail f
  end.

Lemma bind_ok {S A B} (m : M S A) (k : A -> M S B) s b s'' :
  (m ≫= k) s = Ok (b, s'') <-> exists a s', m s = Ok (a, s') /\ k a s' = Ok (b, s'').
Proof.
  unfold mbind, M_bind. destruct (m s) as [[a s']|f]; split.
  - eauto.
  - intros (? & ? & [= <- <-] & H). exact H.
  - discriminate.
  - intros (? & ? & [=] & _).
Qed.

Lemma bind_step {S A B} (m : M S A) (k : A -> M S B) s a s' :
  m s = Ok (a, s') -> (m ≫= k) s = k a s'.
Proof. intros H. unfold mbind, M_bind. by rewrite H. Qed.

Lemma bind_fail {S A B} (m : M S A) (k : A -> M S B) s f :
  m s = Fail f -> (m ≫= k) s = Fail f.
Proof. intros H. unfold mbind, M_bind. by rewrite H. Qed.

Lemma deref_some {S A} (g : S -> option A) s a :
  g s = Some a -> deref g s = Ok (a, s).
Proof. intros H. unfold deref. by rewrite H. Qed.

Lemma mret_ok {S A} (a : A) (s : S) : (mret a : M S A) s = Ok (a, s).
Proof. reflexivity. Qed.

Lemma massert_true {S} b (s : S) : b = true -> massert b s = Ok (tt, s).
Proof. by intros ->. Qed.

Lemma zoom_ok {S T A} (get : S -> T) (put : T -> S -> S) (m : M T A) s a t :
  m (get s) = Ok (a, t) -> zoom get put m s = Ok (a, put t s).
Proof. intros H. unfold zoom. by rewrite H. Qed.

(** Inverting a successful run, one bind at a time. *)
Ltac minv :=
  repeat match goal with
  | H : (_ ≫= _) _ = Ok _ |- _ =>
      apply bind_ok in H; destruct H as (? & ? & ? & ?)
  | H : @mret (M _) _ _ _ _ = Ok _ |- _ => unfold mret, M_ret in H
  | H : gets _ _ = Ok _ |- _ => unfold gets in H
  | H : modify _ _ = Ok _ |- _ => unfold modify in H
  | H : mfail _ _ = Ok _ |- _ => discriminate H
  | H : Ok _ = Ok _ |- _ => injection H as H; subst
  | H : deref ?g ?s = Ok _ |- _ =>
      unfold deref in H; destruct (g s) eqn:?; [|discriminate H]
  | H : massert ?b _ = Ok _ |- _ =>
      unfold massert in H; destruct b eqn:?; [|discriminate H]
  | H : (_, _) = (_, _) |- _ => injection H as ? ?; subst
  end.

(** ** Machine integers: i386, 32-bit [unsigned int] and [int] *)

Definition u32 (z : Z) : Z := z mod 2 ^ 32.
Definition u16 (z : Z) : Z := z mod 2 ^ 16.
Definition u8 (z : Z) : Z := z mod 2 ^ 8.
Definition u64 (z : Z) : Z := z mod 2 ^ 64.
Definition s32 (z : Z) : Z :=
  let w := u32 z in if w <? 2 ^ 31 then w else w - 2 ^ 32.

(** [~x] on a 32-bit word. *)
Definition lnot32 (z : Z) : Z := u32 (Z.lnot z).

Definition is_u32 (z : Z) : Prop := 0 <= z < 2 ^ 32.

Lemma u32_range z : is_u32 (u32 z).
Proof. unfold is_u32, u32. apply Z.mod_pos_bound. lia. Qed.

Lemma u32_small z : is_u32 z -> u32 z = z.
Proof. unfold is_u32, u32. apply Z.mod_small. Qed.

Lemma u32_idem z : u32 (u32 z) = u32 z.
Proof. apply u32_small, u32_range. Qed.

Lemma u32_add_l a b : u32 (u32 a + b) = u32 (a + b).
Proof. unfold u32. by rewrite Zplus_mod_idemp_l. Qed.

Lemma u32_add_r a b : u32 (a + u32 b) = u32 (a + b).
Proof. unfold u32. by rewrite Zplus_mod_idemp_r. Qed.

Lemma u32_sub_l a b : u32 (u32 a - b) = u32 (a - b).
Proof. unfold u32. by rewrite Zminus_mod_idemp_l. Qed.

Lemma s32_range z : - 2 ^ 31 <= s32 z < 2 ^ 31.
Proof.
  unfold s32. pose proof (u32_range z) as H. unfold is_u32 in H.
  destruct (u32 z <? 2 ^ 31) eqn:E; lia.
Qed.

Lemma s32_small z : - 2 ^ 31 <= z < 2 ^ 31 -> s32 z = z.
Proof.
  intros H. unfold s32, u32. destruct (Z.lt_ge_cases z 0) as [Hn|Hp].
  - rewrite <- (Z_mod_plus_full z 1), Z.mod_small by lia.
    destruct (z + 1 * 2 ^ 32 <? 2 ^ 31) eqn:E; lia.
  - rewrite Z.mod_small by lia. destruct (z <? 2 ^ 31) eqn:E; lia.
Qed.

Lemma testbit_u32 z i : 0 <= i < 32 -> Z.testbit (u32 z) i = Z.testbit z i.
Proof. intros. unfold u32. apply Z.mod_pow2_bits_low. lia. Qed.

Lemma testbit_u32_high z i : 32 <= i -> Z.testbit (u32 z) i = false.
Proof. intros. unfold u32. apply Z.mod_pow2_bits_high. lia. Qed.

Lemma testbit_lnot32 z i : 0 <= i < 32 -> Z.testbit (lnot32 z) i = negb (Z.testbit z i).
Proof. intros. unfold lnot32. rewrite testbit_u32 by done. apply Z.lnot_spec. lia. Qed.

Lemma is_u32_testbit_high z i : is_u32 z -> 32 <= i -> Z.testbit z i = false.
Proof. intros Hz Hi. rewrite <- (u32_small z Hz). by apply testbit_u32_high. Qed.

Lemma is_u32_lor a b : is_u32 a -> is_u32 b -> is_u32 (Z.lor a b).
Proof.
  intros Ha Hb. unfold is_u32 in *. split; [apply Z.lor_nonneg; lia|].
  destruct (Z.eq_dec (Z.lor a b) 0) as [->|Hne]; [lia|].
  apply Z.log2_lt_pow2; [pose proof (Z.lor_nonneg a b); lia|].
  rewrite Z.log2_lor by lia.
  destruct (Z.eq_dec a 0) as [->|]; destruct (Z.eq_dec b 0) as [->|]; simpl;
    repeat (apply Z.max_lub_lt); try (apply Z.log2_lt_pow2; lia); cbn; lia.
Qed.

Lemma is_u32_land_l a b : is_u32 a -> is_u32 (Z.land a b).
Proof.
  intros Ha. rewrite <- (u32_small a Ha). unfold u32.
  rewrite <- Z.land_ones by lia. rewrite <- Z.land_assoc, (Z.land_comm (Z.ones 32)).
  rewrite Z.land_assoc, Z.land_ones by lia. apply u32_range.
Qed.

Lemma u32_eq_testbit a b :
  is_u32 a -> is_u32 b -> (forall i, 0 <= i < 32 -> Z.testbit a i = Z.testbit b i) -> a = b.
Proof.
  intros Ha Hb H. apply Z.bits_inj'. intros i Hi.
  destruct (Z.lt_ge_cases i 32); [by apply H|].
  by rewrite !is_u32_testbit_high.
Qed.

(** [1 << j] as a 32-bit word. *)
Definition bit (j : Z) : Z := Z.shiftl 1 j.

Lemma testbit_bit j i : 0 <= j -> 0 <= i -> Z.testbit (bit j) i = (i =? j).
Proof.
  intros Hj Hi. unfold bit. rewrite Z.shiftl_spec by lia.
  destruct (Z.eqb_spec i j) as [->|Hne].
  - by rewrite Z.sub_diag.
  - destruct (Z.lt_ge_cases i j).
    + apply Z.testbit_neg_r. lia.
    + apply (Z.bits_above_log2 1); simpl; lia.
Qed.

Lemma is_u32_bit j : 0 <= j < 32 -> is_u32 (bit j).
Proof.
  intros H. unfold is_u32, bit. rewrite Z.shiftl_mul_pow2, Z.mul_1_l by lia.
  split; [apply Z.pow_nonneg; lia|apply Z.pow_lt_mono_r; lia].
Qed.

(** [w & (1 << j)] is zero exactly when the bit is clear. *)
Lemma land_bit_eqb w j : 0 <= j -> (Z.land w (bit j) =? 0) = negb (Z.testbit w j).
Proof.
  intros Hj. destruct (Z.testbit w j) eqn:E; simpl.
  - apply Z.eqb_neq. intros H0.
    assert (Z.testbit (Z.land w (bit j)) j = true) as Hb.
    { rewrite Z.land_spec, testbit_bit, Z.eqb_refl, E by lia. done. }
    rewrite H0, Z.bits_0 in Hb. discriminate.
  - apply Z.eqb_eq, Z.bits_inj'. intros i Hi.
    rewrite Z.land_spec, testbit_bit, Z.bits_0 by lia.
    destruct (Z.eqb_spec i j) as [->|]; [by rewrite E|apply andb_false_r].
Qed.

Lemma word_ones_all w : is_u32 w -> w = 0xffffffff <-> forall i, 0 <= i < 32 -> Z.testbit w i = true.
Proof.
  intros Hw. split.
  - intros -> i Hi. change 0xffffffff with (Z.ones 32). apply Z.ones_spec_low. lia.
  - intros H. apply u32_eq_testbit; [done|unfold is_u32; lia|].
    intros i Hi. rewrite H by done. change 0xffffffff with (Z.ones 32).
    by rewrite Z.ones_spec_low by lia.
Qed.

(** ** Shared arithmetic macros of [utils/math.h] and [memory/pmm.h] *)

(** [div_ceil(x, y)] on unsigned operands. *)
Definition div_ceil (x y : Z) : Z := x / y + (if 0 <? x mod y then 1 else 0).

(** [ALIGN_DOWN(base, size)] and [ALIGN_UP(base, size)] on a [uint32_t]. *)
Definition ALIGN_DOWN (base size : Z) : Z := Z.land base (u32 (- size)).
Definition ALIGN_UP (base size : Z) : Z := ALIGN_DOWN (u32 (base + size - 1)) size.

Lemma div_ceil_spec x y : 0 < y -> (div_ceil x y - 1) * y < x <= div_ceil x y * y.
Proof.
  intros Hy. unfold div_ceil.
  pose proof (Z.div_mod x y ltac:(lia)). pose proof (Z.mod_pos_bound x y Hy).
  destruct (0 <? x mod y) eqn:E; nia.
Qed.

Lemma div_ceil_nonneg x y : 0 < y -> 0 <= x -> 0 <= div_ceil x y.
Proof. intros Hy Hx. pose proof (div_ceil_spec x y Hy). nia. Qed.

(** Rounding to a power of two. *)
Lemma ALIGN_DOWN_pow2 x k : is_u32 x -> 0 <= k < 32 -> ALIGN_DOWN x (2 ^ k) = 2 ^ k * (x / 2 ^ k).
Proof.
  intros Hx Hk. unfold ALIGN_DOWN.
  replace (- 2 ^ k) with (Z.lnot (Z.ones k)) by (rewrite Z.ones_equiv; unfold Z.lnot; lia).
  fold (lnot32 (Z.ones k)). apply Z.bits_inj'. intros i Hi. rewrite Z.land_spec.
  replace (2 ^ k * (x / 2 ^ k)) with (Z.shiftl (Z.shiftr x k) k)
    by (rewrite Z.shiftl_mul_pow2, Z.shiftr_div_pow2 by lia; lia).
  rewrite Z.shiftl_spec by lia. destruct (Z.lt_ge_cases i 32).
  - rewrite testbit_lnot32 by lia. destruct (Z.lt_ge_cases i k).
    + rewrite (Z.ones_spec_low k i), (Z.testbit_neg_r _ (i - k)) by lia. apply andb_false_r.
    + rewrite (Z.ones_spec_high k i), Z.shiftr_spec, Z.sub_add by lia. apply andb_true_r.
  - rewrite (is_u32_testbit_high x i Hx) by lia.
    by rewrite Z.shiftr_spec, Z.sub_add, (is_u32_testbit_high x i Hx) by lia.
Qed.

Lemma ALIGN_UP_4 n : 0 <= n < 2 ^ 32 - 4 ->
  ALIGN_UP n 4 mod 4 = 0 /\ n <= ALIGN_UP n 4 < n + 4.
Proof.
  intros Hn. unfold ALIGN_UP. rewrite u32_small by (unfold is_u32; lia).
  pose proof (ALIGN_DOWN_pow2 (n + 4 - 1) 2 ltac:(unfold is_u32; lia) ltac:(lia)) as E.
  change (2 ^ 2) with 4 in E. rewrite E. Z.to_euclidean_division_equations. lia.
Qed.

(** Closed order goals on integers, by evaluation. *)
Ltac zdec :=
  first
    [ apply Z.leb_le; vm_compute; reflexivity
    | apply Z.ltb_lt; vm_compute; reflexivity
    | split; zdec ].

(** [P] holds for the [n] indices from 0 on, by evaluation. *)
Lemma check_below (P : Z -> bool) n : forallb P (seqZ 0 n) = true -> forall k, 0 <= k < n -> P k = true.
Proof. intros H k Hk. rewrite forallb_forall in H. apply H, list_elem_of_In, elem_of_seqZ. lia. Qed.
