(* ===== verification/Bitmap.v ===== *)
(** * Bitmaps over 32-bit words

    [memory/pmm.c] and [memory/highmem.c] both keep one bit per block in an
    array of [uint32_t] and carry the same set, clear, test and search code.
    This file holds that code once, as functions on the list of words, with
    the lemmas both components use. An index outside the list is [None], or
    [Segv] in a search. *)
From S2P Require Import Prelude.
From Stdlib Require Import ZArith Lia Bool.
From stdpp Require Import base list option.

Open Scope Z_scope.

Definition bm_update (f : Z -> Z) (block : Z) (bm : list Z) : option (list Z) :=
  match bm !! Z.to_nat (block / 32) with
  | Some w => Some (<[Z.to_nat (block / 32) := f w]> bm)
  | None => None
  end.

Definition bm_set (block : Z) : list Z -> option (list Z) :=
  bm_update (fun w => Z.lor w (bit (block mod 32))) block.
Definition bm_unset (block : Z) : list Z -> option (list Z) :=
  bm_update (fun w => Z.land w (lnot32 (bit (block mod 32)))) block.
Definition bm_test (block : Z) (bm : list Z) : option bool :=
  match bm !! Z.to_nat (block / 32) with
  | Some w => Some (negb (Z.land w (bit (block mod 32)) =? 0))
  | None => None
  end.

(** The loop over the 32 bits of one word. *)
Fixpoint first_clear_bit (w j : Z) (n : nat) : option Z :=
  match n with
  | O => None
  | S n' => if Z.land w (bit j) =? 0 then Some j else first_clear_bit w (j + 1) n'
  end.

(** The loop over the words, from word [i], [n] words to go. *)
Fixpoint bm_first_free (bm : list Z) (i : Z) (n : nat) : outcome Z :=
  match n with
  | O => Ok (-1)
  | S n' =>
      match bm !! Z.to_nat i with
      | None => Fail Segv
      | Some w =>
          if w =? 0xffffffff then bm_first_free bm (i + 1) n'
          else match first_clear_bit w 0 32 with
               | Some j => Ok (s32 (i * 32 + j))
               | None => bm_first_free bm (i + 1) n'
               end
      end
  end.

(** The loop [for (count = 0; count <= size; count++)]: [n] rounds to go. *)
Fixpoint bm_run (bm : list Z) (start size count free : Z) (n : nat) : outcome bool :=
  match n with
  | O => Ok false
  | S n' =>
      match bm_test (u32 (start + count)) bm with
      | None => Fail Segv
      | Some b =>
          let free' := if b then free else u32 (free + 1) in
          if free' =? size then Ok true
          else bm_run bm start size (count + 1) free' n'
      end
  end.

(** The loop over the bits of word [i], each clear bit a candidate start. *)
Fixpoint bm_runs_in_word (bm : list Z) (w i size j : Z) (n : nat) : outcome (option Z) :=
  match n with
  | O => Ok None
  | S n' =>
      if Z.land w (bit j) =? 0 then
        match bm_run bm (i * 32 + j) size 0 0 (Z.to_nat (size + 1)) with
        | Ok true => Ok (Some (s32 (i * 32 + j)))
        | Ok false => bm_runs_in_word bm w i size (j + 1) n'
        | Fail f => Fail f
        end
      else bm_runs_in_word bm w i size (j + 1) n'
  end.

Fixpoint bm_first_run (bm : list Z) (size i : Z) (n : nat) : outcome Z :=
  match n with
  | O => Ok (-1)
  | S n' =>
      match bm !! Z.to_nat i with
      | None => Fail Segv
      | Some w =>
          if w =? 0xffffffff then bm_first_run bm size (i + 1) n'
          else match bm_runs_in_word bm w i size 0 32 with
               | Ok (Some r) => Ok r
               | Ok None => bm_first_run bm size (i + 1) n'
               | Fail f => Fail f
               end
      end
  end.

(** Both searches, as the C functions call them with [nwords] words. *)
Definition bm_first_frees (bm : list Z) (nwords size : Z) : outcome Z :=
  if size =? 0 then Ok (-1)
  else if size =? 1 then bm_first_free bm 0 (Z.to_nat nwords)
  else bm_first_run bm size 0 (Z.to_nat nwords).

(** ** The abstract view: which blocks are in use *)

Definition bm_used (bm : list Z) (b : Z) : bool :=
  match bm !! Z.to_nat (b / 32) with
  | Some w => Z.testbit w (b mod 32)
  | None => false
  end.

(** [b] is a block the array has a bit for. *)
Definition bm_in (bm : list Z) (b : Z) : Prop := 0 <= b < 32 * Z.of_nat (length bm).

Definition bm_wf (bm : list Z) : Prop := Forall is_u32 bm.

Lemma bm_in_lookup bm b : bm_in bm b -> exists w, bm !! Z.to_nat (b / 32) = Some w.
Proof.
  unfold bm_in. intros [H0 H1]. apply lookup_lt_is_Some_2.
  assert (b / 32 < Z.of_nat (length bm)) by (apply Z.div_lt_upper_bound; lia).
  assert (0 <= b / 32) by (apply Z.div_pos; lia). lia.
Qed.

Lemma bm_test_used bm b : bm_in bm b -> bm_test b bm = Some (bm_used bm b).
Proof.
  intros H. destruct (bm_in_lookup bm b H) as [w Hw].
  unfold bm_test, bm_used. rewrite Hw.
  rewrite land_bit_eqb, negb_involutive; [done|].
  apply Z.mod_pos_bound. lia.
Qed.

Lemma bm_update_in f b bm : bm_in bm b -> exists bm', bm_update f b bm = Some bm'.
Proof.
  intros H. destruct (bm_in_lookup bm b H) as [w Hw].
  unfold bm_update. rewrite Hw. eauto.
Qed.

Lemma bm_update_length f b bm bm' : bm_update f b bm = Some bm' -> length bm' = length bm.
Proof.
  unfold bm_update. destruct (bm !! _); intros [= <-]. apply length_insert.
Qed.

Lemma bm_update_used f b bm bm' c :
  0 <= b -> 0 <= c -> bm_update f b bm = Some bm' ->
  bm_used bm' c =
    if c / 32 =? b / 32 then
      match bm !! Z.to_nat (b / 32) with
      | Some w => Z.testbit (f w) (c mod 32)
      | None => false
      end
    else bm_used bm c.
Proof.
  unfold bm_update, bm_used. intros Hb Hc.
  destruct (bm !! Z.to_nat (b / 32)) as [w|] eqn:Hw; intros [= <-].
  pose proof (Z.div_pos b 32 Hb ltac:(lia)). pose proof (Z.div_pos c 32 Hc ltac:(lia)).
  destruct (Z.eqb_spec (c / 32) (b / 32)) as [->|Hne].
  - rewrite list_lookup_insert_eq; [done|]. by eapply lookup_lt_Some.
  - rewrite list_lookup_insert_ne; [done|]. lia.
Qed.

Lemma block_eq b c : (c =? b) = (c / 32 =? b / 32) && (c mod 32 =? b mod 32).
Proof.
  pose proof (Z.div_mod b 32 ltac:(lia)). pose proof (Z.div_mod c 32 ltac:(lia)).
  destruct (Z.eqb_spec c b), (Z.eqb_spec (c / 32) (b / 32)), (Z.eqb_spec (c mod 32) (b mod 32));
    subst; try done; lia.
Qed.

(** Setting a block changes that block and no other. *)
Lemma bm_set_used b bm bm' c :
  0 <= b -> 0 <= c -> bm_set b bm = Some bm' -> bm_used bm' c = (c =? b) || bm_used bm c.
Proof.
  intros Hb Hc H. rewrite (bm_update_used _ _ _ _ c Hb Hc H), (block_eq b c).
  pose proof (Z.mod_pos_bound b 32 ltac:(lia)). pose proof (Z.mod_pos_bound c 32 ltac:(lia)).
  unfold bm_used. destruct (Z.eqb_spec (c / 32) (b / 32)) as [->|]; [|done].
  unfold bm_set, bm_update in H. destruct (bm !! Z.to_nat (b / 32)); [|discriminate].
  rewrite Z.lor_spec, testbit_bit by lia. simpl. apply orb_comm.
Qed.

Lemma bm_unset_used b bm bm' c :
  0 <= b -> 0 <= c -> bm_unset b bm = Some bm' -> bm_used bm' c = negb (c =? b) && bm_used bm c.
Proof.
  intros Hb Hc H. rewrite (bm_update_used _ _ _ _ c Hb Hc H), (block_eq b c).
  pose proof (Z.mod_pos_bound b 32 ltac:(lia)). pose proof (Z.mod_pos_bound c 32 ltac:(lia)).
  unfold bm_used. destruct (Z.eqb_spec (c / 32) (b / 32)) as [->|]; [|done].
  unfold bm_unset, bm_update in H. destruct (bm !! Z.to_nat (b / 32)); [|discriminate].
  rewrite Z.land_spec, testbit_lnot32, testbit_bit by lia. simpl. apply andb_comm.
Qed.

Lemma bm_set_wf b bm bm' : 0 <= b -> bm_wf bm -> bm_set b bm = Some bm' -> bm_wf bm'.
Proof.
  unfold bm_set, bm_update, bm_wf. intros Hb Hwf H.
  destruct (bm !! Z.to_nat (b / 32)) as [w|] eqn:Hw; [|discriminate]. injection H as <-.
  apply Forall_insert; [done|]. apply is_u32_lor.
  - by eapply Forall_lookup_1.
  - apply is_u32_bit, Z.mod_pos_bound. lia.
Qed.

Lemma bm_unset_wf b bm bm' : bm_wf bm -> bm_unset b bm = Some bm' -> bm_wf bm'.
Proof.
  unfold bm_unset, bm_update, bm_wf. intros Hwf H.
  destruct (bm !! Z.to_nat (b / 32)) as [w|] eqn:Hw; [|discriminate]. injection H as <-.
  apply Forall_insert; [done|]. apply is_u32_land_l. by eapply Forall_lookup_1.
Qed.

Create HintDb bitmap.
#[export] Hint Resolve bm_set_wf bm_unset_wf : bitmap.

(** ** Correctness of the searches *)

(** [r] is the least block of [lo, hi) with [P], or [-1] when there is none. *)
Definition least_in (P : Z -> Prop) (lo hi r : Z) : Prop :=
  (r = -1 /\ forall b, lo <= b < hi -> ~ P b) \/
  (lo <= r < hi /\ P r /\ forall b, lo <= b < r -> ~ P b).

Lemma least_in_skip (P : Z -> Prop) lo mid hi r :
  lo <= mid <= hi -> (forall b, lo <= b < mid -> ~ P b) ->
  least_in P mid hi r -> least_in P lo hi r.
Proof.
  intros Hm Hno [[-> H]|(Hr & HP & H)]; [left|right].
  - split; [done|]. intros b Hb. destruct (Z.lt_ge_cases b mid); [apply Hno|apply H]; lia.
  - split_and!; [lia..|done|]. intros b Hb.
    destruct (Z.lt_ge_cases b mid); [apply Hno|apply H]; lia.
Qed.

Lemma bm_used_word bm i w k :
  0 <= i -> 0 <= k < 32 -> bm !! Z.to_nat i = Some w -> bm_used bm (32 * i + k) = Z.testbit w k.
Proof.
  intros Hi Hk Hw. unfold bm_used.
  replace (32 * i + k) with (k + i * 32) by lia.
  rewrite Z.div_add, Z.mod_add, (Z.div_small k), (Z.mod_small k) by lia.
  by rewrite Z.add_0_l, Hw.
Qed.

Lemma first_clear_bit_spec w j n :
  0 <= j ->
  match first_clear_bit w j n with
  | Some k => j <= k < j + Z.of_nat n /\ Z.testbit w k = false /\
              forall b, j <= b < k -> Z.testbit w b = true
  | None => forall b, j <= b < j + Z.of_nat n -> Z.testbit w b = true
  end.
Proof.
  revert j. induction n as [|n IH]; intros j Hj; [simpl; intros; lia|].
  cbn [first_clear_bit]. rewrite land_bit_eqb by done.
  destruct (Z.testbit w j) eqn:E; cbn [negb].
  - specialize (IH (j + 1) ltac:(lia)). destruct (first_clear_bit w (j + 1) n) as [k|].
    + destruct IH as (? & ? & H). split_and!; [lia..|done|].
      intros b Hb. destruct (Z.eq_dec b j) as [->|]; [done|apply H; lia].
    + intros b Hb. destruct (Z.eq_dec b j) as [->|]; [done|apply IH; lia].
  - split_and!; [lia..|done|]. intros; lia.
Qed.

Lemma full_word_used bm i w b :
  0 <= i -> bm !! Z.to_nat i = Some w -> (forall k, 0 <= k < 32 -> Z.testbit w k = true) ->
  32 * i <= b < 32 * (i + 1) -> bm_used bm b = true.
Proof.
  intros Hi Hw Hall Hb. replace b with (32 * i + (b - 32 * i)) by lia.
  rewrite (bm_used_word bm i w) by (done || lia). apply Hall. lia.
Qed.

Lemma bm_first_free_spec bm i n :
  bm_wf bm -> 0 <= i -> i + Z.of_nat n <= Z.of_nat (length bm) -> 32 * (i + Z.of_nat n) <= 2 ^ 31 ->
  exists r, bm_first_free bm i n = Ok r /\
    least_in (fun b => bm_used bm b = false) (32 * i) (32 * (i + Z.of_nat n)) r.
Proof.
  intros Hwf. revert i. induction n as [|n IH]; intros i Hi Hlen Hmax.
  { exists (-1). split; [done|]. left. split; [done|]. intros; lia. }
  cbn [bm_first_free].
  destruct (lookup_lt_is_Some_2 bm (Z.to_nat i)) as [w Hw]; [lia|]. rewrite Hw.
  assert (is_u32 w) as Hu by (by eapply Forall_lookup_1).
  destruct (IH (i + 1)) as (r & Hr & Hl); [lia..|].
  assert (forall k, 0 <= k < 32 -> bm_used bm (32 * i + k) = Z.testbit w k) as Hbits
    by (intros; by apply bm_used_word).
  replace (32 * (i + 1 + Z.of_nat n)) with (32 * (i + Z.of_nat (S n))) in Hl by lia.
  destruct (Z.eqb_spec w 0xffffffff) as [Hff|Hne].
  - exists r. split; [done|]. eapply least_in_skip; [|intros b Hb|exact Hl]; [lia|].
    rewrite (full_word_used bm i w b) by (done || by apply word_ones_all). done.
  - pose proof (first_clear_bit_spec w 0 32 ltac:(lia)) as Hfc.
    destruct (first_clear_bit w 0 32) as [k|].
    + destruct Hfc as (Hk & Hclr & Hbelow). eexists. split; [reflexivity|].
      rewrite s32_small by lia. right. replace (i * 32 + k) with (32 * i + k) by lia.
      split_and!; [lia..|by rewrite Hbits by lia|]. intros b Hb.
      replace b with (32 * i + (b - 32 * i)) by lia. rewrite Hbits, Hbelow by lia. done.
    + exfalso. apply Hne, word_ones_all; [done|]. intros k Hk. apply Hfc. lia.
Qed.

(** How many of the [n] blocks from [s] are free. *)
Fixpoint free_in (bm : list Z) (s : Z) (n : nat) : Z :=
  match n with
  | O => 0
  | S n' => (if bm_used bm s then 0 else 1) + free_in bm (s + 1) n'
  end.

Lemma free_in_bounds bm s n : 0 <= free_in bm s n <= Z.of_nat n.
Proof. revert s. induction n as [|n IH]; intros s; simpl; [lia|]. specialize (IH (s + 1)). destruct (bm_used bm s); lia. Qed.

Lemma bm_run_spec bm start size count free n :
  0 <= start -> 0 <= count -> start + count + Z.of_nat n <= 32 * Z.of_nat (length bm) ->
  start + count + Z.of_nat n <= 2 ^ 32 -> 0 <= free < size -> size < 2 ^ 32 ->
  bm_run bm start size count free n = Ok (size <=? free + free_in bm (start + count) n).
Proof.
  intros Hs. revert count free. induction n as [|n IH]; intros count free Hc Hlen Hmax Hf Hsz.
  { cbn [bm_run free_in]. f_equal. symmetry. apply Z.leb_gt. lia. }
  cbn [bm_run free_in]. rewrite u32_small by (unfold is_u32; lia).
  rewrite bm_test_used by (unfold bm_in; lia).
  pose proof (free_in_bounds bm (start + count + 1) n) as Hb.
  destruct (bm_used bm (start + count)).
  - destruct (Z.eqb_spec free size); [lia|].
    rewrite IH, Z.add_assoc by lia. f_equal; lia.
  - rewrite u32_small by (unfold is_u32; lia). destruct (Z.eqb_spec (free + 1) size).
    + f_equal. symmetry. apply Z.leb_le. lia.
    + rewrite IH, Z.add_assoc by lia. f_equal; lia.
Qed.

(** A start that [bm_first_run] accepts: free, with at most one used block in
    the [size + 1] blocks from it. *)
Definition run_start (bm : list Z) (size s : Z) : Prop :=
  bm_used bm s = false /\ size <= free_in bm s (Z.to_nat (size + 1)).

Lemma bm_runs_in_word_spec bm w i size j n :
  0 <= i -> 0 <= j -> j + Z.of_nat n <= 32 -> bm !! Z.to_nat i = Some w ->
  1 <= size -> 32 * (i + 1) + size <= 32 * Z.of_nat (length bm) ->
  32 * (i + 1) + size < 2 ^ 31 ->
  exists r, bm_runs_in_word bm w i size j n = Ok r /\
    match r with
    | Some b => 32 * i + j <= b < 32 * i + j + Z.of_nat n /\ run_start bm size b /\
                forall c, 32 * i + j <= c < b -> ~ run_start bm size c
    | None => forall c, 32 * i + j <= c < 32 * i + j + Z.of_nat n -> ~ run_start bm size c
    end.
Proof.
  intros Hi Hj Hn Hw Hsz Hlen Hmax. revert j Hj Hn.
  induction n as [|n IH]; intros j Hj Hn.
  { exists None. split; [done|]. intros; lia. }
  cbn [bm_runs_in_word]. rewrite land_bit_eqb by done.
  rewrite <- (bm_used_word bm i w j) by (done || lia).
  destruct (IH (j + 1)) as (r & Hr & Hl); [lia..|].
  assert (~ run_start bm size (32 * i + j) ->
    exists r, bm_runs_in_word bm w i size (j + 1) n = Ok r /\
    match r with
    | Some b => 32 * i + j <= b < 32 * i + j + Z.of_nat (S n) /\ run_start bm size b /\
                forall c, 32 * i + j <= c < b -> ~ run_start bm size c
    | None => forall c, 32 * i + j <= c < 32 * i + j + Z.of_nat (S n) -> ~ run_start bm size c
    end) as Hnext.
  { intros Hno. exists r. split; [done|]. destruct r as [b|].
    - destruct Hl as (? & ? & Hl). split_and!; [lia..|done|]. intros c Hc.
      destruct (Z.eq_dec c (32 * i + j)) as [->|]; [done|apply Hl; lia].
    - intros c Hc. destruct (Z.eq_dec c (32 * i + j)) as [->|]; [done|apply Hl; lia]. }
  destruct (bm_used bm (32 * i + j)) eqn:Eu; cbn [negb].
  { apply Hnext. intros [Hu _]. congruence. }
  replace (i * 32 + j) with (32 * i + j) by lia.
  rewrite bm_run_spec by lia. rewrite Z.add_0_r, Z.add_0_l.
  destruct (Z.leb_spec size (free_in bm (32 * i + j) (Z.to_nat (size + 1)))) as [Hle|Hgt].
  - eexists. split; [reflexivity|]. cbn. rewrite s32_small by lia.
    split_and!; [lia..|done|]. intros; lia.
  - apply Hnext. intros [_ Hr']. lia.
Qed.

Lemma bm_first_run_spec bm size i n :
  bm_wf bm -> 0 <= i -> 1 <= size ->
  32 * (i + Z.of_nat n) + size <= 32 * Z.of_nat (length bm) ->
  32 * (i + Z.of_nat n) + size < 2 ^ 31 ->
  exists r, bm_first_run bm size i n = Ok r /\
    least_in (run_start bm size) (32 * i) (32 * (i + Z.of_nat n)) r.
Proof.
  intros Hwf. revert i. induction n as [|n IH]; intros i Hi Hsz Hlen Hmax.
  { exists (-1). split; [done|]. left. split; [done|]. intros; lia. }
  cbn [bm_first_run].
  destruct (lookup_lt_is_Some_2 bm (Z.to_nat i)) as [w Hw]; [lia|]. rewrite Hw.
  assert (is_u32 w) as Hu by (by eapply Forall_lookup_1).
  destruct (IH (i + 1)) as (r & Hr & Hl); [lia..|].
  replace (32 * (i + 1 + Z.of_nat n)) with (32 * (i + Z.of_nat (S n))) in Hl by lia.
  destruct (Z.eqb_spec w 0xffffffff) as [Hff|Hne].
  - exists r. split; [done|]. eapply least_in_skip; [|intros b Hb [Hfree _]|exact Hl]; [lia|].
    rewrite (full_word_used bm i w b) in Hfree by (done || by apply word_ones_all). done.
  - destruct (bm_runs_in_word_spec bm w i size 0 32) as (o & -> & Ho); [lia..|done|lia|lia|lia|].
    destruct o as [b|].
    + exists b. split; [done|]. right. destruct Ho as (? & ? & Ho).
      split_and!; [lia..|done|]. intros c Hc. apply Ho. lia.
    + exists r. split; [done|]. eapply least_in_skip; [|intros b Hb|exact Hl]; [lia|].
      apply Ho. lia.
Qed.

(** Bitmaps of equal length that agree on every block are equal. *)
Lemma bm_ext bm bm' :
  bm_wf bm -> bm_wf bm' -> length bm = length bm' ->
  (forall c, 0 <= c -> bm_used bm c = bm_used bm' c) -> bm = bm'.
Proof.
  intros W W' L H. apply list_eq. intros i.
  destruct (bm !! i) as [w|] eqn:E, (bm' !! i) as [w'|] eqn:E'.
  - f_equal. apply u32_eq_testbit;
      [exact (Forall_lookup_1 _ _ _ _ W E)|exact (Forall_lookup_1 _ _ _ _ W' E')|]. intros k Hk.
    rewrite <- (bm_used_word bm (Z.of_nat i)), <- (bm_used_word bm' (Z.of_nat i)) by (rewrite ?Nat2Z.id; done || lia).
    apply H. lia.
  - apply lookup_lt_Some in E. apply lookup_ge_None in E'. lia.
  - apply lookup_lt_Some in E'. apply lookup_ge_None in E. lia.
  - done.
Qed.

(** How many of the [n] blocks from [s] are in use. *)
Definition used_in (bm : list Z) (s : Z) (n : nat) : Z := Z.of_nat n - free_in bm s n.

Lemma used_in_bounds bm s n : 0 <= used_in bm s n <= Z.of_nat n.
Proof. unfold used_in. pose proof (free_in_bounds bm s n). lia. Qed.

Lemma free_in_ext bm bm' s n :
  (forall c, s <= c < s + Z.of_nat n -> bm_used bm c = bm_used bm' c) ->
  free_in bm s n = free_in bm' s n.
Proof.
  revert s. induction n as [|n IH]; intros s H; [done|]. cbn [free_in].
  rewrite H by lia. f_equal. apply IH. intros c Hc. apply H. lia.
Qed.

(** Flipping one block of the range from free to used. *)
Lemma free_in_set bm bm' f s n :
  s <= f < s + Z.of_nat n -> bm_used bm f = false ->
  (forall c, s <= c < s + Z.of_nat n -> bm_used bm' c = (c =? f) || bm_used bm c) ->
  free_in bm s n = free_in bm' s n + 1.
Proof.
  revert s. induction n as [|n IH]; intros s Hf Hfree H; [lia|]. cbn [free_in].
  destruct (Z.eq_dec f s) as [->|Hne].
  - rewrite (H s), Hfree, Z.eqb_refl by lia. cbn.
    rewrite (free_in_ext bm bm'); [lia|]. intros c Hc. rewrite (H c) by lia.
    destruct (Z.eqb_spec c s); [lia|done].
  - rewrite (H s) by lia. destruct (Z.eqb_spec s f); [lia|]. cbn.
    rewrite (IH (s + 1)); [lia|lia|done|]. intros c Hc. apply H. lia.
Qed.

Lemma used_in_set bm bm' f s n :
  s <= f < s + Z.of_nat n -> bm_used bm f = false ->
  (forall c, s <= c < s + Z.of_nat n -> bm_used bm' c = (c =? f) || bm_used bm c) ->
  used_in bm' s n = used_in bm s n + 1.
Proof. intros. unfold used_in. rewrite (free_in_set bm bm' f s n); [lia|done..]. Qed.

Lemma free_in_none bm s n :
  (forall c, s <= c < s + Z.of_nat n -> bm_used bm c = true) -> free_in bm s n = 0.
Proof.
  revert s. induction n as [|n IH]; intros s H; [done|]. cbn [free_in].
  rewrite H by lia. rewrite IH; [done|]. intros c Hc. apply H. lia.
Qed.

Lemma free_in_all bm s n :
  (forall c, s <= c < s + Z.of_nat n -> bm_used bm c = false) -> free_in bm s n = Z.of_nat n.
Proof.
  revert s. induction n as [|n IH]; intros s H; [done|]. cbn [free_in].
  rewrite H by lia. rewrite IH; [lia|]. intros c Hc. apply H. lia.
Qed.
