(* ===== verification/Pmm.v ===== *)
(** * The physical memory manager ([memory/pmm.c])

    One bit per 4 KiB frame, in an array of words that starts at [KERNEL_END].
    [memory_bitmap] is the memory from there on: [pmm_init] lays the bitmap
    over its first [memory_bitmap_size] bytes, and nothing in the code keeps
    later accesses inside them, so the list may be longer than the bitmap. *)
From S2P Require Import Prelude Bitmap.
From Stdlib Require Import ZArith Lia Bool.
From stdpp Require Import base list option relations.

Open Scope Z_scope.

Definition PMM_FRAMES_PER_BYTE : Z := 8.
Definition PMM_FRAME_SIZE : Z := 4096.
Definition PAGE_MASK : Z := lnot32 (PMM_FRAME_SIZE - 1).
Definition PAGE_ALIGN (addr : Z) : Z := Z.land (u32 (addr + PMM_FRAME_SIZE - 1)) PAGE_MASK.

(** The file-scope variables of pmm.c. *)
Record pmm := mk_pmm {
  memory_bitmap : list Z;
  max_frames : Z;
  used_frames : Z;
  memory_size : Z;
  memory_bitmap_size : Z;
}.

Definition with_bitmap (bm : list Z) (s : pmm) : pmm :=
  mk_pmm bm (max_frames s) (used_frames s) (memory_size s) (memory_bitmap_size s).
Definition with_used (u : Z) (s : pmm) : pmm :=
  mk_pmm (memory_bitmap s) (max_frames s) u (memory_size s) (memory_bitmap_size s).

(** A write to the bitmap, faulting outside the array. *)
Definition on_bitmap (f : list Z -> option (list Z)) : M pmm unit := fun s =>
  match f (memory_bitmap s) with
  | Some bm => Ok (tt, with_bitmap bm s)
  | None => Fail Segv
  end.

Definition memory_bitmap_set (frame : Z) : M pmm unit := on_bitmap (bm_set frame).
Definition memory_bitmap_unset (frame : Z) : M pmm unit := on_bitmap (bm_unset frame).
Definition memory_bitmap_test (frame : Z) : M pmm bool :=
  deref (fun s => bm_test frame (memory_bitmap s)).

Definition memory_bitmap_first_free : M pmm Z := fun s =>
  mlift (bm_first_free (memory_bitmap s) 0 (Z.to_nat (max_frames s / 32))) s.
Definition memory_bitmap_first_frees (size : Z) : M pmm Z := fun s =>
  mlift (bm_first_frees (memory_bitmap s) (max_frames s / 32) size) s.

Definition inc_used : M pmm unit := modify (fun s => with_used (u32 (used_frames s + 1)) s).
Definition dec_used : M pmm unit := modify (fun s => with_used (u32 (used_frames s - 1)) s).

(** [for (i = 0; i < frames; ++i) { set(frame + i); used_frames++; }] *)
Fixpoint set_frames (frame i : Z) (n : nat) : M pmm unit :=
  match n with
  | O => mret tt
  | S n' =>
      memory_bitmap_set (u32 (frame + i)) ;;
      inc_used ;;
      set_frames frame (i + 1) n'
  end.
Fixpoint unset_frames (frame i : Z) (n : nat) : M pmm unit :=
  match n with
  | O => mret tt
  | S n' =>
      memory_bitmap_unset (u32 (frame + i)) ;;
      dec_used ;;
      unset_frames frame (i + 1) n'
  end.

Definition pmm_init_region (addr length : Z) : M pmm unit :=
  let frame := addr / PMM_FRAME_SIZE in
  let frames := div_ceil length PMM_FRAME_SIZE in
  unset_frames frame 0 (Z.to_nat frames) ;;
  memory_bitmap_set 0.

Definition pmm_deinit_region (addr length : Z) : M pmm unit :=
  let frame := addr / PMM_FRAME_SIZE in
  let frames := div_ceil length PMM_FRAME_SIZE in
  set_frames frame 0 (Z.to_nat frames).

Definition pmm_alloc_block : M pmm Z :=
  s ← gets id;
  if max_frames s <=? used_frames s then mret 0
  else
    frame ← memory_bitmap_first_free;
    if frame =? -1 then mret 0
    else
      memory_bitmap_set (u32 frame) ;;
      inc_used ;;
      mret (u32 (frame * PMM_FRAME_SIZE)).

Definition pmm_alloc_blocks (size : Z) : M pmm Z :=
  s ← gets id;
  if u32 (max_frames s - used_frames s) <? size then mret 0
  else
    frame ← memory_bitmap_first_frees size;
    if frame =? -1 then mret 0
    else
      set_frames frame 0 (Z.to_nat size) ;;
      mret (u32 (frame * PMM_FRAME_SIZE)).

Definition pmm_free_block (p : Z) : M pmm unit :=
  memory_bitmap_unset (p / PMM_FRAME_SIZE) ;;
  dec_used.

Definition pmm_mark_used_addr (paddr : Z) : M pmm unit :=
  let frame := paddr / PMM_FRAME_SIZE in
  used ← memory_bitmap_test frame;
  if negb used then memory_bitmap_set frame ;; inc_used else mret tt.

Definition get_total_frames : M pmm Z := gets max_frames.

(** ** Boot-time initialisation *)

(** [struct multiboot_mmap_entry]: 64-bit [addr] and [len], 32-bit [type]. *)
Record mmap_entry := mk_mmap_entry {
  me_addr : Z;
  me_len : Z;
  me_type : Z;
}.

(** The entries up to [multiboot_mmap->size]; both 64-bit fields are passed
    to [uint32_t] parameters. *)
Fixpoint pmm_regions (entries : list mmap_entry) : M pmm unit :=
  match entries with
  | [] => mret tt
  | e :: rest =>
      if (4 <? me_type e) && (me_addr e =? 0) then mret tt
      else
        (if me_type e =? 1 then pmm_init_region (u32 (me_addr e)) (u32 (me_len e)) else mret tt) ;;
        pmm_regions rest
  end.

(** [memset(memory_bitmap, 0xff, n)] over little-endian words. *)
Fixpoint memset_ff (n : Z) (l : list Z) : option (list Z) :=
  if n <=? 0 then Some l
  else match l with
       | [] => None
       | w :: l' =>
           if 4 <=? n then cons 0xffffffff <$> memset_ff (n - 4) l'
           else Some (Z.lor w (Z.ones (8 * n)) :: l')
       end.

Section init.
(** Addresses the linker script defines. *)
Context (KERNEL_BOOT KERNEL_START KERNEL_END : Z).

Definition pmm_init (mem_lower mem_upper : Z) (entries : list mmap_entry) : M pmm unit :=
  let size := u32 ((mem_lower + mem_upper) * 1024) in
  let frames := div_ceil size PMM_FRAME_SIZE in
  let bytes := div_ceil frames PMM_FRAMES_PER_BYTE in
  modify (fun s => mk_pmm (memory_bitmap s) frames frames size bytes) ;;
  on_bitmap (memset_ff bytes) ;;
  pmm_regions entries ;;
  pmm_deinit_region 0 KERNEL_BOOT ;;
  pmm_deinit_region KERNEL_BOOT (u32 (KERNEL_END - KERNEL_START + bytes)).
End init.

(** ** Well-formedness and the abstract view *)

Definition frame_used (s : pmm) (f : Z) : bool := bm_used (memory_bitmap s) f.

(** What every operation below keeps true: the words are 32-bit, the array
    covers the frames the searches scan, the counters are [uint32_t]s of a
    32-bit machine's memory, and frame 0 is never handed out. *)
Record pmm_wf (s : pmm) : Prop := {
  wf_words : bm_wf (memory_bitmap s);
  wf_max : 0 <= max_frames s <= 2 ^ 20;
  wf_len : max_frames s <= 32 * Z.of_nat (length (memory_bitmap s));
  wf_used : is_u32 (used_frames s);
  wf_zero : frame_used s 0 = true;
}.

(** Frames the searches can return. *)
Definition scanned (s : pmm) : Z := 32 * (max_frames s / 32).

Lemma scanned_bounds s : 0 <= max_frames s -> 0 <= scanned s <= max_frames s.
Proof.
  intros H. unfold scanned. pose proof (Z.div_pos (max_frames s) 32 H ltac:(lia)).
  pose proof (Z.mul_div_le (max_frames s) 32 ltac:(lia)). lia.
Qed.

(** The state with another bitmap and another count. *)
Definition restate (bm : list Z) (u : Z) (s : pmm) : pmm := with_used u (with_bitmap bm s).

(** [bm'] is [bm] with the blocks' use given by [P]. *)
Record bm_becomes (bm bm' : list Z) (P : Z -> bool) : Prop := {
  bb_len : length bm' = length bm;
  bb_wf : bm_wf bm';
  bb_used : forall c, 0 <= c -> bm_used bm' c = P c;
}.

Lemma bm_becomes_refl bm : bm_wf bm -> bm_becomes bm bm (bm_used bm).
Proof. done. Qed.

Lemma bitmap_set_ok f s :
  bm_wf (memory_bitmap s) -> bm_in (memory_bitmap s) f ->
  exists bm', memory_bitmap_set f s = Ok (tt, with_bitmap bm' s) /\
    bm_becomes (memory_bitmap s) bm' (fun c => (c =? f) || frame_used s c).
Proof.
  intros Hwf Hin. pose proof Hin as [Hf _].
  destruct (bm_update_in (fun w => Z.lor w (bit (f mod 32))) f _ Hin) as [bm' Hbm].
  exists bm'. unfold memory_bitmap_set, on_bitmap. fold (bm_set f) in Hbm. rewrite Hbm.
  split; [done|]. split.
  - by eapply bm_update_length.
  - by eapply bm_set_wf.
  - intros c Hc. by apply bm_set_used.
Qed.

Lemma bitmap_unset_ok f s :
  bm_wf (memory_bitmap s) -> bm_in (memory_bitmap s) f ->
  exists bm', memory_bitmap_unset f s = Ok (tt, with_bitmap bm' s) /\
    bm_becomes (memory_bitmap s) bm' (fun c => negb (c =? f) && frame_used s c).
Proof.
  intros Hwf Hin. pose proof Hin as [Hf _].
  destruct (bm_update_in (fun w => Z.land w (lnot32 (bit (f mod 32)))) f _ Hin) as [bm' Hbm].
  exists bm'. unfold memory_bitmap_unset, on_bitmap. fold (bm_unset f) in Hbm. rewrite Hbm.
  split; [done|]. split.
  - by eapply bm_update_length.
  - by eapply bm_unset_wf.
  - intros c Hc. by apply bm_unset_used.
Qed.

(** The two region loops set, or clear, exactly the frames of their range. *)
Lemma set_frames_ok frame i n s :
  bm_wf (memory_bitmap s) -> is_u32 (used_frames s) -> 0 <= frame + i ->
  frame + i + Z.of_nat n <= 32 * Z.of_nat (length (memory_bitmap s)) ->
  frame + i + Z.of_nat n <= 2 ^ 32 ->
  exists bm', set_frames frame i n s = Ok (tt, restate bm' (u32 (used_frames s + Z.of_nat n)) s) /\
    bm_becomes (memory_bitmap s) bm'
      (fun c => (frame + i <=? c) && (c <? frame + i + Z.of_nat n) || frame_used s c).
Proof.
  revert i s. induction n as [|n IH]; intros i s Hwf Hu H0 Hlen Hmax.
  { exists (memory_bitmap s). split.
    - rewrite Z.add_0_r, (u32_small _ Hu). destruct s; done.
    - split; [done..|]. intros c Hc. unfold frame_used.
      destruct (Z.leb_spec (frame + i) c), (Z.ltb_spec c (frame + i + Z.of_nat 0)); done || lia. }
  cbn [set_frames]. rewrite u32_small by (unfold is_u32; lia).
  destruct (bitmap_set_ok (frame + i) s Hwf) as (bm1 & E1 & B1); [unfold bm_in; lia|].
  erewrite bind_step by exact E1. erewrite bind_step by reflexivity.
  destruct (IH (i + 1) (with_used (u32 (used_frames s + 1)) (with_bitmap bm1 s))) as (bm2 & E2 & B2);
    cbn; rewrite ?(bb_len _ _ _ B1); [by eapply bb_wf|apply u32_range|lia..|].
  exists bm2. cbn in E2. rewrite E2. split.
  - rewrite u32_add_l. by replace (used_frames s + 1 + Z.of_nat n) with (used_frames s + Z.of_nat (S n)) by lia.
  - destruct B1 as [L1 W1 U1], B2 as [L2 W2 U2]. split; [by rewrite L2|done|].
    intros c Hc. rewrite U2 by done. cbn. unfold frame_used at 1. cbn. rewrite U1 by done.
    destruct (Z.eqb_spec c (frame + i)), (Z.leb_spec (frame + (i + 1)) c),
      (Z.ltb_spec c (frame + (i + 1) + Z.of_nat n)), (Z.leb_spec (frame + i) c),
      (Z.ltb_spec c (frame + i + Z.of_nat (S n))); cbn; done || lia.
Qed.

Lemma unset_frames_ok frame i n s :
  bm_wf (memory_bitmap s) -> is_u32 (used_frames s) -> 0 <= frame + i ->
  frame + i + Z.of_nat n <= 32 * Z.of_nat (length (memory_bitmap s)) ->
  frame + i + Z.of_nat n <= 2 ^ 32 ->
  exists bm', unset_frames frame i n s = Ok (tt, restate bm' (u32 (used_frames s - Z.of_nat n)) s) /\
    bm_becomes (memory_bitmap s) bm'
      (fun c => negb ((frame + i <=? c) && (c <? frame + i + Z.of_nat n)) && frame_used s c).
Proof.
  revert i s. induction n as [|n IH]; intros i s Hwf Hu H0 Hlen Hmax.
  { exists (memory_bitmap s). split.
    - rewrite Z.sub_0_r, (u32_small _ Hu). destruct s; done.
    - split; [done..|]. intros c Hc. unfold frame_used.
      destruct (Z.leb_spec (frame + i) c), (Z.ltb_spec c (frame + i + Z.of_nat 0)); done || lia. }
  cbn [unset_frames]. rewrite u32_small by (unfold is_u32; lia).
  destruct (bitmap_unset_ok (frame + i) s Hwf) as (bm1 & E1 & B1); [unfold bm_in; lia|].
  erewrite bind_step by exact E1. erewrite bind_step by reflexivity.
  destruct (IH (i + 1) (with_used (u32 (used_frames s - 1)) (with_bitmap bm1 s))) as (bm2 & E2 & B2);
    cbn; rewrite ?(bb_len _ _ _ B1); [by eapply bb_wf|apply u32_range|lia..|].
  exists bm2. cbn in E2. rewrite E2. split.
  - rewrite u32_sub_l. by replace (used_frames s - 1 - Z.of_nat n) with (used_frames s - Z.of_nat (S n)) by lia.
  - destruct B1 as [L1 W1 U1], B2 as [L2 W2 U2]. split; [by rewrite L2|done|].
    intros c Hc. rewrite U2 by done. cbn. unfold frame_used at 1. cbn. rewrite U1 by done.
    destruct (Z.eqb_spec c (frame + i)), (Z.leb_spec (frame + (i + 1)) c),
      (Z.ltb_spec c (frame + (i + 1) + Z.of_nat n)), (Z.leb_spec (frame + i) c),
      (Z.ltb_spec c (frame + i + Z.of_nat (S n))); cbn; done || lia.
Qed.

(** ** Allocation of one frame *)

(** What [pmm_alloc_block] does to a well-formed allocator. *)
Inductive alloc_result (s s' : pmm) : Z -> Prop :=
| alloc_exhausted :
    s' = s ->
    max_frames s <= used_frames s \/ (forall f, 0 <= f < scanned s -> frame_used s f = true) ->
    alloc_result s s' 0
| alloc_frame f :
    0 < f < scanned s ->
    frame_used s f = false ->
    (forall g, 0 <= g < f -> frame_used s g = true) ->
    used_frames s < max_frames s ->
    s' = restate (memory_bitmap s') (used_frames s + 1) s ->
    bm_becomes (memory_bitmap s) (memory_bitmap s') (fun g => (g =? f) || frame_used s g) ->
    alloc_result s s' (f * PMM_FRAME_SIZE).

Lemma pmm_wf_restate s bm u P :
  pmm_wf s -> bm_becomes (memory_bitmap s) bm P -> P 0 = true -> is_u32 u ->
  pmm_wf (restate bm u s).
Proof.
  intros [] [L W U] HP Hu. split; cbn; rewrite ?L; try done.
  unfold frame_used. cbn. by rewrite U by lia.
Qed.

Lemma pmm_alloc_block_ok s :
  pmm_wf s -> exists r s', pmm_alloc_block s = Ok (r, s') /\ pmm_wf s' /\ alloc_result s s' r.
Proof.
  intros Hwf. pose proof Hwf as [W Hmax Hlen Hu Hz].
  unfold pmm_alloc_block. erewrite bind_step by reflexivity. cbn [id].
  destruct (Z.leb_spec (max_frames s) (used_frames s)) as [Hfull|Hroom].
  { exists 0, s. split_and!; [done..|]. apply alloc_exhausted; auto. }
  pose proof (scanned_bounds s ltac:(lia)) as Hsc. unfold scanned in Hsc.
  destruct (bm_first_free_spec (memory_bitmap s) 0 (Z.to_nat (max_frames s / 32)) W)
    as (r & Hr & Hl); [lia..|].
  erewrite bind_step by (unfold memory_bitmap_first_free; rewrite Hr; reflexivity).
  replace (32 * (0 + Z.of_nat (Z.to_nat (max_frames s / 32)))) with (scanned s) in Hl
    by (unfold scanned; lia).
  destruct Hl as [[-> Hall]|(Hrange & Hfree & Hleast)].
  - exists 0, s. split_and!; [done..|]. apply alloc_exhausted; [done|]. right.
    intros f Hf. specialize (Hall f ltac:(lia)). unfold frame_used.
    by destruct (bm_used (memory_bitmap s) f).
  - destruct (Z.eqb_spec r (-1)); [lia|]. unfold scanned in Hrange.
    assert (r <> 0) by (intros ->; unfold frame_used in Hz; congruence).
    rewrite (u32_small r) by (unfold is_u32; lia).
    destruct (bitmap_set_ok r s W) as (bm & E & B); [unfold bm_in; lia|].
    erewrite bind_step by exact E. erewrite bind_step by reflexivity.
    rewrite !u32_small by (unfold is_u32, PMM_FRAME_SIZE in *; cbn; lia). cbn.
    exists (r * PMM_FRAME_SIZE), (restate bm (used_frames s + 1) s). split_and!; [done|..].
    + eapply pmm_wf_restate; [done..| |unfold is_u32 in *; lia].
      cbn. by rewrite Hz, orb_true_r.
    + apply alloc_frame; cbn; try done.
      * unfold scanned. lia.
      * intros g Hg. specialize (Hleast g ltac:(lia)). unfold frame_used.
        by destruct (bm_used (memory_bitmap s) g).
Qed.

(** ** Freeing a frame *)

Lemma pmm_free_block_ok s f :
  pmm_wf s -> 0 < f < max_frames s ->
  exists s', pmm_free_block (f * PMM_FRAME_SIZE) s = Ok (tt, s') /\ pmm_wf s' /\
    s' = restate (memory_bitmap s') (u32 (used_frames s - 1)) s /\
    bm_becomes (memory_bitmap s) (memory_bitmap s') (fun g => negb (g =? f) && frame_used s g).
Proof.
  intros Hwf Hf. pose proof Hwf as [W Hmax Hlen Hu Hz]. unfold pmm_free_block.
  rewrite Z.div_mul by (unfold PMM_FRAME_SIZE; lia).
  destruct (bitmap_unset_ok f s W) as (bm & E & B); [unfold bm_in; lia|].
  erewrite bind_step by exact E.
  exists (restate bm (u32 (used_frames s - 1)) s). split_and!; [done| |done|done].
  eapply pmm_wf_restate; [done..| |apply u32_range].
  cbn. rewrite Hz. destruct f; [lia|done|lia].
Qed.

Lemma pmm_mark_used_ok s f :
  pmm_wf s -> 0 <= f < max_frames s -> 
  exists s', pmm_mark_used_addr (f * PMM_FRAME_SIZE) s = Ok (tt, s') /\ pmm_wf s' /\
    s' = restate (memory_bitmap s') (if frame_used s f then used_frames s else u32 (used_frames s + 1)) s /\
    bm_becomes (memory_bitmap s) (memory_bitmap s') (fun g => (g =? f) || frame_used s g).
Proof.
  intros Hwf Hf. pose proof Hwf as [W Hmax Hlen Hu Hz]. unfold pmm_mark_used_addr.
  rewrite Z.div_mul by (unfold PMM_FRAME_SIZE; lia).
  erewrite bind_step by (apply deref_some, bm_test_used; unfold bm_in; lia).
  fold (frame_used s f). destruct (frame_used s f) eqn:E; cbn [negb].
  - exists s. split_and!; [done..|by destruct s|]. split; [done..|]. intros c Hc.
    fold (frame_used s c). destruct (Z.eqb_spec c f) as [->|]; [by rewrite E|done].
  - destruct (bitmap_set_ok f s W) as (bm & Es & B); [unfold bm_in; lia|].
    erewrite bind_step by exact Es.
    exists (restate bm (u32 (used_frames s + 1)) s). split_and!; [done| |done|done].
    eapply pmm_wf_restate; [done..| |apply u32_range]. cbn. by rewrite Hz, orb_true_r.
Qed.

(** ** Accounting *)

(** Frames in use below [max_frames], and how far [used_frames] is ahead. *)
Definition count_used (s : pmm) : Z := used_in (memory_bitmap s) 0 (Z.to_nat (max_frames s)).
Definition drift (s : pmm) : Z := used_frames s - count_used s.

(** One call of the allocator by the rest of the kernel: frames are freed
    only while in use, and marked only inside the managed range. *)
Inductive pmm_step (s s' : pmm) : Prop :=
| step_alloc r : pmm_alloc_block s = Ok (r, s') -> pmm_step s s'
| step_free f : 0 < f < max_frames s -> frame_used s f = true ->
    pmm_free_block (f * PMM_FRAME_SIZE) s = Ok (tt, s') -> pmm_step s s'
| step_mark f : 0 <= f < max_frames s ->
    pmm_mark_used_addr (f * PMM_FRAME_SIZE) s = Ok (tt, s') -> pmm_step s s'.

(** The invariant: well-formed, and the counter never behind the bitmap. *)
Definition pmm_inv (d : Z) (s : pmm) : Prop := pmm_wf s /\ drift s = d /\ 0 <= d <= 2 ^ 31.

Lemma count_used_set s s' f :
  0 <= f < max_frames s -> frame_used s f = false -> max_frames s' = max_frames s ->
  bm_becomes (memory_bitmap s) (memory_bitmap s') (fun g => (g =? f) || frame_used s g) ->
  count_used s' = count_used s + 1.
Proof.
  intros Hf Hfree Hm [_ _ U]. unfold count_used. rewrite Hm.
  apply (used_in_set _ _ f); [lia|done|]. intros c Hc. apply U. lia.
Qed.

Lemma count_used_unset s s' f :
  0 <= f < max_frames s -> frame_used s f = true -> max_frames s' = max_frames s ->
  bm_becomes (memory_bitmap s) (memory_bitmap s') (fun g => negb (g =? f) && frame_used s g) ->
  count_used s' = count_used s - 1.
Proof.
  intros Hf Husd Hm [_ _ U]. unfold count_used. rewrite Hm.
  enough (used_in (memory_bitmap s) 0 (Z.to_nat (max_frames s)) =
          used_in (memory_bitmap s') 0 (Z.to_nat (max_frames s)) + 1) by lia.
  apply (used_in_set _ _ f); [lia|by rewrite U, Z.eqb_refl by lia|].
  intros c Hc. rewrite U by lia. destruct (Z.eqb_spec c f) as [->|]; [done|reflexivity].
Qed.

Lemma count_used_bounds s : 0 <= max_frames s -> 0 <= count_used s <= max_frames s.
Proof. intros H. unfold count_used. pose proof (used_in_bounds (memory_bitmap s) 0 (Z.to_nat (max_frames s))). lia. Qed.

Lemma pmm_step_inv d s s' : pmm_inv d s -> pmm_step s s' -> pmm_inv d s'.
Proof.
  intros (Hwf & Hd & Hd0) Hstep. pose proof Hwf as [W Hmax Hlen Hu Hz].
  pose proof (count_used_bounds s ltac:(lia)) as Hc. unfold drift in Hd.
  destruct Hstep as [r E|f Hf Husd E|f Hf E].
  - destruct (pmm_alloc_block_ok s Hwf) as (r' & s1 & E' & Hwf' & Hres).
    rewrite E in E'. injection E' as <- <-. destruct Hres as [->|f Hf Hfree _ Hroom Hs' HB]; [done|].
    assert (count_used s' = count_used s + 1).
    { apply (count_used_set s s' f); [|done|by rewrite Hs'|done].
      pose proof (scanned_bounds s ltac:(lia)). lia. }
    split_and!; [done| |lia..]. unfold drift. rewrite Hs' at 1. cbn. lia.
  - destruct (pmm_free_block_ok s f Hwf Hf) as (s1 & E' & Hwf' & Hs' & HB).
    rewrite E in E'. injection E' as <-.
    assert (count_used s' = count_used s - 1)
      by (apply (count_used_unset s s' f); [lia|done|by rewrite Hs'|done]).
    pose proof (count_used_bounds s' ltac:(rewrite Hs'; cbn; lia)).
    split_and!; [done| |lia..]. unfold drift. rewrite Hs' at 1. cbn.
    rewrite u32_small by (unfold is_u32 in *; lia). lia.
  - destruct (pmm_mark_used_ok s f Hwf Hf) as (s1 & E' & Hwf' & Hs' & HB).
    rewrite E in E'. injection E' as <-. split_and!; [done| |lia..].
    unfold drift. rewrite Hs' at 1. cbn. destruct (frame_used s f) eqn:Ef.
    + assert (memory_bitmap s' = memory_bitmap s) as Hbm.
      { destruct HB as [L W' U]. apply bm_ext; [done..|]. intros c Hc'. rewrite U by done.
        destruct (Z.eqb_spec c f) as [->|]; [by unfold frame_used in Ef|done]. }
      unfold count_used. rewrite Hbm. rewrite Hs'. cbn. unfold count_used in Hd. lia.
    + rewrite (count_used_set s s' f) by (done || lia || by rewrite Hs').
      rewrite u32_small by (unfold is_u32 in *; lia). lia.
Qed.

(** ** Contiguous allocation *)

Lemma free_in_app bm s n m : free_in bm s (n + m) = free_in bm s n + free_in bm (s + Z.of_nat n) m.
Proof.
  revert s. induction n as [|n IH]; intros s; [by rewrite Z.add_0_r|]. cbn [Nat.add free_in]. rewrite IH.
  replace (s + 1 + Z.of_nat n) with (s + Z.of_nat (S n)) by lia. lia.
Qed.

(** Two kinds of start that the search takes: [size] free frames, and [size]
    frames with one in use and a free frame behind them. *)
Lemma run_start_clear p size f : 0 < size -> (forall c, f <= c < f + size -> frame_used p c = false) ->
  run_start (memory_bitmap p) size f.
Proof.
  intros Hk Hfree. split; [apply Hfree; lia|]. replace (Z.to_nat (size + 1)) with (Z.to_nat size + 1)%nat by lia.
  rewrite free_in_app, (free_in_all _ f) by (intros c Hc; apply Hfree; lia).
  pose proof (free_in_bounds (memory_bitmap p) (f + Z.of_nat (Z.to_nat size)) 1). lia.
Qed.

Lemma run_start_hole p size f u : f < u < f + size -> frame_used p u = true ->
  (forall c, f <= c <= f + size -> c <> u -> frame_used p c = false) -> run_start (memory_bitmap p) size f.
Proof.
  intros Hu Husd Hfree. split; [apply Hfree; lia|].
  replace (Z.to_nat (size + 1)) with (Z.to_nat (u - f) + (1 + Z.to_nat (f + size - u)))%nat by lia.
  rewrite !free_in_app, (free_in_all _ f) by (intros c Hc; apply Hfree; lia).
  rewrite (free_in_all _ (f + _ + _)) by (intros c Hc; apply Hfree; lia).
  pose proof (free_in_bounds (memory_bitmap p) (f + Z.of_nat (Z.to_nat (u - f))) 1). lia.
Qed.

Lemma pmm_alloc_blocks_ok s size :
  pmm_wf s -> 2 <= size -> scanned s + size <= 32 * Z.of_nat (length (memory_bitmap s)) ->
  scanned s + size < 2 ^ 31 ->
  exists r s', pmm_alloc_blocks size s = Ok (r, s') /\ pmm_wf s' /\
    ((r = 0 /\ s' = s /\
      (u32 (max_frames s - used_frames s) < size \/
       forall g, 0 <= g < scanned s -> ~ run_start (memory_bitmap s) size g)) \/
     exists f, r = f * PMM_FRAME_SIZE /\ 0 < f < scanned s /\
       run_start (memory_bitmap s) size f /\
       (forall g, 0 <= g < f -> ~ run_start (memory_bitmap s) size g) /\
       s' = restate (memory_bitmap s') (u32 (used_frames s + size)) s /\
       bm_becomes (memory_bitmap s) (memory_bitmap s')
         (fun c => (f <=? c) && (c <? f + size) || frame_used s c)).
Proof.
  intros Hwf Hsz Hlen2 H31. pose proof Hwf as [W Hmax Hlen Hu Hz].
  unfold pmm_alloc_blocks. erewrite bind_step by reflexivity. cbn [id].
  destruct (Z.ltb_spec (u32 (max_frames s - used_frames s)) size); [exists 0, s; auto 7|].
  pose proof (scanned_bounds s ltac:(lia)) as Hsc. unfold scanned in *.
  destruct (bm_first_run_spec (memory_bitmap s) size 0 (Z.to_nat (max_frames s / 32)) W)
    as (r & Hr & Hl); [lia..|].
  erewrite bind_step.
  2: { unfold memory_bitmap_first_frees, bm_first_frees.
       destruct (Z.eqb_spec size 0); [lia|]. destruct (Z.eqb_spec size 1); [lia|].
       rewrite Hr. reflexivity. }
  replace (32 * (0 + Z.of_nat (Z.to_nat (max_frames s / 32)))) with (32 * (max_frames s / 32)) in Hl by lia.
  destruct Hl as [[-> Hno]|(Hrange & Hstart & Hleast)]; [exists 0, s; auto 7|].
  destruct (Z.eqb_spec r (-1)); [lia|].
  assert (r <> 0) by (intros ->; destruct Hstart; unfold frame_used in Hz; congruence).
  destruct (set_frames_ok r 0 (Z.to_nat size) s W Hu) as (bm & E & B); [lia..|].
  rewrite Z2Nat.id in E by lia. rewrite Z.add_0_r, Z2Nat.id in B by lia.
  erewrite bind_step by exact E. rewrite (u32_small (r * _)) by (unfold is_u32, PMM_FRAME_SIZE; lia).
  exists (r * PMM_FRAME_SIZE), (restate bm (u32 (used_frames s + size)) s). split_and!; [done|..].
  - eapply pmm_wf_restate; [done..| |apply u32_range]. cbn. by rewrite Hz, orb_true_r.
  - right. exists r. split_and!; done || lia.
Qed.

(** ** Initialisation *)

Lemma bm_used_cons w l c :
  0 <= c -> bm_used (w :: l) c = if c <? 32 then Z.testbit w c else bm_used l (c - 32).
Proof.
  intros Hc. unfold bm_used. destruct (Z.ltb_spec c 32).
  - by rewrite Z.div_small, Z.mod_small by lia.
  - assert (c / 32 = (c - 32) / 32 + 1 /\ c mod 32 = (c - 32) mod 32) as [-> ->].
    { rewrite <- (Z.div_add (c - 32) 1 32), <- (Z.mod_add (c - 32) 1 32) by lia.
      by replace (c - 32 + 1 * 32) with c by lia. }
    pose proof (Z.div_pos (c - 32) 32 ltac:(lia) ltac:(lia)).
    by replace (Z.to_nat ((c - 32) / 32 + 1)) with (S (Z.to_nat ((c - 32) / 32))) by lia.
Qed.

Lemma is_u32_ones n : 0 <= n <= 32 -> is_u32 (Z.ones n).
Proof.
  intros H. unfold is_u32. rewrite Z.ones_equiv.
  pose proof (Z.pow_pos_nonneg 2 n). pose proof (Z.pow_le_mono_r 2 n 32). lia.
Qed.

Lemma memset_ff_ok n l :
  bm_wf l -> 0 <= n <= 4 * Z.of_nat (length l) ->
  exists l', memset_ff n l = Some l' /\ bm_becomes l l' (fun c => (c <? 8 * n) || bm_used l c).
Proof.
  revert n. induction l as [|w l IH]; intros n Hwf Hn; cbn [memset_ff].
  { destruct (Z.leb_spec n 0); [|cbn in Hn; lia]. exists []. split; [done|].
    split; [done..|]. intros c Hc. destruct (Z.ltb_spec c (8 * n)); [lia|done]. }
  destruct (Z.leb_spec n 0).
  { exists (w :: l). split; [done|]. split; [done..|]. intros c Hc.
    destruct (Z.ltb_spec c (8 * n)); [lia|done]. }
  inversion_clear Hwf as [|? ? Hw Hl]. destruct (Z.leb_spec 4 n).
  - destruct (IH (n - 4) Hl) as (l' & E & [L W U]); [cbn [length] in Hn; lia|].
    rewrite E. eexists. split; [done|]. split; [cbn; congruence|..].
    + constructor; [unfold is_u32; lia|done].
    + intros c Hc. rewrite !bm_used_cons by done. destruct (Z.ltb_spec c 32).
      * change 4294967295 with (Z.ones 32). rewrite (Z.ones_spec_low 32 c) by lia. destruct (Z.ltb_spec c (8 * n)); [done|lia].
      * rewrite U by lia. f_equal. destruct (Z.ltb_spec (c - 32) (8 * (n - 4))), (Z.ltb_spec c (8 * n)); done || lia.
  - eexists. split; [reflexivity|]. split; [done|..].
    + constructor; [|done]. apply is_u32_lor; [done|]. apply is_u32_ones. lia.
    + intros c Hc. rewrite !bm_used_cons by done. destruct (Z.ltb_spec c 32).
      * rewrite Z.lor_spec, orb_comm. f_equal. destruct (Z.ltb_spec c (8 * n)).
        -- apply Z.ones_spec_low. lia.
        -- apply Z.ones_spec_high. lia.
      * destruct (Z.ltb_spec c (8 * n)); [lia|done].
Qed.

(** The frames of [addr, addr + length). *)
Definition in_frames (addr length c : Z) : bool :=
  (addr / PMM_FRAME_SIZE <=? c) && (c <? addr / PMM_FRAME_SIZE + div_ceil length PMM_FRAME_SIZE).

Definition region_fits (bm : list Z) (addr length : Z) : Prop :=
  0 <= addr /\ 0 <= length /\
  addr / PMM_FRAME_SIZE + div_ceil length PMM_FRAME_SIZE <= Z.min (32 * Z.of_nat (List.length bm)) (2 ^ 32).

Definition entry_fits (bm : list Z) (e : mmap_entry) : Prop :=
  me_type e = 1 -> region_fits bm (u32 (me_addr e)) (u32 (me_len e)).

Lemma pmm_deinit_region_ok addr len s :
  bm_wf (memory_bitmap s) -> is_u32 (used_frames s) -> region_fits (memory_bitmap s) addr len ->
  exists bm u, pmm_deinit_region addr len s = Ok (tt, restate bm u s) /\ is_u32 u /\
    bm_becomes (memory_bitmap s) bm (fun c => in_frames addr len c || frame_used s c).
Proof.
  intros W Hu (Ha & Hl & Hfit). unfold PMM_FRAME_SIZE in *.
  pose proof (Z.div_pos addr 4096 Ha ltac:(lia)).
  pose proof (div_ceil_nonneg len 4096 ltac:(lia) Hl).
  unfold pmm_deinit_region.
  destruct (set_frames_ok (addr / PMM_FRAME_SIZE) 0 (Z.to_nat (div_ceil len PMM_FRAME_SIZE)) s W Hu)
    as (bm & E & B); unfold PMM_FRAME_SIZE; [lia..|].
  rewrite Z.add_0_r in B. unfold PMM_FRAME_SIZE in B. rewrite Z2Nat.id in B by lia.
  eexists bm, _. split; [exact E|]. split; [apply u32_range|]. exact B.
Qed.

Lemma pmm_init_region_ok addr len s :
  bm_wf (memory_bitmap s) -> is_u32 (used_frames s) -> region_fits (memory_bitmap s) addr len ->
  (0 < length (memory_bitmap s))%nat ->
  exists bm u, pmm_init_region addr len s = Ok (tt, restate bm u s) /\ is_u32 u /\
    bm_becomes (memory_bitmap s) bm (fun c => (c =? 0) || (negb (in_frames addr len c) && frame_used s c)).
Proof.
  intros W Hu (Ha & Hl & Hfit) Hpos. unfold PMM_FRAME_SIZE in *.
  pose proof (Z.div_pos addr 4096 Ha ltac:(lia)).
  pose proof (div_ceil_nonneg len 4096 ltac:(lia) Hl).
  unfold pmm_init_region.
  destruct (unset_frames_ok (addr / PMM_FRAME_SIZE) 0 (Z.to_nat (div_ceil len PMM_FRAME_SIZE)) s W Hu)
    as (bm & E & B); unfold PMM_FRAME_SIZE; [lia..|].
  rewrite Z.add_0_r in B. unfold PMM_FRAME_SIZE in B. rewrite Z2Nat.id in B by lia.
  erewrite bind_step by exact E. destruct B as [L W1 U].
  destruct (bitmap_set_ok 0 (restate bm (u32 (used_frames s - Z.of_nat (Z.to_nat (div_ceil len PMM_FRAME_SIZE)))) s))
    as (bm' & E' & [L' W' U']); [done|unfold bm_in; cbn; lia|].
  rewrite E'. eexists bm', _. split; [reflexivity|]. split; [apply u32_range|]. cbn in L'. split; [by rewrite L'|done|].
  intros c Hc. rewrite U' by done. f_equal. unfold frame_used. cbn. by rewrite U by done.
Qed.

(** A frame clear after the memory map is walked was clear before, or lies
    in an entry of type 1. *)
Lemma pmm_regions_ok entries s :
  bm_wf (memory_bitmap s) -> is_u32 (used_frames s) -> (0 < length (memory_bitmap s))%nat ->
  Forall (entry_fits (memory_bitmap s)) entries ->
  exists bm u, pmm_regions entries s = Ok (tt, restate bm u s) /\ is_u32 u /\
    length bm = length (memory_bitmap s) /\ bm_wf bm /\
    forall c, 0 <= c -> bm_used bm c = false ->
      frame_used s c = false \/
      exists e, e ∈ entries /\ me_type e = 1 /\ in_frames (u32 (me_addr e)) (u32 (me_len e)) c = true.
Proof.
  revert s. induction entries as [|e rest IH]; intros s W Hu Hpos Hfit.
  { exists (memory_bitmap s), (used_frames s). split_and!; [by destruct s|done..|]. auto. }
  cbn [pmm_regions]. destruct ((4 <? me_type e) && (me_addr e =? 0)).
  { exists (memory_bitmap s), (used_frames s). split_and!; [by destruct s|done..|]. auto. }
  inversion_clear Hfit as [|? ? He Hrest]. destruct (Z.eqb_spec (me_type e) 1) as [Ht|Ht].
  - destruct (pmm_init_region_ok (u32 (me_addr e)) (u32 (me_len e)) s W Hu (He Ht) Hpos)
      as (bm & u & E & Hu' & [L W' U]).
    erewrite bind_step by exact E.
    destruct (IH (restate bm u s)) as (bm2 & u2 & E2 & Hu2 & L2 & W2 & F2);
      [done..|cbn; by rewrite L| |].
    { apply (Forall_impl _ _ _ Hrest). intros e' Hfit' Ht'.
      destruct (Hfit' Ht') as (? & ? & Hb). cbn. split_and!; [done..|]. by rewrite L. }
    rewrite E2. exists bm2, u2. split_and!; [done..|cbn in L2; by rewrite L2|done|].
    intros c Hc Hfree. destruct (F2 c Hc Hfree) as [Hf|(e' & Hin & He')].
    + unfold frame_used in Hf. cbn in Hf. rewrite U in Hf by done.
      apply orb_false_iff in Hf as [_ Hf]. apply andb_false_iff in Hf as [Hf|Hf]; [|by left].
      right. exists e. split_and!; [left|done|]. by apply negb_false_iff.
    + right. exists e'. split; [by right|done].
  - erewrite bind_step by reflexivity.
    destruct (IH s W Hu Hpos Hrest) as (bm2 & u2 & E2 & Hu2 & L2 & W2 & F2).
    rewrite E2. exists bm2, u2. split_and!; [done..|].
    intros c Hc Hfree. destruct (F2 c Hc Hfree) as [Hf|(e' & Hin & He')]; [by left|].
    right. exists e'. split; [by right|done].
Qed.

(** ** Properties *)

(** A two-word allocator with only frame 0 in use, for the witnesses. *)
Definition pmm_example : pmm := mk_pmm [1; 0] 64 1 0x40000 8.

Lemma pmm_example_wf : pmm_wf pmm_example.
Proof.
  split; cbn; unfold is_u32; try lia; try reflexivity.
  repeat constructor; unfold is_u32; lia.
Qed.

(** C1: [pmm_alloc_block] on a well-formed allocator always returns. It
    returns NULL and changes nothing when the counter says the memory is
    full or every scanned frame is in use; otherwise it returns the address
    of the lowest free frame, never frame 0, marks that frame and no other,
    adds one to [used_frames], and leaves the allocator well-formed. *)
Theorem pmm_alloc_block_correct (s : pmm) :
  pmm_wf s -> exists r s', pmm_alloc_block s = Ok (r, s') /\ pmm_wf s' /\ alloc_result s s' r.
Proof. apply pmm_alloc_block_ok. Qed.

Lemma pmm_alloc_block_correct_witness :
  exists r s', pmm_alloc_block pmm_example = Ok (r, s') /\ pmm_wf s' /\ alloc_result pmm_example s' r.
Proof. apply (pmm_alloc_block_correct pmm_example), pmm_example_wf. Defined.

Example pmm_alloc_block_example :
  pmm_alloc_block pmm_example = Ok (4096, mk_pmm [3; 0] 64 2 0x40000 8).
Proof. reflexivity. Qed.

(** Freeing the frame an allocation has just returned restores the
    allocator's state exactly, bitmap words and counter included. *)
Theorem pmm_alloc_free_roundtrip (s s' : pmm) (r : Z) :
  pmm_wf s -> pmm_alloc_block s = Ok (r, s') -> r <> 0 -> pmm_free_block r s' = Ok (tt, s).
Proof.
  intros Hwf E Hr. pose proof Hwf as [W Hmax Hlen Hu Hz].
  destruct (pmm_alloc_block_ok s Hwf) as (r' & s1 & E' & Hwf' & Hres).
  rewrite E in E'. injection E' as <- <-. destruct Hres as [|f Hf Hfree _ Hroom Hs' [L W1 U]]; [done|].
  pose proof (scanned_bounds s ltac:(lia)).
  destruct (pmm_free_block_ok s' f Hwf') as (s2 & E2 & _ & Hs2 & [L2 W2 U2]);
    [rewrite Hs'; cbn; lia|].
  rewrite E2. do 2 f_equal. rewrite Hs2, Hs'. cbn.
  rewrite u32_small by (unfold is_u32 in *; lia).
  replace (memory_bitmap s2) with (memory_bitmap s).
  { destruct s; unfold restate, with_used, with_bitmap; cbn. f_equal. lia. }
  apply bm_ext; [done..|congruence|]. intros c Hc. rewrite U2 by done. unfold frame_used at 1.
  rewrite U by done. destruct (Z.eqb_spec c f) as [->|]; [by unfold frame_used in Hfree|done].
Qed.

Lemma pmm_alloc_free_roundtrip_witness :
  pmm_free_block 4096 (mk_pmm [3; 0] 64 2 0x40000 8) = Ok (tt, pmm_example).
Proof.
  apply (pmm_alloc_free_roundtrip pmm_example); [apply pmm_example_wf|reflexivity|lia].
Defined.

(** Along any sequence of single-frame allocations, frees of frames in
    use and [pmm_mark_used_addr] calls, [used_frames] stays ahead of the
    number of set bits by the same amount as at the start, so the two never
    diverge, and the allocator stays well-formed. *)
Theorem pmm_accounting (d : Z) (s s' : pmm) :
  pmm_inv d s -> rtc pmm_step s s' -> pmm_wf s' /\ used_frames s' = count_used s' + d.
Proof.
  intros Hinv Hsteps. assert (pmm_inv d s') as (Hwf & Hd & _).
  { induction Hsteps as [|s s1 s2 Hs _ IH]; [done|]. apply IH. by eapply pmm_step_inv. }
  split; [done|]. unfold drift in Hd. lia.
Qed.

Lemma pmm_accounting_witness :
  pmm_wf (mk_pmm [3; 0] 64 2 0x40000 8) /\
  used_frames (mk_pmm [3; 0] 64 2 0x40000 8) = count_used (mk_pmm [3; 0] 64 2 0x40000 8) + 0.
Proof.
  apply (pmm_accounting 0 pmm_example).
  - split; [apply pmm_example_wf|]. split; [reflexivity|lia].
  - apply rtc_once, (step_alloc _ _ 4096). reflexivity.
Defined.

(** [pmm_alloc_blocks] with [size >= 2] always returns. It returns NULL
    and changes nothing when the counter leaves no room or no start fits; when it returns a
    range, the range starts at the lowest free frame whose next [size + 1]
    frames hold at least [size] free ones, all its frames are marked, no
    other frame changes, and [used_frames] grows by [size]. *)
Theorem pmm_alloc_blocks_correct (s : pmm) (size : Z) :
  pmm_wf s -> 2 <= size -> scanned s + size <= 32 * Z.of_nat (length (memory_bitmap s)) ->
  scanned s + size < 2 ^ 31 ->
  exists r s', pmm_alloc_blocks size s = Ok (r, s') /\ pmm_wf s' /\
    ((r = 0 /\ s' = s /\
      (u32 (max_frames s - used_frames s) < size \/
       forall g, 0 <= g < scanned s -> ~ run_start (memory_bitmap s) size g)) \/
     exists f, r = f * PMM_FRAME_SIZE /\ 0 < f < scanned s /\
       run_start (memory_bitmap s) size f /\
       (forall g, 0 <= g < f -> ~ run_start (memory_bitmap s) size g) /\
       s' = restate (memory_bitmap s') (u32 (used_frames s + size)) s /\
       bm_becomes (memory_bitmap s) (memory_bitmap s')
         (fun c => (f <=? c) && (c <? f + size) || frame_used s c)).
Proof. apply pmm_alloc_blocks_ok. Qed.

(** An allocator over one scanned word, with a spare word after it; frames 0
    and 2 are in use. *)
Definition pmm_holes : pmm := mk_pmm [5; 0] 32 2 0x20000 4.

Lemma pmm_holes_wf : pmm_wf pmm_holes.
Proof.
  split; cbn; unfold is_u32; try lia; try reflexivity.
  repeat constructor; unfold is_u32; lia.
Qed.

Lemma pmm_alloc_blocks_correct_witness :
  exists r s', pmm_alloc_blocks 2 pmm_holes = Ok (r, s') /\ pmm_wf s' /\
    ((r = 0 /\ s' = pmm_holes /\
      (u32 (max_frames pmm_holes - used_frames pmm_holes) < 2 \/
       forall g, 0 <= g < scanned pmm_holes -> ~ run_start (memory_bitmap pmm_holes) 2 g)) \/
     exists f, r = f * PMM_FRAME_SIZE /\ 0 < f < scanned pmm_holes /\
       run_start (memory_bitmap pmm_holes) 2 f /\
       (forall g, 0 <= g < f -> ~ run_start (memory_bitmap pmm_holes) 2 g) /\
       s' = restate (memory_bitmap s') (u32 (used_frames pmm_holes + 2)) pmm_holes /\
       bm_becomes (memory_bitmap pmm_holes) (memory_bitmap s')
         (fun c => (f <=? c) && (c <? f + 2) || frame_used pmm_holes c)).
Proof.
  apply (pmm_alloc_blocks_correct pmm_holes 2); [apply pmm_holes_wf|zdec..].
Defined.

(** C15: [pmm_alloc_blocks] hands out frames that are in use. From any
    well-formed allocator with enough frames left, when the first start [f]
    that its search accepts has one frame [u] in use among the [size] frames
    from it and the frame after them free, the call succeeds with the range
    [f, f + size): frame [u] gets a second owner, and the counter of used
    frames goes up by [size] although one frame less has become used. The
    search counts free frames among [size + 1] of them, not in a row. *)
Theorem pmm_alloc_blocks_double_allocation (s : pmm) (size f u : Z) :
  pmm_wf s -> 2 <= size -> scanned s + size <= 32 * Z.of_nat (length (memory_bitmap s)) ->
  scanned s + size < 2 ^ 31 -> size <= u32 (max_frames s - used_frames s) ->
  0 <= f < scanned s -> (forall g, 0 <= g < f -> ~ run_start (memory_bitmap s) size g) ->
  f < u < f + size -> frame_used s u = true ->
  (forall c, f <= c <= f + size -> c <> u -> frame_used s c = false) ->
  exists s', pmm_alloc_blocks size s = Ok (f * PMM_FRAME_SIZE, s') /\ pmm_wf s' /\
    used_frames s' = u32 (used_frames s + size) /\
    forall c, 0 <= c -> frame_used s' c = (f <=? c) && (c <? f + size) || frame_used s c.
Proof.
  intros Hwf Hsz Hlen H31 Hroom Hf Hfirst Hu Husd Hfree.
  pose proof (run_start_hole s size f u Hu Husd Hfree) as Hstart.
  destruct (pmm_alloc_blocks_ok s size) as (r & s' & E & Hwf' & Hcase); [done..|].
  destruct Hcase as [(_ & _ & [Hno|Hno])|(f' & -> & Hf' & Hstart' & Hfirst' & Hs' & [_ _ U])].
  - lia.
  - by apply Hno in Hstart.
  - assert (f' = f) as ->.
    { destruct (Z.lt_trichotomy f' f) as [Hlt|[?|Hlt]]; [|done|].
      - by apply Hfirst in Hstart'; [|lia].
      - by apply Hfirst' in Hstart; [|lia]. }
    exists s'. split_and!; [done|done|by rewrite Hs'|]. intros c Hc. by apply U.
Qed.

(** Frames 0 and 2 in use, two frames asked for: frames 1 and 2. *)
Lemma pmm_alloc_blocks_double_allocation_witness :
  exists s', pmm_alloc_blocks 2 pmm_holes = Ok (1 * PMM_FRAME_SIZE, s') /\ frame_used pmm_holes 2 = true /\
    used_frames s' = 4.
Proof.
  destruct (pmm_alloc_blocks_double_allocation pmm_holes 2 1 2) as (s' & E & _ & Hu & _).
  - exact pmm_holes_wf.
  - lia.
  - zdec.
  - zdec.
  - zdec.
  - zdec.
  - intros g Hg [H _]. replace g with 0 in H by lia. discriminate H.
  - lia.
  - reflexivity.
  - intros c Hc Hne. assert (c = 1 \/ c = 3) as [->| ->] by lia; reflexivity.
  - exists s'. split; [exact E|]. split; [reflexivity|exact Hu].
Defined.

(** From an allocator whose free frames are exactly those from [k] on
    (the layout boot leaves when nothing has been freed), [pmm_alloc_blocks]
    returns the range [k, k + size), all of whose frames were free. *)
Theorem pmm_alloc_blocks_fresh (s : pmm) (size k : Z) :
  pmm_wf s -> 2 <= size -> used_frames s + size <= max_frames s -> 0 < k < scanned s ->
  scanned s + size <= 32 * Z.of_nat (length (memory_bitmap s)) ->
  (forall c, 0 <= c -> frame_used s c = (c <? k)) ->
  exists s', pmm_alloc_blocks size s = Ok (k * PMM_FRAME_SIZE, s') /\
    (forall c, k <= c < k + size -> frame_used s c = false) /\
    (forall c, 0 <= c -> frame_used s' c = (c <? k + size)).
Proof.
  intros Hwf Hsz Hroom Hk Hlen Hlay. pose proof Hwf as [W Hmax _ Hu _].
  pose proof (scanned_bounds s ltac:(lia)).
  destruct (pmm_alloc_blocks_ok s size) as (r & s' & E & _ & Hcase); [done|lia|lia|unfold is_u32 in Hu; lia|].
  assert (run_start (memory_bitmap s) size k) as Hstart.
  { split; [specialize (Hlay k ltac:(lia)); unfold frame_used in Hlay; rewrite Hlay; apply Z.ltb_irrefl|].
    rewrite free_in_all; [lia|]. intros c Hc. specialize (Hlay c ltac:(lia)). unfold frame_used in Hlay.
    rewrite Hlay. apply Z.ltb_ge. lia. }
  destruct Hcase as [(-> & -> & [Hno|Hno])|(f & -> & Hf & [Hfree _] & Hleast & _ & [_ _ U])].
  - rewrite u32_small in Hno by (unfold is_u32 in *; lia). lia.
  - by apply Hno in Hstart; [|lia].
  - assert (f = k) as ->.
    { specialize (Hlay f ltac:(lia)). unfold frame_used in Hlay. rewrite Hfree in Hlay.
      destruct (Z.ltb_spec f k); [done|]. destruct (Z.eq_dec f k); [done|].
      exfalso. apply (Hleast k); [lia|done]. }
    exists s'. split_and!; [done|..].
    + intros c Hc. rewrite Hlay by lia. apply Z.ltb_ge. lia.
    + intros c Hc. unfold frame_used at 1. rewrite U, Hlay by done. lia.
Qed.

Lemma pmm_alloc_blocks_fresh_witness :
  exists s', pmm_alloc_blocks 3 (mk_pmm [1; 0; 0] 64 1 0x40000 8) = Ok (1 * PMM_FRAME_SIZE, s') /\
    (forall c, 1 <= c < 1 + 3 -> frame_used (mk_pmm [1; 0; 0] 64 1 0x40000 8) c = false) /\
    (forall c, 0 <= c -> frame_used s' c = (c <? 1 + 3)).
Proof.
  apply (pmm_alloc_blocks_fresh (mk_pmm [1; 0; 0] 64 1 0x40000 8) 3 1); [|zdec..|].
  - split; cbn; unfold is_u32; try lia; try reflexivity. repeat constructor; unfold is_u32; lia.
  - intros c Hc. unfold frame_used. cbn [memory_bitmap]. rewrite !bm_used_cons by lia.
    destruct (Z.ltb_spec c 32) as [H|H].
    + pose proof (testbit_bit 0 c ltac:(lia) ltac:(lia)) as Hb. change (bit 0) with 1 in Hb.
      rewrite Hb. lia.
    + rewrite bm_used_cons by lia. destruct (Z.ltb_spec (c - 32) 32); [rewrite Z.bits_0; lia|].
      rewrite bm_used_cons by lia. destruct (Z.ltb_spec (c - 32 - 32) 32); [rewrite Z.bits_0; lia|].
      unfold bm_used. rewrite lookup_nil. lia.
Defined.

(** After [pmm_init], over a memory map whose regions lie inside the
    bitmap, the allocator is well-formed, every frame of the low memory and
    of the kernel image with its bitmap is in use, and a frame is free only
    if it lies in a memory-map entry of type 1 (available RAM). *)
Theorem pmm_init_correct (KERNEL_BOOT KERNEL_START KERNEL_END : Z)
    (mem_lower mem_upper : Z) (entries : list mmap_entry) (s : pmm) :
  let frames := div_ceil (u32 ((mem_lower + mem_upper) * 1024)) PMM_FRAME_SIZE in
  let bytes := div_ceil frames PMM_FRAMES_PER_BYTE in
  let image := u32 (KERNEL_END - KERNEL_START + bytes) in
  bm_wf (memory_bitmap s) -> bytes <= 4 * Z.of_nat (length (memory_bitmap s)) ->
  Forall (entry_fits (memory_bitmap s)) entries -> 0 < KERNEL_BOOT ->
  region_fits (memory_bitmap s) 0 KERNEL_BOOT -> region_fits (memory_bitmap s) KERNEL_BOOT image ->
  exists s', pmm_init KERNEL_BOOT KERNEL_START KERNEL_END mem_lower mem_upper entries s = Ok (tt, s') /\
    pmm_wf s' /\ max_frames s' = frames /\
    (forall c, 0 <= c -> in_frames 0 KERNEL_BOOT c || in_frames KERNEL_BOOT image c = true ->
       frame_used s' c = true) /\
    (forall c, 0 <= c < frames -> frame_used s' c = false ->
       exists e, e ∈ entries /\ me_type e = 1 /\ in_frames (u32 (me_addr e)) (u32 (me_len e)) c = true).
Proof.
  intros frames bytes image W Hbytes Hentries Hkb Hr0 Hr1.
  pose proof (u32_range ((mem_lower + mem_upper) * 1024)) as Hsize. unfold is_u32 in Hsize.
  pose proof (div_ceil_spec (u32 ((mem_lower + mem_upper) * 1024)) PMM_FRAME_SIZE ltac:(zdec)) as Hfr.
  fold frames in Hfr. unfold PMM_FRAME_SIZE in Hfr.
  pose proof (div_ceil_spec frames PMM_FRAMES_PER_BYTE ltac:(zdec)) as Hby.
  fold bytes in Hby. unfold PMM_FRAMES_PER_BYTE in Hby.
  unfold pmm_init. erewrite bind_step by reflexivity.
  destruct (memset_ff_ok bytes (memory_bitmap s) W) as (bm0 & E0 & [L0 W0 U0]); [lia|].
  set (s0 := mk_pmm bm0 frames frames (u32 ((mem_lower + mem_upper) * 1024)) bytes).
  rewrite (bind_step _ _ _ tt s0).
  2: { unfold on_bitmap. cbn [memory_bitmap]. fold frames. fold bytes. by rewrite E0. }
  assert (0 < length bm0)%nat as Hpos.
  { destruct Hr0 as (_ & _ & Hb). rewrite <- L0 in Hb.
    pose proof (div_ceil_spec KERNEL_BOOT PMM_FRAME_SIZE ltac:(zdec)). unfold PMM_FRAME_SIZE in *.
    rewrite Z.div_0_l in Hb by lia. destruct bm0; cbn [length] in *; lia. }
  destruct (pmm_regions_ok entries s0) as (bm1 & u1 & E1 & Hu1 & L1 & W1 & F1);
    [done|cbn; unfold is_u32; lia|done| |].
  { eapply Forall_impl; [exact Hentries|]. intros e He Ht. destruct (He Ht) as (? & ? & Hb).
    split_and!; [done..|]. cbn. by rewrite L0. }
  erewrite bind_step by exact E1.
  assert (region_fits bm1 0 KERNEL_BOOT /\ region_fits bm1 KERNEL_BOOT image) as [Hr0' Hr1'].
  { unfold region_fits in *. rewrite L1. cbn [memory_bitmap s0]. by rewrite L0. }
  destruct (pmm_deinit_region_ok 0 KERNEL_BOOT (restate bm1 u1 s0)) as (bm2 & u2 & E2 & Hu2 & [L2 W2 U2]);
    [done..|]. cbn in L2.
  erewrite bind_step by exact E2.
  destruct (pmm_deinit_region_ok KERNEL_BOOT image (restate bm2 u2 (restate bm1 u1 s0)))
    as (bm3 & u3 & E3 & Hu3 & [L3 W3 U3]); [done..| |].
  { unfold region_fits in *. cbn. by rewrite L2. }
  cbn in L3.
  exists (restate bm3 u3 s0). split; [exact E3|].
  assert (forall c, 0 <= c -> bm_used bm3 c =
    in_frames KERNEL_BOOT image c || (in_frames 0 KERNEL_BOOT c || bm_used bm1 c)) as U.
  { intros c Hc. rewrite U3 by done. unfold frame_used. cbn. by rewrite U2. }
  assert (in_frames 0 KERNEL_BOOT 0 = true) as Hz.
  { pose proof (div_ceil_spec KERNEL_BOOT PMM_FRAME_SIZE ltac:(zdec)). unfold in_frames, PMM_FRAME_SIZE in *.
    rewrite Z.div_0_l by lia. lia. }
  split_and!.
  - split; cbn; [done|lia| |done|].
    + rewrite L3, L2, L1. cbn. lia.
    + unfold frame_used. cbn. rewrite U, Hz by lia. by rewrite orb_true_r.
  - done.
  - intros c Hc Hin. unfold frame_used. cbn. rewrite U by done. revert Hin.
    destruct (in_frames KERNEL_BOOT image c), (in_frames 0 KERNEL_BOOT c); done.
  - intros c Hc Hfree. unfold frame_used in Hfree. cbn in Hfree. rewrite U in Hfree by lia.
    apply orb_false_iff in Hfree as [_ Hfree]. apply orb_false_iff in Hfree as [_ Hfree].
    destruct (F1 c ltac:(lia) Hfree) as [Hb|He]; [|done].
    unfold frame_used in Hb. cbn in Hb. rewrite U0 in Hb by lia.
    apply orb_false_iff in Hb as [Hb _]. apply Z.ltb_ge in Hb. lia.
Qed.

(** A machine with 1 MiB of memory, one RAM region from 64 KiB up, and a
    kernel of three pages loaded at 16 KiB. *)
Definition boot_map : list mmap_entry :=
  [mk_mmap_entry 0 0x10000 2; mk_mmap_entry 0x10000 0xf0000 1].
Definition boot_memory : pmm := mk_pmm (repeat 0 16) 0 0 0 0.

Lemma pmm_init_correct_witness :
  let frames := div_ceil (u32 ((0 + 1024) * 1024)) PMM_FRAME_SIZE in
  let bytes := div_ceil frames PMM_FRAMES_PER_BYTE in
  let image := u32 (0x7000 - 0x4000 + bytes) in
  exists s', pmm_init 0x4000 0x4000 0x7000 0 1024 boot_map boot_memory = Ok (tt, s') /\
    pmm_wf s' /\ max_frames s' = frames /\
    (forall c, 0 <= c -> in_frames 0 0x4000 c || in_frames 0x4000 image c = true ->
       frame_used s' c = true) /\
    (forall c, 0 <= c < frames -> frame_used s' c = false ->
       exists e, e ∈ boot_map /\ me_type e = 1 /\ in_frames (u32 (me_addr e)) (u32 (me_len e)) c = true).
Proof.
  apply (pmm_init_correct 0x4000 0x4000 0x7000 0 1024 boot_map boot_memory).
  - repeat constructor; unfold is_u32; lia.
  - zdec.
  - repeat constructor; intros [=]; split_and!; zdec.
  - zdec.
  - split_and!; zdec.
  - split_and!; zdec.
Defined.
