(* ===== verification/Mem.v ===== *)
(** * Byte-addressed memory and the kernel's [memset] and [memcpy]

    The accesses a piece of kernel code makes are operations of a class, [Mem],
    so that the same translation of a C function runs on flat memory, on the
    kernel heap behind the page tables, or on any other store; [MemLaws] is
    what clients may assume of the operations. [memset] and [memcpy]
    ([utils/string/memset.c], [utils/string/memcpy.c]) are written against the
    class and proved equal to the byte-wise definitions. *)
From Stdlib Require Import ZArith Lia Bool.
From stdpp Require Import base list gmap option.
From S2P Require Import Prelude.

Open Scope Z_scope.

(** ** Words as bytes, little endian *)

Definition le32 (b0 b1 b2 b3 : Z) : Z := b0 + 2 ^ 8 * b1 + 2 ^ 16 * b2 + 2 ^ 24 * b3.
Definition byte_of (w k : Z) : Z := (w / 2 ^ (8 * k)) mod 2 ^ 8.

Definition is_u8 (b : Z) : Prop := 0 <= b < 2 ^ 8.

Lemma byte_of_u8 w k : is_u8 (byte_of w k).
Proof. unfold byte_of, is_u8. apply Z.mod_pos_bound. lia. Qed.

Lemma u8_small b : is_u8 b -> u8 b = b.
Proof. unfold is_u8, u8. apply Z.mod_small. Qed.

Lemma u8_range b : is_u8 (u8 b).
Proof. unfold is_u8, u8. apply Z.mod_pos_bound. lia. Qed.

Lemma le32_u32 b0 b1 b2 b3 :
  is_u8 b0 -> is_u8 b1 -> is_u8 b2 -> is_u8 b3 -> is_u32 (le32 b0 b1 b2 b3).
Proof. unfold is_u8, is_u32, le32. lia. Qed.

Lemma le32_byte_of w :
  is_u32 w -> le32 (byte_of w 0) (byte_of w 1) (byte_of w 2) (byte_of w 3) = w.
Proof.
  intros Hw. unfold le32, byte_of, is_u32 in *.
  change (8 * 0) with 0. change (8 * 1) with 8. change (8 * 2) with 16. change (8 * 3) with 24.
  rewrite Z.pow_0_r, Z.div_1_r.
  replace (w / 2 ^ 16) with (w / 2 ^ 8 / 2 ^ 8) by (rewrite Z.div_div by lia; done).
  replace (w / 2 ^ 24) with (w / 2 ^ 8 / 2 ^ 8 / 2 ^ 8) by (rewrite !Z.div_div by lia; done).
  Z.to_euclidean_division_equations. lia.
Qed.

Lemma byte_of_le32 b0 b1 b2 b3 :
  is_u8 b0 -> is_u8 b1 -> is_u8 b2 -> is_u8 b3 ->
  byte_of (le32 b0 b1 b2 b3) 0 = b0 /\ byte_of (le32 b0 b1 b2 b3) 1 = b1 /\
  byte_of (le32 b0 b1 b2 b3) 2 = b2 /\ byte_of (le32 b0 b1 b2 b3) 3 = b3.
Proof.
  unfold is_u8, byte_of, le32. intros.
  change (8 * 0) with 0. change (8 * 1) with 8. change (8 * 2) with 16. change (8 * 3) with 24.
  rewrite Z.pow_0_r, Z.div_1_r.
  split_and!; Z.to_euclidean_division_equations; lia.
Qed.

(** A byte that fills a word. *)
Lemma byte_of_splat c k :
  is_u8 c -> 0 <= k < 4 -> byte_of (le32 c c c c) k = c.
Proof.
  intros Hc Hk. destruct (byte_of_le32 c c c c) as (? & ? & ? & ?); [done..|].
  assert (k = 0 \/ k = 1 \/ k = 2 \/ k = 3) as [->|[->|[->| ->]]] by lia; done.
Qed.

(** ** The operations *)

Class Mem (S : Type) := {
  load8 : Z -> M S Z;
  store8 : Z -> Z -> M S unit;
  load32 : Z -> M S Z;
  store32 : Z -> Z -> M S unit;
}.

(** What a client may rely on. [view s a] is the byte at [a] where the client
    owns that address; [rest] is everything an access leaves alone. *)
Class MemLaws (S : Type) `{Mem S} := {
  mem_ok : S -> Prop;
  view : S -> Z -> option Z;
  rest_type : Type;
  rest : S -> rest_type;
  view_u8 : forall s a b, mem_ok s -> view s a = Some b -> is_u8 b;
  view_u32 : forall s a b, mem_ok s -> view s a = Some b -> is_u32 a;
  load8_law : forall s a b,
    mem_ok s -> view s a = Some b ->
    exists s', load8 a s = Ok (b, s') /\ mem_ok s' /\ rest s' = rest s /\
      forall x, view s' x = view s x;
  store8_law : forall s a b v,
    mem_ok s -> view s a = Some b ->
    exists s', store8 a v s = Ok (tt, s') /\ mem_ok s' /\ rest s' = rest s /\
      forall x, view s' x = if x =? a then Some (u8 v) else view s x;
  load32_law : forall s a b0 b1 b2 b3,
    mem_ok s -> view s a = Some b0 -> view s (a + 1) = Some b1 ->
    view s (a + 2) = Some b2 -> view s (a + 3) = Some b3 ->
    exists s', load32 a s = Ok (le32 b0 b1 b2 b3, s') /\ mem_ok s' /\ rest s' = rest s /\
      forall x, view s' x = view s x;
  store32_law : forall s a v,
    mem_ok s -> (forall k, 0 <= k < 4 -> is_Some (view s (a + k))) ->
    exists s', store32 a v s = Ok (tt, s') /\ mem_ok s' /\ rest s' = rest s /\
      forall x, view s' x =
        if (a <=? x) && (x <? a + 4) then Some (byte_of v (x - a)) else view s x;
}.

(** The client owns the [n] bytes from [a]. *)
Definition owns {S} `{MemLaws S} (s : S) (a n : Z) : Prop :=
  forall x, a <= x < a + n -> is_Some (view s x).

(** ** memset and memcpy *)

Section string.
Context {S : Type} `{Mem S}.

Definition OPSIZ : Z := 4.
Definition OP_T_THRES : Z := 8.

(** [while (len > 0) { *dstp = c; dstp++; len--; }], [n] rounds. *)
Fixpoint fill8 (dstp c : Z) (n : nat) : M S unit :=
  match n with
  | O => mret tt
  | Datatypes.S n' => store8 dstp c ;; fill8 (u32 (dstp + 1)) c n'
  end.

(** The word loop: one [op_t] per round. *)
Fixpoint fill32 (dstp cccc : Z) (n : nat) : M S unit :=
  match n with
  | O => mret tt
  | Datatypes.S n' => store32 dstp cccc ;; fill32 (u32 (dstp + OPSIZ)) cccc n'
  end.

(** The unrolled loop: eight [op_t]s per round. *)
Fixpoint fill256 (dstp cccc : Z) (n : nat) : M S unit :=
  match n with
  | O => mret tt
  | Datatypes.S n' =>
      store32 dstp cccc ;; store32 (u32 (dstp + 4)) cccc ;;
      store32 (u32 (dstp + 8)) cccc ;; store32 (u32 (dstp + 12)) cccc ;;
      store32 (u32 (dstp + 16)) cccc ;; store32 (u32 (dstp + 20)) cccc ;;
      store32 (u32 (dstp + 24)) cccc ;; store32 (u32 (dstp + 28)) cccc ;;
      fill256 (u32 (dstp + 8 * OPSIZ)) cccc n'
  end.

Definition memset (dstpp c len : Z) : M S unit :=
  if 8 <=? len then
    let c0 := u8 c in
    let c1 := Z.lor c0 (u32 (Z.shiftl c0 8)) in
    let cccc := Z.lor c1 (u32 (Z.shiftl c1 16)) in
    let pre := (- dstpp) mod OPSIZ in
    fill8 dstpp c (Z.to_nat pre) ;;
    let dstp := u32 (dstpp + pre) in
    let len := len - pre in
    let xlen := len / (OPSIZ * 8) in
    fill256 dstp cccc (Z.to_nat xlen) ;;
    let dstp := u32 (dstp + xlen * (8 * OPSIZ)) in
    let len := len mod (OPSIZ * 8) in
    let xlen := len / OPSIZ in
    fill32 dstp cccc (Z.to_nat xlen) ;;
    let dstp := u32 (dstp + xlen * OPSIZ) in
    let len := len mod OPSIZ in
    fill8 dstp c (Z.to_nat len)
  else fill8 dstpp c (Z.to_nat len).

(** [rep movsb] and [rep movsl] with the direction flag clear. *)
Fixpoint BYTE_COPY_FWD (dst_bp src_bp : Z) (nbytes : nat) : M S unit :=
  match nbytes with
  | O => mret tt
  | Datatypes.S n' =>
      b ← load8 src_bp; store8 dst_bp b ;;
      BYTE_COPY_FWD (u32 (dst_bp + 1)) (u32 (src_bp + 1)) n'
  end.
Fixpoint WORD_COPY_FWD (dst_bp src_bp : Z) (nwords : nat) : M S unit :=
  match nwords with
  | O => mret tt
  | Datatypes.S n' =>
      w ← load32 src_bp; store32 dst_bp w ;;
      WORD_COPY_FWD (u32 (dst_bp + 4)) (u32 (src_bp + 4)) n'
  end.

Definition memcpy (dstpp srcpp len : Z) : M S unit :=
  if OP_T_THRES <=? len then
    let pre := (- dstpp) mod OPSIZ in
    let len := len - pre in
    BYTE_COPY_FWD dstpp srcpp (Z.to_nat pre) ;;
    let dstp := u32 (dstpp + pre) in
    let srcp := u32 (srcpp + pre) in
    WORD_COPY_FWD dstp srcp (Z.to_nat (len / 4)) ;;
    let dstp := u32 (dstp + 4 * (len / 4)) in
    let srcp := u32 (srcp + 4 * (len / 4)) in
    BYTE_COPY_FWD dstp srcp (Z.to_nat (len mod 4))
  else BYTE_COPY_FWD dstpp srcpp (Z.to_nat len).
End string.

(** ** Correctness of memset and memcpy *)

(** The access left [f] in memory and everything else alone. *)
Definition leaves {S} `{MemLaws S} (s s' : S) (f : Z -> option Z) : Prop :=
  mem_ok s' /\ rest s' = rest s /\ forall x, view s' x = f x.

Lemma leaves_trans {S} `{MemLaws S} (s1 s2 s3 : S) f g :
  leaves s1 s2 f -> leaves s2 s3 g -> leaves s1 s3 g.
Proof. intros (? & ? & ?) (? & ? & ?). repeat split; congruence. Qed.

Lemma leaves_ext {S} `{MemLaws S} (s s' : S) f g :
  (forall x, f x = g x) -> leaves s s' f -> leaves s s' g.
Proof. intros E (? & ? & V). repeat split; [done..|]. intros x. by rewrite V. Qed.

Definition in_range (a n x : Z) : bool := (a <=? x) && (x <? a + n).

Lemma in_range_spec a n x : in_range a n x = true <-> a <= x < a + n.
Proof. unfold in_range. rewrite andb_true_iff, Z.leb_le, Z.ltb_lt. done. Qed.

Lemma in_range_false a n x : in_range a n x = false <-> ~ (a <= x < a + n).
Proof. rewrite <- in_range_spec. by destruct (in_range a n x). Qed.

(** Case analysis on every [in_range] and integer test of the goal. *)
Ltac range_cases :=
  repeat match goal with
  | |- context [in_range ?a ?n ?x] =>
      let E := fresh "E" in destruct (in_range a n x) eqn:E;
      [apply in_range_spec in E|apply in_range_false in E]
  | |- context [?a =? ?b] => destruct (Z.eqb_spec a b)
  end; try done; try lia.

Section string_laws.
Context {S : Type} `{MemLaws S}.
Implicit Types s : S.

Lemma owns_sub s a n b m : owns s a n -> a <= b -> b + m <= a + n -> owns s b m.
Proof. intros O ? ? x ?. apply O. lia. Qed.

Lemma owns_leaves s s' f a n :
  owns s a n -> leaves s s' f -> (forall x, is_Some (view s x) -> is_Some (f x)) -> owns s' a n.
Proof. intros O (_ & _ & V) Hf x Hx. rewrite V. by apply Hf, O. Qed.

Lemma owns_u32 s a n x : mem_ok s -> owns s a n -> a <= x < a + n -> is_u32 x.
Proof. intros Hok O Hx. destruct (O x Hx) as [b Hb]. by eapply view_u32. Qed.

Lemma fill8_ok (dstp c : Z) n s :
  mem_ok s -> owns s dstp (Z.of_nat n) ->
  exists s', fill8 dstp c n s = Ok (tt, s') /\
    leaves s s' (fun x => if in_range dstp (Z.of_nat n) x then Some (u8 c) else view s x).
Proof.
  revert dstp s. induction n as [|n IH]; intros dstp s Hok Ho.
  { exists s. split; [done|]. repeat split; [done..|]. intros x. range_cases. }
  destruct (Ho dstp) as [b Hb]; [lia|].
  destruct (store8_law s dstp b c Hok Hb) as (s1 & E1 & Hok1 & R1 & V1).
  cbn [fill8]. rewrite (bind_step _ _ _ _ _ E1).
  destruct n as [|n].
  { exists s1. split; [done|]. repeat split; [done..|]. intros x. rewrite V1. range_cases. }
  assert (is_u32 (dstp + 1)) as Hu by (apply (owns_u32 s dstp (Z.of_nat (2 + n))); [done..|lia]).
  rewrite (u32_small _ Hu).
  destruct (IH (dstp + 1) s1) as (s2 & E2 & L2); [done| |].
  { intros x Hx. rewrite V1. range_cases. apply Ho. lia. }
  exists s2. split; [done|]. apply (leaves_trans s s1 s2 (view s1)); [by repeat split|].
  eapply leaves_ext; [|exact L2]. intros x. cbn. rewrite V1. range_cases.
Qed.

Lemma fill32_ok (dstp cccc : Z) n s :
  mem_ok s -> owns s dstp (4 * Z.of_nat n) ->
  exists s', fill32 dstp cccc n s = Ok (tt, s') /\
    leaves s s' (fun x =>
      if in_range dstp (4 * Z.of_nat n) x then Some (byte_of cccc ((x - dstp) mod 4)) else view s x).
Proof.
  revert dstp s. induction n as [|n IH]; intros dstp s Hok Ho.
  { exists s. split; [done|]. repeat split; [done..|]. intros x. range_cases. }
  destruct (store32_law s dstp cccc Hok) as (s1 & E1 & Hok1 & R1 & V1).
  { intros k Hk. apply Ho. lia. }
  cbn [fill32]. rewrite (bind_step _ _ _ _ _ E1). fold (in_range dstp 4) in V1.
  destruct n as [|n].
  { exists s1. split; [done|]. repeat split; [done..|]. intros x. rewrite V1.
    fold (in_range dstp 4 x). range_cases. by rewrite Z.mod_small by lia. }
  assert (is_u32 (dstp + OPSIZ)) as Hu
    by (apply (owns_u32 s dstp (4 * Z.of_nat (2 + n))); [done..|unfold OPSIZ; lia]).
  rewrite (u32_small _ Hu). unfold OPSIZ.
  destruct (IH (dstp + 4) s1) as (s2 & E2 & L2); [done| |].
  { intros x Hx. rewrite V1. fold (in_range dstp 4 x). range_cases. apply Ho. lia. }
  exists s2. split; [done|]. apply (leaves_trans s s1 s2 (view s1)); [by repeat split|].
  eapply leaves_ext; [|exact L2]. intros x. cbn beta. rewrite V1. fold (in_range dstp 4 x).
  range_cases.
  - replace (x - (dstp + 4)) with (x - dstp + (-1) * 4) by lia. by rewrite Z.mod_add by lia.
  - by rewrite Z.mod_small by lia.
Qed.

(** The unrolled loop is the word loop, eight rounds at a time. *)
Lemma fill256_fill32 dstp cccc n s :
  fill256 dstp cccc n s = fill32 dstp cccc (8 * n) s.
Proof.
  revert dstp s. induction n as [|n IH]; intros dstp s; [done|].
  replace (8 * Datatypes.S n)%nat with (8 + 8 * n)%nat by lia.
  cbn [fill256 fill32 Nat.add]. unfold OPSIZ, mbind, M_bind.
  rewrite !u32_add_l, <- !Z.add_assoc.
  change (8 * 4) with 32. change (4 + 4) with 8. change (4 + 8) with 12. change (4 + 12) with 16.
  change (4 + 16) with 20. change (4 + 20) with 24. change (4 + 24) with 28. change (4 + 28) with 32.
  repeat (match goal with |- context [store32 ?a ?v ?st] =>
    destruct (store32 a v st) as [[? ?]|]; [|done] end).
  apply IH.
Qed.

(** The word [memset] builds from its byte. *)
Lemma splat_le32 c :
  let c1 := Z.lor (u8 c) (u32 (Z.shiftl (u8 c) 8)) in
  Z.lor c1 (u32 (Z.shiftl c1 16)) = le32 (u8 c) (u8 c) (u8 c) (u8 c).
Proof.
  pose proof (u8_range c) as Hc. unfold is_u8 in Hc. set (b := u8 c) in *. cbv zeta.
  assert (forall x y k, 0 <= x < 2 ^ k -> 0 <= k -> 0 <= y -> Z.lor x (Z.shiftl y k) = x + y * 2 ^ k) as Hadd.
  { intros x y k Hx Hk Hy. rewrite Z.shiftl_mul_pow2 by lia.
    rewrite <- Z.lxor_lor, <- Z.add_nocarry_lxor; [done|..];
      rewrite <- Z.shiftl_mul_pow2 by lia; apply Z.bits_inj'; intros i Hi;
      rewrite Z.land_spec, Z.bits_0, Z.shiftl_spec by lia;
      (destruct (Z.lt_ge_cases i k);
       [rewrite (Z.testbit_neg_r y) by lia; apply andb_false_r
       |rewrite <- (Z.mod_small x (2 ^ k)) by lia; rewrite Z.mod_pow2_bits_high by lia; done]). }
  rewrite (u32_small (Z.shiftl b 8)) by (unfold is_u32; rewrite Z.shiftl_mul_pow2; lia).
  rewrite Hadd by lia.
  rewrite u32_small by (unfold is_u32; rewrite Z.shiftl_mul_pow2; lia).
  rewrite Hadd by lia. unfold le32. lia.
Qed.

(** The same when the pointer was advanced modulo [2^32]; at the end of the
    address space nothing is left to write. *)
Lemma fill8_ok_u32 (dstp c : Z) n s :
  mem_ok s -> owns s dstp (Z.of_nat n) ->
  exists s', fill8 (u32 dstp) c n s = Ok (tt, s') /\
    leaves s s' (fun x => if in_range dstp (Z.of_nat n) x then Some (u8 c) else view s x).
Proof.
  intros Hok Ho. destruct n as [|n]; [apply (fill8_ok dstp c 0 s Hok Ho)|].
  rewrite u32_small by (eapply owns_u32; [exact Hok|exact Ho|lia]). by apply fill8_ok.
Qed.

Lemma fill32_ok_u32 (dstp c : Z) n s :
  mem_ok s -> is_u8 c -> owns s dstp (4 * Z.of_nat n) ->
  exists s', fill32 (u32 dstp) (le32 c c c c) n s = Ok (tt, s') /\
    leaves s s' (fun x => if in_range dstp (4 * Z.of_nat n) x then Some c else view s x).
Proof.
  intros Hok Hc Ho.
  assert (fill32 (u32 dstp) (le32 c c c c) n s = fill32 dstp (le32 c c c c) n s) as ->.
  { destruct n as [|n]; [done|]. by rewrite u32_small by (eapply owns_u32; [exact Hok|exact Ho|lia]). }
  destruct (fill32_ok dstp (le32 c c c c) n s Hok Ho) as (s' & E & L).
  exists s'. split; [done|]. eapply leaves_ext; [|exact L]. intros x. cbn.
  range_cases. rewrite byte_of_splat; [done|done|]. apply Z.mod_pos_bound. lia.
Qed.

Lemma fill_owns s s' a m v b n :
  leaves s s' (fun x => if in_range a m x then Some v else view s x) -> owns s b n -> owns s' b n.
Proof.
  intros L Ho. eapply owns_leaves; [exact Ho|exact L|].
  intros x Hx. cbn. destruct (in_range a m x); [by eexists|done].
Qed.

Lemma memset_ok dst c len s :
  mem_ok s -> 0 <= len -> owns s dst len ->
  exists s', memset dst c len s = Ok (tt, s') /\
    leaves s s' (fun x => if in_range dst len x then Some (u8 c) else view s x).
Proof.
  intros Hok Hlen Ho. unfold memset.
  destruct (Z.leb_spec 8 len) as [Hbig|Hsmall]; cycle 1.
  { destruct (fill8_ok dst c (Z.to_nat len) s Hok) as (s' & E & L); [by rewrite Z2Nat.id|].
    rewrite Z2Nat.id in L by done. eauto. }
  rewrite splat_le32. unfold OPSIZ. set (pre := (- dst) mod 4).
  assert (0 <= pre < 4) as Hpre by (apply Z.mod_pos_bound; lia).
  set (b := u8 c). assert (is_u8 b) as Hb by apply u8_range.
  set (q := (len - pre) / (4 * 8)). set (r := (len - pre) mod (4 * 8)).
  assert (len - pre = 32 * q + r /\ 0 <= r < 32 /\ 0 <= q) as (Hq & Hr & Hq0)
    by (unfold q, r; Z.to_euclidean_division_equations; lia).
  set (q2 := r / 4). set (r2 := r mod 4).
  assert (r = 4 * q2 + r2 /\ 0 <= r2 < 4 /\ 0 <= q2) as (Hq2 & Hr2 & Hq20)
    by (unfold q2, r2; Z.to_euclidean_division_equations; lia).
  destruct (fill8_ok dst c (Z.to_nat pre) s Hok) as (s1 & E1 & L1);
    [eapply owns_sub; [exact Ho|lia..]|]. rewrite (bind_step _ _ _ _ _ E1).
  destruct (fill32_ok_u32 (dst + pre) b (8 * Z.to_nat q) s1) as (s2 & E2 & L2);
    [apply L1|done|eapply owns_sub; [eapply fill_owns; [exact L1|exact Ho]|lia..]|].
  rewrite <- fill256_fill32 in E2. rewrite (bind_step _ _ _ _ _ E2).
  destruct (fill32_ok_u32 (dst + pre + 32 * q) b (Z.to_nat q2) s2) as (s3 & E3 & L3);
    [apply L2|done|eapply owns_sub; [eapply fill_owns; [exact L2|eapply fill_owns; [exact L1|exact Ho]]|lia..]|].
  cbv beta zeta. rewrite !u32_add_l. change (8 * 4) with 32.
  rewrite (Z.mul_comm q 32), (Z.mul_comm q2 4), (bind_step _ _ _ _ _ E3).
  destruct (fill8_ok_u32 (dst + pre + 32 * q + 4 * q2) c (Z.to_nat r2) s3) as (s4 & E4 & L4);
    [apply L3|eapply owns_sub; [eapply fill_owns; [exact L3|eapply fill_owns; [exact L2|eapply fill_owns; [exact L1|exact Ho]]]|lia..]|].
  exists s4. split; [rewrite <- Z.add_assoc, u32_add_l, Z.add_assoc; exact E4|].
  eapply leaves_trans; [exact L1|]. eapply leaves_trans; [exact L2|].
  eapply leaves_trans; [exact L3|]. eapply leaves_ext; [|exact L4]. intros x. cbn beta.
  destruct L1 as (_ & _ & V1), L2 as (_ & _ & V2), L3 as (_ & _ & V3).
  rewrite V3, V2, V1. fold b. range_cases.
Qed.

(** Memory after [n] bytes were copied from [src] to [dst]. *)
Definition copied s (dst src n x : Z) : option Z :=
  if in_range dst n x then view s (src + (x - dst)) else view s x.

Definition disjoint (a n b m : Z) : Prop := a + n <= b \/ b + m <= a.

Lemma copied_owns s s' dst src n m b k :
  0 <= n <= m -> owns s src m -> leaves s s' (copied s dst src n) -> owns s b k -> owns s' b k.
Proof.
  intros Hn Hs (_ & _ & V) Ho x Hx. rewrite V. unfold copied.
  range_cases; [apply Hs; lia|by apply Ho].
Qed.

(** Two copies of consecutive pieces are one copy. *)
Lemma copied_app s1 s2 s3 dst src n m :
  0 <= n -> 0 <= m -> disjoint dst (n + m) src (n + m) ->
  leaves s1 s2 (copied s1 dst src n) ->
  leaves s2 s3 (copied s2 (dst + n) (src + n) m) ->
  leaves s1 s3 (copied s1 dst src (n + m)).
Proof.
  intros Hn Hm D L1 L2. eapply leaves_ext; [|eapply leaves_trans; [exact L1|exact L2]].
  destruct L1 as (_ & _ & V). intros x. unfold copied, disjoint in *. rewrite !V.
  range_cases. f_equal. lia.
Qed.

Lemma copy8_ok (dst src : Z) n s :
  mem_ok s -> owns s dst (Z.of_nat n) -> owns s src (Z.of_nat n) ->
  disjoint dst (Z.of_nat n) src (Z.of_nat n) ->
  exists s', BYTE_COPY_FWD (u32 dst) (u32 src) n s = Ok (tt, s') /\
    leaves s s' (copied s dst src (Z.of_nat n)).
Proof.
  revert dst src s. induction n as [|n IH]; intros dst src s Hok Hd Hs D.
  { exists s. split; [done|]. repeat split; [done..|]. intros x. unfold copied. range_cases. }
  rewrite (u32_small dst) by (eapply owns_u32; [exact Hok|exact Hd|lia]).
  rewrite (u32_small src) by (eapply owns_u32; [exact Hok|exact Hs|lia]).
  destruct (Hs src) as [b Hb]; [lia|].
  destruct (load8_law s src b Hok Hb) as (s1 & E1 & Hok1 & R1 & V1).
  destruct (Hd dst) as [b0 Hb0]; [lia|].
  destruct (store8_law s1 dst b0 b Hok1) as (s2 & E2 & Hok2 & R2 & V2); [by rewrite V1|].
  cbn [BYTE_COPY_FWD]. rewrite (bind_step _ _ _ _ _ E1), (bind_step _ _ _ _ _ E2).
  assert (leaves s s2 (copied s dst src 1)) as L.
  { repeat split; [done|congruence|]. intros x. rewrite V2, V1, (u8_small b) by exact (view_u8 s src b Hok Hb).
    unfold copied. range_cases. subst. by rewrite Z.sub_diag, Z.add_0_r. }
  destruct (IH (dst + 1) (src + 1) s2 Hok2) as (s3 & E3 & L3).
  1, 2: eapply (copied_owns s s2 dst src 1 (Z.of_nat (Datatypes.S n))); [lia|done|done|];
    first [eapply owns_sub; [exact Hd|lia..]|eapply owns_sub; [exact Hs|lia..]].
  { unfold disjoint in *. lia. }
  exists s3. split; [exact E3|].
  replace (Z.of_nat (Datatypes.S n)) with (1 + Z.of_nat n) in * by lia.
  eapply copied_app; [lia..|done|exact L|exact L3].
Qed.

Lemma copy32_ok (dst src : Z) n s :
  mem_ok s -> owns s dst (4 * Z.of_nat n) -> owns s src (4 * Z.of_nat n) ->
  disjoint dst (4 * Z.of_nat n) src (4 * Z.of_nat n) ->
  exists s', WORD_COPY_FWD (u32 dst) (u32 src) n s = Ok (tt, s') /\
    leaves s s' (copied s dst src (4 * Z.of_nat n)).
Proof.
  revert dst src s. induction n as [|n IH]; intros dst src s Hok Hd Hs D.
  { exists s. split; [done|]. repeat split; [done..|]. intros x. unfold copied. range_cases. }
  rewrite (u32_small dst) by (eapply owns_u32; [exact Hok|exact Hd|lia]).
  rewrite (u32_small src) by (eapply owns_u32; [exact Hok|exact Hs|lia]).
  destruct (Hs src) as [b0 Hb0]; [lia|]. destruct (Hs (src + 1)) as [b1 Hb1]; [lia|].
  destruct (Hs (src + 2)) as [b2 Hb2]; [lia|]. destruct (Hs (src + 3)) as [b3 Hb3]; [lia|].
  destruct (load32_law s src _ _ _ _ Hok Hb0 Hb1 Hb2 Hb3) as (s1 & E1 & Hok1 & R1 & V1).
  destruct (store32_law s1 dst (le32 b0 b1 b2 b3) Hok1) as (s2 & E2 & Hok2 & R2 & V2).
  { intros k Hk. rewrite V1. apply Hd. lia. }
  cbn [WORD_COPY_FWD]. rewrite (bind_step _ _ _ _ _ E1), (bind_step _ _ _ _ _ E2).
  assert (leaves s s2 (copied s dst src 4)) as L.
  { repeat split; [done|congruence|]. intros x. rewrite V2, V1.
    fold (in_range dst 4 x). unfold copied. range_cases.
    destruct (byte_of_le32 b0 b1 b2 b3) as (B0 & B1 & B2 & B3); [eapply view_u8; [exact Hok|eassumption]..|].
    assert (x - dst = 0 \/ x - dst = 1 \/ x - dst = 2 \/ x - dst = 3) as [->|[->|[->| ->]]] by lia;
      rewrite ?Z.add_0_r; congruence. }
  destruct (IH (dst + 4) (src + 4) s2 Hok2) as (s3 & E3 & L3).
  1, 2: eapply (copied_owns s s2 dst src 4 (4 * Z.of_nat (Datatypes.S n))); [lia|done|done|];
    first [eapply owns_sub; [exact Hd|lia..]|eapply owns_sub; [exact Hs|lia..]].
  { unfold disjoint in *. lia. }
  exists s3. split; [exact E3|].
  replace (4 * Z.of_nat (Datatypes.S n)) with (4 + 4 * Z.of_nat n) in * by lia.
  eapply copied_app; [lia..|done|exact L|exact L3].
Qed.

Lemma memcpy_ok dst src len s :
  mem_ok s -> 0 <= len -> is_u32 dst -> is_u32 src ->
  owns s dst len -> owns s src len -> disjoint dst len src len ->
  exists s', memcpy dst src len s = Ok (tt, s') /\ leaves s s' (copied s dst src len).
Proof.
  intros Hok Hlen Hud Hus Hd Hs D. unfold memcpy, OP_T_THRES, OPSIZ.
  destruct (Z.leb_spec 8 len) as [Hbig|Hsmall]; cycle 1.
  { destruct (copy8_ok dst src (Z.to_nat len) s Hok) as (s' & E & L); [by rewrite Z2Nat.id..|].
    rewrite Z2Nat.id in L by done. rewrite (u32_small dst Hud), (u32_small src Hus) in E. eauto. }
  set (pre := (- dst) mod 4). assert (0 <= pre < 4) as Hpre by (apply Z.mod_pos_bound; lia).
  set (q := (len - pre) / 4). set (r := (len - pre) mod 4).
  assert (len = pre + (4 * q + r) /\ 0 <= r < 4 /\ 0 <= q) as (Hq & Hr & Hq0)
    by (unfold q, r; Z.to_euclidean_division_equations; lia).
  clearbody pre q r. rewrite Hq in *.
  destruct (copy8_ok dst src (Z.to_nat pre) s Hok) as (s1 & E1 & L1);
    [eapply owns_sub; [exact Hd|lia..]|eapply owns_sub; [exact Hs|lia..]|unfold disjoint in *; lia|].
  rewrite Z2Nat.id in L1 by lia.
  rewrite (u32_small dst Hud), (u32_small src Hus) in E1. rewrite (bind_step _ _ _ _ _ E1).
  assert (forall b k, owns s b k -> owns s1 b k) as O1
    by (intros b k Ho; eapply copied_owns; [|exact Hs|exact L1|exact Ho]; lia).
  destruct (copy32_ok (dst + pre) (src + pre) (Z.to_nat q) s1) as (s2 & E2 & L2);
    [apply L1|eapply owns_sub; [apply O1; exact Hd|lia..]|eapply owns_sub; [apply O1; exact Hs|lia..]|unfold disjoint in *; lia|].
  rewrite Z2Nat.id in L2 by lia. rewrite (bind_step _ _ _ _ _ E2).
  assert (forall b k, owns s b k -> owns s2 b k) as O2.
  { intros b k Ho. eapply (copied_owns s1 s2 (dst + pre) (src + pre) (4 * q) (4 * q)); [lia| |done|by apply O1].
    eapply owns_sub; [apply O1; exact Hs|lia..]. }
  destruct (copy8_ok (dst + pre + 4 * q) (src + pre + 4 * q) (Z.to_nat r) s2) as (s3 & E3 & L3);
    [apply L2|eapply owns_sub; [apply O2; exact Hd|lia..]|eapply owns_sub; [apply O2; exact Hs|lia..]|unfold disjoint in *; lia|].
  rewrite Z2Nat.id in L3 by lia. exists s3. cbv beta zeta. rewrite !u32_add_l. split; [exact E3|].
  eapply copied_app; [lia..|done|exact L1|].
  eapply copied_app; [lia..|unfold disjoint in *; lia|exact L2|exact L3].
Qed.
End string_laws.

(** ** Flat memory

    The simplest store: a finite map, an access outside it faults. *)
Abbreviation flat := (gmap Z Z) (only parsing).

#[export] Instance flat_mem : Mem flat := {
  load8 a := deref (fun m : flat => m !! a);
  store8 a v := deref (fun m : flat => m !! a) ;; modify (fun m : flat => <[a := u8 v]> m);
  load32 a :=
    b0 ← deref (fun m : flat => m !! a);
    b1 ← deref (fun m : flat => m !! u32 (a + 1));
    b2 ← deref (fun m : flat => m !! u32 (a + 2));
    b3 ← deref (fun m : flat => m !! u32 (a + 3));
    mret (le32 b0 b1 b2 b3);
  store32 a v :=
    deref (fun m : flat => m !! a) ;;
    deref (fun m : flat => m !! u32 (a + 1)) ;;
    deref (fun m : flat => m !! u32 (a + 2)) ;;
    deref (fun m : flat => m !! u32 (a + 3)) ;;
    modify (fun m : flat => <[u32 (a + 3) := byte_of v 3]> (<[u32 (a + 2) := byte_of v 2]>
      (<[u32 (a + 1) := byte_of v 1]> (<[a := byte_of v 0]> m))));
}.

Definition flat_ok (m : flat) : Prop := map_Forall (fun a b => is_u32 a /\ is_u8 b) m.

Lemma flat_ok_insert m a b : flat_ok m -> is_u32 a -> is_u8 b -> flat_ok (<[a := b]> m).
Proof. intros. by apply map_Forall_insert_2. Qed.

#[export] Program Instance flat_laws : MemLaws flat := {
  mem_ok := flat_ok;
  view m a := m !! a;
  rest_type := unit;
  rest _ := tt;
}.
Next Obligation. intros m a b Hok Hb. apply (Hok a b Hb). Qed.
Next Obligation. intros m a b Hok Hb. apply (Hok a b Hb). Qed.
Next Obligation.
  intros m a b Hok Hb. exists m. split; [|done]. cbn. unfold deref. by rewrite Hb.
Qed.
Next Obligation.
  intros m a b v Hok Hb. exists (<[a := u8 v]> m). cbn. unfold mbind, M_bind, deref, modify. rewrite Hb.
  split_and!; [done| |done|].
  - apply flat_ok_insert; [done|apply (Hok a b Hb)|apply u8_range].
  - intros x. destruct (Z.eqb_spec x a) as [->|]; [apply lookup_insert_eq|by apply lookup_insert_ne].
Qed.
Next Obligation.
  intros m a b0 b1 b2 b3 Hok H0 H1 H2 H3. exists m. split; [|done]. cbn.
  rewrite !u32_small by (eapply Hok; eassumption).
  unfold mbind, M_bind, deref, mret, M_ret. by rewrite H0, H1, H2, H3.
Qed.
Next Obligation.
  intros m a v Hok Ho.
  destruct (Ho 0) as [b0 H0]; [lia|]. rewrite Z.add_0_r in H0.
  destruct (Ho 1) as [b1 H1]; [lia|]. destruct (Ho 2) as [b2 H2]; [lia|]. destruct (Ho 3) as [b3 H3]; [lia|].
  eexists. cbn. rewrite !u32_small by (eapply Hok; eassumption).
  unfold mbind, M_bind, deref, modify. rewrite H0, H1, H2, H3. split_and!; [reflexivity| |done|].
  - repeat apply flat_ok_insert; try apply byte_of_u8; try (eapply Hok; eassumption).
  - intros x. destruct (Z.leb_spec a x), (Z.ltb_spec x (a + 4)); cbn [andb];
      [|by rewrite !lookup_insert_ne by lia..].
    assert (x = a \/ x = a + 1 \/ x = a + 2 \/ x = a + 3) as [->|[->|[->| ->]]] by lia;
      repeat (rewrite lookup_insert_eq || rewrite lookup_insert_ne by lia); do 2 f_equal; lia.
Qed.

(** [memset] over memory the caller owns returns with exactly the [len]
    bytes from [dst] set to [(unsigned char) c], whatever the alignment: the
    byte, word and unrolled loops cover the range once and nothing beyond. *)
Theorem memset_correct {S} `{MemLaws S} (s : S) (dst c len : Z) :
  mem_ok s -> 0 <= len -> owns s dst len ->
  exists s', memset dst c len s = Ok (tt, s') /\
    mem_ok s' /\ rest s' = rest s /\
    forall x, view s' x = if in_range dst len x then Some (u8 c) else view s x.
Proof. intros. by apply memset_ok. Qed.

(** [memcpy] between disjoint ranges the caller owns returns with the
    [len] bytes of [src] at [dst] and every other byte as it was: the byte
    prologue, the word loop and the tail copy each byte once. *)
Theorem memcpy_correct {S} `{MemLaws S} (s : S) (dst src len : Z) :
  mem_ok s -> 0 <= len -> is_u32 dst -> is_u32 src ->
  owns s dst len -> owns s src len -> disjoint dst len src len ->
  exists s', memcpy dst src len s = Ok (tt, s') /\
    mem_ok s' /\ rest s' = rest s /\
    forall x, view s' x = if in_range dst len x then view s (src + (x - dst)) else view s x.
Proof. intros. by apply memcpy_ok. Qed.

(** Forty bytes of flat memory from address 101. *)
Definition flat_example : flat :=
  list_to_map (map (fun k : nat => (101 + Z.of_nat k, Z.of_nat k)) (seq 0 40)).

Lemma flat_example_ok : flat_ok flat_example.
Proof. unfold flat_ok, is_u32, is_u8. apply (bool_decide_unpack _). vm_compute. exact I. Qed.

(** Ownership of a concrete range, by evaluation. *)
Lemma flat_owns (m : flat) a n :
  forallb (fun k => bool_decide (is_Some (m !! (a + Z.of_nat k)))) (seq 0 n) = true ->
  owns m a (Z.of_nat n).
Proof.
  intros H x Hx. rewrite forallb_forall in H. specialize (H (Z.to_nat (x - a))).
  rewrite bool_decide_eq_true in H. rewrite Z2Nat.id in H by lia.
  replace (a + (x - a)) with x in H by lia. apply H, in_seq. lia.
Qed.

Lemma memset_correct_witness :
  exists s', memset 103 0x2AB 30 flat_example = Ok (tt, s') /\
    view s' 103 = Some 0xAB /\ view s' 132 = Some 0xAB /\ view s' 133 = Some 32.
Proof.
  destruct (memset_correct flat_example 103 0x2AB 30) as (s' & E & _ & _ & V).
  - exact flat_example_ok.
  - lia.
  - apply (flat_owns _ _ 30). vm_compute. reflexivity.
  - exists s'. rewrite !V. split; [exact E|]. vm_compute. auto.
Defined.

Lemma memcpy_correct_witness :
  exists s', memcpy 103 122 15 flat_example = Ok (tt, s') /\
    view s' 102 = Some 1 /\ view s' 103 = Some 21 /\ view s' 117 = Some 35 /\ view s' 118 = Some 17.
Proof.
  destruct (memcpy_correct flat_example 103 122 15) as (s' & E & _ & _ & V).
  - exact flat_example_ok.
  - lia.
  - zdec.
  - zdec.
  - apply (flat_owns _ _ 15). vm_compute. reflexivity.
  - apply (flat_owns _ _ 15). vm_compute. reflexivity.
  - left. lia.
  - exists s'. rewrite !V. split; [exact E|]. vm_compute. auto.
Defined.
