(* ===== verification/Heap.v ===== *)
(** * The interface between [sbrk] and the heap allocator

    [memory/malloc.c] sees the kernel heap as memory that only [sbrk] can
    extend. [Heap] is that operation and [HeapLaws] what the allocator may
    assume of it; [Sbrk] shows that the page-table based implementation of
    [memory/sbrk.c] meets it. *)
From Stdlib Require Import ZArith Lia Bool.
From stdpp Require Import base list gmap option.
From S2P Require Import Prelude Mem.

Open Scope Z_scope.

Class Heap (S : Type) `{Mem S} := {
  sbrk : Z -> M S Z;
}.

(** The heap is the range [[heap_bottom, brk)]: every byte of it is owned,
    nothing else is. [room r n] says that [n] more bytes can be granted; then
    [sbrk n] returns the old break and adds [n] zero bytes. *)
Class HeapLaws (S : Type) `{Heap S} `{!MemLaws S} := {
  heap_bottom : Z;
  brk : rest_type -> Z;
  room : rest_type -> Z -> Prop;
  heap_bottom_pos : 0 < heap_bottom;
  heap_range : forall s, mem_ok s -> heap_bottom <= brk (rest s) < 2 ^ 32;
  heap_bottom_aligned : heap_bottom mod 4 = 0;
  heap_owned : forall s x, mem_ok s -> is_Some (view s x) <-> heap_bottom <= x < brk (rest s);
  sbrk_zero : forall s, mem_ok s -> sbrk 0 s = Ok (brk (rest s), s);
  sbrk_law : forall s n, mem_ok s -> 0 < n -> room (rest s) n ->
    exists s', sbrk n s = Ok (brk (rest s), s') /\ mem_ok s' /\
      brk (rest s') = brk (rest s) + n /\
      forall x, view s' x = if in_range (brk (rest s)) n x then Some 0 else view s x;
}.

(** ** A heap over flat memory

    The break is a field, memory below a fixed limit is always granted. *)
Record flat_heap := mk_flat_heap { fh_mem : gmap Z Z; fh_brk : Z }.

Definition with_mem (m : gmap Z Z) (s : flat_heap) : flat_heap := mk_flat_heap m (fh_brk s).
Definition on_flat {A} : M (gmap Z Z) A -> M flat_heap A := zoom fh_mem with_mem.

#[export] Instance flat_heap_mem : Mem flat_heap := {
  load8 a := on_flat (load8 a);
  store8 a v := on_flat (store8 a v);
  load32 a := on_flat (load32 a);
  store32 a v := on_flat (store32 a v);
}.

Definition flat_bottom : Z := 0x1000.

Definition zero_bytes (a : Z) (n : Z) (m : gmap Z Z) : gmap Z Z :=
  foldr (fun x m => <[x := 0]> m) m (seqZ a n).

#[export] Instance flat_heap_heap : Heap flat_heap := {
  sbrk n s := Ok (fh_brk s, mk_flat_heap (zero_bytes (fh_brk s) n (fh_mem s)) (fh_brk s + n));
}.

Lemma zero_bytes_lookup a n m x :
  zero_bytes a n m !! x = if in_range a n x then Some 0 else m !! x.
Proof.
  assert (forall l, foldr (fun x m => <[x := 0]> m) m l !! x = if decide (x ∈ l) then Some 0 else m !! x) as Hl.
  { intros l. induction l as [|y l IH]; cbn [foldr].
    - destruct (decide (x ∈ [])) as [H|]; [by apply not_elem_of_nil in H|done].
    - destruct (decide (y = x)) as [->|Hne].
      + rewrite lookup_insert_eq. destruct (decide (x ∈ x :: l)) as [|H]; [done|]. destruct H. left.
      + rewrite lookup_insert_ne, IH by done.
        destruct (decide (x ∈ l)) as [H|H], (decide (x ∈ y :: l)) as [H'|H']; try done.
        * destruct H'. by right.
        * apply elem_of_cons in H' as [->|]; done. }
  unfold zero_bytes. rewrite Hl. destruct (decide (x ∈ seqZ a n)) as [H|H]; rewrite elem_of_seqZ in H; range_cases.
Qed.

Definition flat_heap_ok (s : flat_heap) : Prop :=
  flat_ok (fh_mem s) /\ flat_bottom <= fh_brk s < 2 ^ 32 /\
  forall x, is_Some (fh_mem s !! x) <-> flat_bottom <= x < fh_brk s.

Lemma flat_heap_after s m :
  flat_heap_ok s -> flat_ok m -> (forall x, is_Some (m !! x) <-> is_Some (fh_mem s !! x)) ->
  flat_heap_ok (with_mem m s).
Proof. intros (_ & ? & Hd) Hm Hx. split; [done|]. split; [done|]. intros x.
  change (fh_mem (with_mem m s)) with m. rewrite Hx. apply Hd.
Qed.

#[export] Program Instance flat_heap_mem_laws : MemLaws flat_heap := {
  mem_ok := flat_heap_ok;
  view s a := fh_mem s !! a;
  rest_type := Z;
  rest := fh_brk;
}.
Next Obligation. intros s a b (Hok & _) Hb. apply (Hok a b Hb). Qed.
Next Obligation. intros s a b (Hok & _) Hb. apply (Hok a b Hb). Qed.
Next Obligation.
  intros s a b Hok Hb. destruct (@load8_law (gmap Z Z) flat_mem flat_laws (fh_mem s) a b (proj1 Hok) Hb) as (m & E & Hm & _ & V).
  exists (with_mem m s). split_and!; [by apply (zoom_ok fh_mem with_mem)| |done|exact V].
  apply flat_heap_after; [done..|]. intros x. cbn in V. by rewrite V.
Qed.
Next Obligation.
  intros s a b v Hok Hb. destruct (@store8_law (gmap Z Z) flat_mem flat_laws (fh_mem s) a b v (proj1 Hok) Hb) as (m & E & Hm & _ & V).
  exists (with_mem m s). split_and!; [by apply (zoom_ok fh_mem with_mem)| |done|exact V].
  apply flat_heap_after; [done..|]. intros x. cbn in V. rewrite V. destruct (Z.eqb_spec x a) as [->|]; [|done].
  rewrite Hb. split; eauto.
Qed.
Next Obligation.
  intros s a b0 b1 b2 b3 Hok H0 H1 H2 H3.
  destruct (@load32_law (gmap Z Z) flat_mem flat_laws (fh_mem s) a b0 b1 b2 b3 (proj1 Hok) H0 H1 H2 H3) as (m & E & Hm & _ & V).
  exists (with_mem m s). split_and!; [by apply (zoom_ok fh_mem with_mem)| |done|exact V].
  apply flat_heap_after; [done..|]. intros x. cbn in V. by rewrite V.
Qed.
Next Obligation.
  intros s a v Hok Ho. destruct (@store32_law (gmap Z Z) flat_mem flat_laws (fh_mem s) a v (proj1 Hok) Ho) as (m & E & Hm & _ & V).
  exists (with_mem m s). split_and!; [by apply (zoom_ok fh_mem with_mem)| |done|exact V].
  apply flat_heap_after; [done..|]. intros x. cbn in V. rewrite V. fold (in_range a 4 x).
  destruct (in_range a 4 x) eqn:E4; [|done]. apply in_range_spec in E4. split; [|eauto].
  intros _. replace x with (a + (x - a)) by lia. apply Ho. lia.
Qed.

#[export] Program Instance flat_heap_laws : HeapLaws flat_heap := {
  heap_bottom := flat_bottom;
  brk b := b;
  room b n := b + n < 2 ^ 32;
}.
Next Obligation. done. Qed.
Next Obligation. intros s (_ & ? & _). done. Qed.
Next Obligation. done. Qed.
Next Obligation. intros s x (_ & _ & Hd). apply Hd. Qed.
Next Obligation. intros s Hok. cbn. unfold zero_bytes. cbn. rewrite Z.add_0_r. by destruct s. Qed.
Next Obligation.
  intros s n (Hok & Hb & Hd) Hn Hroom. cbn in Hroom. eexists. split_and!; [reflexivity| |done|].
  - split_and!; cbn; try lia.
    + intros x b. rewrite zero_bytes_lookup. destruct (in_range (fh_brk s) n x) eqn:E; [|apply Hok].
      apply in_range_spec in E. intros [= <-]. unfold flat_bottom, is_u32, is_u8 in *. lia.
    + intros x. rewrite zero_bytes_lookup. destruct (in_range (fh_brk s) n x) eqn:E.
      * apply in_range_spec in E. split; [lia|by eexists].
      * apply in_range_false in E. rewrite Hd. lia.
  - intros x. cbn. apply zero_bytes_lookup.
Qed.
