(* ===== verification/Vmm.v ===== *)
(** * The virtual memory manager ([memory/vmm.c])

    The machine state is physical memory, byte by byte, the paging registers,
    the TLB and the frame allocator. Every access the C code makes to a page
    directory or a page table goes through the MMU, as on the machine: the
    kernel reaches its page tables only through the recursive entry 1023. *)
From Stdlib Require Import ZArith Lia Bool.
From stdpp Require Import base list gmap option.
From S2P Require Import Prelude Bitmap Pmm Mem.

Open Scope Z_scope.

(** ** Physical memory *)

Definition rd8 (m : gmap Z Z) (a : Z) : Z := default 0 (m !! a).
Definition wr8 (m : gmap Z Z) (a v : Z) : gmap Z Z := <[a := u8 v]> m.
Definition rd32 (m : gmap Z Z) (a : Z) : Z :=
  le32 (rd8 m a) (rd8 m (a + 1)) (rd8 m (a + 2)) (rd8 m (a + 3)).
Definition wr32 (m : gmap Z Z) (a v : Z) : gmap Z Z :=
  wr8 (wr8 (wr8 (wr8 m a (byte_of v 0)) (a + 1) (byte_of v 1)) (a + 2) (byte_of v 2)) (a + 3) (byte_of v 3).

(** ** The machine *)

Record vm := mk_vm {
  phys : gmap Z Z;
  cr3 : Z;
  pse : bool;              (** CR4.PSE: 4 MiB pages, on until [vmm_paging] *)
  tlb : gmap Z Z;          (** page number to frame address *)
  frames : pmm;
  current_dir : Z;         (** [_current_dir] *)
}.

Definition with_phys (m : gmap Z Z) (s : vm) : vm :=
  mk_vm m (cr3 s) (pse s) (tlb s) (frames s) (current_dir s).
Definition with_tlb (t : gmap Z Z) (s : vm) : vm :=
  mk_vm (phys s) (cr3 s) (pse s) t (frames s) (current_dir s).
Definition with_frames (p : pmm) (s : vm) : vm :=
  mk_vm (phys s) (cr3 s) (pse s) (tlb s) p (current_dir s).
Definition on_pmm {A} : M pmm A -> M vm A := zoom frames with_frames.

Definition get_page_directory_index (x : Z) : Z := Z.land (Z.shiftr x 22) 0x3ff.
Definition get_page_table_entry_index (x : Z) : Z := Z.land (Z.shiftr x 12) 0x3ff.
Definition get_aligned_address (x : Z) : Z := Z.land x (lnot32 0xfff).
Definition is_page_enabled (x : Z) : bool := negb (Z.land x 0x1 =? 0).

(** The MMU: [pd = cr3; pt = pd[PDX]; page = pt[PTX]]. The result is the
    physical address of the page that holds [va]. *)
Definition page_walk (s : vm) (va : Z) : option Z :=
  let pde := rd32 (phys s) (cr3 s + 4 * get_page_directory_index va) in
  if negb (is_page_enabled pde) then None
  else if pse s && Z.testbit pde 7 then Some (Z.land pde 0xffc00000 + Z.land va 0x3ff000)
  else
    let pte := rd32 (phys s) (get_aligned_address pde + 4 * get_page_table_entry_index va) in
    if negb (is_page_enabled pte) then None else Some (get_aligned_address pte).

(** A translation found in the TLB is used as it is; one found by a walk is
    cached. A failed walk is a page fault and is not cached. *)
Definition translate (va : Z) : M vm Z := fun s =>
  match tlb s !! (va / 4096) with
  | Some f => Ok (f + va mod 4096, s)
  | None =>
      match page_walk s va with
      | Some f => Ok (f + va mod 4096, with_tlb (<[va / 4096 := f]> (tlb s)) s)
      | None => Fail Segv
      end
  end.

#[export] Instance vm_mem : Mem vm := {
  load8 a := p ← translate a; gets (fun s => rd8 (phys s) p);
  store8 a v := p ← translate a; modify (fun s => with_phys (wr8 (phys s) p v) s);
  load32 a :=
    p0 ← translate a; p1 ← translate (u32 (a + 1));
    p2 ← translate (u32 (a + 2)); p3 ← translate (u32 (a + 3));
    gets (fun s => le32 (rd8 (phys s) p0) (rd8 (phys s) p1) (rd8 (phys s) p2) (rd8 (phys s) p3));
  store32 a v :=
    p0 ← translate a; p1 ← translate (u32 (a + 1));
    p2 ← translate (u32 (a + 2)); p3 ← translate (u32 (a + 3));
    modify (fun s => with_phys
      (wr8 (wr8 (wr8 (wr8 (phys s) p0 (byte_of v 0)) p1 (byte_of v 1)) p2 (byte_of v 2)) p3 (byte_of v 3)) s);
}.

Definition vmm_flush_tlb_entry (addr : Z) : M vm unit :=
  modify (fun s => with_tlb (delete (addr / 4096) (tlb s)) s).

(** ** vmm.c *)

Definition PAGE_DIRECTORY_BASE : Z := 0xFFFFF000.
Definition PAGE_TABLE_BASE : Z := 0xFFC00000.
Definition KERNEL_HIGHER_HALF : Z := 0xC0000000.
Definition I86_PTE_PRESENT : Z := 1.
Definition I86_PTE_WRITABLE : Z := 2.
Definition I86_PTE_USER : Z := 4.
Definition I86_PTE_FRAME : Z := 0x7FFFF000.
Definition I86_PDE_PRESENT : Z := 1.
Definition I86_PDE_WRITABLE : Z := 2.
Definition I86_PDE_USER : Z := 4.
Definition I86_PDE_FRAME : Z := 0x7FFFF000.
Definition PAGES_PER_TABLE : Z := 1024.
Definition sizeof_ptable : Z := 4096.

(** [&dir->m_entries[i]] of a [struct pdirectory] or a [struct ptable]. *)
Definition entry_addr (dir i : Z) : Z := u32 (dir + 4 * i).

(** The address at which the recursive entry shows table [i]. *)
Definition table_window (i : Z) : Z := u32 (PAGE_TABLE_BASE + i * PMM_FRAME_SIZE).

Definition pt_entry_add_attrib (e attr : Z) : Z := Z.lor e attr.
Definition pt_entry_set_frame (e addr : Z) : Z := Z.lor (Z.land e (lnot32 I86_PTE_FRAME)) addr.
Definition pd_entry_add_attrib (e attr : Z) : Z := Z.lor e attr.
Definition pd_entry_set_frame (e addr : Z) : Z := Z.lor (Z.land e (lnot32 I86_PDE_FRAME)) addr.

Definition vmm_get_physical_address (vaddr : Z) (is_page : bool) : M vm Z :=
  let table := table_window (get_page_directory_index vaddr) in
  let tindex := get_page_table_entry_index vaddr in
  paddr ← load32 (entry_addr table tindex);
  mret (if is_page then paddr else Z.lor (Z.land paddr (lnot32 0xfff)) (Z.land vaddr 0xfff)).

Definition vmm_get_directory : M vm Z := gets current_dir.

Definition vmm_create_page_table (va_dir virt flags : Z) : M vm unit :=
  let pde := entry_addr va_dir (get_page_directory_index virt) in
  e ← load32 pde;
  if is_page_enabled e then mret tt
  else
    pa_table ← on_pmm pmm_alloc_block;
    store32 pde (Z.lor pa_table flags) ;;
    vmm_flush_tlb_entry virt ;;
    memset (table_window (get_page_directory_index virt)) 0 sizeof_ptable.

Definition vmm_map_address (va_dir virt phys flags : Z) : M vm unit :=
  e ← load32 (entry_addr va_dir (get_page_directory_index virt));
  (if is_page_enabled e then mret tt else vmm_create_page_table va_dir virt flags) ;;
  let table := table_window (get_page_directory_index virt) in
  let tindex := get_page_table_entry_index virt in
  store32 (entry_addr table tindex) (Z.lor phys flags) ;;
  vmm_flush_tlb_entry virt.

Definition vmm_unmap_address (va_dir virt : Z) : M vm unit :=
  e ← load32 (entry_addr va_dir (get_page_directory_index virt));
  if negb (is_page_enabled e) then mret tt
  else
    let pt := table_window (get_page_directory_index virt) in
    let pte := get_page_table_entry_index virt in
    e ← load32 (entry_addr pt pte);
    if negb (is_page_enabled e) then mret tt
    else
      store32 (entry_addr pt pte) 0 ;;
      vmm_flush_tlb_entry virt.

(** [for (addr = vm_start; addr < vm_end; addr += PMM_FRAME_SIZE)], with
    [n] rounds at most. *)
Fixpoint unmap_loop (va_dir addr vm_end : Z) (n : nat) : M vm unit :=
  if addr <? vm_end then
    match n with
    | O => mfail Fuel
    | S n' => vmm_unmap_address va_dir addr ;; unmap_loop va_dir (u32 (addr + PMM_FRAME_SIZE)) vm_end n'
    end
  else mret tt.

Definition vmm_unmap_range (va_dir vm_start vm_end : Z) : M vm unit :=
  massert (PAGE_ALIGN vm_start =? vm_start) ;;
  massert (PAGE_ALIGN vm_end =? vm_end) ;;
  unmap_loop va_dir vm_start vm_end (Z.to_nat (2 ^ 20)).

(** ** Boot *)

Definition vmm_alloc_ptable (va_dir index : Z) : M vm unit :=
  e ← load32 (entry_addr va_dir index);
  if is_page_enabled e then mret tt
  else
    pa_table ← on_pmm pmm_alloc_block;
    store32 (entry_addr va_dir index) (Z.lor (Z.lor pa_table I86_PDE_PRESENT) I86_PDE_WRITABLE).

(** The loop over the 1024 entries of the table. *)
Fixpoint init_entries (va_table ivirtual iframe : Z) (n : nat) : M vm unit :=
  match n with
  | O => mret tt
  | S n' =>
      store32 (entry_addr va_table (get_page_table_entry_index ivirtual))
        (Z.lor (Z.lor iframe I86_PTE_PRESENT) I86_PTE_WRITABLE) ;;
      on_pmm (pmm_mark_used_addr iframe) ;;
      init_entries va_table (u32 (ivirtual + PMM_FRAME_SIZE)) (u32 (iframe + PMM_FRAME_SIZE)) n'
  end.

Definition vmm_init_and_map (va_dir vaddr paddr : Z) : M vm unit :=
  pa_table ← on_pmm pmm_alloc_block;
  let va_table := u32 (pa_table + KERNEL_HIGHER_HALF) in
  memset va_table 0 sizeof_ptable ;;
  init_entries va_table vaddr paddr 1024 ;;
  store32 (entry_addr va_dir (get_page_directory_index vaddr))
    (Z.lor (Z.lor pa_table I86_PDE_PRESENT) I86_PDE_WRITABLE).

(** Loading CR3 empties the TLB; the assembly also clears CR4.PSE. *)
Definition vmm_paging (va_dir pa_dir : Z) : M vm unit :=
  modify (fun s => mk_vm (phys s) pa_dir false ∅ (frames s) va_dir).

Fixpoint alloc_ptables (va_dir i : Z) (n : nat) : M vm unit :=
  match n with
  | O => mret tt
  | S n' => vmm_alloc_ptable va_dir i ;; alloc_ptables va_dir (i + 1) n'
  end.

Definition vmm_init : M vm unit :=
  pa_dir ← on_pmm pmm_alloc_block;
  let va_dir := u32 (pa_dir + KERNEL_HIGHER_HALF) in
  memset va_dir 0 4096 ;;
  vmm_init_and_map va_dir 0xC0000000 0 ;;
  alloc_ptables va_dir 769 (Z.to_nat (1024 - 769)) ;;
  store32 (entry_addr va_dir 1023)
    (Z.lor (Z.lor (Z.land pa_dir 0xFFFFF000) I86_PTE_PRESENT) I86_PTE_WRITABLE) ;;
  vmm_paging va_dir pa_dir.

(** ** Physical memory: lemmas *)

Definition phys_ok (m : gmap Z Z) : Prop := map_Forall (fun _ b => is_u8 b) m.

Lemma rd8_u8 m a : phys_ok m -> is_u8 (rd8 m a).
Proof.
  intros Hm. unfold rd8. destruct (m !! a) as [b|] eqn:E; cbn; [by apply (Hm a)|unfold is_u8; lia].
Qed.

Lemma rd32_u32 m a : phys_ok m -> is_u32 (rd32 m a).
Proof. intros Hm. apply le32_u32; by apply rd8_u8. Qed.

Lemma wr8_ok m a v : phys_ok m -> phys_ok (wr8 m a v).
Proof. intros Hm. apply map_Forall_insert_2; [apply u8_range|done]. Qed.

Lemma wr32_ok m a v : phys_ok m -> phys_ok (wr32 m a v).
Proof. intros Hm. unfold wr32. by repeat apply wr8_ok. Qed.

Lemma rd8_wr8 m a v b : rd8 (wr8 m a v) b = if b =? a then u8 v else rd8 m b.
Proof.
  unfold rd8, wr8. destruct (Z.eqb_spec b a) as [->|].
  - by rewrite lookup_insert_eq.
  - by rewrite lookup_insert_ne.
Qed.

Lemma rd8_wr32 m a v b :
  rd8 (wr32 m a v) b = if in_range a 4 b then byte_of v (b - a) else rd8 m b.
Proof.
  unfold wr32. rewrite !rd8_wr8, !(u8_small (byte_of _ _)) by apply byte_of_u8.
  range_cases; f_equal; lia.
Qed.

Lemma rd32_wr32_eq m a v : is_u32 v -> rd32 (wr32 m a v) a = v.
Proof.
  intros Hv. unfold rd32. rewrite !rd8_wr32. rewrite <- (le32_byte_of v Hv) at 5.
  f_equal; range_cases; f_equal; lia.
Qed.

Lemma rd32_ext m m' a : (forall x, a <= x < a + 4 -> rd8 m' x = rd8 m x) -> rd32 m' a = rd32 m a.
Proof. intros H. unfold rd32. by rewrite !H by lia. Qed.

Lemma rd32_wr32_ne m a v b : a + 4 <= b \/ b + 4 <= a -> rd32 (wr32 m a v) b = rd32 m b.
Proof. intros Hne. apply rd32_ext. intros x Hx. rewrite rd8_wr32. range_cases. Qed.

(** ** Addresses *)

Lemma pdi_eq x : is_u32 x -> get_page_directory_index x = x / 2 ^ 22.
Proof.
  intros Hx. unfold get_page_directory_index, is_u32 in *. change 0x3ff with (Z.ones 10).
  rewrite Z.shiftr_div_pow2, Z.land_ones by lia. apply Z.mod_small.
  split; [apply Z.div_pos; lia|apply Z.div_lt_upper_bound; lia].
Qed.

Lemma pti_eq x : get_page_table_entry_index x = x / 2 ^ 12 mod 2 ^ 10.
Proof.
  unfold get_page_table_entry_index. change 0x3ff with (Z.ones 10).
  by rewrite Z.shiftr_div_pow2, Z.land_ones by lia.
Qed.

Lemma aligned_eq w : is_u32 w -> get_aligned_address w = 4096 * (w / 4096).
Proof.
  intros Hw. unfold get_aligned_address. apply Z.bits_inj'. intros k Hk.
  rewrite Z.land_spec. replace (4096 * (w / 4096)) with (Z.shiftl (Z.shiftr w 12) 12)
    by (rewrite Z.shiftl_mul_pow2, Z.shiftr_div_pow2 by lia; change (2 ^ 12) with 4096; lia).
  rewrite Z.shiftl_spec by lia. destruct (Z.lt_ge_cases k 32).
  - rewrite testbit_lnot32 by lia. change 0xfff with (Z.ones 12).
    destruct (Z.lt_ge_cases k 12).
    + rewrite (Z.ones_spec_low 12 k), (Z.testbit_neg_r _ (k - 12)) by lia. apply andb_false_r.
    + rewrite (Z.ones_spec_high 12 k), Z.shiftr_spec, Z.sub_add by lia. apply andb_true_r.
  - rewrite (is_u32_testbit_high w k Hw) by lia.
    rewrite Z.shiftr_spec, Z.sub_add, (is_u32_testbit_high w k Hw) by lia. done.
Qed.

Lemma enabled_odd w : is_page_enabled w = Z.odd w.
Proof.
  unfold is_page_enabled. change 0x1 with (bit 0). rewrite land_bit_eqb by lia.
  by rewrite negb_involutive, Z.bit0_odd.
Qed.

Definition page_aligned (a : Z) : Prop := is_u32 a /\ a mod 4096 = 0.

Lemma aligned_page w : is_u32 w -> page_aligned (get_aligned_address w).
Proof.
  intros Hw. rewrite aligned_eq by done. unfold page_aligned, is_u32 in *.
  split; [|rewrite Z.mul_comm; apply Z.mod_mul; lia]. Z.to_euclidean_division_equations. lia.
Qed.

(** A frame address or-ed with flag bits. *)
Lemma lor_flags a f : page_aligned a -> 0 <= f < 4096 -> Z.lor a f = a + f.
Proof.
  intros [Ha H0] Hf. rewrite <- Z.lxor_lor, <- Z.add_nocarry_lxor; [done|..];
    apply Z.bits_inj'; intros k Hk; rewrite Z.land_spec, Z.bits_0;
    (destruct (Z.lt_ge_cases k 12);
     [apply andb_false_intro1; rewrite <- (Z.mod_pow2_bits_low a 12) by lia;
      change (2 ^ 12) with 4096; rewrite H0; apply Z.bits_0
     |apply andb_false_intro2; rewrite <- (Z.mod_small f (2 ^ 12)) by lia; apply Z.mod_pow2_bits_high; lia]).
Qed.

Lemma entry_frame a f : page_aligned a -> 0 <= f < 4096 -> get_aligned_address (a + f) = a.
Proof.
  intros [Ha H0] Hf. unfold is_u32 in *.
  rewrite aligned_eq by (unfold is_u32; Z.to_euclidean_division_equations; lia).
  Z.to_euclidean_division_equations. lia.
Qed.

Lemma entry_u32 a f : page_aligned a -> 0 <= f < 4096 -> is_u32 (a + f).
Proof. intros [Ha H0] Hf. unfold is_u32 in *. Z.to_euclidean_division_equations. lia. Qed.

(** ** Translation *)

Definition pde (s : vm) (i : Z) : Z := rd32 (phys s) (cr3 s + 4 * i).
Definition table (s : vm) (i : Z) : Z := get_aligned_address (pde s i).
Definition pte (s : vm) (i j : Z) : Z := rd32 (phys s) (table s i + 4 * j).

Lemma walk_eq s va :
  pse s = false -> is_u32 va ->
  page_walk s va =
    if is_page_enabled (pde s (va / 2 ^ 22)) then
      let e := pte s (va / 2 ^ 22) (va / 2 ^ 12 mod 2 ^ 10) in
      if is_page_enabled e then Some (get_aligned_address e) else None
    else None.
Proof.
  intros Hp Hva. unfold page_walk, pte, table, pde. rewrite Hp, pdi_eq, pti_eq by done. cbn [andb].
  destruct (is_page_enabled _); [|done]. cbn [negb]. by destruct (is_page_enabled _).
Qed.

Lemma page_base va : is_u32 va -> page_aligned (4096 * (va / 4096)).
Proof.
  unfold page_aligned, is_u32. intros Hva.
  split; [Z.to_euclidean_division_equations; lia|rewrite Z.mul_comm; apply Z.mod_mul; lia].
Qed.

(** All addresses of a page have the page's translation. *)
Lemma walk_page s va : pse s = false -> is_u32 va -> page_walk s va = page_walk s (4096 * (va / 4096)).
Proof.
  intros Hp Hva. rewrite !walk_eq by (done || by apply page_base).
  replace (4096 * (va / 4096) / 2 ^ 22) with (va / 2 ^ 22)
    by (unfold is_u32 in *; Z.to_euclidean_division_equations; lia).
  replace (4096 * (va / 4096) / 2 ^ 12) with (va / 2 ^ 12); [done|].
  change (2 ^ 12) with 4096. rewrite Z.mul_comm, Z.div_mul by lia. done.
Qed.

(** Every cached translation is the one the page tables give. *)
Definition tlb_ok (s : vm) : Prop :=
  forall p f, tlb s !! p = Some f -> 0 <= p < 2 ^ 20 /\ page_walk s (4096 * p) = Some f.

Lemma translate_ok s a f :
  tlb_ok s -> pse s = false -> is_u32 a -> page_walk s a = Some f ->
  exists t, translate a s = Ok (f + a mod 4096, with_tlb t s) /\ tlb_ok (with_tlb t s) /\
    forall p, is_Some (t !! p) -> is_Some (tlb s !! p) \/ p = a / 4096.
Proof.
  intros Ht Hp Ha Hw. unfold translate. destruct (tlb s !! (a / 4096)) as [f'|] eqn:E.
  - exists (tlb s). destruct (Ht _ _ E) as [_ Hw']. rewrite <- walk_page in Hw' by done.
    split_and!; [|by destruct s|auto]. replace f' with f by congruence. by destruct s.
  - rewrite Hw. eexists. split_and!; [reflexivity|..].
    + intros p g. cbn. destruct (decide (p = a / 4096)) as [->|Hne].
      * rewrite lookup_insert_eq. intros [= <-]. unfold is_u32 in Ha.
        split; [Z.to_euclidean_division_equations; lia|]. rewrite <- Hw. symmetry. by apply (walk_page s).
      * rewrite lookup_insert_ne by done. apply Ht.
    + intros p. destruct (decide (p = a / 4096)) as [->|]; [auto|]. rewrite lookup_insert_ne by done. auto.
Qed.

(** A word inside one page: its four bytes are translated together. *)
Lemma translate4_ok {B} s a f (k : Z -> Z -> Z -> Z -> M vm B) :
  tlb_ok s -> pse s = false -> is_u32 a -> a mod 4096 <= 4092 -> page_walk s a = Some f ->
  exists t,
    (p0 ← translate a; p1 ← translate (u32 (a + 1));
     p2 ← translate (u32 (a + 2)); p3 ← translate (u32 (a + 3)); k p0 p1 p2 p3) s
    = (let p := f + a mod 4096 in k p (p + 1) (p + 2) (p + 3) (with_tlb t s)) /\
    tlb_ok (with_tlb t s) /\
    forall p, is_Some (t !! p) -> is_Some (tlb s !! p) \/ p = a / 4096.
Proof.
  intros Ht Hp Ha Hm Hw.
  assert (forall d, 0 <= d < 4 -> is_u32 (a + d) /\ (a + d) / 4096 = a / 4096 /\ (a + d) mod 4096 = a mod 4096 + d)
    as Hd by (intros; unfold is_u32 in *; Z.to_euclidean_division_equations; lia).
  assert (forall d, 0 <= d < 4 -> page_walk s (a + d) = Some f) as Hwd.
  { intros d Hd'. destruct (Hd d Hd') as (? & Hq & _). rewrite walk_page, Hq, <- walk_page by done. done. }
  rewrite !u32_small by (apply Hd; lia).
  destruct (translate_ok s a f Ht Hp Ha Hw) as (t0 & E0 & T0 & D0).
  destruct (translate_ok (with_tlb t0 s) (a + 1) f T0 Hp) as (t1 & E1 & T1 & D1);
    [apply Hd; lia|apply Hwd; lia|].
  destruct (translate_ok (with_tlb t1 s) (a + 2) f T1 Hp) as (t2 & E2 & T2 & D2);
    [apply Hd; lia|apply Hwd; lia|].
  destruct (translate_ok (with_tlb t2 s) (a + 3) f T2 Hp) as (t3 & E3 & T3 & D3);
    [apply Hd; lia|apply Hwd; lia|].
  exists t3. split_and!; [|done|].
  - rewrite (bind_step _ _ _ _ _ E0), (bind_step _ _ _ _ _ E1), (bind_step _ _ _ _ _ E2), (bind_step _ _ _ _ _ E3).
    assert (forall d, 0 <= d < 4 -> (a + d) mod 4096 = a mod 4096 + d) as Hmd by (intros; by apply Hd).
    cbv zeta. by rewrite (Hmd 1), (Hmd 2), (Hmd 3), !Z.add_assoc by lia.
  - intros p Hs. apply D3 in Hs as [Hs|Hs]; [|right; by rewrite Hs; apply Hd; lia].
    apply D2 in Hs as [Hs|Hs]; [|right; by rewrite Hs; apply Hd; lia].
    apply D1 in Hs as [Hs|Hs]; [|right; by rewrite Hs; apply Hd; lia]. by apply D0.
Qed.

Lemma load32_page s a f :
  tlb_ok s -> pse s = false -> is_u32 a -> a mod 4096 <= 4092 -> page_walk s a = Some f ->
  exists t, load32 a s = Ok (rd32 (phys s) (f + a mod 4096), with_tlb t s) /\ tlb_ok (with_tlb t s).
Proof.
  intros Ht Hp Ha Hm Hw. cbn [load32 vm_mem].
  destruct (translate4_ok s a f
    (fun p0 p1 p2 p3 => gets (fun s => le32 (rd8 (phys s) p0) (rd8 (phys s) p1) (rd8 (phys s) p2) (rd8 (phys s) p3)))
    Ht Hp Ha Hm Hw) as (t & E & T & _).
  exists t. split; [exact E|done].
Qed.

Lemma store32_page s a f v :
  tlb_ok s -> pse s = false -> is_u32 a -> a mod 4096 <= 4092 -> page_walk s a = Some f ->
  exists t, store32 a v s = Ok (tt, with_phys (wr32 (phys s) (f + a mod 4096) v) (with_tlb t s)) /\
    tlb_ok (with_tlb t s) /\ forall p, is_Some (t !! p) -> is_Some (tlb s !! p) \/ p = a / 4096.
Proof.
  intros Ht Hp Ha Hm Hw. cbn [store32 vm_mem].
  destruct (translate4_ok s a f
    (fun p0 p1 p2 p3 => modify (fun s => with_phys
      (wr8 (wr8 (wr8 (wr8 (phys s) p0 (byte_of v 0)) p1 (byte_of v 1)) p2 (byte_of v 2)) p3 (byte_of v 3)) s))
    Ht Hp Ha Hm Hw) as (t & E & T & D).
  exists t. split; [exact E|done].
Qed.

(** ** The invariant

    [d] is the virtual address of the current page directory. Entry 1023 of
    the directory is the directory, no two present entries share a table, and
    the frames of the directory and of the tables are taken. *)
Record paging (d : Z) (s : vm) : Prop := {
  pg_bytes : phys_ok (phys s);
  pg_pse : pse s = false;
  pg_cr3 : page_aligned (cr3 s);
  pg_self : is_page_enabled (pde s 1023) = true /\ table s 1023 = cr3 s;
  pg_inj : forall i j, 0 <= i < 1024 -> 0 <= j < 1024 ->
    is_page_enabled (pde s i) = true -> is_page_enabled (pde s j) = true ->
    table s i = table s j -> i = j;
  pg_used : forall i, 0 <= i < 1024 -> is_page_enabled (pde s i) = true ->
    frame_used (frames s) (table s i / 4096) = true;
  pg_dir : page_aligned d /\ d < PAGE_TABLE_BASE /\ page_walk s d = Some (cr3 s);
  pg_tlb : tlb_ok s;
  pg_pmm : pmm_wf (frames s);
}.

Lemma table_aligned s i : phys_ok (phys s) -> page_aligned (table s i).
Proof. intros H. apply aligned_page, rd32_u32, H. Qed.

(** Only the TLB differs. *)
Lemma paging_tlb d s t : paging d s -> tlb_ok (with_tlb t s) -> paging d (with_tlb t s).
Proof. intros [] Ht. by split. Qed.

(** The address the recursive entry gives to entry [j] of table [i]. *)
Lemma window_addr i j :
  0 <= i < 1024 -> 0 <= j < 1024 ->
  entry_addr (table_window i) j = PAGE_TABLE_BASE + i * 4096 + 4 * j.
Proof.
  intros Hi Hj. unfold entry_addr, table_window, PAGE_TABLE_BASE, PMM_FRAME_SIZE.
  rewrite u32_add_l. apply u32_small. unfold is_u32. lia.
Qed.

Lemma window_split i o :
  0 <= i < 1024 -> 0 <= o < 4096 ->
  let a := PAGE_TABLE_BASE + i * 4096 + o in
  is_u32 a /\ a / 2 ^ 22 = 1023 /\ a / 2 ^ 12 mod 2 ^ 10 = i /\ a mod 4096 = o /\ a / 4096 = 1047552 + i.
Proof.
  intros Hi Ho a. unfold a, PAGE_TABLE_BASE, is_u32. change (2 ^ 12) with 4096.
  assert ((0xFFC00000 + i * 4096 + o) / 4096 = 1047552 + i) as ->
    by (Z.to_euclidean_division_equations; lia).
  split_and!; Z.to_euclidean_division_equations; lia.
Qed.

(** The recursive directory trick: the window of table [i] is mapped to the
    frame that [pd[i]] names, and to nothing when [pd[i]] is not present. *)
Lemma window_walk d s i o :
  paging d s -> 0 <= i < 1024 -> 0 <= o < 4096 ->
  page_walk s (PAGE_TABLE_BASE + i * 4096 + o) =
    if is_page_enabled (pde s i) then Some (table s i) else None.
Proof.
  intros Hpg Hi Ho. destruct (window_split i o Hi Ho) as (Hu & Hd & Ht & _).
  rewrite walk_eq, Hd, Ht by (done || apply Hpg). destruct (pg_self d s Hpg) as [-> Hself].
  unfold pte. rewrite Hself. by fold (pde s i); fold (table s i).
Qed.

(** Reading entry [i] of the directory through [d]. *)
Lemma load_pde d s i :
  paging d s -> 0 <= i < 1024 ->
  exists t, load32 (entry_addr d i) s = Ok (pde s i, with_tlb t s) /\ paging d (with_tlb t s).
Proof.
  intros Hpg Hi. destruct (pg_dir d s Hpg) as ([Hd Hd0] & Hlt & Hw). unfold PAGE_TABLE_BASE in Hlt.
  assert ((d + 4 * i) / 4096 = d / 4096 /\ (d + 4 * i) mod 4096 = 4 * i) as [Hq Hr]
    by (Z.to_euclidean_division_equations; lia).
  assert (is_u32 (d + 4 * i)) as Hu by (unfold is_u32 in *; lia).
  unfold entry_addr. rewrite u32_small by done.
  destruct (load32_page s (d + 4 * i) (cr3 s)) as (t & E & T);
    [apply Hpg|apply Hpg|done|lia|rewrite walk_page, Hq, <- walk_page by (done || apply Hpg); done|].
  rewrite Hr in E. exists t. split; [exact E|]. by apply paging_tlb.
Qed.

(** ** Writing a page table entry *)

Definition set_pte (s : vm) (i j w : Z) : vm :=
  with_phys (wr32 (phys s) (table s i + 4 * j) w) s.

(** Words of distinct frames do not overlap. *)
Lemma frames_apart a b x y :
  page_aligned a -> page_aligned b -> a <> b -> 0 <= x < 1024 -> 0 <= y < 1024 ->
  a + 4 * x + 4 <= b + 4 * y \/ b + 4 * y + 4 <= a + 4 * x.
Proof. unfold page_aligned. intros [_ Ha] [_ Hb] Hne Hx Hy. Z.to_euclidean_division_equations. lia. Qed.

Lemma page_split i j va : 0 <= j < 1024 -> is_u32 va ->
  (va / 2 ^ 22 =? i) && (va / 2 ^ 12 mod 2 ^ 10 =? j) = (va / 4096 =? 1024 * i + j).
Proof.
  intros Hj Hva. change (2 ^ 12) with 4096. replace (va / 2 ^ 22) with (va / 4096 / 1024)
    by (rewrite Z.div_div by lia; done).
  change (2 ^ 10) with 1024. pose proof (Z.div_mod (va / 4096) 1024 ltac:(lia)).
  pose proof (Z.mod_pos_bound (va / 4096) 1024 ltac:(lia)).
  destruct (Z.eqb_spec (va / 4096 / 1024) i), (Z.eqb_spec (va / 4096 mod 1024) j),
    (Z.eqb_spec (va / 4096) (1024 * i + j)); cbn; done || lia.
Qed.

Lemma index_ranges va : is_u32 va -> 0 <= va / 2 ^ 22 < 1024 /\ 0 <= va / 2 ^ 12 mod 2 ^ 10 < 1024.
Proof.
  intros Hva. unfold is_u32 in Hva. split; [|apply Z.mod_pos_bound; lia].
  split; [apply Z.div_pos; lia|apply Z.div_lt_upper_bound; lia].
Qed.

Section set_pte.
Context (d : Z) (s : vm) (i j w : Z).
Hypothesis (Hpg : paging d s) (Hi : 0 <= i < 1023) (Hj : 0 <= j < 1024) (Hw : is_u32 w).
Hypothesis (Hpr : is_page_enabled (pde s i) = true).

Lemma table_not_dir : table s i <> cr3 s.
Proof.
  destruct (pg_self d s Hpg) as [Hen <-]. intros He.
  apply (pg_inj d s Hpg) in He; [lia|lia|lia|done|done].
Qed.

Lemma set_pte_pde k : 0 <= k < 1024 -> pde (set_pte s i j w) k = pde s k.
Proof.
  intros Hk. unfold pde. cbn. apply rd32_wr32_ne.
  apply frames_apart; [apply table_aligned, Hpg|apply Hpg|apply table_not_dir|lia|lia].
Qed.

Lemma set_pte_table k : 0 <= k < 1024 -> table (set_pte s i j w) k = table s k.
Proof. intros Hk. unfold table. by rewrite set_pte_pde. Qed.

Lemma set_pte_pte k l :
  0 <= k < 1024 -> 0 <= l < 1024 -> is_page_enabled (pde s k) = true ->
  pte (set_pte s i j w) k l = if (k =? i) && (l =? j) then w else pte s k l.
Proof.
  intros Hk Hl Hen. unfold pte. rewrite set_pte_table by done. cbn.
  destruct (Z.eqb_spec k i) as [->|Hne]; cbn.
  - destruct (Z.eqb_spec l j) as [->|]; [by apply rd32_wr32_eq|]. apply rd32_wr32_ne. lia.
  - apply rd32_wr32_ne, frames_apart; [by apply table_aligned, Hpg..| |lia|lia].
    intros He. apply Hne. symmetry. apply (pg_inj d s Hpg); done || lia.
Qed.

Lemma set_pte_walk va :
  is_u32 va ->
  page_walk (set_pte s i j w) va =
    if va / 4096 =? 1024 * i + j then
      (if is_page_enabled w then Some (get_aligned_address w) else None)
    else page_walk s va.
Proof.
  intros Hva. pose proof (index_ranges va Hva) as [H1 H2].
  rewrite !walk_eq by (done || apply Hpg). rewrite set_pte_pde, <- page_split by done.
  destruct (is_page_enabled (pde s (va / 2 ^ 22))) eqn:E.
  - rewrite set_pte_pte by done. cbv zeta.
    destruct ((va / 2 ^ 22 =? i) && (va / 2 ^ 12 mod 2 ^ 10 =? j)); done.
  - destruct (Z.eqb_spec (va / 2 ^ 22) i) as [He|]; [congruence|done].
Qed.

Lemma set_pte_paging t :
  d / 4096 <> 1024 * i + j ->
  (forall p f, t !! p = Some f -> p <> 1024 * i + j /\ 0 <= p < 2 ^ 20 /\ page_walk s (4096 * p) = Some f) ->
  paging d (with_tlb t (set_pte s i j w)).
Proof.
  intros Hd Ht. pose proof Hpg as [B P C S I U D T F]. split; try done; cbn [with_tlb].
  - by apply wr32_ok.
  - change (is_page_enabled (pde (set_pte s i j w) 1023) = true /\ table (set_pte s i j w) 1023 = cr3 s).
    by rewrite set_pte_table, set_pte_pde by lia.
  - intros k l Hk Hl. change (pde (with_tlb t ?x)) with (pde x). change (table (with_tlb t ?x)) with (table x).
    rewrite !set_pte_pde, !set_pte_table by done. by apply I.
  - intros k Hk. change (pde (with_tlb t ?x)) with (pde x). change (table (with_tlb t ?x)) with (table x).
    rewrite set_pte_pde, set_pte_table by done. by apply U.
  - destruct D as ([Hu Ha] & Hlt & Hdw). split_and!; [done..|].
    change (page_walk (set_pte s i j w) d = Some (cr3 s)).
    rewrite set_pte_walk by done. destruct (Z.eqb_spec (d / 4096) (1024 * i + j)); done.
  - intros p f Hp. destruct (Ht p f Hp) as (Hne & Hr & Hpw). split; [done|].
    change (page_walk (set_pte s i j w) (4096 * p) = Some f).
    rewrite set_pte_walk by (unfold is_u32; lia).
    replace (4096 * p / 4096) with p by (rewrite (Z.mul_comm 4096), Z.div_mul by lia; done). destruct (Z.eqb_spec p (1024 * i + j)); done.
Qed.
End set_pte.

(** Writing entry [j] of table [i] through the window, then flushing. *)
Lemma store_pte d s i j w virt :
  paging d s -> 0 <= i < 1023 -> 0 <= j < 1024 -> is_u32 w ->
  is_page_enabled (pde s i) = true -> virt / 4096 = 1024 * i + j -> d / 4096 <> virt / 4096 ->
  exists t, (store32 (entry_addr (table_window i) j) w ;; vmm_flush_tlb_entry virt) s
    = Ok (tt, with_tlb t (set_pte s i j w)) /\ paging d (with_tlb t (set_pte s i j w)).
Proof.
  intros Hpg Hi Hj Hw Hpr Hv Hd. rewrite window_addr by lia.
  destruct (window_split i (4 * j)) as (Hu & _ & _ & Hmod & _); [lia..|].
  destruct (store32_page s (PAGE_TABLE_BASE + i * 4096 + 4 * j) (table s i) w) as (t & E & T & _);
    [apply Hpg|apply Hpg|done|lia|by rewrite (window_walk d), Hpr by (done || lia)|].
  rewrite Hmod in E. rewrite (bind_step _ _ _ _ _ E).
  exists (delete (virt / 4096) t). split; [done|]. apply set_pte_paging; try done.
  - by rewrite <- Hv.
  - intros p f Hp. apply lookup_delete_Some in Hp as [Hne Hp].
    split; [lia|]. apply (T p f Hp).
Qed.

(** ** Data pages

    [D] maps page numbers to frames: pages mapped to distinct frames, none of
    them the directory or a table through which a page of [D], or a page in
    the TLB, is reached. Accesses to them satisfy [MemLaws]. *)
Record region (D : gmap Z Z) (s : vm) : Prop := {
  rg_bytes : phys_ok (phys s);
  rg_pse : pse s = false;
  rg_cr3 : page_aligned (cr3 s);
  rg_map : forall p f, D !! p = Some f ->
    0 <= p < 2 ^ 20 /\ page_aligned f /\ page_walk s (4096 * p) = Some f;
  rg_inj : forall p q f, D !! p = Some f -> D !! q = Some f -> p = q;
  rg_sep : forall p f, D !! p = Some f -> f <> cr3 s /\
    forall q, is_Some (D !! q) \/ is_Some (tlb s !! q) -> table s (q / 1024) <> f;
  rg_tlb : tlb_ok s;
}.

Lemma page_indices p :
  0 <= p < 2 ^ 20 ->
  is_u32 (4096 * p) /\ 4096 * p / 2 ^ 22 = p / 1024 /\ 4096 * p / 2 ^ 12 mod 2 ^ 10 = p mod 1024.
Proof.
  intros Hp. unfold is_u32. change (2 ^ 12) with 4096. change (2 ^ 10) with 1024.
  replace (4096 * p / 4096) with p by (rewrite (Z.mul_comm 4096), Z.div_mul by lia; done).
  split_and!; [lia|lia| |done]. Z.to_euclidean_division_equations. lia.
Qed.

(** A walk reads the directory page and one table page. *)
Lemma walk_frame s m p :
  0 <= p < 2 ^ 20 -> pse s = false -> page_aligned (cr3 s) -> phys_ok (phys s) ->
  (forall x, cr3 s <= x < cr3 s + 4096 -> rd8 m x = rd8 (phys s) x) ->
  (forall x, table s (p / 1024) <= x < table s (p / 1024) + 4096 -> rd8 m x = rd8 (phys s) x) ->
  page_walk (with_phys m s) (4096 * p) = page_walk s (4096 * p).
Proof.
  intros Hp Hpse Hc B Hd Ht. destruct (page_indices p Hp) as (Hu & Hi & Hj).
  rewrite !walk_eq, Hi, Hj by done.
  assert (0 <= p / 1024 < 1024) by (split; [apply Z.div_pos|apply Z.div_lt_upper_bound]; lia).
  assert (pde (with_phys m s) (p / 1024) = pde s (p / 1024)) as Hpde
    by (apply rd32_ext; intros; apply Hd; cbn in *; lia).
  assert (table (with_phys m s) (p / 1024) = table s (p / 1024)) as Htab
    by (unfold table; by rewrite Hpde).
  pose proof (Z.mod_pos_bound p 1024 ltac:(lia)).
  assert (pte (with_phys m s) (p / 1024) (p mod 1024) = pte s (p / 1024) (p mod 1024)) as ->.
  { unfold pte. rewrite Htab. apply rd32_ext. intros; apply Ht; cbn in *; lia. }
  by rewrite Hpde.
Qed.

Definition region_view (D : gmap Z Z) (s : vm) (a : Z) : option Z :=
  match D !! (a / 4096) with
  | Some f => Some (rd8 (phys s) (f + a mod 4096))
  | None => None
  end.

(** Physical memory outside the frames of [D]. *)
Definition outside (D : gmap Z Z) (s : vm) : gmap Z Z :=
  filter (fun ab => 4096 * (ab.1 / 4096) ∉ (map_img D : gset Z)) (phys s).

Definition region_rest (D : gmap Z Z) (s : vm) : Z * pmm * Z * gmap Z Z :=
  (cr3 s, frames s, current_dir s, outside D s).

Lemma region_tlb D s t a :
  region D s -> is_Some (D !! (a / 4096)) -> tlb_ok (with_tlb t s) ->
  (forall p, is_Some (t !! p) -> is_Some (tlb s !! p) \/ p = a / 4096) ->
  region D (with_tlb t s).
Proof.
  intros [B P C Mp I Sp T] Ha Ht Hdom. split; try done.
  intros p f Hf. destruct (Sp p f Hf) as [Hne Hs]. split; [done|]. intros q [Hq|Hq]; [apply Hs; auto|].
  apply Hdom in Hq as [Hq| ->]; apply Hs; auto.
Qed.

Lemma in_frame f o : page_aligned f -> 0 <= o < 4096 -> 4096 * ((f + o) / 4096) = f.
Proof. intros [_ Hf] Ho. Z.to_euclidean_division_equations. lia. Qed.

Lemma frame_of_other f g o x :
  page_aligned f -> page_aligned g -> f <> g -> 0 <= o < 4096 -> g <= x < g + 4096 -> x <> f + o.
Proof. intros [_ Hf] [_ Hg] Hne Ho Hx. Z.to_euclidean_division_equations. lia. Qed.

Lemma region_write D s p f o v :
  region D s -> D !! p = Some f -> 0 <= o < 4096 ->
  region D (with_phys (wr8 (phys s) (f + o) v) s) /\
  region_rest D (with_phys (wr8 (phys s) (f + o) v) s) = region_rest D s.
Proof.
  intros Hr Hf Ho. pose proof Hr as [B P C Mp I Sp T]. set (m := wr8 (phys s) (f + o) v).
  destruct (Mp p f Hf) as (Hp & Hfa & _). destruct (Sp p f Hf) as [Hfc Hft].
  assert (forall g x, page_aligned g -> g <> f -> g <= x < g + 4096 -> rd8 m x = rd8 (phys s) x) as Hsame.
  { intros g x Hg Hne Hx. unfold m. rewrite rd8_wr8.
    destruct (Z.eqb_spec x (f + o)) as [->|]; [|done]. by destruct (frame_of_other f g o (f + o)). }
  assert (forall q, 0 <= q < 2 ^ 20 -> is_Some (D !! q) \/ is_Some (tlb s !! q) ->
    page_walk (with_phys m s) (4096 * q) = page_walk s (4096 * q)) as Hwalk.
  { intros q Hq Hin. apply walk_frame; try done.
    - intros x. apply Hsame; done.
    - intros x. apply Hsame; [by apply table_aligned|by apply Hft]. }
  split.
  - split; try done.
    + by apply wr8_ok.
    + intros q g Hg. destruct (Mp q g Hg) as (? & ? & Hw). split_and!; [lia..|done|]. rewrite Hwalk; eauto.
    + intros q g Hg. destruct (Sp q g Hg) as [? Hs]. split; [done|]. intros r Hrr. cbn in Hrr.
      assert (table (with_phys m s) (r / 1024) = table s (r / 1024)) as ->; [|by apply Hs].
      assert (0 <= r < 2 ^ 20) as Hr20.
      { destruct Hrr as [[e He]|[e He]]; [by apply (Mp r e)|by apply (T r e)]. }
      unfold table, pde. f_equal. apply rd32_ext. intros x Hx. apply (Hsame (cr3 s)); [done|done|].
      assert (0 <= r / 1024 < 1024) by (split; [apply Z.div_pos|apply Z.div_lt_upper_bound]; lia).
      cbn in Hx. lia.
    + intros q g Hg. cbn in Hg. destruct (T q g Hg) as [Hq Hw]. split; [done|]. rewrite Hwalk; eauto.
  - unfold region_rest, outside. cbn. f_equal. apply map_filter_insert_not. intros y. cbn.
    rewrite in_frame by done. intros Hn. apply Hn, elem_of_map_img. eauto.
Qed.

Lemma region_page D s a b : region D s -> region_view D s a = Some b ->
  is_u32 a /\ exists f, D !! (a / 4096) = Some f /\ page_aligned f /\
    page_walk s a = Some f /\ b = rd8 (phys s) (f + a mod 4096).
Proof.
  unfold region_view. intros Hr. destruct (D !! (a / 4096)) as [f|] eqn:E; intros [= <-].
  destruct (rg_map D s Hr _ _ E) as (Hp & Hf & Hw).
  assert (is_u32 a) as Ha by (unfold is_u32; Z.to_euclidean_division_equations; lia).
  split; [done|]. exists f. split_and!; [done|done| |done].
  rewrite walk_page by (done || apply Hr). done.
Qed.

Lemma region_translate D s a b :
  region D s -> region_view D s a = Some b ->
  exists f t, D !! (a / 4096) = Some f /\ page_aligned f /\
    translate a s = Ok (f + a mod 4096, with_tlb t s) /\ region D (with_tlb t s) /\
    b = rd8 (phys s) (f + a mod 4096).
Proof.
  intros Hr Hv. destruct (region_page D s a b Hr Hv) as (Ha & f & Hf & Hfa & Hw & ->).
  destruct (translate_ok s a f) as (t & E & T & Dm); [apply Hr|apply Hr|done|done|].
  exists f, t. split_and!; try done. eapply region_tlb; eauto.
Qed.

Lemma frame_inj D s a b f g :
  region D s -> D !! (a / 4096) = Some f -> D !! (b / 4096) = Some g ->
  f + a mod 4096 = g + b mod 4096 -> a = b.
Proof.
  intros Hr Hf Hg He. destruct (rg_map D s Hr _ _ Hf) as (_ & [_ Hfa] & _).
  destruct (rg_map D s Hr _ _ Hg) as (_ & [_ Hga] & _).
  assert (f = g /\ a mod 4096 = b mod 4096) as [-> Hm] by (Z.to_euclidean_division_equations; lia).
  assert (a / 4096 = b / 4096) by (by eapply rg_inj). 
  pose proof (Z.div_mod a 4096 ltac:(lia)). pose proof (Z.div_mod b 4096 ltac:(lia)). lia.
Qed.

(** What a byte write to a data page does to the view. *)
Lemma region_write_view D s a f v x :
  region D s -> D !! (a / 4096) = Some f ->
  region_view D (with_phys (wr8 (phys s) (f + a mod 4096) v) s) x =
    if x =? a then Some (u8 v) else region_view D s x.
Proof.
  intros Hr Hf. unfold region_view. cbn. destruct (Z.eqb_spec x a) as [->|Hne].
  - rewrite Hf, rd8_wr8. by rewrite Z.eqb_refl.
  - destruct (D !! (x / 4096)) as [g|] eqn:Hg; [|done]. rewrite rd8_wr8.
    destruct (Z.eqb_spec (g + x mod 4096) (f + a mod 4096)) as [He|]; [|done].
    by destruct Hne; eapply frame_inj.
Qed.

Lemma region_view_tlb D s t x : region_view D (with_tlb t s) x = region_view D s x.
Proof. done. Qed.

Lemma region_translate4 {B} D s a b0 b1 b2 b3 (k : Z -> Z -> Z -> Z -> M vm B) :
  region D s -> region_view D s a = Some b0 -> region_view D s (a + 1) = Some b1 ->
  region_view D s (a + 2) = Some b2 -> region_view D s (a + 3) = Some b3 ->
  exists f0 f1 f2 f3 t,
    D !! (a / 4096) = Some f0 /\ D !! ((a + 1) / 4096) = Some f1 /\
    D !! ((a + 2) / 4096) = Some f2 /\ D !! ((a + 3) / 4096) = Some f3 /\
    region D (with_tlb t s) /\
    (p0 ← translate a; p1 ← translate (u32 (a + 1));
     p2 ← translate (u32 (a + 2)); p3 ← translate (u32 (a + 3)); k p0 p1 p2 p3) s =
    k (f0 + a mod 4096) (f1 + (a + 1) mod 4096) (f2 + (a + 2) mod 4096) (f3 + (a + 3) mod 4096) (with_tlb t s).
Proof.
  intros Hr H0 H1 H2 H3.
  destruct (region_page D s _ _ Hr H1) as [U1 _]. destruct (region_page D s _ _ Hr H2) as [U2 _].
  destruct (region_page D s _ _ Hr H3) as [U3 _]. rewrite !u32_small by done.
  destruct (region_translate D s a b0 Hr H0) as (f0 & t0 & F0 & _ & E0 & R0 & _).
  destruct (region_translate D _ (a + 1) b1 R0 H1) as (f1 & t1 & F1 & _ & E1 & R1 & _).
  destruct (region_translate D _ (a + 2) b2 R1 H2) as (f2 & t2 & F2 & _ & E2 & R2 & _).
  destruct (region_translate D _ (a + 3) b3 R2 H3) as (f3 & t3 & F3 & _ & E3 & R3 & _).
  exists f0, f1, f2, f3, t3. split_and!; try done.
  by rewrite (bind_step _ _ _ _ _ E0), (bind_step _ _ _ _ _ E1), (bind_step _ _ _ _ _ E2), (bind_step _ _ _ _ _ E3).
Qed.

Lemma region_load8 D s a b :
  region D s -> region_view D s a = Some b ->
  exists t, load8 a s = Ok (b, with_tlb t s) /\ region D (with_tlb t s).
Proof.
  intros Hr Hv. destruct (region_translate D s a b Hr Hv) as (f & t & _ & _ & E & R & ->).
  exists t. cbn. rewrite (bind_step _ _ _ _ _ E). done.
Qed.

Lemma region_load32 D s a b0 b1 b2 b3 :
  region D s -> region_view D s a = Some b0 -> region_view D s (a + 1) = Some b1 ->
  region_view D s (a + 2) = Some b2 -> region_view D s (a + 3) = Some b3 ->
  exists t, load32 a s = Ok (le32 b0 b1 b2 b3, with_tlb t s) /\ region D (with_tlb t s).
Proof.
  intros Hr H0 H1 H2 H3.
  destruct (region_translate4 D s a b0 b1 b2 b3
    (fun p0 p1 p2 p3 => gets (fun s => le32 (rd8 (phys s) p0) (rd8 (phys s) p1) (rd8 (phys s) p2) (rd8 (phys s) p3)))
    Hr H0 H1 H2 H3) as (f0 & f1 & f2 & f3 & t & F0 & F1 & F2 & F3 & R & E).
  exists t. split; [|done]. cbn [load32 vm_mem]. rewrite E. unfold gets, region_view in *. cbn.
  rewrite F0 in H0. rewrite F1 in H1. rewrite F2 in H2. rewrite F3 in H3. congruence.
Qed.

(** A byte write to a data page, all effects at once. *)
Definition wrote (D : gmap Z Z) (s s' : vm) (f : Z -> option Z) : Prop :=
  region D s' /\ region_rest D s' = region_rest D s /\ forall x, region_view D s' x = f x.

Lemma region_wrote D s a f v :
  region D s -> D !! (a / 4096) = Some f ->
  wrote D s (with_phys (wr8 (phys s) (f + a mod 4096) v) s)
    (fun x => if x =? a then Some (u8 v) else region_view D s x).
Proof.
  intros Hr Hf. destruct (region_write D s _ f (a mod 4096) v Hr Hf) as [R1 R2];
    [apply Z.mod_pos_bound; lia|]. split_and!; [done..|]. intros x. by apply region_write_view.
Qed.

Lemma region_store8 D s a b v :
  region D s -> region_view D s a = Some b ->
  exists s', store8 a v s = Ok (tt, s') /\
    wrote D s s' (fun x => if x =? a then Some (u8 v) else region_view D s x).
Proof.
  intros Hr Hv. destruct (region_translate D s a b Hr Hv) as (f & t & Hf & _ & E & R & _).
  eexists. split; [cbn; rewrite (bind_step _ _ _ _ _ E); reflexivity|].
  apply (region_wrote D (with_tlb t s) a f v R Hf).
Qed.

Lemma region_store32 D s a v :
  region D s -> (forall k, 0 <= k < 4 -> is_Some (region_view D s (a + k))) ->
  exists s', store32 a v s = Ok (tt, s') /\
    wrote D s s' (fun x => if in_range a 4 x then Some (byte_of v (x - a)) else region_view D s x).
Proof.
  intros Hr Ho. destruct (Ho 0) as [b0 H0]; [lia|]. rewrite Z.add_0_r in H0.
  destruct (Ho 1) as [b1 H1]; [lia|]. destruct (Ho 2) as [b2 H2]; [lia|]. destruct (Ho 3) as [b3 H3]; [lia|].
  destruct (region_translate4 D s a b0 b1 b2 b3
    (fun p0 p1 p2 p3 => modify (fun s => with_phys
      (wr8 (wr8 (wr8 (wr8 (phys s) p0 (byte_of v 0)) p1 (byte_of v 1)) p2 (byte_of v 2)) p3 (byte_of v 3)) s))
    Hr H0 H1 H2 H3) as (f0 & f1 & f2 & f3 & t & F0 & F1 & F2 & F3 & R & E).
  eexists. split; [cbn [store32 vm_mem]; rewrite E; reflexivity|].
  destruct (region_wrote D _ a f0 (byte_of v 0) R F0) as (W1 & Q1 & V1).
  destruct (region_wrote D _ (a + 1) f1 (byte_of v 1) W1 F1) as (W2 & Q2 & V2).
  destruct (region_wrote D _ (a + 2) f2 (byte_of v 2) W2 F2) as (W3 & Q3 & V3).
  destruct (region_wrote D _ (a + 3) f3 (byte_of v 3) W3 F3) as (W4 & Q4 & V4).
  split_and!; [exact W4|exact (eq_trans Q4 (eq_trans Q3 (eq_trans Q2 Q1)))|].
  intros x. etransitivity; [apply V4|]. rewrite V3, V2, V1.
  rewrite !(u8_small (byte_of _ _)) by apply byte_of_u8. rewrite region_view_tlb.
  range_cases; do 2 f_equal; lia.
Qed.

(** The data pages of [D] as memory. *)
Program Definition region_laws (D : gmap Z Z) : MemLaws vm := {|
  mem_ok := region D;
  view := region_view D;
  rest_type := Z * pmm * Z * gmap Z Z;
  rest := region_rest D;
|}.
Next Obligation.
  intros D s a b Hr Hv. destruct (region_page D s a b Hr Hv) as (_ & f & _ & _ & _ & ->).
  apply rd8_u8, Hr.
Qed.
Next Obligation. intros D s a b Hr Hv. apply (region_page D s a b Hr Hv). Qed.
Next Obligation.
  intros D s a b Hr Hv. destruct (region_load8 D s a b Hr Hv) as (t & E & R). eauto 8.
Qed.
Next Obligation.
  intros D s a b v Hr Hv. destruct (region_store8 D s a b v Hr Hv) as (s' & E & R). eauto.
Qed.
Next Obligation.
  intros D s a b0 b1 b2 b3 Hr H0 H1 H2 H3.
  destruct (region_load32 D s a b0 b1 b2 b3 Hr H0 H1 H2 H3) as (t & E & R). eauto 8.
Qed.
Next Obligation.
  intros D s a v Hr Ho. destruct (region_store32 D s a v Hr Ho) as (s' & E & R). eauto.
Qed.

Lemma outside_rd8 D s s' x :
  outside D s' = outside D s -> (forall p f, D !! p = Some f -> 4096 * (x / 4096) <> f) ->
  rd8 (phys s') x = rd8 (phys s) x.
Proof.
  intros He Hx. unfold rd8. f_equal. apply option_eq. intros b.
  assert (forall m : gmap Z Z, filter (fun ab : Z * Z => 4096 * (ab.1 / 4096) ∉ (map_img D : gset Z)) m !! x = Some b
    <-> m !! x = Some b) as Hf.
  { intros m. rewrite map_lookup_filter_Some. split; [tauto|]. intros ?. split; [done|]. cbn.
    rewrite elem_of_map_img. intros [p Hp]. by eapply Hx. }
  rewrite <- (Hf (phys s')), <- (Hf (phys s)). unfold outside in He. by rewrite He.
Qed.

(** ** Creating a page table *)

Lemma paging_alloc d s r p' :
  paging d s -> pmm_wf p' -> alloc_result (frames s) p' r -> paging d (with_frames p' s).
Proof.
  intros [B P C Sf I U D T F] W Ha. split; try done.
  intros i Hi He. cbn. specialize (U i Hi He).
  change (table (with_frames p' s) i) with (table s i).
  destruct Ha as [->|f Hf Hfree Hl Hroom Hs Hbm]; [done|].
  unfold frame_used. rewrite (bb_used _ _ _ Hbm); [by rewrite U, orb_true_r|].
  apply Z.div_pos; [apply (table_aligned s i B)|lia].
Qed.

(** A frame the allocator has just returned is no table of the directory. *)
Lemma alloc_fresh d s r p' i :
  paging d s -> alloc_result (frames s) p' r -> r <> 0 -> 0 <= i < 1024 ->
  is_page_enabled (pde s i) = true -> table s i <> r.
Proof.
  intros Hpg Ha Hr Hi He. pose proof (pg_used d s Hpg i Hi He) as Hu.
  destruct Ha as [|f Hf Hfree _ _ _ _]; [done|]. intros Ht. rewrite Ht in Hu.
  unfold PMM_FRAME_SIZE in Hu. rewrite Z.div_mul in Hu by lia. congruence.
Qed.

Lemma alloc_aligned s p' r : pmm_wf s -> alloc_result s p' r -> page_aligned r.
Proof.
  intros W Ha. unfold page_aligned, is_u32. destruct Ha as [|f Hf _ _ _ _ _]; [split; [lia|done]|].
  pose proof (scanned_bounds s). pose proof (wf_max s W). unfold PMM_FRAME_SIZE.
  split; [lia|]. apply Z.mod_mul. lia.
Qed.

(** Memory once table [i] is created in frame [r] with directory entry [e]:
    the entry is [e], the frame is zero, every other byte is kept. *)
Record new_table (s s' : vm) (i r e : Z) : Prop := {
  nt_cr3 : cr3 s' = cr3 s;
  nt_pse : pse s' = pse s;
  nt_zero : forall x, r <= x < r + 4096 -> rd8 (phys s') x = 0;
  nt_entry : rd32 (phys s') (cr3 s + 4 * i) = e;
  nt_same : forall x, ~ r <= x < r + 4096 -> ~ cr3 s + 4 * i <= x < cr3 s + 4 * i + 4 ->
    rd8 (phys s') x = rd8 (phys s) x;
}.

Section new_table.
Context (d : Z) (s s' : vm) (i r e : Z).
Hypothesis (Hpg : paging d s) (Hi : 0 <= i < 1023) (Hn : is_page_enabled (pde s i) = false).
Hypothesis (Hr : page_aligned r).
Hypothesis (Hfresh : forall k, 0 <= k < 1024 -> is_page_enabled (pde s k) = true -> table s k <> r).
Hypothesis (He : is_page_enabled e = true) (Her : get_aligned_address e = r).
Hypothesis (Hnt : new_table s s' i r e).

Lemma new_cr3_apart : cr3 s <> r.
Proof. destruct (pg_self d s Hpg) as [Hen <-]. apply Hfresh; [lia|done]. Qed.

Lemma new_pde k : 0 <= k < 1024 -> pde s' k = if k =? i then e else pde s k.
Proof.
  intros Hk. unfold pde. rewrite (nt_cr3 _ _ _ _ _ Hnt).
  destruct (Z.eqb_spec k i) as [->|Hne]; [apply Hnt|].
  pose proof new_cr3_apart. pose proof (pg_cr3 d s Hpg) as [_ ?]. destruct Hr as [_ ?].
  apply rd32_ext. intros x Hx. apply (nt_same _ _ _ _ _ Hnt); [|lia].
  Z.to_euclidean_division_equations. lia.
Qed.

Lemma new_table_table k : 0 <= k < 1024 -> table s' k = if k =? i then r else table s k.
Proof. intros Hk. unfold table. rewrite new_pde by done. by destruct (k =? i). Qed.

Lemma new_pte_zero l : 0 <= l < 1024 -> pte s' i l = 0.
Proof.
  intros Hl. unfold pte. rewrite new_table_table, Z.eqb_refl by lia.
  unfold rd32. by rewrite !(nt_zero _ _ _ _ _ Hnt) by lia.
Qed.

Lemma new_pte k l :
  0 <= k < 1024 -> 0 <= l < 1024 -> k <> i -> is_page_enabled (pde s k) = true ->
  pte s' k l = if (k =? 1023) && (l =? i) then e else pte s k l.
Proof.
  intros Hk Hl Hne Hen. destruct (Z.eqb_spec k 1023) as [->|Hk']; cbn [andb].
  - destruct (pg_self d s Hpg) as [_ Hself].
    assert (pte s' 1023 l = pde s' l) as ->.
    { unfold pte. rewrite new_table_table by lia. destruct (Z.eqb_spec 1023 i); [lia|].
      rewrite Hself. unfold pde. by rewrite (nt_cr3 _ _ _ _ _ Hnt). }
    rewrite new_pde by done. destruct (l =? i); [done|]. unfold pte. by rewrite Hself.
  - unfold pte. rewrite new_table_table by done. destruct (Z.eqb_spec k i); [done|].
    assert (table s k <> r) as Htr by by apply Hfresh.
    assert (table s k <> cr3 s) as Htc.
    { destruct (pg_self d s Hpg) as [Hs1 Hs2]. rewrite <- Hs2. intros Ht.
      apply (pg_inj d s Hpg) in Ht; [done|lia|lia|done|done]. }
    pose proof (table_aligned s k (pg_bytes d s Hpg)) as [_ ?].
    pose proof (pg_cr3 d s Hpg) as [_ ?]. destruct Hr as [_ ?].
    apply rd32_ext. intros x Hx. apply (nt_same _ _ _ _ _ Hnt); Z.to_euclidean_division_equations; lia.
Qed.

(** Only the window of the new table becomes mapped. *)
Lemma new_table_walk va :
  is_u32 va ->
  page_walk s' va = if va / 4096 =? 1047552 + i then Some r else page_walk s va.
Proof.
  intros Hva. pose proof (index_ranges va Hva) as [H1 H2].
  assert (pse s = false) as Hp by apply Hpg.
  assert (pse s' = false) as Hp' by (rewrite (nt_pse _ _ _ _ _ Hnt); done).
  rewrite (walk_eq s'), (walk_eq s) by done. rewrite new_pde by done.
  pose proof (page_split 1023 i va ltac:(lia) Hva) as Hps. change (1024 * 1023 + i) with (1047552 + i) in Hps.
  rewrite <- Hps. destruct (Z.eqb_spec (va / 2 ^ 22) i) as [Hvi|Hvi].
  - rewrite He, Hvi, new_pte_zero, Hn by done. cbn. destruct (Z.eqb_spec i 1023); [lia|done].
  - destruct (is_page_enabled (pde s (va / 2 ^ 22))) eqn:Een.
    + rewrite new_pte by done. destruct (_ && _); [|done]. cbv zeta. by rewrite He, Her.
    + destruct (Z.eqb_spec (va / 2 ^ 22) 1023) as [Hx|]; [|done].
      destruct (pg_self d s Hpg). congruence.
Qed.

Lemma new_table_paging :
  phys_ok (phys s') -> tlb_ok s' -> pmm_wf (frames s') ->
  frame_used (frames s') (r / 4096) = true ->
  (forall f, 0 <= f -> frame_used (frames s) f = true -> frame_used (frames s') f = true) ->
  paging d s'.
Proof.
  intros B' T' F' Hru Hmono. pose proof Hpg as [B P C [Sf1 Sf2] I U [Da [Dl Dw]] T F].
  pose proof (nt_cr3 _ _ _ _ _ Hnt) as Hc3.
  split; try done.
  - by rewrite (nt_pse _ _ _ _ _ Hnt).
  - by rewrite Hc3.
  - rewrite new_pde, new_table_table by lia. destruct (Z.eqb_spec 1023 i); [lia|]. by rewrite Hc3.
  - intros k l Hk Hl. rewrite !new_pde, !new_table_table by done.
    destruct (Z.eqb_spec k i) as [->|], (Z.eqb_spec l i) as [->|]; intros Ek El Ht.
    + done.
    + by destruct (Hfresh l Hl El).
    + by destruct (Hfresh k Hk Ek).
    + by apply I.
  - intros k Hk. rewrite new_pde, new_table_table by done. destruct (Z.eqb_spec k i); [done|].
    intros Ek. apply Hmono; [|by apply U]. apply Z.div_pos; [apply (table_aligned s k B)|lia].
  - split_and!; [done..|]. rewrite new_table_walk by apply Da. rewrite Hc3.
    destruct (Z.eqb_spec (d / 4096) (1047552 + i)); [|done].
    unfold PAGE_TABLE_BASE in Dl. destruct Da as [_ Da]. Z.to_euclidean_division_equations. lia.
Qed.
End new_table.

Definition set_pde (s : vm) (i e : Z) : vm := with_phys (wr32 (phys s) (cr3 s + 4 * i) e) s.

Section set_pde.
Context (d : Z) (s : vm) (i e : Z).
Hypothesis (Hpg : paging d s) (Hi : 0 <= i < 1023) (Hn : is_page_enabled (pde s i) = false) (He : is_u32 e).

Lemma set_pde_pde k : pde (set_pde s i e) k = if k =? i then e else pde s k.
Proof.
  unfold pde. cbn. destruct (Z.eqb_spec k i) as [->|]; [by apply rd32_wr32_eq|].
  apply rd32_wr32_ne. lia.
Qed.

Lemma set_pde_table k : k <> i -> table (set_pde s i e) k = table s k.
Proof. intros Hk. unfold table. rewrite set_pde_pde. destruct (Z.eqb_spec k i); done. Qed.

(** What was mapped is mapped as before. *)
Lemma set_pde_walk va g : is_u32 va -> page_walk s va = Some g -> page_walk (set_pde s i e) va = Some g.
Proof.
  intros Hva. pose proof (index_ranges va Hva) as [H1 H2].
  rewrite !walk_eq by (done || apply Hpg).
  set (k := va / 2 ^ 22) in *. set (l := va / 2 ^ 12 mod 2 ^ 10) in *.
  destruct (is_page_enabled (pde s k)) eqn:Ek; [|done]. cbv zeta.
  destruct (is_page_enabled (pte s k l)) eqn:Ekl; [|done]. intros [= <-].
  assert (k <> i) by congruence. rewrite set_pde_pde. destruct (Z.eqb_spec k i); [done|]. rewrite Ek.
  assert (pte (set_pde s i e) k l = pte s k l) as Heq; [|by rewrite Heq, Ekl].
  unfold pte in *. rewrite set_pde_table by done. destruct (pg_self d s Hpg) as [Hs1 Hs2].
  destruct (Z.eq_dec k 1023) as [Hk|Hk].
  - rewrite Hk, Hs2 in *. fold (pde s l) in *.
    change (rd32 (phys (set_pde s i e)) (cr3 s + 4 * l)) with (pde (set_pde s i e) l).
    rewrite set_pde_pde. destruct (Z.eqb_spec l i); [congruence|done].
  - cbn. apply rd32_wr32_ne, frames_apart; [apply Hpg|apply table_aligned, Hpg| |lia|lia].
    intros Ht. apply Hk. apply (pg_inj d s Hpg); [lia|lia|done|done|congruence].
Qed.

Lemma set_pde_window r :
  is_page_enabled e = true -> get_aligned_address e = r ->
  page_walk (set_pde s i e) (4096 * (1047552 + i)) = Some r.
Proof.
  intros Hen <-. destruct (page_indices (1047552 + i)) as (Hu & H1 & H2); [lia|].
  rewrite walk_eq, H1, H2 by (done || apply Hpg).
  replace ((1047552 + i) / 1024) with 1023 by (Z.to_euclidean_division_equations; lia).
  replace ((1047552 + i) mod 1024) with i by (Z.to_euclidean_division_equations; lia).
  destruct (pg_self d s Hpg) as [Hs1 Hs2]. rewrite set_pde_pde. destruct (Z.eqb_spec 1023 i); [lia|].
  rewrite Hs1. cbv zeta.
  assert (pte (set_pde s i e) 1023 i = e) as ->; [|by rewrite Hen].
  unfold pte. rewrite set_pde_table, Hs2 by lia.
  change (pde (set_pde s i e) i = e). rewrite set_pde_pde. by rewrite Z.eqb_refl.
Qed.

(** The new table's frame, seen through its window, is a data page. *)
Lemma set_pde_region r t :
  is_page_enabled e = true -> get_aligned_address e = r -> page_aligned r ->
  (forall k, 0 <= k < 1024 -> is_page_enabled (pde s k) = true -> table s k <> r) ->
  tlb_ok (with_tlb t s) -> region {[1047552 + i := r]} (with_tlb t (set_pde s i e)).
Proof.
  intros Hen Her Hr Hfresh Ht. pose proof Hpg as [B P C [S1 S2] _ _ _ _ _].
  assert (cr3 s <> r) as Hc by (rewrite <- S2; apply Hfresh; [lia|done]).
  assert (tlb_ok (with_tlb t (set_pde s i e))) as Ht'.
  { intros q g Hq. destruct (Ht q g Hq) as [Hq20 Hw]. split; [done|].
    change (page_walk (set_pde s i e) (4096 * q) = Some g). apply set_pde_walk; [|done].
    unfold is_u32. lia. }
  split; try done.
  - by apply wr32_ok.
  - intros p f Hpf. apply lookup_singleton_Some in Hpf as [<- <-]. split_and!; [lia|lia|done|].
    by apply set_pde_window.
  - intros p q f Hp Hq. apply lookup_singleton_Some in Hp as [<- _]. by apply lookup_singleton_Some in Hq as [<- _].
  - intros p f Hpf. apply lookup_singleton_Some in Hpf as [<- <-]. split; [done|].
    intros q Hq. change (table (set_pde s i e) (q / 1024) <> r).
    assert (0 <= q / 1024 < 1024 /\ is_page_enabled (pde s (q / 1024)) = true) as [Hq1 Hq2].
    { destruct Hq as [[g Hq]|[g Hq]].
      - apply lookup_singleton_Some in Hq as [<- _].
        replace ((1047552 + i) / 1024) with 1023 by (Z.to_euclidean_division_equations; lia). by split; [lia|].
      - destruct (Ht q g Hq) as [Hq20 Hw]. destruct (page_indices q Hq20) as (Hu & H1 & _).
        change (page_walk s (4096 * q) = Some g) in Hw. rewrite walk_eq, H1 in Hw by done.
        split; [Z.to_euclidean_division_equations; lia|].
        by destruct (is_page_enabled (pde s (q / 1024))). }
    rewrite set_pde_table by congruence. by apply Hfresh.
Qed.
End set_pde.

(** [memset] of a table through its window clears the table's frame. *)
Lemma zero_window s i r :
  0 <= i < 1024 -> region {[1047552 + i := r]} s ->
  exists s', memset (table_window i) 0 sizeof_ptable s = Ok (tt, s') /\
    phys_ok (phys s') /\ tlb_ok s' /\ pse s' = false /\ cr3 s' = cr3 s /\ frames s' = frames s /\
    current_dir s' = current_dir s /\
    (forall x, r <= x < r + 4096 -> rd8 (phys s') x = 0) /\
    (forall x, ~ r <= x < r + 4096 -> rd8 (phys s') x = rd8 (phys s) x).
Proof.
  intros Hi Hr. set (D := {[1047552 + i := r]} : gmap Z Z) in *.
  assert (page_aligned r) as [_ Hra] by (apply (rg_map D s Hr (1047552 + i)), lookup_singleton_eq).
  assert (table_window i = 4096 * (1047552 + i)) as ->.
  { unfold table_window, PAGE_TABLE_BASE, PMM_FRAME_SIZE. rewrite u32_small by (unfold is_u32; lia). lia. }
  assert (forall x, 4096 * (1047552 + i) <= x < 4096 * (1047552 + i) + 4096 ->
    D !! (x / 4096) = Some r) as HD.
  { intros x Hx. replace (x / 4096) with (1047552 + i) by (Z.to_euclidean_division_equations; lia).
    apply lookup_singleton_eq. }
  destruct (@memset_ok vm vm_mem (region_laws D) (4096 * (1047552 + i)) 0 4096 s Hr) as (s' & E & Hr' & Hrest & V);
    [lia|intros x Hx; cbn; unfold region_view; rewrite HD by lia; eauto|].
  cbn in Hr', Hrest, V. unfold region_rest in Hrest. injection Hrest as H1 H2 H3 H4.
  exists s'. split_and!; try done; try apply Hr'.
  - intros x Hx. specialize (V (4096 * (1047552 + i) + (x - r))). unfold region_view in V.
    rewrite HD in V by lia. replace (in_range _ _ _) with true in V by (symmetry; apply in_range_spec; lia).
    injection V as V. replace (r + _) with x in V; [done|]. Z.to_euclidean_division_equations. lia.
  - intros x Hx. apply (outside_rd8 D s s' x H4). intros p f Hp.
    apply lookup_singleton_Some in Hp as [_ <-]. Z.to_euclidean_division_equations. lia.
Qed.

Lemma alloc_marks s p' r : alloc_result s p' r -> r <> 0 -> frame_used p' (r / 4096) = true.
Proof.
  intros Ha Hr. destruct Ha as [|f Hf _ _ _ _ Hbm]; [done|].
  unfold PMM_FRAME_SIZE. rewrite Z.div_mul by lia. unfold frame_used.
  rewrite (bb_used _ _ _ Hbm) by lia. by rewrite Z.eqb_refl.
Qed.

Lemma alloc_keeps s p' r f :
  alloc_result s p' r -> 0 <= f -> frame_used s f = true -> frame_used p' f = true.
Proof.
  intros Ha Hf Hu. destruct Ha as [->|g _ _ _ _ _ Hbm]; [done|].
  unfold frame_used in *. rewrite (bb_used _ _ _ Hbm) by done. by rewrite Hu, orb_true_r.
Qed.

Lemma create_page_table_ok d s virt flags r p' :
  paging d s -> is_u32 virt -> virt < PAGE_TABLE_BASE ->
  is_page_enabled (pde s (virt / 2 ^ 22)) = false ->
  pmm_alloc_block (frames s) = Ok (r, p') -> r <> 0 -> 0 <= flags < 4096 -> Z.odd flags = true ->
  exists s', vmm_create_page_table d virt flags s = Ok (tt, s') /\
    new_table s s' (virt / 2 ^ 22) r (r + flags) /\ paging d s' /\
    frames s' = p' /\ current_dir s' = current_dir s.
Proof.
  intros Hpg Hv Hlt Hn Hal Hr0 Hfl Hodd. set (i := virt / 2 ^ 22) in *.
  assert (0 <= i < 1023) as Hi
    by (unfold i, is_u32, PAGE_TABLE_BASE in *; Z.to_euclidean_division_equations; lia).
  destruct (pmm_alloc_block_ok (frames s) (pg_pmm d s Hpg)) as (r0 & p0 & Hal0 & W & Ha).
  rewrite Hal in Hal0. injection Hal0 as <- <-.
  pose proof (alloc_aligned _ _ _ (pg_pmm d s Hpg) Ha) as Hr.
  assert (forall k, 0 <= k < 1024 -> is_page_enabled (pde s k) = true -> table s k <> r) as Hfresh
    by (intros; by eapply alloc_fresh).
  assert (is_page_enabled (r + flags) = true) as Hen.
  { rewrite enabled_odd, Z.odd_add, Hodd. destruct Hr as [_ Hr].
    apply Zmod_divides in Hr as [c ->]; [|lia]. by rewrite Z.odd_mul. }
  unfold vmm_create_page_table. rewrite pdi_eq by done. fold i.
  destruct (load_pde d s i Hpg) as (t1 & E1 & P1); [lia|]. rewrite (bind_step _ _ _ _ _ E1), Hn.
  rewrite (bind_step _ _ _ r (with_frames p' (with_tlb t1 s)))
    by (unfold on_pmm; apply zoom_ok, Hal).
  set (s2 := with_frames p' (with_tlb t1 s)).
  assert (paging d s2) as P2 by (by eapply paging_alloc).
  destruct (pg_dir d s Hpg) as ([Hd Hd0] & Hdl & Hdw). unfold PAGE_TABLE_BASE in Hdl.
  assert ((d + 4 * i) / 4096 = d / 4096 /\ (d + 4 * i) mod 4096 = 4 * i) as [Hq Hm]
    by (Z.to_euclidean_division_equations; lia).
  assert (is_u32 (d + 4 * i)) as Hdu by (unfold is_u32 in *; lia).
  rewrite lor_flags by done. unfold entry_addr at 1. rewrite u32_small by done.
  destruct (store32_page s2 (d + 4 * i) (cr3 s) (r + flags)) as (t3 & E3 & T3 & _);
    [apply P2|apply P2|done|lia|rewrite walk_page, Hq, <- walk_page by (done || apply Hpg); done|].
  rewrite (bind_step _ _ _ _ _ E3). rewrite Hm.
  set (t4 := delete (virt / 4096) t3).
  rewrite (bind_step _ _ _ tt (with_tlb t4 (set_pde s2 i (r + flags)))) by done.
  assert (region {[1047552 + i := r]} (with_tlb t4 (set_pde s2 i (r + flags)))) as R4.
  { eapply set_pde_region; try done; [by apply entry_u32|by apply entry_frame|].
    intros p f Hp. cbn in Hp. apply lookup_delete_Some in Hp as [_ Hp]. by apply T3. }
  destruct (zero_window _ i r ltac:(lia) R4)
    as (s5 & E5 & B5 & T5 & P5 & C5 & F5 & D5 & Z5 & O5).
  cbn in C5, F5, D5, O5. exists s5.
  assert (cr3 s <> r) as Hc by (destruct (pg_self d s Hpg) as [Hs1 <-]; apply Hfresh; [lia|done]).
  pose proof (pg_cr3 d s Hpg) as [_ Hc0]. pose proof Hr as [_ Hra].
  assert (new_table s s5 i r (r + flags)) as N.
  { split; [done|by rewrite P5, (pg_pse d s Hpg)|done|..].
    - rewrite (rd32_ext (wr32 (phys s) (cr3 s + 4 * i) (r + flags))); [by apply rd32_wr32_eq, entry_u32|].
      intros x Hx. apply O5. Z.to_euclidean_division_equations. lia.
    - intros x Hx1 Hx2. rewrite O5 by done. rewrite rd8_wr32. range_cases. }
  split_and!; [done|done| |done|done].
  eapply (new_table_paging d s); try done; [by apply entry_frame|by rewrite F5|rewrite F5; by eapply alloc_marks|].
  intros f Hf Hu. rewrite F5. by eapply alloc_keeps.
Qed.

(** ** Mapping and unmapping a page *)

(** A page the caller may map: outside the window of the page tables and not
    the page through which the directory itself is reached. *)
Definition mappable (d virt : Z) : Prop :=
  is_u32 virt /\ virt < PAGE_TABLE_BASE /\ virt / 4096 <> d / 4096.

Lemma mappable_index d virt : mappable d virt ->
  0 <= virt / 2 ^ 22 < 1023 /\ 0 <= virt / 2 ^ 12 mod 2 ^ 10 < 1024 /\
  virt / 4096 = 1024 * (virt / 2 ^ 22) + virt / 2 ^ 12 mod 2 ^ 10.
Proof.
  intros (Hv & Hlt & _). unfold is_u32, PAGE_TABLE_BASE in *. change (2 ^ 12) with 4096.
  split_and!; Z.to_euclidean_division_equations; lia.
Qed.

Definition flags_ok (flags : Z) : Prop := 0 <= flags < 4096 /\ Z.odd flags = true.

Lemma flags_enabled a flags : page_aligned a -> flags_ok flags ->
  is_page_enabled (a + flags) = true /\ get_aligned_address (a + flags) = a /\ is_u32 (a + flags).
Proof.
  intros Ha [Hf Hodd]. split_and!; [|by apply entry_frame|apply entry_u32; done..].
  rewrite enabled_odd, Z.odd_add, Hodd. destruct Ha as [_ Ha].
  apply Zmod_divides in Ha as [c ->]; [|lia]. by rewrite Z.odd_mul.
Qed.

(** The effect of [vmm_map_address] when the table is there. *)
Lemma map_present_ok d s virt paddr flags :
  paging d s -> mappable d virt -> page_aligned paddr -> flags_ok flags ->
  is_page_enabled (pde s (virt / 2 ^ 22)) = true ->
  exists t, let s' := with_tlb t (set_pte s (virt / 2 ^ 22) (virt / 2 ^ 12 mod 2 ^ 10) (paddr + flags)) in
    (store32 (entry_addr (table_window (virt / 2 ^ 22)) (virt / 2 ^ 12 mod 2 ^ 10)) (Z.lor paddr flags) ;;
     vmm_flush_tlb_entry virt) s = Ok (tt, s') /\ paging d s' /\
    forall va, is_u32 va ->
      page_walk s' va = if va / 4096 =? virt / 4096 then Some paddr else page_walk s va.
Proof.
  intros Hpg Hm Hp Hf Hen. destruct (mappable_index d virt Hm) as (Hi & Hj & Hv).
  destruct (flags_enabled paddr flags Hp Hf) as (F1 & F2 & F3). destruct Hm as (Hu & Hlt & Hd).
  rewrite lor_flags by (done || apply Hf).
  destruct (store_pte d s _ _ (paddr + flags) virt Hpg Hi Hj F3 Hen Hv) as (t & E & P); [done|].
  exists t. cbv zeta. split_and!; [done..|]. intros va Hva.
  etransitivity; [apply (set_pte_walk d s (virt / 2 ^ 22)); done|]. by rewrite <- Hv, F1, F2.
Qed.

(** Present tables are kept by every operation below, and so is [cr3]. *)
Definition tables_kept (s s' : vm) : Prop :=
  cr3 s' = cr3 s /\ current_dir s' = current_dir s /\
  forall k, 0 <= k < 1024 -> is_page_enabled (pde s k) = true -> pde s' k = pde s k.

(** The directory is exactly as it was. *)
Definition tables_same (s s' : vm) : Prop :=
  cr3 s' = cr3 s /\ current_dir s' = current_dir s /\ forall k, 0 <= k < 1024 -> pde s' k = pde s k.

Lemma tables_same_kept s s' : tables_same s s' -> tables_kept s s'.
Proof. intros (? & ? & H). split_and!; auto. Qed.

Lemma tables_same_trans s1 s2 s3 : tables_same s1 s2 -> tables_same s2 s3 -> tables_same s1 s3.
Proof. intros (? & ? & H1) (? & ? & H2). split_and!; [congruence..|]. intros k Hk. by rewrite H2, H1. Qed.

(** Bytes of frames that are no tables and that were taken stay as they are. *)
Definition data_kept (s s' : vm) : Prop :=
  forall f o, page_aligned f -> 0 <= o < 4096 -> frame_used (frames s) (f / 4096) = true ->
    (forall k, 0 <= k < 1024 -> is_page_enabled (pde s k) = true -> table s k <> f) ->
    rd8 (phys s') (f + o) = rd8 (phys s) (f + o).

Lemma data_kept_trans s1 s2 s3 :
  frames s2 = frames s1 -> tables_same s1 s2 -> data_kept s1 s2 -> data_kept s2 s3 -> data_kept s1 s3.
Proof.
  intros Hf (_ & _ & Hp) K1 K2 f o Hfa Ho Hu Hne. rewrite <- (K1 f o Hfa Ho Hu Hne).
  apply K2; try done; [by rewrite Hf|]. intros k Hk. unfold table. rewrite Hp by done. by apply Hne.
Qed.

Lemma set_pte_data s i j w t :
  phys_ok (phys s) -> 0 <= i < 1024 -> 0 <= j < 1024 -> is_page_enabled (pde s i) = true ->
  data_kept s (with_tlb t (set_pte s i j w)).
Proof.
  intros B Hi Hj Hen f o Hf Ho _ Hne. cbn. rewrite rd8_wr32. range_cases. exfalso.
  specialize (Hne i Hi Hen). pose proof (table_aligned s i B) as [_ ?]. destruct Hf as [_ ?].
  Z.to_euclidean_division_equations. lia.
Qed.

Lemma map_address_present d s virt paddr flags :
  paging d s -> mappable d virt -> page_aligned paddr -> flags_ok flags ->
  is_page_enabled (pde s (virt / 2 ^ 22)) = true ->
  exists s', vmm_map_address d virt paddr flags s = Ok (tt, s') /\ paging d s' /\
    frames s' = frames s /\ tables_same s s' /\ data_kept s s' /\
    forall va, is_u32 va ->
      page_walk s' va = if va / 4096 =? virt / 4096 then Some paddr else page_walk s va.
Proof.
  intros Hpg Hm Hp Hf Hen. destruct (mappable_index d virt Hm) as (Hi & Hj & Hv).
  unfold vmm_map_address. rewrite pdi_eq, pti_eq by apply Hm.
  destruct (load_pde d s (virt / 2 ^ 22) Hpg) as (t1 & E1 & P1); [lia|].
  rewrite (bind_step _ _ _ _ _ E1), Hen. rewrite (bind_step _ _ _ tt (with_tlb t1 s)) by done.
  destruct (map_present_ok d (with_tlb t1 s) virt paddr flags P1 Hm Hp Hf Hen) as (t & E & P & W).
  eexists. split_and!; [exact E|exact P|done| | |exact W].
  - split_and!; [done..|]. intros k Hk.
    apply (set_pte_pde d (with_tlb t1 s)); done.
  - apply (set_pte_data (with_tlb t1 s)); [apply Hpg|lia|lia|done].
Qed.

Lemma new_table_kept d s s' i r e :
  paging d s -> 0 <= i < 1023 -> is_page_enabled (pde s i) = false -> page_aligned r ->
  (forall k, 0 <= k < 1024 -> is_page_enabled (pde s k) = true -> table s k <> r) ->
  frame_used (frames s) (r / 4096) = false ->
  current_dir s' = current_dir s -> new_table s s' i r e -> tables_kept s s' /\ data_kept s s'.
Proof.
  intros Hpg Hi Hn Hr Hfresh Hfree Hcd N. split.
  - split_and!; [apply N|done|]. intros k Hk He. rewrite (new_pde d s s' i r e) by done.
    destruct (Z.eqb_spec k i); [congruence|done].
  - intros f o [_ Hf] Ho Hu Hne. destruct (pg_self d s Hpg) as [Hs1 Hs2].
    assert (f <> r) by congruence. assert (f <> cr3 s) by (rewrite <- Hs2; apply not_eq_sym, Hne; [lia|done]).
    pose proof (pg_cr3 d s Hpg) as [_ ?]. destruct Hr as [_ ?].
    apply (nt_same _ _ _ _ _ N); Z.to_euclidean_division_equations; lia.
Qed.

Lemma alloc_was_free s p' r : alloc_result s p' r -> r <> 0 -> frame_used s (r / 4096) = false.
Proof.
  intros Ha Hr. destruct Ha as [|f Hf Hfree _ _ _ _]; [done|].
  unfold PMM_FRAME_SIZE. by rewrite Z.div_mul by lia.
Qed.

(** The effect of [vmm_map_address] when the table has to be created. *)
Lemma map_address_absent d s virt paddr flags r p' :
  paging d s -> mappable d virt -> page_aligned paddr -> flags_ok flags ->
  is_page_enabled (pde s (virt / 2 ^ 22)) = false ->
  pmm_alloc_block (frames s) = Ok (r, p') -> r <> 0 ->
  exists s', vmm_map_address d virt paddr flags s = Ok (tt, s') /\ paging d s' /\
    frames s' = p' /\ tables_kept s s' /\ data_kept s s' /\
    forall va, is_u32 va -> va < PAGE_TABLE_BASE ->
      page_walk s' va = if va / 4096 =? virt / 4096 then Some paddr else page_walk s va.
Proof.
  intros Hpg Hm Hp Hf Hen Hal Hr0. pose proof Hm as (Hu & Hlt & Hd).
  destruct (mappable_index d virt Hm) as (Hi & Hj & Hv).
  destruct (pmm_alloc_block_ok (frames s) (pg_pmm d s Hpg)) as (r0 & p0 & Hal0 & W & Ha).
  rewrite Hal in Hal0. injection Hal0 as <- <-.
  unfold vmm_map_address. rewrite pdi_eq, pti_eq by done.
  destruct (load_pde d s (virt / 2 ^ 22) Hpg) as (t1 & E1 & P1); [lia|].
  rewrite (bind_step _ _ _ _ _ E1), Hen.
  destruct (create_page_table_ok d (with_tlb t1 s) virt flags r p' P1 Hu Hlt Hen Hal Hr0)
    as (s1 & E2 & N & P2 & F2 & C2); [apply Hf..|].
  rewrite (bind_step _ _ _ _ _ E2).
  pose proof (alloc_aligned _ _ _ (pg_pmm d s Hpg) Ha) as Hra.
  destruct (flags_enabled r flags Hra Hf) as (G1 & G2 & G3).
  assert (forall k, 0 <= k < 1024 -> is_page_enabled (pde s k) = true -> table s k <> r) as Hfresh
    by (intros; by eapply alloc_fresh).
  assert (pde s1 (virt / 2 ^ 22) = r + flags) as Hpde
    by (rewrite (new_pde d (with_tlb t1 s) s1 (virt / 2 ^ 22) r (r + flags)), Z.eqb_refl by (done || lia); done).
  destruct (map_present_ok d s1 virt paddr flags P2 Hm Hp Hf) as (t & E & P & Wk); [by rewrite Hpde|].
  destruct (new_table_kept d (with_tlb t1 s) s1 (virt / 2 ^ 22) r (r + flags)) as ((K1 & K2 & K3) & K4);
    try done; [by eapply alloc_was_free|].
  eexists. split_and!; [exact E|exact P|done| | |].
  - split_and!; [done..|]. intros k Hk Hke. etransitivity; [|exact (K3 k Hk Hke)].
    apply (set_pte_pde d s1); try done. by rewrite Hpde.
  - intros f o Hfa Ho Hfu Hne. etransitivity; [|exact (K4 f o Hfa Ho Hfu Hne)].
    apply (set_pte_data s1); try done; [apply P2|lia|by rewrite Hpde| |].
    + rewrite F2. eapply alloc_keeps; [done| |done]. apply Z.div_pos; [apply Hfa|lia].
    + intros k Hk. rewrite (new_pde d (with_tlb t1 s) s1 _ r (r + flags)),
        (new_table_table d (with_tlb t1 s) s1 _ r (r + flags)) by (done || lia).
      destruct (k =? virt / 2 ^ 22); [|by apply Hne]. intros _ ->.
      pose proof (alloc_was_free _ _ _ Ha Hr0). congruence.
  - intros va Hva Hval. rewrite Wk by done. destruct (va / 4096 =? virt / 4096); [done|].
    rewrite (new_table_walk d (with_tlb t1 s) s1 _ r (r + flags)) by (done || lia).
    destruct (Z.eqb_spec (va / 4096) (1047552 + virt / 2 ^ 22)); [|done].
    unfold PAGE_TABLE_BASE in Hval. exfalso. Z.to_euclidean_division_equations. lia.
Qed.

(** The effect of [vmm_unmap_address]. *)
Lemma unmap_address_ok d s virt :
  paging d s -> mappable d virt ->
  exists s', vmm_unmap_address d virt s = Ok (tt, s') /\ paging d s' /\
    frames s' = frames s /\ tables_same s s' /\ data_kept s s' /\
    forall va, is_u32 va ->
      page_walk s' va = if va / 4096 =? virt / 4096 then None else page_walk s va.
Proof.
  intros Hpg Hm. pose proof Hm as (Hu & Hlt & Hd).
  destruct (mappable_index d virt Hm) as (Hi & Hj & Hv).
  unfold vmm_unmap_address. rewrite pdi_eq, pti_eq by done.
  destruct (load_pde d s (virt / 2 ^ 22) Hpg) as (t1 & E1 & P1); [lia|]. rewrite (bind_step _ _ _ _ _ E1).
  assert (forall t, page_walk s virt = None -> forall va, is_u32 va ->
    page_walk (with_tlb t s) va = if va / 4096 =? virt / 4096 then None else page_walk s va) as Hnone.
  { intros t Hnw va Hva. destruct (Z.eqb_spec (va / 4096) (virt / 4096)) as [He|]; [|done].
    change (page_walk s va = None). by rewrite walk_page, He, <- walk_page by (done || apply Hpg). }
  pose proof (walk_eq s virt (pg_pse d s Hpg) Hu) as Hwe.
  destruct (is_page_enabled (pde s (virt / 2 ^ 22))) eqn:Hen; cbn [negb].
  - rewrite window_addr by lia.
    set (i := virt / 2 ^ 22) in *. set (j := virt / 2 ^ 12 mod 2 ^ 10) in *.
    destruct (window_split i (4 * j)) as (Ha & _ & _ & Hmod & _); [lia..|].
    destruct (load32_page (with_tlb t1 s) (PAGE_TABLE_BASE + i * 4096 + 4 * j) (table s i)) as (t2 & E2 & T2);
      [apply P1|apply P1|done|lia|change (page_walk s (PAGE_TABLE_BASE + i * 4096 + 4 * j) = Some (table s i));
        by rewrite (window_walk d), Hen by (done || lia)|].
    rewrite Hmod in E2. rewrite (bind_step _ _ _ _ _ E2). fold (pte s i j).
    change (rd32 (phys (with_tlb t1 s)) (table s i + 4 * j)) with (pte s i j).
    assert (paging d (with_tlb t2 s)) as P2 by (by apply paging_tlb).
    destruct (is_page_enabled (pte s i j)) eqn:Ept; cbn [negb].
    + rewrite <- window_addr by lia.
      destruct (store_pte d (with_tlb t2 s) i j 0 virt P2) as (t & E & P); try done.
      exists (with_tlb t (set_pte (with_tlb t2 s) i j 0)). split_and!; [exact E|exact P|done| | |].
      * split_and!; [done..|]. intros k Hk. apply (set_pte_pde d (with_tlb t2 s)); done.
      * apply (set_pte_data (with_tlb t2 s)); [apply Hpg|lia|lia|done].
      * intros va Hva. etransitivity; [apply (set_pte_walk d (with_tlb t2 s)); try done; unfold is_u32; lia|].
        by rewrite <- Hv.
    + exists (with_tlb t2 s). split_and!; [done..|]. apply Hnone. rewrite Hwe. cbn. by rewrite Ept.
  - exists (with_tlb t1 s). split_and!; [done..|]. by apply Hnone.
Qed.

(** ** The properties *)

(** The directory has a table for [virt], or a frame is left for one. *)
Definition table_available (s : vm) (virt : Z) : Prop :=
  is_page_enabled (pde s (virt / 2 ^ 22)) = true \/
  exists r p', pmm_alloc_block (frames s) = Ok (r, p') /\ r <> 0.

(** The recursive directory trick of the comment in vmm.c. For a present
    directory entry [de], the word the CPU reads at virtual address
    [0xFFC00000 + de * 0x1000 + te * 4] is entry [te] of the table that
    [pd[de]] names; for an absent one the access faults. *)
Theorem recursive_directory d s de te :
  paging d s -> 0 <= de < 1024 -> 0 <= te < 1024 ->
  if is_page_enabled (pde s de) then
    exists t, load32 (0xFFC00000 + de * 0x1000 + te * 4) s = Ok (pte s de te, with_tlb t s) /\
      paging d (with_tlb t s)
  else load32 (0xFFC00000 + de * 0x1000 + te * 4) s = Fail Segv.
Proof.
  intros Hpg Hd Ht. change 0xFFC00000 with PAGE_TABLE_BASE. rewrite (Z.mul_comm te).
  destruct (window_split de (4 * te)) as (Ha & _ & _ & Hm & Hq); [lia..|].
  pose proof (window_walk d s de (4 * te) Hpg Hd ltac:(lia)) as Hw.
  destruct (is_page_enabled (pde s de)).
  - destruct (load32_page s (PAGE_TABLE_BASE + de * 4096 + 4 * te) (table s de)) as (t & E & T);
      [apply Hpg|apply Hpg|done|lia|done|].
    rewrite Hm in E. exists t. split; [exact E|]. by apply paging_tlb.
  - cbn [load32 vm_mem]. apply bind_fail. unfold translate.
    destruct (tlb s !! _) as [f|] eqn:Et; [|change (de * 0x1000) with (de * 4096); by rewrite Hw].
    apply (pg_tlb d s Hpg) in Et as [_ Et].
    rewrite <- walk_page in Et by (done || apply Hpg). congruence.
Qed.

(** C3: [vmm_map_address] returns with [virt]'s page translated to [phys] and
    every other address translated as before; a missing table is created in a
    fresh zeroed frame, the TLB agrees with the tables, and no byte of a frame
    in use that is not a table changes. *)
Theorem vmm_map_address_correct d s virt paddr flags :
  paging d s -> mappable d virt -> page_aligned paddr -> flags_ok flags -> table_available s virt ->
  exists s', vmm_map_address d virt paddr flags s = Ok (tt, s') /\ paging d s' /\
    tables_kept s s' /\ data_kept s s' /\
    forall va, is_u32 va -> va < PAGE_TABLE_BASE ->
      page_walk s' va = if va / 4096 =? virt / 4096 then Some paddr else page_walk s va.
Proof.
  intros Hpg Hm Hp Hf Hav.
  destruct (is_page_enabled (pde s (virt / 2 ^ 22))) eqn:Hen.
  - destruct (map_address_present d s virt paddr flags Hpg Hm Hp Hf Hen) as (s' & ? & ? & _ & ? & ? & ?).
    exists s'. split_and!; auto using tables_same_kept.
  - destruct Hav as [|(r & p' & Hal & Hr)]; [congruence|].
    destruct (map_address_absent d s virt paddr flags r p' Hpg Hm Hp Hf Hen Hal Hr) as (s' & ? & ? & _ & ? & ? & ?).
    exists s'. split_and!; auto.
Qed.

(** [vmm_unmap_address] returns with [virt]'s page unmapped, in the tables
    and in the TLB, and every other translation, the frame allocator and all
    data as before. *)
Theorem vmm_unmap_address_correct d s virt :
  paging d s -> mappable d virt ->
  exists s', vmm_unmap_address d virt s = Ok (tt, s') /\ paging d s' /\
    frames s' = frames s /\ tables_same s s' /\ data_kept s s' /\
    forall va, is_u32 va ->
      page_walk s' va = if va / 4096 =? virt / 4096 then None else page_walk s va.
Proof. apply unmap_address_ok. Qed.

Lemma PAGE_ALIGN_eq a : PAGE_ALIGN a = 4096 * (u32 (a + 4095) / 4096).
Proof.
  unfold PAGE_ALIGN, PAGE_MASK, PMM_FRAME_SIZE. change (4096 - 1) with 0xfff.
  replace (a + 4096 - 1) with (a + 4095) by lia.
  fold (get_aligned_address (u32 (a + 4095))). apply aligned_eq, u32_range.
Qed.

Lemma PAGE_ALIGN_aligned a : page_aligned a -> PAGE_ALIGN a = a.
Proof.
  intros [Ha H0]. rewrite PAGE_ALIGN_eq. unfold is_u32 in Ha.
  rewrite u32_small by (unfold is_u32; Z.to_euclidean_division_equations; lia).
  Z.to_euclidean_division_equations. lia.
Qed.

Lemma unmap_loop_ok d addr vm_end n s :
  paging d s -> page_aligned addr -> page_aligned vm_end -> vm_end <= PAGE_TABLE_BASE ->
  (d < addr \/ vm_end <= d) -> (vm_end - addr) / 4096 <= Z.of_nat n ->
  exists s', unmap_loop d addr vm_end n s = Ok (tt, s') /\ paging d s' /\ frames s' = frames s /\
    forall va, is_u32 va ->
      page_walk s' va = if (addr <=? va) && (va <? vm_end) then None else page_walk s va.
Proof.
  revert addr s. induction n as [|n IH]; intros addr s Hpg Ha He Hb Hd Hn; cbn [unmap_loop];
    destruct (Z.ltb_spec addr vm_end) as [Hlt|Hge].
  - exfalso. destruct Ha as [_ Ha], He as [_ He]. Z.to_euclidean_division_equations. lia.
  - exists s. split_and!; try done. intros va _.
    destruct (Z.leb_spec addr va), (Z.ltb_spec va vm_end); cbn; done || lia.
  - pose proof Ha as [Hau Ha0]. pose proof He as [Heu He0]. unfold PAGE_TABLE_BASE in Hb.
    pose proof (pg_dir d s Hpg) as ([Hdu Hd0] & _).
    destruct (unmap_address_ok d s addr Hpg) as (s1 & E1 & P1 & F1 & _ & _ & W1).
    { unfold mappable, PAGE_TABLE_BASE. split_and!; [done|lia|]. Z.to_euclidean_division_equations. lia. }
    rewrite (bind_step _ _ _ _ _ E1). unfold PMM_FRAME_SIZE. unfold is_u32 in *.
    rewrite u32_small by (unfold is_u32; lia).
    destruct (IH (addr + 4096) s1) as (s2 & E2 & P2 & F2 & W2); try done.
    + split; [unfold is_u32; lia|]. Z.to_euclidean_division_equations. lia.
    + Z.to_euclidean_division_equations. lia.
    + Z.to_euclidean_division_equations. lia.
    + exists s2. split_and!; [done..|congruence|]. intros va Hva. rewrite W2, W1 by done.
      destruct (Z.leb_spec (addr + 4096) va), (Z.ltb_spec va vm_end), (Z.leb_spec addr va),
        (Z.eqb_spec (va / 4096) (addr / 4096)); cbn; try done; exfalso;
        Z.to_euclidean_division_equations; lia.
  - exists s. split_and!; try done. intros va _.
    destruct (Z.leb_spec addr va), (Z.ltb_spec va vm_end); cbn; done || lia.
Qed.

(** [vmm_unmap_range] over a page-aligned range outside the table window
    and not holding the directory terminates with exactly that range
    unmapped; an unaligned bound raises the assertion. *)
Theorem vmm_unmap_range_correct d s vm_start vm_end :
  paging d s -> page_aligned vm_start -> page_aligned vm_end -> vm_end <= PAGE_TABLE_BASE ->
  (d < vm_start \/ vm_end <= d) ->
  (exists s', vmm_unmap_range d vm_start vm_end s = Ok (tt, s') /\ paging d s' /\ frames s' = frames s /\
    forall va, is_u32 va ->
      page_walk s' va = if (vm_start <=? va) && (va <? vm_end) then None else page_walk s va) /\
  forall k, 0 < k < 4096 -> vmm_unmap_range d (vm_start - k) vm_end s = Fail Assert.
Proof.
  intros Hpg Hs He Hb Hd. split.
  - unfold vmm_unmap_range. rewrite !PAGE_ALIGN_aligned, !Z.eqb_refl by done.
    rewrite (bind_step _ _ _ tt s) by done. rewrite (bind_step _ _ _ tt s) by done.
    apply unmap_loop_ok; try done. rewrite Z2Nat.id by lia.
    destruct Hs as [Hs _], He as [He _]. unfold is_u32 in *. Z.to_euclidean_division_equations. lia.
  - intros k Hk. apply bind_fail. unfold massert.
    destruct (Z.eqb_spec (PAGE_ALIGN (vm_start - k)) (vm_start - k)) as [Hbad|]; [|done].
    exfalso. rewrite PAGE_ALIGN_eq in Hbad. destruct Hs as [_ Hs].
    Z.to_euclidean_division_equations. lia.
Qed.

(** [vmm_get_physical_address] reads the entry the MMU uses: for a mapped
    address it returns the physical address the CPU would access. *)
Theorem vmm_get_physical_address_correct d s vaddr f :
  paging d s -> is_u32 vaddr -> page_walk s vaddr = Some f ->
  exists t, vmm_get_physical_address vaddr false s = Ok (f + vaddr mod 4096, with_tlb t s) /\
    paging d (with_tlb t s).
Proof.
  intros Hpg Hva Hw. unfold vmm_get_physical_address. rewrite pdi_eq, pti_eq by done.
  destruct (index_ranges vaddr Hva) as [H1 H2].
  rewrite walk_eq in Hw by (done || apply Hpg).
  set (i := vaddr / 2 ^ 22) in *. set (j := vaddr / 2 ^ 12 mod 2 ^ 10) in *.
  destruct (is_page_enabled (pde s i)) eqn:Hen; [|done]. cbv zeta in Hw.
  destruct (is_page_enabled (pte s i j)) eqn:Hpt; [|done]. injection Hw as <-.
  rewrite window_addr by lia. destruct (window_split i (4 * j)) as (Ha & _ & _ & Hm & _); [lia..|].
  destruct (load32_page s (PAGE_TABLE_BASE + i * 4096 + 4 * j) (table s i)) as (t & E & T);
    [apply Hpg|apply Hpg|done|lia|by rewrite (window_walk d), Hen by (done || lia)|].
  rewrite Hm in E. rewrite (bind_step _ _ _ _ _ E). exists t. split; [|by apply paging_tlb].
  fold (get_aligned_address (pte s i j)). fold (pte s i j). unfold mret, M_ret. do 2 f_equal.
  change 0xfff with (Z.ones 12). rewrite Z.land_ones by lia.
  apply lor_flags; [apply aligned_page, rd32_u32, Hpg|apply Z.mod_pos_bound; lia].
Qed.

(** ** A small address space

    Directory at frame 2, one table at frame 3 that maps the directory at
    [0xC0002000]; 64 frames of memory, the first four in use. *)
Definition example_vm : vm :=
  mk_vm
    (wr32 (wr32 (wr32 ∅ (0x2000 + 4 * 768) 0x3003) (0x2000 + 4 * 1023) 0x2003) (0x3000 + 4 * 2) 0x2003)
    0x2000 false ∅ (mk_pmm [0xF; 0] 64 4 (64 * 4096) 8) 0xC0002000.

Lemma example_present i :
  0 <= i < 1024 -> is_page_enabled (pde example_vm i) = true -> i = 768 \/ i = 1023.
Proof.
  intros Hi He.
  assert (filter (fun k => is_page_enabled (pde example_vm (Z.of_nat k)) = true) (seq 0 1024) = [768%nat; 1023%nat])
    as Hf by (vm_compute; reflexivity).
  assert (Z.to_nat i ∈ [768%nat; 1023%nat]) as Hin.
  { rewrite <- Hf. apply list_elem_of_filter. rewrite Z2Nat.id by lia. split; [done|].
    apply elem_of_seq. lia. }
  apply elem_of_cons in Hin as [?|Hin%list_elem_of_singleton]; lia.
Qed.

Lemma example_paging : paging 0xC0002000 example_vm.
Proof.
  split.
  - repeat apply wr32_ok. apply map_Forall_empty.
  - done.
  - split; [zdec|done].
  - split; vm_compute; reflexivity.
  - intros i j Hi Hj Ei Ej Ht.
    destruct (example_present i Hi Ei) as [->| ->], (example_present j Hj Ej) as [->| ->]; done.
  - intros i Hi Ei. destruct (example_present i Hi Ei) as [->| ->]; vm_compute; reflexivity.
  - split_and!; [split; [zdec|done]|done|vm_compute; reflexivity].
  - intros p f Hp. discriminate Hp.
  - split; [repeat constructor; zdec|cbn; lia|cbn; lia|zdec|vm_compute; reflexivity].
Qed.

Lemma example_mappable virt :
  0 <= virt < 0xC0000000 -> mappable 0xC0002000 virt.
Proof.
  intros Hv. unfold mappable, is_u32, PAGE_TABLE_BASE. split_and!; [lia..|].
  Z.to_euclidean_division_equations. lia.
Qed.

Lemma recursive_directory_witness :
  exists t, load32 (0xFFC00000 + 768 * 0x1000 + 2 * 4) example_vm = Ok (0x2003, with_tlb t example_vm) /\
    paging 0xC0002000 (with_tlb t example_vm).
Proof. exact (recursive_directory 0xC0002000 example_vm 768 2 example_paging ltac:(lia) ltac:(lia)). Defined.

Lemma vmm_map_address_correct_witness :
  exists s', vmm_map_address 0xC0002000 0x400000 0x9000 3 example_vm = Ok (tt, s') /\
    paging 0xC0002000 s' /\ page_walk s' 0x400123 = Some 0x9000 /\ page_walk s' 0x401000 = None.
Proof.
  destruct (vmm_map_address_correct 0xC0002000 example_vm 0x400000 0x9000 3) as (s' & E & P & _ & _ & W).
  - exact example_paging.
  - apply example_mappable. lia.
  - split; [zdec|done].
  - split; [lia|done].
  - right. do 2 eexists. split; [vm_compute; reflexivity|lia].
  - exists s'. split_and!; [exact E|exact P|..]; (rewrite W by (zdec || (split; lia))); vm_compute; reflexivity.
Defined.

Lemma vmm_unmap_address_correct_witness :
  exists s', vmm_unmap_address 0xC0002000 0xC0005000 example_vm = Ok (tt, s') /\
    page_walk s' 0xC0005010 = None /\ page_walk s' 0xC0002000 = Some 0x2000.
Proof.
  destruct (vmm_unmap_address_correct 0xC0002000 example_vm 0xC0005000) as (s' & E & _ & _ & _ & _ & W).
  - exact example_paging.
  - split_and!; [zdec..|done].
  - exists s'. split_and!; [exact E|..]; (rewrite W by zdec); vm_compute; reflexivity.
Defined.

Lemma vmm_unmap_range_correct_witness :
  (exists s', vmm_unmap_range 0xC0002000 0xC0003000 0xC0005000 example_vm = Ok (tt, s') /\
    page_walk s' 0xC0003010 = None /\ page_walk s' 0xC0002000 = Some 0x2000) /\
  vmm_unmap_range 0xC0002000 (0xC0003000 - 1) 0xC0005000 example_vm = Fail Assert.
Proof.
  destruct (vmm_unmap_range_correct 0xC0002000 example_vm 0xC0003000 0xC0005000) as [(s' & E & _ & _ & W) A].
  - exact example_paging.
  - split; [zdec|done].
  - split; [zdec|done].
  - zdec.
  - left. zdec.
  - split; [|apply A; lia]. exists s'. split_and!; [exact E|..]; (rewrite W by zdec); vm_compute; reflexivity.
Defined.

Lemma vmm_get_physical_address_correct_witness :
  exists t, vmm_get_physical_address 0xC0002ABC false example_vm = Ok (0x2ABC, with_tlb t example_vm) /\
    paging 0xC0002000 (with_tlb t example_vm).
Proof.
  exact (vmm_get_physical_address_correct 0xC0002000 example_vm 0xC0002ABC 0x2000
    example_paging ltac:(zdec) ltac:(vm_compute; reflexivity)).
Defined.
