(* ===== verification/Sbrk.v ===== *)
(** * The kernel heap's break ([memory/sbrk.c])

    [sbrk] grants heap bytes by taking a run of frames and mapping it after
    the last heap page. The heap pages are data pages of the address space, so
    the kernel heap meets the interface of [Heap]. *)
From Stdlib Require Import ZArith Lia Bool.
From stdpp Require Import base list gmap option.
From S2P Require Import Prelude Bitmap Pmm Mem Heap Vmm.

Open Scope Z_scope.

Definition KERNEL_HEAP_BOTTOM : Z := 0xD0000000.
Definition KERNEL_HEAP_TOP : Z := 0xF0000000.

(** The machine and the file-scope variables of sbrk.c. *)
Record kheap := mk_kheap {
  kvm : vm;
  kernel_heap_current : Z;
  kernel_remaining_from_last_used : Z;
}.

Definition with_kvm (v : vm) (s : kheap) : kheap :=
  mk_kheap v (kernel_heap_current s) (kernel_remaining_from_last_used s).
Definition with_current (c : Z) (s : kheap) : kheap :=
  mk_kheap (kvm s) c (kernel_remaining_from_last_used s).
Definition with_remaining (r : Z) (s : kheap) : kheap :=
  mk_kheap (kvm s) (kernel_heap_current s) r.
Definition on_vm {A} : M vm A -> M kheap A := zoom kvm with_kvm.

#[export] Instance kheap_mem : Mem kheap := {
  load8 a := on_vm (load8 a);
  store8 a v := on_vm (store8 a v);
  load32 a := on_vm (load32 a);
  store32 a v := on_vm (store32 a v);
}.

(** [for (; page_addr < limit; page_addr += 4096, physical_addr += 4096)];
    the result is the final [page_addr]. *)
Fixpoint sbrk_map (page_addr physical_addr limit : Z) (n : nat) : M vm Z :=
  if page_addr <? limit then
    match n with
    | O => mfail Fuel
    | S n' =>
        dir ← vmm_get_directory;
        vmm_map_address dir page_addr physical_addr (Z.lor I86_PTE_PRESENT I86_PTE_WRITABLE) ;;
        sbrk_map (u32 (page_addr + PMM_FRAME_SIZE)) (u32 (physical_addr + PMM_FRAME_SIZE)) limit n'
    end
  else mret page_addr.

(** Enough rounds for the whole address space. *)
Definition sbrk_fuel : nat := Z.to_nat (2 ^ 20).

Definition kernel_sbrk (n : Z) : M kheap Z :=
  if n =? 0 then gets kernel_heap_current
  else
    heap_base ← gets kernel_heap_current;
    remaining ← gets kernel_remaining_from_last_used;
    (if n <=? remaining then modify (with_remaining (u32 (remaining - n)))
     else
       physical_addr ← on_vm (on_pmm (pmm_alloc_blocks (div_ceil (u32 (n - remaining)) PMM_FRAME_SIZE)));
       page_addr ← on_vm (sbrk_map (u32 (div_ceil heap_base PMM_FRAME_SIZE * PMM_FRAME_SIZE))
                             physical_addr (u32 (heap_base + n)) sbrk_fuel);
       modify (with_remaining (u32 (page_addr - u32 (heap_base + n))))) ;;
    modify (with_current (u32 (heap_base + n))) ;;
    memset heap_base 0 n ;;
    mret heap_base.

#[export] Instance kheap_heap : Heap kheap := { sbrk := kernel_sbrk }.

(** ** The heap pages *)

(** The finite map of [g] over a list of keys. *)
Fixpoint map_over (keys : list Z) (g : Z -> option Z) : gmap Z Z :=
  match keys with
  | [] => ∅
  | k :: keys' =>
      match g k with
      | Some v => <[k := v]> (map_over keys' g)
      | None => map_over keys' g
      end
  end.

Lemma map_over_lookup keys g p f :
  map_over keys g !! p = Some f <-> p ∈ keys /\ g p = Some f.
Proof.
  induction keys as [|k keys IH]; cbn.
  - rewrite lookup_empty. split; [done|]. intros [H _]. by apply not_elem_of_nil in H.
  - rewrite elem_of_cons. destruct (g k) as [v|] eqn:E.
    + destruct (decide (k = p)) as [->|Hne].
      * rewrite lookup_insert_eq, E. tauto.
      * rewrite lookup_insert_ne, IH by done. split; [tauto|]. by intros [[->|?] ?].
    + rewrite IH. split; [tauto|]. intros [[->|?] ?]; [congruence|done].
Qed.

(** Pages from [lo] to before [hi], with their frames. *)
Definition pages_of (s : vm) (lo hi : Z) : gmap Z Z :=
  map_over (seqZ lo (hi - lo)) (fun p => page_walk s (4096 * p)).

Lemma pages_of_lookup s lo hi p f :
  pages_of s lo hi !! p = Some f <-> lo <= p < hi /\ page_walk s (4096 * p) = Some f.
Proof.
  unfold pages_of. rewrite map_over_lookup, elem_of_seqZ. split; intros [? ?]; (split; [lia|done]).
Qed.

(** The pages [lo, hi) are mapped to distinct frames that are taken and are no tables. *)
Record heap_pages (s : vm) (lo hi : Z) : Prop := {
  hp_map : forall p, lo <= p < hi -> exists f, page_walk s (4096 * p) = Some f /\
    frame_used (frames s) (f / 4096) = true /\
    forall k, 0 <= k < 1024 -> is_page_enabled (pde s k) = true -> table s k <> f;
  hp_inj : forall p q f, lo <= p < hi -> lo <= q < hi ->
    page_walk s (4096 * p) = Some f -> page_walk s (4096 * q) = Some f -> p = q;
}.

Lemma walk_aligned s va f : phys_ok (phys s) -> pse s = false -> is_u32 va ->
  page_walk s va = Some f -> page_aligned f.
Proof.
  intros B P Hva. rewrite walk_eq by done. destruct (is_page_enabled _); [|done]. cbv zeta.
  destruct (is_page_enabled _); [|done]. intros [= <-]. apply aligned_page, rd32_u32, B.
Qed.

Lemma walk_present s p f : pse s = false -> 0 <= p < 2 ^ 20 -> page_walk s (4096 * p) = Some f ->
  is_page_enabled (pde s (p / 1024)) = true.
Proof.
  intros P Hp. destruct (page_indices p Hp) as (Hu & Hi & _). rewrite walk_eq, Hi by done.
  by destruct (is_page_enabled _).
Qed.

Lemma heap_region d s lo hi :
  paging d s -> 0 <= lo -> hi <= 2 ^ 20 -> heap_pages s lo hi -> region (pages_of s lo hi) s.
Proof.
  intros Hpg Hlo Hhi [Mp Ij]. pose proof Hpg as [B P C [S1 S2] _ _ _ T _]. split; try done.
  - intros p f Hp. apply pages_of_lookup in Hp as [Hr Hw]. split_and!; [lia..| |done].
    eapply walk_aligned; [done|done| |done]. unfold is_u32. lia.
  - intros p q f Hp Hq. apply pages_of_lookup in Hp as [? ?], Hq as [? ?]. by eapply Ij.
  - intros p f Hp. apply pages_of_lookup in Hp as [Hr Hw].
    destruct (Mp p Hr) as (f' & Hw' & _ & Ht). replace f' with f in * by congruence.
    split; [rewrite <- S2; apply not_eq_sym, Ht; [lia|done]|].
    intros q Hq. assert (0 <= q < 2 ^ 20 /\ is_page_enabled (pde s (q / 1024)) = true) as [Hq1 Hq2].
    { destruct Hq as [[g Hq]|[g Hq]].
      - apply pages_of_lookup in Hq as [? ?]. split; [lia|]. eapply walk_present; [done|lia|done].
      - destruct (T q g Hq) as [? ?]. split; [done|]. by eapply walk_present. }
    apply Ht; [|done]. split; [apply Z.div_pos; lia|apply Z.div_lt_upper_bound; lia].
Qed.

(** Writes to data pages that are no tables leave the address space alone. *)
Section data_writes.
Context (d : Z) (D : gmap Z Z) (s s' : vm).
Hypothesis (Hpg : paging d s) (Hr : region D s') (Hrest : region_rest D s' = region_rest D s).
Hypothesis (HD : forall p f, D !! p = Some f -> page_aligned f /\
  forall k, 0 <= k < 1024 -> is_page_enabled (pde s k) = true -> table s k <> f).

Lemma dw_cr3 : cr3 s' = cr3 s.
Proof. unfold region_rest in Hrest. congruence. Qed.

Lemma dw_bytes g x :
  page_aligned g -> (forall p f, D !! p = Some f -> g <> f) -> g <= x < g + 4096 ->
  rd8 (phys s') x = rd8 (phys s) x.
Proof.
  intros [_ Hg] Hne Hx. apply (outside_rd8 D s s' x); [unfold region_rest in Hrest; congruence|].
  intros p f Hp. specialize (Hne p f Hp). destruct (HD p f Hp) as [[_ Hf] _].
  Z.to_euclidean_division_equations. lia.
Qed.

Lemma dw_pde k : 0 <= k < 1024 -> pde s' k = pde s k.
Proof.
  intros Hk. unfold pde. rewrite dw_cr3. apply rd32_ext. intros x Hx.
  apply (dw_bytes (cr3 s)); [apply Hpg| |lia]. intros p f Hp.
  destruct (pg_self d s Hpg) as [S1 <-]. destruct (HD p f Hp) as [_ Ht]. apply Ht; [lia|done].
Qed.

Lemma dw_walk va : is_u32 va -> page_walk s' va = page_walk s va.
Proof.
  intros Hva. destruct (index_ranges va Hva) as [H1 H2].
  rewrite !walk_eq by (done || apply Hpg || apply Hr). rewrite dw_pde by done.
  destruct (is_page_enabled (pde s (va / 2 ^ 22))) eqn:E; [|done].
  assert (table s' (va / 2 ^ 22) = table s (va / 2 ^ 22)) as Ht by (unfold table; by rewrite dw_pde).
  assert (pte s' (va / 2 ^ 22) (va / 2 ^ 12 mod 2 ^ 10) = pte s (va / 2 ^ 22) (va / 2 ^ 12 mod 2 ^ 10)) as ->; [|done].
  unfold pte. rewrite Ht. apply rd32_ext. intros x Hx.
  apply (dw_bytes (table s (va / 2 ^ 22))); [apply table_aligned, Hpg| |lia].
  intros p f Hp. destruct (HD p f Hp) as [_ Hf]. by apply Hf.
Qed.

Lemma dw_paging : paging d s'.
Proof.
  pose proof Hpg as [B P C S I U W T F]. pose proof Hr as [B' P' C' _ _ _ T'].
  assert (frames s' = frames s) as Hfr by (unfold region_rest in Hrest; congruence).
  assert (forall k, 0 <= k < 1024 -> table s' k = table s k) as Htab
    by (intros; unfold table; by rewrite dw_pde).
  split; try done.
  - rewrite dw_pde, Htab, dw_cr3 by lia. done.
  - intros i j Hi Hj. rewrite !dw_pde, !Htab by done. by apply I.
  - intros i Hi. rewrite dw_pde, Htab, Hfr by done. by apply U.
  - rewrite dw_walk, dw_cr3 by apply W. done.
  - by rewrite Hfr.
Qed.
End data_writes.

(** ** Frames left *)

(** [n] frames are left: by the counter, and as free frames that the
    searches can find. *)
Record enough (p : pmm) (n : Z) : Prop := {
  en_max : max_frames p < 2 ^ 20;
  en_count : used_frames p + n <= max_frames p;
  en_free : exists l, NoDup l /\ n <= Z.of_nat (length l) /\
    Forall (fun c => 0 <= c < scanned p /\ frame_used p c = false) l;
}.

(** Taking the [k] frames from [f] leaves [n] of [n + k]. *)
Lemma enough_take p p' f k n :
  0 <= k -> enough p (n + k) -> max_frames p' = max_frames p -> used_frames p' = used_frames p + k ->
  (forall c, 0 <= c -> frame_used p' c = (f <=? c) && (c <? f + k) || frame_used p c) -> enough p' n.
Proof.
  intros Hk [Hmax Hcount (l & Hnd & Hlen & Hl)] Em Eu Ef. split; [by rewrite Em|lia|].
  set (P := fun c => f <= c < f + k). exists (filter (fun c => ~ P c) l). split_and!; [by apply list.NoDup_filter| |].
  - assert (length (filter P l) <= length (seqZ f k))%nat as Hin.
    { apply submseteq_length, NoDup_submseteq; [by apply list.NoDup_filter|].
      intros c Hc. apply list_elem_of_filter in Hc as [Hc _]. apply elem_of_seqZ. unfold P in Hc. lia. }
    rewrite length_seqZ in Hin. pose proof (Permutation_length (filter_app_complement P l)) as Hsum.
    rewrite length_app in Hsum. lia.
  - apply list.Forall_forall. intros c Hc. apply list_elem_of_filter in Hc as [Hc Hin].
    rewrite list.Forall_forall in Hl. destruct (Hl c Hin) as [Hr Hu]. unfold scanned in *. rewrite Em.
    split; [done|]. rewrite Ef, Hu by lia. unfold P in Hc.
    destruct (Z.leb_spec f c), (Z.ltb_spec c (f + k)); done || lia.
Qed.

(** ** The heap's invariant *)

Record kheap_ok (s : kheap) : Prop := {
  kh_paging : paging (current_dir (kvm s)) (kvm s);
  kh_tables : forall k, 768 <= k < 1023 -> is_page_enabled (pde (kvm s) k) = true;
  kh_dir : current_dir (kvm s) < KERNEL_HEAP_BOTTOM \/ KERNEL_HEAP_TOP <= current_dir (kvm s);
  kh_low : KERNEL_HEAP_BOTTOM <= kernel_heap_current s;
  kh_high : kernel_heap_current s + kernel_remaining_from_last_used s <= KERNEL_HEAP_TOP;
  kh_rem : 0 <= kernel_remaining_from_last_used s < 4096;
  kh_end : (kernel_heap_current s + kernel_remaining_from_last_used s) mod 4096 = 0;
  kh_pages : heap_pages (kvm s) (KERNEL_HEAP_BOTTOM / 4096)
    ((kernel_heap_current s + kernel_remaining_from_last_used s) / 4096);
}.

(** The pages of the heap. *)
Definition heap_map (s : kheap) : gmap Z Z :=
  pages_of (kvm s) (KERNEL_HEAP_BOTTOM / 4096)
    ((kernel_heap_current s + kernel_remaining_from_last_used s) / 4096).

(** The bytes of the heap, as the CPU sees them. *)
Definition heap_view (s : kheap) (x : Z) : option Z :=
  if in_range KERNEL_HEAP_BOTTOM (kernel_heap_current s - KERNEL_HEAP_BOTTOM) x then
    match page_walk (kvm s) x with
    | Some f => Some (rd8 (phys (kvm s)) (f + x mod 4096))
    | None => None
    end
  else None.

Definition heap_rest (s : kheap) : pmm * Z * Z * Z * Z :=
  (frames (kvm s), cr3 (kvm s), current_dir (kvm s), kernel_heap_current s, kernel_remaining_from_last_used s).

(** The end of the last heap page. *)
Definition heap_limit (s : kheap) : Z := kernel_heap_current s + kernel_remaining_from_last_used s.

(** A taken frame that is neither the directory nor one of its tables. *)
Definition data_frame (s : vm) (f : Z) : Prop :=
  page_aligned f /\ frame_used (frames s) (f / 4096) = true /\
  forall k, 0 <= k < 1024 -> is_page_enabled (pde s k) = true -> table s k <> f.

(** What the heap leaves alone from [h] to [s]: the directory, the translation
    of every page but those the heap has gained, the taken frames, and the
    data of the frames that are not the heap's. The pages it has gained are on
    frames that were free, one for each. *)
Record around (h s : kheap) : Prop := {
  ar_same : tables_same (kvm h) (kvm s);
  ar_limit : heap_limit h <= heap_limit s;
  ar_walk : forall va, is_u32 va -> ~ heap_limit h <= va < heap_limit s ->
    page_walk (kvm s) va = page_walk (kvm h) va;
  ar_used : forall c, 0 <= c -> frame_used (frames (kvm h)) c = true -> frame_used (frames (kvm s)) c = true;
  ar_data : forall f o, data_frame (kvm h) f -> (forall p, heap_map h !! p <> Some f) -> 0 <= o < 4096 ->
    rd8 (phys (kvm s)) (f + o) = rd8 (phys (kvm h)) (f + o);
  ar_new : forall p f, heap_map s !! p = Some f ->
    heap_map h !! p = Some f \/ 0 <= f /\ frame_used (frames (kvm h)) (f / 4096) = false;
  ar_frames : forall n, enough (frames (kvm h)) (n + (heap_limit s / 4096 - heap_limit h / 4096)) ->
    enough (frames (kvm s)) n;
}.

Lemma around_same s s' : kvm s' = kvm s -> heap_limit s' = heap_limit s -> around s s'.
Proof.
  intros E L. assert (heap_map s' = heap_map s) as Hm by (unfold heap_map; fold (heap_limit s') (heap_limit s); by rewrite E, L).
  split; rewrite ?E, ?L, ?Hm; try done.
  - by left.
  - intros n. by rewrite Z.sub_diag, Z.add_0_r.
Qed.

Lemma around_refl s : around s s.
Proof. by apply around_same. Qed.

(** A data frame outside the heap stays one. *)
Lemma around_frame h s f : around h s -> data_frame (kvm h) f -> (forall p, heap_map h !! p <> Some f) ->
  data_frame (kvm s) f /\ forall p, heap_map s !! p <> Some f.
Proof.
  intros [(_ & _ & Hp) _ _ U _ N _] (Ha & Hu & Ht) Hf. split.
  - split_and!; [done| |].
    + apply U; [apply Z.div_pos; [apply Ha|lia]|done].
    + intros k Hk. unfold table. rewrite Hp by done. by apply Ht.
  - intros p Hm. destruct (N p f Hm) as [Hm'|[_ Hn]]; [by apply Hf in Hm'|congruence].
Qed.

Lemma around_trans h s t : around h s -> around s t -> around h t.
Proof.
  intros A B. pose proof A as [S1 L1 W1 U1 D1 N1 F1]. pose proof B as [S2 L2 W2 U2 D2 N2 F2]. split.
  - by eapply tables_same_trans.
  - lia.
  - intros va Hva Hr. rewrite W2, W1 by (done || lia). done.
  - intros c Hc Hu. auto.
  - intros f o Hf Hm Ho. destruct (around_frame h s f A Hf Hm) as [Hf' Hm']. by rewrite D2, D1.
  - intros p f Hm. destruct (N2 p f Hm) as [Hm'|[Hf Hn]]; [by apply N1|]. right. split; [done|].
    destruct (frame_used (frames (kvm h)) (f / 4096)) eqn:E; [|done].
    rewrite U1 in Hn by (done || (apply Z.div_pos; lia)). done.
  - intros n Hn. apply F2, F1. by replace (n + (heap_limit t / 4096 - heap_limit s / 4096) +
      (heap_limit s / 4096 - heap_limit h / 4096)) with (n + (heap_limit t / 4096 - heap_limit h / 4096)) by lia.
Qed.

Lemma kheap_region s : kheap_ok s -> region (heap_map s) (kvm s).
Proof.
  intros [P _ _ L H _ E G]. unfold KERNEL_HEAP_TOP, KERNEL_HEAP_BOTTOM in *.
  eapply heap_region; [exact P|vm_compute; discriminate| |exact G]. Z.to_euclidean_division_equations. lia.
Qed.

Lemma kheap_data s p f : kheap_ok s -> heap_map s !! p = Some f -> page_aligned f /\
  frame_used (frames (kvm s)) (f / 4096) = true /\
  forall k, 0 <= k < 1024 -> is_page_enabled (pde (kvm s) k) = true -> table (kvm s) k <> f.
Proof.
  intros Hok Hp. destruct (rg_map _ _ (kheap_region s Hok) p f Hp) as (_ & Ha & Hw).
  apply pages_of_lookup in Hp as [Hr _].
  destruct (hp_map _ _ _ (kh_pages s Hok) p Hr) as (f' & Hw' & Hu & Ht).
  replace f' with f in * by congruence. done.
Qed.

(** Every mapped heap byte, the unused tail of the last page included. *)
Lemma heap_mapped s x :
  kheap_ok s -> KERNEL_HEAP_BOTTOM <= x < kernel_heap_current s + kernel_remaining_from_last_used s ->
  is_u32 x /\ exists f, page_walk (kvm s) x = Some f /\ heap_map s !! (x / 4096) = Some f /\
    region_view (heap_map s) (kvm s) x = Some (rd8 (phys (kvm s)) (f + x mod 4096)).
Proof.
  intros Hok Hx. pose proof Hok as [P _ _ L H _ E G]. unfold KERNEL_HEAP_TOP, KERNEL_HEAP_BOTTOM in *.
  assert (is_u32 x) as Hu by (unfold is_u32; lia). split; [done|].
  destruct (hp_map _ _ _ G (x / 4096)) as (f & Hw & _); [Z.to_euclidean_division_equations; lia|].
  assert (heap_map s !! (x / 4096) = Some f) as Hm.
  { apply pages_of_lookup. unfold KERNEL_HEAP_BOTTOM. split; [Z.to_euclidean_division_equations; lia|done]. }
  exists f. split_and!; [rewrite walk_page by (done || apply P); done|done|].
  unfold region_view. by rewrite Hm.
Qed.

Lemma heap_view_region s x b :
  kheap_ok s -> heap_view s x = Some b -> region_view (heap_map s) (kvm s) x = Some b.
Proof.
  unfold heap_view. intros Hok. destruct (in_range _ _ x) eqn:E; [|done]. apply in_range_spec in E.
  pose proof Hok as [_ _ _ _ _ R _ _].
  destruct (heap_mapped s x Hok) as (_ & f & -> & _ & ->); [lia|done].
Qed.

Lemma heap_page_u32 s p :
  kheap_ok s ->
  KERNEL_HEAP_BOTTOM / 4096 <= p < (kernel_heap_current s + kernel_remaining_from_last_used s) / 4096 ->
  is_u32 (4096 * p).
Proof.
  intros [_ _ _ L H _ _ _] Hp. unfold KERNEL_HEAP_TOP, KERNEL_HEAP_BOTTOM, is_u32 in *.
  Z.to_euclidean_division_equations. lia.
Qed.

(** A state that differs from [s] in data pages only. *)
Lemma kheap_after s v :
  kheap_ok s -> region (heap_map s) v -> region_rest (heap_map s) v = region_rest (heap_map s) (kvm s) ->
  kheap_ok (with_kvm v s) /\ heap_rest (with_kvm v s) = heap_rest s /\ around s (with_kvm v s) /\
  forall x, heap_view (with_kvm v s) x =
    if in_range KERNEL_HEAP_BOTTOM (kernel_heap_current s - KERNEL_HEAP_BOTTOM) x
    then region_view (heap_map s) v x else None.
Proof.
  intros Hok Hr Hrest. pose proof Hok as [P Tb Dr L H R E G].
  assert (forall p f, heap_map s !! p = Some f -> page_aligned f /\
    forall k, 0 <= k < 1024 -> is_page_enabled (pde (kvm s) k) = true -> table (kvm s) k <> f) as HD
    by (intros p f Hp; destruct (kheap_data s p f Hok Hp) as (? & _ & ?); done).
  pose proof (dw_pde _ _ _ _ P Hrest HD) as Hpde.
  pose proof (dw_walk _ _ _ _ P Hr Hrest HD) as Hwalk.
  pose proof (dw_paging _ _ _ _ P Hr Hrest HD) as Hpg.
  assert (frames v = frames (kvm s) /\ cr3 v = cr3 (kvm s) /\ current_dir v = current_dir (kvm s)) as (F & C & Cd)
    by (unfold region_rest in Hrest; split_and!; congruence).
  split_and!; [|unfold heap_rest; cbn; congruence| |].
  - split; cbn; rewrite ?Cd; try done.
    + intros k Hk. rewrite Hpde by lia. by apply Tb.
    + destruct G as [G1 G2]. split.
      * intros p Hp. rewrite Hwalk, F by (by eapply heap_page_u32).
        destruct (G1 p Hp) as (f & ? & ? & Ht). exists f. split_and!; [done..|].
        intros k Hk. unfold table. rewrite Hpde by done. by apply Ht.
      * intros p q f Hp Hq. rewrite !Hwalk by (by eapply heap_page_u32). by apply G2.
  - split; cbn; rewrite ?F; try done; [by intros; apply Hwalk| | |].
    + intros f o (Ha & _) Hm Ho. apply (dw_bytes (heap_map s) _ _ Hrest HD f); [done| |lia].
      intros p g Hp ->. by apply Hm in Hp.
    + intros p f Hm. left. apply pages_of_lookup in Hm as [Hp Hw]. apply pages_of_lookup. split; [done|].
      rewrite <- Hwalk; [done|by eapply heap_page_u32].
    + intros n. change (heap_limit (with_kvm v s)) with (heap_limit s). by rewrite Z.sub_diag, Z.add_0_r.
  - intros x. unfold heap_view. cbn. destruct (in_range _ _ x) eqn:Ex; [|done]. apply in_range_spec in Ex.
    destruct (heap_mapped s x Hok) as (Hx & f & Hw & Hm & _); [lia|].
    rewrite Hwalk, Hw by done. unfold region_view. by rewrite Hm.
Qed.

(** ** The heap as memory *)

Lemma zoom_vm {A} (m : M vm A) s a v : m (kvm s) = Ok (a, v) -> on_vm m s = Ok (a, with_kvm v s).
Proof. intros H. by apply zoom_ok. Qed.

Lemma heap_view_range s x b : heap_view s x = Some b ->
  in_range KERNEL_HEAP_BOTTOM (kernel_heap_current s - KERNEL_HEAP_BOTTOM) x = true.
Proof. unfold heap_view. by destruct (in_range _ _ x). Qed.

(** The heap's view in terms of the data pages. *)
Lemma heap_view_eq s x : kheap_ok s -> heap_view s x =
  if in_range KERNEL_HEAP_BOTTOM (kernel_heap_current s - KERNEL_HEAP_BOTTOM) x
  then region_view (heap_map s) (kvm s) x else None.
Proof.
  intros Hok. destruct (kheap_after s (kvm s) Hok (kheap_region s Hok) eq_refl) as (_ & _ & _ & V).
  rewrite <- V. by destruct s.
Qed.

(** A memory operation of the heap: its bytes become [w], nothing around it changes. *)
Definition heap_step (s s' : kheap) (w : Z -> option Z) : Prop :=
  kheap_ok s' /\ heap_rest s' = heap_rest s /\ around s s' /\ forall x, heap_view s' x = w x.

Lemma kheap_load8 s a b : kheap_ok s -> heap_view s a = Some b ->
  exists s', load8 a s = Ok (b, s') /\ heap_step s s' (heap_view s).
Proof.
  intros Hok Hv. apply heap_view_region in Hv; [|done].
  destruct (region_load8 _ _ a b (kheap_region s Hok) Hv) as (t & E & R).
  destruct (kheap_after s (with_tlb t (kvm s)) Hok R eq_refl) as (K & Rs & A & V).
  eexists. unfold heap_step. split_and!; [exact (zoom_vm _ s _ _ E)|done..|].
  intros x. rewrite V, (heap_view_eq s) by done. done.
Qed.

Lemma kheap_store8 s a b v : kheap_ok s -> heap_view s a = Some b ->
  exists s', store8 a v s = Ok (tt, s') /\ heap_step s s' (fun x => if x =? a then Some (u8 v) else heap_view s x).
Proof.
  intros Hok Hv. pose proof (heap_view_range s a b Hv) as Ha.
  apply heap_view_region in Hv; [|done].
  destruct (region_store8 _ _ a b v (kheap_region s Hok) Hv) as (s' & E & R & Q & V).
  destruct (kheap_after s s' Hok R Q) as (K & Rs & A & V').
  eexists. unfold heap_step. split_and!; [exact (zoom_vm _ s _ _ E)|done..|].
  intros x. rewrite V', V, (heap_view_eq s) by done.
  destruct (Z.eqb_spec x a) as [->|]; [by rewrite Ha|done].
Qed.

Lemma kheap_load32 s a b0 b1 b2 b3 : kheap_ok s ->
  heap_view s a = Some b0 -> heap_view s (a + 1) = Some b1 ->
  heap_view s (a + 2) = Some b2 -> heap_view s (a + 3) = Some b3 ->
  exists s', load32 a s = Ok (le32 b0 b1 b2 b3, s') /\ heap_step s s' (heap_view s).
Proof.
  intros Hok H0 H1 H2 H3. apply heap_view_region in H0, H1, H2, H3; [|done..].
  destruct (region_load32 _ _ a b0 b1 b2 b3 (kheap_region s Hok) H0 H1 H2 H3) as (t & E & R).
  destruct (kheap_after s (with_tlb t (kvm s)) Hok R eq_refl) as (K & Rs & A & V).
  eexists. unfold heap_step. split_and!; [exact (zoom_vm _ s _ _ E)|done..|].
  intros x. rewrite V, (heap_view_eq s) by done. done.
Qed.

Lemma kheap_store32 s a v : kheap_ok s -> (forall k, 0 <= k < 4 -> is_Some (heap_view s (a + k))) ->
  exists s', store32 a v s = Ok (tt, s') /\
    heap_step s s' (fun x => if (a <=? x) && (x <? a + 4) then Some (byte_of v (x - a)) else heap_view s x).
Proof.
  intros Hok Ho.
  destruct (region_store32 _ _ a v (kheap_region s Hok)) as (s' & E & R & Q & V).
  { intros k Hk. destruct (Ho k Hk) as [b Hb]. apply heap_view_region in Hb; [|done]. eauto. }
  destruct (kheap_after s s' Hok R Q) as (K & Rs & A & V').
  eexists. unfold heap_step. split_and!; [exact (zoom_vm _ s _ _ E)|done..|].
  intros x. rewrite V', V, (heap_view_eq s) by done. fold (in_range a 4 x).
  destruct (in_range a 4 x) eqn:Ex; [|done]. apply in_range_spec in Ex.
  destruct (Ho (x - a)) as [b Hb]; [lia|]. apply heap_view_range in Hb.
  replace (a + (x - a)) with x in Hb by lia. by rewrite Hb.
Qed.

Lemma kheap_view_u8 s a b : kheap_ok s -> heap_view s a = Some b -> is_u8 b.
Proof.
  intros Hok Hv. apply heap_view_region in Hv; [|done].
  exact (@view_u8 vm vm_mem (region_laws (heap_map s)) (kvm s) a b (kheap_region s Hok) Hv).
Qed.

Lemma kheap_view_u32 s a b : kheap_ok s -> heap_view s a = Some b -> is_u32 a.
Proof.
  intros Hok Hv. apply heap_view_region in Hv; [|done].
  exact (@view_u32 vm vm_mem (region_laws (heap_map s)) (kvm s) a b (kheap_region s Hok) Hv).
Qed.

#[export] Program Instance kheap_laws : MemLaws kheap := {
  mem_ok := kheap_ok;
  view := heap_view;
  rest_type := pmm * Z * Z * Z * Z;
  rest := heap_rest;
  view_u8 := kheap_view_u8;
  view_u32 := kheap_view_u32;
}.
Next Obligation. intros s a b Hok Hv. destruct (kheap_load8 s a b Hok Hv) as (s' & E & ? & ? & _ & ?). eauto. Qed.
Next Obligation. intros s a b v Hok Hv. destruct (kheap_store8 s a b v Hok Hv) as (s' & E & ? & ? & _ & ?). eauto. Qed.
Next Obligation.
  intros s a b0 b1 b2 b3 Hok H0 H1 H2 H3.
  destruct (kheap_load32 s a b0 b1 b2 b3 Hok H0 H1 H2 H3) as (s' & E & ? & ? & _ & ?). eauto.
Qed.
Next Obligation. intros s a v Hok Ho. destruct (kheap_store32 s a v Hok Ho) as (s' & E & ? & ? & _ & ?). eauto. Qed.

(** The same memory, with a heap [h] whose surroundings it keeps. *)
Program Definition around_laws (h : kheap) : MemLaws kheap := {|
  mem_ok s := kheap_ok s /\ around h s;
  view := heap_view;
  rest_type := pmm * Z * Z * Z * Z;
  rest := heap_rest;
|}.
Next Obligation. intros h s a b [Hok _]. by apply kheap_view_u8. Qed.
Next Obligation. intros h s a b [Hok _]. by apply kheap_view_u32. Qed.
Next Obligation.
  intros h s a b [Hok A] Hv. destruct (kheap_load8 s a b Hok Hv) as (s' & E & ? & ? & A' & ?).
  eauto 7 using around_trans.
Qed.
Next Obligation.
  intros h s a b v [Hok A] Hv. destruct (kheap_store8 s a b v Hok Hv) as (s' & E & ? & ? & A' & ?).
  eauto 7 using around_trans.
Qed.
Next Obligation.
  intros h s a b0 b1 b2 b3 [Hok A] H0 H1 H2 H3.
  destruct (kheap_load32 s a b0 b1 b2 b3 Hok H0 H1 H2 H3) as (s' & E & ? & ? & A' & ?).
  eauto 7 using around_trans.
Qed.
Next Obligation.
  intros h s a v [Hok A] Ho. destruct (kheap_store32 s a v Hok Ho) as (s' & E & ? & ? & A' & ?).
  eauto 7 using around_trans.
Qed.

(** ** Extending the heap *)

Definition kernel_tables (s : vm) : Prop :=
  forall k, 768 <= k < 1023 -> is_page_enabled (pde s k) = true.

Lemma heap_index page :
  KERNEL_HEAP_BOTTOM <= page < KERNEL_HEAP_TOP -> is_u32 page /\ page < PAGE_TABLE_BASE /\ 768 <= page / 2 ^ 22 < 1023.
Proof.
  unfold KERNEL_HEAP_BOTTOM, KERNEL_HEAP_TOP, PAGE_TABLE_BASE, is_u32. intros H.
  split_and!; Z.to_euclidean_division_equations; lia.
Qed.

Lemma sbrk_map_ok d cnt page paddr lim fuel s :
  paging d s -> current_dir s = d -> kernel_tables s ->
  (d < KERNEL_HEAP_BOTTOM \/ KERNEL_HEAP_TOP <= d) ->
  page_aligned page -> KERNEL_HEAP_BOTTOM <= page -> page + 4096 * Z.of_nat cnt <= KERNEL_HEAP_TOP ->
  page + 4096 * (Z.of_nat cnt - 1) < lim <= page + 4096 * Z.of_nat cnt ->
  page_aligned paddr -> paddr + 4096 * Z.of_nat cnt < 2 ^ 32 -> (cnt <= fuel)%nat ->
  exists s', sbrk_map page paddr lim fuel s = Ok (page + 4096 * Z.of_nat cnt, s') /\
    paging d s' /\ frames s' = frames s /\ tables_same s s' /\ data_kept s s' /\
    forall va, is_u32 va -> page_walk s' va =
      if in_range page (4096 * Z.of_nat cnt) va then Some (paddr + 4096 * ((va - page) / 4096)) else page_walk s va.
Proof.
  revert page paddr fuel s. induction cnt as [|cnt IH];
    intros page paddr fuel s Hpg Hcd Hkt Hd Hpa Hlo Hhi Hlim Hpp Hpmax Hfu.
  { exists s. split_and!; try done.
    - destruct fuel; cbn [sbrk_map]; (destruct (Z.ltb_spec page lim); [lia|]);
        by replace (page + 4096 * Z.of_nat 0) with page by lia.
    - intros va _. range_cases. }
  destruct fuel as [|fuel]; [lia|]. cbn [sbrk_map]. destruct (Z.ltb_spec page lim); [|lia].
  rewrite (bind_step _ _ _ d s) by (unfold vmm_get_directory, gets; by rewrite Hcd).
  destruct (heap_index page) as (Hu & Hlt & Hix); [lia|].
  pose proof (pg_dir d s Hpg) as ([Hdu Hd0] & _). pose proof Hpa as [_ Hpa0]. pose proof Hpp as [Hppu Hpp0].
  destruct (map_address_present d s page paddr 3 Hpg) as (s1 & E1 & P1 & F1 & T1 & K1 & W1);
    [|done|split; [lia|done]|by apply Hkt|].
  { split_and!; [done..|]. unfold KERNEL_HEAP_BOTTOM, KERNEL_HEAP_TOP in *. Z.to_euclidean_division_equations. lia. }
  rewrite (bind_step _ _ _ _ _ E1). unfold PMM_FRAME_SIZE, KERNEL_HEAP_TOP, is_u32 in *.
  rewrite !u32_small by (unfold is_u32; lia). pose proof T1 as (_ & Tc & Tp).
  destruct (IH (page + 4096) (paddr + 4096) fuel s1) as (s2 & E2 & P2 & F2 & T2 & K2 & W2);
    try done; try lia; try congruence.
  - intros k Hk. rewrite Tp by lia. by apply Hkt.
  - split; [unfold is_u32; lia|]. Z.to_euclidean_division_equations. lia.
  - split; [unfold is_u32; lia|]. Z.to_euclidean_division_equations. lia.
  - exists s2. split_and!; [|done|congruence|by eapply tables_same_trans|by eapply data_kept_trans|].
    + rewrite E2. do 2 f_equal. lia.
    + intros va Hva. rewrite W2, W1 by done.
      assert (forall x, (va - (page + 4096)) / 4096 = x - 1 <-> (va - page) / 4096 = x) as Hdiv
        by (intros; Z.to_euclidean_division_equations; lia).
      range_cases.
      * rewrite (proj2 (Hdiv _) eq_refl). f_equal. lia.
      * replace ((va - page) / 4096) with 0 by (Z.to_euclidean_division_equations; lia). f_equal. lia.
      * exfalso. Z.to_euclidean_division_equations. lia.
      * exfalso. Z.to_euclidean_division_equations. lia.
Qed.

(** What [pmm_alloc_blocks k] does when it is right: it hands out [k] frames
    from [r], all free before. *)
Record grants (p : pmm) (k r : Z) (p' : pmm) : Prop := {
  gr_run : pmm_alloc_blocks k p = Ok (r, p');
  gr_wf : pmm_wf p';
  gr_aligned : page_aligned r;
  gr_max : r + 4096 * k < 2 ^ 32;
  gr_free : forall c, r / 4096 <= c < r / 4096 + k -> frame_used p c = false /\ frame_used p' c = true;
  gr_keep : forall c, 0 <= c -> frame_used p c = true -> frame_used p' c = true;
  gr_left : forall n, enough p (n + k) -> enough p' n;
}.

(** The physical memory has [k] free frames side by side, and the search for
    them is not misled: [k] frames are left by the counter, the bitmap is
    followed by as much memory as the search reads, and no frame before the
    run is free with only one of the [k + 1] frames from it in use, which
    [pmm_alloc_blocks] takes for a run ([run_start]). *)
Record frames_for (p : pmm) (k : Z) : Prop := {
  ff_max : max_frames p < 2 ^ 20;
  ff_room : used_frames p + k <= max_frames p;
  ff_bitmap : 2 <= k -> scanned p + k <= 32 * Z.of_nat (length (memory_bitmap p));
  ff_run : exists f, 0 <= f < scanned p /\ f + k <= max_frames p /\
    (forall c, f <= c < f + k -> frame_used p c = false) /\
    forall g, 0 <= g < f -> ~ run_start (memory_bitmap p) k g;
}.

Lemma first_free_found p f0 : pmm_wf p -> max_frames p < 2 ^ 20 -> 0 <= f0 < scanned p -> frame_used p f0 = false ->
  exists r, 0 < r < scanned p /\ frame_used p r = false /\ (forall g, 0 <= g < r -> frame_used p g = true) /\
    bm_first_free (memory_bitmap p) 0 (Z.to_nat (max_frames p / 32)) = Ok r.
Proof.
  intros Hwf H20 Hf0 Hfree0. pose proof Hwf as [W Hmax Hlen Hu Hz]. pose proof (scanned_bounds p ltac:(lia)) as Hsc.
  destruct (bm_first_free_spec (memory_bitmap p) 0 (Z.to_nat (max_frames p / 32)) W)
    as (r & Hr & Hl); [unfold scanned in *; lia..|].
  replace (32 * (0 + Z.of_nat (Z.to_nat (max_frames p / 32)))) with (scanned p) in Hl
    by (unfold scanned in *; lia).
  destruct Hl as [[-> Hall]|(Hrange & Hfree & Hleast)]; [by destruct (Hall f0 ltac:(lia))|].
  assert (r <> 0) by (intros ->; unfold frame_used in Hz; congruence).
  exists r. split_and!; [lia|lia|done| |done]. intros g Hg. unfold frame_used.
  destruct (bm_used (memory_bitmap p) g) eqn:E; [done|]. exfalso. by apply (Hleast g); [lia|].
Qed.

(** What a call that finds the run [f, f + k) leaves. *)
Definition granted (p : pmm) (k f : Z) (p' : pmm) : Prop :=
  pmm_alloc_blocks k p = Ok (f * PMM_FRAME_SIZE, p') /\ pmm_wf p' /\
  max_frames p' = max_frames p /\ used_frames p' = used_frames p + k /\
  forall c, 0 <= c -> frame_used p' c = (f <=? c) && (c <? f + k) || frame_used p c.

Lemma granted_one p f : pmm_wf p -> max_frames p < 2 ^ 20 -> used_frames p < max_frames p -> 0 < f < scanned p ->
  bm_first_free (memory_bitmap p) 0 (Z.to_nat (max_frames p / 32)) = Ok f -> exists p', granted p 1 f p'.
Proof.
  intros Hwf H20 Hroom Hf Hr. pose proof Hwf as [W Hmax Hlen Hu Hz]. pose proof (scanned_bounds p ltac:(lia)) as Hsc.
  destruct (set_frames_ok f 0 1 p W Hu) as (bm & E & B); [lia..|].
  exists (restate bm (u32 (used_frames p + 1)) p). split_and!.
  - unfold pmm_alloc_blocks. erewrite bind_step by reflexivity. cbn [id].
    rewrite u32_small by (unfold is_u32 in *; lia).
    destruct (Z.ltb_spec (max_frames p - used_frames p) 1); [lia|].
    erewrite bind_step by (unfold memory_bitmap_first_frees, bm_first_frees; cbn [Z.eqb Pos.eqb]; rewrite Hr; reflexivity).
    destruct (Z.eqb_spec f (-1)); [lia|]. erewrite bind_step by exact E.
    by rewrite u32_small by (unfold is_u32, PMM_FRAME_SIZE; lia).
  - eapply pmm_wf_restate; [done|exact B| |apply u32_range]. cbn. by rewrite Hz, orb_true_r.
  - done.
  - cbn. rewrite u32_small; [done|]. unfold is_u32 in *. lia.
  - intros c Hc. unfold frame_used at 1. cbn. rewrite (bb_used _ _ _ B) by done. by rewrite Z.add_0_r.
Qed.

Lemma granted_run p k : pmm_wf p -> 0 < k -> frames_for p k ->
  exists f p', granted p k f p' /\ 0 <= f /\ f + k <= max_frames p /\ forall c, f <= c < f + k -> frame_used p c = false.
Proof.
  intros Hwf Hk [H20 Hroom Hbm (f & Hf & Hfk & Hfree & Hfirst)]. pose proof Hwf as [W Hmax Hlen Hu Hz].
  pose proof (scanned_bounds p ltac:(lia)) as Hsc.
  pose proof (run_start_clear p k f Hk Hfree) as Hstart. exists f.
  destruct (Z.eq_dec k 1) as [->|Hk1].
  - destruct (first_free_found p f Hwf H20 Hf (Hfree f ltac:(lia))) as (r & Hr & Hr0 & Hleast & Erun).
    assert (r = f) as ->.
    { destruct (Z.lt_trichotomy r f) as [Hlt|[?|Hlt]]; [|done|].
      - exfalso. apply (Hfirst r ltac:(lia)), run_start_clear; [lia|]. intros c Hc. by replace c with r by lia.
      - specialize (Hfree f ltac:(lia)). rewrite (Hleast f ltac:(lia)) in Hfree. done. }
    destruct (granted_one p f) as (p' & Hg); [done|done|lia|done|done|]. exists p'. split_and!; (done || lia).
  - destruct (pmm_alloc_blocks_ok p k) as (r & p' & E & Hwf' & Hcase); [done|lia|apply Hbm; lia|lia|].
    destruct Hcase as [(_ & _ & [Hno|Hno])|(f' & -> & Hf' & Hstart' & Hfirst' & Ep' & [_ _ U])].
    + rewrite u32_small in Hno by (unfold is_u32 in *; lia). lia.
    + by apply Hno in Hstart.
    + assert (f' = f) as ->.
      { destruct (Z.lt_trichotomy f' f) as [Hlt|[?|Hlt]]; [|done|].
        - by apply Hfirst in Hstart'; [|lia].
        - by apply Hfirst' in Hstart; [|lia]. }
      assert (max_frames p' = max_frames p /\ used_frames p' = used_frames p + k) as [Em Eu].
      { rewrite Ep'. cbn. rewrite u32_small; [done|]. unfold is_u32 in *. lia. }
      exists p'. split_and!; try done; lia.
Qed.

(** Then [pmm_alloc_blocks] is right. *)
Lemma frames_grant p k : pmm_wf p -> 0 < k -> frames_for p k -> exists r p', grants p k r p'.
Proof.
  intros Hwf Hk Hff. pose proof (ff_max _ _ Hff) as H20.
  destruct (granted_run p k Hwf Hk Hff) as (f & p' & (E & Hwf' & Em & Eu & U) & Hf & Hfk & Hfree).
  exists (f * PMM_FRAME_SIZE), p'. unfold PMM_FRAME_SIZE in *.
  assert (f * 4096 / 4096 = f) as Hdiv by (rewrite Z.div_mul by lia; done).
  split; [done|done|split; [unfold is_u32; lia|apply Z.mod_mul; lia]|lia|rewrite Hdiv| |].
  - intros c Hc. split; [by apply Hfree|]. rewrite U by lia.
    destruct (Z.leb_spec f c), (Z.ltb_spec c (f + k)); done || lia.
  - intros c Hc Hcu. rewrite U, Hcu by done. apply orb_true_r.
  - intros n Hn. eapply (enough_take p p' f k); [lia|done..].
Qed.

(** [n] more bytes: below the top of the heap, with frames for the new pages. *)
Definition heap_room (r : pmm * Z * Z * Z * Z) (n : Z) : Prop :=
  let '(p, _, _, current, remaining) := r in
  current + n <= KERNEL_HEAP_TOP /\
  (remaining < n -> frames_for p (div_ceil (n - remaining) 4096)).

Lemma paging_frames d s p' :
  paging d s -> pmm_wf p' ->
  (forall c, 0 <= c -> frame_used (frames s) c = true -> frame_used p' c = true) ->
  paging d (with_frames p' s).
Proof.
  intros [B P C Sf I U D T F] W Hk. split; try done.
  intros i Hi He. cbn. apply Hk; [|by apply U]. apply Z.div_pos; [apply (table_aligned s i B)|lia].
Qed.

(** They leave everything else alone. *)
Lemma around_grow s s' r p' cnt :
  kheap_ok s -> grants (frames (kvm s)) cnt r p' -> 0 < cnt -> heap_limit s + 4096 * cnt <= KERNEL_HEAP_TOP ->
  heap_limit s' = heap_limit s + 4096 * cnt ->
  let s0 := with_frames p' (kvm s) in let v := kvm s' in
  frames v = p' -> tables_same s0 v -> data_kept s0 v ->
  (forall va, is_u32 va -> page_walk v va =
     if in_range (heap_limit s) (4096 * cnt) va
     then Some (r + 4096 * ((va - heap_limit s) / 4096)) else page_walk s0 va) ->
  around s s'.
Proof.
  intros [P _ _ L H R E G] Hgr Hc Htop Hlim s0 v Fv Tv Kv Wv. fold (heap_limit s) in H, E, G.
  assert (0 <= heap_limit s /\ heap_limit s = 4096 * (heap_limit s / 4096)) as [Hl0 Hpage]
    by (unfold heap_limit, KERNEL_HEAP_BOTTOM in *; Z.to_euclidean_division_equations; lia).
  fold v. split; fold v; rewrite ?Fv, ?Hlim.
  - exact Tv.
  - lia.
  - intros va Hva Hr. rewrite Wv by done. range_cases.
  - intros c Hc0. by apply (gr_keep _ _ _ _ Hgr).
  - intros f o (Ha & Hu & Ht) _ Ho. apply (Kv f o); [done|done| |done].
    apply (gr_keep _ _ _ _ Hgr); [apply Z.div_pos; [apply Ha|lia]|done].
  - intros p f Hm. apply pages_of_lookup in Hm as [Hp Hw]. fold v in Hw. fold (heap_limit s') in Hp. rewrite Hlim in Hp.
    unfold KERNEL_HEAP_TOP, KERNEL_HEAP_BOTTOM in *.
    rewrite Wv in Hw by (unfold is_u32; Z.to_euclidean_division_equations; lia). revert Hw. range_cases; intros Hw.
    + right. injection Hw as <-. pose proof (gr_aligned _ _ _ _ Hgr) as [[Hr0 _] Hr4]. split; [Z.to_euclidean_division_equations; lia|].
      apply (gr_free _ _ _ _ Hgr). Z.to_euclidean_division_equations. lia.
    + left. apply pages_of_lookup. fold (heap_limit s). split; [|done]. unfold KERNEL_HEAP_BOTTOM. Z.to_euclidean_division_equations. lia.
  - intros n Hn. apply (gr_left _ _ _ _ Hgr).
    by replace (n + cnt) with (n + ((heap_limit s + 4096 * cnt) / 4096 - heap_limit s / 4096))
      by (Z.to_euclidean_division_equations; lia).
Qed.

(** New pages mapped to a granted run join the heap. *)
Lemma heap_pages_grow d s v p' lo mid cnt r :
  paging d s -> heap_pages s lo mid -> grants (frames s) cnt r p' ->
  0 <= lo <= mid -> mid + cnt <= 2 ^ 20 -> 0 <= cnt ->
  frames v = p' -> tables_same s v ->
  (forall p, lo <= p < mid -> page_walk v (4096 * p) = page_walk s (4096 * p)) ->
  (forall p, mid <= p < mid + cnt -> page_walk v (4096 * p) = Some (r + 4096 * (p - mid))) ->
  heap_pages v lo (mid + cnt).
Proof.
  intros Hpg [G1 G2] [_ _ [Hr Hr0] Hmax Hfree Hkeep _] Hlo Hhi Hc Hf (_ & _ & Hp) Hold Hnew.
  assert (forall p, lo <= p < mid -> forall f, page_walk s (4096 * p) = Some f ->
    page_aligned f /\ frame_used (frames s) (f / 4096) = true) as Hof.
  { intros p Hp' f Hw. destruct (G1 p Hp') as (f' & Hw' & Hu & _). replace f' with f in * by congruence.
    split; [|done]. eapply walk_aligned; [apply Hpg|apply Hpg| |exact Hw]. unfold is_u32. lia. }
  assert (forall p, mid <= p < mid + cnt -> let f := r + 4096 * (p - mid) in
    r / 4096 <= f / 4096 < r / 4096 + cnt) as Hnf
    by (intros; cbv zeta; unfold is_u32 in *; Z.to_euclidean_division_equations; lia).
  split.
  - intros p Hp'. destruct (Z.lt_ge_cases p mid).
    + destruct (G1 p) as (f & Hw & Hu & Ht); [lia|]. exists f. rewrite Hold, Hf by lia.
      split_and!; [done| |].
      * apply Hkeep; [|done]. destruct (Hof p ltac:(lia) f Hw) as [[Hfu _] _]. apply Z.div_pos; [apply Hfu|lia].
      * intros k Hk. unfold table. rewrite Hp by done. by apply Ht.
    + exists (r + 4096 * (p - mid)). rewrite Hnew, Hf by lia. destruct (Hfree _ (Hnf p ltac:(lia))) as [F1 F2].
      split_and!; [done..|]. intros k Hk. unfold table. rewrite Hp by done. intros He Ht.
      pose proof (pg_used d s Hpg k Hk He) as Hu. unfold table in Hu. rewrite Ht in Hu. congruence.
  - intros p q f Hp' Hq'.
    destruct (Z.lt_ge_cases p mid), (Z.lt_ge_cases q mid).
    + rewrite !Hold by lia. apply G2; lia.
    + rewrite (Hold p), (Hnew q) by lia. intros Hw [= <-]. destruct (Hof p ltac:(lia) _ Hw) as [_ Hu].
      destruct (Hfree _ (Hnf q ltac:(lia))). congruence.
    + rewrite (Hold q), (Hnew p) by lia. intros [= <-] Hw. destruct (Hof q ltac:(lia) _ Hw) as [_ Hu].
      destruct (Hfree _ (Hnf p ltac:(lia))). congruence.
    + rewrite !Hnew by lia. intros [= <-] [= ?]. lia.
Qed.

(** The break after the frames are in place, before the new bytes are cleared. *)
Definition grown (s s' : kheap) (n : Z) : Prop :=
  kheap_ok s' /\ kernel_heap_current s' = kernel_heap_current s + n /\ around s s' /\
  forall x, ~ kernel_heap_current s <= x < kernel_heap_current s + n -> heap_view s' x = heap_view s x.

Lemma grow_in_page s n :
  kheap_ok s -> 0 < n <= kernel_remaining_from_last_used s ->
  grown s (with_current (kernel_heap_current s + n) (with_remaining (kernel_remaining_from_last_used s - n) s)) n.
Proof.
  intros Hok Hn. pose proof Hok as [P Tb Dr L H R E G].
  assert (forall a b, a + n + (b - n) = a + b) as Hsum by (intros; lia).
  split_and!; [|done| |].
  - split; cbn; rewrite ?Hsum; try done; lia.
  - apply around_same; [done|]. unfold heap_limit. cbn. lia.
  - intros x Hx. unfold heap_view. cbn. range_cases.
Qed.

Lemma heap_end s : kheap_ok s ->
  div_ceil (kernel_heap_current s) PMM_FRAME_SIZE * PMM_FRAME_SIZE =
  kernel_heap_current s + kernel_remaining_from_last_used s.
Proof.
  intros [_ _ _ L H R E _]. unfold PMM_FRAME_SIZE. pose proof (div_ceil_spec (kernel_heap_current s) 4096 ltac:(lia)).
  Z.to_euclidean_division_equations. nia.
Qed.

Lemma grow_pages s n r p' v cnt :
  kheap_ok s -> cnt = div_ceil (n - kernel_remaining_from_last_used s) 4096 ->
  kernel_remaining_from_last_used s < n -> kernel_heap_current s + n <= KERNEL_HEAP_TOP ->
  grants (frames (kvm s)) cnt r p' ->
  let page := kernel_heap_current s + kernel_remaining_from_last_used s in
  let s0 := with_frames p' (kvm s) in
  paging (current_dir (kvm s)) v -> frames v = p' -> tables_same s0 v -> data_kept s0 v ->
  (forall va, is_u32 va -> page_walk v va =
     if in_range page (4096 * cnt) va then Some (r + 4096 * ((va - page) / 4096)) else page_walk s0 va) ->
  grown s (mk_kheap v (kernel_heap_current s + n) (page + 4096 * cnt - (kernel_heap_current s + n))) n.
Proof.
  intros Hok Hcnt Hn Htop Hgr page s0 Pv Fv Tv Kv Wv. pose proof Hok as [P Tb Dr L H R E G].
  pose proof (div_ceil_spec (n - kernel_remaining_from_last_used s) 4096 ltac:(lia)) as Hdc. rewrite <- Hcnt in Hdc.
  pose proof Tv as (_ & Tcd & Tp). cbn in Tcd. fold page in H, E, G.
  assert (page = 4096 * (page / 4096)) as Hpage by (Z.to_euclidean_division_equations; lia).
  assert (0 <= page / 4096 /\ page / 4096 + cnt <= KERNEL_HEAP_TOP / 4096 /\ 0 < cnt) as (Hq & Hq2 & Hc0).
  { unfold page, KERNEL_HEAP_TOP, KERNEL_HEAP_BOTTOM in *. Z.to_euclidean_division_equations. lia. }
  assert (page + 4096 * cnt <= KERNEL_HEAP_TOP) as Htop'
    by (unfold KERNEL_HEAP_TOP in *; Z.to_euclidean_division_equations; lia).
  split_and!; [|done| |].
  - split; cbn; rewrite ?Tcd; try done.
    + intros k Hk. rewrite Tp by lia. by apply Tb.
    + unfold KERNEL_HEAP_BOTTOM in *. lia.
    + unfold page in *. lia.
    + unfold page in *. lia.
    + unfold page. Z.to_euclidean_division_equations. lia.
    + replace ((kernel_heap_current s + n + (page + 4096 * cnt - (kernel_heap_current s + n))) / 4096)
        with (page / 4096 + cnt) by (Z.to_euclidean_division_equations; lia).
      unfold KERNEL_HEAP_TOP, KERNEL_HEAP_BOTTOM in *.
      eapply (heap_pages_grow _ (kvm s) v p'); [exact P|exact G|exact Hgr| | |lia|done|exact Tv|..].
      * Z.to_euclidean_division_equations. lia.
      * Z.to_euclidean_division_equations. lia.
      * intros q Hq'. rewrite Wv by (unfold is_u32; Z.to_euclidean_division_equations; lia). range_cases.
      * intros q Hq'. rewrite Wv by (unfold is_u32; Z.to_euclidean_division_equations; lia).
        range_cases. do 2 f_equal. Z.to_euclidean_division_equations. lia.
  - eapply (around_grow s _ r p' cnt); try done. unfold heap_limit. cbn. unfold page. lia.
  - intros x Hx. unfold heap_view. cbn.
    destruct (Z.lt_ge_cases x KERNEL_HEAP_BOTTOM) as [|Hb]; [range_cases|].
    destruct (Z.lt_ge_cases x (kernel_heap_current s)) as [Hlt|]; [|range_cases].
    range_cases. destruct (heap_mapped s x Hok) as (Hux & f & Hw & Hm & _); [lia|].
    destruct (kheap_data s _ f Hok Hm) as (Hfa & Hfu & Hft).
    rewrite Wv by done. range_cases. change (page_walk s0 x) with (page_walk (kvm s) x). rewrite Hw. f_equal.
    apply (Kv f (x mod 4096)); [done|apply Z.mod_pos_bound; lia| |done].
    apply (gr_keep _ _ _ _ Hgr); [apply Z.div_pos; [apply Hfa|lia]|done].
Qed.

(** The mapping phase of [sbrk] for more bytes than the last page has left. *)
Lemma sbrk_new_pages s n r p' :
  let rem := kernel_remaining_from_last_used s in
  kheap_ok s -> rem < n -> kernel_heap_current s + n <= KERNEL_HEAP_TOP ->
  grants (frames (kvm s)) (div_ceil (n - rem) 4096) r p' ->
  exists s', (physical_addr ← on_vm (on_pmm (pmm_alloc_blocks (div_ceil (u32 (n - rem)) PMM_FRAME_SIZE)));
     page_addr ← on_vm (sbrk_map (u32 (div_ceil (kernel_heap_current s) PMM_FRAME_SIZE * PMM_FRAME_SIZE))
                           physical_addr (u32 (kernel_heap_current s + n)) sbrk_fuel);
     modify (with_remaining (u32 (page_addr - u32 (kernel_heap_current s + n))))) s = Ok (tt, s') /\
    grown s (with_current (kernel_heap_current s + n) s') n.
Proof.
  intros rem Hok Hn Htop Hgr. pose proof Hok as [P Tb Dr L H R E G].
  rewrite heap_end by done. set (page := kernel_heap_current s + kernel_remaining_from_last_used s) in *.
  assert (is_u32 (n - rem) /\ is_u32 page /\ is_u32 (kernel_heap_current s + n)) as (U1 & U2 & U3)
    by (unfold page, rem, is_u32, KERNEL_HEAP_TOP, KERNEL_HEAP_BOTTOM in *; lia).
  rewrite !(u32_small (n - rem)), !(u32_small page), !(u32_small (kernel_heap_current s + n)) by done.
  change PMM_FRAME_SIZE with 4096. set (cnt := div_ceil (n - rem) 4096) in *.
  pose proof (div_ceil_spec (n - rem) 4096 ltac:(lia)) as Hdc. fold cnt in Hdc.
  assert (0 < cnt) by lia. set (s0 := with_frames p' (kvm s)).
  erewrite bind_step by (apply zoom_vm, zoom_ok; exact (gr_run _ _ _ _ Hgr)). fold s0.
  assert (paging (current_dir (kvm s)) s0) as P0
    by (apply paging_frames; [done|apply Hgr|apply (gr_keep _ _ _ _ Hgr)]).
  assert (page + 4096 * cnt <= KERNEL_HEAP_TOP) as Htop'.
  { unfold page, rem, KERNEL_HEAP_TOP in *. Z.to_euclidean_division_equations. lia. }
  destruct (sbrk_map_ok (current_dir (kvm s)) (Z.to_nat cnt) page r (kernel_heap_current s + n) sbrk_fuel s0)
    as (v & E2 & Pv & Fv & Tv & Kv & Wv); rewrite ?Z2Nat.id by lia; try done; try (unfold page, rem in *; lia).
  { apply Hgr. }
  { apply Hgr. }
  { unfold sbrk_fuel, page, KERNEL_HEAP_TOP, KERNEL_HEAP_BOTTOM in *. apply Z2Nat.inj_le; lia. }
  rewrite Z2Nat.id in E2 by lia. setoid_rewrite Z2Nat.id in Wv; [|lia].
  erewrite bind_step by (apply (zoom_vm _ (with_kvm s0 s)); exact E2). eexists. split; [reflexivity|].
  rewrite u32_small by (unfold is_u32, page, rem, KERNEL_HEAP_TOP in *; lia).
  exact (grow_pages s n r p' v cnt Hok eq_refl Hn Htop Hgr Pv Fv Tv Kv Wv).
Qed.

Lemma owns_heap s a n :
  kheap_ok s -> KERNEL_HEAP_BOTTOM <= a -> a + n <= kernel_heap_current s -> owns s a n.
Proof.
  intros Hok Ha Hn x Hx. cbn. unfold heap_view. pose proof Hok as [_ _ _ _ _ R _ _].
  destruct (heap_mapped s x Hok) as (_ & f & -> & _); [lia|].
  range_cases.
Qed.

Lemma kernel_sbrk_ok s n :
  kheap_ok s -> 0 < n -> heap_room (heap_rest s) n ->
  exists s', kernel_sbrk n s = Ok (kernel_heap_current s, s') /\ kheap_ok s' /\
    kernel_heap_current s' = kernel_heap_current s + n /\ around s s' /\
    forall x, heap_view s' x = if in_range (kernel_heap_current s) n x then Some 0 else heap_view s x.
Proof.
  intros Hok Hn [Htop Hff]. pose proof Hok as [P Tb Dr L H R E G]. unfold kernel_sbrk.
  assert (is_u32 (kernel_heap_current s + n)) as Hu
    by (unfold is_u32, KERNEL_HEAP_TOP, KERNEL_HEAP_BOTTOM in *; lia).
  destruct (Z.eqb_spec n 0); [lia|]. do 2 erewrite bind_step by reflexivity. rewrite !(u32_small (_ + n)) by done.
  assert (exists s', (if n <=? kernel_remaining_from_last_used s
     then modify (with_remaining (u32 (kernel_remaining_from_last_used s - n)))
     else
       physical_addr ← on_vm (on_pmm (pmm_alloc_blocks (div_ceil (u32 (n - kernel_remaining_from_last_used s)) PMM_FRAME_SIZE)));
       page_addr ← on_vm (sbrk_map (u32 (div_ceil (kernel_heap_current s) PMM_FRAME_SIZE * PMM_FRAME_SIZE))
                             physical_addr (kernel_heap_current s + n) sbrk_fuel);
       modify (with_remaining (u32 (page_addr - (kernel_heap_current s + n))))) s = Ok (tt, s') /\
    grown s (with_current (kernel_heap_current s + n) s') n) as (s1 & E1 & Hok1 & Hc1 & A1 & V1).
  { destruct (Z.leb_spec n (kernel_remaining_from_last_used s)).
    - eexists. split; [reflexivity|]. rewrite u32_small by (unfold is_u32; lia). by apply grow_in_page.
    - destruct (frames_grant (frames (kvm s)) (div_ceil (n - kernel_remaining_from_last_used s) 4096)) as (r & p' & Hgr);
        [apply P|pose proof (div_ceil_spec (n - kernel_remaining_from_last_used s) 4096 ltac:(lia)); lia|by apply Hff|].
      pose proof (sbrk_new_pages s n r p' Hok ltac:(lia) Htop Hgr) as Hx. cbv zeta in Hx.
      rewrite !(u32_small (_ + n)) in Hx by done. exact Hx. }
  rewrite (bind_step _ _ _ _ _ E1). erewrite bind_step by reflexivity.
  destruct (@memset_ok kheap kheap_mem (around_laws s) (kernel_heap_current s) 0 n
    (with_current (kernel_heap_current s + n) s1) (conj Hok1 A1)) as (s2 & E2 & [Hok2 A2] & Hr2 & V2);
    [lia|apply (owns_heap _ _ n Hok1); cbn; [done|lia]|].
  rewrite (bind_step _ _ _ _ _ E2). exists s2. split_and!; [done|done| |done|].
  - cbn in Hr2. unfold heap_rest in Hr2. cbn in Hr2. congruence.
  - intros x. cbn in V2. rewrite V2. range_cases. by rewrite V1.
Qed.

(** Any free frame will do for one page. *)
Lemma frames_one p :
  pmm_wf p -> max_frames p < 2 ^ 20 -> used_frames p < max_frames p ->
  (exists f, 0 <= f < scanned p /\ frame_used p f = false) -> frames_for p 1.
Proof.
  intros Hwf H20 Hroom (f0 & Hf0 & Hfree0). pose proof Hwf as [W Hmax Hlen Hu Hz].
  pose proof (scanned_bounds p ltac:(lia)) as Hsc.
  destruct (first_free_found p f0 Hwf H20 Hf0 Hfree0) as (r & Hr & Hfree & Hleast & _).
  split; [done|lia|lia|]. exists r. split_and!; [lia|lia|lia| |].
  - intros c Hc. by replace c with r by lia.
  - intros g Hg [Hg0 _]. specialize (Hleast g Hg). unfold frame_used in Hleast. congruence.
Qed.

(** C14: [sbrk.c] implements the heap interface. On a kernel heap whose pages
    are mapped to distinct frames, [sbrk n] returns the old break, extends the
    heap by exactly [n] zeroed bytes, changes no byte already handed out, and
    keeps the invariant. It needs room for [n] bytes: the heap stays below its
    top, and, when the last page does not hold them, the physical memory has
    the free frames side by side, with no earlier frame at which
    [pmm_alloc_blocks] would take a frame in use for a free one
    ([frames_for]; such a frame exists after frames have been freed). The rest
    of the address space is left alone ([around]): the directory, the
    translation of every page but those the heap gains, the frames in use, and
    the data of the frames that are not the heap's; the pages gained are on
    frames that were free. *)
Theorem sbrk_correct s n :
  kheap_ok s -> 0 < n -> heap_room (heap_rest s) n ->
  exists s', kernel_sbrk n s = Ok (kernel_heap_current s, s') /\ kheap_ok s' /\
    kernel_heap_current s' = kernel_heap_current s + n /\ around s s' /\
    forall x, heap_view s' x = if in_range (kernel_heap_current s) n x then Some 0 else heap_view s x.
Proof. apply kernel_sbrk_ok. Qed.

Lemma kheap_range s : kheap_ok s -> KERNEL_HEAP_BOTTOM <= kernel_heap_current s < 2 ^ 32.
Proof. intros [_ _ _ L H R _ _]. unfold KERNEL_HEAP_TOP, KERNEL_HEAP_BOTTOM in *. lia. Qed.

Lemma kheap_owned s x : kheap_ok s ->
  is_Some (heap_view s x) <-> KERNEL_HEAP_BOTTOM <= x < kernel_heap_current s.
Proof.
  intros Hok. split.
  - intros [b Hb]. apply heap_view_range, in_range_spec in Hb. lia.
  - intros Hx. apply (owns_heap s KERNEL_HEAP_BOTTOM (kernel_heap_current s - KERNEL_HEAP_BOTTOM)); [done|lia..].
Qed.

#[export] Program Instance kheap_heap_laws : HeapLaws kheap := {
  heap_bottom := KERNEL_HEAP_BOTTOM;
  brk r := r.1.2;
  room := heap_room;
}.
Next Obligation. done. Qed.
Next Obligation. exact kheap_range. Qed.
Next Obligation. done. Qed.
Next Obligation. exact kheap_owned. Qed.
Next Obligation. done. Qed.
Next Obligation.
  intros s n Hok Hn Hr. destruct (kernel_sbrk_ok s n Hok Hn Hr) as (s' & ? & ? & ? & _ & ?). eauto.
Qed.

Program Definition around_heap_laws (h : kheap) : @HeapLaws kheap kheap_mem kheap_heap (around_laws h) := {|
  heap_bottom := KERNEL_HEAP_BOTTOM;
  brk r := r.1.2;
  room := heap_room;
|}.
Next Obligation. done. Qed.
Next Obligation. intros h s [Hok _]. by apply kheap_range. Qed.
Next Obligation. done. Qed.
Next Obligation. intros h s x [Hok _]. by apply kheap_owned. Qed.
Next Obligation. done. Qed.
Next Obligation.
  intros h s n [Hok A] Hn Hr. destruct (kernel_sbrk_ok s n Hok Hn Hr) as (s' & E & Hok' & Hc & A' & V).
  exists s'. split_and!; [done|by split; [|eapply around_trans]|done|done].
Qed.

(** ** A kernel heap before its first use

    Directory at frame 2, the 255 kernel tables at frames 16 to 270, the
    directory mapped at [0xC0002000]; 512 frames of memory. *)
Definition example_kernel : vm :=
  let pd := foldr (fun i m => wr32 m (0x2000 + 4 * (768 + i)) (4096 * (16 + i) + 3)) ∅ (seqZ 0 255) in
  mk_vm (wr32 (wr32 pd (0x2000 + 4 * 1023) 0x2003) (4096 * 16 + 4 * 2) 0x2003)
    0x2000 false ∅
    (mk_pmm (replicate 8 0xffffffff ++ [0xffff] ++ replicate 7 0) 512 272 (512 * 4096) 64) 0xC0002000.

Definition example_kheap : kheap := mk_kheap example_kernel KERNEL_HEAP_BOTTOM 0.

Definition present_list (s : vm) : list Z :=
  filter (fun i => is_page_enabled (pde s i) = true) (seqZ 0 1024).

Lemma present_list_elem s i :
  0 <= i < 1024 -> is_page_enabled (pde s i) = true -> i ∈ present_list s.
Proof. intros Hi He. apply list_elem_of_filter. split; [done|]. apply elem_of_seqZ. lia. Qed.

Lemma NoDup_fmap_eq {A B} (f : A -> B) (l : list A) x y :
  NoDup (f <$> l) -> x ∈ l -> y ∈ l -> f x = f y -> x = y.
Proof.
  intros Hnd Hx Hy He. apply list_elem_of_lookup in Hx as [i Hi], Hy as [j Hj].
  assert (i = j) as ->; [|congruence].
  eapply NoDup_lookup; [exact Hnd|rewrite list_lookup_fmap, Hi; reflexivity|].
  rewrite list_lookup_fmap, Hj. cbn. by rewrite He.
Qed.

Lemma example_kernel_paging : paging 0xC0002000 example_kernel.
Proof.
  split.
  - repeat apply wr32_ok. apply map_Forall_empty.
  - done.
  - split; [zdec|done].
  - split; vm_compute; reflexivity.
  - intros i j Hi Hj Ei Ej Ht. eapply (NoDup_fmap_eq (table example_kernel) (present_list example_kernel));
      [|by apply present_list_elem..|done]. apply (bool_decide_unpack _). vm_compute. exact I.
  - intros i Hi Ei. apply present_list_elem in Ei; [|done].
    assert (Forall (fun i => frame_used (frames example_kernel) (table example_kernel i / 4096) = true)
      (present_list example_kernel)) as HF by (apply (bool_decide_unpack _); vm_compute; exact I).
    rewrite list.Forall_forall in HF. exact (HF i Ei).
  - split_and!; [split; [zdec|done]|done|vm_compute; reflexivity].
  - intros p f Hp. discriminate Hp.
  - split; [repeat constructor; zdec|cbn; lia|cbn; lia|zdec|vm_compute; reflexivity].
Qed.

Lemma example_kheap_ok : kheap_ok example_kheap.
Proof.
  split; cbn [kvm kernel_heap_current kernel_remaining_from_last_used example_kheap].
  - exact example_kernel_paging.
  - intros k Hk.
    assert (Forall (fun k => is_page_enabled (pde example_kernel k) = true) (seqZ 768 255)) as HF
      by (apply (bool_decide_unpack _); vm_compute; exact I).
    rewrite list.Forall_forall in HF. refine (HF k _). apply elem_of_seqZ. lia.
  - left. done.
  - done.
  - done.
  - lia.
  - done.
  - rewrite Z.add_0_r. split; intros; lia.
Qed.

Lemma sbrk_correct_witness :
  exists s', kernel_sbrk 100 example_kheap = Ok (KERNEL_HEAP_BOTTOM, s') /\
    kernel_heap_current s' = KERNEL_HEAP_BOTTOM + 100 /\
    heap_view s' (KERNEL_HEAP_BOTTOM + 99) = Some 0 /\ heap_view s' (KERNEL_HEAP_BOTTOM + 100) = None.
Proof.
  destruct (sbrk_correct example_kheap 100) as (s' & E & _ & C & _ & V).
  - exact example_kheap_ok.
  - lia.
  - split; [zdec|]. intros _. apply frames_one.
    + apply (pg_pmm _ _ example_kernel_paging).
    + zdec.
    + zdec.
    + exists 300. split; [split; zdec|vm_compute; reflexivity].
  - exists s'. split_and!; [exact E|exact C|..]; rewrite V; vm_compute; reflexivity.
Defined.
