(* ===== verification/Malloc.v ===== *)
(** * The kernel heap allocator ([memory/malloc.c])

    A singly linked list of blocks, each a 16-byte header ([struct block_meta]:
    [size] at 0, [next] at 4, [free] at 8, [magic] at 12) followed by its
    payload. The list is searched first fit; a block that is too large is
    split; when none fits, [sbrk] extends the heap. The code runs against the
    interface of [Heap] only. *)
From Stdlib Require Import ZArith Lia Bool.
From stdpp Require Import base list gmap option.
From S2P Require Import Prelude Mem Heap.

Open Scope Z_scope.

Definition BLOCK_MAGIC : Z := 0x464E.
Definition sizeof_block_meta : Z := 16.
Definition MAX_BLOCK : Z := 0x2000000.
Definition KHEAP_LIMIT : Z := 0xF0000000.

(** The heap and the file-scope variable [kblocklist]. *)
Record mstate (S : Type) := mk_mstate { kblocklist : Z; heap : S }.
Arguments mk_mstate {S} _ _.
Arguments kblocklist {S} _.
Arguments heap {S} _.

Definition on_heap {S A} : M S A -> M (mstate S) A :=
  zoom heap (fun h s => mk_mstate (kblocklist s) h).

Section malloc.
Context {S : Type} `{Heap S}.
(** Rounds for the loops over the block list. *)
Context (fuel : nat).

Definition ld_size (b : Z) : M (mstate S) Z := on_heap (load32 b).
Definition ld_next (b : Z) : M (mstate S) Z := on_heap (load32 (u32 (b + 4))).
Definition ld_free (b : Z) : M (mstate S) bool :=
  f ← on_heap (load8 (u32 (b + 8))); mret (negb (f =? 0)).
Definition ld_magic (b : Z) : M (mstate S) Z := on_heap (load32 (u32 (b + 12))).
Definition st_size (b v : Z) : M (mstate S) unit := on_heap (store32 b v).
Definition st_next (b v : Z) : M (mstate S) unit := on_heap (store32 (u32 (b + 4)) v).
Definition st_free (b : Z) (v : bool) : M (mstate S) unit :=
  on_heap (store8 (u32 (b + 8)) (if v then 1 else 0)).
Definition st_magic (b v : Z) : M (mstate S) unit := on_heap (store32 (u32 (b + 12)) v).

Definition assert_kblock_valid (block : Z) : M (mstate S) unit :=
  magic ← ld_magic block;
  if negb (magic =? BLOCK_MAGIC) then mfail Assert
  else
    size ← ld_size block;
    if MAX_BLOCK <? size then mfail Assert else mret tt.

(** [current->free && current->size >= size] *)
Definition block_fits (current size : Z) : M (mstate S) bool :=
  free ← ld_free current;
  if free : bool then bsize ← ld_size current; mret (size <=? bsize) else mret false.

(** The loop of [find_free_block]; the result is [(current, *last)]. *)
Fixpoint find_loop (current last size : Z) (n : nat) : M (mstate S) (Z * Z) :=
  if current =? 0 then mret (0, last)
  else
    fits ← block_fits current size;
    if fits : bool then mret (current, last)
    else
      match n with
      | O => mfail Fuel
      | Datatypes.S n' =>
          assert_kblock_valid current ;;
          next ← ld_next current;
          (if next =? 0 then mret tt else assert_kblock_valid next) ;;
          find_loop next current size n'
      end.

Definition find_free_block (last size : Z) : M (mstate S) (Z * Z) :=
  current ← gets kblocklist;
  find_loop current last size fuel.

Definition split_block (block size : Z) : M (mstate S) unit :=
  bsize ← ld_size block;
  if u32 (size + sizeof_block_meta) <? bsize then
    let splited_block := u32 (block + sizeof_block_meta + size) in
    st_free splited_block true ;;
    st_magic splited_block BLOCK_MAGIC ;;
    bsize ← ld_size block;
    st_size splited_block (u32 (bsize - size - sizeof_block_meta)) ;;
    next ← ld_next block;
    st_next splited_block next ;;
    st_size block size ;;
    st_next block splited_block
  else mret tt.

Definition request_space (last size : Z) : M (mstate S) Z :=
  block ← on_heap (sbrk (u32 (size + sizeof_block_meta)));
  (if last =? 0 then mret tt else st_next last block) ;;
  st_size block size ;;
  st_next block 0 ;;
  st_free block false ;;
  st_magic block BLOCK_MAGIC ;;
  mret block.

(** The [if (kblocklist) ... else ...] of [kmalloc]: a block for [size] bytes. *)
Definition pick_block (size : Z) : M (mstate S) Z :=
  head ← gets kblocklist;
  if negb (head =? 0) then
    '(block, last) ← find_free_block head size;
    if negb (block =? 0) then
      st_free block false ;;
      split_block block size ;;
      mret block
    else request_space last size
  else
    block ← request_space 0 size;
    modify (fun s => mk_mstate block (heap s)) ;;
    mret block.

Definition kmalloc (size : Z) : M (mstate S) Z :=
  if size <=? 0 then mret 0
  else
    let size := ALIGN_UP size 4 in
    block ← pick_block size;
    assert_kblock_valid block ;;
    if negb (block =? 0) then mret (u32 (block + sizeof_block_meta)) else mret 0.

Definition kcalloc (n size : Z) : M (mstate S) Z :=
  block ← kmalloc (u32 (n * size));
  (if negb (block =? 0) then on_heap (memset block 0 (u32 (n * size))) else mret tt) ;;
  mret block.

Definition get_block_ptr (ptr : Z) : Z := u32 (ptr - sizeof_block_meta).

Definition kfree (ptr : Z) : M (mstate S) unit :=
  if ptr =? 0 then mret tt
  else
    let block := get_block_ptr ptr in
    assert_kblock_valid block ;;
    st_free block true.

(** [while (!last->next) last = last->next;] *)
Fixpoint align_last (last : Z) (n : nat) : M (mstate S) Z :=
  next ← ld_next last;
  if next =? 0 then
    match n with
    | O => mfail Fuel
    | Datatypes.S n' => align_last next n'
    end
  else mret last.

(** [while (padding_size <= KERNEL_HEAP_TOP)] *)
Fixpoint align_loop (padding_size required_size size : Z) (n : nat) : M (mstate S) Z :=
  if padding_size <=? KHEAP_LIMIT then
    if required_size <? padding_size then
      head ← gets kblocklist;
      last ← align_last head fuel;
      block ← request_space last (padding_size - required_size);
      mret (u32 (block + sizeof_block_meta))
    else
      match n with
      | O => mfail Fuel
      | Datatypes.S n' => align_loop (u32 (padding_size + size)) required_size size n'
      end
  else mret 0.

Definition kalign_heap (size : Z) : M (mstate S) Z :=
  heap_addr ← on_heap (sbrk 0);
  if heap_addr mod size =? 0 then mret 0
  else
    let padding_size := u32 (div_ceil heap_addr size * size - heap_addr) in
    align_loop padding_size (sizeof_block_meta * 2) size fuel.

Definition krealloc (ptr size : Z) : M (mstate S) Z :=
  if (ptr =? 0) && (size =? 0) then kfree ptr ;; mret 0
  else if ptr =? 0 then kcalloc size 1
  else
    newptr ← kcalloc size 1;
    on_heap (memcpy newptr ptr size) ;;
    mret newptr.
End malloc.

(** ** Memory as a function, and what the accessors do to it *)

Definition vw (v : Z -> option Z) (a : Z) : option Z :=
  match v a, v (a + 1), v (a + 2), v (a + 3) with
  | Some b0, Some b1, Some b2, Some b3 => Some (le32 b0 b1 b2 b3)
  | _, _, _, _ => None
  end.
Definition upd8 (v : Z -> option Z) (a b x : Z) : option Z := if x =? a then Some (u8 b) else v x.
Definition upd32 (v : Z -> option Z) (a w x : Z) : option Z :=
  if in_range a 4 x then Some (byte_of w (x - a)) else v x.

Lemma vw_ext v v' a : (forall x, a <= x < a + 4 -> v' x = v x) -> vw v' a = vw v a.
Proof. intros E. unfold vw. by rewrite !E by lia. Qed.

Lemma vw_upd32_eq v a w : is_u32 w -> vw (upd32 v a w) a = Some w.
Proof.
  intros Hw. rewrite <- (le32_byte_of w Hw) at 2. unfold vw, upd32.
  replace (in_range a 4 a) with true by (symmetry; apply in_range_spec; lia).
  replace (in_range a 4 (a + 1)) with true by (symmetry; apply in_range_spec; lia).
  replace (in_range a 4 (a + 2)) with true by (symmetry; apply in_range_spec; lia).
  replace (in_range a 4 (a + 3)) with true by (symmetry; apply in_range_spec; lia).
  do 2 f_equal; f_equal; lia.
Qed.

Lemma vw_upd32_ne v a w b : a + 4 <= b \/ b + 4 <= a -> vw (upd32 v a w) b = vw v b.
Proof. intros D. apply vw_ext. intros x Hx. unfold upd32. range_cases. Qed.

Lemma vw_upd8_ne v a w b : a < b \/ b + 4 <= a -> vw (upd8 v a w) b = vw v b.
Proof. intros D. apply vw_ext. intros x Hx. unfold upd8. range_cases. Qed.

Lemma upd8_eq v a w : upd8 v a w a = Some (u8 w).
Proof. unfold upd8. by rewrite Z.eqb_refl. Qed.

Lemma upd8_ne v a w x : x <> a -> upd8 v a w x = v x.
Proof. intros Hx. unfold upd8. by destruct (Z.eqb_spec x a). Qed.

Lemma upd32_ne v a w x : ~ a <= x < a + 4 -> upd32 v a w x = v x.
Proof. intros Hx. unfold upd32. range_cases. Qed.

Lemma upd32_owned v a w x : is_Some (v x) -> is_Some (upd32 v a w x).
Proof. intros Hx. unfold upd32. destruct (in_range a 4 x); [by eexists|done]. Qed.

Lemma upd8_owned v a w x : is_Some (v x) -> is_Some (upd8 v a w x).
Proof. intros Hx. unfold upd8. destruct (x =? a); [by eexists|done]. Qed.

Create HintDb views.
#[export] Hint Resolve upd32_owned upd8_owned : views.

(** Reading through updates at other addresses. *)
Ltac vread :=
  repeat first
    [ rewrite vw_upd32_eq by (assumption || (unfold is_u32 in *; lia))
    | rewrite vw_upd32_ne by lia
    | rewrite vw_upd8_ne by lia
    | rewrite upd8_eq
    | rewrite upd8_ne by lia
    | rewrite upd32_ne by lia ].

Section accessors.
Context {S : Type} `{HeapLaws S}.

(** The heap holds [v], and everything else of the state is [k] and [r]. *)
Record holds (st : mstate S) (k : Z) (r : rest_type) (v : Z -> option Z) : Prop := {
  h_head : kblocklist st = k;
  h_ok : mem_ok (heap st);
  h_rest : rest (heap st) = r;
  h_view : forall x, view (heap st) x = v x;
}.

Lemma holds_ext st k r v v' : (forall x, v x = v' x) -> holds st k r v -> holds st k r v'.
Proof. intros E []. split; try done. intros x. by rewrite <- E. Qed.

Lemma holds_u32 st k r v x : holds st k r v -> is_Some (v x) -> is_u32 x.
Proof. intros [_ Hok _ V] [b Hb]. rewrite <- V in Hb. by eapply view_u32. Qed.

Lemma on_heap_ok {A} (m : M S A) st a h :
  m (heap st) = Ok (a, h) -> on_heap m st = Ok (a, mk_mstate (kblocklist st) h).
Proof. intros E. unfold on_heap, zoom. by rewrite E. Qed.

Lemma holds_after st k r v h f :
  holds st k r v -> leaves (heap st) h f -> holds (mk_mstate (kblocklist st) h) k r f.
Proof. intros [Hk _ Hr _] (? & Hr' & ?). split; cbn; try done. congruence. Qed.

Lemma vw_bytes v a w : vw v a = Some w -> exists b0 b1 b2 b3,
  v a = Some b0 /\ v (a + 1) = Some b1 /\ v (a + 2) = Some b2 /\ v (a + 3) = Some b3 /\ w = le32 b0 b1 b2 b3.
Proof.
  unfold vw. destruct (v a), (v (a + 1)), (v (a + 2)), (v (a + 3)); try done. intros [= <-]. eauto 10.
Qed.

Lemma vw_owned v a w k : vw v a = Some w -> 0 <= k < 4 -> is_Some (v (a + k)).
Proof.
  intros Hw Hk. destruct (vw_bytes v a w Hw) as (b0 & b1 & b2 & b3 & ? & ? & ? & ? & _).
  assert (k = 0 \/ k = 1 \/ k = 2 \/ k = 3) as [->|[->|[->| ->]]] by lia; rewrite ?Z.add_0_r; eauto.
Qed.

Lemma load32_ok st k r v a w :
  holds st k r v -> vw v a = Some w ->
  exists st', on_heap (load32 (u32 a)) st = Ok (w, st') /\ holds st' k r v.
Proof.
  intros Hh Hw. destruct (vw_bytes v a w Hw) as (b0 & b1 & b2 & b3 & H0' & H1' & H2' & H3' & ->).
  rewrite u32_small by (eapply holds_u32; [exact Hh|eauto]). pose proof Hh as [_ Hok _ V].
  destruct (load32_law (heap st) a b0 b1 b2 b3 Hok) as (h & E & L & R & V'); [by rewrite V..|].
  eexists. split; [by apply on_heap_ok|]. eapply holds_after; [done|]. split_and!; [done..|].
  intros x. by rewrite V'.
Qed.

Lemma load8_ok st k r v a b :
  holds st k r v -> v a = Some b -> exists st', on_heap (load8 (u32 a)) st = Ok (b, st') /\ holds st' k r v.
Proof.
  intros Hh Hb. rewrite u32_small by (eapply holds_u32; [exact Hh|eauto]). pose proof Hh as [_ Hok _ V].
  destruct (load8_law (heap st) a b Hok) as (h & E & L & R & V'); [by rewrite V|].
  eexists. split; [by apply on_heap_ok|]. eapply holds_after; [done|]. split_and!; [done..|].
  intros x. by rewrite V'.
Qed.

Lemma store32_ok st k r v a w :
  holds st k r v -> (forall i, 0 <= i < 4 -> is_Some (v (a + i))) ->
  exists st', on_heap (store32 (u32 a) w) st = Ok (tt, st') /\ holds st' k r (upd32 v a w).
Proof.
  intros Hh Ho. pose proof (Ho 0 ltac:(lia)) as Ho0. rewrite Z.add_0_r in Ho0.
  rewrite u32_small by (by eapply holds_u32). pose proof Hh as [_ Hok _ V].
  destruct (store32_law (heap st) a w Hok) as (h & E & L & R & V').
  { intros i Hi. rewrite V. by apply Ho. }
  eexists. split; [by apply on_heap_ok|]. eapply holds_after; [done|]. split_and!; [done..|].
  intros x. rewrite V'. unfold upd32. fold (in_range a 4 x). by rewrite V.
Qed.

Lemma store8_ok st k r v a b :
  holds st k r v -> is_Some (v a) ->
  exists st', on_heap (store8 (u32 a) b) st = Ok (tt, st') /\ holds st' k r (upd8 v a b).
Proof.
  intros Hh [c Hc]. rewrite u32_small by (eapply holds_u32; [exact Hh|eauto]). pose proof Hh as [_ Hok _ V].
  destruct (store8_law (heap st) a c b Hok) as (h & E & L & R & V'); [by rewrite V|].
  eexists. split; [by apply on_heap_ok|]. eapply holds_after; [done|]. split_and!; [done..|].
  intros x. rewrite V'. unfold upd8. by rewrite V.
Qed.
End accessors.

(** ** The block list *)

Record blk := mk_blk { b_addr : Z; b_size : Z; b_free : bool }.

Definition block_at (v : Z -> option Z) (b : blk) (next : Z) : Prop :=
  vw v (b_addr b) = Some (b_size b) /\ vw v (b_addr b + 4) = Some next /\
  v (b_addr b + 8) = Some (if b_free b then 1 else 0) /\ vw v (b_addr b + 12) = Some BLOCK_MAGIC.

Definition b_end (b : blk) : Z := b_addr b + sizeof_block_meta + b_size b.

Definition blk_ok (b : blk) : Prop :=
  b_addr b mod 4 = 0 /\ 0 < b_size b <= MAX_BLOCK /\ b_size b mod 4 = 0.

(** The address of the first block of a list that goes on at [nxt]. *)
Definition head_or (bs : list blk) (nxt : Z) : Z :=
  match bs with [] => nxt | b :: _ => b_addr b end.

(** The blocks [bs], in address order and disjoint, lie in [[lo, hi)]; each is
    followed by the next and the last by [nxt]. *)
Fixpoint seg (v : Z -> option Z) (lo hi : Z) (bs : list blk) (nxt : Z) : Prop :=
  match bs with
  | [] => lo <= hi
  | b :: bs' =>
      lo <= b_addr b /\ blk_ok b /\ block_at v b (head_or bs' nxt) /\ seg v (b_end b) hi bs' nxt
  end.

Lemma seg_le v lo hi bs nxt : seg v lo hi bs nxt -> lo <= hi.
Proof.
  revert lo. induction bs as [|b bs IH]; intros lo; cbn; [done|].
  intros (? & (_ & ? & _) & _ & Hs). apply IH in Hs. unfold b_end, sizeof_block_meta in *. lia.
Qed.

Lemma seg_app v lo hi l1 l2 nxt :
  seg v lo hi (l1 ++ l2) nxt <->
  exists mid, seg v lo mid l1 (head_or l2 nxt) /\ seg v mid hi l2 nxt.
Proof.
  revert lo. induction l1 as [|b l1 IH]; intros lo; cbn.
  - split.
    + intros Hs. exists lo. split; [lia|done].
    + intros (mid & Hle & Hs). destruct l2 as [|b l2]; cbn in *; [lia|]. intuition lia.
  - assert (head_or (l1 ++ l2) nxt = head_or l1 (head_or l2 nxt)) as -> by by destruct l1.
    rewrite IH. split.
    + intros (? & ? & ? & mid & ? & ?). exists mid. auto.
    + intros (mid & (? & ? & ? & ?) & ?). eauto 10.
Qed.

(** Only the headers of the blocks matter. *)
Lemma block_at_ext v v' b nxt :
  (forall x, b_addr b <= x < b_addr b + 16 -> v' x = v x) -> block_at v b nxt -> block_at v' b nxt.
Proof.
  intros E (A1 & A2 & A3 & A4). unfold block_at.
  rewrite !(vw_ext v v') by (intros; apply E; lia). rewrite E by lia. done.
Qed.

Lemma seg_ext v v' lo hi bs nxt :
  (forall x, lo <= x < hi -> (exists b, b ∈ bs /\ b_addr b <= x < b_addr b + 16) -> v' x = v x) ->
  seg v lo hi bs nxt -> seg v' lo hi bs nxt.
Proof.
  revert lo. induction bs as [|b bs IH]; intros lo E; cbn; [done|].
  intros (Hlo & Hb & Hat & Hs). pose proof (seg_le _ _ _ _ _ Hs) as Hle.
  assert (b_addr b + 16 < b_end b) by (destruct Hb as (_ & ? & _); unfold b_end, sizeof_block_meta; lia).
  split_and!; [done..| |].
  - eapply block_at_ext; [|exact Hat]. intros x Hx. apply E; [lia|]. exists b. split; [left|done].
  - apply IH; [|done]. intros x Hx (c & Hc & Hxc). apply E; [lia|]. exists c. split; [by right|done].
Qed.

Lemma seg_weaken v lo lo' hi hi' bs nxt :
  lo' <= lo -> hi <= hi' -> seg v lo hi bs nxt -> seg v lo' hi' bs nxt.
Proof.
  revert lo lo'. induction bs as [|b bs IH]; intros lo lo' H1 H2; cbn; [lia|].
  intros (? & ? & ? & Hs). split_and!; [lia|done..|]. by eapply IH.
Qed.

Lemma seg_elem v lo hi bs nxt b :
  seg v lo hi bs nxt -> b ∈ bs -> lo <= b_addr b /\ blk_ok b /\ b_end b <= hi.
Proof.
  revert lo. induction bs as [|c bs IH]; intros lo; cbn; [by intros _ ?%not_elem_of_nil|].
  intros (Hlo & Hc & _ & Hs) [->|Hb]%elem_of_cons.
  - split_and!; [done..|by eapply seg_le].
  - destruct (IH _ Hs Hb) as (? & ? & ?). split_and!; try done. destruct Hc as (_ & ? & _).
    unfold b_end, sizeof_block_meta in *. lia.
Qed.

Lemma seg_block_at v lo hi bs nxt b : seg v lo hi bs nxt -> b ∈ bs -> exists n, block_at v b n.
Proof.
  revert lo. induction bs as [|c bs IH]; intros lo; cbn; [by intros _ ?%not_elem_of_nil|].
  intros (_ & _ & Hat & Hs) [->|Hb]%elem_of_cons; eauto.
Qed.

(** ** The specification: first fit on the list of blocks *)

Definition fits (size : Z) (b : blk) : bool := b_free b && (size <=? b_size b).

(** What is left of a free block from which [size] bytes are taken. *)
Definition take (size : Z) (b : blk) : list blk :=
  if size + sizeof_block_meta <? b_size b then
    [mk_blk (b_addr b) size false;
     mk_blk (b_addr b + sizeof_block_meta + size) (b_size b - size - sizeof_block_meta) true]
  else [mk_blk (b_addr b) (b_size b) false].

(** The list after an allocation, and the address of the chosen block. *)
Fixpoint first_fit (size brk : Z) (bs : list blk) : list blk * Z :=
  match bs with
  | [] => ([mk_blk brk size false], brk)
  | b :: bs' =>
      if fits size b then (take size b ++ bs', b_addr b)
      else let '(r, a) := first_fit size brk bs' in (b :: r, a)
  end.

(** What the search returns: the block, or NULL, and the block before. *)
Fixpoint find_result (size : Z) (bs : list blk) (last : Z) : Z * Z :=
  match bs with
  | [] => (0, last)
  | b :: bs' => if fits size b then (b_addr b, last) else find_result size bs' (b_addr b)
  end.

Definition last_addr (bs : list blk) (d : Z) : Z :=
  match list.last bs with Some b => b_addr b | None => d end.

Lemma first_fit_none size brk bs :
  existsb (fits size) bs = false ->
  first_fit size brk bs = (bs ++ [mk_blk brk size false], brk) /\
  forall d, find_result size bs d = (0, last_addr bs d).
Proof.
  induction bs as [|b bs IH]; cbn; [done|]. intros [Hb Hbs]%orb_false_iff.
  destruct (IH Hbs) as [-> IH2]. rewrite Hb. split; [done|]. intros d. rewrite IH2.
  unfold last_addr. rewrite last_cons. by destruct (list.last bs).
Qed.

Lemma first_fit_some size brk bs :
  existsb (fits size) bs = true ->
  exists l1 b l2, bs = l1 ++ b :: l2 /\ fits size b = true /\
    first_fit size brk bs = (l1 ++ take size b ++ l2, b_addr b) /\
    forall d, exists last, find_result size bs d = (b_addr b, last).
Proof.
  induction bs as [|c bs IH]; cbn; [done|]. destruct (fits size c) eqn:Hc.
  - intros _. exists [], c, bs. split_and!; eauto.
  - intros Hbs. destruct (IH Hbs) as (l1 & b & l2 & -> & Hb & -> & Hfr).
    exists (c :: l1), b, l2. split_and!; eauto.
Qed.

(** ** The code on a heap that holds a block list *)

Section code.
Context {S : Type} `{HeapLaws S}.
Context (fuel : nat).
Implicit Types (st : mstate S).

(** Running one accessor: the next state holds the expected memory. *)
Ltac run lem :=
  let st' := fresh "st" in let E := fresh "E" in let Hh := fresh "Hh" in
  edestruct lem as (st' & E & Hh);
  [eassumption|..|rewrite (bind_step _ _ _ _ _ E); clear E].

Lemma ld_size_ok st k r v a w :
  holds st k r v -> vw v a = Some w -> exists st', ld_size a st = Ok (w, st') /\ holds st' k r v.
Proof.
  intros Hh Hw. unfold ld_size. rewrite <- (u32_small a); [by apply load32_ok|].
  eapply holds_u32; [exact Hh|]. rewrite <- (Z.add_0_r a). eapply vw_owned; [done|lia].
Qed.

Lemma ld_next_ok st k r v a w :
  holds st k r v -> vw v (a + 4) = Some w -> exists st', ld_next a st = Ok (w, st') /\ holds st' k r v.
Proof. apply load32_ok. Qed.

Lemma ld_magic_ok st k r v a w :
  holds st k r v -> vw v (a + 12) = Some w -> exists st', ld_magic a st = Ok (w, st') /\ holds st' k r v.
Proof. apply load32_ok. Qed.

Lemma ld_free_ok st k r v a (f : bool) :
  holds st k r v -> v (a + 8) = Some (if f then 1 else 0) ->
  exists st', ld_free a st = Ok (f, st') /\ holds st' k r v.
Proof.
  intros Hh Hf. unfold ld_free. destruct (load8_ok st k r v (a + 8) _ Hh Hf) as (st' & E & Hh').
  exists st'. rewrite (bind_step _ _ _ _ _ E). by destruct f.
Qed.

Lemma st_size_ok st k r v a w :
  holds st k r v -> (forall i, 0 <= i < 4 -> is_Some (v (a + i))) ->
  exists st', st_size a w st = Ok (tt, st') /\ holds st' k r (upd32 v a w).
Proof.
  intros Hh Ho. unfold st_size. pose proof (Ho 0 ltac:(lia)) as Ho0. rewrite Z.add_0_r in Ho0.
  pose proof (store32_ok st k r v a w Hh Ho) as Hs. rewrite u32_small in Hs by (by eapply holds_u32). done.
Qed.

Lemma st_next_ok st k r v a w :
  holds st k r v -> (forall i, 0 <= i < 4 -> is_Some (v (a + 4 + i))) ->
  exists st', st_next a w st = Ok (tt, st') /\ holds st' k r (upd32 v (a + 4) w).
Proof. apply store32_ok. Qed.

Lemma st_magic_ok st k r v a w :
  holds st k r v -> (forall i, 0 <= i < 4 -> is_Some (v (a + 12 + i))) ->
  exists st', st_magic a w st = Ok (tt, st') /\ holds st' k r (upd32 v (a + 12) w).
Proof. apply store32_ok. Qed.

Lemma st_free_ok st k r v a (f : bool) :
  holds st k r v -> is_Some (v (a + 8)) ->
  exists st', st_free a f st = Ok (tt, st') /\ holds st' k r (upd8 v (a + 8) (if f then 1 else 0)).
Proof. apply store8_ok. Qed.

Lemma valid_ok st k r v b nxt :
  holds st k r v -> block_at v b nxt -> b_size b <= MAX_BLOCK ->
  exists st', assert_kblock_valid (b_addr b) st = Ok (tt, st') /\ holds st' k r v.
Proof.
  intros Hh (A1 & A2 & A3 & A4) Hs. unfold assert_kblock_valid.
  run (ld_magic_ok st k r v (b_addr b)); [done|]. rewrite Z.eqb_refl. cbn [negb].
  run (ld_size_ok st0 k r v (b_addr b)); [done|]. destruct (Z.ltb_spec MAX_BLOCK (b_size b)); [lia|].
  by eexists.
Qed.

Lemma block_fits_ok st k r v b nxt size :
  holds st k r v -> block_at v b nxt ->
  exists st', block_fits (b_addr b) size st = Ok (fits size b, st') /\ holds st' k r v.
Proof.
  intros Hh (A1 & A2 & A3 & A4). unfold block_fits, fits.
  run (ld_free_ok st k r v (b_addr b)); [done|]. destruct (b_free b); [|by eexists].
  run (ld_size_ok st0 k r v (b_addr b)); [done|]. by eexists.
Qed.

Lemma find_loop_ok bs lo hi st k r v last size n :
  0 < lo -> holds st k r v -> seg v lo hi bs 0 -> (length bs <= n)%nat ->
  exists st', find_loop (head_or bs 0) last size n st = Ok (find_result size bs last, st') /\ holds st' k r v.
Proof.
  revert lo st last n. induction bs as [|b bs IH]; intros lo st last n Hlo Hh Hs Hn.
  { exists st. split; [|done]. by destruct n. }
  destruct n as [|n]; [cbn in Hn; lia|]. destruct Hs as (Hle & (Hal & Hsz & _) & Hat & Hs).
  cbn [find_loop head_or find_result]. destruct (Z.eqb_spec (b_addr b) 0); [lia|].
  run (block_fits_ok st k r v b (head_or bs 0) size); [done|]. destruct (fits size b); [by eexists|].
  run (valid_ok st0 k r v b (head_or bs 0)); [done|lia|]. pose proof Hat as (_ & A2 & _ & _).
  run (ld_next_ok st1 k r v (b_addr b)); [done|].
  assert (0 < b_end b) as Hpos by (unfold b_end, sizeof_block_meta; lia).
  assert (exists st3, (if head_or bs 0 =? 0 then mret tt else assert_kblock_valid (head_or bs 0)) st2 = Ok (tt, st3)
    /\ holds st3 k r v) as (st3 & E3 & Hh3).
  { destruct bs as [|c bs]; [by eexists|]. cbn [head_or]. destruct (Z.eqb_spec (b_addr c) 0); [by eexists|].
    destruct Hs as (_ & (_ & ? & _) & Hc & _). eapply valid_ok; [done|done|lia]. }
  rewrite (bind_step _ _ _ _ _ E3). apply (IH (b_end b)); [done|done|done|cbn in Hn; lia].
Qed.

(** Memory after [split_block] cuts the block at [a]. *)
Definition split_view (v : Z -> option Z) (a size bsize next : Z) : Z -> option Z :=
  let a2 := a + sizeof_block_meta + size in
  upd32 (upd32 (upd32 (upd32 (upd32 (upd8 v (a2 + 8) 1) (a2 + 12) BLOCK_MAGIC)
    a2 (bsize - size - sizeof_block_meta)) (a2 + 4) next) a size) (a + 4) a2.

Lemma split_block_ok st k r v b nxt size :
  holds st k r v -> block_at v b nxt -> blk_ok b -> 0 < size <= b_size b -> 0 <= b_addr b ->
  b_end b < 2 ^ 32 -> (forall x, b_addr b <= x < b_end b -> is_Some (v x)) ->
  exists st', split_block (b_addr b) size st = Ok (tt, st') /\
    holds st' k r (if size + sizeof_block_meta <? b_size b
                   then split_view v (b_addr b) size (b_size b) nxt else v).
Proof.
  intros Hh (A1 & A2 & A3 & A4) (_ & Hb & _) Hsz Hpos Hend Ho.
  unfold split_block, split_view, MAX_BLOCK, b_end, sizeof_block_meta in *.
  run (ld_size_ok st k r v (b_addr b)); [done|].
  rewrite (u32_small (size + 16)) by (unfold is_u32; lia).
  destruct (Z.ltb_spec (size + 16) (b_size b)) as [Hcut|Hcut]; [|by eexists].
  set (a2 := b_addr b + 16 + size) in *.
  rewrite (u32_small a2) by (unfold is_u32; lia).
  run (st_free_ok st0 k r v a2 true); [apply Ho; lia|].
  run (st_magic_ok st1 k r (upd8 v (a2 + 8) 1) a2 BLOCK_MAGIC); [intros; apply upd8_owned, Ho; lia|].
  run (ld_size_ok st2 k r (upd32 (upd8 v (a2 + 8) 1) (a2 + 12) BLOCK_MAGIC) (b_addr b)); [by vread|].
  rewrite (u32_small (b_size b - size - 16)) by (unfold is_u32; lia).
  run (st_size_ok st3 k r (upd32 (upd8 v (a2 + 8) 1) (a2 + 12) BLOCK_MAGIC) a2 (b_size b - size - 16));
    [intros; apply upd32_owned, upd8_owned, Ho; lia|].
  run (ld_next_ok st4 k r (upd32 (upd32 (upd8 v (a2 + 8) 1) (a2 + 12) BLOCK_MAGIC) a2 (b_size b - size - 16)) (b_addr b));
    [by vread|].
  run (st_next_ok st5 k r (upd32 (upd32 (upd8 v (a2 + 8) 1) (a2 + 12) BLOCK_MAGIC) a2 (b_size b - size - 16)) a2 nxt);
    [intros; apply upd32_owned, upd32_owned, upd8_owned, Ho; lia|].
  run (st_size_ok st6 k r (upd32 (upd32 (upd32 (upd8 v (a2 + 8) 1) (a2 + 12) BLOCK_MAGIC) a2 (b_size b - size - 16)) (a2 + 4) nxt)
    (b_addr b) size); [intros; apply upd32_owned, upd32_owned, upd32_owned, upd8_owned, Ho; lia|].
  apply st_next_ok; [done|]. intros. do 4 apply upd32_owned. apply upd8_owned, Ho. lia.
Qed.

(** The new bytes, then the link from the last block, then the new header. *)
Definition request_view (v : Z -> option Z) (a size last : Z) : Z -> option Z :=
  let v0 := fun x => if in_range a (size + sizeof_block_meta) x then Some 0 else v x in
  let v1 := if last =? 0 then v0 else upd32 v0 (last + 4) a in
  upd32 (upd8 (upd32 (upd32 v1 a size) (a + 4) 0) (a + 8) 0) (a + 12) BLOCK_MAGIC.

(** Nothing below the break changes but the link of the last block. *)
Lemma request_view_ne v a size last x :
  x < a -> 0 <= size -> ~ last + 4 <= x < last + 8 -> request_view v a size last x = v x.
Proof.
  intros Hx Hs Hl. unfold request_view, sizeof_block_meta.
  rewrite upd32_ne, upd8_ne, !upd32_ne by lia. destruct (last =? 0); [|rewrite upd32_ne by lia]; range_cases.
Qed.

Lemma request_space_ok st k r v last size :
  holds st k r v -> 0 < size <= MAX_BLOCK -> room r (size + sizeof_block_meta) ->
  (last <> 0 -> heap_bottom <= last /\ last + 16 <= brk r) ->
  exists st' r', request_space last size st = Ok (brk r, st') /\
    holds st' k r' (request_view v (brk r) size last) /\ brk r' = brk r + (size + sizeof_block_meta).
Proof.
  intros [Hk Hok Hr V] Hsz Hroom Hlast. unfold request_space, request_view, MAX_BLOCK, sizeof_block_meta in *.
  rewrite (u32_small (size + 16)) by (unfold is_u32; lia).
  destruct (sbrk_law (heap st) (size + 16) Hok) as (h & E & Hok' & Hb & V'); [lia|by rewrite Hr|].
  rewrite Hr in E, Hb, V'.
  rewrite (bind_step _ _ _ (brk r) (mk_mstate (kblocklist st) h)) by (by apply on_heap_ok).
  set (a := brk r) in *. set (r' := rest h) in *.
  set (v0 := fun x => if in_range a (size + 16) x then Some 0 else v x).
  assert (holds (mk_mstate (kblocklist st) h) k r' v0) as Hh0.
  { split; cbn; try done. intros x. rewrite V'. unfold v0. by rewrite V. }
  assert (forall x, a <= x < a + (size + 16) -> is_Some (v0 x)) as Ho.
  { intros x Hx. unfold v0. replace (in_range a (size + 16) x) with true by (symmetry; by apply in_range_spec). by eexists. }
  set (v1 := if last =? 0 then v0 else upd32 v0 (last + 4) a).
  assert (forall x, a <= x < a + (size + 16) -> is_Some (v1 x)) as Ho1
    by (intros x Hx; unfold v1; destruct (last =? 0); [by apply Ho|by apply upd32_owned, Ho]).
  assert (exists st1, (if last =? 0 then mret tt else st_next last a) (mk_mstate (kblocklist st) h) = Ok (tt, st1)
    /\ holds st1 k r' v1) as (st1 & E1 & Hh1).
  { unfold v1. destruct (Z.eqb_spec last 0); [by eexists|]. apply st_next_ok; [done|].
    intros i Hi. destruct (Hlast ltac:(done)) as [Hl1 Hl2]. unfold v0.
    destruct (in_range a (size + 16) (last + 4 + i)); [by eexists|].
    rewrite <- V. apply heap_owned; [done|]. rewrite Hr. fold a. lia. }
  rewrite (bind_step _ _ _ _ _ E1).
  run (st_size_ok st1 k r' v1 a size); [intros; apply Ho1; lia|].
  run (st_next_ok st0 k r' (upd32 v1 a size) a 0); [intros; apply upd32_owned, Ho1; lia|].
  run (st_free_ok st2 k r' (upd32 (upd32 v1 a size) (a + 4) 0) a false);
    [apply upd32_owned, upd32_owned, Ho1; lia|].
  run (st_magic_ok st3 k r' (upd8 (upd32 (upd32 v1 a size) (a + 4) 0) (a + 8) 0) a BLOCK_MAGIC);
    [intros; apply upd8_owned, upd32_owned, upd32_owned, Ho1; lia|].
  exists st4, r'. done.
Qed.
End code.

Lemma seg_disjoint v lo hi bs nxt b c :
  seg v lo hi bs nxt -> b ∈ bs -> c ∈ bs -> b = c \/ b_end b <= b_addr c \/ b_end c <= b_addr b.
Proof.
  revert lo. induction bs as [|d bs IH]; intros lo; cbn; [by intros _ ?%not_elem_of_nil|].
  intros (_ & _ & _ & Hs) [->|Hb]%elem_of_cons [->|Hc]%elem_of_cons.
  - by left.
  - right. left. by apply (seg_elem _ _ _ _ _ c Hs).
  - right. right. by apply (seg_elem _ _ _ _ _ b Hs).
  - by eapply IH.
Qed.

(** ** Blocks after an allocation *)

Lemma take_seg v b nxt size lo :
  block_at v b nxt -> blk_ok b -> 0 < size <= b_size b -> size mod 4 = 0 ->
  lo <= b_addr b -> 0 <= b_addr b -> b_end b < 2 ^ 32 -> is_u32 nxt ->
  let v1 := upd8 v (b_addr b + 8) 0 in
  let v2 := if size + sizeof_block_meta <? b_size b then split_view v1 (b_addr b) size (b_size b) nxt else v1 in
  seg v2 lo (b_end b) (take size b) nxt /\ forall x, ~ b_addr b <= x < b_end b -> v2 x = v x.
Proof.
  intros (A1 & A2 & A3 & A4) (Hal & Hb & Hm) Hsz Hsm Hlo Hpos Hend Hnx v1 v2.
  unfold take, v2, split_view, v1, b_end, sizeof_block_meta, MAX_BLOCK, BLOCK_MAGIC in *.
  destruct (Z.ltb_spec (size + 16) (b_size b)) as [Hcut|Hcut].
  - split; [|intros x Hx; by rewrite !upd32_ne, !upd8_ne by lia].
    cbn [seg head_or]. unfold blk_ok, block_at, b_end, sizeof_block_meta, MAX_BLOCK, BLOCK_MAGIC. cbn [b_addr b_size b_free].
    vread. split_and!; try done; try lia; Z.to_euclidean_division_equations; lia.
  - split; [|intros x Hx; by rewrite !upd8_ne by lia].
    cbn [seg head_or]. unfold blk_ok, block_at, b_end, sizeof_block_meta, MAX_BLOCK, BLOCK_MAGIC. cbn [b_addr b_size b_free].
    vread. split_and!; try done; lia.
Qed.

Lemma seg_next_u32 v lo hi bs nxt :
  seg v lo hi bs nxt -> 0 <= lo -> hi < 2 ^ 32 -> is_u32 nxt -> is_u32 (head_or bs nxt).
Proof.
  intros Hs Hlo Hhi Hn. destruct bs as [|b bs]; [done|]. cbn [head_or].
  destruct (seg_elem _ _ _ _ _ b Hs) as (? & (_ & ? & _) & He); [left|].
  unfold is_u32, b_end, sizeof_block_meta in *. lia.
Qed.

Lemma append_seg v lo a bs nx size :
  seg v lo a bs nx -> 0 < lo -> a mod 4 = 0 -> 0 < size <= MAX_BLOCK -> size mod 4 = 0 ->
  a + (size + sizeof_block_meta) < 2 ^ 32 ->
  let v' := request_view v a size (last_addr bs 0) in
  seg v' lo (a + (size + sizeof_block_meta)) (bs ++ [mk_blk a size false]) 0 /\
  forall x, x < a -> (forall b, b ∈ bs -> ~ b_addr b <= x < b_addr b + 16) -> v' x = v x.
Proof.
  intros Hs Hlo Ha Hsz Hsm Hmax v'. pose proof (seg_le _ _ _ _ _ Hs) as Hle.
  assert (forall w, w = v' -> seg w a (a + (size + sizeof_block_meta)) [mk_blk a size false] 0) as Hnew.
  { intros w ->. unfold v', request_view, sizeof_block_meta, MAX_BLOCK in *. cbn [seg head_or].
    unfold blk_ok, block_at, b_end, sizeof_block_meta, MAX_BLOCK, BLOCK_MAGIC. cbn [b_addr b_size b_free].
    vread. split_and!; try done; lia. }
  assert (forall x, x < a -> (last_addr bs 0 = 0 \/ ~ last_addr bs 0 + 4 <= x < last_addr bs 0 + 8) -> v' x = v x) as Hold.
  { intros x Hx Hl. unfold v', request_view. vread.
    destruct (Z.eqb_spec (last_addr bs 0) 0); [|rewrite upd32_ne by lia]; range_cases. }
  destruct (list.last bs) as [b|] eqn:El.
  - assert (last_addr bs 0 = b_addr b) as Hla by (unfold last_addr; by rewrite El).
    apply last_Some in El as [l ->]. apply seg_app in Hs as (mid & Hl & Hb).
    cbn [head_or seg] in Hl, Hb. destruct Hb as (Hmid & (Hal & Hbs & Hbm) & (A1 & A2 & A3 & A4) & Hbe).
    pose proof (seg_le _ _ _ _ _ Hl) as Hlm. unfold b_end, sizeof_block_meta in Hbe.
    rewrite Hla in Hold. split.
    + rewrite <- app_assoc. apply seg_app. exists mid. split.
      { eapply seg_ext; [|exact Hl]. intros x Hx _. apply Hold; lia. }
      refine (conj Hmid (conj (conj Hal (conj Hbs Hbm)) (conj _ _))).
      * unfold block_at. cbn [b_addr].
        rewrite (vw_ext v v' (b_addr b)), (vw_ext v v' (b_addr b + 12)), (Hold (b_addr b + 8))
          by (lia || (intros; apply Hold; lia)).
        split_and!; try done. unfold v', request_view. rewrite Hla. vread.
        destruct (Z.eqb_spec (b_addr b) 0); [lia|]. unfold sizeof_block_meta in Hmax. by vread.
      * refine (seg_weaken v' a (b_end b) _ _ [mk_blk a size false] 0 _ (Z.le_refl _) (Hnew v' eq_refl)).
        unfold b_end, sizeof_block_meta. lia.
    + intros x Hx Hnb. apply Hold; [done|]. right. specialize (Hnb b ltac:(apply elem_of_app; right; left)). lia.
  - apply last_None in El as ->. cbn in Hold. split; [|intros x Hx _; apply Hold; auto].
    cbn [app]. eapply (seg_weaken _ a); [done|done|by apply Hnew].
Qed.

(** ** The properties *)

Section properties.
Context {S : Type} `{HeapLaws S}.
Context (fuel : nat).
Implicit Types (st : mstate S).

(** The heap of [st] is the block list [bs]. *)
Record heap_inv (st : mstate S) (bs : list blk) : Prop := {
  hi_ok : mem_ok (heap st);
  hi_head : kblocklist st = head_or bs 0;
  hi_brk : brk (rest (heap st)) mod 4 = 0;
  hi_seg : seg (view (heap st)) heap_bottom (brk (rest (heap st))) bs 0;
}.

(** Bytes of blocks in use are kept. *)
Definition payloads_kept (bs : list blk) (v v' : Z -> option Z) : Prop :=
  forall b x, b ∈ bs -> b_free b = false -> b_addr b + sizeof_block_meta <= x < b_end b -> v' x = v x.

Lemma heap_inv_holds st bs : heap_inv st bs -> holds st (head_or bs 0) (rest (heap st)) (view (heap st)).
Proof. intros [? ? _ _]. by split. Qed.

Lemma holds_inv st bs r v :
  holds st (head_or bs 0) r v -> brk r mod 4 = 0 -> seg v heap_bottom (brk r) bs 0 -> heap_inv st bs.
Proof.
  intros [Hk Hok <- V] Hb Hs. split; try done. eapply seg_ext; [|exact Hs]. intros x _ _. apply V.
Qed.

Lemma heap_bounds st k r v : holds st k r v -> heap_bottom <= brk r < 2 ^ 32 /\
  forall x, heap_bottom <= x < brk r -> is_Some (v x).
Proof.
  intros [_ Hok <- V]. split; [by apply heap_range|]. intros x Hx. rewrite <- V. by apply heap_owned.
Qed.

(** Reusing the free block [b]. *)
Lemma reuse_ok st r v l1 b l2 size :
  let bs := l1 ++ b :: l2 in
  holds st (head_or bs 0) r v -> seg v heap_bottom (brk r) bs 0 ->
  fits size b = true -> 0 < size -> size mod 4 = 0 ->
  exists st' v', (st_free (b_addr b) false ;; split_block (b_addr b) size) st = Ok (tt, st') /\
    holds st' (head_or (l1 ++ take size b ++ l2) 0) r v' /\
    seg v' heap_bottom (brk r) (l1 ++ take size b ++ l2) 0 /\ payloads_kept bs v v'.
Proof.
  intros bs Hh Hs [Hfree Hle%Z.leb_le]%andb_prop Hpos Hm.
  destruct (heap_bounds _ _ _ _ Hh) as [Hr Ho]. pose proof heap_bottom_pos as Hbot.
  destruct (seg_elem _ _ _ _ _ b Hs) as (Hlo & Hbok & Hend); [apply elem_of_app; right; left|].
  unfold bs in *. apply seg_app in Hs as (mid & Hs1 & Hs2). cbn [head_or] in Hs1.
  destruct Hs2 as (Hmid & _ & Hat & Hs2). pose proof (seg_le _ _ _ _ _ Hs1). pose proof Hat as (A1 & A2 & A3 & A4).
  assert (b_addr b + 16 <= b_end b) by (destruct Hbok as (_ & ? & _); unfold b_end, sizeof_block_meta; lia).
  destruct (st_free_ok st _ r v (b_addr b) false Hh) as (st1 & E1 & Hh1); [apply Ho; lia|].
  rewrite (bind_step _ _ _ _ _ E1). set (v1 := upd8 v (b_addr b + 8) 0).
  destruct (split_block_ok st1 (head_or (l1 ++ b :: l2) 0) r v1 (mk_blk (b_addr b) (b_size b) false) (head_or l2 0) size)
    as (st2 & E2 & Hh2); try done.
  - unfold block_at, v1. cbn [b_addr b_size b_free]. by vread.
  - cbn. lia.
  - change (b_end b < 2 ^ 32). lia.
  - intros x Hx. apply upd8_owned, Ho. change (b_addr b <= x < b_end b) in Hx. lia.
  - cbn [b_addr b_size] in E2, Hh2.
    destruct (take_seg v b (head_or l2 0) size mid) as [Htk Hout]; try done; try lia.
    { eapply seg_next_u32; [exact Hs2|lia|lia|unfold is_u32; lia]. }
    fold v1 in Htk, Hout. set (v2 := if size + sizeof_block_meta <? b_size b then _ else _) in *.
    exists st2, v2. split_and!; [done| | |].
    + replace (head_or (l1 ++ take size b ++ l2) 0) with (head_or (l1 ++ b :: l2) 0); [done|].
      destruct l1; [|done]. cbn. unfold take. by destruct (_ <? _).
    + apply seg_app. exists mid. split.
      { replace (head_or (take size b ++ l2) 0) with (b_addr b) by (unfold take; by destruct (_ <? _)).
        eapply seg_ext; [|exact Hs1]. intros x Hx _. apply Hout. lia. }
      apply seg_app. exists (b_end b). split; [done|].
      eapply seg_ext; [|exact Hs2]. intros x Hx _. apply Hout. lia.
    + intros c x Hc Hcf Hx. apply Hout. intros Hxb. apply elem_of_app in Hc as [Hc|[->|Hc]%elem_of_cons].
      * destruct (seg_elem _ _ _ _ _ c Hs1 Hc) as (_ & _ & ?). lia.
      * congruence.
      * destruct (seg_elem _ _ _ _ _ c Hs2 Hc) as (? & _ & _). unfold sizeof_block_meta in Hx. lia.
Qed.

(** Extending the heap by a new block at its end. *)
Lemma extend_ok st r v bs size :
  holds st (head_or bs 0) r v -> seg v heap_bottom (brk r) bs 0 -> brk r mod 4 = 0 ->
  0 < size <= MAX_BLOCK -> size mod 4 = 0 -> room r (size + sizeof_block_meta) ->
  exists st' r' v', request_space (last_addr bs 0) size st = Ok (brk r, st') /\
    holds st' (head_or bs 0) r' v' /\ brk r' mod 4 = 0 /\
    seg v' heap_bottom (brk r') (bs ++ [mk_blk (brk r) size false]) 0 /\ payloads_kept bs v v'.
Proof.
  intros Hh Hs Hb Hsz Hm Hroom. pose proof heap_bottom_pos as Hbot.
  destruct (request_space_ok st _ r v (last_addr bs 0) size Hh Hsz Hroom) as (st' & r' & E & Hh' & Hbrk).
  { intros Hl. unfold last_addr in *. destruct (list.last bs) as [b|] eqn:El; [|done].
    destruct (seg_elem _ _ _ _ _ b Hs) as (? & (_ & ? & _) & ?); [by eapply last_Some_elem_of|].
    unfold b_end, sizeof_block_meta in *. lia. }
  destruct (heap_bounds _ _ _ _ Hh') as [Hr' _]. rewrite Hbrk in Hr'.
  destruct (append_seg v heap_bottom (brk r) bs 0 size Hs Hbot Hb Hsz Hm ltac:(lia)) as [Hseg Hkeep].
  exists st', r', (request_view v (brk r) size (last_addr bs 0)). rewrite Hbrk. split_and!; try done.
  - unfold sizeof_block_meta. Z.to_euclidean_division_equations. lia.
  - intros b x Hbi _ Hx. destruct (seg_elem _ _ _ _ _ b Hs Hbi) as (_ & _ & ?).
    apply Hkeep; [lia|]. intros c Hc Hxc. unfold sizeof_block_meta in *.
    destruct (seg_disjoint _ _ _ _ _ b c Hs Hbi Hc) as [->|Hd]; [lia|].
    destruct (seg_elem _ _ _ _ _ c Hs Hc) as (_ & (_ & ? & _) & _).
    unfold b_end, sizeof_block_meta in *. lia.
Qed.

Lemma last_addr_nonnil bs d : bs <> [] -> last_addr bs d = last_addr bs 0.
Proof.
  intros Hne. unfold last_addr. destruct (list.last bs) eqn:E; [done|]. by apply last_None in E.
Qed.

(** [pick_block] refines [first_fit]. *)
Definition picks (st st' : mstate S) (bs : list blk) (m : Z) : Prop :=
  let '(bs', a) := first_fit m (brk (rest (heap st))) bs in
  pick_block fuel m st = Ok (a, st') /\ heap_inv st' bs' /\
  payloads_kept bs (view (heap st)) (view (heap st')) /\
  exists b, b ∈ bs' /\ b_addr b = a /\ b_free b = false /\ m <= b_size b.

Lemma payloads_holds st k r v bs v0 :
  holds st k r v -> payloads_kept bs v0 v -> payloads_kept bs v0 (view (heap st)).
Proof. intros [_ _ _ V] Hk b x Hb Hf Hx. rewrite V. by eapply Hk. Qed.

Lemma head_nonzero st bs : heap_inv st bs -> bs <> [] -> head_or bs 0 <> 0.
Proof.
  intros [_ _ _ Hs] Hne. pose proof heap_bottom_pos. destruct bs; [done|]. destruct Hs as (? & _). cbn. lia.
Qed.

(** The search from the head of a non-empty list. *)
Lemma search_ok st bs m :
  heap_inv st bs -> bs <> [] -> (length bs <= fuel)%nat ->
  exists st1, find_free_block fuel (head_or bs 0) m st = Ok (find_result m bs (head_or bs 0), st1) /\
    holds st1 (head_or bs 0) (rest (heap st)) (view (heap st)).
Proof.
  intros Hinv Hne Hf. pose proof (heap_inv_holds st bs Hinv) as Hh. destruct Hinv as [_ Hhead _ Hseg].
  destruct (find_loop_ok bs _ _ st _ _ _ (head_or bs 0) m fuel heap_bottom_pos Hh Hseg Hf) as (st1 & E1 & Hh1).
  exists st1. split; [|done]. unfold find_free_block.
  by rewrite (bind_step _ _ _ (head_or bs 0) st) by (unfold gets; by rewrite Hhead).
Qed.

Lemma pick_reuse st bs m :
  heap_inv st bs -> 0 < m -> m mod 4 = 0 -> (length bs <= fuel)%nat ->
  existsb (fits m) bs = true -> exists st', picks st st' bs m.
Proof.
  intros Hinv Hm Hm4 Hf Hex. pose proof Hinv as [_ Hhead Hbrk Hseg].
  assert (bs <> []) as Hne by (by intros ->).
  destruct (search_ok st bs m Hinv Hne Hf) as (st1 & E1 & Hh1). unfold picks.
  destruct (first_fit_some m (brk (rest (heap st))) bs Hex) as (l1 & b & l2 & Hbs & Hfit & -> & Hfr).
  destruct (Hfr (head_or bs 0)) as [last Hl]. rewrite Hl in E1.
  pose proof (head_nonzero st bs Hinv Hne) as Hnz. subst bs.
  destruct (reuse_ok st1 _ _ l1 b l2 m Hh1 Hseg Hfit Hm Hm4) as (st2 & v2 & E2 & Hh2 & Hs2 & Hk2).
  exists st2. split_and!.
  - unfold pick_block. rewrite (bind_step _ _ _ (head_or (l1 ++ b :: l2) 0) st) by (unfold gets; by rewrite Hhead).
    destruct (Z.eqb_spec (head_or (l1 ++ b :: l2) 0) 0); [done|]. cbn [negb]. rewrite (bind_step _ _ _ _ _ E1).
    destruct (seg_elem _ _ _ _ _ b Hseg) as (Hblo & _); [apply elem_of_app; right; left|].
    pose proof heap_bottom_pos. destruct (Z.eqb_spec (b_addr b) 0); [lia|]. cbn [negb].
    apply bind_ok in E2 as (? & st1' & E2a & E2b).
    by rewrite (bind_step _ _ _ _ _ E2a), (bind_step _ _ _ _ _ E2b).
  - by eapply holds_inv.
  - by eapply payloads_holds.
  - exists (mk_blk (b_addr b) (if m + sizeof_block_meta <? b_size b then m else b_size b) false).
    split_and!; try done; cbn.
    + apply elem_of_app. right. apply elem_of_app. left. unfold take. destruct (_ <? _); left.
    + apply andb_prop in Hfit as [_ ?%Z.leb_le]. destruct (_ <? _); lia.
Qed.

Lemma pick_extend st bs m :
  heap_inv st bs -> 0 < m <= MAX_BLOCK -> m mod 4 = 0 -> (length bs <= fuel)%nat ->
  existsb (fits m) bs = false -> room (rest (heap st)) (m + sizeof_block_meta) ->
  exists st', picks st st' bs m.
Proof.
  intros Hinv Hm Hm4 Hf Hex Hroom. pose proof Hinv as [_ Hhead Hbrk Hseg]. unfold picks.
  destruct (first_fit_none m (brk (rest (heap st))) bs Hex) as [-> Hfr].
  assert (exists st' r' v', pick_block fuel m st = Ok (brk (rest (heap st)), st') /\
    holds st' (head_or (bs ++ [mk_blk (brk (rest (heap st))) m false]) 0) r' v' /\ brk r' mod 4 = 0 /\
    seg v' heap_bottom (brk r') (bs ++ [mk_blk (brk (rest (heap st))) m false]) 0 /\
    payloads_kept bs (view (heap st)) v') as (st' & r' & v' & E & Hh' & Hb' & Hs' & Hk').
  { unfold pick_block. rewrite (bind_step _ _ _ (head_or bs 0) st) by (unfold gets; by rewrite Hhead).
    destruct (decide (bs = [])) as [->|Hne].
    - destruct (extend_ok st _ _ [] m (heap_inv_holds _ _ Hinv) Hseg Hbrk Hm Hm4 Hroom)
        as (st1 & r1 & v1 & E1 & Hh1 & Hb1 & Hs1 & Hk1).
      exists (mk_mstate (brk (rest (heap st))) (heap st1)), r1, v1. split_and!; try done.
      + cbn in E1 |- *. by rewrite (bind_step _ _ _ _ _ E1).
      + destruct Hh1. by split.
    - destruct (search_ok st bs m Hinv Hne Hf) as (st1 & E1 & Hh1). rewrite Hfr, last_addr_nonnil in E1 by done.
      destruct (extend_ok st1 _ _ bs m Hh1 Hseg Hbrk Hm Hm4 Hroom) as (st2 & r2 & v2 & E2 & Hh2 & Hb2 & Hs2 & Hk2).
      exists st2, r2, v2. split_and!; try done; [|by destruct bs].
      pose proof (head_nonzero st bs Hinv Hne). destruct (Z.eqb_spec (head_or bs 0) 0); [done|]. cbn [negb].
      by rewrite (bind_step _ _ _ _ _ E1). }
  exists st'. split_and!; [done|by eapply holds_inv|by eapply payloads_holds|].
  exists (mk_blk (brk (rest (heap st))) m false). split_and!; try done. apply elem_of_app. right. left.
Qed.

Lemma kmalloc_ok st bs n :
  heap_inv st bs -> 0 < n <= MAX_BLOCK -> (length bs <= fuel)%nat ->
  let m := ALIGN_UP n 4 in
  (existsb (fits m) bs = false -> room (rest (heap st)) (m + sizeof_block_meta)) ->
  exists st', let '(bs', a) := first_fit m (brk (rest (heap st))) bs in
    kmalloc fuel n st = Ok (a + sizeof_block_meta, st') /\ heap_inv st' bs' /\
    payloads_kept bs (view (heap st)) (view (heap st')) /\
    (exists b, b ∈ bs' /\ b_addr b = a /\ b_free b = false /\ n <= b_size b).
Proof.
  intros Hinv Hn Hf m Hroom.
  destruct (ALIGN_UP_4 n) as [Hm4 Hmn]; [unfold MAX_BLOCK in *; lia|]. fold m in Hm4, Hmn.
  assert (0 < m <= MAX_BLOCK) as Hm by (unfold MAX_BLOCK in *; Z.to_euclidean_division_equations; lia).
  assert (exists st1, picks st st1 bs m) as [st1 Hp].
  { destruct (existsb (fits m) bs) eqn:E; [apply pick_reuse|apply pick_extend]; auto; lia. }
  unfold picks in Hp. destruct (first_fit m (brk (rest (heap st))) bs) as [bs' a].
  destruct Hp as (E1 & Hinv1 & Hk & b & Hb & <- & Hbf & Hbm). pose proof (heap_inv_holds _ _ Hinv1) as Hh1.
  pose proof Hinv1 as [_ _ Hb1 Hs1]. destruct (seg_block_at _ _ _ _ _ b Hs1 Hb) as [nx Hat].
  destruct (seg_elem _ _ _ _ _ b Hs1 Hb) as (Hblo & (_ & Hbs & _) & Hbe).
  destruct (valid_ok st1 _ _ _ b nx Hh1 Hat) as (st2 & E2 & Hh2); [lia|].
  destruct (heap_bounds _ _ _ _ Hh2) as [Hr2 _]. unfold b_end in Hbe. pose proof heap_bottom_pos.
  exists st2. split_and!; [|by eapply holds_inv|by eapply payloads_holds|exists b; split_and!; done || lia].
  unfold kmalloc. destruct (Z.leb_spec n 0); [lia|]. fold m.
  rewrite (bind_step _ _ _ _ _ E1), (bind_step _ _ _ _ _ E2). destruct (Z.eqb_spec (b_addr b) 0); [lia|]. cbn [negb].
  by rewrite u32_small by (unfold is_u32, sizeof_block_meta in *; lia).
Qed.

(** A block in use stays in the list, apart from the block handed out. *)
Lemma first_fit_apart st bs m st' b :
  heap_inv st bs -> 0 < m ->
  let '(bs', a) := first_fit m (brk (rest (heap st))) bs in
  heap_inv st' bs' -> b ∈ bs -> b_free b = false ->
  b ∈ bs' /\ (b_end b <= a \/ a + sizeof_block_meta + m <= b_addr b).
Proof.
  intros [_ _ _ Hs] Hm. destruct (existsb (fits m) bs) eqn:Hex.
  - destruct (first_fit_some m (brk (rest (heap st))) bs Hex) as (l1 & c & l2 & -> & Hfit & -> & _).
    intros _ Hb Hbf. apply andb_prop in Hfit as [Hcf Hcm%Z.leb_le].
    assert (b <> c) by congruence. split.
    + rewrite !elem_of_app in *. rewrite elem_of_cons in Hb. tauto.
    + destruct (seg_disjoint _ _ _ _ _ b c Hs Hb) as [|[|Hd]]; [apply elem_of_app; right; left|done|by left|].
      right. unfold b_end in Hd. lia.
  - destruct (first_fit_none m (brk (rest (heap st))) bs Hex) as [-> _]. intros _ Hb _. split.
    + apply elem_of_app. by left.
    + left. by apply (seg_elem _ _ _ _ _ b Hs).
Qed.

(** The list with the block at [a] marked free. *)
Definition mark_free (a : Z) (bs : list blk) : list blk :=
  map (fun b => if b_addr b =? a then mk_blk a (b_size b) true else b) bs.

Lemma mark_free_other a lo v hi bs nxt : seg v lo hi bs nxt -> a < lo \/ hi <= a -> mark_free a bs = bs.
Proof.
  intros Hs Ha. unfold mark_free. rewrite <- (map_id bs) at 2. apply map_ext_in. intros b Hb%list_elem_of_In.
  destruct (seg_elem _ _ _ _ _ b Hs Hb) as (? & (_ & ? & _) & ?). unfold b_end, sizeof_block_meta in *.
  destruct (Z.eqb_spec (b_addr b) a); [lia|done].
Qed.

Lemma kfree_ok st bs b :
  heap_inv st bs -> b ∈ bs ->
  exists st', kfree (b_addr b + sizeof_block_meta) st = Ok (tt, st') /\
    heap_inv st' (mark_free (b_addr b) bs) /\ rest (heap st') = rest (heap st) /\
    forall x, view (heap st') x = if x =? b_addr b + 8 then Some 1 else view (heap st) x.
Proof.
  intros Hinv Hb. pose proof (heap_inv_holds _ _ Hinv) as Hh. destruct Hinv as [Hok Hhead Hbrk Hs].
  set (r := rest (heap st)) in *. set (v := view (heap st)) in *. pose proof heap_bottom_pos as Hbot.
  destruct (seg_elem _ _ _ _ _ b Hs Hb) as (Hlo & Hbok & Hend). pose proof Hbok as (_ & Hbs & _).
  destruct (heap_bounds _ _ _ _ Hh) as [Hr Ho]. apply list_elem_of_split in Hb as (l1 & l2 & ->).
  apply seg_app in Hs as (mid & Hs1 & Hs2). cbn [head_or] in Hs1. destruct Hs2 as (Hmid & _ & Hat & Hs2).
  pose proof (seg_le _ _ _ _ _ Hs1). pose proof (seg_le _ _ _ _ _ Hs2). unfold b_end, sizeof_block_meta in *.
  unfold kfree, get_block_ptr, sizeof_block_meta. destruct (Z.eqb_spec (b_addr b + 16) 0); [lia|].
  replace (b_addr b + 16 - 16) with (b_addr b) by lia. rewrite u32_small by (unfold is_u32; lia).
  destruct (valid_ok st _ _ _ b _ Hh Hat) as (st1 & E1 & Hh1); [lia|]. rewrite (bind_step _ _ _ _ _ E1).
  destruct (st_free_ok st1 _ _ _ (b_addr b) true Hh1) as (st2 & E2 & Hh2); [apply Ho; lia|].
  assert (mark_free (b_addr b) (l1 ++ b :: l2) = l1 ++ mk_blk (b_addr b) (b_size b) true :: l2) as ->.
  { change (map ?f) with (mark_free (b_addr b)). unfold mark_free. rewrite map_app. cbn. rewrite Z.eqb_refl.
    fold (mark_free (b_addr b) l1). fold (mark_free (b_addr b) l2).
    by rewrite (mark_free_other _ _ _ _ _ _ Hs1), (mark_free_other _ _ _ _ _ _ Hs2) by lia. }
  exists st2. split_and!; [done| |apply Hh2|].
  - eapply (holds_inv _ _ r (upd8 v (b_addr b + 8) 1)); [by destruct l1|done|].
    apply seg_app. exists mid. split; [eapply seg_ext; [|exact Hs1]; intros; rewrite upd8_ne by lia; done|].
    refine (conj Hmid (conj Hbok (conj _ _))).
    + destruct Hat as (A1 & A2 & A3 & A4). unfold block_at. cbn [b_addr b_size b_free]. by vread.
    + eapply seg_ext; [|exact Hs2]. intros x Hx _. apply upd8_ne.
      unfold b_end, sizeof_block_meta in Hx. cbn in Hx. lia.
  - intros x. destruct Hh2 as [_ _ _ V]. rewrite V. done.
Qed.

(** [kalign_heap] on a list of at least two blocks. *)
Definition align_padding (a size : Z) : Z :=
  let p := div_ceil a size * size - a in if 2 * sizeof_block_meta <? p then p else p + size.

Lemma align_padding_bounds a size :
  0 < size -> a mod size <> 0 -> 2 * sizeof_block_meta < size ->
  2 * sizeof_block_meta < align_padding a size <= 2 * sizeof_block_meta + size /\
  (a + align_padding a size) mod size = 0.
Proof.
  intros Hs Ha Hbig. unfold align_padding, sizeof_block_meta in *.
  assert (div_ceil a size = a / size + 1) as ->.
  { unfold div_ceil. pose proof (Z.mod_pos_bound a size Hs). destruct (Z.ltb_spec 0 (a mod size)); lia. }
  pose proof (Z.div_mod a size ltac:(lia)). pose proof (Z.mod_pos_bound a size Hs).
  assert (forall c, (a + ((a / size + 1) * size - a + c * size)) mod size = 0) as Hmod.
  { intros c. replace (a + _) with ((a / size + 1 + c) * size) by lia. apply Z.mod_mul. lia. }
  destruct (Z.ltb_spec (2 * 16) ((a / size + 1) * size - a)).
  - split; [lia|]. specialize (Hmod 0). by replace (0 * size) with 0 in Hmod by lia; rewrite Z.add_0_r in Hmod.
  - split; [lia|]. specialize (Hmod 1). by rewrite Z.mul_1_l in Hmod.
Qed.

Lemma align_last_ok st k r v b c nxt :
  holds st k r v -> block_at v b (b_addr c) -> block_at v c nxt -> b_addr c <> 0 ->
  exists st', align_last (b_addr b) fuel st = Ok (b_addr b, st') /\ holds st' k r v.
Proof.
  intros Hh (_ & A2 & _ & _) _ Hc. destruct (ld_next_ok st k r v (b_addr b) (b_addr c) Hh A2) as (st1 & E1 & Hh1).
  exists st1. destruct fuel; cbn [align_last]; rewrite (bind_step _ _ _ _ _ E1);
    (destruct (Z.eqb_spec (b_addr c) 0); [done|]); done.
Qed.

Lemma kalign_heap_ok st b c bs size :
  heap_inv st (b :: c :: bs) -> 2 * sizeof_block_meta < size <= 2 ^ 20 -> size mod 4 = 0 ->
  let a := brk (rest (heap st)) in let p := align_padding a size in
  a mod size <> 0 -> (1 <= fuel)%nat -> room (rest (heap st)) (p - sizeof_block_meta) ->
  exists st', kalign_heap fuel size st = Ok (a + sizeof_block_meta, st') /\
    heap_inv st' [b; mk_blk a (p - 2 * sizeof_block_meta) false] /\
    brk (rest (heap st')) + sizeof_block_meta = a + p /\ (a + p) mod size = 0 /\
    forall x, x < a -> ~ b_addr b + 4 <= x < b_addr b + 8 -> view (heap st') x = view (heap st) x.
Proof.
  intros Hinv Hsz Hs4 a p Ha Hfuel Hroom. pose proof (heap_inv_holds _ _ Hinv) as Hh.
  destruct Hinv as [Hok Hhead Hbrk Hseg]. fold a in Hbrk, Hseg. set (r := rest (heap st)) in *. set (v := view (heap st)) in *.
  pose proof heap_bottom_pos as Hbot. destruct (heap_bounds _ _ _ _ Hh) as [Hr _]. fold a in Hr.
  destruct (align_padding_bounds a size) as [Hp Hpm]; [unfold sizeof_block_meta in *; lia|done|lia|]. fold p in Hp, Hpm.
  destruct Hseg as (Hb1 & Hbok & Hbat & Hc1 & (Hcok & (Hcs & _)) & Hcat & Hseg).
  pose proof (seg_le _ _ _ _ _ Hseg) as Hle. pose proof Hbok as (Hb4 & Hbs & _).
  unfold b_end, sizeof_block_meta, MAX_BLOCK in *.
  assert (exists st1, (head ← gets kblocklist; last ← align_last head fuel;
      block ← request_space last (p - 32); mret (u32 (block + 16))) st = Ok (a + 16, st1) /\
    heap_inv st1 [b; mk_blk a (p - 32) false] /\ brk (rest (heap st1)) = a + (p - 32 + 16) /\
    forall x, x < a -> ~ b_addr b + 4 <= x < b_addr b + 8 -> view (heap st1) x = v x) as (st1 & E1 & Hinv1 & Hb' & V1).
  { rewrite (bind_step _ _ _ (b_addr b) st) by (unfold gets; by rewrite Hhead).
    destruct (align_last_ok st _ r v b c _ Hh Hbat Hcat) as (st1 & E1 & Hh1); [lia|].
    rewrite (bind_step _ _ _ _ _ E1).
    destruct (request_space_ok st1 _ r v (b_addr b) (p - 32) Hh1) as (st2 & r2 & E2 & Hh2 & Hb2);
      unfold MAX_BLOCK, sizeof_block_meta; [lia|by replace (p - 32 + 16) with (p - 16) by lia|fold a; lia|].
    fold a in E2, Hb2, Hh2. rewrite (bind_step _ _ _ _ _ E2). unfold sizeof_block_meta in Hb2.
    destruct (heap_bounds _ _ _ _ Hh2) as [Hr2 _]. rewrite Hb2 in Hr2.
    rewrite u32_small by (unfold is_u32; lia). exists st2. split_and!; [done| |by destruct Hh2 as [_ _ -> _]|].
    2: { intros x Hx Hl. rewrite (h_view _ _ _ _ Hh2). apply request_view_ne; [done|unfold sizeof_block_meta; lia..]. }
    destruct (append_seg v heap_bottom a [b] (b_addr c) (p - 32)) as [Hs2 _];
      unfold MAX_BLOCK, sizeof_block_meta; try done; try lia.
    { refine (conj Hb1 (conj Hbok (conj Hbat _))). cbn. unfold b_end, sizeof_block_meta. lia. }
    { Z.to_euclidean_division_equations. lia. }
    eapply (holds_inv _ _ r2); [exact Hh2|rewrite Hb2; Z.to_euclidean_division_equations; lia|].
    rewrite Hb2. exact Hs2. }
  exists st1. split_and!; [|done|rewrite Hb'; lia|done|done].
  unfold kalign_heap. rewrite (bind_step _ _ _ a (mk_mstate (kblocklist st) (heap st)))
    by (apply on_heap_ok, sbrk_zero, Hok).
  destruct (Z.eqb_spec (a mod size) 0); [done|]. unfold p, align_padding, sizeof_block_meta in *.
  assert (0 <= div_ceil a size * size - a < size) as Hpad.
  { pose proof (div_ceil_spec a size ltac:(lia)). lia. }
  rewrite u32_small by (unfold is_u32; lia). change (16 * 2) with 32. change (2 * 16) with 32 in *.
  assert (mk_mstate (kblocklist st) (heap st) = st) as -> by by destruct st.
  destruct fuel as [|fuel']; [lia|].
  cbn [align_loop]. unfold KHEAP_LIMIT. destruct (Z.leb_spec (div_ceil a size * size - a) 0xF0000000); [|lia].
  destruct (Z.ltb_spec 32 (div_ceil a size * size - a)); [exact E1|].
  rewrite u32_small by (unfold is_u32; lia).
  assert (32 < div_ceil a size * size - a + size) by lia.
  destruct fuel'; cbn [align_loop]; unfold KHEAP_LIMIT;
    (destruct (Z.leb_spec (div_ceil a size * size - a + size) 0xF0000000); [|lia]);
    (destruct (Z.ltb_spec 32 (div_ceil a size * size - a + size)); [exact E1|lia]).
Qed.

Lemma holds_memset st bs b n :
  heap_inv st bs -> b ∈ bs -> 0 <= n <= b_size b ->
  exists st', on_heap (memset (b_addr b + sizeof_block_meta) 0 n) st = Ok (tt, st') /\ heap_inv st' bs /\
    forall x, view (heap st') x =
      if in_range (b_addr b + sizeof_block_meta) n x then Some 0 else view (heap st) x.
Proof.
  intros [Hok Hhead Hbrk Hs] Hb Hn. pose proof heap_bottom_pos.
  destruct (seg_elem _ _ _ _ _ b Hs Hb) as (Hlo & _ & Hend). unfold b_end, sizeof_block_meta in *.
  destruct (memset_ok (b_addr b + 16) 0 n (heap st) Hok) as (h & E & Hok' & Hr & V); [lia| |].
  { intros x Hx. apply heap_owned; [done|]. lia. }
  eexists. split; [by apply on_heap_ok|]. split; [|exact V]. split; cbn; rewrite ?Hr; try done.
  eapply seg_ext; [|exact Hs]. intros x _ (c & Hc & Hx). rewrite V. range_cases. exfalso.
  destruct (seg_disjoint _ _ _ _ _ b c Hs Hb Hc) as [->|Hd]; [lia|].
  destruct (seg_elem _ _ _ _ _ c Hs Hc) as (_ & (_ & ? & _) & _). unfold b_end, sizeof_block_meta in *. lia.
Qed.

(** C2: [kmalloc] refines first fit. On a heap whose blocks are [bs] it
    returns, for a request of up to 32 MiB, the payload of the first free
    block that is large enough, split when the rest can hold a block, or of a
    new block at the break; the result is again a well-formed block list, the
    returned range overlaps no block in use, and no payload in use changes. *)
Theorem kmalloc_correct st bs n :
  heap_inv st bs -> 0 < n <= MAX_BLOCK -> (length bs <= fuel)%nat ->
  let m := ALIGN_UP n 4 in
  (existsb (fits m) bs = false -> room (rest (heap st)) (m + sizeof_block_meta)) ->
  exists st', let '(bs', a) := first_fit m (brk (rest (heap st))) bs in
    kmalloc fuel n st = Ok (a + sizeof_block_meta, st') /\ heap_inv st' bs' /\
    payloads_kept bs (view (heap st)) (view (heap st')) /\
    forall b, b ∈ bs -> b_free b = false ->
      b ∈ bs' /\ (b_end b <= a \/ a + sizeof_block_meta + n <= b_addr b).
Proof.
  intros Hinv Hn Hf m Hroom. destruct (kmalloc_ok st bs n Hinv Hn Hf Hroom) as [st' Hk].
  destruct (ALIGN_UP_4 n) as [_ Hmn]; [unfold MAX_BLOCK in *; lia|]. fold m in Hk, Hmn.
  exists st'. pose proof (first_fit_apart st bs m st') as Hap.
  destruct (first_fit m (brk (rest (heap st))) bs) as [bs' a]. destruct Hk as (E & Hinv' & Hp & _).
  split_and!; [done..|]. intros b Hb Hbf. destruct (Hap b Hinv ltac:(lia) Hinv' Hb Hbf) as [? ?].
  split; [done|lia].
Qed.

(** [kfree] of a pointer [kmalloc] returned marks that block free and
    changes nothing else: one byte of memory differs, and the block list is
    the same with the block's flag set. *)
Theorem kfree_correct st bs b :
  heap_inv st bs -> b ∈ bs ->
  exists st', kfree (b_addr b + sizeof_block_meta) st = Ok (tt, st') /\
    heap_inv st' (mark_free (b_addr b) bs) /\ rest (heap st') = rest (heap st) /\
    forall x, view (heap st') x = if x =? b_addr b + 8 then Some 1 else view (heap st) x.
Proof. apply kfree_ok. Qed.

(** [kcalloc] without overflow of [n * size] is [kmalloc] with the first
    [n * size] bytes of the payload zero. *)
Theorem kcalloc_correct st bs n size :
  heap_inv st bs -> 0 < n * size <= MAX_BLOCK -> (length bs <= fuel)%nat ->
  let m := ALIGN_UP (n * size) 4 in
  (existsb (fits m) bs = false -> room (rest (heap st)) (m + sizeof_block_meta)) ->
  exists st', let '(bs', a) := first_fit m (brk (rest (heap st))) bs in
    kcalloc fuel n size st = Ok (a + sizeof_block_meta, st') /\ heap_inv st' bs' /\
    forall x, a + sizeof_block_meta <= x < a + sizeof_block_meta + n * size -> view (heap st') x = Some 0.
Proof.
  intros Hinv Hn Hf m Hroom. destruct (kmalloc_ok st bs (n * size) Hinv Hn Hf Hroom) as [st1 Hk].
  fold m in Hk. destruct (first_fit m (brk (rest (heap st))) bs) as [bs' a].
  destruct Hk as (E & Hinv' & _ & b & Hb & <- & _ & Hbs).
  destruct (holds_memset st1 bs' b (n * size) Hinv' Hb) as (st2 & E2 & Hinv2 & V); [lia|].
  exists st2. split_and!; [|done|].
  - unfold kcalloc. rewrite u32_small by (unfold is_u32, MAX_BLOCK in *; lia). rewrite (bind_step _ _ _ _ _ E).
    pose proof heap_bottom_pos. destruct Hinv' as [_ _ _ Hs]. destruct (seg_elem _ _ _ _ _ b Hs Hb) as (? & _).
    unfold sizeof_block_meta in *. destruct (Z.eqb_spec (b_addr b + 16) 0); [lia|]. cbn [negb].
    by rewrite (bind_step _ _ _ _ _ E2).
  - intros x Hx. rewrite V. range_cases.
Qed.

(** What [kalign_heap] really does when the break is not a multiple of
    [size]: it appends a padding block after which the next object taken from
    [sbrk] starts at a multiple of [size], as its comment says, and it cuts
    the block list after the first block, so every other block is forgotten
    (the loop [while (!last->next)] stops at once). *)
Theorem kalign_heap_correct st b c bs size :
  heap_inv st (b :: c :: bs) -> 2 * sizeof_block_meta < size <= 2 ^ 20 -> size mod 4 = 0 ->
  let a := brk (rest (heap st)) in let p := align_padding a size in
  a mod size <> 0 -> (1 <= fuel)%nat -> room (rest (heap st)) (p - sizeof_block_meta) ->
  exists st', kalign_heap fuel size st = Ok (a + sizeof_block_meta, st') /\
    heap_inv st' [b; mk_blk a (p - 2 * sizeof_block_meta) false] /\
    brk (rest (heap st')) + sizeof_block_meta = a + p /\ (a + p) mod size = 0 /\
    forall x, x < a -> ~ b_addr b + 4 <= x < b_addr b + 8 -> view (heap st') x = view (heap st) x.
Proof. apply kalign_heap_ok. Qed.

(** When the break is already a multiple of [size], [kalign_heap] returns
    NULL and leaves the heap as it is, and the next object that [kmalloc]
    takes from [sbrk] is then not aligned: it starts 16 bytes after the
    multiple. *)
Theorem kalign_heap_aligned_break st bs size n :
  heap_inv st bs -> sizeof_block_meta < size -> brk (rest (heap st)) mod size = 0 ->
  0 < n <= MAX_BLOCK -> (length bs <= fuel)%nat -> existsb (fits (ALIGN_UP n 4)) bs = false ->
  room (rest (heap st)) (ALIGN_UP n 4 + sizeof_block_meta) ->
  kalign_heap fuel size st = Ok (0, st) /\
  exists p st', kmalloc fuel n st = Ok (p, st') /\ p mod size = sizeof_block_meta.
Proof.
  intros Hinv Hsz Hal Hn Hf Hno Hroom. split.
  - unfold kalign_heap. rewrite (bind_step _ _ _ (brk (rest (heap st))) st).
    + by rewrite Hal.
    + rewrite (on_heap_ok _ st _ _ (sbrk_zero _ (hi_ok _ _ Hinv))). by destruct st.
  - destruct (kmalloc_ok st bs n Hinv Hn Hf) as [st' Hk]; [done|].
    destruct (first_fit_none _ (brk (rest (heap st))) bs Hno) as [Hff _]. rewrite Hff in Hk.
    destruct Hk as (E & _). do 2 eexists. split; [exact E|]. unfold sizeof_block_meta in *.
    rewrite Z.add_mod, Hal, Z.add_0_l, Z.mod_mod, Z.mod_small by lia. done.
Qed.
End properties.

(** ** A small heap for the witnesses *)

Definition empty_heap : mstate flat_heap := mk_mstate 0 (mk_flat_heap ∅ flat_bottom).

Lemma empty_heap_inv : heap_inv empty_heap [].
Proof.
  split; [|done|done|done]. split_and!; [apply map_Forall_empty|cbn; unfold flat_bottom; lia..|].
  all: intros x; cbn; rewrite ?lookup_empty; unfold flat_bottom; split; [by intros [? ?]|lia].
Qed.

Lemma kmalloc_correct_witness :
  exists st', kmalloc 8 10 empty_heap = Ok (0x1010, st') /\ heap_inv st' [mk_blk 0x1000 12 false].
Proof.
  destruct (kmalloc_correct 8 empty_heap [] 10) as (st' & E & Hinv & _).
  - exact empty_heap_inv.
  - zdec.
  - cbn. lia.
  - intros _. cbn. zdec.
  - exists st'. split; [exact E|exact Hinv].
Defined.

(** A heap of one block, and one of two. *)
Lemma one_block_heap : exists st : mstate flat_heap,
  kmalloc 8 10 empty_heap = Ok (0x1010, st) /\ heap_inv st [mk_blk 0x1000 12 false] /\ rest (heap st) = 0x101C.
Proof.
  destruct (kmalloc_ok 8 empty_heap [] 10) as (st & E & Hinv & _);
    [exact empty_heap_inv|zdec|cbn; lia|intros _; cbn; zdec|].
  exists st. split_and!; [exact E|exact Hinv|].
  assert (option_map (fun x => rest (heap x)) (match kmalloc 8 10 empty_heap with Ok (_, x) => Some x | _ => None end) = Some 0x101C)
    as Hb by (vm_compute; reflexivity).
  rewrite E in Hb. by injection Hb.
Qed.

Lemma two_block_heap : exists st : mstate flat_heap,
  heap_inv st [mk_blk 0x1000 12 false; mk_blk 0x101C 4 false] /\ rest (heap st) = 0x1030.
Proof.
  destruct one_block_heap as (st1 & E1 & Hinv1 & Hr1).
  destruct (kmalloc_ok 8 st1 [mk_blk 0x1000 12 false] 4) as (st2 & Hk);
    [done|zdec|cbn; lia|intros _; rewrite Hr1; cbn; zdec|].
  rewrite Hr1 in Hk. destruct Hk as (E2 & Hinv2 & _). exists st2. split; [exact Hinv2|].
  assert (option_map (fun x => rest (heap x))
    (match (kmalloc 8 10 ≫= fun _ => kmalloc 8 4) empty_heap with Ok (_, x) => Some x | _ => None end) = Some 0x1030)
    as Hb by (vm_compute; reflexivity).
  rewrite (bind_step _ _ _ _ _ E1), E2 in Hb. by injection Hb.
Qed.

Lemma kfree_correct_witness :
  exists st st' : mstate flat_heap, kfree 0x1010 st = Ok (tt, st') /\ heap_inv st' [mk_blk 0x1000 12 true].
Proof.
  destruct one_block_heap as (st & _ & Hinv & _).
  destruct (kfree_correct st _ (mk_blk 0x1000 12 false) Hinv) as (st' & E & Hinv' & _).
  - left.
  - exists st, st'. split; [exact E|exact Hinv'].
Defined.

Lemma kcalloc_correct_witness :
  exists st', kcalloc 8 3 5 empty_heap = Ok (0x1010, st') /\
    forall x, 0x1010 <= x < 0x1010 + 15 -> view (heap st') x = Some 0.
Proof.
  destruct (kcalloc_correct 8 empty_heap [] 3 5) as (st' & E & _ & V).
  - exact empty_heap_inv.
  - zdec.
  - cbn. lia.
  - intros _. cbn. zdec.
  - exists st'. split; [exact E|exact V].
Defined.

Lemma kalign_heap_correct_witness :
  exists st st' : mstate flat_heap, kalign_heap 8 64 st = Ok (0x1030 + 16, st') /\
    heap_inv st' [mk_blk 0x1000 12 false; mk_blk 0x1030 (80 - 32) false].
Proof.
  destruct two_block_heap as (st & Hinv & Hr).
  destruct (kalign_heap_correct 8 st (mk_blk 0x1000 12 false) (mk_blk 0x101C 4 false) [] 64) as (st' & E & Hinv' & _).
  - exact Hinv.
  - zdec.
  - done.
  - rewrite Hr. done.
  - lia.
  - rewrite Hr. cbn. zdec.
  - rewrite Hr in E, Hinv'. exists st, st'. split; [exact E|exact Hinv'].
Defined.

Lemma kalign_heap_aligned_break_witness :
  kalign_heap 8 4096 empty_heap = Ok (0, empty_heap) /\
  exists p st', kmalloc 8 4096 empty_heap = Ok (p, st') /\ p mod 4096 = 16.
Proof.
  apply (kalign_heap_aligned_break 8 empty_heap [] 4096 4096).
  - exact empty_heap_inv.
  - zdec.
  - done.
  - zdec.
  - cbn. lia.
  - done.
  - cbn. zdec.
Defined.
