(* ===== verification/Fork.v ===== *)
(** * The copy of an address space (the loops of [vmm_fork], [memory/vmm.c])

    Every user page of the parent is copied through two pages of the kernel
    heap that are mapped for the time of the copy. The loops are proved
    against the page tables of the machine: the child's directory translates
    the parent's pages to new frames with the same bytes, and the parent's
    address space is unchanged. *)
From Stdlib Require Import ZArith Lia Bool.
From stdpp Require Import base list gmap option.
From S2P Require Import Prelude Bitmap Pmm Mem Heap Vmm Sbrk.

Open Scope Z_scope.

(** [I86_PTE_PRESENT | I86_PTE_WRITABLE | I86_PTE_USER]. *)
Definition user_flags : Z := Z.lor (Z.lor I86_PTE_PRESENT I86_PTE_WRITABLE) I86_PTE_USER.

(** The body of the loop over [ipt]: one page of the parent; the result is
    the new value of [heap_current]. *)
Definition fork_page (va_dir ipd forked_pt ipt heap_current : Z) : M vm Z :=
  let pt := table_window ipd in
  e ← load32 (entry_addr pt ipt);
  if is_page_enabled e then
    let pte := heap_current in
    let forked_pte := u32 (pte + PMM_FRAME_SIZE) in
    let heap_current := u32 (forked_pte + PMM_FRAME_SIZE) in
    forked_pte_paddr ← on_pmm pmm_alloc_block;
    e ← load32 (entry_addr pt ipt);
    vmm_map_address va_dir pte e user_flags ;;
    vmm_map_address va_dir forked_pte forked_pte_paddr user_flags ;;
    memcpy forked_pte pte PMM_FRAME_SIZE ;;
    vmm_unmap_address va_dir pte ;;
    vmm_unmap_address va_dir forked_pte ;;
    store32 (entry_addr forked_pt ipt)
      (Z.lor (Z.lor (Z.lor forked_pte_paddr I86_PTE_PRESENT) I86_PTE_WRITABLE) I86_PTE_USER) ;;
    mret heap_current
  else mret heap_current.

(** [for (ipt = ...; ipt < PAGES_PER_TABLE; ++ipt)], [n] rounds left. *)
Fixpoint fork_pages (va_dir ipd forked_pt ipt heap_current : Z) (n : nat) : M vm Z :=
  match n with
  | O => mret heap_current
  | S n' =>
      heap_current ← fork_page va_dir ipd forked_pt ipt heap_current;
      fork_pages va_dir ipd forked_pt (ipt + 1) heap_current n'
  end.

(** The body of the loop over [ipd]: one table of the parent. *)
Definition fork_table (va_dir forked_dir ipd heap_current : Z) : M vm Z :=
  e ← load32 (entry_addr va_dir ipd);
  if is_page_enabled e then
    let forked_pt := heap_current in
    forked_pt_paddr ← on_pmm pmm_alloc_block;
    vmm_map_address va_dir forked_pt forked_pt_paddr user_flags ;;
    memset forked_pt 0 sizeof_ptable ;;
    let heap_current := u32 (heap_current + sizeof_ptable) in
    heap_current ← fork_pages va_dir ipd forked_pt 0 heap_current (Z.to_nat PAGES_PER_TABLE);
    vmm_unmap_address va_dir forked_pt ;;
    store32 (entry_addr forked_dir ipd)
      (Z.lor (Z.lor (Z.lor forked_pt_paddr I86_PDE_PRESENT) I86_PDE_WRITABLE) I86_PDE_USER) ;;
    mret heap_current
  else mret heap_current.

(** [for (ipd = ...; ipd < 768; ++ipd)], [n] rounds left. *)
Fixpoint fork_tables (va_dir forked_dir ipd heap_current : Z) (n : nat) : M vm Z :=
  match n with
  | O => mret heap_current
  | S n' =>
      heap_current ← fork_table va_dir forked_dir ipd heap_current;
      fork_tables va_dir forked_dir (ipd + 1) heap_current n'
  end.

(** ** Frames that hold data *)

(** What the steps of the copy have in common: the directory stays, taken
    frames stay taken, and data outside the frames of [X] stays. *)
Record evolves (X : Z -> Prop) (s s' : vm) : Prop := {
  ev_same : tables_same s s';
  ev_used : forall c, 0 <= c -> frame_used (frames s) c = true -> frame_used (frames s') c = true;
  ev_data : forall f o, data_frame s f -> ~ X f -> 0 <= o < 4096 ->
    rd8 (phys s') (f + o) = rd8 (phys s) (f + o);
}.

Lemma evolves_frame X s s' f : evolves X s s' -> data_frame s f -> data_frame s' f.
Proof.
  intros [(_ & _ & Hp) Hu _] (Ha & Hf & Ht). split_and!; [done| |].
  - apply Hu; [apply Z.div_pos; [apply Ha|lia]|done].
  - intros k Hk. unfold table. rewrite Hp by done. by apply Ht.
Qed.

Lemma evolves_trans X s1 s2 s3 : evolves X s1 s2 -> evolves X s2 s3 -> evolves X s1 s3.
Proof.
  intros E1 E2. split.
  - eapply tables_same_trans; [apply E1|apply E2].
  - intros c Hc H1. apply E2; [done|]. by apply E1.
  - intros f o Hf Hx Ho. rewrite (ev_data _ _ _ E2), (ev_data _ _ _ E1); try done. by eapply evolves_frame.
Qed.

Lemma evolves_weaken (X Y : Z -> Prop) s s' : (forall f, X f -> Y f) -> evolves X s s' -> evolves Y s s'.
Proof. intros H [S U D]. split; [done..|]. intros f o Hf Hx. apply D; auto. Qed.

Lemma evolves_refl X s : evolves X s s.
Proof. by split; [split_and!|..]. Qed.

Lemma evolves_tlb X s t : evolves X s (with_tlb t s).
Proof. by split; [split_and!|..]. Qed.

Lemma evolves_kept X s s' :
  frames s' = frames s -> tables_same s s' -> data_kept s s' -> evolves X s s'.
Proof.
  intros Hf Hs Hd. split; [done|by rewrite Hf|]. intros f o (Ha & Hu & Ht) _ Ho. by apply Hd.
Qed.

Lemma evolves_word X s s' f k : evolves X s s' -> data_frame s f -> ~ X f -> 0 <= k < 1024 ->
  rd32 (phys s') (f + 4 * k) = rd32 (phys s) (f + 4 * k).
Proof.
  intros Ev Hf Hx Hk. apply rd32_ext. intros x Hr. replace x with (f + (x - f)) by lia. by apply Ev; [..|lia].
Qed.

(** A data frame of [s] is not a frame that [s] has free. *)
Lemma fresh_apart s f g : data_frame s f -> frame_used (frames s) (g / 4096) = false -> g <> f.
Proof. intros (_ & Hu & _) Hg ->. congruence. Qed.

Lemma evolves_fresh (X : Z -> Prop) g s s' :
  frame_used (frames s) (g / 4096) = false -> evolves (fun f => g = f \/ X f) s s' -> evolves X s s'.
Proof.
  intros Hg [T U Dt]. split; [done..|]. intros f o Hf Hx. apply Dt; [done|]. intros [->|]; [|done].
  by eapply fresh_apart.
Qed.

(** ** Writes to data pages *)

Section data_pages.
Context (d : Z) (D : gmap Z Z) (s : vm).
Hypothesis (Hpg : paging d s).
Hypothesis (HD : forall p f, D !! p = Some f ->
  0 <= p < 2 ^ 20 /\ page_walk s (4096 * p) = Some f /\ data_frame s f).
Hypothesis (Hinj : forall p q f, D !! p = Some f -> D !! q = Some f -> p = q).

Lemma data_region : region D s.
Proof.
  pose proof Hpg as [B P C [S1 S2] _ _ _ T _]. split; try done.
  - intros p f Hp. destruct (HD p f Hp) as (? & ? & (? & _)). done.
  - intros p f Hp. destruct (HD p f Hp) as (_ & _ & (_ & _ & Ht)).
    split; [rewrite <- S2; apply not_eq_sym, Ht; [lia|done]|].
    intros q Hq. assert (0 <= q < 2 ^ 20 /\ exists g, page_walk s (4096 * q) = Some g) as [Hq1 [g Hg]].
    { destruct Hq as [[g Hq]|[g Hq]].
      - destruct (HD q g Hq) as (? & ? & _). eauto.
      - destruct (T q g Hq) as [? ?]. eauto. }
    apply Ht; [|by eapply walk_present].
    split; [apply Z.div_pos; lia|apply Z.div_lt_upper_bound; lia].
Qed.

Lemma data_written s' v :
  @leaves vm vm_mem (region_laws D) s s' v ->
  paging d s' /\ frames s' = frames s /\ evolves (fun f => exists p, D !! p = Some f) s s' /\
  (forall va, is_u32 va -> page_walk s' va = page_walk s va) /\
  (forall p f o, D !! p = Some f -> 0 <= o < 4096 -> v (4096 * p + o) = Some (rd8 (phys s') (f + o))).
Proof.
  intros (Hr & Hrest & V). cbn in Hr, Hrest, V.
  assert (forall p f, D !! p = Some f -> page_aligned f /\
    forall k, 0 <= k < 1024 -> is_page_enabled (pde s k) = true -> table s k <> f) as HD'
    by (intros p f Hp; destruct (HD p f Hp) as (_ & _ & (? & _ & ?)); done).
  assert (frames s' = frames s /\ cr3 s' = cr3 s /\ current_dir s' = current_dir s) as (F & C & Cd)
    by (unfold region_rest in Hrest; split_and!; congruence).
  split_and!; [by eapply dw_paging|done| |by apply (dw_walk d D)|].
  - split; [split_and!; [done..|]; by eapply (dw_pde d D)|by rewrite F|].
    intros f o (Ha & _) Hx Ho. apply (dw_bytes D s s' Hrest HD' f); [done| |lia].
    intros p g Hp ->. eauto.
  - intros p f o Hp Ho. rewrite <- V. unfold region_view.
    replace ((4096 * p + o) / 4096) with p by (Z.to_euclidean_division_equations; lia). rewrite Hp.
    by replace ((4096 * p + o) mod 4096) with o by (Z.to_euclidean_division_equations; lia).
Qed.

Lemma data_view p f o : D !! p = Some f -> 0 <= o < 4096 ->
  region_view D s (4096 * p + o) = Some (rd8 (phys s) (f + o)).
Proof.
  intros Hp Ho. unfold region_view.
  replace ((4096 * p + o) / 4096) with p by (Z.to_euclidean_division_equations; lia). rewrite Hp.
  by replace ((4096 * p + o) mod 4096) with o by (Z.to_euclidean_division_equations; lia).
Qed.
End data_pages.

(** A word of a data page. *)
Lemma store_data d s p f i w :
  paging d s -> 0 <= p < 2 ^ 20 -> page_walk s (4096 * p) = Some f -> data_frame s f ->
  0 <= i < 1024 -> is_u32 w ->
  exists s', store32 (entry_addr (4096 * p) i) w s = Ok (tt, s') /\ paging d s' /\ frames s' = frames s /\
    evolves (eq f) s s' /\ (forall va, is_u32 va -> page_walk s' va = page_walk s va) /\
    forall k, 0 <= k < 1024 -> rd32 (phys s') (f + 4 * k) = if k =? i then w else rd32 (phys s) (f + 4 * k).
Proof.
  intros Hpg Hp Hw Hf Hi Hu. set (D := {[p := f]} : gmap Z Z).
  assert (forall q g, D !! q = Some g -> q = p /\ g = f) as HDe
    by (intros q g Hq; apply lookup_singleton_Some in Hq as [-> ->]; done).
  assert (forall q g, D !! q = Some g -> 0 <= q < 2 ^ 20 /\ page_walk s (4096 * q) = Some g /\ data_frame s g) as HD
    by (intros q g Hq; destruct (HDe q g Hq) as [-> ->]; done).
  assert (forall q r g, D !! q = Some g -> D !! r = Some g -> q = r) as Hinj
    by (intros q r g Hq Hr; destruct (HDe _ _ Hq), (HDe _ _ Hr); congruence).
  assert (D !! p = Some f) as HDp by apply lookup_singleton_eq.
  assert (entry_addr (4096 * p) i = 4096 * p + 4 * i) as ->
    by (unfold entry_addr; apply u32_small; unfold is_u32; lia).
  destruct (@store32_law vm vm_mem (region_laws D) s (4096 * p + 4 * i) w) as (s' & E & L).
  { by eapply data_region. }
  { intros k Hk. cbn. rewrite <- Z.add_assoc, (data_view D s p f) by (done || lia). eauto. }
  destruct (data_written d D s Hpg HD s' _ L) as (P' & F' & Ev & W & V).
  exists s'. split_and!; [done..| |done|].
  - eapply evolves_weaken; [|exact Ev]. intros g [q Hq]. by destruct (HDe _ _ Hq).
  - intros k Hk.
    assert (forall b, 0 <= b < 4 -> rd8 (phys s') (f + 4 * k + b) =
      if k =? i then byte_of w b else rd8 (phys s) (f + 4 * k + b)) as Hb.
    { intros b Hb. specialize (V p f (4 * k + b) HDp ltac:(lia)). cbn in V.
      fold (in_range (4096 * p + 4 * i) 4 (4096 * p + (4 * k + b))) in V.
      rewrite (data_view D s p f) in V by (done || lia). rewrite !Z.add_assoc in V. revert V.
      destruct (Z.eqb_spec k i) as [->|]; range_cases; intros [= <-]; [f_equal; lia|done]. }
    pose proof (Hb 0 ltac:(lia)) as H0. rewrite !Z.add_0_r in H0.
    unfold rd32. rewrite H0, !Hb by lia. destruct (k =? i); [by apply le32_byte_of|done].
Qed.

Lemma zero_data d s p f :
  paging d s -> 0 <= p < 2 ^ 20 -> page_walk s (4096 * p) = Some f -> data_frame s f ->
  exists s', memset (4096 * p) 0 sizeof_ptable s = Ok (tt, s') /\ paging d s' /\ frames s' = frames s /\
    evolves (eq f) s s' /\ (forall va, is_u32 va -> page_walk s' va = page_walk s va) /\
    forall k, 0 <= k < 1024 -> rd32 (phys s') (f + 4 * k) = 0.
Proof.
  intros Hpg Hp Hw Hf. set (D := {[p := f]} : gmap Z Z).
  assert (forall q g, D !! q = Some g -> q = p /\ g = f) as HDe
    by (intros q g Hq; apply lookup_singleton_Some in Hq as [-> ->]; done).
  assert (forall q g, D !! q = Some g -> 0 <= q < 2 ^ 20 /\ page_walk s (4096 * q) = Some g /\ data_frame s g) as HD
    by (intros q g Hq; destruct (HDe q g Hq) as [-> ->]; done).
  assert (forall q r g, D !! q = Some g -> D !! r = Some g -> q = r) as Hinj
    by (intros q r g Hq Hr; destruct (HDe _ _ Hq), (HDe _ _ Hr); congruence).
  assert (D !! p = Some f) as HDp by apply lookup_singleton_eq.
  destruct (@memset_ok vm vm_mem (region_laws D) (4096 * p) 0 4096 s) as (s' & E & L).
  { by eapply data_region. }
  { lia. }
  { intros x Hx. replace x with (4096 * p + (x - 4096 * p)) by lia. cbn.
    rewrite (data_view D s p f) by (done || lia). eauto. }
  destruct (data_written d D s Hpg HD s' _ L) as (P' & F' & Ev & W & V).
  exists s'. split_and!; [done..| |done|].
  - eapply evolves_weaken; [|exact Ev]. intros g [q Hq]. by destruct (HDe _ _ Hq).
  - intros k Hk. assert (forall o, 0 <= o < 4096 -> rd8 (phys s') (f + o) = 0) as Hz.
    { intros o Ho. specialize (V p f o HDp Ho). cbn in V. revert V. range_cases. by intros [= <-]. }
    unfold rd32. rewrite <- !Z.add_assoc, !Hz by lia. done.
Qed.

Lemma copy_data d s p q f g :
  paging d s -> 0 <= p < 2 ^ 20 -> 0 <= q < 2 ^ 20 -> p <> q -> f <> g ->
  page_walk s (4096 * p) = Some f -> data_frame s f -> page_walk s (4096 * q) = Some g -> data_frame s g ->
  exists s', memcpy (4096 * q) (4096 * p) PMM_FRAME_SIZE s = Ok (tt, s') /\ paging d s' /\
    frames s' = frames s /\ evolves (eq g) s s' /\
    (forall va, is_u32 va -> page_walk s' va = page_walk s va) /\
    forall o, 0 <= o < 4096 -> rd8 (phys s') (g + o) = rd8 (phys s) (f + o).
Proof.
  intros Hpg Hp Hq Hpq Hfg Wp Hf Wq Hg. set (D := <[p := f]> {[q := g]} : gmap Z Z).
  assert (forall r h, D !! r = Some h -> r = p /\ h = f \/ r = q /\ h = g) as HDe.
  { intros r h Hr. unfold D in Hr. destruct (decide (r = p)) as [->|].
    - rewrite lookup_insert_eq in Hr. injection Hr as <-. auto.
    - rewrite lookup_insert_ne in Hr by done. apply lookup_singleton_Some in Hr as [-> ->]. auto. }
  assert (forall r h, D !! r = Some h -> 0 <= r < 2 ^ 20 /\ page_walk s (4096 * r) = Some h /\ data_frame s h) as HD
    by (intros r h Hr; destruct (HDe r h Hr) as [[-> ->]|[-> ->]]; done).
  assert (forall r u h, D !! r = Some h -> D !! u = Some h -> r = u) as Hinj
    by (intros r u h Hr Hu; destruct (HDe _ _ Hr) as [[-> ->]|[-> ->]], (HDe _ _ Hu) as [[-> ?]|[-> ?]]; congruence).
  assert (D !! p = Some f) as HDp by apply lookup_insert_eq.
  assert (D !! q = Some g) as HDq by (unfold D; rewrite lookup_insert_ne by done; apply lookup_singleton_eq).
  assert (forall r h, D !! r = Some h -> @owns vm vm_mem (region_laws D) s (4096 * r) 4096) as Hown.
  { intros r h Hr x Hx. replace x with (4096 * r + (x - 4096 * r)) by lia. cbn.
    rewrite (data_view D s r h) by (done || lia). eauto. }
  destruct (@memcpy_ok vm vm_mem (region_laws D) (4096 * q) (4096 * p) 4096 s) as (s' & E & L);
    [by eapply data_region|lia|unfold is_u32; lia|unfold is_u32; lia|by eapply Hown|by eapply Hown|
     unfold disjoint; lia|].
  destruct (data_written d D s Hpg HD s' _ L) as (P' & F' & Ev & W & V).
  assert (forall o, 0 <= o < 4096 -> rd8 (phys s') (g + o) = rd8 (phys s) (f + o)) as Hcopy.
  { intros o Ho. specialize (V q g o HDq Ho). unfold copied in V.
    replace (in_range _ _ _) with true in V by (symmetry; apply in_range_spec; lia).
    replace (4096 * p + (4096 * q + o - 4096 * q)) with (4096 * p + o) in V by lia. cbn in V.
    rewrite (data_view D s p f) in V by done. by injection V. }
  exists s'. split_and!; [done..| |done|done].
  split; [apply Ev|apply Ev|]. intros h o Hh Hne Ho. destruct (decide (h = f)) as [->|].
  - specialize (V p f o HDp Ho). unfold copied in V.
    replace (in_range _ _ _) with false in V by (symmetry; apply in_range_false; lia). cbn in V.
    rewrite (data_view D s p f) in V by done. by injection V.
  - apply Ev; [done| |done]. intros [r Hr]. destruct (HDe _ _ Hr) as [[_ ->]|[_ ->]]; congruence.
Qed.

(** ** A new frame *)

(** The next [n] requests for a frame are granted. *)
Fixpoint supply (n : nat) (p : pmm) : Prop :=
  match n with
  | O => True
  | S n' => match pmm_alloc_block p with
            | Ok (r, p') => r <> 0 /\ supply n' p'
            | Fail _ => False
            end
  end.

(** It is enough that [n] frames are left. *)
Lemma supply_enough n : forall p, pmm_wf p -> enough p (Z.of_nat n) -> supply n p.
Proof.
  induction n as [|n IH]; intros p Hwf Hen; [done|]. cbn [supply].
  destruct (pmm_alloc_block_ok p Hwf) as (r & p' & -> & Hwf' & Ha). pose proof Hen as [Hmax Hcount (l & Hnd & Hlen & Hl)].
  destruct Ha as [_ Hfull|f Hf Hfree _ _ Ep Hbm].
  - exfalso. destruct Hfull as [|Hfull]; [lia|]. destruct l as [|c l]; [cbn in Hlen; lia|].
    apply list.Forall_cons in Hl as [[Hc Hu] _]. rewrite Hfull in Hu by done. done.
  - split; [unfold PMM_FRAME_SIZE; lia|]. apply IH; [done|].
    apply (enough_take p p' f 1); [lia| |by rewrite Ep..|].
    + by replace (Z.of_nat n + 1) with (Z.of_nat (S n)) by lia.
    + intros c Hc. unfold frame_used at 1. rewrite (bb_used _ _ _ Hbm) by done. f_equal.
      destruct (Z.eqb_spec c f), (Z.leb_spec f c), (Z.ltb_spec c (f + 1)); done || lia.
Qed.

Lemma fork_alloc d s n :
  paging d s -> supply (S n) (frames s) ->
  exists r p', let s' := with_frames p' s in
    on_pmm pmm_alloc_block s = Ok (r, s') /\ paging d s' /\ supply n p' /\
    evolves (fun _ => False) s s' /\ data_frame s' r /\ frame_used (frames s) (r / 4096) = false.
Proof.
  intros Hpg Hs. destruct (pmm_alloc_block_ok (frames s) (pg_pmm d s Hpg)) as (r & p' & E & W & Ha).
  cbn [supply] in Hs. rewrite E in Hs. destruct Hs as [Hr Hs].
  exists r, p'. cbv zeta. split_and!; [by apply zoom_ok|by eapply paging_alloc|done| | |by eapply alloc_was_free].
  - split; [by split_and!| |done]. intros c Hc Hu. by eapply alloc_keeps.
  - split_and!; [eapply alloc_aligned; [apply Hpg|done]|by eapply alloc_marks|].
    intros k Hk He. by apply (alloc_fresh d s r p' k).
Qed.

(** [vmm_map_address] given a whole page table entry in place of an address. *)
Lemma map_entry d s virt e :
  paging d s -> mappable d virt -> is_page_enabled (pde s (virt / 2 ^ 22)) = true -> is_u32 e ->
  exists s', vmm_map_address d virt e user_flags s = Ok (tt, s') /\ paging d s' /\
    frames s' = frames s /\ tables_same s s' /\ data_kept s s' /\
    forall va, is_u32 va ->
      page_walk s' va = if va / 4096 =? virt / 4096 then Some (get_aligned_address e) else page_walk s va.
Proof.
  intros Hpg Hm Hen He. set (f := get_aligned_address e). set (fl := e mod 4096).
  assert (page_aligned f) as Hf by by apply aligned_page.
  assert (0 <= fl < 4096) as Hfl by (apply Z.mod_pos_bound; lia).
  assert (e = Z.lor f fl) as Hlor.
  { rewrite lor_flags by done. unfold f, fl. rewrite aligned_eq by done. Z.to_euclidean_division_equations. lia. }
  assert (flags_ok (Z.lor fl user_flags)) as Hfo.
  { split; [|by rewrite <- Z.bit0_odd, Z.lor_spec, orb_true_r].
    split; [apply Z.lor_nonneg; split; [lia|done]|].
    destruct (Z.eq_dec (Z.lor fl user_flags) 0) as [->|]; [lia|].
    apply (Z.log2_lt_pow2 _ 12); [apply Z.le_neq; split; [apply Z.lor_nonneg; split; [lia|done]|done]|].
    rewrite Z.log2_lor by (lia || done). apply Z.max_lub_lt; [|done].
    destruct (Z.eq_dec fl 0) as [->|]; [done|]. apply Z.log2_lt_pow2; lia. }
  destruct (map_address_present d s virt f (Z.lor fl user_flags) Hpg Hm Hf Hfo Hen) as (s' & E & R).
  exists s'. split; [|exact R]. rewrite <- E, Hlor. unfold vmm_map_address.
  destruct (load_pde d s (virt / 2 ^ 22) Hpg) as (t1 & E1 & P1); [apply mappable_index in Hm; lia|].
  rewrite pdi_eq by apply Hm. rewrite !(bind_step _ _ _ _ _ E1), Hen. by rewrite Z.lor_assoc.
Qed.

(** ** One page *)

Lemma load_pte d s i j :
  paging d s -> 0 <= i < 1024 -> 0 <= j < 1024 -> is_page_enabled (pde s i) = true ->
  exists t, load32 (entry_addr (table_window i) j) s = Ok (pte s i j, with_tlb t s) /\ paging d (with_tlb t s).
Proof.
  intros Hpg Hi Hj Hen. rewrite window_addr by done.
  destruct (window_split i (4 * j)) as (Hu & _ & _ & Hmod & _); [lia..|].
  destruct (load32_page s (PAGE_TABLE_BASE + i * 4096 + 4 * j) (table s i)) as (t & E & T);
    [apply Hpg|apply Hpg|done|lia|by rewrite (window_walk d), Hen by (done || lia)|].
  rewrite Hmod in E. exists t. split; [exact E|]. by apply paging_tlb.
Qed.

(** The kernel's tables serve a heap page that is not mapped. *)
Definition scratch_page (d : Z) (s : vm) (p : Z) : Prop :=
  KERNEL_HEAP_BOTTOM / 4096 <= p < KERNEL_HEAP_TOP / 4096 /\ p <> d / 4096 /\ page_walk s (4096 * p) = None.

Lemma scratch_index d s p : scratch_page d s p ->
  0 <= p < 983040 /\ 768 <= 4096 * p / 2 ^ 22 < 1023 /\ mappable d (4096 * p) /\ 4096 * p / 4096 = p.
Proof.
  intros ([H1 H2] & Hd & _). change (KERNEL_HEAP_BOTTOM / 4096) with 851968 in H1.
  change (KERNEL_HEAP_TOP / 4096) with 983040 in H2.
  assert (4096 * p / 4096 = p) as Hq by (rewrite (Z.mul_comm 4096), Z.div_mul by lia; done).
  split_and!; [lia|lia|Z.to_euclidean_division_equations; lia..| |done].
  unfold mappable, is_u32, PAGE_TABLE_BASE. rewrite Hq. split_and!; [lia..|done].
Qed.

Lemma kernel_tables_same s s' : tables_same s s' -> kernel_tables s -> kernel_tables s'.
Proof. intros (_ & _ & H) Hk k Hr. rewrite H by lia. by apply Hk. Qed.

Lemma user_flags_ok : flags_ok user_flags.
Proof. split; [vm_compute; split; [discriminate|done]|done]. Qed.

Lemma or_flags r : page_aligned r ->
  Z.lor (Z.lor (Z.lor r I86_PTE_PRESENT) I86_PTE_WRITABLE) I86_PTE_USER = r + 7.
Proof. intros Hr. rewrite <- !Z.lor_assoc. by apply lor_flags. Qed.

(** Mapping one heap page, in terms of [evolves]. *)
Lemma map_scratch d s p e :
  paging d s -> kernel_tables s -> scratch_page d s p -> is_u32 e ->
  exists s', vmm_map_address d (4096 * p) e user_flags s = Ok (tt, s') /\ paging d s' /\
    frames s' = frames s /\ evolves (fun _ => False) s s' /\ kernel_tables s' /\
    forall va, is_u32 va ->
      page_walk s' va = if va / 4096 =? p then Some (get_aligned_address e) else page_walk s va.
Proof.
  intros Hpg Hk Hsp He. destruct (scratch_index _ _ _ Hsp) as (_ & Hix & Hm & Hq).
  destruct (map_entry d s (4096 * p) e Hpg Hm) as (s' & E & P & F & T & K & W); [apply Hk; lia|done|].
  rewrite Hq in W. exists s'. split_and!; [done..|by apply evolves_kept|by eapply kernel_tables_same|done].
Qed.

Lemma unmap_scratch d s p :
  paging d s -> kernel_tables s -> mappable d (4096 * p) ->
  exists s', vmm_unmap_address d (4096 * p) s = Ok (tt, s') /\ paging d s' /\
    frames s' = frames s /\ evolves (fun _ => False) s s' /\ kernel_tables s' /\
    forall va, is_u32 va -> page_walk s' va = if va / 4096 =? p then None else page_walk s va.
Proof.
  intros Hpg Hk Hm. destruct (unmap_address_ok d s (4096 * p) Hpg Hm) as (s' & E & P & F & T & K & W).
  rewrite (Z.mul_comm 4096 p), Z.div_mul in W by lia. rewrite ?(Z.mul_comm p 4096) in *.
  exists s'. split_and!; [done..|by apply evolves_kept|by eapply kernel_tables_same|done].
Qed.

(** The copy of frame [f] to the new frame [g] through pages [p] and [p + 1]. *)
Lemma copy_frame {B} d s p e g (k : M vm B) :
  paging d s -> kernel_tables s -> scratch_page d s p -> scratch_page d s (p + 1) -> is_u32 e ->
  data_frame s (get_aligned_address e) -> data_frame s g -> get_aligned_address e <> g ->
  exists s', (vmm_map_address d (4096 * p) e user_flags ;;
      vmm_map_address d (4096 * (p + 1)) g user_flags ;;
      memcpy (4096 * (p + 1)) (4096 * p) PMM_FRAME_SIZE ;;
      vmm_unmap_address d (4096 * p) ;; vmm_unmap_address d (4096 * (p + 1)) ;; k) s = k s' /\
    paging d s' /\ frames s' = frames s /\ evolves (eq g) s s' /\
    (forall va, is_u32 va -> page_walk s' va = page_walk s va) /\
    forall o, 0 <= o < 4096 -> rd8 (phys s') (g + o) = rd8 (phys s) (get_aligned_address e + o).
Proof.
  intros Hpg Hk S1 S2 He Hf Hg Hfg. set (f := get_aligned_address e) in *.
  destruct (scratch_index _ _ _ S1) as (Hp & _ & M1 & Q1), (scratch_index _ _ _ S2) as (Hp' & _ & M2 & Q2).
  destruct (map_scratch d s p e Hpg Hk S1 He) as (s1 & E1 & P1 & F1 & V1 & K1 & W1). fold f in W1.
  assert (get_aligned_address g = g) as Hga
    by (rewrite <- (Z.add_0_r g) at 1; apply entry_frame; [apply Hg|lia]).
  destruct (map_scratch d s1 (p + 1) g P1 K1) as (s2 & E2 & P2 & F2 & V2 & K2 & W2).
  { destruct S2 as (? & ? & Hn). split_and!; [lia..|done|]. rewrite W1, Q2 by apply M2.
    destruct (Z.eqb_spec (p + 1) p); [lia|done]. }
  { apply Hg. }
  rewrite Hga in W2.
  assert (evolves (fun _ => False) s s2) as V12 by by eapply evolves_trans.
  destruct (copy_data d s2 p (p + 1) f g P2) as (s3 & E3 & P3 & F3 & V3 & W3 & C3);
    [lia|lia|lia|done| |by eapply evolves_frame| |by eapply evolves_frame|].
  { rewrite W2, W1, Q1 by apply M1. destruct (Z.eqb_spec p (p + 1)); [lia|]. by rewrite Z.eqb_refl. }
  { rewrite W2, Q2 by apply M2. by rewrite Z.eqb_refl. }
  destruct (unmap_scratch d s3 p P3) as (s4 & E4 & P4 & F4 & V4 & K4 & W4);
    [by eapply kernel_tables_same; [apply V3|]|done|].
  destruct (unmap_scratch d s4 (p + 1) P4 K4 M2) as (s5 & E5 & P5 & F5 & V5 & K5 & W5).
  assert (evolves (fun _ => False) s3 s5) as V35 by by eapply evolves_trans.
  exists s5. split_and!.
  - rewrite (bind_step _ _ _ _ _ E1), (bind_step _ _ _ _ _ E2), (bind_step _ _ _ _ _ E3), (bind_step _ _ _ _ _ E4).
    by rewrite (bind_step _ _ _ _ _ E5).
  - done.
  - congruence.
  - eapply evolves_trans; [eapply evolves_weaken; [|exact V12]; done|].
    eapply evolves_trans; [exact V3|]. eapply evolves_weaken; [|exact V35]; done.
  - intros va Hva. rewrite W5, W4, W3, W2, W1 by done.
    rewrite (walk_page s va (pg_pse _ _ Hpg) Hva).
    destruct (Z.eqb_spec (va / 4096) (p + 1)) as [->|]; [symmetry; apply S2|].
    destruct (Z.eqb_spec (va / 4096) p) as [->|]; [symmetry; apply S1|done].
  - intros o Ho. assert (data_frame s3 g) by (eapply evolves_frame; [exact V3|]; by eapply evolves_frame).
    by rewrite (ev_data _ _ _ V35), C3, (ev_data _ _ _ V12) by (done || by intros []).
Qed.

Lemma fork_page_copies d s i j pt r p n :
  paging d s -> kernel_tables s -> 0 <= i < 768 -> 0 <= j < 1024 -> is_page_enabled (pde s i) = true ->
  0 <= pt < 2 ^ 20 -> page_walk s (4096 * pt) = Some r -> data_frame s r ->
  let f := get_aligned_address (pte s i j) in
  is_page_enabled (pte s i j) = true -> data_frame s f ->
  scratch_page d s p -> scratch_page d s (p + 1) -> supply (S n) (frames s) ->
  exists g s', fork_page d i (4096 * pt) j (4096 * p) s = Ok (4096 * (p + 2), s') /\ paging d s' /\
    supply n (frames s') /\ evolves (eq r) s s' /\
    (forall va, is_u32 va -> page_walk s' va = page_walk s va) /\
    data_frame s' g /\ frame_used (frames s) (g / 4096) = false /\
    (forall o, 0 <= o < 4096 -> rd8 (phys s') (g + o) = rd8 (phys s) (f + o)) /\
    forall k, 0 <= k < 1024 ->
      rd32 (phys s') (r + 4 * k) = if k =? j then g + 7 else rd32 (phys s) (r + 4 * k).
Proof.
  intros Hpg Hk Hi Hj Hen Hpt Hwr Hr f He Hf S1 S2 Hs.
  destruct (scratch_index _ _ _ S1) as (Hp & _ & M1 & _), (scratch_index _ _ _ S2) as (Hp' & _ & M2 & _).
  destruct (load_pte d s i j Hpg) as (t1 & E1 & P1); [lia|done|done|].
  destruct (fork_alloc d (with_tlb t1 s) n P1 Hs) as (g & p' & Ea & Pa & Sa & Va & Ga & Fa).
  set (s1 := with_frames p' (with_tlb t1 s)) in *.
  destruct (load_pte d s1 i j Pa) as (t2 & E2 & P2); [lia|done|done|].
  set (s2 := with_tlb t2 s1) in *.
  assert (evolves (fun _ => False) s s2) as V2.
  { eapply evolves_trans; [apply evolves_tlb|]. eapply evolves_trans; [exact Va|apply evolves_tlb]. }
  assert (g <> r /\ g <> f) as [Hgr Hgf] by (split; by apply (fresh_apart s)).
  destruct (copy_frame d s2 p (pte s i j) g
    (store32 (entry_addr (4096 * pt) j)
      (Z.lor (Z.lor (Z.lor g I86_PTE_PRESENT) I86_PTE_WRITABLE) I86_PTE_USER) ;; mret (4096 * (p + 2))) P2) as (s3 & E3 & P3 & F3 & V3 & W3 & C3); try done;
    [apply rd32_u32, Hpg|by eapply evolves_frame|].
  assert (data_frame s2 r) as Hr2 by by eapply evolves_frame.
  destruct (flags_enabled g user_flags) as (_ & _ & Hgu); [apply Ga|apply user_flags_ok|].
  destruct (store_data d s3 pt r j (g + 7) P3) as (s4 & E4 & P4 & F4 & V4 & W4 & C4); try done.
  { rewrite W3 by (unfold is_u32; lia). exact Hwr. }
  { by eapply evolves_frame. }
  exists g, s4. split_and!; try done.
  - unfold fork_page, PMM_FRAME_SIZE in *. rewrite (bind_step _ _ _ _ _ E1), He.
    rewrite (bind_step _ _ _ _ _ Ea), (bind_step _ _ _ _ _ E2).
    rewrite (u32_small (4096 * p + 4096)) by (unfold is_u32; lia).
    replace (4096 * p + 4096) with (4096 * (p + 1)) by lia.
    rewrite u32_small by (unfold is_u32; lia). replace (4096 * (p + 1) + 4096) with (4096 * (p + 2)) by lia.
    change (pte s1 i j) with (pte s i j). rewrite E3, or_flags by apply Ga. by rewrite (bind_step _ _ _ _ _ E4).
  - rewrite F4, F3. exact Sa.
  - apply (evolves_fresh _ g); [done|]. eapply evolves_trans; [eapply evolves_weaken; [|exact V2]; done|].
    eapply evolves_trans; [eapply evolves_weaken; [|exact V3]; auto|eapply evolves_weaken; [|exact V4]; auto].
  - intros va Hva. rewrite W4, W3 by done. done.
  - eapply evolves_frame; [exact V4|]. by eapply evolves_frame.
  - intros o Ho. rewrite (ev_data _ _ _ V4), C3 by (done || by eapply evolves_frame). done.
  - intros k Hk4. rewrite C4 by done. destruct (k =? j); [done|].
    by rewrite (evolves_word _ _ _ _ _ V3) by done.
Qed.

(** ** The state of the copy

    [s0] is the machine before the loops. [C] gives each page copied so far
    its new frame, [T] each table copied so far. *)

(** A user page of the parent: its frame, if it has one. *)
Definition user_page (q : Z) : Prop := 0 <= q < 768 * 1024.

Definition copied_entry (o : option Z) : Z :=
  match o with Some g => g + 7 | None => 0 end.

(** How many of the [n] pages from [q] are present. *)
Fixpoint present_pages (s : vm) (q : Z) (n : nat) : nat :=
  match n with
  | O => 0
  | S n' => match page_walk s (4096 * q) with Some _ => 1 | None => 0 end + present_pages s (q + 1) n'
  end.

(** The frames it takes to copy the [n] tables from [i]. *)
Fixpoint needed_frames (s : vm) (i : Z) (n : nat) : nat :=
  match n with
  | O => 0
  | S n' => (if is_page_enabled (pde s i) then S (present_pages s (1024 * i) 1024) else 0)
            + needed_frames s (i + 1) n'
  end.

Section copy.
Context (d : Z) (s0 : vm).

(** The frames of the parent's pages are data, and are not changed. *)
Record source (s : vm) : Prop := {
  so_walk : forall q, user_page q -> page_walk s (4096 * q) = page_walk s0 (4096 * q);
  so_data : forall q f, user_page q -> page_walk s0 (4096 * q) = Some f -> data_frame s f /\
    frame_used (frames s0) (f / 4096) = true /\
    forall o, 0 <= o < 4096 -> rd8 (phys s) (f + o) = rd8 (phys s0) (f + o);
}.

Record copies (s : vm) (C T : gmap Z Z) : Prop := {
  cp_page : forall p g, C !! p = Some g -> data_frame s g /\ frame_used (frames s0) (g / 4096) = false /\
    exists f, page_walk s0 (4096 * p) = Some f /\
      forall o, 0 <= o < 4096 -> rd8 (phys s) (g + o) = rd8 (phys s0) (f + o);
  cp_inj : forall p q g, C !! p = Some g -> C !! q = Some g -> p = q;
  cp_table : forall i r, T !! i = Some r -> data_frame s r /\ frame_used (frames s0) (r / 4096) = false /\
    forall j, 0 <= j < 1024 -> rd32 (phys s) (r + 4 * j) = copied_entry (C !! (1024 * i + j));
  cp_apart : forall i p r, T !! i = Some r -> C !! p = Some r -> False;
}.

(** Everything below page [b] is copied. *)
Record copied_to (s : vm) (C T : gmap Z Z) (b : Z) : Prop := {
  ct_paging : paging d s;
  ct_kernel : kernel_tables s;
  ct_source : source s;
  ct_copies : copies s C T;
  ct_pages : forall q, is_Some (C !! q) <-> 0 <= q < b /\ is_Some (page_walk s0 (4096 * q));
  ct_used : forall c, 0 <= c -> frame_used (frames s0) c = true -> frame_used (frames s) c = true;
}.

(** The user pages have the same frames. *)
Definition user_walks (s s' : vm) : Prop :=
  forall q, user_page q -> page_walk s' (4096 * q) = page_walk s (4096 * q).

Lemma walks_user s s' : (forall va, is_u32 va -> page_walk s' va = page_walk s va) -> user_walks s s'.
Proof. intros W q Hq. apply W. unfold user_page, is_u32 in *. lia. Qed.

Lemma source_evolves X s s' :
  source s -> evolves X s s' -> user_walks s s' ->
  (forall q f, user_page q -> page_walk s0 (4096 * q) = Some f -> ~ X f) -> source s'.
Proof.
  intros [Sw Sd] Ev W Hx. split.
  - intros q Hq. rewrite W by done. by apply Sw.
  - intros q f Hq Hf. destruct (Sd q f Hq Hf) as (Df & Uf & Bf).
    split_and!; [by eapply evolves_frame|done|]. intros o Ho.
    rewrite (ev_data _ _ _ Ev), Bf; try done. by eapply Hx.
Qed.

Lemma copies_evolves X s s' C T :
  copies s C T -> evolves X s s' -> (forall p g, C !! p = Some g -> ~ X g) ->
  (forall i r, T !! i = Some r -> ~ X r) -> copies s' C T.
Proof.
  intros [P I Tb A] Ev HC HT. split; [|done| |done].
  - intros p g Hp. destruct (P p g Hp) as (Dg & Ug & f & Hf & Bf).
    split_and!; [by eapply evolves_frame|done|]. exists f. split; [done|]. intros o Ho.
    rewrite (ev_data _ _ _ Ev), Bf; try done. by eapply HC.
  - intros i r Hi. destruct (Tb i r Hi) as (Dr & Ur & Er).
    split_and!; [by eapply evolves_frame|done|]. intros j Hj.
    rewrite (evolves_word _ _ _ _ _ Ev), Er; try done. by eapply HT.
Qed.

(** A step that only writes frames of [X], none of them a source or a copy. *)
Lemma copied_evolves X s s' C T b :
  copied_to s C T b -> evolves X s s' -> paging d s' -> user_walks s s' ->
  (forall f, X f -> (forall q, user_page q -> page_walk s0 (4096 * q) <> Some f) /\
    (forall p, C !! p <> Some f) /\ (forall i, T !! i <> Some f)) ->
  copied_to s' C T b.
Proof.
  intros [P K S Cp Pg U] Ev P' W HX. split; [done| | | |done|].
  - eapply kernel_tables_same; [apply Ev|done].
  - eapply source_evolves; [done..|]. intros q f Hq Hf Hx. by apply (HX f Hx) in Hf.
  - eapply copies_evolves; [done..| |]; intros q f Hq Hx; by apply (HX f Hx) in Hq.
  - intros c Hc Hu. apply Ev; [done|]. by apply U.
Qed.

(** The table of [i] is being filled: frame [r], mapped at page [pt]. *)
Record filling (s : vm) (C T : gmap Z Z) (i pt r : Z) : Prop := {
  fi_page : 0 <= pt < 2 ^ 20;
  fi_walk : page_walk s (4096 * pt) = Some r;
  fi_data : data_frame s r;
  fi_new : frame_used (frames s0) (r / 4096) = false;
  fi_copy : forall p, C !! p <> Some r;
  fi_table : forall k, T !! k <> Some r;
  fi_index : T !! i = None;
  fi_entries : forall j, 0 <= j < 1024 -> rd32 (phys s) (r + 4 * j) = copied_entry (C !! (1024 * i + j));
}.

Lemma page_entry i j s : pse s = false -> 0 <= i < 768 -> 0 <= j < 1024 -> is_page_enabled (pde s i) = true ->
  page_walk s (4096 * (1024 * i + j)) =
    if is_page_enabled (pte s i j) then Some (get_aligned_address (pte s i j)) else None.
Proof.
  intros Hp Hi Hj He. destruct (page_indices (1024 * i + j)) as (Hu & H1 & H2); [lia|].
  rewrite walk_eq, H1, H2 by done.
  replace ((1024 * i + j) / 1024) with i by (Z.to_euclidean_division_equations; lia).
  replace ((1024 * i + j) mod 1024) with j by (Z.to_euclidean_division_equations; lia). by rewrite He.
Qed.

Lemma copies_insert s C T i j g f :
  copies s C T -> T !! i = None -> 0 <= j < 1024 -> data_frame s g ->
  frame_used (frames s0) (g / 4096) = false -> (forall p, C !! p <> Some g) -> (forall k, T !! k <> Some g) ->
  page_walk s0 (4096 * (1024 * i + j)) = Some f ->
  (forall o, 0 <= o < 4096 -> rd8 (phys s) (g + o) = rd8 (phys s0) (f + o)) ->
  copies s (<[1024 * i + j := g]> C) T.
Proof.
  intros [Pc Ic Tc Ac] Hi Hj Dg Ug HC HT Hf Bg. set (q := 1024 * i + j) in *. split.
  - intros p x. destruct (decide (p = q)) as [->|]; [|rewrite lookup_insert_ne by done; apply Pc].
    rewrite lookup_insert_eq. intros [= <-]. eauto 6.
  - intros p p' x. destruct (decide (p = q)) as [->|], (decide (p' = q)) as [->|];
      rewrite ?lookup_insert_eq, ?lookup_insert_ne by done;
      [done|intros [= <-] H; by apply HC in H|intros H [= <-]; by apply HC in H|apply Ic].
  - intros k x Hk. destruct (Tc k x Hk) as (? & ? & Ex). split_and!; [done..|]. intros l Hl.
    rewrite lookup_insert_ne; [by apply Ex|]. unfold q. intros He.
    assert (k = i) as -> by lia. congruence.
  - intros k p x Hk. destruct (decide (p = q)) as [->|].
    + rewrite lookup_insert_eq. intros [= <-]. by apply HT in Hk.
    + rewrite lookup_insert_ne by done. intros H. exact (Ac k p x Hk H).
Qed.

(** Page [j] of table [i] is copied to [g]. *)
Lemma copied_page s s' C T i j pt r g f :
  copied_to s C T (1024 * i + j) -> filling s C T i pt r -> 0 <= i < 768 -> 0 <= j < 1024 ->
  paging d s' -> evolves (eq r) s s' -> (forall va, is_u32 va -> page_walk s' va = page_walk s va) ->
  data_frame s' g -> frame_used (frames s) (g / 4096) = false ->
  page_walk s (4096 * (1024 * i + j)) = Some f ->
  (forall o, 0 <= o < 4096 -> rd8 (phys s') (g + o) = rd8 (phys s) (f + o)) ->
  (forall k, 0 <= k < 1024 ->
    rd32 (phys s') (r + 4 * k) = if k =? j then g + 7 else rd32 (phys s) (r + 4 * k)) ->
  let C' := <[1024 * i + j := g]> C in
  copied_to s' C' T (1024 * i + j + 1) /\ filling s' C' T i pt r.
Proof.
  intros Hc Hfi Hi Hj P' Ev W Dg Ug Hf Bg Er C'. set (q := 1024 * i + j) in *.
  assert (user_page q) as Hq by (unfold user_page, q; lia).
  pose proof Hc as [P K [Sw Sd] _ Pg U]. pose proof Hfi as [F1 F2 F3 F4 F5 F6 F7 F8].
  assert (page_walk s0 (4096 * q) = Some f) as Hf0 by by rewrite <- Sw.
  assert (forall x, data_frame s x -> g <> x) as Hgx by (intros; by apply (fresh_apart s)).
  assert (frame_used (frames s0) (g / 4096) = false) as Ug0.
  { destruct (frame_used (frames s0) (g / 4096)) eqn:E; [|done]. rewrite U in Ug; [done| |done].
    destruct Dg as (Ha & _). apply Z.div_pos; [apply Ha|lia]. }
  assert (copied_to s' C T q) as [_ K' S' Cp' _ U'].
  { apply (copied_evolves (eq r) s); try done; [by apply walks_user|]. intros x <-. split_and!; [|done..].
    intros q' Hq' Hw. destruct (Sd q' r Hq' Hw) as (_ & ? & _). congruence. }
  destruct (ct_copies _ _ _ _ Hc) as [Cpg _ Ctb _].
  assert (C !! q = None) as HCq.
  { destruct (C !! q) eqn:E; [|done]. assert (is_Some (C !! q)) as Hs by (rewrite E; eauto). apply Pg in Hs. lia. }
  split.
  - split; [done..| | |done].
    + apply (copies_insert s' C T i j g f); try done; [..|].
      * intros p Hp. by apply (Hgx g (proj1 (Cpg p g Hp))).
      * intros k Hk. by apply (Hgx g (proj1 (Ctb k g Hk))).
      * intros o Ho. rewrite Bg by done. by apply (Sd q f Hq Hf0).
    + intros p. unfold C'. destruct (decide (p = q)) as [->|].
      * rewrite lookup_insert_eq, Hf0. split; [intros _; unfold user_page in Hq; split; [lia|eauto]|eauto].
      * rewrite lookup_insert_ne, Pg by done. split; intros [? ?]; (split; [lia|done]).
  - split; try done.
    + rewrite W by (unfold is_u32; lia). done.
    + by eapply evolves_frame.
    + intros p. unfold C'. destruct (decide (p = q)) as [->|].
      * rewrite lookup_insert_eq. intros [= ->]. by apply (Hgx r).
      * by rewrite lookup_insert_ne.
    + intros k Hk. rewrite Er by done. unfold C', q. destruct (Z.eqb_spec k j) as [->|].
      * by rewrite lookup_insert_eq.
      * rewrite lookup_insert_ne by lia. by apply F8.
Qed.

(** What a stretch of the copy of table [i] does: it ends with everything
    below page [b] copied, [m] frames still to be had, and it wrote [r]. *)
Definition stretch (s s' : vm) (C T : gmap Z Z) (b i pt r : Z) (m : nat) : Prop :=
  copied_to s' C T b /\ filling s' C T i pt r /\ supply m (frames s') /\ evolves (eq r) s s' /\
  forall va, is_u32 va -> page_walk s' va = page_walk s va.

Lemma fork_page_ok i j pt r p m s C T :
  copied_to s C T (1024 * i + j) -> filling s C T i pt r -> 0 <= i < 768 -> 0 <= j < 1024 ->
  is_page_enabled (pde s i) = true ->
  let c := present_pages s0 (1024 * i + j) 1 in
  (forall q, p <= q < p + 2 * Z.of_nat c -> scratch_page d s q) -> supply (c + m) (frames s) ->
  exists C' s', fork_page d i (4096 * pt) j (4096 * p) s = Ok (4096 * (p + 2 * Z.of_nat c), s') /\
    stretch s s' C' T (1024 * i + j + 1) i pt r m.
Proof.
  intros Hc Hfi Hi Hj He c Hsc Hs. pose proof Hc as [P K S Cp Pg U]. pose proof Hfi as [F1 F2 F3 F4 F5 F6 F7 F8].
  assert (user_page (1024 * i + j)) as Hq by (unfold user_page; lia).
  pose proof (page_entry i j s (pg_pse _ _ P) Hi Hj He) as Hw.
  pose proof (so_walk s S _ Hq) as Hw0. rewrite Hw in Hw0. cbn [present_pages] in c. unfold c in *. clear c.
  rewrite <- Hw0 in *. destruct (is_page_enabled (pte s i j)) eqn:Een.
  - destruct (fork_page_copies d s i j pt r p m) as (g & s' & E & P' & S' & V & W & Dg & Ug & Bg & Er); try done.
    { by apply (so_data s S _ _ Hq). }
    { apply Hsc. lia. }
    { apply Hsc. lia. }
    exists (<[1024 * i + j := g]> C), s'. split; [exact E|].
    destruct (copied_page s s' C T i j pt r g (get_aligned_address (pte s i j))) as [? ?]; done.
  - destruct (load_pte d s i j P) as (t & E & P'); [lia|done|done|].
    exists C, (with_tlb t s). split.
    { unfold fork_page. rewrite (bind_step _ _ _ _ _ E), Een. cbn. by rewrite Z.add_0_r. }
    split_and!; [|by split|done|apply evolves_tlb|done].
    destruct (copied_evolves (fun _ => False) s (with_tlb t s) C T _ Hc) as [? ? ? ? ? ?]; [apply evolves_tlb|done..|].
    split; try done. intros q. rewrite Pg. split; intros [H1 H2]; (split; [|done]); [lia|].
    destruct (decide (q = 1024 * i + j)) as [->|]; [|lia]. rewrite <- Hw0 in H2. by destruct H2.
Qed.

Lemma scratch_walks s s' p : (forall va, is_u32 va -> page_walk s' va = page_walk s va) ->
  scratch_page d s p -> scratch_page d s' p.
Proof.
  intros W H. destruct (scratch_index _ _ _ H) as (Hp & _). destruct H as (? & ? & ?).
  split_and!; [lia..|done|]. rewrite W by (unfold is_u32; lia). done.
Qed.

Lemma stretch_trans s1 s2 s3 C1 C2 T b1 b2 i pt r m1 m2 :
  stretch s1 s2 C1 T b1 i pt r m1 -> stretch s2 s3 C2 T b2 i pt r m2 -> stretch s1 s3 C2 T b2 i pt r m2.
Proof.
  intros (_ & _ & _ & V1 & W1) (? & ? & ? & V2 & W2). split_and!; [done..|by eapply evolves_trans|].
  intros va Hva. by rewrite W2, W1.
Qed.

Lemma present_pages_S s q n : present_pages s q (S n) = (present_pages s q 1 + present_pages s (q + 1) n)%nat.
Proof. cbn [present_pages]. lia. Qed.

Lemma fork_pages_ok n : forall i j pt r p m s C T,
  copied_to s C T (1024 * i + j) -> filling s C T i pt r -> 0 <= i < 768 -> 0 <= j ->
  j + Z.of_nat n = 1024 -> is_page_enabled (pde s i) = true ->
  let c := present_pages s0 (1024 * i + j) n in
  (forall q, p <= q < p + 2 * Z.of_nat c -> scratch_page d s q) -> supply (c + m) (frames s) ->
  exists C' s', fork_pages d i (4096 * pt) j (4096 * p) n s = Ok (4096 * (p + 2 * Z.of_nat c), s') /\
    stretch s s' C' T (1024 * (i + 1)) i pt r m.
Proof.
  induction n as [|n IH]; intros i j pt r p m s C T Hc Hfi Hi Hj Hn He c Hsc Hs.
  - exists C, s. split; [cbn; unfold mret, M_ret; do 2 f_equal; cbn in c; lia|].
    split_and!; [by replace (1024 * (i + 1)) with (1024 * i + j) by lia|done..|apply evolves_refl|done].
  - unfold c in *. clear c. rewrite present_pages_S in *.
    destruct (fork_page_ok i j pt r p (present_pages s0 (1024 * i + j + 1) n + m) s C T)
      as (C1 & s1 & E1 & St1); try done; [lia|intros q Hq; apply Hsc; lia|by rewrite Nat.add_assoc|].
    pose proof St1 as (Hc1 & Hfi1 & Hs1 & V1 & W1).
    destruct (IH i (j + 1) pt r (p + 2 * Z.of_nat (present_pages s0 (1024 * i + j) 1)) m s1 C1 T)
      as (C2 & s2 & E2 & St2); try done; rewrite ?Z.add_assoc; try done; [lia|lia| | |].
    { destruct V1 as [(_ & _ & Hp) _ _]. by rewrite Hp by lia. }
    { intros q Hq. eapply scratch_walks; [exact W1|]. apply Hsc. lia. }
    exists C2, s2. split; [|by eapply stretch_trans].
    cbn [fork_pages]. rewrite (bind_step _ _ _ _ _ E1). rewrite Z.add_assoc in E2.
    rewrite E2. do 3 f_equal. lia.
Qed.

(** ** One table *)

Lemma table_filled s C T b i pt r :
  copied_to s C T b -> filling s C T i pt r -> copied_to s C (<[i := r]> T) b.
Proof.
  intros [P K S [Pc Ic Tc Ac] Pg U] [F1 F2 F3 F4 F5 F6 F7 F8]. split; try done. split; [done..| |].
  - intros k x. destruct (decide (k = i)) as [->|]; [|rewrite lookup_insert_ne by done; apply Tc].
    rewrite lookup_insert_eq. by intros [= <-].
  - intros k p x. destruct (decide (k = i)) as [->|]; [|rewrite lookup_insert_ne by done; apply Ac].
    rewrite lookup_insert_eq. intros [= <-]. apply F5.
Qed.

(** The child's directory, frame [fd] at page [pd], before table [b]; and
    what the copy has changed in all. *)
Record child (s : vm) (T : gmap Z Z) (pd fd b : Z) : Prop := {
  ch_evolves : evolves (eq fd) s0 s;
  ch_walks : forall va, is_u32 va -> page_walk s va = page_walk s0 va;
  ch_data : data_frame s fd;
  ch_tables : forall k, is_Some (T !! k) <-> 0 <= k < b /\ is_page_enabled (pde s0 k) = true;
  ch_entries : forall k, 0 <= k < 1024 ->
    rd32 (phys s) (fd + 4 * k) =
      match T !! k with Some r => r + 7 | None => rd32 (phys s0) (fd + 4 * k) end;
}.

(** The directory page, before the copy. *)
Record new_directory (pd fd : Z) : Prop := {
  nd_page : 0 <= pd < 2 ^ 20;
  nd_walk : page_walk s0 (4096 * pd) = Some fd;
  nd_used : frame_used (frames s0) (fd / 4096) = true;
  nd_apart : forall q, user_page q -> page_walk s0 (4096 * q) <> Some fd;
}.

(** Starting table [i]: a zeroed frame at page [p]. *)
Lemma start_table i p m s C T :
  copied_to s C T (1024 * i) -> (forall k, is_Some (T !! k) -> k < i) -> 0 <= i < 768 ->
  scratch_page d s p -> supply (S m) (frames s) ->
  exists r s', (forall B (k : Z -> M vm B), (r ← on_pmm pmm_alloc_block;
      vmm_map_address d (4096 * p) r user_flags ;; memset (4096 * p) 0 sizeof_ptable ;; k r) s = k r s') /\
    copied_to s' C T (1024 * i) /\ filling s' C T i p r /\ supply m (frames s') /\
    evolves (eq r) s s' /\ frame_used (frames s) (r / 4096) = false /\
    forall va, is_u32 va -> page_walk s' va = if va / 4096 =? p then Some r else page_walk s va.
Proof.
  intros Hc HT Hi Sp Hs. pose proof Hc as [P K S Cp Pg U].
  destruct (scratch_index _ _ _ Sp) as (Hp & _ & Mp & Qp).
  destruct (fork_alloc d s m P Hs) as (r & p' & Ea & Pa & Sa & Va & Dr & Ur).
  set (s1 := with_frames p' s) in *.
  destruct (map_scratch d s1 p r Pa K Sp) as (s2 & E2 & P2 & F2 & V2 & K2 & W2); [apply Dr|].
  assert (get_aligned_address r = r) as Hra
    by (rewrite <- (Z.add_0_r r) at 1; apply entry_frame; [apply Dr|lia]). rewrite Hra in W2.
  destruct (zero_data d s2 p r P2) as (s3 & E3 & P3 & F3 & V3 & W3 & Z3);
    [lia|by rewrite W2, Qp, Z.eqb_refl by apply Mp|by eapply evolves_frame|].
  assert (evolves (fun _ => False) s s2) as V02 by by eapply evolves_trans.
  assert (evolves (eq r) s s3) as V by (eapply evolves_trans; [eapply evolves_weaken; [|exact V02]; done|done]).
  assert (forall va, is_u32 va -> page_walk s3 va = if va / 4096 =? p then Some r else page_walk s va) as W
    by (intros va Hva; by rewrite W3, W2).
  assert (frame_used (frames s0) (r / 4096) = false) as Ur0.
  { destruct (frame_used (frames s0) (r / 4096)) eqn:E; [|done]. rewrite U in Ur; [done| |done].
    destruct Dr as (Ha & _). apply Z.div_pos; [apply Ha|lia]. }
  destruct Cp as [Pc _ Tc _].
  assert (forall q, C !! q <> Some r) as HCr
    by (intros q Hq; destruct (Pc q r Hq) as (Hd & _); by apply (fresh_apart s r r)).
  assert (forall k, T !! k <> Some r) as HTr
    by (intros k Hk; destruct (Tc k r Hk) as (Hd & _); by apply (fresh_apart s r r)).
  exists r, s3. split_and!; [| |split|rewrite F3, F2; exact Sa|done..]; try done.
  - intros B k. by rewrite (bind_step _ _ _ _ _ Ea), (bind_step _ _ _ _ _ E2), (bind_step _ _ _ _ _ E3).
  - apply (copied_evolves (eq r) s); try done.
    + intros q Hq. rewrite W by (unfold user_page, is_u32 in *; lia).
      rewrite (Z.mul_comm 4096), Z.div_mul, Z.mul_comm by lia. destruct Sp as ([Hlo _] & _).
      change (KERNEL_HEAP_BOTTOM / 4096) with 851968 in Hlo. unfold user_page in Hq.
      destruct (Z.eqb_spec q p); [lia|done].
    + intros x <-. split_and!; [|done..]. intros q Hq Hw.
      destruct (so_data s S q r Hq Hw) as (_ & ? & _). congruence.
  - lia.
  - by rewrite W, Qp, Z.eqb_refl by apply Mp.
  - eapply evolves_frame; [exact V3|]. exact (evolves_frame _ _ _ _ V2 Dr).
  - destruct (T !! i) eqn:E; [|done]. specialize (HT i). rewrite E in HT. specialize (HT ltac:(eauto)). lia.
  - intros j Hj. rewrite Z3 by done. destruct (C !! (1024 * i + j)) eqn:E; [|done].
    assert (is_Some (C !! (1024 * i + j))) as Hs' by (rewrite E; eauto). apply Pg in Hs'. lia.
Qed.

(** A table that the parent does not have. *)
Lemma absent_table i s C T pd fd t :
  copied_to s C T (1024 * i) -> child s T pd fd i -> 0 <= i < 768 -> is_page_enabled (pde s i) = false ->
  paging d (with_tlb t s) ->
  copied_to (with_tlb t s) C T (1024 * (i + 1)) /\ child (with_tlb t s) T pd fd (i + 1).
Proof.
  intros Hc [V W D Tb En] Hi He P'. pose proof Hc as [P K S Cp Pg U].
  assert (is_page_enabled (pde s0 i) = false) as He0.
  { destruct V as [(_ & _ & Hp) _ _]. by rewrite <- Hp by lia. }
  split.
  - destruct (copied_evolves (fun _ => False) s (with_tlb t s) C T _ Hc) as [? ? ? ? _ ?];
      [apply evolves_tlb|done..|]. split; try done.
    intros q. rewrite Pg. split; intros [H1 [f H2]]; (split; [|by exists f]); [lia|].
    destruct (Z.lt_ge_cases q (1024 * i)); [lia|]. exfalso.
    rewrite <- W in H2 by (unfold is_u32; lia).
    apply walk_present in H2; [|apply P|lia].
    replace (q / 1024) with i in H2 by (Z.to_euclidean_division_equations; lia). congruence.
  - split; try done.
    + eapply evolves_trans; [exact V|apply evolves_tlb].
    + intros k. rewrite Tb. split; intros [? H]; (split; [|done]); [lia|].
      destruct (decide (k = i)) as [->|]; [congruence|lia].
Qed.

(** The entry of a filled table is put in the child's directory. *)
Lemma child_entry s s' T pd fd i r :
  child s T pd fd i -> 0 <= i < 768 -> is_page_enabled (pde s0 i) = true ->
  evolves (eq fd) s s' -> (forall va, is_u32 va -> page_walk s' va = page_walk s va) ->
  (forall k, 0 <= k < 1024 ->
    rd32 (phys s') (fd + 4 * k) = if k =? i then r + 7 else rd32 (phys s) (fd + 4 * k)) ->
  child s' (<[i := r]> T) pd fd (i + 1).
Proof.
  intros [V W D Tb En] Hi He Ev W' Er. split.
  - by eapply evolves_trans.
  - intros va Hva. by rewrite W', W.
  - by eapply evolves_frame.
  - intros k. destruct (decide (k = i)) as [->|].
    + rewrite lookup_insert_eq. split; [intros _; split; [lia|done]|eauto].
    + rewrite lookup_insert_ne, Tb by done. split; intros [? ?]; (split; [lia|done]).
  - intros k Hk. rewrite Er by done. destruct (Z.eqb_spec k i) as [->|].
    + by rewrite lookup_insert_eq.
    + rewrite lookup_insert_ne by done. by apply En.
Qed.

(** The steps between leave the child's directory alone. *)
Lemma child_evolves s s' T pd fd b r :
  child s T pd fd b -> frame_used (frames s) (r / 4096) = false -> evolves (eq r) s s' ->
  (forall va, is_u32 va -> page_walk s' va = page_walk s va) -> child s' T pd fd b.
Proof.
  intros [V W D Tb En] Hr Ev W'. split; try done.
  - apply (evolves_trans _ s0 s); [done|]. apply (evolves_fresh _ r); [done|].
    eapply evolves_weaken; [|exact Ev]. auto.
  - intros va Hva. by rewrite W', W.
  - by eapply evolves_frame.
  - intros k Hk. rewrite (evolves_word _ _ _ _ _ Ev); [by apply En|done| |done]. by apply (fresh_apart s).
Qed.

(** Writing the child's directory, or changing the mapping of a heap page,
    keeps what is copied. *)
Lemma copied_directory s s' C T b pd fd :
  new_directory pd fd -> copied_to s C T b -> paging d s' -> evolves (eq fd) s s' ->
  (forall va, is_u32 va -> page_walk s' va = page_walk s va) -> copied_to s' C T b.
Proof.
  intros [_ _ N3 N4] Hc P' Ev W. destruct (ct_copies _ _ _ _ Hc) as [Pc _ Tc _].
  apply (copied_evolves (eq fd) s); try done; [by apply walks_user|]. intros x <-.
  split_and!; [done|intros p Hp; apply Pc in Hp as (_ & ? & _)|intros k Hk; apply Tc in Hk as (_ & ? & _)]; congruence.
Qed.

Lemma copied_scratch s s' C T b s1 p o :
  copied_to s C T b -> scratch_page d s1 p -> paging d s' -> evolves (fun _ => False) s s' ->
  (forall va, is_u32 va -> page_walk s' va = if va / 4096 =? p then o else page_walk s va) ->
  copied_to s' C T b.
Proof.
  intros Hc ([Hlo _] & _) P' Ev W. apply (copied_evolves (fun _ => False) s); try done.
  intros q Hq. rewrite W by (unfold user_page, is_u32 in *; lia).
  rewrite (Z.mul_comm 4096), Z.div_mul, Z.mul_comm by lia.
  change (KERNEL_HEAP_BOTTOM / 4096) with 851968 in Hlo. unfold user_page in Hq.
  destruct (Z.eqb_spec q p); [lia|done].
Qed.

Lemma fork_table_ok i p m s C T pd fd :
  new_directory pd fd -> copied_to s C T (1024 * i) -> child s T pd fd i -> 0 <= i < 768 ->
  let c := needed_frames s0 i 1 in
  (forall q, p <= q < p + 2 * Z.of_nat c -> scratch_page d s q) -> supply (c + m) (frames s) ->
  exists p' C' T' s', fork_table d (4096 * pd) i (4096 * p) s = Ok (4096 * p', s') /\
    p <= p' <= p + 2 * Z.of_nat c /\ supply m (frames s') /\
    copied_to s' C' T' (1024 * (i + 1)) /\ child s' T' pd fd (i + 1).
Proof.
  intros Hnd Hc Hch Hi c Hsc Hs. pose proof Hc as [P K So Cp Pg U]. pose proof Hch as [V W D Tb En].
  assert (pde s i = pde s0 i) as Hpde by (destruct V as [(_ & _ & Hp) _ _]; rewrite Hp by lia; done).
  unfold fork_table. destruct (load_pde d s i P) as (t & E & P'); [lia|].
  rewrite (bind_step _ _ _ _ _ E).
  assert (c = if is_page_enabled (pde s i) then S (present_pages s0 (1024 * i) 1024) else 0%nat) as Hcc
    by (unfold c; cbn [needed_frames]; rewrite Hpde; lia).
  clearbody c. destruct (is_page_enabled (pde s i)) eqn:He; cycle 1.
  { destruct (absent_table i s C T pd fd t) as [? ?]; try done. subst c.
    exists p, C, T, (with_tlb t s). split_and!; try done; lia. }
  set (n := present_pages s0 (1024 * i) 1024) in *. subst c.
  assert (copied_to (with_tlb t s) C T (1024 * i)) as Hc1
    by (by apply (copied_evolves (fun _ => False) s); [|apply evolves_tlb|..]).
  destruct (start_table i p (n + m) (with_tlb t s) C T Hc1) as (r & s1 & E1 & Hc2 & Hf2 & Hs2 & V2 & U2 & W2);
    [intros k Hk; apply Tb in Hk; lia|done|apply Hsc; lia|done|].
  destruct (scratch_index d s p) as (Hp & _ & Mp & Qp); [apply Hsc; lia|].
  destruct (fork_pages_ok 1024 i 0 p r (p + 1) m s1 C T) as (C3 & s3 & E3 & Hc3 & Hf3 & Hs3 & V3 & W3);
    rewrite ?Z.add_0_r; try done.
  { destruct V2 as [(_ & _ & Hp2) _ _]. by rewrite Hp2 by lia. }
  { fold n. intros q Hq. destruct (Hsc q ltac:(lia)) as (H1 & H2 & H3).
    destruct (scratch_index d s q) as (Hq' & _ & Mq & Qq); [apply Hsc; lia|]. split_and!; [lia..|done|].
    rewrite W2, Qq by apply Mq. destruct (Z.eqb_spec q p); [lia|done]. }
  rewrite Z.add_0_r in E3. fold n in E3.
  pose proof (table_filled _ _ _ _ _ _ _ Hc3 Hf3) as Hc3'. pose proof Hc3 as [P3 K3 _ _ _ _].
  destruct (unmap_scratch d s3 p P3 K3 Mp) as (s4 & E4 & P4 & F4 & V4 & K4 & W4).
  assert (forall va, is_u32 va -> page_walk s4 va = page_walk s va) as W04.
  { intros va Hva. rewrite W4, W3, W2 by done. destruct (Z.eqb_spec (va / 4096) p) as [Hq|]; [|done].
    rewrite walk_page, Hq by (done || apply P). symmetry. apply Hsc. lia. }
  assert (evolves (eq r) s s4) as V04.
  { eapply evolves_trans; [apply evolves_tlb|]. eapply evolves_trans; [exact V2|].
    eapply evolves_trans; [exact V3|]. eapply evolves_weaken; [|exact V4]. done. }
  pose proof (child_evolves s s4 T pd fd i r Hch U2 V04 W04) as Hch4.
  pose proof Hnd as [N1 N2 N3 N4]. destruct (flags_enabled r user_flags) as (_ & _ & Hru);
    [apply Hf2|apply user_flags_ok|].
  destruct (store_data d s4 pd fd i (r + 7) P4) as (s5 & E5 & P5 & F5 & V5 & W5 & C5);
    [lia|rewrite W04, W by (unfold is_u32; lia); done|apply Hch4|lia|done|].
  exists (p + 1 + 2 * Z.of_nat n), C3, (<[i := r]> T), s5. split_and!; [|lia|lia|by rewrite F5, F4| |].
  - rewrite E1. unfold sizeof_ptable, PAGES_PER_TABLE. rewrite u32_small by (unfold is_u32; lia).
    replace (4096 * p + 4096) with (4096 * (p + 1)) by lia. change (Z.to_nat 1024) with 1024%nat.
    rewrite (bind_step _ _ _ _ _ E3), (bind_step _ _ _ _ _ E4), or_flags by apply Hf2.
    by rewrite (bind_step _ _ _ _ _ E5).
  - eapply copied_directory; [done| |done..]. eapply copied_scratch; [done| |done..]. apply Hsc. lia.
  - apply (child_entry s4); try done. congruence.
Qed.

(** ** All tables *)

Lemma needed_frames_S s i n : needed_frames s i (S n) = (needed_frames s i 1 + needed_frames s (i + 1) n)%nat.
Proof. cbn [needed_frames]. lia. Qed.

Lemma fork_tables_ok pd fd n : new_directory pd fd -> forall i p m s C T,
  copied_to s C T (1024 * i) -> child s T pd fd i -> 0 <= i -> i + Z.of_nat n = 768 ->
  let c := needed_frames s0 i n in
  (forall q, p <= q < p + 2 * Z.of_nat c -> scratch_page d s q) -> supply (c + m) (frames s) ->
  exists p' C' T' s', fork_tables d (4096 * pd) i (4096 * p) n s = Ok (4096 * p', s') /\
    supply m (frames s') /\ copied_to s' C' T' (1024 * 768) /\ child s' T' pd fd 768.
Proof.
  intros Hnd. induction n as [|n IH]; intros i p m s C T Hc Hch Hi Hn c Hsc Hs.
  - exists p, C, T, s. replace 768 with i by lia. done.
  - unfold c in *. clear c. rewrite needed_frames_S in *.
    destruct (fork_table_ok i p (needed_frames s0 (i + 1) n + m) s C T pd fd)
      as (p1 & C1 & T1 & s1 & E1 & Hp1 & Hs1 & Hc1 & Hch1); try done;
      [lia|intros q Hq; apply Hsc; lia|by rewrite Nat.add_assoc|].
    destruct (IH (i + 1) p1 m s1 C1 T1) as (p2 & C2 & T2 & s2 & E2 & R); try done; [lia|lia| |].
    { intros q Hq. eapply (scratch_walks s); [|apply Hsc; lia].
      intros va Hva. rewrite (ch_walks _ _ _ _ _ Hch1), (ch_walks _ _ _ _ _ Hch); done. }
    exists p2, C2, T2, s2. split; [|done]. cbn [fork_tables]. by rewrite (bind_step _ _ _ _ _ E1).
Qed.

Hypothesis (Hpg : paging d s0) (Hk : kernel_tables s0).
Hypothesis (Huser : forall q f, user_page q -> page_walk s0 (4096 * q) = Some f -> data_frame s0 f).

Lemma copied_start : copied_to s0 ∅ ∅ (1024 * 0).
Proof.
  split; [done..| | | |done].
  - split; [done|]. intros q f Hq Hf. pose proof (Huser q f Hq Hf) as Hd. split_and!; [done|apply Hd|done].
  - split; intros *; rewrite ?lookup_empty; done.
  - intros q. rewrite lookup_empty. split; [by intros [? ?]|lia].
Qed.

Lemma child_start pd fd : data_frame s0 fd -> child s0 ∅ pd fd 0.
Proof.
  intros Hd. split; [apply evolves_refl|done|done| |].
  - intros k. rewrite lookup_empty. split; [by intros [? ?]|lia].
  - intros k Hr. by rewrite lookup_empty.
Qed.
End copy.

(** ** The child's address space *)

(** The machine with another directory loaded. *)
Definition with_cr3 (c : Z) (s : vm) : vm :=
  mk_vm (phys s) c (pse s) (tlb s) (frames s) (current_dir s).

(** What the fork of address space [s] into the directory in frame [fd]
    promises of the state [s'] after it. *)
Record forked (s s' : vm) (fd : Z) : Prop := {
  (** The parent: its pages and its data are as they were. *)
  fk_pages : forall va, is_u32 va -> page_walk s' va = page_walk s va;
  fk_data : forall f o, data_frame s f -> f <> fd -> 0 <= o < 4096 ->
    rd8 (phys s') (f + o) = rd8 (phys s) (f + o);
  (** The child: a page of its own for each page of the parent, the same bytes. *)
  fk_absent : forall va, 0 <= va < KERNEL_HIGHER_HALF ->
    page_walk s va = None -> page_walk (with_cr3 fd s') va = None;
  fk_present : forall va f, 0 <= va < KERNEL_HIGHER_HALF -> page_walk s va = Some f ->
    exists g, page_walk (with_cr3 fd s') va = Some g /\
      frame_used (frames s) (g / 4096) = false /\ frame_used (frames s') (g / 4096) = true /\
      forall o, 0 <= o < 4096 -> rd8 (phys s') (g + o) = rd8 (phys s) (f + o);
  fk_private : forall va vb g, 0 <= va < KERNEL_HIGHER_HALF -> 0 <= vb < KERNEL_HIGHER_HALF ->
    page_walk (with_cr3 fd s') va = Some g -> page_walk (with_cr3 fd s') vb = Some g -> va / 4096 = vb / 4096;
  (** The kernel's half of the child's directory is kept. *)
  fk_kernel : forall k, 768 <= k < 1024 -> rd32 (phys s') (fd + 4 * k) = rd32 (phys s) (fd + 4 * k);
}.

(** The child translates exactly the pages of [C]. *)
Lemma child_walk d s0 s C T pd fd va :
  copied_to d s0 s C T (1024 * 768) -> child s0 s T pd fd 768 ->
  (forall k, 0 <= k < 768 -> rd32 (phys s0) (fd + 4 * k) = 0) -> 0 <= va < KERNEL_HIGHER_HALF ->
  page_walk (with_cr3 fd s) va = C !! (va / 4096).
Proof.
  intros Hc Hch Hz Hva. unfold KERNEL_HIGHER_HALF in Hva. pose proof Hc as [P K S [Pc _ Tc _] Pg U].
  assert (is_u32 va) as Hu by (unfold is_u32; lia).
  set (i := va / 2 ^ 22). set (j := va / 2 ^ 12 mod 2 ^ 10).
  assert (0 <= i < 768 /\ 0 <= j < 1024 /\ va / 4096 = 1024 * i + j) as (Hi & Hj & Hij)
    by (unfold i, j; change (2 ^ 12) with 4096; split_and!; Z.to_euclidean_division_equations; lia).
  rewrite walk_eq by (done || apply P). fold i j. rewrite Hij.
  assert (pde (with_cr3 fd s) i = copied_entry (T !! i)) as Hpde.
  { unfold pde. cbn. rewrite (ch_entries _ _ _ _ _ _ Hch) by lia. rewrite Hz by done. by destruct (T !! i). }
  rewrite Hpde. destruct (T !! i) as [r|] eqn:ET; cbn [copied_entry].
  - destruct (Tc i r ET) as ((Hra & _) & _ & Er).
    destruct (flags_enabled r user_flags Hra user_flags_ok) as (Q1 & Q2 & _).
    change (r + 7) with (r + user_flags) in *. rewrite Q1.
    assert (pte (with_cr3 fd s) i j = copied_entry (C !! (1024 * i + j))) as ->.
    { unfold pte, table. rewrite Hpde. cbn [copied_entry]. change (r + 7) with (r + user_flags).
      rewrite Q2. by apply Er. }
    cbv zeta. destruct (C !! (1024 * i + j)) as [g|] eqn:EC; [|done]. cbn [copied_entry].
    destruct (Pc _ g EC) as ((Hga & _) & _).
    destruct (flags_enabled g user_flags Hga user_flags_ok) as (G1 & G2 & _).
    change (g + 7) with (g + user_flags). by rewrite G1, G2.
  - cbn. symmetry. destruct (C !! (1024 * i + j)) as [g|] eqn:EC; [|done]. exfalso.
    assert (is_Some (C !! (1024 * i + j))) as Hs by (rewrite EC; eauto). apply Pg in Hs as [_ [f Hf]].
    assert (is_Some (T !! i)) as Ht; [|by rewrite ET in Ht; destruct Ht].
    apply (ch_tables _ _ _ _ _ _ Hch). split; [lia|].
    destruct (ch_evolves _ _ _ _ _ _ Hch) as [(_ & _ & Hp) _ _]. rewrite <- Hp by lia.
    rewrite <- (ch_walks _ _ _ _ _ _ Hch) in Hf by (unfold is_u32; lia).
    apply walk_present in Hf; [|apply P|lia].
    by replace ((1024 * i + j) / 1024) with i in Hf by (Z.to_euclidean_division_equations; lia).
Qed.

Lemma copied_forked d s s' C T pd fd :
  copied_to d s s' C T (1024 * 768) -> child s s' T pd fd 768 ->
  (forall k, 0 <= k < 768 -> rd32 (phys s) (fd + 4 * k) = 0) -> pse s = false -> forked s s' fd.
Proof.
  intros Hc Hch Hz Hps. pose proof Hc as [P K So [Pc Ic Tc _] Pg U].
  assert (forall va, 0 <= va < KERNEL_HIGHER_HALF -> is_u32 va /\ 0 <= va / 4096 < 1024 * 768) as Hlow
    by (unfold KERNEL_HIGHER_HALF, is_u32; intros; Z.to_euclidean_division_equations; lia).
  split.
  - apply (ch_walks _ _ _ _ _ _ Hch).
  - intros f o Hf Hne Ho. apply (ch_evolves _ _ _ _ _ _ Hch); [done| |done]. by intros ->.
  - intros va Hva Hw. destruct (Hlow va Hva) as [Hu Hp]. rewrite (child_walk d s s' C T pd) by done.
    destruct (C !! (va / 4096)) eqn:E; [|done]. exfalso.
    assert (is_Some (C !! (va / 4096))) as Hs by (rewrite E; eauto).
    apply Pg in Hs as [_ [f Hf]]. rewrite <- walk_page in Hf by done. congruence.
  - intros va f Hva Hw. destruct (Hlow va Hva) as [Hu Hp]. rewrite (child_walk d s s' C T pd) by done.
    destruct (proj2 (Pg (va / 4096))) as [g Hg]; [split; [lia|]; rewrite <- walk_page by done; eauto|].
    destruct (Pc _ g Hg) as ((_ & Ug & _) & Fg & f' & Hf' & Bg). exists g.
    rewrite <- walk_page in Hf' by done. replace f' with f in Bg by congruence. done.
  - intros va vb g Ha Hb. rewrite !(child_walk d s s' C T pd) by done. apply Ic.
  - intros k Hk. rewrite (ch_entries _ _ _ _ _ _ Hch) by lia. destruct (T !! k) as [r|] eqn:E; [|done]. exfalso.
    assert (is_Some (T !! k)) as Hs by (rewrite E; eauto). apply (ch_tables _ _ _ _ _ _ Hch) in Hs. lia.
Qed.

(** The parent and the heap that the copy starts from: the frames of user
    pages hold data, frame [fd] at page [pd] is a directory of its own with no
    user tables, and from heap page [p] on there are unmapped pages and in the
    frame allocator frames enough for the copy. *)
Record fork_ready (d : Z) (s : vm) (pd fd p : Z) : Prop := {
  fr_paging : paging d s;
  fr_kernel : kernel_tables s;
  fr_user : forall q f, user_page q -> page_walk s (4096 * q) = Some f -> data_frame s f;
  fr_page : 0 <= pd < 2 ^ 20;
  fr_walk : page_walk s (4096 * pd) = Some fd;
  fr_data : data_frame s fd;
  fr_apart : forall q, user_page q -> page_walk s (4096 * q) <> Some fd;
  fr_empty : forall k, 0 <= k < 768 -> rd32 (phys s) (fd + 4 * k) = 0;
  fr_scratch : forall q, p <= q < p + 2 * Z.of_nat (needed_frames s 0 768) -> scratch_page d s q;
  fr_supply : supply (needed_frames s 0 768) (frames s);
}.

Lemma fork_tables_forked d s pd fd p :
  fork_ready d s pd fd p ->
  exists h s', fork_tables d (4096 * pd) 0 (4096 * p) 768 s = Ok (h, s') /\ paging d s' /\
    evolves (eq fd) s s' /\ forked s s' fd.
Proof.
  intros [P K Us Pd Wd Dd Ap Em Sc Sp].
  destruct (fork_tables_ok d s pd fd 768) with (i := 0) (p := p) (m := 0%nat) (s := s) (C := ∅ : gmap Z Z) (T := ∅ : gmap Z Z)
    as (p' & C & T & s' & E & _ & Hc & Hch).
  - split; [done..| |done]. apply Dd.
  - by apply copied_start.
  - by apply child_start.
  - lia.
  - lia.
  - done.
  - by rewrite Nat.add_0_r.
  - do 2 eexists. split; [exact E|]. split; [apply Hc|]. split; [apply Hch|]. by eapply copied_forked; [..|apply P].
Qed.
