(* ===== verification/AddressSpace.v ===== *)
(** * Address spaces of new processes ([memory/vmm.c])

    [vmm_create_address_space] takes a page for a new directory from the
    kernel heap and lets it share the kernel's tables; [vmm_fork] fills it
    with copies of the parent's pages by the loops of [Fork]. Both run on the
    kernel heap over the machine, where the heap allocator and the page
    tables meet. *)
From Stdlib Require Import ZArith Lia Bool.
From stdpp Require Import base list gmap option.
From S2P Require Import Prelude Bitmap Pmm Mem Heap Vmm Sbrk Malloc Fork.

Open Scope Z_scope.

(** [for (i = 768; i < 1023; ++i)], [n] rounds left. *)
Fixpoint share_tables (va_dir i : Z) (n : nat) : M vm unit :=
  match n with
  | O => mret tt
  | S n' =>
      e ← vmm_get_physical_address (table_window i) true;
      store32 (entry_addr va_dir i) e ;;
      share_tables va_dir (i + 1) n'
  end.

Section address_space.
(** The rounds of the heap's list loops. *)
Context (fuel : nat).

Definition on_machine {A} (m : M vm A) : M (mstate kheap) A := on_heap (on_vm m).

Definition vmm_create_address_space (current : Z) : M (mstate kheap) Z :=
  aligned_object ← kalign_heap fuel PMM_FRAME_SIZE;
  va_dir ← kcalloc fuel 1 4096;
  mwhen (negb (aligned_object =? 0)) (kfree aligned_object) ;;
  on_machine (share_tables va_dir 768 (Z.to_nat (1023 - 768))) ;;
  e ← on_machine (vmm_get_physical_address va_dir true);
  on_machine (store32 (entry_addr va_dir 1023) e) ;;
  mret va_dir.

Definition vmm_fork (va_dir : Z) : M (mstate kheap) Z :=
  forked_dir ← vmm_create_address_space va_dir;
  aligned_object ← kalign_heap fuel PMM_FRAME_SIZE;
  heap_current ← on_heap (sbrk 0);
  on_machine (fork_tables va_dir forked_dir 0 heap_current 768) ;;
  mwhen (negb (aligned_object =? 0)) (kfree aligned_object) ;;
  mret forked_dir.
End address_space.

(** ** The new directory *)

Lemma window_index k : 0 <= k < 1024 ->
  is_u32 (table_window k) /\ get_page_directory_index (table_window k) = 1023 /\
  get_page_table_entry_index (table_window k) = k.
Proof.
  intros Hk. destruct (window_split k 0 Hk) as (Hu & Hd & Ht & _); [lia|]. rewrite Z.add_0_r in Hu, Hd, Ht.
  unfold table_window, PMM_FRAME_SIZE. rewrite u32_small by done.
  by rewrite pdi_eq, pti_eq by done.
Qed.

(** The entry through which the recursive directory shows table [k]. *)
Lemma table_entry d s k :
  paging d s -> 0 <= k < 1024 ->
  exists t, vmm_get_physical_address (table_window k) true s = Ok (pde s k, with_tlb t s) /\ paging d (with_tlb t s).
Proof.
  intros Hpg Hk. destruct (window_index k Hk) as (_ & H1 & H2). unfold vmm_get_physical_address. rewrite H1, H2.
  destruct (pg_self d s Hpg) as [S1 S2].
  destruct (load_pte d s 1023 k Hpg) as (t & E & P); [lia|done|done|].
  exists t. rewrite (bind_step _ _ _ _ _ E). split; [|done]. unfold pte. by rewrite S2.
Qed.

Section directory.
Context (d pd fd : Z).
Hypothesis (Hpd : 0 <= pd < 2 ^ 20).

(** A step that writes only the new directory: entry [k] becomes [e k]. *)
Definition directory_step (s s' : vm) (e : Z -> Z) : Prop :=
  paging d s' /\ frames s' = frames s /\ evolves (eq fd) s s' /\
  (forall va, is_u32 va -> page_walk s' va = page_walk s va) /\
  forall k, 0 <= k < 1024 -> rd32 (phys s') (fd + 4 * k) = e k.

Lemma share_tables_ok n : forall i s,
  paging d s -> page_walk s (4096 * pd) = Some fd -> data_frame s fd -> 0 <= i -> i + Z.of_nat n <= 1024 ->
  exists s', share_tables (4096 * pd) i n s = Ok (tt, s') /\
    directory_step s s' (fun k => if in_range i (Z.of_nat n) k then pde s k else rd32 (phys s) (fd + 4 * k)).
Proof.
  induction n as [|n IH]; intros i s Hpg Hw Hf Hi Hn.
  - exists s. split; [done|]. unfold directory_step. split_and!; [done|done|apply evolves_refl|done|].
    intros k Hk. range_cases.
  - cbn [share_tables]. destruct (table_entry d s i Hpg) as (t & E & P); [lia|]. rewrite (bind_step _ _ _ _ _ E).
    destruct (store_data d (with_tlb t s) pd fd i (pde s i) P) as (s1 & E1 & P1 & F1 & V1 & W1 & C1);
      [done|done|done|lia|apply rd32_u32, Hpg|].
    rewrite (bind_step _ _ _ _ _ E1).
    assert (evolves (eq fd) s s1) as V by (eapply evolves_trans; [apply evolves_tlb|done]).
    destruct (IH (i + 1) s1) as (s2 & E2 & P2 & F2 & V2 & W2 & C2);
      [done|by rewrite W1 by (unfold is_u32; lia)|by eapply evolves_frame|lia|lia|].
    exists s2. split; [done|]. unfold directory_step. split_and!; [done|by rewrite F2, F1|by eapply evolves_trans| |].
    + intros va Hva. by rewrite W2, W1.
    + intros k Hk. rewrite C2, C1 by done. destruct V as [(_ & _ & Hp) _ _]. rewrite Hp by done.
      change (phys (with_tlb t s)) with (phys s).
      destruct (Z.eqb_spec k i) as [->|]; range_cases.
Qed.

(** The entry of a mapped page names its frame. *)
Lemma page_own_entry s :
  paging d s -> page_walk s (4096 * pd) = Some fd ->
  exists e t, vmm_get_physical_address (4096 * pd) true s = Ok (e, with_tlb t s) /\ paging d (with_tlb t s) /\
    is_u32 e /\ is_page_enabled e = true /\ get_aligned_address e = fd.
Proof.
  intros Hpg Hw. destruct (page_indices pd Hpd) as (Hu & Hi & Hj).
  destruct (index_ranges (4096 * pd) Hu) as [R1 R2].
  rewrite walk_eq in Hw by (done || apply Hpg). unfold vmm_get_physical_address. rewrite pdi_eq, pti_eq by done.
  destruct (is_page_enabled (pde s _)) eqn:E1; [|done]. cbv zeta in Hw.
  destruct (is_page_enabled (pte s _ _)) eqn:E2; [|done]. injection Hw as Hw.
  destruct (load_pte d s _ _ Hpg R1 R2 E1) as (t & E & P). rewrite (bind_step _ _ _ _ _ E).
  do 2 eexists. split_and!; [done|done|apply rd32_u32, Hpg|done|done].
Qed.

(** A directory step seen as a write through another one. *)
Lemma directory_trans s1 s2 s3 e1 e2 :
  directory_step s1 s2 e1 -> directory_step s2 s3 e2 -> directory_step s1 s3 e2.
Proof.
  intros (_ & F1 & V1 & W1 & _) (P & F2 & V2 & W2 & C). unfold directory_step.
  split_and!; [done|congruence|by eapply evolves_trans| |done]. intros va Hva. by rewrite W2, W1.
Qed.

Lemma self_entry_ok s e :
  paging d s -> page_walk s (4096 * pd) = Some fd -> data_frame s fd -> is_u32 e ->
  exists s', store32 (entry_addr (4096 * pd) 1023) e s = Ok (tt, s') /\
    directory_step s s' (fun k => if k =? 1023 then e else rd32 (phys s) (fd + 4 * k)).
Proof.
  intros Hpg Hw Hf He. destruct (store_data d s pd fd 1023 e Hpg Hpd Hw Hf) as (s' & E & R); [lia|done|].
  by exists s'.
Qed.
End directory.

(** ** The kernel heap under the directory *)

Lemma on_machine_ok {A} (m : M vm A) (st : mstate kheap) a v :
  m (kvm (heap st)) = Ok (a, v) ->
  on_machine m st = Ok (a, mk_mstate (kblocklist st) (with_kvm v (heap st))).
Proof. intros E. apply on_heap_ok. by apply zoom_vm. Qed.

(** The heap after steps on the machine that leave its pages mapped as they are. *)
Lemma kheap_evolves X h v :
  kheap_ok h -> paging (current_dir (kvm h)) v -> evolves X (kvm h) v ->
  (forall va, is_u32 va -> page_walk v va = page_walk (kvm h) va) ->
  kheap_ok (with_kvm v h) /\
  forall x, (forall f, page_walk (kvm h) x = Some f -> ~ X f) -> heap_view (with_kvm v h) x = heap_view h x.
Proof.
  intros Hok P Ev W. pose proof Hok as [P0 Tb Dr L H R E G]. destruct (ev_same _ _ _ Ev) as (_ & Cd & Hp).
  split.
  - split; cbn; rewrite ?Cd; try done.
    + intros k Hk. rewrite Hp by lia. by apply Tb.
    + destruct G as [G1 G2]. split.
      * intros p Hr. rewrite W by (by eapply heap_page_u32). destruct (G1 p Hr) as (f & Hf & Hu & Ht).
        assert (page_aligned f) as Ha
          by (eapply walk_aligned; [apply P0|apply P0| |exact Hf]; by eapply heap_page_u32).
        exists f. split_and!; [done|apply Ev; [apply Z.div_pos; [apply Ha|lia]|done]|].
        intros k Hk. unfold table. rewrite Hp by done. by apply Ht.
      * intros p q f Hr Hq. rewrite !W by (by eapply heap_page_u32). by apply G2.
  - intros x Hx. unfold heap_view. cbn. destruct (in_range _ _ x) eqn:Ex; [|done]. apply in_range_spec in Ex.
    destruct (heap_mapped h x Hok) as (Hu & f & Hw & Hm & _); [lia|]. rewrite W, Hw by done. f_equal.
    destruct (kheap_data h _ f Hok Hm) as (Ha & Uf & Tf).
    apply Ev; [done|by apply Hx|apply Z.mod_pos_bound; lia].
Qed.

(** Steps that write only the frame of heap page [pd]. *)
Lemma other_pages_kept h v pd fd :
  kheap_ok h -> paging (current_dir (kvm h)) v -> evolves (eq fd) (kvm h) v ->
  (forall va, is_u32 va -> page_walk v va = page_walk (kvm h) va) ->
  KERNEL_HEAP_BOTTOM <= 4096 * pd -> 4096 * (pd + 1) <= kernel_heap_current h ->
  page_walk (kvm h) (4096 * pd) = Some fd ->
  forall x, x / 4096 <> pd -> heap_view (with_kvm v h) x = heap_view h x.
Proof.
  intros Hok P V W Hlo Hhi Hw x Hx. pose proof Hok as [_ _ _ _ _ R _ _].
  destruct (in_range KERNEL_HEAP_BOTTOM (kernel_heap_current h - KERNEL_HEAP_BOTTOM) x) eqn:Ex;
    [|unfold heap_view; cbn; by rewrite Ex].
  apply in_range_spec in Ex. apply (kheap_evolves (eq fd) h v Hok P V W). intros f Hfx <-. apply Hx.
  destruct (heap_mapped h x Hok) as (_ & f & Hw' & Hm & _); [lia|].
  destruct (heap_mapped h (4096 * pd) Hok) as (_ & g & Hg & Hm' & _); [lia|].
  assert (f = g) as -> by congruence.
  rewrite (rg_inj _ _ (kheap_region h Hok) _ _ _ Hm Hm'), (Z.mul_comm 4096), Z.div_mul by lia. done.
Qed.

Lemma around_evolves h v pd fd :
  kheap_ok h -> evolves (eq fd) (kvm h) v -> frames v = frames (kvm h) ->
  (forall va, is_u32 va -> page_walk v va = page_walk (kvm h) va) ->
  heap_map h !! pd = Some fd -> around h (with_kvm v h).
Proof.
  intros Hok V F W Hm. split; cbn; rewrite ?F; try done.
  - apply V.
  - intros va Hva _. by apply W.
  - intros f o Hf Hh Ho. apply V; [done| |done]. intros <-. by apply Hh in Hm.
  - intros p f Hp. left. apply pages_of_lookup in Hp as [Hr Hw]. apply pages_of_lookup. split; [done|].
    rewrite <- W; [done|by eapply heap_page_u32].
  - intros n. change (heap_limit (with_kvm v h)) with (heap_limit h). by rewrite Z.sub_diag, Z.add_0_r.
Qed.

(** ** A block at the break *)

Section extend.
Context {S : Type} `{HeapLaws S}.
Context (fuel : nat).

(** [kmalloc] when no block of a non-empty list fits: the break moves by the
    block and its header. *)
Lemma kmalloc_extends (st : mstate S) bs n :
  heap_inv st bs -> bs <> [] -> (length bs <= fuel)%nat -> 0 < n <= MAX_BLOCK -> n mod 4 = 0 ->
  existsb (fits n) bs = false -> room (rest (heap st)) (n + sizeof_block_meta) ->
  let a := brk (rest (heap st)) in
  exists st', kmalloc fuel n st = Ok (a + sizeof_block_meta, st') /\
    heap_inv st' (bs ++ [mk_blk a n false]) /\ brk (rest (heap st')) = a + sizeof_block_meta + n /\
    forall x, x < a -> ~ last_addr bs 0 + 4 <= x < last_addr bs 0 + 8 -> view (heap st') x = view (heap st) x.
Proof.
  intros Hinv Hne Hf Hn Hn4 Hex Hroom a. pose proof Hinv as [_ Hhead Hbrk Hseg].
  assert (ALIGN_UP n 4 = n) as Hal.
  { destruct (ALIGN_UP_4 n) as [? ?]; [unfold MAX_BLOCK in *; lia|]. Z.to_euclidean_division_equations. lia. }
  destruct (first_fit_none n a bs Hex) as [_ Hfr].
  destruct (search_ok fuel st bs n Hinv Hne Hf) as (st1 & E1 & Hh1). rewrite Hfr, last_addr_nonnil in E1 by done.
  destruct (extend_ok st1 _ _ bs n Hh1 Hseg Hbrk Hn Hn4 Hroom) as (st2 & r2 & v2 & E2 & Hh2 & Hb2 & Hs2 & _).
  destruct (request_space_ok st1 _ _ _ (last_addr bs 0) n Hh1 Hn Hroom) as (st2' & r2' & E2' & Hh2' & Hb2').
  { intros Hl. unfold last_addr in *. destruct (list.last bs) as [b|] eqn:El; [|done].
    destruct (seg_elem _ _ _ _ _ b Hseg) as (? & (_ & ? & _) & ?); [by eapply last_Some_elem_of|].
    unfold b_end, sizeof_block_meta in *. lia. }
  rewrite E2 in E2'. injection E2' as <-. assert (r2' = r2) as -> by (destruct Hh2, Hh2'; congruence).
  assert (forall x, v2 x = request_view (view (heap st)) (brk (rest (heap st))) n (last_addr bs 0) x) as Hv2
    by (intros x; by rewrite <- (h_view _ _ _ _ Hh2), (h_view _ _ _ _ Hh2')).
  fold a in E2, Hs2, Hb2'. set (b := mk_blk a n false) in *.
  assert (b ∈ bs ++ [b]) as Hb by (apply elem_of_app; right; left).
  destruct (seg_block_at _ _ _ _ _ b Hs2 Hb) as [nx Hat].
  destruct (seg_elem _ _ _ _ _ b Hs2 Hb) as (Hblo & _ & Hbe).
  destruct (valid_ok st2 _ _ _ b nx Hh2 Hat) as (st3 & E3 & Hh3); [cbn; lia|].
  destruct (heap_bounds _ _ _ _ Hh3) as [Hr3 _]. pose proof heap_bottom_pos.
  cbn [b_addr b] in *. unfold sizeof_block_meta, MAX_BLOCK in *. exists st3. split_and!.
  - unfold kmalloc. destruct (Z.leb_spec n 0); [lia|]. rewrite Hal. cbn zeta. unfold pick_block.
    erewrite bind_step; [erewrite bind_step by exact E3|].
    + destruct (Z.eqb_spec a 0); [lia|]. cbn [negb]. rewrite u32_small by (unfold is_u32, sizeof_block_meta; lia). done.
    + rewrite (bind_step _ _ _ (head_or bs 0) st) by (unfold gets; by rewrite Hhead).
      pose proof (head_nonzero st bs Hinv Hne). destruct (Z.eqb_spec (head_or bs 0) 0); [done|]. cbn [negb].
      by rewrite (bind_step _ _ _ _ _ E1).
  - eapply holds_inv; [|done|exact Hs2]. by destruct bs.
  - destruct Hh3 as [_ _ -> _]. lia.
  - intros x Hx Hl. rewrite (h_view _ _ _ _ Hh3), Hv2. apply request_view_ne; [done|lia|done].
Qed.

Lemma kcalloc_extends (st : mstate S) bs n :
  heap_inv st bs -> bs <> [] -> (length bs <= fuel)%nat -> 0 < n <= MAX_BLOCK -> n mod 4 = 0 ->
  existsb (fits n) bs = false -> room (rest (heap st)) (n + sizeof_block_meta) ->
  let a := brk (rest (heap st)) in
  exists st', kcalloc fuel 1 n st = Ok (a + sizeof_block_meta, st') /\
    heap_inv st' (bs ++ [mk_blk a n false]) /\ brk (rest (heap st')) = a + sizeof_block_meta + n /\
    (forall x, a + sizeof_block_meta <= x < a + sizeof_block_meta + n -> view (heap st') x = Some 0) /\
    forall x, x < a -> ~ last_addr bs 0 + 4 <= x < last_addr bs 0 + 8 -> view (heap st') x = view (heap st) x.
Proof.
  intros Hinv Hne Hf Hn Hn4 Hex Hroom a.
  destruct (kmalloc_extends st bs n Hinv Hne Hf Hn Hn4 Hex Hroom) as (st1 & E1 & Hinv1 & Hb1 & Hk1). fold a in E1, Hinv1, Hb1, Hk1.
  set (b := mk_blk a n false) in *.
  assert (b ∈ bs ++ [b]) as Hb by (apply elem_of_app; right; left).
  destruct (holds_memset st1 _ b n Hinv1 Hb) as (st2 & E2 & Hinv2 & V); [cbn; lia|]. cbn [b_addr b] in E2, V.
  pose proof heap_bottom_pos. pose proof Hinv1 as [Hok1 _ _ Hs1].
  destruct (seg_elem _ _ _ _ _ b Hs1 Hb) as (Hblo & _). cbn in Hblo. unfold sizeof_block_meta, MAX_BLOCK in *.
  destruct (memset_ok (a + 16) 0 n (heap st1) Hok1) as (h & Eh & _ & Hr & _); [lia| |].
  { intros x Hx. apply heap_owned; [done|]. lia. }
  rewrite (on_heap_ok _ _ _ _ Eh) in E2. injection E2 as E2.
  exists st2. split_and!; [|done| | |].
  - unfold kcalloc. rewrite Z.mul_1_l, u32_small by (unfold is_u32; lia).
    rewrite (bind_step _ _ _ _ _ E1). destruct (Z.eqb_spec (a + 16) 0); [lia|]. cbn [negb].
    rewrite (bind_step _ _ _ tt st2); [done|]. by rewrite <- E2, (on_heap_ok _ _ _ _ Eh).
  - rewrite <- E2. cbn. rewrite Hr. done.
  - intros x Hx. rewrite V. range_cases.
  - intros x Hx Hl. rewrite V, <- Hk1 by done. range_cases.
Qed.
End extend.

(** ** vmm_create_address_space *)

(** The page directory in the heap page [pd], frame [fd]: no user tables,
    the kernel's tables, and itself as entry 1023. *)
Record directory (s : vm) (pd fd : Z) : Prop := {
  dr_page : KERNEL_HEAP_BOTTOM <= 4096 * pd < KERNEL_HEAP_TOP;
  dr_walk : page_walk s (4096 * pd) = Some fd;
  dr_data : data_frame s fd;
  dr_user : forall k, 0 <= k < 768 -> rd32 (phys s) (fd + 4 * k) = 0;
  dr_kernel : forall k, 768 <= k < 1023 -> rd32 (phys s) (fd + 4 * k) = pde s k;
  dr_self : is_page_enabled (rd32 (phys s) (fd + 4 * 1023)) = true /\
    get_aligned_address (rd32 (phys s) (fd + 4 * 1023)) = fd;
}.

(** A zeroed heap page becomes a directory. *)
Lemma fill_directory {B} (h : kheap) k pd (cont : M (mstate kheap) B) :
  kheap_ok h -> KERNEL_HEAP_BOTTOM <= 4096 * pd -> 4096 * (pd + 1) <= kernel_heap_current h ->
  (forall x, 4096 * pd <= x < 4096 * (pd + 1) -> heap_view h x = Some 0) ->
  exists fd v, (on_machine (share_tables (4096 * pd) 768 (Z.to_nat (1023 - 768))) ;;
      e ← on_machine (vmm_get_physical_address (4096 * pd) true);
      on_machine (store32 (entry_addr (4096 * pd) 1023) e) ;; cont) (mk_mstate k h)
      = cont (mk_mstate k (with_kvm v h)) /\
    kheap_ok (with_kvm v h) /\ directory v pd fd /\ around h (with_kvm v h) /\
    forall x, x / 4096 <> pd -> heap_view (with_kvm v h) x = heap_view h x.
Proof.
  intros Hok Hlo Hhi Hz. pose proof Hok as [P K _ _ Htop R _ G]. set (d := current_dir (kvm h)) in *.
  assert (0 <= pd < 2 ^ 20) as Hpd by (unfold KERNEL_HEAP_BOTTOM, KERNEL_HEAP_TOP in *; lia).
  destruct (heap_mapped h (4096 * pd) Hok) as (Hu & fd & Hw & Hm & _); [lia|].
  rewrite (Z.mul_comm 4096 pd), Z.div_mul in Hm by lia.
  assert (data_frame (kvm h) fd) as Hf by exact (kheap_data h _ fd Hok Hm).
  assert (forall o, 0 <= o < 4096 -> rd8 (phys (kvm h)) (fd + o) = 0) as Hz8.
  { intros o Ho. specialize (Hz (4096 * pd + o) ltac:(lia)). unfold heap_view in Hz.
    assert ((4096 * pd + o) / 4096 = pd /\ (4096 * pd + o) mod 4096 = o) as [Q1 Q2]
      by (Z.to_euclidean_division_equations; lia).
    destruct (in_range _ _ _); [|done]. rewrite walk_page, Q1, Hw, Q2 in Hz by (apply P || (unfold is_u32 in *; lia)).
    congruence. }
  assert (forall j, 0 <= j < 1024 -> rd32 (phys (kvm h)) (fd + 4 * j) = 0) as Hz32
    by (intros j Hj; unfold rd32; by rewrite <- !Z.add_assoc, !Hz8 by lia).
  destruct (share_tables_ok d pd fd Hpd (Z.to_nat (1023 - 768)) 768 (kvm h)) as (v1 & E1 & D1); [done..|lia|lia|].
  pose proof D1 as (P1 & F1 & V1 & W1 & C1).
  destruct (page_own_entry d pd fd Hpd v1 P1) as (e & t & E2 & P2 & Hu2 & He & Ha); [by rewrite W1|].
  destruct (self_entry_ok d pd fd Hpd (with_tlb t v1) e P2) as (v2 & E3 & D3);
    [by etransitivity; [apply W1|]|exact (evolves_frame _ _ _ _ V1 Hf)|done|].
  assert (directory_step d fd v1 (with_tlb t v1) (fun j => rd32 (phys v1) (fd + 4 * j))) as D2
    by (unfold directory_step; split_and!; done || apply evolves_tlb).
  pose proof (directory_trans _ _ _ _ _ _ _ D1 (directory_trans _ _ _ _ _ _ _ D2 D3)) as (P4 & F4 & V4 & W4 & C4).
  destruct (kheap_evolves (eq fd) h v2 Hok P4 V4 W4) as [Hok4 Hv4].
  exists fd, v2. split_and!; [|done| | |].
  - rewrite (bind_step _ _ _ _ _ (on_machine_ok _ (mk_mstate k h) _ _ E1)).
    erewrite bind_step by (apply on_machine_ok; exact E2).
    by erewrite bind_step by (apply on_machine_ok; exact E3).
  - assert (forall j, 0 <= j < 1024 -> rd32 (phys v2) (fd + 4 * j) =
      if j =? 1023 then e else if in_range 768 255 j then pde (kvm h) j else 0) as C.
    { intros j Hj. rewrite C4 by done. destruct (j =? 1023); [done|].
      change (phys (with_tlb t v1)) with (phys v1). rewrite C1 by done. by rewrite Hz32. }
    split; [lia|by rewrite W4|exact (evolves_frame _ _ _ _ V4 Hf)| | |].
    + intros j Hj. rewrite C by lia. destruct (Z.eqb_spec j 1023); [lia|]. range_cases.
    + intros j Hj. rewrite C by lia. destruct (Z.eqb_spec j 1023); [lia|].
      destruct V4 as [(_ & _ & Hp4) _ _]. rewrite Hp4 by lia. range_cases.
    + by rewrite C by lia.
  - by apply (around_evolves h v2 pd fd).
  - by apply (other_pages_kept h v2 pd fd).
Qed.

(** Freeing the padding between the first block and the directory. *)
Lemma free_padding {L : MemLaws kheap} {HL : HeapLaws kheap} (st : mstate kheap) b a n c :
  heap_inv st [b; mk_blk a n false; c] ->
  exists st', kfree (a + sizeof_block_meta) st = Ok (tt, st') /\ heap_inv st' [b; mk_blk a n true; c] /\
    rest (heap st') = rest (heap st) /\ forall x, x <> a + 8 -> view (heap st') x = view (heap st) x.
Proof.
  intros Hinv. pose proof Hinv as [_ _ _ (B1 & (_ & B2 & _) & _ & B3 & (_ & B4 & _) & _ & B5 & _)].
  destruct (kfree_ok st _ (mk_blk a n false) Hinv) as (st' & E & Hinv' & Hr & V); [right; left|].
  cbn [b_addr b_size] in *. unfold b_end, sizeof_block_meta, mark_free in *. cbn in Hinv'. cbn [b_addr b_size] in *.
  rewrite Z.eqb_refl in Hinv'. destruct (Z.eqb_spec (b_addr b) a); [lia|]. destruct (Z.eqb_spec (b_addr c) a); [lia|].
  exists st'. split_and!; [done..|]. intros x Hx. rewrite V. by destruct (Z.eqb_spec x (a + 8)).
Qed.

(** Writing the payload of the last block keeps the block list. *)
Lemma payload_written (st : mstate kheap) b1 b2 b3 v pd :
  heap_inv st [b1; b2; b3] -> b_addr b3 + sizeof_block_meta = 4096 * pd -> 4096 <= b_size b3 ->
  kheap_ok (with_kvm v (heap st)) ->
  (forall x, x / 4096 <> pd -> heap_view (with_kvm v (heap st)) x = heap_view (heap st) x) ->
  heap_inv (mk_mstate (kblocklist st) (with_kvm v (heap st))) [b1; b2; b3].
Proof.
  intros [Hok Hh Hb Hs] H3 Hsz Hok' V. split; [done..|].
  eapply seg_ext; [|exact Hs]. intros x _ (c & Hc & Hx). apply V. intros Hp.
  destruct (seg_disjoint _ _ _ _ _ b3 c Hs) as [->|Hd]; [right; right; left|done| |].
  - unfold sizeof_block_meta in *. Z.to_euclidean_division_equations. lia.
  - destruct (seg_elem _ _ _ _ _ c Hs Hc) as (_ & (_ & ? & _) & _).
    unfold b_end, sizeof_block_meta in *. Z.to_euclidean_division_equations. lia.
Qed.

(** The block list of a heap together with what is around it. *)
Definition inv_around (h : kheap) : mstate kheap -> list blk -> Prop :=
  @heap_inv kheap kheap_mem kheap_heap (around_laws h) (around_heap_laws h).

Lemma inv_around_iff h (st : mstate kheap) bs : inv_around h st bs <-> heap_inv st bs /\ around h (heap st).
Proof.
  split.
  - intros [[Hok A] H1 H2 H3]. split; [|done]. split; done.
  - intros [[Hok H1 H2 H3] A]. split; done.
Qed.

(** A request that fits in one more page. *)
Lemma room_page h n m :
  kheap_ok h -> kernel_heap_current h + n <= KERNEL_HEAP_TOP -> n - kernel_remaining_from_last_used h <= 4096 ->
  enough (frames (kvm h)) m -> (kernel_remaining_from_last_used h < n -> 1 <= m) -> heap_room (heap_rest h) n.
Proof.
  intros Hok Htop Hn Hen Hm. split; [done|]. intros Hlt. specialize (Hm Hlt).
  assert (div_ceil (n - kernel_remaining_from_last_used h) 4096 = 1) as ->.
  { unfold div_ceil. destruct (Z.ltb_spec 0 ((n - kernel_remaining_from_last_used h) mod 4096));
      Z.to_euclidean_division_equations; lia. }
  destruct Hen as [Hmax Hcount ([|f l] & _ & Hlen & Hl)]; [cbn in Hlen; lia|].
  apply list.Forall_cons in Hl as [Hf _]. apply frames_one; [apply Hok|done|lia|by exists f].
Qed.

(** The page that the new directory gets, behind the padding and a block header. *)
Definition new_dir (h : kheap) : Z :=
  (kernel_heap_current h + align_padding (kernel_heap_current h) PMM_FRAME_SIZE) / PMM_FRAME_SIZE.

(** The heap lets [kalign_heap] do its work: the list has a second block, the
    first one is too small for a directory, the break is not at the start of a
    page, and there are addresses and frames for the padding and the
    directory, and [n] frames more. *)
Record dir_ready (st : mstate kheap) (b c : blk) (bs : list blk) (n : Z) : Prop := {
  dy_inv : heap_inv st (b :: c :: bs);
  dy_fit : fits 4096 b = false;
  dy_break : kernel_heap_current (heap st) mod PMM_FRAME_SIZE <> 0;
  dy_top : 4096 * (new_dir (heap st) + 1) <= KERNEL_HEAP_TOP;
  dy_frames : enough (frames (kvm (heap st))) (n + (new_dir (heap st) + 1 - heap_limit (heap st) / 4096));
}.

(** What a new directory in heap page [pd], frame [fd], does to the heap: the
    frame was free; the list is cut after its first block [b] and goes on with
    the padding, now free, and the block of the directory, which ends the
    heap; no byte below the old break changes but the link of [b]; and nothing
    changes around the heap. *)
Record new_directory (st st' : mstate kheap) (b : blk) (pd fd : Z) : Prop := {
  nd_dir : directory (kvm (heap st')) pd fd;
  nd_free : frame_used (frames (kvm (heap st))) (fd / 4096) = false;
  nd_list : let a := kernel_heap_current (heap st) in
    heap_inv st' [b; mk_blk a (4096 * pd - 2 * sizeof_block_meta - a) true;
                  mk_blk (4096 * pd - sizeof_block_meta) 4096 false];
  nd_break : kernel_heap_current (heap st') = 4096 * (pd + 1);
  nd_bytes : forall x, x < kernel_heap_current (heap st) -> ~ b_addr b + 4 <= x < b_addr b + 8 ->
    heap_view (heap st') x = heap_view (heap st) x;
  nd_around : around (heap st) (heap st');
}.

(** Where the padding ends. *)
Lemma new_dir_pages h : kheap_ok h -> kernel_heap_current h mod PMM_FRAME_SIZE <> 0 ->
  let a := kernel_heap_current h in let p := align_padding a PMM_FRAME_SIZE in
  a + p = 4096 * new_dir h /\ 2 * sizeof_block_meta < p /\
  (p = kernel_remaining_from_last_used h \/ p = kernel_remaining_from_last_used h + 4096 /\ kernel_remaining_from_last_used h <= 32).
Proof.
  intros Hok Ha a p. destruct (align_padding_bounds a PMM_FRAME_SIZE) as [Hp Hpm];
    [done|done|done|]. fold p in Hp, Hpm.
  assert (a + p = 4096 * new_dir h) as Hd
    by (unfold new_dir; fold a; fold p; unfold PMM_FRAME_SIZE in *; Z.to_euclidean_division_equations; lia).
  split_and!; [done|lia|]. pose proof (heap_end h Hok) as He. fold a in He.
  unfold p, align_padding, sizeof_block_meta in *. change (2 * 16) with 32 in *.
  destruct (Z.ltb_spec 32 (div_ceil a PMM_FRAME_SIZE * PMM_FRAME_SIZE - a)); unfold PMM_FRAME_SIZE in *; lia.
Qed.

(** The padding: the heap then ends a block header before the directory's page. *)
Lemma padding_ok fuel (st : mstate kheap) b c bs n :
  dir_ready st b c bs n -> (1 <= fuel)%nat -> 0 <= n ->
  let a := kernel_heap_current (heap st) in let pd := new_dir (heap st) in
  exists st1, kalign_heap fuel PMM_FRAME_SIZE st = Ok (a + sizeof_block_meta, st1) /\
    heap_inv st1 [b; mk_blk a (4096 * pd - 2 * sizeof_block_meta - a) false] /\ around (heap st) (heap st1) /\
    heap_room (heap_rest (heap st1)) (4096 + sizeof_block_meta) /\
    kernel_heap_current (heap st1) + sizeof_block_meta = 4096 * pd /\
    forall x, x < a -> ~ b_addr b + 4 <= x < b_addr b + 8 -> heap_view (heap st1) x = heap_view (heap st) x.
Proof.
  intros [Hinv Hfit Ha Htop Hen] Hfuel Hn a pd. unfold a, pd. clear a pd. set (h := heap st) in *. set (pd := new_dir h) in *.
  pose proof Hinv as [Hok _ _ _]. cbn in Hok. fold h in Hok.
  destruct (new_dir_pages h Hok Ha) as (Hd & Hp32 & Hp). fold pd in Hd.
  set (a := kernel_heap_current h) in *. set (p := align_padding a PMM_FRAME_SIZE) in *.
  pose proof Hok as [_ _ _ L H R E _]. fold a in L, H, E. unfold heap_limit in Hen. fold a in Hen.
  assert (4096 * pd - (a + kernel_remaining_from_last_used h) = 0 \/
    4096 * pd - (a + kernel_remaining_from_last_used h) = 4096 /\ kernel_remaining_from_last_used h <= 32) as Hcase by lia.
  assert (enough (frames (kvm h)) (n + 1 + (4096 * pd / 4096 - (a + kernel_remaining_from_last_used h) / 4096))) as Hen1.
  { replace (4096 * pd / 4096) with pd by (Z.to_euclidean_division_equations; lia).
    replace (n + 1 + (pd - (a + kernel_remaining_from_last_used h) / 4096))
      with (n + (pd + 1 - (a + kernel_remaining_from_last_used h) / 4096)) by lia. done. }
  pose proof (proj2 (inv_around_iff h st _) (conj Hinv (around_refl h))) as Hinv0.
  destruct (kalign_heap_ok (H1 := around_heap_laws h) fuel st b c bs 4096 Hinv0) as (st1 & E1 & Hinv1 & Hb1 & _ & V1).
  { vm_compute; split; [done|discriminate]. }
  { done. }
  { exact Ha. }
  { lia. }
  { change (heap_room (heap_rest h) (p - sizeof_block_meta)).
    eapply room_page; [exact Hok| | |exact Hen1|]; fold a.
    - unfold sizeof_block_meta in *. lia.
    - unfold sizeof_block_meta in *. lia.
    - intros _. Z.to_euclidean_division_equations. lia. }
  change (brk (rest (heap st))) with a in *. change (align_padding a 4096) with p in *.
  apply inv_around_iff in Hinv1 as [Hinv1 A1]. pose proof Hinv1 as [Hok1 _ _ _]. cbn in Hok1.
  change (kernel_heap_current (heap st1) + sizeof_block_meta = a + p) in Hb1. rewrite Hd in Hb1.
  pose proof Hok1 as [_ _ _ L1 H1 R1 Ee1 _].
  assert (kernel_remaining_from_last_used (heap st1) = 16) as Hr1
    by (unfold sizeof_block_meta in *; Z.to_euclidean_division_equations; lia).
  exists st1. split_and!; [exact E1| |done| |done|exact V1].
  - replace (4096 * pd - 2 * sizeof_block_meta - a) with (p - 2 * sizeof_block_meta) by lia. done.
  - apply (room_page _ _ (n + 1)); [done|unfold sizeof_block_meta in *; lia..| |lia]. apply (ar_frames _ _ A1).
    unfold heap_limit. fold a. replace (kernel_heap_current (heap st1) + kernel_remaining_from_last_used (heap st1))
      with (4096 * pd) by (unfold sizeof_block_meta in *; lia). exact Hen1.
Qed.

Lemma create_directory_ok fuel (st : mstate kheap) b c bs n d :
  dir_ready st b c bs n -> (2 <= fuel)%nat -> 0 <= n ->
  exists fd st', vmm_create_address_space fuel d st = Ok (4096 * new_dir (heap st), st') /\
    new_directory st st' b (new_dir (heap st)) fd.
Proof.
  intros Hdy Hfuel Hn. destruct (padding_ok fuel st b c bs n Hdy) as (st1 & E1 & Hinv1 & A1 & Hroom1 & Hb1 & V1); [lia|done|].
  destruct Hdy as [[Hok _ _ _] Hfit Ha Htop _]. set (h := heap st) in *. set (pd := new_dir h) in *.
  destruct (new_dir_pages h Hok Ha) as (Hd & Hp32 & Hp). fold pd in Hd.
  set (a := kernel_heap_current h) in *. set (pad := mk_blk a (4096 * pd - 2 * sizeof_block_meta - a) false) in *.
  destruct (kcalloc_extends (H1 := around_heap_laws h) fuel st1 [b; pad] 4096) as (st2 & E2 & Hinv2 & Hb2 & Z2 & V2);
    [by apply inv_around_iff|done|done|vm_compute; split; [done|discriminate]|done|cbn; by rewrite Hfit|done|].
  change (brk (rest (heap st1))) with (kernel_heap_current (heap st1)) in *.
  set (a1 := kernel_heap_current (heap st1)) in *.
  destruct (free_padding (HL := around_heap_laws h) st2 b a _ _ Hinv2) as (st3 & E3 & Hinv3 & Hr3 & V3).
  apply inv_around_iff in Hinv3 as [Hinv3 A3]. pose proof Hinv3 as [Hok3 _ _ (B1 & (_ & B2 & _) & _ & B3 & (_ & B4 & _) & _ & B5 & _)].
  assert (kernel_heap_current (heap st3) = 4096 * (pd + 1)) as Hc3.
  { change (rest (heap st3) = rest (heap st2)) in Hr3. cbn in Hr3, Hb2. unfold heap_rest in Hr3. unfold sizeof_block_meta in *.
    replace (kernel_heap_current (heap st3)) with (kernel_heap_current (heap st2)) by congruence. lia. }
  unfold b_end, sizeof_block_meta in *. cbn [b_addr b_size pad heap_bottom kheap_heap_laws] in *.
  destruct (fill_directory (heap st3) (kblocklist st3) pd (mret (4096 * pd))) as (fd & v & E4 & Hok4 & Hd4 & A4 & V4);
    [exact Hok3|lia|lia|intros x Hx; etransitivity; [apply V3; lia|apply Z2; lia]|].
  assert (mk_mstate (kblocklist st3) (heap st3) = st3) as Hst by by destruct st3. rewrite Hst in E4.
  pose proof (around_trans _ _ _ A3 A4) as A.
  exists fd, (mk_mstate (kblocklist st3) (with_kvm v (heap st3))). split; [|split].
  - unfold vmm_create_address_space. rewrite (bind_step _ _ _ _ _ E1), (bind_step _ _ _ _ _ E2).
    destruct (Z.eqb_spec (a + 16) 0); [unfold KERNEL_HEAP_BOTTOM in *; lia|]. cbn [negb mwhen].
    rewrite (bind_step _ _ _ _ _ E3), Hb1. exact E4.
  - exact Hd4.
  - destruct (ar_new _ _ A pd fd) as [Hm|[_ Hf]]; [| |done].
    + apply pages_of_lookup. cbn. destruct Hd4 as [D1 D2 _ _ _ _]. split; [|done]. fold (heap_limit (heap st3)).
      pose proof Hok3 as [_ _ _ _ _ R3 _ _]. unfold heap_limit. Z.to_euclidean_division_equations. lia.
    + exfalso. apply pages_of_lookup in Hm as [Hm _]. fold a in Hm. Z.to_euclidean_division_equations. lia.
  - cbv zeta. unfold sizeof_block_meta. replace (4096 * pd - 16) with a1 by lia.
    by apply (payload_written _ _ _ _ _ pd).
  - exact Hc3.
  - intros x Hx Hl. change (x < a) in Hx. cbn. rewrite V4 by (Z.to_euclidean_division_equations; lia). etransitivity; [apply V3; lia|].
    etransitivity; [apply V2; [lia|cbn; lia]|by apply V1].
  - exact A.
Qed.

(** C5: A new address space, on the heap it is meant for: the break is not at
    the start of a page, the list has at least two blocks, the first one in
    use or smaller than a page, and there are addresses and frames
    for the padding and the directory ([dir_ready]). Then
    [vmm_create_address_space] returns the first address of a heap page, on a
    frame that was free, that is a page directory: no user table is present,
    the 255 kernel tables are those of the running directory, and entry 1023
    is the directory itself. The heap ends behind it. Its list is cut: the
    first block is followed by the padding, free again, and the directory, and
    every other block has left the list, where its bytes stay as they were.
    Around the heap nothing changes. *)
Theorem vmm_create_address_space_correct fuel (st : mstate kheap) b c bs d :
  dir_ready st b c bs 0 -> (2 <= fuel)%nat ->
  exists fd st', vmm_create_address_space fuel d st = Ok (4096 * new_dir (heap st), st') /\
    new_directory st st' b (new_dir (heap st)) fd.
Proof. intros Hdy Hf. by apply (create_directory_ok fuel st b c bs 0). Qed.

(** ** vmm_fork *)

(** What a fork of the address space on heap [h] promises of the heap [h']
    after it; the child's directory is heap page [pd], frame [fd]. *)
Record fork_result (h h' : kheap) (pd fd : Z) : Prop := {
  (** The parent: its directory, its pages but those the heap gained, its data. *)
  fs_same : tables_same (kvm h) (kvm h');
  fs_pages : forall va, is_u32 va -> ~ heap_limit h <= va < 4096 * (pd + 1) ->
    page_walk (kvm h') va = page_walk (kvm h) va;
  fs_data : forall f o, data_frame (kvm h) f -> (forall p, heap_map h !! p <> Some f) -> 0 <= o < 4096 ->
    rd8 (phys (kvm h')) (f + o) = rd8 (phys (kvm h)) (f + o);
  (** The child: a page of its own for each user page of the parent, the same bytes. *)
  fs_absent : forall va, 0 <= va < KERNEL_HIGHER_HALF ->
    page_walk (kvm h) va = None -> page_walk (with_cr3 fd (kvm h')) va = None;
  fs_present : forall va f, 0 <= va < KERNEL_HIGHER_HALF -> page_walk (kvm h) va = Some f ->
    exists g, page_walk (with_cr3 fd (kvm h')) va = Some g /\
      frame_used (frames (kvm h)) (g / 4096) = false /\ frame_used (frames (kvm h')) (g / 4096) = true /\
      forall o, 0 <= o < 4096 -> rd8 (phys (kvm h')) (g + o) = rd8 (phys (kvm h)) (f + o);
  fs_private : forall va vb g, 0 <= va < KERNEL_HIGHER_HALF -> 0 <= vb < KERNEL_HIGHER_HALF ->
    page_walk (with_cr3 fd (kvm h')) va = Some g -> page_walk (with_cr3 fd (kvm h')) vb = Some g ->
    va / 4096 = vb / 4096;
  (** The child's directory: a page of the heap, on a frame that was free, with
      the kernel's tables and itself as its last entry. *)
  fs_walk : page_walk (kvm h') (4096 * pd) = Some fd;
  fs_free : frame_used (frames (kvm h)) (fd / 4096) = false;
  fs_kernel : forall k, 768 <= k < 1023 -> rd32 (phys (kvm h')) (fd + 4 * k) = pde (kvm h) k;
  fs_self : is_page_enabled (rd32 (phys (kvm h')) (fd + 4 * 1023)) = true /\
    get_aligned_address (rd32 (phys (kvm h')) (fd + 4 * 1023)) = fd;
}.

(** The user pages are on data frames that are not the heap's. *)
Definition user_data (h : kheap) : Prop :=
  forall q f, user_page q -> page_walk (kvm h) (4096 * q) = Some f ->
    data_frame (kvm h) f /\ forall p, heap_map h !! p <> Some f.

Lemma present_pages_ext s s' n : forall q,
  (forall r, q <= r < q + Z.of_nat n -> page_walk s' (4096 * r) = page_walk s (4096 * r)) ->
  present_pages s' q n = present_pages s q n.
Proof.
  induction n as [|n IH]; intros q W; [done|]. cbn [present_pages]. rewrite W, IH by lia || (intros; apply W; lia).
  done.
Qed.

Lemma needed_frames_ext s s' n : forall i, 0 <= i -> i + Z.of_nat n <= 768 -> tables_same s s' -> user_walks s s' ->
  needed_frames s' i n = needed_frames s i n.
Proof.
  induction n as [|n IH]; intros i Hi Hn T W; [done|]. cbn [needed_frames]. pose proof T as (_ & _ & Hp).
  rewrite Hp, IH by (done || lia). rewrite (present_pages_ext s s'); [done|]. intros r Hr. apply W. unfold user_page. lia.
Qed.

Section fork.
Context (h h1 : kheap) (pd : Z).
Hypothesis (Hok : kheap_ok h) (Hok1 : kheap_ok h1) (A : around h h1).
Hypothesis (Hend : heap_limit h1 = 4096 * (pd + 1)).
Hypothesis (Hbot : KERNEL_HEAP_BOTTOM <= 4096 * pd) (Htop : 4096 * (pd + 1) <= KERNEL_HEAP_TOP).

Lemma user_outside va : 0 <= va < KERNEL_HIGHER_HALF -> page_walk (kvm h1) va = page_walk (kvm h) va.
Proof.
  intros Hva. apply (ar_walk _ _ A); [unfold is_u32, KERNEL_HIGHER_HALF in *; lia|].
  pose proof Hok as [_ _ _ L _ R _ _]. unfold heap_limit, KERNEL_HEAP_BOTTOM, KERNEL_HIGHER_HALF in *. lia.
Qed.

Lemma user_same : user_walks (kvm h) (kvm h1).
Proof. intros q Hq. apply user_outside. unfold user_page, KERNEL_HIGHER_HALF in *. lia. Qed.

Lemma free_before g : 0 <= g -> frame_used (frames (kvm h1)) (g / 4096) = false ->
  frame_used (frames (kvm h)) (g / 4096) = false.
Proof.
  intros Hg Hf. destruct (frame_used (frames (kvm h)) (g / 4096)) eqn:E; [|done].
  rewrite (ar_used _ _ A) in Hf; [done|apply Z.div_pos; lia|done].
Qed.

(** The copy starts from the new directory. *)
Lemma fork_starts fd n :
  directory (kvm h1) pd fd -> user_data h -> n = needed_frames (kvm h) 0 768 ->
  enough (frames (kvm h1)) (Z.of_nat n) -> 4096 * (pd + 1 + 2 * Z.of_nat n) <= KERNEL_HEAP_TOP ->
  (forall q, pd + 1 <= q < pd + 1 + 2 * Z.of_nat n -> page_walk (kvm h) (4096 * q) = None) ->
  fork_ready (current_dir (kvm h1)) (kvm h1) pd fd (pd + 1).
Proof.
  intros [D1 D2 D3 D4 D5 D6] Hus Hn Hen Hhi Hsc. pose proof Hok1 as [P K Hd _ _ _ _ _].
  assert (needed_frames (kvm h1) 0 768 = n) as Hn1
    by (subst n; apply needed_frames_ext; [lia|lia|apply A|apply user_same]).
  assert (heap_map h1 !! pd = Some fd) as Hm.
  { apply pages_of_lookup. fold (heap_limit h1). rewrite Hend. split; [Z.to_euclidean_division_equations; lia|done]. }
  split; rewrite ?Hn1; try done.
  - intros q f Hq Hw. rewrite user_same in Hw by done. destruct (Hus q f Hq Hw) as [Hf Hh].
    by apply (around_frame h h1 f A).
  - unfold KERNEL_HEAP_BOTTOM, KERNEL_HEAP_TOP in *. lia.
  - intros q Hq Hw. rewrite user_same in Hw by done. destruct (Hus q fd Hq Hw) as [Hf Hh].
    by apply (around_frame h h1 fd A Hf Hh) in Hm.
  - intros q Hq. unfold KERNEL_HEAP_BOTTOM, KERNEL_HEAP_TOP in *. split_and!.
    + change (KERNEL_HEAP_BOTTOM / 4096) with 0xD0000. lia.
    + change (KERNEL_HEAP_TOP / 4096) with 0xF0000. lia.
    + Z.to_euclidean_division_equations. lia.
    + rewrite (ar_walk _ _ A), Hsc by (unfold is_u32; lia). done.
  - apply supply_enough; [apply P|done].
Qed.

(** What the copy promises, seen from the heap before the new directory. *)
Lemma fork_from_start fd v :
  directory (kvm h1) pd fd -> frame_used (frames (kvm h)) (fd / 4096) = false -> user_data h ->
  paging (current_dir (kvm h1)) v -> evolves (eq fd) (kvm h1) v -> forked (kvm h1) v fd ->
  fork_result h (with_kvm v h1) pd fd.
Proof.
  intros [D1 D2 D3 D4 D5 D6] Hfree Hus P V [F1 F2 F3 F4 F5 F6]. pose proof (ev_same _ _ _ V) as T.
  pose proof (ar_same _ _ A) as (_ & _ & Hp).
  assert (forall f, data_frame (kvm h) f -> (forall p, heap_map h !! p <> Some f) ->
    forall o, 0 <= o < 4096 -> rd8 (phys v) (f + o) = rd8 (phys (kvm h)) (f + o)) as Hdata.
  { intros f Hf Hh o Ho. destruct (around_frame h h1 f A Hf Hh) as [Hf1 _].
    rewrite F2, (ar_data _ _ A); try done. intros ->. destruct Hf as (_ & Hu & _). congruence. }
  split; cbn; try done.
  - eapply tables_same_trans; [apply A|done].
  - intros va Hva Hr. rewrite F1 by done. apply (ar_walk _ _ A); [done|]. by rewrite Hend.
  - intros f o Hf Hh Ho. by apply Hdata.
  - intros va Hva Hw. apply F3; [done|]. by rewrite user_outside.
  - intros va f Hva Hw. destruct (F4 va f Hva) as (g & W & U1 & U2 & Bg); [by rewrite user_outside|].
    exists g. assert (is_u32 va) as Hu by (unfold is_u32, KERNEL_HIGHER_HALF in *; lia). split_and!; [done| |done|].
    + apply free_before; [|done]. eapply (walk_aligned (with_cr3 fd v)); [apply P|apply P|exact Hu|exact W].
    + intros o Ho. rewrite Bg by done. rewrite (walk_page _ _ (pg_pse _ _ (kh_paging _ Hok)) Hu) in Hw.
      destruct (Hus (va / 4096) f) as [Hf Hh]; [|done|by apply (ar_data _ _ A)].
      unfold user_page, KERNEL_HIGHER_HALF in *. Z.to_euclidean_division_equations. lia.
  - rewrite F1; [done|]. unfold is_u32, KERNEL_HEAP_TOP, KERNEL_HEAP_BOTTOM in *. lia.
  - intros k Hk. rewrite F6, D5 by lia. by rewrite Hp by lia.
  - by rewrite F6 by lia.
Qed.
End fork.

(** C4: Forking an address space, from the state before the call. Let the heap
    be one on which a new directory can be made ([dir_ready]: the break is not
    at the start of a page, the list has at least two blocks, the first one is
    in use or smaller than a page), with frames for the directory and for a
    copy of each user table and page, let the user pages be on data frames
    that are not the heap's, and let the heap pages after the directory that
    the copy uses be unmapped. Then [vmm_fork] terminates and returns a new
    directory: loaded, it translates each user page of the parent to a frame
    of its own, taken for it, with the parent's bytes, no two pages to one
    frame, and no other user page; it has the kernel's tables and shows
    itself. The parent's directory, translations and data are as before. The
    heap ends behind the directory; its list has lost every block after the
    first, as [vmm_create_address_space] leaves it, with their bytes kept. *)
Theorem vmm_fork_correct fuel (st : mstate kheap) b c bs :
  let h := heap st in let n := Z.of_nat (needed_frames (kvm h) 0 768) in let pd := new_dir h in
  dir_ready st b c bs n -> (2 <= fuel)%nat -> user_data h ->
  4096 * (pd + 1 + 2 * n) <= KERNEL_HEAP_TOP ->
  (forall q, pd + 1 <= q < pd + 1 + 2 * n -> page_walk (kvm h) (4096 * q) = None) ->
  exists fd st', vmm_fork fuel (current_dir (kvm h)) st = Ok (4096 * pd, st') /\ fork_result h (heap st') pd fd /\
    heap_inv st' [b; mk_blk (kernel_heap_current h) (4096 * pd - 2 * sizeof_block_meta - kernel_heap_current h) true;
                  mk_blk (4096 * pd - sizeof_block_meta) 4096 false] /\
    kernel_heap_current (heap st') = 4096 * (pd + 1) /\
    forall x, x < kernel_heap_current h -> ~ b_addr b + 4 <= x < b_addr b + 8 ->
      heap_view (heap st') x = heap_view h x.
Proof.
  intros h n pd Hdy Hfuel Hus Hhi Hsc.
  destruct (create_directory_ok fuel st b c bs n (current_dir (kvm h)) Hdy) as (fd & st1 & E1 & [Nd Nf Nl Nb Nv A]); [lia|lia|].
  fold h pd in E1, Nd, Nf, Nl, Nb, Nv, A. destruct Hdy as [[Hok _ _ _] _ Ha _ Hen]. fold h pd in Hok, Hen. cbn in Hok.
  destruct (new_dir_pages h Hok Ha) as (Hd & Hp32 & _). fold pd in Hd.
  pose proof Nl as [Hok1 _ _ _]. cbn in Hok1. pose proof (ar_same _ _ A) as (_ & Hcd & _).
  assert (heap_limit (heap st1) = 4096 * (pd + 1)) as Hend.
  { pose proof Hok1 as [_ _ _ _ _ R1 Ee1 _]. unfold heap_limit. rewrite Nb in *. Z.to_euclidean_division_equations. lia. }
  assert (enough (frames (kvm (heap st1))) n) as Hen1.
  { apply (ar_frames _ _ A). rewrite Hend. by replace (4096 * (pd + 1) / 4096) with (pd + 1) by (Z.to_euclidean_division_equations; lia). }
  pose proof (dr_page _ _ _ Nd) as Hpg.
  destruct (fork_tables_forked (current_dir (kvm (heap st1))) (kvm (heap st1)) pd fd (pd + 1)) as (hc & v & E & P' & V & Hf).
  { apply (fork_starts h (heap st1) pd Hok Hok1 A Hend) with (n := needed_frames (kvm h) 0 768); (done || lia). }
  destruct (kheap_evolves (eq fd) (heap st1) v Hok1 P' V (fk_pages _ _ _ Hf)) as [Hok' _].
  assert (forall x, x / 4096 <> pd -> heap_view (with_kvm v (heap st1)) x = heap_view (heap st1) x) as Hv
    by (apply (other_pages_kept (heap st1) v pd fd); [done|done|done|apply Hf|lia|lia|apply Nd]).
  exists fd, (mk_mstate (kblocklist st1) (with_kvm v (heap st1))). split_and!.
  - unfold vmm_fork. rewrite (bind_step _ _ _ _ _ E1).
    assert (on_heap (sbrk 0) st1 = Ok (4096 * (pd + 1), st1)) as Hs0.
    { rewrite <- Nb, (on_heap_ok _ st1 _ _ (@sbrk_zero kheap _ _ _ kheap_heap_laws (heap st1) Hok1)). by destruct st1. }
    rewrite (bind_step _ _ _ 0 st1).
    + rewrite (bind_step _ _ _ _ _ Hs0). rewrite Hcd in E. by rewrite (bind_step _ _ _ _ _ (on_machine_ok _ st1 _ _ E)).
    + unfold kalign_heap. rewrite (bind_step _ _ _ _ _ Hs0). change PMM_FRAME_SIZE with 4096.
      by rewrite Z.mul_comm, Z.mod_mul by lia.
  - apply (fork_from_start h (heap st1) pd); (done || lia).
  - apply (payload_written _ _ _ _ _ pd); [exact Nl|cbn; unfold sizeof_block_meta; lia|done|done|done].
  - exact Nb.
  - intros x Hx Hl. etransitivity; [apply Hv|by apply Nv]. unfold sizeof_block_meta in *. Z.to_euclidean_division_equations. lia.
Qed.

(** ** A parent with one page

    The machine of [example_kernel] with a user table in frame 272 that maps
    page 5 to frame 273; two blocks on the kernel heap. *)
Definition fork_kernel : vm :=
  mk_vm (wr8 (wr32 (wr32 (phys example_kernel) 0x2000 (4096 * 272 + 7)) (4096 * 272 + 4 * 5) (4096 * 273 + 7))
      (4096 * 273 + 1) 0x2A)
    0x2000 false ∅
    (mk_pmm (replicate 8 0xffffffff ++ [0x3ffff] ++ replicate 7 0) 512 274 (512 * 4096) 64) 0xC0002000.

Definition fork_kheap : kheap := mk_kheap fork_kernel KERNEL_HEAP_BOTTOM 0.

Definition run_or {S A} (m : M S A) (s : S) : S := match m s with Ok (_, s') => s' | Fail _ => s end.

Definition fork_one : mstate kheap := run_or (kmalloc 8 100) (mk_mstate 0 fork_kheap).
Definition fork_two : mstate kheap := run_or (kmalloc 8 100) fork_one.

Lemma fork_kernel_paging : paging 0xC0002000 fork_kernel.
Proof.
  split.
  - apply wr8_ok. do 2 apply wr32_ok. apply example_kernel_paging.
  - done.
  - split; [zdec|done].
  - split; vm_compute; reflexivity.
  - intros i j Hi Hj Ei Ej Ht. eapply (NoDup_fmap_eq (table fork_kernel) (present_list fork_kernel));
      [|by apply present_list_elem..|done]. apply (bool_decide_unpack _). vm_compute. exact I.
  - intros i Hi Ei. apply present_list_elem in Ei; [|done].
    assert (Forall (fun i => frame_used (frames fork_kernel) (table fork_kernel i / 4096) = true)
      (present_list fork_kernel)) as HF by (apply (bool_decide_unpack _); vm_compute; exact I).
    rewrite list.Forall_forall in HF. exact (HF i Ei).
  - split_and!; [split; [zdec|done]|done|vm_compute; reflexivity].
  - intros p f Hp. discriminate Hp.
  - split; [repeat constructor; zdec|cbn; lia|cbn; lia|zdec|vm_compute; reflexivity].
Qed.

Lemma fork_kheap_ok : kheap_ok fork_kheap.
Proof.
  split; cbn [kvm kernel_heap_current kernel_remaining_from_last_used fork_kheap].
  - exact fork_kernel_paging.
  - intros k Hk.
    assert (Forall (fun k => is_page_enabled (pde fork_kernel k) = true) (seqZ 768 255)) as HF
      by (apply (bool_decide_unpack _); vm_compute; exact I).
    rewrite list.Forall_forall in HF. refine (HF k _). apply elem_of_seqZ. lia.
  - left. done.
  - done.
  - done.
  - lia.
  - done.
  - rewrite Z.add_0_r. split; intros; lia.
Qed.

(** One more frame for the heap. *)
Lemma room_one bm u p c d cur rem n :
  p = mk_pmm bm 512 u (512 * 4096) 64 -> pmm_wf p -> u < 512 -> frame_used p 500 = false ->
  cur + n <= KERNEL_HEAP_TOP -> 0 <= rem -> n - rem <= 4096 -> heap_room (p, c, d, cur, rem) n.
Proof.
  intros -> Hwf Hu Hf Hn Hr Hr'. split; [done|]. intros Hlt.
  assert (div_ceil (n - rem) 4096 = 1) as ->.
  { unfold div_ceil. destruct (Z.ltb_spec 0 ((n - rem) mod 4096)); Z.to_euclidean_division_equations; lia. }
  apply frames_one; [done|zdec|done|]. exists 500. split; [split; zdec|done].
Qed.

Definition fork_frames (w u : Z) : pmm :=
  mk_pmm (replicate 8 0xffffffff ++ [w] ++ replicate 7 0) 512 u (512 * 4096) 64.

Lemma fork_frames_wf w u : is_u32 w -> is_u32 u -> pmm_wf (fork_frames w u).
Proof. intros Hw Hu. split; [|cbn; lia|cbn; lia|done|vm_compute; reflexivity].
  cbn. repeat (apply list.Forall_cons; split; [done || zdec|]). constructor. Qed.

Lemma fork_rests :
  heap_rest (heap fork_one) = (fork_frames 0x7ffff 275, 0x2000, 0xC0002000, 0xD0000074, 3980) /\
  heap_rest (heap fork_two) = (fork_frames 0x7ffff 275, 0x2000, 0xC0002000, 0xD00000E8, 3864).
Proof. split_and!; vm_compute; reflexivity. Qed.

Lemma fork_room w u c d cur rem n :
  is_u32 w -> 0 <= u < 512 -> cur + n <= KERNEL_HEAP_TOP -> 0 <= rem -> n - rem <= 4096 ->
  heap_room (fork_frames w u, c, d, cur, rem) n.
Proof.
  intros Hw Hu Hn Hr Hnr. eapply room_one; [reflexivity|apply fork_frames_wf; [done|unfold is_u32; lia]|lia|done|done..].
Qed.

Lemma fork_two_inv : heap_inv fork_two [mk_blk 0xD0000000 100 false; mk_blk 0xD0000074 100 false].
Proof.
  destruct fork_rests as (R1 & R2).
  destruct (kmalloc_ok 8 (mk_mstate 0 fork_kheap) [] 100) as (st1 & E1 & Hinv1 & _).
  - split; [exact fork_kheap_ok|done|done|done].
  - zdec.
  - cbn. lia.
  - intros _. change (heap_room (fork_frames 0x3ffff 274, 0x2000, 0xC0002000, 0xD0000000, 0) 116).
    apply fork_room; unfold is_u32, KERNEL_HEAP_TOP; lia.
  - assert (st1 = fork_one) as -> by (unfold fork_one, run_or; by rewrite E1).
    destruct (kmalloc_ok 8 fork_one [mk_blk 0xD0000000 100 false] 100) as (st2 & Hk).
    + exact Hinv1.
    + zdec.
    + cbn. lia.
    + intros _. change (heap_room (heap_rest (heap fork_one)) 116). rewrite R1.
      apply fork_room; unfold is_u32, KERNEL_HEAP_TOP; lia.
    + change (rest (heap fork_one)) with (heap_rest (heap fork_one)) in Hk. rewrite R1 in Hk.
      destruct Hk as (E2 & Hinv2 & _).
      assert (st2 = fork_two) as <- by (unfold fork_two, run_or; by rewrite E2). exact Hinv2.
Qed.

Lemma fork_two_values :
  new_dir (heap fork_two) = 0xD0001 /\ heap_limit (heap fork_two) = 0xD0001000 /\
  needed_frames (kvm (heap fork_two)) 0 768 = 2%nat /\ current_dir (kvm (heap fork_two)) = 0xC0002000.
Proof. split_and!; vm_compute; reflexivity. Qed.

Lemma fork_two_frames : enough (frames (kvm (heap fork_two))) 3.
Proof.
  destruct fork_rests as (_ & R). assert (frames (kvm (heap fork_two)) = fork_frames 0x7ffff 275) as ->
    by (unfold heap_rest in R; congruence).
  split; [zdec|zdec|]. exists [300; 301; 302]. split_and!; [apply (bool_decide_unpack _); vm_compute; exact I|cbn; lia|].
  repeat (apply list.Forall_cons; split; [split; [split; zdec|vm_compute; reflexivity]|]). constructor.
Qed.

Lemma fork_two_ready n : 0 <= n <= 2 ->
  dir_ready fork_two (mk_blk 0xD0000000 100 false) (mk_blk 0xD0000074 100 false) [] n.
Proof.
  intros Hn. destruct fork_two_values as (V1 & V2 & _). split; rewrite ?V1, ?V2.
  - exact fork_two_inv.
  - done.
  - vm_compute. discriminate.
  - zdec.
  - destruct fork_two_frames as [E1 E2 (l & L1 & L2 & L3)]. change (0xD0001000 / 4096) with 0xD0001.
    split; [done|lia|]. exists l. split_and!; [done|lia|done].
Qed.

Lemma vmm_create_address_space_correct_witness :
  exists fd st', vmm_create_address_space 8 0xC0002000 fork_two = Ok (4096 * new_dir (heap fork_two), st') /\
    directory (kvm (heap st')) (new_dir (heap fork_two)) fd.
Proof.
  destruct (vmm_create_address_space_correct 8 fork_two (mk_blk 0xD0000000 100 false) (mk_blk 0xD0000074 100 false) []
    0xC0002000) as (fd & st' & E & [D _ _ _ _ _]).
  - apply fork_two_ready. lia.
  - lia.
  - exists fd, st'. split; [exact E|exact D].
Defined.

Lemma user_table q : user_page q -> 0 <= q < 2 ^ 20 /\ 0 <= q / 1024 < 768 /\ (q / 1024 = 0 -> 0 <= q < 1024).
Proof. unfold user_page. intros Hq. split_and!; Z.to_euclidean_division_equations; lia. Qed.

(** The parent's only table is table 0, its only page is in frame 273; the
    heap's only page is in frame 274. *)
Lemma fork_two_tables :
  Forall (fun i => 768 <= i \/ i = 0) (present_list (kvm (heap fork_two))) /\
  Forall (fun p => page_walk (kvm (heap fork_two)) (4096 * p) ∈ [None; Some (4096 * 273)]) (seqZ 0 1024) /\
  Forall (fun k => table (kvm (heap fork_two)) k <> 4096 * 273) (present_list (kvm (heap fork_two))) /\
  Forall (fun q => page_walk (kvm (heap fork_two)) (4096 * q) = None) (seqZ 0xD0002 4) /\
  frame_used (frames (kvm (heap fork_two))) 273 = true /\
  page_walk (kvm (heap fork_two)) (4096 * 0xD0000) = Some (4096 * 274).
Proof. split_and!; [apply (bool_decide_unpack _); vm_compute; exact I..|vm_compute; reflexivity|vm_compute; reflexivity]. Qed.

Lemma fork_two_user : user_data (heap fork_two).
Proof.
  intros q f Hq Hw. destruct fork_two_inv as [[P _ _ _ _ _ _ _] _ _ _]. destruct fork_two_values as (_ & V2 & _).
  destruct fork_two_tables as (F1 & F2 & F3 & _ & F5 & F6). destruct (user_table q Hq) as (Q1 & Q2 & Q3).
  revert P Hw F1 F2 F3 F5 F6 V2. generalize (heap fork_two) as h. intros h P Hw F1 F2 F3 F5 F6 V2.
  rewrite !list.Forall_forall in *.
  assert (is_page_enabled (pde (kvm h) (q / 1024)) = true) as He by (eapply walk_present; [apply P|lia|exact Hw]).
  assert (f = 4096 * 273) as ->.
  { destruct (F1 (q / 1024)) as [H|H]; [apply present_list_elem; [lia|done]|lia|].
    specialize (F2 q). rewrite Hw in F2. apply Q3 in H.
    assert (Some f ∈ [None; Some (4096 * 273)]) as HE by (apply F2, elem_of_seqZ; lia).
    apply elem_of_cons in HE as [?|HE%list_elem_of_singleton]; congruence. }
  split; [split_and!; [split; [zdec|done]|exact F5|]|].
  - intros k Hk Hen. apply F3, present_list_elem; done.
  - intros p Hm. apply pages_of_lookup in Hm as [Hp Hw']. fold (heap_limit h) in Hp. rewrite V2 in Hp.
    change (KERNEL_HEAP_BOTTOM / 4096) with 0xD0000 in Hp. change (0xD0001000 / 4096) with 0xD0001 in Hp.
    replace p with 0xD0000 in Hw' by lia. rewrite F6 in Hw'. discriminate Hw'.
Qed.

Lemma vmm_fork_correct_witness :
  exists fd st', vmm_fork 8 (current_dir (kvm (heap fork_two))) fork_two = Ok (4096 * new_dir (heap fork_two), st') /\
    fork_result (heap fork_two) (heap st') (new_dir (heap fork_two)) fd.
Proof.
  destruct fork_two_values as (V1 & _ & V3 & _).
  destruct (vmm_fork_correct 8 fork_two (mk_blk 0xD0000000 100 false) (mk_blk 0xD0000074 100 false) [])
    as (fd & st' & E & F & _).
  - rewrite V3. apply fork_two_ready. lia.
  - lia.
  - exact fork_two_user.
  - rewrite V1, V3. zdec.
  - rewrite V1, V3. intros q Hq. destruct fork_two_tables as (_ & _ & _ & HF & _).
    rewrite list.Forall_forall in HF. apply HF, elem_of_seqZ. lia.
  - exists fd, st'. split; [exact E|exact F].
Defined.

Definition fork_dir : mstate kheap := run_or (vmm_create_address_space 8 0xC0002000) fork_two.

(** When the break is a multiple of the page size, as it is right after
    another directory was made, [kalign_heap] adds no padding
    ([kalign_heap_aligned_break]) and the new directory starts behind a block
    header, 16 bytes into a page, where no directory can be loaded from. *)
Lemma create_at_aligned_break :
  exists st', vmm_create_address_space 8 0xC0002000 fork_dir = Ok (0xD0002000 + sizeof_block_meta, st').
Proof.
  assert (match vmm_create_address_space 8 0xC0002000 fork_dir with
          | Ok (p, _) => p = 0xD0002000 + sizeof_block_meta
          | Fail _ => False
          end) as H by (vm_compute; reflexivity).
  destruct (vmm_create_address_space 8 0xC0002000 fork_dir) as [[p st']|]; [subst; eauto|done].
Qed.
