(* ===== verification/Highmem.v ===== *)
(** * Temporary kernel mappings ([memory/highmem.c])

    A window of 32768 pages from [PKMAP_BASE], one bit per page in [pkmap];
    [kmap] takes a free page of the window and maps a frame there. *)
From Stdlib Require Import ZArith Lia Bool.
From stdpp Require Import base list gmap option.
From S2P Require Import Prelude Bitmap Pmm Mem Vmm Sbrk.

Open Scope Z_scope.

Definition PKMAP_BASE : Z := 0xE0000000.
Definition LAST_PKMAP : Z := 1024.

(** The machine and the file-scope array [pkmap]. *)
Record hstate := mk_hstate { pkmap : list Z; hvm : vm }.

Definition on_hvm {A} : M vm A -> M hstate A := zoom hvm (fun v s => mk_hstate (pkmap s) v).
Definition on_pkmap (f : list Z -> option (list Z)) : M hstate unit := fun s =>
  match f (pkmap s) with
  | Some bm => Ok (tt, mk_hstate bm (hvm s))
  | None => Fail Segv
  end.

Definition pkmap_bitmap_set (block : Z) : M hstate unit := on_pkmap (bm_set block).
Definition pkmap_bitmap_unset (block : Z) : M hstate unit := on_pkmap (bm_unset block).
Definition pkmap_bitmap_test (frame : Z) : M hstate bool := deref (fun s => bm_test frame (pkmap s)).

Definition get_pkmap_free : M hstate Z := fun s =>
  mlift (bm_first_free (pkmap s) 0 (Z.to_nat LAST_PKMAP)) s.
Definition get_pkmaps_free (size : Z) : M hstate Z := fun s =>
  mlift (bm_first_frees (pkmap s) LAST_PKMAP size) s.

(** [struct page] and [struct pages], without the list link. *)
Record page := mk_page { p_frame : Z; p_virtual : Z }.
Record pages := mk_pages { ps_paddr : Z; ps_number_of_frames : Z; ps_vaddr : Z }.

Section highmem.
(** [current_process->pdir]. *)
Context (pdir : Z).

Definition kmap (p : page) : M hstate page :=
  block ← get_pkmap_free;
  let block := u32 block in
  let vaddr := u32 (block * PMM_FRAME_SIZE + PKMAP_BASE) in
  pkmap_bitmap_set block ;;
  on_hvm (vmm_map_address pdir vaddr (p_frame p) (Z.lor I86_PTE_PRESENT I86_PTE_WRITABLE)) ;;
  mret (mk_page (p_frame p) vaddr).

(** [for (i = 0; i < p->number_of_frames; ++i)], [n] rounds to go. *)
Fixpoint kmaps_loop (block vaddr paddr i : Z) (n : nat) : M hstate unit :=
  match n with
  | O => mret tt
  | S n' =>
      pkmap_bitmap_set (u32 (block + i)) ;;
      on_hvm (vmm_map_address pdir (u32 (vaddr + i * PMM_FRAME_SIZE)) (u32 (paddr + i * PMM_FRAME_SIZE))
                (Z.lor I86_PTE_PRESENT I86_PTE_WRITABLE)) ;;
      kmaps_loop block vaddr paddr (i + 1) n'
  end.

Definition kmaps (p : pages) : M hstate pages :=
  block ← get_pkmaps_free (ps_number_of_frames p);
  let block := u32 block in
  let vaddr := u32 (block * PMM_FRAME_SIZE + PKMAP_BASE) in
  kmaps_loop block vaddr (ps_paddr p) 0 (Z.to_nat (ps_number_of_frames p)) ;;
  mret (mk_pages (ps_paddr p) (ps_number_of_frames p) vaddr).

Definition kunmap (p : page) : M hstate unit :=
  if p_virtual p =? 0 then mret tt
  else
    let block := u32 (p_virtual p - PKMAP_BASE) / PMM_FRAME_SIZE in
    pkmap_bitmap_unset block ;;
    on_hvm (vmm_unmap_address pdir (p_virtual p)).

Fixpoint kunmaps_loop (block vaddr i : Z) (n : nat) : M hstate unit :=
  match n with
  | O => mret tt
  | S n' =>
      pkmap_bitmap_unset (u32 (block + i)) ;;
      on_hvm (vmm_unmap_address pdir (u32 (vaddr + i * PMM_FRAME_SIZE))) ;;
      kunmaps_loop block vaddr (i + 1) n'
  end.

Definition kunmaps (p : pages) : M hstate unit :=
  if ps_vaddr p =? 0 then mret tt
  else
    let block := u32 (ps_vaddr p - PKMAP_BASE) / PMM_FRAME_SIZE in
    kunmaps_loop block (ps_vaddr p) 0 (Z.to_nat (ps_number_of_frames p)).
End highmem.

(** ** The window *)

(** The window is outside the table window and does not hold the directory,
    its tables are present, and [pkmap] is 1024 words. *)
Record high_ok (d : Z) (s : hstate) : Prop := {
  ho_paging : paging d (hvm s);
  ho_tables : forall k, 768 <= k < 1023 -> is_page_enabled (pde (hvm s) k) = true;
  ho_dir : d < PKMAP_BASE \/ PKMAP_BASE + 4096 * 32768 <= d;
  ho_len : length (pkmap s) = 1024%nat;
  ho_words : bm_wf (pkmap s);
}.

Lemma window_page d b : page_aligned d -> (d < PKMAP_BASE \/ PKMAP_BASE + 4096 * 32768 <= d) -> 0 <= b < 32768 ->
  let va := b * PMM_FRAME_SIZE + PKMAP_BASE in
  u32 va = va /\ mappable d va /\ 768 <= va / 2 ^ 22 < 1023 /\ va / 4096 = PKMAP_BASE / 4096 + b /\
  u32 (va - PKMAP_BASE) / PMM_FRAME_SIZE = b.
Proof.
  intros [_ Hd0] Hd Hb va. unfold va, mappable, PMM_FRAME_SIZE, PKMAP_BASE, PAGE_TABLE_BASE in *.
  rewrite (u32_small (b * 4096 + 0xE0000000 - 0xE0000000)), u32_small by (unfold is_u32; lia).
  unfold is_u32. split_and!; try lia; Z.to_euclidean_division_equations; lia.
Qed.

Lemma set_pkmap_ok s b : bm_wf (pkmap s) -> length (pkmap s) = 1024%nat -> 0 <= b < 32768 ->
  exists bm, pkmap_bitmap_set b s = Ok (tt, mk_hstate bm (hvm s)) /\ length bm = 1024%nat /\ bm_wf bm /\
    forall c, 0 <= c -> bm_used bm c = (c =? b) || bm_used (pkmap s) c.
Proof.
  intros W L Hb. destruct (bm_update_in (fun w => Z.lor w (bit (b mod 32))) b (pkmap s)) as [bm E]; [unfold bm_in; lia|].
  fold (bm_set b) in E. exists bm. unfold pkmap_bitmap_set, on_pkmap. rewrite E. split_and!; [done|..].
  - by rewrite (bm_update_length _ _ _ _ E).
  - eapply bm_set_wf; [|done|done]. lia.
  - intros c Hc. eapply bm_set_used; [lia|done|done].
Qed.

Lemma unset_pkmap_ok s b : bm_wf (pkmap s) -> length (pkmap s) = 1024%nat -> 0 <= b < 32768 ->
  exists bm, pkmap_bitmap_unset b s = Ok (tt, mk_hstate bm (hvm s)) /\ length bm = 1024%nat /\ bm_wf bm /\
    forall c, 0 <= c -> bm_used bm c = negb (c =? b) && bm_used (pkmap s) c.
Proof.
  intros W L Hb. destruct (bm_update_in (fun w => Z.land w (lnot32 (bit (b mod 32)))) b (pkmap s)) as [bm E]; [unfold bm_in; lia|].
  fold (bm_unset b) in E. exists bm. unfold pkmap_bitmap_unset, on_pkmap. rewrite E. split_and!; [done|..].
  - by rewrite (bm_update_length _ _ _ _ E).
  - by eapply bm_unset_wf.
  - intros c Hc. eapply bm_unset_used; [lia|done|done].
Qed.

Lemma hvm_ok {A} (m : M vm A) s a v : m (hvm s) = Ok (a, v) -> on_hvm m s = Ok (a, mk_hstate (pkmap s) v).
Proof. intros E. unfold on_hvm, zoom. by rewrite E. Qed.

Lemma high_ok_after d s bm v :
  high_ok d s -> paging d v -> tables_same (hvm s) v -> length bm = 1024%nat -> bm_wf bm ->
  high_ok d (mk_hstate bm v).
Proof.
  intros [P T D _ _] Pv (_ & _ & Tv) L W. split; try done. cbn. intros k Hk. rewrite Tv by lia. by apply T.
Qed.

(** Taking page [b] of the window for the frame at [paddr]. *)
Lemma take_page d s b paddr :
  high_ok d s -> 0 <= b < 32768 -> page_aligned paddr ->
  let va := b * PMM_FRAME_SIZE + PKMAP_BASE in
  exists s', (pkmap_bitmap_set b ;; on_hvm (vmm_map_address d va paddr (Z.lor I86_PTE_PRESENT I86_PTE_WRITABLE))) s
      = Ok (tt, s') /\ high_ok d s' /\ frames (hvm s') = frames (hvm s) /\
    (forall c, 0 <= c -> bm_used (pkmap s') c = (c =? b) || bm_used (pkmap s) c) /\
    forall x, is_u32 x -> page_walk (hvm s') x =
      if x / 4096 =? PKMAP_BASE / 4096 + b then Some paddr else page_walk (hvm s) x.
Proof.
  intros Hok Hb Hp va. pose proof Hok as [P T D L W].
  destruct (window_page d b) as (_ & Hm & Hk & Hq & _); [apply (pg_dir d (hvm s) P)|done..|].
  destruct (set_pkmap_ok s b W L Hb) as (bm & E1 & L1 & W1 & U1).
  destruct (map_address_present d (hvm s) va paddr 3 P Hm Hp) as (v & E2 & Pv & Fv & Tv & _ & Wv);
    [split; [lia|done]|by apply T|].
  exists (mk_hstate bm v). split_and!.
  - rewrite (bind_step _ _ _ _ _ E1). exact (hvm_ok _ (mk_hstate bm (hvm s)) _ _ E2).
  - by apply (high_ok_after d s).
  - done.
  - done.
  - intros x Hx. cbn. rewrite Wv by done. fold va in Hq. by rewrite Hq.
Qed.

(** Giving page [b] of the window back. *)
Lemma give_page d s b :
  high_ok d s -> 0 <= b < 32768 ->
  let va := b * PMM_FRAME_SIZE + PKMAP_BASE in
  exists s', (pkmap_bitmap_unset b ;; on_hvm (vmm_unmap_address d va)) s = Ok (tt, s') /\
    high_ok d s' /\ frames (hvm s') = frames (hvm s) /\
    (forall c, 0 <= c -> bm_used (pkmap s') c = negb (c =? b) && bm_used (pkmap s) c) /\
    forall x, is_u32 x -> page_walk (hvm s') x =
      if x / 4096 =? PKMAP_BASE / 4096 + b then None else page_walk (hvm s) x.
Proof.
  intros Hok Hb va. pose proof Hok as [P T D L W].
  destruct (window_page d b) as (_ & Hm & Hk & Hq & _); [apply (pg_dir d (hvm s) P)|done..|].
  destruct (unset_pkmap_ok s b W L Hb) as (bm & E1 & L1 & W1 & U1).
  destruct (unmap_address_ok d (hvm s) va P Hm) as (v & E2 & Pv & Fv & Tv & _ & Wv).
  exists (mk_hstate bm v). split_and!.
  - rewrite (bind_step _ _ _ _ _ E1). exact (hvm_ok _ (mk_hstate bm (hvm s)) _ _ E2).
  - by apply (high_ok_after d s).
  - done.
  - done.
  - intros x Hx. cbn. rewrite Wv by done. fold va in Hq. by rewrite Hq.
Qed.

(** What [kmap] does. *)
Lemma kmap_ok d s p :
  high_ok d s -> page_aligned (p_frame p) -> (exists f, 0 <= f < 32768 /\ bm_used (pkmap s) f = false) ->
  exists b s', 0 <= b < 32768 /\ bm_used (pkmap s) b = false /\
    (forall c, 0 <= c < b -> bm_used (pkmap s) c = true) /\
    kmap d p s = Ok (mk_page (p_frame p) (b * PMM_FRAME_SIZE + PKMAP_BASE), s') /\ high_ok d s' /\
    frames (hvm s') = frames (hvm s) /\
    (forall c, 0 <= c -> bm_used (pkmap s') c = (c =? b) || bm_used (pkmap s) c) /\
    forall x, is_u32 x -> page_walk (hvm s') x =
      if x / 4096 =? PKMAP_BASE / 4096 + b then Some (p_frame p) else page_walk (hvm s) x.
Proof.
  intros Hok Hp (f & Hf & Hfree). pose proof Hok as [P T D L W].
  destruct (bm_first_free_spec (pkmap s) 0 1024 W) as (b & E & Hl); [lia|lia|lia|].
  change (32 * (0 + Z.of_nat 1024)) with 32768 in Hl.
  destruct Hl as [[-> Hno]|(Hb & Hbf & Hleast)]; [by destruct (Hno f)|].
  destruct (take_page d s b (p_frame p) Hok) as (s' & E' & ?); [lia|done|].
  exists b, s'. split_and!; try lia; try done; try tauto.
  - intros c Hc. specialize (Hleast c ltac:(lia)). by destruct (bm_used (pkmap s) c).
  - unfold kmap. rewrite (bind_step _ _ _ b s) by (unfold get_pkmap_free; change (Z.to_nat LAST_PKMAP) with 1024%nat; by rewrite E).
    destruct (window_page d b) as (Hu & _); [apply (pg_dir d (hvm s) P)|done|lia|].
    rewrite (u32_small b), Hu by (unfold is_u32; lia).
    apply bind_ok in E' as (? & s1 & Ea & Eb). by rewrite (bind_step _ _ _ _ _ Ea), (bind_step _ _ _ _ _ Eb).
Qed.

(** With a page of the window free, [kmap] takes the lowest free one,
    maps the frame there, records the address in the page, and changes no
    other mapping and no other bit. *)
Theorem kmap_correct d s p :
  high_ok d s -> page_aligned (p_frame p) -> (exists f, 0 <= f < 32768 /\ bm_used (pkmap s) f = false) ->
  exists b s', 0 <= b < 32768 /\ bm_used (pkmap s) b = false /\
    (forall c, 0 <= c < b -> bm_used (pkmap s) c = true) /\
    kmap d p s = Ok (mk_page (p_frame p) (b * PMM_FRAME_SIZE + PKMAP_BASE), s') /\ high_ok d s' /\
    frames (hvm s') = frames (hvm s) /\
    (forall c, 0 <= c -> bm_used (pkmap s') c = (c =? b) || bm_used (pkmap s) c) /\
    forall x, is_u32 x -> page_walk (hvm s') x =
      if x / 4096 =? PKMAP_BASE / 4096 + b then Some (p_frame p) else page_walk (hvm s) x.
Proof. apply kmap_ok. Qed.

(** [kunmap] after [kmap] gives the window page back: the bitmap is as it
    was before [kmap] and the page is no longer mapped. *)
Theorem kmap_kunmap_roundtrip d s s' p p' :
  high_ok d s -> page_aligned (p_frame p) -> (exists f, 0 <= f < 32768 /\ bm_used (pkmap s) f = false) ->
  kmap d p s = Ok (p', s') ->
  exists s'', kunmap d p' s' = Ok (tt, s'') /\ pkmap s'' = pkmap s /\
    forall x, is_u32 x -> page_walk (hvm s'') x =
      if x / 4096 =? p_virtual p' / 4096 then None else page_walk (hvm s) x.
Proof.
  intros Hok Hp Hfree E. pose proof Hok as [P _ D L W].
  destruct (kmap_ok d s p Hok Hp Hfree) as (b & s1 & Hb & Hbf & _ & E1 & Hok1 & _ & U1 & W1).
  rewrite E in E1. injection E1 as -> <-.
  destruct (window_page d b) as (_ & _ & _ & Hq & Hblk); [apply (pg_dir d (hvm s) P)|done..|].
  destruct (give_page d s' b Hok1 Hb) as (s2 & E2 & Hok2 & _ & U2 & W2).
  exists s2. split_and!.
  - unfold kunmap. cbn [p_virtual]. unfold PKMAP_BASE, PMM_FRAME_SIZE in *.
    destruct (Z.eqb_spec (b * 4096 + 0xE0000000) 0); [lia|]. by rewrite Hblk.
  - apply bm_ext; [apply Hok2|done|by rewrite (ho_len d s2 Hok2)|]. intros c Hc. rewrite U2, U1 by done.
    destruct (Z.eqb_spec c b) as [->|]; [by rewrite Hbf|done].
  - intros x Hx. rewrite W2, W1 by done. cbn [p_virtual]. rewrite Hq. by destruct (_ =? _).
Qed.

(** A run of pages. *)
Lemma kmaps_loop_ok d b paddr n i s :
  high_ok d s -> 0 <= b -> 0 <= i -> b + i + Z.of_nat n <= 32768 -> page_aligned paddr ->
  paddr + 4096 * (i + Z.of_nat n) < 2 ^ 32 ->
  exists s', kmaps_loop d b (b * PMM_FRAME_SIZE + PKMAP_BASE) paddr i n s = Ok (tt, s') /\ high_ok d s' /\
    (forall c, 0 <= c -> bm_used (pkmap s') c = in_range (b + i) (Z.of_nat n) c || bm_used (pkmap s) c) /\
    forall x, is_u32 x -> page_walk (hvm s') x =
      let q := x / 4096 - PKMAP_BASE / 4096 in
      if in_range (b + i) (Z.of_nat n) q then Some (paddr + 4096 * (q - b)) else page_walk (hvm s) x.
Proof.
  revert i s. induction n as [|n IH]; intros i s Hok Hb Hi Hn Hp Hpm.
  { exists s. split_and!; try done; intros; cbv zeta; range_cases. }
  pose proof Hp as [Hpu Hp0]. unfold is_u32 in Hpu. pose proof (ho_paging d s Hok) as P. pose proof (ho_dir d s Hok) as D.
  destruct (window_page d (b + i)) as (Hu & _); [apply (pg_dir d (hvm s) P)|done|lia|].
  destruct (take_page d s (b + i) (paddr + i * 4096) Hok) as (s1 & E1 & Hok1 & _ & U1 & W1); [lia| |].
  { split; [unfold is_u32; lia|]. rewrite Z.mod_add by lia. done. }
  destruct (IH (i + 1) s1) as (s2 & E2 & Hok2 & U2 & W2); try done; try lia.
  exists s2. split_and!; try done.
  - cbn [kmaps_loop]. unfold PMM_FRAME_SIZE in *.
    replace (b * 4096 + PKMAP_BASE + i * 4096) with ((b + i) * 4096 + PKMAP_BASE) by lia.
    rewrite (u32_small (b + i)), Hu, (u32_small (paddr + i * 4096)) by (unfold is_u32; lia).
    apply bind_ok in E1 as (? & s1' & Ea & Eb). by rewrite (bind_step _ _ _ _ _ Ea), (bind_step _ _ _ _ _ Eb).
  - intros c Hc. rewrite U2, U1 by done. range_cases.
  - intros x Hx. rewrite W2, W1 by done. cbv zeta.
    set (q := x / 4096 - PKMAP_BASE / 4096). range_cases. f_equal. lia.
Qed.

(** [kmaps] maps the whole run: with a start [b] found by the search, page
    [i] of the run shows frame [paddr + i * 4096], all its bits are set, and
    nothing else changes. *)
Theorem kmaps_correct d s p b :
  high_ok d s -> page_aligned (ps_paddr p) -> 0 <= ps_number_of_frames p ->
  ps_paddr p + 4096 * ps_number_of_frames p < 2 ^ 32 ->
  bm_first_frees (pkmap s) LAST_PKMAP (ps_number_of_frames p) = Ok b -> 0 <= b ->
  b + ps_number_of_frames p <= 32768 -> 0 < ps_number_of_frames p ->
  exists s', kmaps d p s = Ok (mk_pages (ps_paddr p) (ps_number_of_frames p) (b * PMM_FRAME_SIZE + PKMAP_BASE), s') /\
    high_ok d s' /\
    (forall c, 0 <= c -> bm_used (pkmap s') c = in_range b (ps_number_of_frames p) c || bm_used (pkmap s) c) /\
    forall x, is_u32 x -> page_walk (hvm s') x =
      let q := x / 4096 - PKMAP_BASE / 4096 in
      if in_range b (ps_number_of_frames p) q then Some (ps_paddr p + 4096 * (q - b)) else page_walk (hvm s) x.
Proof.
  intros Hok Hp Hn Hpm E Hb Hbn Hpos. pose proof (ho_paging d s Hok) as P. pose proof (ho_dir d s Hok) as D.
  destruct (window_page d b) as (Hu & _); [apply (pg_dir d (hvm s) P)|done|lia|].
  destruct (kmaps_loop_ok d b (ps_paddr p) (Z.to_nat (ps_number_of_frames p)) 0 s Hok) as (s' & E' & Hok' & U & W);
    try done; try lia.
  rewrite Z2Nat.id, Z.add_0_r in U, W by done. exists s'. split_and!; try done.
  unfold kmaps. rewrite (bind_step _ _ _ b s) by (unfold get_pkmaps_free; by rewrite E).
  rewrite (u32_small b), Hu by (unfold is_u32; lia). by rewrite (bind_step _ _ _ _ _ E').
Qed.

(** ** Witnesses: an empty window over the kernel address space of [Sbrk] *)

Definition example_high : hstate := mk_hstate (replicate 1024 0) example_kernel.

Lemma example_high_ok : high_ok 0xC0002000 example_high.
Proof.
  split; cbn [pkmap hvm example_high].
  - exact example_kernel_paging.
  - exact (kh_tables example_kheap example_kheap_ok).
  - left. done.
  - apply length_replicate.
  - apply Forall_replicate. zdec.
Qed.

Lemma kmap_correct_witness :
  exists b s', kmap 0xC0002000 (mk_page 0x9000 0) example_high
    = Ok (mk_page 0x9000 (b * PMM_FRAME_SIZE + PKMAP_BASE), s') /\ high_ok 0xC0002000 s'.
Proof.
  destruct (kmap_correct 0xC0002000 example_high (mk_page 0x9000 0)) as (b & s' & _ & _ & _ & E & Hok & _).
  - exact example_high_ok.
  - split; [zdec|done].
  - exists 5. split; [lia|vm_compute; reflexivity].
  - exists b, s'. split; [exact E|exact Hok].
Defined.

Lemma kmap_kunmap_roundtrip_witness :
  exists p' s' s'', kmap 0xC0002000 (mk_page 0x9000 0) example_high = Ok (p', s') /\
    kunmap 0xC0002000 p' s' = Ok (tt, s'') /\ pkmap s'' = replicate 1024 0.
Proof.
  destruct (kmap_ok 0xC0002000 example_high (mk_page 0x9000 0)) as (b & s' & _ & _ & _ & E & _).
  - exact example_high_ok.
  - split; [zdec|done].
  - exists 5. split; [lia|vm_compute; reflexivity].
  - destruct (kmap_kunmap_roundtrip 0xC0002000 example_high s' (mk_page 0x9000 0)
      (mk_page 0x9000 (b * PMM_FRAME_SIZE + PKMAP_BASE))) as (s'' & E' & Hb & _).
    + exact example_high_ok.
    + split; [zdec|done].
    + exists 5. split; [lia|vm_compute; reflexivity].
    + exact E.
    + exists (mk_page 0x9000 (b * PMM_FRAME_SIZE + PKMAP_BASE)), s', s''.
      split_and!; [exact E|exact E'|exact Hb].
Defined.

Lemma kmaps_correct_witness :
  exists s', kmaps 0xC0002000 (mk_pages 0x9000 3 0) example_high = Ok (mk_pages 0x9000 3 (0 * PMM_FRAME_SIZE + PKMAP_BASE), s') /\
    page_walk (hvm s') 0xE0002000 = Some 0xB000.
Proof.
  destruct (kmaps_correct 0xC0002000 example_high (mk_pages 0x9000 3 0) 0) as (s' & E & _ & _ & W).
  - exact example_high_ok.
  - split; [zdec|done].
  - zdec.
  - zdec.
  - vm_compute. reflexivity.
  - lia.
  - zdec.
  - zdec.
  - exists s'. split; [exact E|]. rewrite W by zdec. vm_compute. reflexivity.
Defined.
