(* ===== verification/CircularBuffer.v ===== *)
(** * Circular buffer ([utils/circular_buffer.c])

    A byte ring with [head], [tail] and a [full] flag, proved to be a bounded
    FIFO queue: every sequence of operations gives the results, and leaves the
    contents, of the queue of [spec_op]. *)
From Stdlib Require Import ZArith Lia Bool.
From stdpp Require Import base list option.
From S2P Require Import Prelude.

Open Scope Z_scope.

(** [struct circular_buf_t], with the storage behind [buffer]. *)
Record circular_buf_t := mk_cbuf {
  buffer : list Z;
  head : Z;
  tail : Z;
  max : Z;
  full : bool;
}.

Definition with_tail (t : Z) (c : circular_buf_t) := mk_cbuf (buffer c) (head c) t (max c) (full c).
Definition with_head (h : Z) (c : circular_buf_t) := mk_cbuf (buffer c) h (tail c) (max c) (full c).
Definition with_full (f : bool) (c : circular_buf_t) := mk_cbuf (buffer c) (head c) (tail c) (max c) f.

Definition advance_pointer : M circular_buf_t unit :=
  c ← gets id;
  (if full c then modify (fun c => with_tail (u32 (tail c + 1) mod max c) c) else mret tt) ;;
  modify (fun c => with_head (u32 (head c + 1) mod max c) c) ;;
  modify (fun c => with_full (head c =? tail c) c).

Definition retreat_pointer : M circular_buf_t unit :=
  modify (fun c => with_full false c) ;;
  modify (fun c => with_tail (u32 (tail c + 1) mod max c) c).

Definition circular_buf_reset : M circular_buf_t unit :=
  modify (fun c => mk_cbuf (buffer c) 0 0 (max c) false).

(** [kcalloc] gives a zeroed structure; [buffer] is the caller's storage. *)
Definition circular_buf_init (storage : list Z) (size : Z) : outcome circular_buf_t :=
  match circular_buf_reset (mk_cbuf storage 0 0 size false) with
  | Ok (_, c) => Ok c
  | Fail f => Fail f
  end.

Definition circular_buf_size : M circular_buf_t Z :=
  gets (fun c =>
    if full c then max c
    else if tail c <=? head c then u32 (head c - tail c)
    else u32 (max c + head c - tail c)).

Definition circular_buf_capacity : M circular_buf_t Z := gets max.
Definition circular_buf_empty : M circular_buf_t bool := gets (fun c => negb (full c) && (head c =? tail c)).
Definition circular_buf_full : M circular_buf_t bool := gets full.

(** [cbuf->buffer[i] = data], faulting outside the storage. *)
Definition store (i data : Z) : M circular_buf_t unit := fun c =>
  match buffer c !! Z.to_nat i with
  | Some _ => Ok (tt, mk_cbuf (<[Z.to_nat i := data]> (buffer c)) (head c) (tail c) (max c) (full c))
  | None => Fail Segv
  end.

Definition circular_buf_put (data : Z) : M circular_buf_t unit :=
  h ← gets head;
  store h data ;;
  advance_pointer.

Definition circular_buf_put2 (data : Z) : M circular_buf_t Z :=
  f ← circular_buf_full;
  if f : bool then mret (-1)
  else
    h ← gets head;
    store h data ;;
    advance_pointer ;;
    mret 0.

(** The result is the return value and what was written to [*data], if anything. *)
Definition circular_buf_get : M circular_buf_t (Z * option Z) :=
  e ← circular_buf_empty;
  if e : bool then mret (-1, None)
  else
    data ← deref (fun c => buffer c !! Z.to_nat (tail c));
    retreat_pointer ;;
    mret (0, Some data).

(** ** The queue it implements *)

Definition count (c : circular_buf_t) : Z :=
  if full c then max c else (head c - tail c) mod max c.

(** Slot [i] after the tail. *)
Definition slot (c : circular_buf_t) (i : Z) : nat := Z.to_nat ((tail c + i) mod max c).

Definition contents (c : circular_buf_t) : list Z :=
  map (fun i => default 0 (buffer c !! slot c i)) (seqZ 0 (count c)).

Record cbuf_ok (c : circular_buf_t) : Prop := {
  cb_max : 0 < max c < 2 ^ 32;
  cb_len : Z.of_nat (length (buffer c)) = max c;
  cb_head : 0 <= head c < max c;
  cb_tail : 0 <= tail c < max c;
  cb_full : full c = true -> head c = tail c;
}.

Inductive op := Put (b : Z) | Put2 (b : Z) | Get | Size | Reset.
Inductive res := RUnit | RCode (z : Z) | RGet (z : Z) (d : option Z).

Definition run_op (o : op) : M circular_buf_t res :=
  match o with
  | Put b => circular_buf_put b ;; mret RUnit
  | Put2 b => r ← circular_buf_put2 b; mret (RCode r)
  | Get => '(r, d) ← circular_buf_get; mret (RGet r d)
  | Size => n ← circular_buf_size; mret (RCode n)
  | Reset => circular_buf_reset ;; mret RUnit
  end.

(** A queue of at most [cap] bytes: [Put] drops the oldest byte when full. *)
Definition spec_op (cap : Z) (o : op) (q : list Z) : res * list Z :=
  match o with
  | Put b => (RUnit, (if Z.of_nat (length q) =? cap then drop 1 q else q) ++ [b])
  | Put2 b => if Z.of_nat (length q) =? cap then (RCode (-1), q) else (RCode 0, q ++ [b])
  | Get => match q with
           | [] => (RGet (-1) None, [])
           | x :: q' => (RGet 0 (Some x), q')
           end
  | Size => (RCode (Z.of_nat (length q)), q)
  | Reset => (RUnit, [])
  end.

Fixpoint run_ops (os : list op) : M circular_buf_t (list res) :=
  match os with
  | [] => mret []
  | o :: os' => r ← run_op o; rs ← run_ops os'; mret (r :: rs)
  end.
Fixpoint spec_ops (cap : Z) (os : list op) (q : list Z) : list res * list Z :=
  match os with
  | [] => ([], q)
  | o :: os' =>
      let '(r, q1) := spec_op cap o q in
      let '(rs, q2) := spec_ops cap os' q1 in (r :: rs, q2)
  end.

(** ** Lemmas *)

Lemma succ_mod c i : cbuf_ok c -> 0 <= i < max c -> u32 (i + 1) mod max c = (i + 1) mod max c.
Proof. intros [Hm _ _ _ _] Hi. rewrite u32_small; [done|]. unfold is_u32. lia. Qed.

Lemma count_bounds c : cbuf_ok c -> 0 <= count c <= max c.
Proof.
  intros [Hm _ _ _ _]. unfold count. destruct (full c); [lia|].
  pose proof (Z.mod_pos_bound (head c - tail c) (max c)). lia.
Qed.

Lemma contents_length c : cbuf_ok c -> Z.of_nat (length (contents c)) = count c.
Proof. intros Hc. unfold contents. rewrite length_map, length_seqZ. pose proof (count_bounds c Hc). lia. Qed.

Lemma head_slot c : cbuf_ok c -> head c = (tail c + count c) mod max c.
Proof.
  intros [Hm _ Hh Ht Hf]. unfold count. destruct (full c).
  - rewrite Hf by done. rewrite <- (Z.mul_1_l (max c)) at 1. rewrite Z.mod_add, Z.mod_small by lia. done.
  - rewrite Zplus_mod_idemp_r. replace (tail c + (head c - tail c)) with (head c) by lia.
    by rewrite Z.mod_small.
Qed.

Lemma count_full c : cbuf_ok c -> (Z.of_nat (length (contents c)) =? max c) = full c.
Proof.
  intros Hc. rewrite contents_length by done. unfold count. destruct (full c) eqn:E; [apply Z.eqb_refl|].
  pose proof (Z.mod_pos_bound (head c - tail c) (max c)). destruct Hc. apply Z.eqb_neq. lia.
Qed.

(** Distinct offsets are distinct slots. *)
Lemma slot_inj c i j : cbuf_ok c -> 0 <= i < max c -> 0 <= j < max c -> slot c i = slot c j -> i = j.
Proof.
  intros [Hm _ _ Ht _] Hi Hj He. unfold slot in He.
  pose proof (Z.mod_pos_bound (tail c + i) (max c)). pose proof (Z.mod_pos_bound (tail c + j) (max c)).
  apply Z2Nat.inj in He; [|lia..].
  pose proof (Z.div_mod (tail c + i) (max c) ltac:(lia)). pose proof (Z.div_mod (tail c + j) (max c) ltac:(lia)).
  assert ((tail c + i) / max c = (tail c + j) / max c \/ (tail c + i) / max c = (tail c + j) / max c + 1
    \/ (tail c + j) / max c = (tail c + i) / max c + 1) as [|[|]] by nia; nia.
Qed.

Lemma seqZ_S n : 0 <= n -> seqZ 0 (n + 1) = seqZ 0 n ++ [n].
Proof.
  intros Hn. rewrite seqZ_app by lia. f_equal.
Qed.

Lemma contents_snoc c d :
  cbuf_ok c -> full c = false ->
  let c' := mk_cbuf (<[Z.to_nat (head c) := d]> (buffer c)) ((head c + 1) mod max c) (tail c) (max c)
              ((head c + 1) mod max c =? tail c) in
  cbuf_ok c' /\ contents c' = contents c ++ [d].
Proof.
  intros Hc Hnf c'. pose proof Hc as [Hm Hl Hh Ht Hf]. pose proof (count_bounds c Hc) as Hcb.
  assert (count c < max c) as Hlt.
  { unfold count. rewrite Hnf. apply Z.mod_pos_bound. lia. }
  assert (count c' = count c + 1) as Hcnt.
  { unfold count at 1. cbn. pose proof (head_slot c Hc) as Hhs.
    destruct (Z.eqb_spec ((head c + 1) mod max c) (tail c)) as [He|Hne].
    - rewrite Hhs, Zplus_mod_idemp_l in He.
      pose proof (Z.div_mod (tail c + count c + 1) (max c) ltac:(lia)).
      assert ((tail c + count c + 1) / max c = 1 \/ (tail c + count c + 1) / max c < 1 \/ 1 < (tail c + count c + 1) / max c) as [Hq|[Hq|Hq]] by lia;
        [nia|nia|nia].
    - rewrite Hhs, Zplus_mod_idemp_l, Zminus_mod_idemp_l.
      replace (tail c + count c + 1 - tail c) with (count c + 1) by lia.
      rewrite Hhs, Zplus_mod_idemp_l in Hne. apply Z.mod_small.
      assert (count c + 1 <> max c); [|lia]. intros He. apply Hne.
      rewrite <- Z.add_assoc, He. rewrite <- (Z.mul_1_l (max c)) at 1. rewrite Z.mod_add, Z.mod_small by lia. done. }
  split.
  - split; cbn; try done; [by rewrite length_insert|apply Z.mod_pos_bound; lia|]. intros He. by apply Z.eqb_eq in He.
  - unfold contents. rewrite Hcnt, seqZ_S, map_app by lia. f_equal.
    + apply map_ext_in. intros i Hi%list_elem_of_In%elem_of_seqZ. cbn.
      change (slot c' i) with (slot c i). rewrite list_lookup_insert_ne; [done|].
      intros He. pose proof (head_slot c Hc) as Hhs. rewrite Hhs in He. change (slot c (count c) = slot c i) in He.
      apply slot_inj in He; [lia|done|lia|lia].
    + cbn. change (slot c' (count c)) with (slot c (count c)). unfold slot. rewrite <- head_slot by done.
      rewrite list_lookup_insert_eq; [done|]. lia.
Qed.

(** Dropping the oldest byte. *)
Lemma contents_tail c :
  cbuf_ok c -> 0 < count c ->
  let c' := mk_cbuf (buffer c) (head c) ((tail c + 1) mod max c) (max c) false in
  cbuf_ok c' /\ exists x, buffer c !! Z.to_nat (tail c) = Some x /\ contents c = x :: contents c'.
Proof.
  intros Hc Hpos c'. pose proof Hc as [Hm Hl Hh Ht Hf]. pose proof (count_bounds c Hc) as Hcb.
  assert (count c' = count c - 1) as Hcnt.
  { unfold count at 1. cbn. pose proof (head_slot c Hc) as Hhs.
    rewrite Zminus_mod_idemp_r, Hhs, Zminus_mod_idemp_l.
    replace (tail c + count c - (tail c + 1)) with (count c - 1) by lia. apply Z.mod_small. lia. }
  split; [split; cbn; try done; apply Z.mod_pos_bound; lia|].
  destruct (lookup_lt_is_Some_2 (buffer c) (Z.to_nat (tail c))) as [x Hx]; [lia|].
  exists x. split; [done|]. unfold contents. rewrite Hcnt, seqZ_cons by lia. cbn [map]. f_equal.
  - unfold slot. rewrite Z.add_0_r, Z.mod_small by lia. by rewrite Hx.
  - replace (Z.pred (count c)) with (count c - 1) by lia. change (Z.succ 0) with (1 + 0).
    rewrite <- fmap_add_seqZ. etransitivity; [apply map_map|]. apply map_ext. intros i. cbn.
    do 2 f_equal. unfold slot. cbn. rewrite Zplus_mod_idemp_l. do 2 f_equal. lia.
Qed.

Lemma count_zero c : cbuf_ok c -> negb (full c) && (head c =? tail c) = (count c =? 0).
Proof.
  intros [Hm _ Hh Ht _]. unfold count. destruct (full c); cbn; [symmetry; apply Z.eqb_neq; lia|].
  destruct (Z.eqb_spec (head c) (tail c)) as [->|Hne].
  - by rewrite Z.sub_diag, Z.mod_0_l by lia.
  - symmetry. apply Z.eqb_neq. intros H0. apply Zmod_divides in H0 as [k Hk]; [|lia].
    assert (k = 0 \/ 1 <= k \/ k <= -1) as [->|[|]] by lia; nia.
Qed.

Lemma store_ok c i d : (0 <= i < Z.of_nat (length (buffer c))) ->
  store i d c = Ok (tt, mk_cbuf (<[Z.to_nat i := d]> (buffer c)) (head c) (tail c) (max c) (full c)).
Proof.
  intros Hi. unfold store. destruct (lookup_lt_is_Some_2 (buffer c) (Z.to_nat i)) as [x ->]; [lia|done].
Qed.

(** The state after [store] at the head and [advance_pointer]. *)
Lemma put_state c d :
  cbuf_ok c ->
  (store (head c) d ;; advance_pointer) c =
    Ok (tt, let t := if full c then (tail c + 1) mod max c else tail c in
            mk_cbuf (<[Z.to_nat (head c) := d]> (buffer c)) ((head c + 1) mod max c) t (max c)
              ((head c + 1) mod max c =? t)).
Proof.
  intros Hc. pose proof Hc as [Hm Hl Hh Ht _]. rewrite (bind_step _ _ _ _ _ (store_ok c (head c) d ltac:(lia))).
  unfold advance_pointer, mbind, M_bind, gets, modify, mret, M_ret. cbn.
  destruct (full c); cbn; rewrite !succ_mod by done; done.
Qed.

Lemma put_refines c d :
  cbuf_ok c ->
  exists c', (store (head c) d ;; advance_pointer) c = Ok (tt, c') /\ cbuf_ok c' /\ max c' = max c /\
    contents c' = (if full c then drop 1 (contents c) else contents c) ++ [d].
Proof.
  intros Hc. rewrite put_state by done. eexists. split; [reflexivity|].
  destruct (full c) eqn:Ef; cbv zeta.
  - destruct (contents_tail c Hc) as [Hc1 (x & _ & Hx)].
    { unfold count. rewrite Ef. apply Hc. }
    destruct (contents_snoc _ d Hc1 eq_refl) as [Hc2 Hs]. cbn in Hc2, Hs.
    split_and!; [exact Hc2|done|]. rewrite Hx. exact Hs.
  - destruct (contents_snoc c d Hc Ef) as [Hc2 Hs]. split_and!; [exact Hc2|done|exact Hs].
Qed.

Lemma get_refines c :
  cbuf_ok c ->
  exists r c', circular_buf_get c = Ok (r, c') /\ cbuf_ok c' /\ max c' = max c /\
    match contents c with
    | [] => r = (-1, None) /\ c' = c
    | x :: q => r = (0, Some x) /\ contents c' = q
    end.
Proof.
  intros Hc. unfold circular_buf_get, circular_buf_empty. rewrite (bind_step _ _ _ (count c =? 0) c)
    by (unfold gets; by rewrite count_zero).
  destruct (Z.eqb_spec (count c) 0) as [H0|H0].
  - exists (-1, None), c. split_and!; try done. unfold contents. by rewrite H0.
  - destruct (contents_tail c Hc) as [Hc1 (x & Hx & Hs)]; [pose proof (count_bounds c Hc); lia|].
    rewrite (bind_step _ _ _ x c) by (unfold deref; by rewrite Hx).
    exists (0, Some x), (mk_cbuf (buffer c) (head c) ((tail c + 1) mod max c) (max c) false).
    split_and!; [|done|done|by rewrite Hs].
    unfold retreat_pointer, mbind, M_bind, modify. cbn. by rewrite succ_mod by (done || apply Hc).
Qed.

Lemma size_refines c : cbuf_ok c -> circular_buf_size c = Ok (Z.of_nat (length (contents c)), c).
Proof.
  intros Hc. pose proof Hc as [Hm _ Hh Ht _]. rewrite contents_length by done.
  unfold circular_buf_size, gets, count. do 2 f_equal. destruct (full c); [done|].
  destruct (Z.leb_spec (tail c) (head c)); rewrite u32_small by (unfold is_u32; lia).
  - by rewrite Z.mod_small by lia.
  - replace (max c + head c - tail c) with (head c - tail c + 1 * max c) by lia.
    rewrite <- (Z.mod_add (head c - tail c) 1 (max c)), Z.mod_small by lia. done.
Qed.

Lemma reset_refines c : cbuf_ok c -> let c' := mk_cbuf (buffer c) 0 0 (max c) false in
  circular_buf_reset c = Ok (tt, c') /\ cbuf_ok c' /\ contents c' = [].
Proof.
  intros [Hm Hl _ _ _] c'. split_and!; [done|split; cbn; done || lia|].
  unfold contents, count. cbn. by rewrite Z.mod_0_l by lia.
Qed.

Lemma run_op_refines o c :
  cbuf_ok c ->
  exists c', let '(r, q) := spec_op (max c) o (contents c) in
    run_op o c = Ok (r, c') /\ cbuf_ok c' /\ max c' = max c /\ contents c' = q.
Proof.
  intros Hc. destruct o as [b|b| | |]; cbn [spec_op run_op].
  - destruct (put_refines c b Hc) as (c' & E & ? & ? & Hs). exists c'. rewrite count_full by done.
    split_and!; try done. unfold circular_buf_put. rewrite (bind_step _ _ _ tt c'); [done|]. exact E.
  - rewrite count_full by done. unfold circular_buf_put2, circular_buf_full. destruct (full c) eqn:Ef.
    + exists c. split_and!; try done. unfold mbind, M_bind, gets. cbn. by rewrite Ef.
    + destruct (put_refines c b Hc) as (c' & E & ? & ? & Hs). rewrite Ef in Hs. exists c'. split_and!; try done.
      apply bind_ok in E as (? & c1 & Ea & Eb).
      rewrite (bind_step _ _ _ 0 c'); [done|]. rewrite (bind_step _ _ _ false c) by (unfold gets; by rewrite Ef).
      rewrite (bind_step _ _ _ (head c) c) by done. by rewrite (bind_step _ _ _ _ _ Ea), (bind_step _ _ _ _ _ Eb).
  - destruct (get_refines c Hc) as ([r d] & c' & E & ? & ? & Hr). exists c'.
    rewrite (bind_step _ _ _ _ _ E). destruct (contents c) as [|x q] eqn:Eq.
    + destruct Hr as [[= -> ->] ->]. by rewrite Eq.
    + destruct Hr as [[= -> ->] Hq]. done.
  - exists c. rewrite (bind_step _ _ _ _ _ (size_refines c Hc)). done.
  - destruct (reset_refines c Hc) as (E & ? & ?). eexists. rewrite (bind_step _ _ _ _ _ E). done.
Qed.

(** The circular buffer is a bounded FIFO queue. Any sequence of put,
    put2, get, size and reset calls on a well-formed buffer returns, and its
    results and final contents are those of a list with at most [max] bytes:
    put2 rejects and put drops the oldest byte exactly when [max] bytes are
    stored, get returns bytes in the order they were put. *)
Theorem circular_buf_fifo os c :
  cbuf_ok c ->
  exists c', run_ops os c = Ok (fst (spec_ops (max c) os (contents c)), c') /\ cbuf_ok c' /\
    contents c' = snd (spec_ops (max c) os (contents c)).
Proof.
  revert c. induction os as [|o os IH]; intros c Hc; [by exists c|].
  destruct (run_op_refines o c Hc) as [c1 H1]. cbn [run_ops spec_ops].
  destruct (spec_op (max c) o (contents c)) as [r q1]. destruct H1 as (E1 & Hc1 & Hm1 & <-).
  destruct (IH c1 Hc1) as (c2 & E2 & Hc2 & Hs2). rewrite Hm1 in E2, Hs2.
  destruct (spec_ops (max c) os (contents c1)) as [rs q2]. cbn in *.
  exists c2. rewrite (bind_step _ _ _ _ _ E1), (bind_step _ _ _ _ _ E2). done.
Qed.

Lemma circular_buf_fifo_witness :
  exists c', run_ops [Put 1; Put2 2; Put2 3; Put 4; Size; Get; Get; Get] (mk_cbuf [0; 0] 0 0 2 false)
      = Ok ([RUnit; RCode 0; RCode (-1); RUnit; RCode 2; RGet 0 (Some 2); RGet 0 (Some 4); RGet (-1) None], c') /\
    contents c' = [].
Proof.
  destruct (circular_buf_fifo [Put 1; Put2 2; Put2 3; Put 4; Size; Get; Get; Get] (mk_cbuf [0; 0] 0 0 2 false))
    as (c' & E & _ & Hs).
  - split; cbn; done || lia.
  - exists c'. split; [exact E|exact Hs].
Defined.
