(* ===== verification/Dlist.v ===== *)
(** * Circular doubly linked lists

    [include/list.h]: the intrusive list every kernel queue is built on. The
    model is at pointer level: a heap of [struct list_head] objects by address,
    and every function with the loads and stores it performs, in order. A list
    is a [circle] of the heap; the operations are shown to act on circles as
    the list operations they are named after, leaving all other objects of the
    heap alone. *)
From Stdlib Require Import ZArith Lia Bool List.
From stdpp Require Import base list gmap option fin_maps sets.
From S2P Require Import Prelude.

Open Scope Z_scope.

(** [struct list_head] *)
Record list_head := mk_list_head { lh_next : Z; lh_prev : Z }.

Abbreviation lheap := (gmap Z list_head) (only parsing).

Definition LIST_POISON1 : Z := 0.
Definition LIST_POISON2 : Z := 0.

Definition upn (p v : Z) (H : lheap) : lheap := alter (fun n => mk_list_head v (lh_prev n)) p H.
Definition upp (p v : Z) (H : lheap) : lheap := alter (fun n => mk_list_head (lh_next n) v) p H.

(** [p->next], [p->prev] as values and as assignments. *)
Definition nx (H : lheap) (p : Z) : option Z := lh_next <$> H !! p.
Definition pv (H : lheap) (p : Z) : option Z := lh_prev <$> H !! p.
Definition get_next (p : Z) : M lheap Z := deref (fun H => nx H p).
Definition get_prev (p : Z) : M lheap Z := deref (fun H => pv H p).
Definition set_next (p v : Z) : M lheap unit := fun H =>
  match H !! p with Some _ => Ok (tt, upn p v H) | None => Fail Segv end.
Definition set_prev (p v : Z) : M lheap unit := fun H =>
  match H !! p with Some _ => Ok (tt, upp p v H) | None => Fail Segv end.

(** ** The functions of [list.h] *)

Definition INIT_LIST_HEAD (list : Z) : M lheap unit :=
  set_next list list;; set_prev list list.

Definition __list_add_valid (new prev next : Z) : M lheap bool := mret true.

Definition __list_del_entry_valid (entry : Z) : M lheap bool :=
  n ← get_next entry;
  if negb (n =? LIST_POISON1) : bool
  then p ← get_prev entry; mret (negb (p =? LIST_POISON2))
  else mret false.

Definition __list_add (new prev next : Z) : M lheap unit :=
  valid ← __list_add_valid new prev next;
  if negb valid : bool then mret tt
  else set_prev next new;; set_next new next;; set_prev new prev;; set_next prev new.

Definition list_add (new head : Z) : M lheap unit :=
  n ← get_next head; __list_add new head n.

Definition list_add_tail (new head : Z) : M lheap unit :=
  p ← get_prev head; __list_add new p head.

Definition __list_del (prev next : Z) : M lheap unit :=
  set_prev next prev;; set_next prev next.

Definition __list_del_clearprev (entry : Z) : M lheap unit :=
  p ← get_prev entry; n ← get_next entry; __list_del p n;; set_prev entry 0.

Definition __list_del_entry (entry : Z) : M lheap unit :=
  valid ← __list_del_entry_valid entry;
  if negb valid : bool then mret tt
  else p ← get_prev entry; n ← get_next entry; __list_del p n.

Definition list_del (entry : Z) : M lheap unit :=
  __list_del_entry entry;; set_next entry LIST_POISON1;; set_prev entry LIST_POISON2.

Definition list_replace (old new : Z) : M lheap unit :=
  n ← get_next old; set_next new n;;
  n' ← get_next new; set_prev n' new;;
  p ← get_prev old; set_prev new p;;
  p' ← get_prev new; set_next p' new.

Definition list_replace_init (old new : Z) : M lheap unit :=
  list_replace old new;; INIT_LIST_HEAD old.

Definition list_swap (entry1 entry2 : Z) : M lheap unit :=
  pos ← get_prev entry2;
  list_del entry2;;
  list_replace entry1 entry2;;
  list_add entry1 (if pos =? entry1 then entry2 else pos).

Definition list_del_init (entry : Z) : M lheap unit :=
  __list_del_entry entry;; INIT_LIST_HEAD entry.

Definition list_move (list head : Z) : M lheap unit :=
  __list_del_entry list;; list_add list head.

Definition list_move_tail (list head : Z) : M lheap unit :=
  __list_del_entry list;; list_add_tail list head.

Definition list_bulk_move_tail (head first last : Z) : M lheap unit :=
  fp ← get_prev first; ln ← get_next last; set_next fp ln;;
  ln ← get_next last; fp ← get_prev first; set_prev ln fp;;
  hp ← get_prev head; set_next hp first;;
  hp ← get_prev head; set_prev first hp;;
  set_next last head;;
  set_prev head last.

Definition list_is_first (list head : Z) : M lheap bool := p ← get_prev list; mret (p =? head).
Definition list_is_last (list head : Z) : M lheap bool := n ← get_next list; mret (n =? head).
Definition list_empty (head : Z) : M lheap bool := n ← get_next head; mret (n =? head).

Definition list_empty_careful (head : Z) : M lheap bool :=
  next ← get_next head;
  if next =? head then p ← get_prev head; mret (next =? p) else mret false.

Definition list_rotate_left (head : Z) : M lheap unit :=
  e ← list_empty head;
  if negb e : bool then first ← get_next head; list_move_tail first head else mret tt.

Definition list_rotate_to_front (list head : Z) : M lheap unit := list_move_tail head list.

Definition list_is_singular (head : Z) : M lheap bool :=
  e ← list_empty head;
  if negb e : bool then n ← get_next head; p ← get_prev head; mret (n =? p) else mret false.

Definition __list_cut_position (list head entry : Z) : M lheap unit :=
  new_first ← get_next entry;
  hn ← get_next head; set_next list hn;;
  ln ← get_next list; set_prev ln list;;
  set_prev list entry;;
  set_next entry list;;
  set_next head new_first;;
  set_prev new_first head.

Definition list_cut_position (list head entry : Z) : M lheap unit :=
  e ← list_empty head;
  if e : bool then mret tt else
  s ← list_is_singular head;
  hn ← get_next head;
  if s && (negb (hn =? entry) && negb (head =? entry)) : bool then mret tt
  else if entry =? head then INIT_LIST_HEAD list
  else __list_cut_position list head entry.

Definition list_cut_before (list head entry : Z) : M lheap unit :=
  hn ← get_next head;
  if hn =? entry then INIT_LIST_HEAD list
  else
    hn ← get_next head; set_next list hn;;
    ln ← get_next list; set_prev ln list;;
    ep ← get_prev entry; set_prev list ep;;
    lp ← get_prev list; set_next lp list;;
    set_next head entry;;
    set_prev entry head.

Definition __list_splice (list prev next : Z) : M lheap unit :=
  first ← get_next list;
  last ← get_prev list;
  set_prev first prev;;
  set_next prev first;;
  set_next last next;;
  set_prev next last.

Definition list_splice (list head : Z) : M lheap unit :=
  e ← list_empty list;
  if negb e : bool then n ← get_next head; __list_splice list head n else mret tt.

Definition list_splice_tail (list head : Z) : M lheap unit :=
  e ← list_empty list;
  if negb e : bool then p ← get_prev head; __list_splice list p head else mret tt.

Definition list_splice_init (list head : Z) : M lheap unit :=
  e ← list_empty list;
  if negb e : bool then n ← get_next head; __list_splice list head n;; INIT_LIST_HEAD list
  else mret tt.

Definition list_splice_tail_init (list head : Z) : M lheap unit :=
  e ← list_empty list;
  if negb e : bool then p ← get_prev head; __list_splice list p head;; INIT_LIST_HEAD list
  else mret tt.

(** [list_for_each] and [list_for_each_prev], as folds over the visited
    cursors; [fuel] bounds the iterations. *)
Fixpoint for_each {A} (step : Z -> M lheap Z) (pos head : Z) (body : Z -> A -> A) (acc : A) (fuel : nat) :
    M lheap A :=
  match fuel with
  | O => mfail Fuel
  | S fuel' =>
      if pos =? head then mret acc
      else pos' ← step pos; for_each step pos' head body (body pos acc) fuel'
  end.

Definition list_for_each {A} (fuel : nat) (head : Z) (body : Z -> A -> A) (acc : A) : M lheap A :=
  pos ← get_next head; for_each get_next pos head body acc fuel.

Definition list_for_each_prev {A} (fuel : nat) (head : Z) (body : Z -> A -> A) (acc : A) : M lheap A :=
  pos ← get_prev head; for_each get_prev pos head body acc fuel.

Definition list_count (fuel : nat) (head : Z) : M lheap Z :=
  list_for_each fuel head (fun _ count => count + 1) 0.

Definition list_is_poison (entry : Z) : M lheap bool :=
  p ← get_prev entry;
  if p =? LIST_POISON1 then n ← get_next entry; mret (n =? LIST_POISON2) else mret false.

(** ** Circles *)

(** [chain f g a l b]: following [f] from [a] visits [l] and then [b], and [g]
    leads back. *)
Fixpoint chain (f g : Z -> option Z) (a : Z) (l : list Z) (b : Z) : Prop :=
  match l with
  | [] => f a = Some b /\ g b = Some a
  | x :: l' => (f a = Some x /\ g x = Some a) /\ chain f g x l' b
  end.

(** The objects of [l], all different, are linked in a ring in this order. *)
Definition circle (H : lheap) (l : list Z) : Prop :=
  match l with
  | [] => True
  | a :: l' => NoDup l /\ chain (nx H) (pv H) a l' a
  end.

(** Only objects of [X] may differ; none appears or disappears. *)
Definition changes (X : list Z) (H H' : lheap) : Prop :=
  (forall x, x ∉ X -> H' !! x = H !! x) /\ forall x, is_Some (H' !! x) <-> is_Some (H !! x).

Lemma nx_upn p v H x : nx (upn p v H) x = if decide (x = p) then (fun _ => v) <$> nx H x else nx H x.
Proof.
  unfold nx, upn. case_decide as E.
  - subst. rewrite lookup_alter. destruct (H !! p) eqn:?; by simplify_option_eq.
  - rewrite lookup_alter_ne by congruence. done.
Qed.
Lemma nx_upp p v H x : nx (upp p v H) x = nx H x.
Proof.
  unfold nx, upp. destruct (decide (x = p)) as [->|E].
  - rewrite lookup_alter. destruct (H !! p) eqn:?; by simplify_option_eq.
  - rewrite lookup_alter_ne by congruence. done.
Qed.
Lemma pv_upn p v H x : pv (upn p v H) x = pv H x.
Proof.
  unfold pv, upn. destruct (decide (x = p)) as [->|E].
  - rewrite lookup_alter. destruct (H !! p) eqn:?; by simplify_option_eq.
  - rewrite lookup_alter_ne by congruence. done.
Qed.
Lemma pv_upp p v H x : pv (upp p v H) x = if decide (x = p) then (fun _ => v) <$> pv H x else pv H x.
Proof.
  unfold pv, upp. case_decide as E.
  - subst. rewrite lookup_alter. destruct (H !! p) eqn:?; by simplify_option_eq.
  - rewrite lookup_alter_ne by congruence. done.
Qed.
Lemma is_Some_upn p v H x : is_Some (upn p v H !! x) <-> is_Some (H !! x).
Proof.
  unfold upn. rewrite <- !elem_of_dom, dom_alter_L. done.
Qed.
Lemma is_Some_upp p v H x : is_Some (upp p v H !! x) <-> is_Some (H !! x).
Proof.
  unfold upp. rewrite <- !elem_of_dom, dom_alter_L. done.
Qed.
Lemma nx_Some H x y : nx H x = Some y -> is_Some (H !! x).
Proof. unfold nx. destruct (H !! x); [eauto|discriminate]. Qed.
Lemma pv_Some H x y : pv H x = Some y -> is_Some (H !! x).
Proof. unfold pv. destruct (H !! x); [eauto|discriminate]. Qed.
Lemma is_Some_nx H x : is_Some (H !! x) -> exists y, nx H x = Some y.
Proof. intros [n E]. exists (lh_next n). unfold nx. by rewrite E. Qed.
Lemma is_Some_pv H x : is_Some (H !! x) -> exists y, pv H x = Some y.
Proof. intros [n E]. exists (lh_prev n). unfold pv. by rewrite E. Qed.

Lemma set_next_ok p v H : is_Some (H !! p) -> set_next p v H = Ok (tt, upn p v H).
Proof. unfold set_next. by intros [n ->]. Qed.
Lemma set_prev_ok p v H : is_Some (H !! p) -> set_prev p v H = Ok (tt, upp p v H).
Proof. unfold set_prev. by intros [n ->]. Qed.
Lemma get_next_ok p v H : nx H p = Some v -> get_next p H = Ok (v, H).
Proof. intros E. by apply deref_some. Qed.
Lemma get_prev_ok p v H : pv H p = Some v -> get_prev p H = Ok (v, H).
Proof. intros E. by apply deref_some. Qed.

Lemma changes_refl X H : changes X H H.
Proof. done. Qed.
Lemma changes_trans X H1 H2 H3 : changes X H1 H2 -> changes X H2 H3 -> changes X H1 H3.
Proof.
  intros [A1 B1] [A2 B2]. split; [|intros x; by rewrite B2, B1].
  intros x Hx. by rewrite A2, A1.
Qed.
Lemma changes_mono X Y H H' : X ⊆ Y -> changes X H H' -> changes Y H H'.
Proof. intros Hs [A B]. split; [|done]. intros x Hx. apply A. set_solver. Qed.
Lemma changes_upn (X : list Z) p v H H' : p ∈ X -> changes X H H' -> changes X H (upn p v H').
Proof.
  intros Hp HC. apply (changes_trans _ _ H'); [done|]. split.
  - intros x Hx. unfold upn. apply lookup_alter_ne. set_solver.
  - intros x. apply is_Some_upn.
Qed.
Lemma changes_upp (X : list Z) p v H H' : p ∈ X -> changes X H H' -> changes X H (upp p v H').
Proof.
  intros Hp HC. apply (changes_trans _ _ H'); [done|]. split.
  - intros x Hx. unfold upp. apply lookup_alter_ne. set_solver.
  - intros x. apply is_Some_upp.
Qed.

Lemma changes_Some X H H' x : changes X H H' -> is_Some (H !! x) -> is_Some (H' !! x).
Proof. intros [_ B]. apply B. Qed.

Lemma chain_app f g a l1 x l2 b :
  chain f g a (l1 ++ x :: l2) b <-> chain f g a l1 x /\ chain f g x l2 b.
Proof. revert a; induction l1 as [|y l1 IH]; intros a; simpl; [tauto|]. rewrite IH. tauto. Qed.

Lemma chain_frame f g f' g' a l b :
  chain f g a l b ->
  (forall x, x ∈ a :: l -> f' x = f x) -> (forall x, x ∈ b :: l -> g' x = g x) ->
  chain f' g' a l b.
Proof.
  revert a; induction l as [|y l IH]; intros a; simpl.
  - intros [E1 E2] Hf Hg. rewrite Hf, Hg by set_solver. done.
  - intros [[E1 E2] Hc] Hf Hg. split.
    + rewrite Hf, Hg by set_solver. done.
    + apply IH; [done|set_solver|set_solver].
Qed.

Lemma circle_rotate H l1 l2 : circle H (l1 ++ l2) -> circle H (l2 ++ l1).
Proof.
  destruct l1 as [|a l1]; [by rewrite app_nil_r|].
  destruct l2 as [|b l2]; [by rewrite app_nil_r|]. simpl.
  intros [Hnd Hc]. split.
  - change (NoDup ((b :: l2) ++ a :: l1)). by rewrite Permutation_app_comm.
  - apply chain_app in Hc as [H1 H2]. apply chain_app. done.
Qed.

Lemma circle_NoDup H l : circle H l -> NoDup l.
Proof. destruct l; [constructor|]. by intros [? _]. Qed.

Lemma circle_frame H H' l : circle H l -> (forall x, x ∈ l -> H' !! x = H !! x) -> circle H' l.
Proof.
  destruct l as [|a l]; [done|]. intros [Hnd Hc] Hf. split; [done|].
  apply (chain_frame _ _ _ _ _ _ _ Hc); intros x Hx; unfold nx, pv; by rewrite Hf by set_solver.
Qed.

Lemma circle_changes X H H' l :
  changes X H H' -> circle H l -> (forall x, x ∈ l -> x ∉ X) -> circle H' l.
Proof. intros [A _] Hc Hd. apply (circle_frame H); [done|]. intros x Hx. apply A, Hd, Hx. Qed.

Lemma chain_Some f g a l b : chain f g a l b -> forall x, x ∈ a :: l -> is_Some (f x).
Proof.
  revert a; induction l as [|y l IH]; intros a; simpl.
  - intros [E _] x Hx. assert (x = a) as -> by set_solver. eauto.
  - intros [[E _] Hc] x Hx. apply elem_of_cons in Hx as [->|Hx]; [eauto|].
    by apply (IH y).
Qed.

Lemma circle_Some H l x : circle H l -> x ∈ l -> is_Some (H !! x).
Proof.
  destruct l as [|a l]; [set_solver|]. intros [_ Hc] Hx.
  destruct (chain_Some _ _ _ _ _ Hc x Hx) as [y Hy]. by eapply nx_Some.
Qed.

Lemma circle_next H a l : circle H (a :: l) -> nx H a = Some (hd a l).
Proof. intros [_ Hc]. destruct l; simpl in *; tauto. Qed.

Lemma circle_prev H a l : circle H (a :: l) -> pv H a = Some (List.last l a).
Proof.
  intros [_ Hc]. destruct l as [|z l _] using rev_ind; [simpl in *; tauto|].
  rewrite List.last_last. apply chain_app in Hc as [_ [_ Hc]]. done.
Qed.

Lemma last_in (l : list Z) d : List.last l d ∈ d :: l.
Proof.
  destruct l as [|z l _] using rev_ind; [set_solver|]. rewrite List.last_last. set_solver.
Qed.
Lemma hd_in (l : list Z) d : hd d l ∈ d :: l.
Proof. destruct l; set_solver. Qed.

(** The links inside a run of entries, without the ones at its two ends. *)
Fixpoint path (f g : Z -> option Z) (a : Z) (l : list Z) : Prop :=
  match l with
  | [] => True
  | x :: l' => (f a = Some x /\ g x = Some a) /\ path f g x l'
  end.

(** ** Executing the loads and stores *)

Ltac lsome :=
  repeat (first [rewrite is_Some_upn | rewrite is_Some_upp]);
  first [ eassumption | eapply nx_Some; eassumption | eapply pv_Some; eassumption
        | match goal with Hc : circle ?H _ |- is_Some (?H !! _) =>
            apply (circle_Some _ _ _ Hc); first [set_solver | apply hd_in | apply last_in]
          end ].

Ltac lfields :=
  repeat (first [rewrite nx_upn | rewrite nx_upp | rewrite pv_upn | rewrite pv_upp]).

Ltac lnext :=
  lfields;
  repeat (first [rewrite decide_True by congruence | rewrite decide_False by congruence]);
  first [ eassumption | reflexivity | idtac ].

Ltac lstep :=
  cbv beta;
  lazymatch goal with
  | |- context [(mbind _ (set_next ?p ?v)) ?H] =>
      rewrite (bind_step (set_next p v) _ H tt (upn p v H)) by (apply set_next_ok; lsome)
  | |- context [(mbind _ (set_prev ?p ?v)) ?H] =>
      rewrite (bind_step (set_prev p v) _ H tt (upp p v H)) by (apply set_prev_ok; lsome)
  | |- context [set_next ?p ?v ?H] => rewrite (set_next_ok p v H) by lsome
  | |- context [set_prev ?p ?v ?H] => rewrite (set_prev_ok p v H) by lsome
  end.

Ltac nodup :=
  repeat match goal with
  | H : NoDup (_ :: _) |- _ => apply NoDup_cons in H as [? H]
  | H : NoDup (_ ++ _) |- _ => apply NoDup_app in H as (H & ? & ?)
  end;
  rewrite ?NoDup_cons, ?NoDup_app.

(** Membership goals, with the hypotheses about links out of the way. *)
Ltac lsets :=
  repeat match goal with
  | H : path _ _ _ _ |- _ => clear H
  | H : chain _ _ _ _ _ |- _ => clear H
  | H : circle _ _ |- _ => clear H
  | H : _ = Some _ |- _ => clear H
  | H : List.last _ _ = _ |- _ => clear H
  | H : _ = hd _ _ |- _ => clear H
  | H : is_Some _ |- _ => clear H
  end; set_solver.

(** A chain of the old heap is one of the new heap when the stores miss it. *)
Ltac lframe Hc :=
  apply (chain_frame _ _ _ _ _ _ _ Hc); intros ? ?;
  lfields;
  repeat (rewrite decide_False by (first [congruence | lsets])); reflexivity.

(** The same with the two sets of misses given. *)
Ltac lframe_by Hc A B :=
  apply (chain_frame _ _ _ _ _ _ _ Hc); intros ?u ?Hu;
  match goal with Hu : ?u ∈ _ |- _ ?u = _ ?u => first [pose proof (A u Hu) | pose proof (B u Hu)] end; destruct_and?; lfields;
  rewrite !decide_False by done; reflexivity.

Ltac llook :=
  lfields;
  repeat (first [rewrite decide_True by congruence | rewrite decide_False by (first [congruence | lsets])]);
  simplify_option_eq; try reflexivity; try done.

Ltac lchanges := repeat (first [apply changes_upn; [set_solver|] | apply changes_upp; [set_solver|]]);
  apply changes_refl.

Lemma INIT_LIST_HEAD_ok H a : is_Some (H !! a) ->
  exists H', INIT_LIST_HEAD a H = Ok (tt, H') /\ circle H' [a] /\ changes [a] H H'.
Proof.
  intros Ha. unfold INIT_LIST_HEAD. eexists. do 2 lstep. split_and!; [reflexivity| |lchanges].
  destruct (is_Some_nx _ _ Ha) as [? En]. destruct (is_Some_pv _ _ Ha) as [? Ep].
  split; [repeat constructor; set_solver|]. simpl.
  rewrite nx_upp, nx_upn, pv_upp, pv_upn, En, Ep, !decide_True by done. done.
Qed.

Lemma __list_add_eq new p n : __list_add new p n =
  (set_prev n new;; set_next new n;; set_prev new p;; set_next p new).
Proof. reflexivity. Qed.

Lemma __list_add_ok H new p ys : circle H (p :: ys) -> new ∉ p :: ys -> is_Some (H !! new) ->
  exists H', __list_add new p (hd p ys) H = Ok (tt, H') /\ circle H' (p :: new :: ys) /\
    changes (new :: p :: ys) H H'.
Proof.
  intros Hc Hnew Hs. pose proof (circle_next _ _ _ Hc) as En.
  pose proof (circle_Some _ _ p Hc ltac:(set_solver)) as Hp.
  pose proof (hd_in ys p) as Hin. pose proof (circle_Some _ _ _ Hc Hin) as Hh.
  rewrite __list_add_eq. repeat lstep. eexists. split_and!; [reflexivity| |lchanges].
  destruct (is_Some_nx _ _ Hs) as [? Fn]. destruct (is_Some_pv _ _ Hs) as [? Fp].
  destruct (is_Some_pv _ _ Hh) as [? Fh].
  destruct Hc as [Hnd Hc]. split; [nodup; set_solver|].
  destruct ys as [|n ys]; simpl in *; nodup.
  - split_and!; llook.
  - destruct Hc as [_ Hc]. split_and!; [llook..|]. lframe Hc.
Qed.

Ltac lget :=
  cbv beta;
  lazymatch goal with
  | |- context [(mbind _ (get_next ?p)) ?H] =>
      erewrite (bind_step (get_next p) _ H) by (apply get_next_ok; lnext)
  | |- context [(mbind _ (get_prev ?p)) ?H] =>
      erewrite (bind_step (get_prev p) _ H) by (apply get_prev_ok; lnext)
  end.

Lemma list_add_ok H new h xs : circle H (h :: xs) -> new ∉ h :: xs -> is_Some (H !! new) ->
  exists H', list_add new h H = Ok (tt, H') /\ circle H' (h :: new :: xs) /\
    changes (new :: h :: xs) H H'.
Proof.
  intros Hc Hn Hs. pose proof (circle_next _ _ _ Hc) as En. unfold list_add. lget.
  by apply __list_add_ok.
Qed.

Lemma list_add_tail_ok H new h xs : circle H (h :: xs) -> new ∉ h :: xs -> is_Some (H !! new) ->
  exists H', list_add_tail new h H = Ok (tt, H') /\ circle H' (h :: xs ++ [new]) /\
    changes (new :: h :: xs) H H'.
Proof.
  intros Hc Hn Hs. pose proof (circle_prev _ _ _ Hc) as Ep. unfold list_add_tail. lget.
  destruct xs as [|z xs _] using rev_ind.
  - by apply (__list_add_ok H new h []).
  - rewrite List.last_last. apply (circle_rotate H (h :: xs) [z]) in Hc.
    destruct (__list_add_ok H new z (h :: xs) Hc) as (H' & E & Hc' & Hch); [set_solver|done|].
    exists H'. split_and!; [done| |eapply changes_mono; [|done]; set_solver].
    apply (circle_rotate H' [z; new] (h :: xs)) in Hc'. by rewrite <- app_assoc.
Qed.

Lemma __list_del_entry_eq H e : H !! 0 = None -> forall ys, circle H (e :: ys) ->
  __list_del_entry e H = __list_del (List.last ys e) (hd e ys) H.
Proof.
  intros H0 ys Hc. pose proof (circle_next _ _ _ Hc) as En. pose proof (circle_prev _ _ _ Hc) as Ep.
  assert (forall x, x ∈ e :: ys -> (x =? 0) = false) as Hnz.
  { intros x Hx. apply Z.eqb_neq. intros ->. destruct (circle_Some _ _ _ Hc Hx) as [? ?]. congruence. }
  unfold __list_del_entry, __list_del_entry_valid, LIST_POISON1, LIST_POISON2.
  unfold mbind, M_bind. rewrite (get_next_ok _ _ _ En).
  rewrite (Hnz _ (hd_in ys e)). simpl. rewrite (get_prev_ok _ _ _ Ep). simpl.
  rewrite (Hnz _ (last_in ys e)). simpl. rewrite (get_prev_ok _ _ _ Ep), (get_next_ok _ _ _ En). done.
Qed.

(** Unlinking [e] closes the ring of the others and leaves [e]'s own fields. *)
Lemma __list_del_entry_ok H e ys : H !! 0 = None -> circle H (e :: ys) ->
  exists H', __list_del_entry e H = Ok (tt, H') /\ circle H' ys /\ changes (e :: ys) H H' /\
    (ys <> [] -> H' !! e = H !! e).
Proof.
  intros H0 Hc. rewrite (__list_del_entry_eq H e H0 ys Hc). unfold __list_del.
  pose proof (circle_Some _ _ _ Hc (hd_in ys e)) as Hh.
  pose proof (circle_Some _ _ _ Hc (last_in ys e)) as Hl.
  repeat lstep. eexists. pose proof (hd_in ys e). pose proof (last_in ys e).
  split; [reflexivity|]. split; [|split].
  - destruct ys as [|n ys]; [done|].
    destruct (is_Some_nx _ _ Hl) as [? Fl]. destruct (is_Some_pv _ _ Hh) as [? Fh].
    destruct Hc as [Hnd Hc]. split; [by nodup|].
    destruct ys as [|z ys _] using rev_ind.
    + simpl in *. nodup. split; llook.
    + simpl hd in *. change (n :: ys ++ [z]) with ((n :: ys) ++ [z]) in *.
      rewrite List.last_last in *. simpl in Hc. destruct Hc as [_ Hc].
      apply chain_app in Hc as [Hc1 _]. nodup. apply chain_app. split; [lframe Hc1|split; llook].
  - lchanges.
  - intros Hne. destruct ys as [|n ys]; [done|]. destruct Hc as [Hnd _]. nodup.
    assert (List.last (n :: ys) e ∈ n :: ys) as Hz.
    { destruct ys as [|z ys _] using rev_ind; [set_solver|].
      change (n :: ys ++ [z]) with ((n :: ys) ++ [z]). rewrite List.last_last. set_solver. }
    assert (n <> e) by set_solver. assert (List.last (n :: ys) e <> e) by congruence.
    unfold upn, upp. by rewrite !lookup_alter_ne.
Qed.

Lemma list_del_ok H e ys : H !! 0 = None -> circle H (e :: ys) ->
  exists H', list_del e H = Ok (tt, H') /\ circle H' ys /\ changes (e :: ys) H H' /\
    H' !! e = Some (mk_list_head LIST_POISON1 LIST_POISON2).
Proof.
  intros H0 Hc. destruct (__list_del_entry_ok H e ys H0 Hc) as (H1 & E & Hc1 & Hch & _).
  unfold list_del. rewrite (bind_step _ _ _ _ _ E).
  assert (is_Some (H1 !! e)) as He by (apply (changes_Some _ _ _ _ Hch); lsome). repeat lstep.
  pose proof (circle_NoDup _ _ Hc) as Hnd. nodup.
  eexists. split_and!; [reflexivity| | |].
  - apply (circle_frame H1); [done|]. intros x Hx. unfold upn, upp.
    rewrite !lookup_alter_ne; [done|set_solver|set_solver].
  - apply changes_upp; [set_solver|]. apply changes_upn; [set_solver|]. done.
  - destruct He as [n He]. unfold upn, upp. by rewrite !lookup_alter_eq, He.
Qed.

Lemma list_del_init_ok H e ys : H !! 0 = None -> circle H (e :: ys) ->
  exists H', list_del_init e H = Ok (tt, H') /\ circle H' ys /\ circle H' [e] /\ changes (e :: ys) H H'.
Proof.
  intros H0 Hc. destruct (__list_del_entry_ok H e ys H0 Hc) as (H1 & E & Hc1 & Hch & _).
  unfold list_del_init. rewrite (bind_step _ _ _ _ _ E).
  destruct (INIT_LIST_HEAD_ok H1 e) as (H2 & E2 & Hc2 & Hch2); [apply (changes_Some _ _ _ _ Hch); lsome|].
  pose proof (circle_NoDup _ _ Hc) as Hnd. nodup.
  exists H2. split_and!; [done| |done|].
  - apply (circle_changes _ _ _ _ Hch2 Hc1). set_solver.
  - apply (changes_trans _ _ H1); [done|]. eapply changes_mono; [|done]. set_solver.
Qed.

(** Seen from an entry in the middle. *)
Lemma circle_at H h l1 x l2 : circle H (h :: l1 ++ x :: l2) -> circle H (x :: l2 ++ h :: l1).
Proof. apply (circle_rotate H (h :: l1) (x :: l2)). Qed.

Lemma circle_from H h l1 l2 : circle H (l2 ++ h :: l1) -> circle H (h :: l1 ++ l2).
Proof. apply (circle_rotate H l2 (h :: l1)). Qed.

(** [list_move] and [list_move_tail] inside one list. *)
Lemma list_move_same_ok H h l1 x l2 : H !! 0 = None -> circle H (h :: l1 ++ x :: l2) ->
  exists H', list_move x h H = Ok (tt, H') /\ circle H' (h :: x :: l1 ++ l2) /\
    changes (h :: l1 ++ x :: l2) H H'.
Proof.
  intros H0 Hc. pose proof (circle_NoDup _ _ Hc) as Hnd. apply circle_at in Hc.
  destruct (__list_del_entry_ok H x _ H0 Hc) as (H1 & E & Hc1 & Hch & _).
  unfold list_move. rewrite (bind_step _ _ _ _ _ E). apply circle_from in Hc1.
  destruct (list_add_ok H1 x h (l1 ++ l2) Hc1) as (H2 & E2 & Hc2 & Hch2).
  { nodup. set_solver. }
  { apply (changes_Some _ _ _ _ Hch). lsome. }
  exists H2. split_and!; [done..|].
  apply (changes_trans _ _ H1); eapply changes_mono; [|done| |done]; set_solver.
Qed.

Lemma list_move_tail_same_ok H h l1 x l2 : H !! 0 = None -> circle H (h :: l1 ++ x :: l2) ->
  exists H', list_move_tail x h H = Ok (tt, H') /\ circle H' (h :: (l1 ++ l2) ++ [x]) /\
    changes (h :: l1 ++ x :: l2) H H'.
Proof.
  intros H0 Hc. pose proof (circle_NoDup _ _ Hc) as Hnd. apply circle_at in Hc.
  destruct (__list_del_entry_ok H x _ H0 Hc) as (H1 & E & Hc1 & Hch & _).
  unfold list_move_tail. rewrite (bind_step _ _ _ _ _ E). apply circle_from in Hc1.
  destruct (list_add_tail_ok H1 x h (l1 ++ l2) Hc1) as (H2 & E2 & Hc2 & Hch2).
  { nodup. set_solver. }
  { apply (changes_Some _ _ _ _ Hch). lsome. }
  exists H2. split_and!; [done..|].
  apply (changes_trans _ _ H1); eapply changes_mono; [|done| |done]; set_solver.
Qed.

(** ... and from one list to another. *)
Lemma list_move_ok H x zs h ys : H !! 0 = None -> circle H (x :: zs) -> circle H (h :: ys) ->
  x :: zs ## h :: ys ->
  exists H', list_move x h H = Ok (tt, H') /\ circle H' zs /\ circle H' (h :: x :: ys) /\
    changes (x :: zs ++ h :: ys) H H'.
Proof.
  intros H0 Hx Hh Hd. destruct (__list_del_entry_ok H x zs H0 Hx) as (H1 & E & Hc1 & Hch & _).
  unfold list_move. rewrite (bind_step _ _ _ _ _ E).
  apply (circle_changes _ _ _ _ Hch) in Hh; [|set_solver].
  destruct (list_add_ok H1 x h ys Hh) as (H2 & E2 & Hc2 & Hch2); [set_solver| |].
  { apply (changes_Some _ _ _ _ Hch). lsome. }
  pose proof (circle_NoDup _ _ Hx) as Hnd. nodup.
  exists H2. split_and!; [done| |done|].
  - apply (circle_changes _ _ _ _ Hch2 Hc1). set_solver.
  - apply (changes_trans _ _ H1); eapply changes_mono; [|done| |done]; set_solver.
Qed.

Lemma list_move_tail_ok H x zs h ys : H !! 0 = None -> circle H (x :: zs) -> circle H (h :: ys) ->
  x :: zs ## h :: ys ->
  exists H', list_move_tail x h H = Ok (tt, H') /\ circle H' zs /\ circle H' (h :: ys ++ [x]) /\
    changes (x :: zs ++ h :: ys) H H'.
Proof.
  intros H0 Hx Hh Hd. destruct (__list_del_entry_ok H x zs H0 Hx) as (H1 & E & Hc1 & Hch & _).
  unfold list_move_tail. rewrite (bind_step _ _ _ _ _ E).
  apply (circle_changes _ _ _ _ Hch) in Hh; [|set_solver].
  destruct (list_add_tail_ok H1 x h ys Hh) as (H2 & E2 & Hc2 & Hch2); [set_solver| |].
  { apply (changes_Some _ _ _ _ Hch). lsome. }
  pose proof (circle_NoDup _ _ Hx) as Hnd. nodup.
  exists H2. split_and!; [done| |done|].
  - apply (circle_changes _ _ _ _ Hch2 Hc1). set_solver.
  - apply (changes_trans _ _ H1); eapply changes_mono; [|done| |done]; set_solver.
Qed.

Lemma list_empty_ok H h xs : circle H (h :: xs) -> list_empty h H = Ok (bool_decide (xs = []), H).
Proof.
  intros Hc. pose proof (circle_next _ _ _ Hc) as En. unfold list_empty. lget.
  destruct Hc as [Hnd _]. destruct xs as [|x xs]; simpl.
  - by rewrite Z.eqb_refl.
  - nodup. rewrite (proj2 (Z.eqb_neq x h)) by set_solver. done.
Qed.

Lemma list_is_singular_ok H h xs : circle H (h :: xs) ->
  list_is_singular h H = Ok (bool_decide (length xs = 1%nat), H).
Proof.
  intros Hc. unfold list_is_singular. rewrite (bind_step _ _ _ _ _ (list_empty_ok _ _ _ Hc)).
  pose proof (circle_next _ _ _ Hc) as En. pose proof (circle_prev _ _ _ Hc) as Ep.
  destruct xs as [|x xs]; [done|]. rewrite bool_decide_false by done. cbn [negb].
  lget. lget. destruct Hc as [Hnd _]. nodup. destruct xs as [|z xs _] using rev_ind; simpl hd.
  - simpl. by rewrite Z.eqb_refl.
  - change (x :: xs ++ [z]) with ((x :: xs) ++ [z]). rewrite List.last_last.
    rewrite (proj2 (Z.eqb_neq x z)) by set_solver. unfold mret, M_ret. do 2 f_equal.
    symmetry. apply bool_decide_false. rewrite length_app. simpl. lia.
Qed.

Lemma list_rotate_left_ok H h xs : H !! 0 = None -> circle H (h :: xs) ->
  exists H', list_rotate_left h H = Ok (tt, H') /\ changes (h :: xs) H H' /\
    circle H' (h :: match xs with [] => [] | x :: xs' => xs' ++ [x] end).
Proof.
  intros H0 Hc. unfold list_rotate_left. rewrite (bind_step _ _ _ _ _ (list_empty_ok _ _ _ Hc)).
  destruct xs as [|x xs]; [by exists H|]. rewrite bool_decide_false by done. cbn [negb].
  pose proof (circle_next _ _ _ Hc) as En. lget.
  destruct (list_move_tail_same_ok H h [] x xs H0 Hc) as (H' & E & Hc' & Hch). by exists H'.
Qed.

Lemma list_rotate_to_front_ok H h l1 x l2 : H !! 0 = None -> circle H (h :: l1 ++ x :: l2) ->
  exists H', list_rotate_to_front x h H = Ok (tt, H') /\ circle H' (h :: (x :: l2) ++ l1) /\
    changes (h :: l1 ++ x :: l2) H H'.
Proof.
  intros H0 Hc. apply circle_at in Hc.
  destruct (list_move_tail_same_ok H x l2 h l1 H0 Hc) as (H' & E & Hc' & Hch).
  exists H'. split_and!; [done| |eapply changes_mono; [|done]; set_solver].
  apply (circle_from H' h [] (x :: l2 ++ l1)) in Hc'. done.
Qed.

Lemma last_shift (x : Z) l d : List.last (x :: l) d = List.last l x.
Proof.
  destruct l as [|z l _] using rev_ind; [done|]. rewrite List.last_last.
  change (x :: l ++ [z]) with ((x :: l) ++ [z]). apply List.last_last.
Qed.

Lemma chain_path f g a l b :
  chain f g a l b <-> path f g a l /\ f (List.last l a) = Some b /\ g b = Some (List.last l a).
Proof.
  revert a; induction l as [|x l IH]; intros a; [simpl; tauto|].
  cbn [chain path]. rewrite IH, last_shift. tauto.
Qed.

Lemma path_frame f g f' g' a l : path f g a l -> NoDup (a :: l) ->
  (forall x, x ∈ a :: l -> x <> List.last l a -> f' x = f x) -> (forall x, x ∈ l -> g' x = g x) ->
  path f' g' a l.
Proof.
  revert a; induction l as [|y l IH]; intros a; [done|].
  cbn [path]. intros [[E1 E2] Hc] Hnd Hf Hg. nodup.
  rewrite last_shift in Hf. pose proof (last_in l y) as Hin. split.
  - rewrite Hf, Hg; [done|set_solver|set_solver|]. intros Heq. rewrite <- Heq in Hin. set_solver.
  - apply IH; [done| | |].
    + by constructor.
    + intros x Hx Hne. apply Hf; [set_solver|done].
    + set_solver.
Qed.

Lemma last_cons_in (x : Z) l d : List.last (x :: l) d ∈ x :: l.
Proof. rewrite last_shift. apply last_in. Qed.

(** Splicing the entries [xs] of [a]'s list behind [p]. *)
Lemma __list_splice_ok H a x xs p ys :
  circle H (a :: x :: xs) -> circle H (p :: ys) -> a :: x :: xs ## p :: ys ->
  exists H', __list_splice a p (hd p ys) H = Ok (tt, H') /\ circle H' (p :: (x :: xs) ++ ys) /\
    changes (x :: xs ++ p :: ys) H H'.
Proof.
  intros Ha Hp Hd. pose proof (circle_next _ _ _ Ha) as En. pose proof (circle_prev _ _ _ Ha) as Ep.
  pose proof (last_cons_in x xs a) as Hlast. pose proof (hd_in ys p) as Hhd.
  simpl in En. assert (List.last xs x = List.last (x :: xs) a) as El by (by rewrite last_shift).
  remember (List.last (x :: xs) a) as l eqn:El0. clear El0. remember (hd p ys) as n eqn:Hn.
  unfold __list_splice. lget. lget.
  pose proof (circle_Some _ _ l Ha ltac:(set_solver)) as Sl.
  pose proof (circle_Some _ _ x Ha ltac:(set_solver)) as Sx.
  pose proof (circle_Some _ _ p Hp ltac:(set_solver)) as Sp.
  pose proof (circle_Some _ _ n Hp Hhd) as Sn.
  repeat lstep. eexists. split_and!; [reflexivity| |lchanges].
  destruct (is_Some_pv _ _ Sx) as [? Px]. destruct (is_Some_nx _ _ Sp) as [? Np].
  destruct (is_Some_nx _ _ Sl) as [? Nl]. destruct (is_Some_pv _ _ Sn) as [? Pn].
  destruct Ha as [Hnda Hca], Hp as [Hndp Hcp]. simpl in Hca. destruct Hca as [_ Hca].
  apply chain_path in Hca as [Hpath _].
  split.
  { nodup. split_and!; [lsets|by constructor|lsets|done]. }
  assert (forall f g, path f g x xs -> f p = Some x -> g x = Some p -> f l = Some n -> g n = Some l ->
    (forall y ys', ys = y :: ys' -> chain f g y ys' p) -> chain f g p ((x :: xs) ++ ys) p) as Hgoal.
  { intros f g Hpa E1 E2 E3 E4 E5. destruct ys as [|y ys].
    - simpl in Hn. subst n. rewrite app_nil_r. split; [done|]. apply chain_path. by rewrite El.
    - simpl in Hn. subst n. apply chain_app. split; [|by apply E5]. split; [done|]. apply chain_path. by rewrite El. }
  nodup. assert (l <> p) by lsets. assert (x <> n) by lsets.
  apply Hgoal; clear Hgoal.
  - apply (path_frame _ _ _ _ _ _ Hpath); [by constructor| |].
    + rewrite El. intros z Hz Hne. lfields. rewrite !decide_False; [done|lsets|lsets].
    + intros z Hz. lfields. rewrite !decide_False; [done|lsets|lsets].
  - lfields. rewrite decide_False, decide_True, Np by done. done.
  - lfields. rewrite decide_False, decide_True, Px by done. done.
  - lfields. rewrite decide_True, decide_False, Nl by done. done.
  - lfields. rewrite decide_True, decide_False, Pn by done. done.
  - intros y ys' ->. simpl in Hcp. destruct Hcp as [_ Hcp]. nodup. simpl in Hn. subst n.
    assert (forall z, z ∈ p :: y :: ys' -> z <> l /\ z <> x) as Hz.
    { rewrite elem_of_disjoint in Hd. intros z Hz. split; intros E; rewrite E in Hz.
      - apply (Hd l); [by constructor|done].
      - apply (Hd x); [do 2 constructor|done]. }
    assert (forall z, z ∈ p :: ys' -> z <> y) by (clear -H0 H5; set_solver).
    apply (chain_frame _ _ _ _ _ _ _ Hcp); intros z Hzin; lfields.
    + rewrite !decide_False; [done|congruence|]. apply Hz. by constructor.
    + rewrite !decide_False; [done| |auto]. apply Hz. clear -Hzin. set_solver.
Qed.

Lemma list_splice_ok H a xs h ys : circle H (a :: xs) -> circle H (h :: ys) -> a :: xs ## h :: ys ->
  exists H', list_splice a h H = Ok (tt, H') /\ circle H' (h :: xs ++ ys) /\ changes (xs ++ h :: ys) H H'.
Proof.
  intros Ha Hh Hd. unfold list_splice. rewrite (bind_step _ _ _ _ _ (list_empty_ok _ _ _ Ha)).
  destruct xs as [|x xs]; [by exists H|]. rewrite bool_decide_false by done. cbn [negb].
  pose proof (circle_next _ _ _ Hh) as En. lget. by apply __list_splice_ok.
Qed.

Lemma list_splice_tail_ok H a xs h ys : circle H (a :: xs) -> circle H (h :: ys) -> a :: xs ## h :: ys ->
  exists H', list_splice_tail a h H = Ok (tt, H') /\ circle H' (h :: ys ++ xs) /\
    changes (xs ++ h :: ys) H H'.
Proof.
  intros Ha Hh Hd. unfold list_splice_tail. rewrite (bind_step _ _ _ _ _ (list_empty_ok _ _ _ Ha)).
  destruct xs as [|x xs]; [rewrite app_nil_r; by exists H|]. rewrite bool_decide_false by done. cbn [negb].
  pose proof (circle_prev _ _ _ Hh) as Ep. lget.
  destruct ys as [|z ys _] using rev_ind.
  - destruct (__list_splice_ok H a x xs h [] Ha Hh Hd) as (H' & E & Hc & Hch).
    rewrite app_nil_r in Hc. by exists H'.
  - rewrite List.last_last. apply (circle_rotate H (h :: ys) [z]) in Hh.
    destruct (__list_splice_ok H a x xs z (h :: ys) Ha Hh) as (H' & E & Hc & Hch); [set_solver|].
    exists H'. split_and!; [done| |eapply changes_mono; [|done]; set_solver].
    apply (circle_rotate H' (z :: x :: xs) (h :: ys)) in Hc. by rewrite <- app_assoc.
Qed.

(** The [_init] forms also leave an empty list behind. *)
Lemma splice_init_ok H H1 a xs (L : list Z) : is_Some (H !! a) -> a ∉ L -> circle H1 L ->
  changes xs H H1 -> exists H', INIT_LIST_HEAD a H1 = Ok (tt, H') /\ circle H' L /\ circle H' [a] /\
    changes (a :: xs) H H'.
Proof.
  intros Sa Ha HL Hch.
  destruct (INIT_LIST_HEAD_ok H1 a) as (H2 & E & Hc & Hch2); [by apply (changes_Some _ _ _ _ Hch)|].
  exists H2. split_and!; [done| |done|].
  - apply (circle_changes _ _ _ _ Hch2 HL). set_solver.
  - apply (changes_trans _ _ H1); eapply changes_mono; [|done| |done]; set_solver.
Qed.

Lemma list_splice_init_ok H a xs h ys : circle H (a :: xs) -> circle H (h :: ys) -> a :: xs ## h :: ys ->
  exists H', list_splice_init a h H = Ok (tt, H') /\ circle H' (h :: xs ++ ys) /\ circle H' [a] /\
    changes (a :: xs ++ h :: ys) H H'.
Proof.
  intros Ha Hh Hd. destruct (list_splice_ok H a xs h ys Ha Hh Hd) as (H1 & E & Hc & Hch).
  revert E. unfold list_splice, list_splice_init.
  rewrite !(bind_step _ _ _ _ _ (list_empty_ok _ _ _ Ha)).
  destruct xs as [|x xs]; [by exists H|]. rewrite bool_decide_false by done. cbn [negb].
  pose proof (circle_next _ _ _ Hh) as En. lget. intros E. lget. rewrite (bind_step _ _ _ _ _ E).
  apply splice_init_ok; [lsome| |done|done].
  pose proof (circle_NoDup _ _ Ha). nodup. set_solver.
Qed.

Lemma list_splice_tail_init_ok H a xs h ys :
  circle H (a :: xs) -> circle H (h :: ys) -> a :: xs ## h :: ys ->
  exists H', list_splice_tail_init a h H = Ok (tt, H') /\ circle H' (h :: ys ++ xs) /\ circle H' [a] /\
    changes (a :: xs ++ h :: ys) H H'.
Proof.
  intros Ha Hh Hd. destruct (list_splice_tail_ok H a xs h ys Ha Hh Hd) as (H1 & E & Hc & Hch).
  revert E. unfold list_splice_tail, list_splice_tail_init.
  rewrite !(bind_step _ _ _ _ _ (list_empty_ok _ _ _ Ha)).
  destruct xs as [|x xs]; [rewrite app_nil_r; by exists H|]. rewrite bool_decide_false by done. cbn [negb].
  pose proof (circle_prev _ _ _ Hh) as Ep. lget. intros E. lget. rewrite (bind_step _ _ _ _ _ E).
  apply splice_init_ok; [lsome| |done|done].
  pose proof (circle_NoDup _ _ Ha). nodup. set_solver.
Qed.

Lemma list_replace_ok H old new ys : circle H (old :: ys) -> new ∉ old :: ys -> is_Some (H !! new) ->
  exists H', list_replace old new H = Ok (tt, H') /\ circle H' (new :: ys) /\
    changes (old :: new :: ys) H H'.
Proof.
  intros Hc Hnew Hs. pose proof (circle_next _ _ _ Hc) as En. pose proof (circle_prev _ _ _ Hc) as Ep.
  destruct (is_Some_nx _ _ Hs) as [? Fn]. destruct (is_Some_pv _ _ Hs) as [? Fp].
  pose proof (circle_Some _ _ old Hc ltac:(set_solver)) as So.
  assert (new <> old) by set_solver. destruct ys as [|n ys].
  - unfold list_replace. simpl in En, Ep. lget. lstep.
    rewrite (bind_step (get_next new) _ _ old (upn new old H)) by (apply get_next_ok; llook).
    lstep. rewrite (bind_step (get_prev old) _ _ new (upp old new (upn new old H)))
      by (apply get_prev_ok; llook).
    lstep. erewrite (bind_step (get_prev new)) by (apply get_prev_ok; llook). lstep.
    eexists. split_and!; [reflexivity| |lchanges].
    split; [repeat constructor; set_solver|]. split; llook.
  - simpl in En. set (z := List.last (n :: ys) old) in *.
    assert (z ∈ n :: ys) as Hz by apply last_cons_in.
    pose proof (circle_Some _ _ n Hc ltac:(set_solver)) as Sn.
    pose proof (circle_Some _ _ z Hc ltac:(clear -Hz; set_solver)) as Sz.
    assert (List.last ys n = z) as El by (symmetry; apply last_shift). clearbody z.
    destruct (is_Some_pv _ _ Sn) as [? Pn]. destruct (is_Some_nx _ _ Sz) as [? Nz].
    destruct Hc as [Hnd [_ Hc]]. apply chain_path in Hc as [Hpath _]. nodup.
    assert (n <> old) by (clear -H1; set_solver). assert (z <> new) by (clear -Hz Hnew; set_solver).
    assert (n <> new) by (clear -Hnew; set_solver).
    unfold list_replace. lget. lstep.
    rewrite (bind_step (get_next new) _ _ n (upn new n H)) by (apply get_next_ok; llook).
    lstep. rewrite (bind_step (get_prev old) _ _ z (upp n new (upn new n H)))
      by (apply get_prev_ok; llook).
    lstep. rewrite (bind_step (get_prev new) _ _ z (upp new z (upp n new (upn new n H))))
      by (apply get_prev_ok; llook).
    lstep. eexists. split_and!; [reflexivity| |lchanges].
    split; [nodup; lsets|]. split; [split; llook|]. apply chain_path. rewrite El. split.
    + apply (path_frame _ _ _ _ _ _ Hpath); [by constructor| |]; rewrite ?El; intros; lfields;
        rewrite !decide_False; try done; lsets.
    + split; llook.
Qed.

Lemma list_replace_init_ok H old new ys :
  circle H (old :: ys) -> new ∉ old :: ys -> is_Some (H !! new) ->
  exists H', list_replace_init old new H = Ok (tt, H') /\ circle H' (new :: ys) /\ circle H' [old] /\
    changes (old :: new :: ys) H H'.
Proof.
  intros Hc Hnew Hs. destruct (list_replace_ok H old new ys Hc Hnew Hs) as (H1 & E & Hc1 & Hch).
  unfold list_replace_init. rewrite (bind_step _ _ _ _ _ E).
  destruct (splice_init_ok H H1 old (old :: new :: ys) (new :: ys)) as (H2 & E2 & Hc2 & Ho & Hch2);
    [lsome| |done|done|].
  { pose proof (circle_NoDup _ _ Hc). nodup. set_solver. }
  exists H2. split_and!; [done..|]. eapply changes_mono; [|done]. set_solver.
Qed.

(** Two entries of one list change places. *)
Lemma list_swap_ok H a l2 b l3 : H !! 0 = None -> circle H (a :: l2 ++ b :: l3) ->
  exists H', list_swap a b H = Ok (tt, H') /\ circle H' (b :: l2 ++ a :: l3) /\
    changes (a :: l2 ++ b :: l3) H H'.
Proof.
  intros H0 Hc. pose proof (circle_NoDup _ _ Hc) as Hnd. apply circle_at in Hc.
  pose proof (circle_prev _ _ _ Hc) as Ep. unfold list_swap. lget.
  destruct (list_del_ok H b _ H0 Hc) as (H1 & E1 & Hc1 & Hch1 & _).
  rewrite (bind_step _ _ _ _ _ E1). apply circle_from in Hc1.
  destruct (list_replace_ok H1 a b (l2 ++ l3) Hc1) as (H2 & E2 & Hc2 & Hch2).
  { nodup. set_solver. }
  { apply (changes_Some _ _ _ _ Hch1). lsome. }
  rewrite (bind_step _ _ _ _ _ E2).
  assert (is_Some (H2 !! a)) as Sa.
  { apply (changes_Some _ _ _ _ Hch2), (changes_Some _ _ _ _ Hch1). lsome. }
  assert (changes (a :: l2 ++ b :: l3) H H2) as Hch.
  { apply (changes_trans _ _ H1); eapply changes_mono; [|done| |done]; set_solver. }
  destruct l2 as [|z l2 _] using rev_ind.
  - rewrite List.last_last, Z.eqb_refl.
    destruct (list_add_ok H2 a b l3 Hc2) as (H3 & E3 & Hc3 & Hch3); [nodup; set_solver|done|].
    exists H3. split_and!; [done..|]. apply (changes_trans _ _ H2); [done|].
    eapply changes_mono; [|done]. set_solver.
  - replace (l3 ++ a :: l2 ++ [z]) with ((l3 ++ a :: l2) ++ [z]) by (by rewrite <- app_assoc).
    rewrite List.last_last. rewrite (proj2 (Z.eqb_neq z a)) by (nodup; set_solver).
    rewrite <- app_assoc in Hc2. apply circle_at in Hc2.
    destruct (list_add_ok H2 a z (l3 ++ b :: l2) Hc2) as (H3 & E3 & Hc3 & Hch3);
      [nodup; set_solver|done|].
    exists H3. split_and!; [done| |apply (changes_trans _ _ H2); [done|];
      eapply changes_mono; [|done]; set_solver].
    apply (circle_rotate H3 (z :: a :: l3) (b :: l2)) in Hc3. by rewrite <- app_assoc.
Qed.

Lemma list_cut_position_ok H list h l0 e l2 : circle H (h :: l0 ++ e :: l2) ->
  list ∉ h :: l0 ++ e :: l2 -> is_Some (H !! list) ->
  exists H', list_cut_position list h e H = Ok (tt, H') /\ circle H' (list :: l0 ++ [e]) /\
    circle H' (h :: l2) /\ changes (list :: h :: l0 ++ e :: l2) H H'.
Proof.
  intros Hc Hl Hs. unfold list_cut_position. rewrite (bind_step _ _ _ _ _ (list_empty_ok _ _ _ Hc)).
  rewrite bool_decide_false by (by destruct l0). cbv beta iota.
  rewrite (bind_step _ _ _ _ _ (list_is_singular_ok _ _ _ Hc)).
  pose proof (circle_next _ _ _ Hc) as Eh. lget.
  replace (bool_decide _ && _) with false.
  2:{ destruct l0 as [|y l0]; simpl; [by rewrite Z.eqb_refl, andb_false_r|].
      rewrite bool_decide_false; [done|]. rewrite length_app. simpl. lia. }
  pose proof (circle_next _ _ _ (circle_at _ _ _ _ _ Hc)) as Ee.
  pose proof (circle_Some _ _ h Hc ltac:(set_solver)) as Sh.
  pose proof (circle_Some _ _ e Hc ltac:(set_solver)) as Se.
  pose proof (circle_NoDup _ _ Hc) as Hnd.
  rewrite (proj2 (Z.eqb_neq e h)) by (nodup; set_solver). cbv beta iota.
  assert (hd h (l0 ++ e :: l2) ∈ l0 ++ [e]) as Hn by (destruct l0; simpl; set_solver).
  assert (hd e (l2 ++ h :: l0) ∈ h :: l2) as Hf by (destruct l2; simpl; set_solver).
  remember (hd h (l0 ++ e :: l2)) as n eqn:En. remember (hd e (l2 ++ h :: l0)) as f eqn:Ef.
  pose proof (circle_Some _ _ n Hc ltac:(clear -Hn; set_solver)) as Sn.
  pose proof (circle_Some _ _ f Hc ltac:(clear -Hf; set_solver)) as Sf.
  assert (n <> list) by (clear -Hn Hl; set_solver). assert (list <> e) by (clear -Hl; set_solver).
  assert (list <> h) by (clear -Hl; set_solver). assert (f <> list) by (clear -Hf Hl; set_solver).
  assert ((h ∉ l0) /\ (h <> e) /\ (h ∉ l2) /\ (e ∉ l0) /\ (e ∉ l2) /\ l0 ## l2)
    as (D1 & D2 & D3 & D4 & D5 & D6) by (clear -Hnd; nodup; set_solver).
  assert (f <> n) by (clear -D1 D2 D3 D5 D6 Hf Hn; set_solver).
  destruct (is_Some_nx _ _ Hs) as [? Ln]. destruct (is_Some_pv _ _ Hs) as [? Lp].
  destruct (is_Some_pv _ _ Sn) as [? Np]. destruct (is_Some_pv _ _ Sf) as [? Fp].
  unfold __list_cut_position. lget. lget. lstep.
  rewrite (bind_step (get_next list) _ _ n (upn list n H)) by (apply get_next_ok; llook).
  repeat lstep. eexists. split; [reflexivity|].
  destruct Hc as [_ Hc]. apply chain_app in Hc as [C1 C2]. nodup. split; [|split].
  - split.
    { nodup. split_and!; [clear -Hl; set_solver|done|clear -D4; set_solver|apply NoDup_singleton]. }
    apply chain_app. split; [|split; llook].
    destruct l0 as [|y l0]; simpl in En, C1; subst n; [split; llook|].
    destruct C1 as [_ C1]. split; [split; llook|].
    assert (forall z, z ∈ y :: l0 -> z <> h /\ z <> e /\ z <> list) as A
      by (clear -D1 D4 Hl; set_solver).
    assert (forall z, z ∈ e :: l0 -> z <> f /\ z <> list /\ z <> y) as B
      by (clear -D1 D2 D4 D5 D6 Hl Hf Hnd; nodup; set_solver).
    lframe_by C1 A B.
  - split; [by constructor|]. destruct l2 as [|y l2]; simpl in Ef, C2; subst f; [split; llook|].
    destruct C2 as [_ C2]. split; [split; llook|].
    assert (forall z, z ∈ y :: l2 -> z <> h /\ z <> e /\ z <> list) as A
      by (clear -D3 D5 Hl; set_solver).
    assert (forall z, z ∈ h :: l2 -> z <> y /\ z <> list /\ z <> n) as B
      by (clear -D1 D2 D3 D5 D6 Hl Hn H7; nodup; set_solver).
    lframe_by C2 A B.
  - lchanges.
Qed.

Lemma list_cut_before_ok H list h l1 l2 : circle H (h :: l1 ++ l2) ->
  list ∉ h :: l1 ++ l2 -> is_Some (H !! list) ->
  exists H', list_cut_before list h (hd h l2) H = Ok (tt, H') /\ circle H' (list :: l1) /\
    circle H' (h :: l2) /\ changes (list :: h :: l1 ++ l2) H H'.
Proof.
  intros Hc Hl Hs. pose proof (circle_NoDup _ _ Hc) as Hnd.
  pose proof (circle_next _ _ _ Hc) as Eh. unfold list_cut_before. lget.
  assert (hd h l2 ∈ h :: l2) as He by apply hd_in.
  pose proof (circle_Some _ _ h Hc ltac:(set_solver)) as Sh.
  pose proof (circle_Some _ _ (hd h l2) Hc ltac:(clear -He; set_solver)) as Se.
  remember (hd h l2) as e eqn:Ee.
  assert ((h ∉ l1) /\ (h ∉ l2) /\ l1 ## l2) as (D1 & D2 & D3) by (clear -Hnd; nodup; set_solver).
  destruct l1 as [|n l1].
  { simpl. rewrite <- Ee, Z.eqb_refl.
    destruct (INIT_LIST_HEAD_ok H list Hs) as (H' & E & Hc' & Hch). exists H'. split; [exact E|split; [exact Hc'|split]].
    - apply (circle_changes _ _ _ _ Hch Hc). set_solver.
    - eapply changes_mono; [|done]. set_solver. }
  change (hd h ((n :: l1) ++ l2)) with n in *. rewrite (proj2 (Z.eqb_neq n e)) by (clear -D1 D3 He; set_solver).
  pose proof (last_in l1 n) as Hz. set (z := List.last l1 n) in *.
  assert (pv H e = Some z) as Pe.
  { destruct Hc as [_ Hc]. simpl in Hc. destruct Hc as [_ Hc]. destruct l2 as [|y l2]; simpl in Ee; subst e.
    - rewrite app_nil_r in Hc. by apply chain_path in Hc as [_ [_ Hc]].
    - apply chain_app in Hc as [Hc _]. by apply chain_path in Hc as [_ [_ Hc]]. }
  pose proof (circle_Some _ _ n Hc ltac:(clear; set_solver)) as Sn.
  pose proof (circle_Some _ _ z Hc ltac:(clear -Hz; set_solver)) as Sz.
  assert (n <> list /\ z <> list /\ e <> list /\ h <> list /\ n <> e /\ z <> h)
    as (? & ? & ? & ? & ? & ?).
  { clearbody z. clear -Hl Hz He D1 D3. set_solver. }
  destruct (is_Some_nx _ _ Hs) as [? Ln]. destruct (is_Some_pv _ _ Hs) as [? Lp].
  destruct (is_Some_pv _ _ Sn) as [? Np]. destruct (is_Some_nx _ _ Sz) as [? Nz].
  assert (List.last l1 n = z) as El by done. clearbody z.
  lget. lstep. rewrite (bind_step (get_next list) _ _ n (upn list n H)) by (apply get_next_ok; llook).
  lstep. lget. lstep. erewrite (bind_step (get_prev list) _ _ z) by (apply get_prev_ok; llook).
  repeat lstep. eexists. split; [reflexivity|].
  destruct Hc as [_ Hc]. simpl in Hc. destruct Hc as [_ Hc].
  assert (path (nx H) (pv H) n l1 /\ chain (nx H) (pv H) z l2 h) as [P1 C2].
  { destruct l2 as [|y l2]; [rewrite app_nil_r in Hc|].
    - apply chain_path in Hc as [? [? ?]]. rewrite El in *. done.
    - apply chain_app in Hc as [Hc Hc2]. apply chain_path in Hc as [? [? ?]]. rewrite El in *. done. }
  split; [|split].
  - split.
    { clear -Hnd Hl. nodup. split_and!; [set_solver|done|done]. }
    split; [split; llook|]. apply chain_path. rewrite El. split; [|split; llook].
    assert (NoDup (n :: l1)) as Hnd1 by (clear -Hnd; nodup; done).
    assert (forall x, x ∈ n :: l1 -> x <> h /\ x <> list) as A by (clear -D1 Hl; set_solver).
    assert (forall x, x ∈ l1 -> x <> e /\ x <> list /\ x <> n) as B
      by (clear -Hnd1 D1 D3 He Hl; nodup; set_solver).
    apply (path_frame _ _ _ _ _ _ P1 Hnd1).
    + rewrite El. intros u Hu ?. destruct (A u Hu). lfields. by rewrite !decide_False.
    + intros u Hu. destruct (B u Hu) as (? & ? & ?). lfields. by rewrite !decide_False.
  - split; [clear -Hnd; nodup; set_solver|].
    destruct l2 as [|y l2]; simpl in Ee, C2; subst e; [split; llook|].
    destruct C2 as [_ C2]. split; [split; llook|].
    assert (forall x, x ∈ y :: l2 -> x <> h /\ x <> z /\ x <> list) as A
      by (clear -D2 D3 Hl Hz; set_solver).
    assert (forall x, x ∈ h :: l2 -> x <> y /\ x <> list /\ x <> n) as B
      by (clear -Hnd D1 D2 D3 Hl; nodup; set_solver).
    lframe_by C2 A B.
  - clear -Hz He. lchanges.
Qed.

(** *** Iteration *)

Lemma for_each_next {A} (body : Z -> A -> A) H h l1 l2 acc fuel :
  circle H (h :: l1 ++ l2) -> (length l2 < fuel)%nat ->
  for_each get_next (hd h l2) h body acc fuel H = Ok (fold_left (fun a x => body x a) l2 acc, H).
Proof.
  revert l1 acc fuel. induction l2 as [|x l2 IH]; intros l1 acc fuel Hc Hf.
  - destruct fuel; [lia|]. simpl. by rewrite Z.eqb_refl.
  - destruct fuel as [|fuel]; [lia|]. simpl hd. cbn [for_each].
    pose proof (circle_NoDup _ _ Hc) as Hnd.
    rewrite (proj2 (Z.eqb_neq x h)) by (nodup; set_solver).
    pose proof (circle_next _ _ _ (circle_at _ _ _ _ _ Hc)) as Ex. lget.
    replace (hd x (l2 ++ h :: l1)) with (hd h l2) by (by destruct l2). simpl fold_left.
    apply (IH (l1 ++ [x])); [by rewrite <- app_assoc|simpl in Hf; lia].
Qed.

Lemma for_each_prev {A} (body : Z -> A -> A) H h l1 l2 acc fuel :
  circle H (h :: l1 ++ l2) -> (length l1 < fuel)%nat ->
  for_each get_prev (List.last l1 h) h body acc fuel H = Ok (fold_left (fun a x => body x a) (rev l1) acc, H).
Proof.
  revert l2 acc fuel.
  induction l1 as [|x l1 IH] using rev_ind; intros l2 acc fuel Hc Hf.
  - destruct fuel; [simpl in Hf; lia|]. simpl. by rewrite Z.eqb_refl.
  - destruct fuel as [|fuel]; [lia|]. rewrite List.last_last. cbn [for_each].
    pose proof (circle_NoDup _ _ Hc) as Hnd.
    rewrite (proj2 (Z.eqb_neq x h)) by (nodup; set_solver). rewrite <- app_assoc in Hc.
    pose proof (circle_prev _ _ _ (circle_at _ _ _ _ _ Hc)) as Ex. lget.
    replace (List.last (l2 ++ h :: l1) x) with (List.last l1 h).
    2:{ clear. destruct l1 as [|z l1 _] using rev_ind; [by rewrite List.last_last|].
        rewrite List.last_last. replace (l2 ++ h :: l1 ++ [z]) with ((l2 ++ h :: l1) ++ [z])
          by (by rewrite <- app_assoc). by rewrite List.last_last. }
    rewrite rev_app_distr. simpl fold_left.
    apply (IH (x :: l2)); [done|rewrite length_app in Hf; simpl in Hf; lia].
Qed.

Lemma list_for_each_ok {A} (body : Z -> A -> A) H h xs acc fuel :
  circle H (h :: xs) -> (length xs < fuel)%nat ->
  list_for_each fuel h body acc H = Ok (fold_left (fun a x => body x a) xs acc, H).
Proof.
  intros Hc Hf. pose proof (circle_next _ _ _ Hc) as En. unfold list_for_each. lget.
  by apply (for_each_next body H h []).
Qed.

Lemma list_for_each_prev_ok {A} (body : Z -> A -> A) H h xs acc fuel :
  circle H (h :: xs) -> (length xs < fuel)%nat ->
  list_for_each_prev fuel h body acc H = Ok (fold_left (fun a x => body x a) (rev xs) acc, H).
Proof.
  intros Hc Hf. pose proof (circle_prev _ _ _ Hc) as En. unfold list_for_each_prev. lget.
  apply (for_each_prev body H h xs []); [by rewrite app_nil_r|done].
Qed.

Lemma list_count_ok H h xs fuel : circle H (h :: xs) -> (length xs < fuel)%nat ->
  list_count fuel h H = Ok (Z.of_nat (length xs), H).
Proof.
  intros Hc Hf. unfold list_count. rewrite (list_for_each_ok _ H h xs) by done. do 2 f_equal.
  cut (forall a, fold_left (fun a (_ : Z) => a + 1) xs a = a + Z.of_nat (length xs)).
  { intros E. by rewrite E. }
  clear. induction xs as [|x xs IH]; intros a; simpl; [lia|]. rewrite IH. lia.
Qed.

(** ** Refinement: a store of lists *)

(** The operations of [list.h] as a client calls them. *)
Inductive lop :=
| Init (x : Z) | Add (new h : Z) | AddTail (new h : Z) | Del (x : Z) | DelInit (x : Z)
| Move (x h : Z) | MoveTail (x h : Z) | Replace (old new : Z) | ReplaceInit (old new : Z)
| Swap (x y : Z) | Splice (a h : Z) | SpliceTail (a h : Z) | SpliceInit (a h : Z)
| SpliceTailInit (a h : Z) | RotateLeft (h : Z) | RotateToFront (x h : Z)
| CutPosition (list h e : Z) | CutBefore (list h e : Z).

Definition run_lop (o : lop) : M lheap unit :=
  match o with
  | Init x => INIT_LIST_HEAD x
  | Add new h => list_add new h
  | AddTail new h => list_add_tail new h
  | Del x => list_del x
  | DelInit x => list_del_init x
  | Move x h => list_move x h
  | MoveTail x h => list_move_tail x h
  | Replace old new => list_replace old new
  | ReplaceInit old new => list_replace_init old new
  | Swap x y => list_swap x y
  | Splice a h => list_splice a h
  | SpliceTail a h => list_splice_tail a h
  | SpliceInit a h => list_splice_init a h
  | SpliceTailInit a h => list_splice_tail_init a h
  | RotateLeft h => list_rotate_left h
  | RotateToFront x h => list_rotate_to_front x h
  | CutPosition l h e => list_cut_position l h e
  | CutBefore l h e => list_cut_before l h e
  end.

Fixpoint run_lops (os : list lop) : M lheap unit :=
  match os with [] => mret tt | o :: os' => run_lop o;; run_lops os' end.

(** The abstract state: the contents of every list, by head. [x] is not on any
    list: it heads none, or an empty one. *)
Definition unlinked (A : gmap Z (list Z)) (x : Z) : Prop :=
  (A !! x = None \/ A !! x = Some []) /\ forall h xs, A !! h = Some xs -> x ∉ xs.

(** What each operation does to the lists, and when it may be called; [N] are
    the objects there are. *)
Inductive lspec (N : gset Z) : gmap Z (list Z) -> lop -> gmap Z (list Z) -> Prop :=
| l_init A x : x ∈ N -> unlinked A x -> lspec N A (Init x) (<[x := []]> A)
| l_add A new h xs : new ∈ N -> unlinked A new -> new <> h -> A !! h = Some xs ->
    lspec N A (Add new h) (<[h := new :: xs]> (delete new A))
| l_add_tail A new h xs : new ∈ N -> unlinked A new -> new <> h -> A !! h = Some xs ->
    lspec N A (AddTail new h) (<[h := xs ++ [new]]> (delete new A))
| l_del A h l1 x l2 : A !! h = Some (l1 ++ x :: l2) -> lspec N A (Del x) (<[h := l1 ++ l2]> A)
| l_del_init A h l1 x l2 : A !! h = Some (l1 ++ x :: l2) ->
    lspec N A (DelInit x) (<[x := []]> (<[h := l1 ++ l2]> A))
| l_move A h l1 x l2 g ys : A !! h = Some (l1 ++ x :: l2) -> A !! g = Some ys -> g <> h ->
    lspec N A (Move x g) (<[g := x :: ys]> (<[h := l1 ++ l2]> A))
| l_move_same A h l1 x l2 : A !! h = Some (l1 ++ x :: l2) ->
    lspec N A (Move x h) (<[h := x :: l1 ++ l2]> A)
| l_move_tail A h l1 x l2 g ys : A !! h = Some (l1 ++ x :: l2) -> A !! g = Some ys -> g <> h ->
    lspec N A (MoveTail x g) (<[g := ys ++ [x]]> (<[h := l1 ++ l2]> A))
| l_move_tail_same A h l1 x l2 : A !! h = Some (l1 ++ x :: l2) ->
    lspec N A (MoveTail x h) (<[h := (l1 ++ l2) ++ [x]]> A)
| l_replace A h l1 old l2 new : A !! h = Some (l1 ++ old :: l2) -> new ∈ N -> unlinked A new ->
    new <> h -> lspec N A (Replace old new) (<[h := l1 ++ new :: l2]> (delete new A))
| l_replace_init A h l1 old l2 new : A !! h = Some (l1 ++ old :: l2) -> new ∈ N -> unlinked A new ->
    new <> h -> lspec N A (ReplaceInit old new) (<[old := []]> (<[h := l1 ++ new :: l2]> (delete new A)))
| l_swap A h l1 x l2 y l3 : A !! h = Some (l1 ++ x :: l2 ++ y :: l3) ->
    lspec N A (Swap x y) (<[h := l1 ++ y :: l2 ++ x :: l3]> A)
| l_splice A a xs h ys : A !! a = Some xs -> A !! h = Some ys -> a <> h ->
    lspec N A (Splice a h) (<[h := xs ++ ys]> (delete a A))
| l_splice_tail A a xs h ys : A !! a = Some xs -> A !! h = Some ys -> a <> h ->
    lspec N A (SpliceTail a h) (<[h := ys ++ xs]> (delete a A))
| l_splice_init A a xs h ys : A !! a = Some xs -> A !! h = Some ys -> a <> h ->
    lspec N A (SpliceInit a h) (<[h := xs ++ ys]> (<[a := []]> A))
| l_splice_tail_init A a xs h ys : A !! a = Some xs -> A !! h = Some ys -> a <> h ->
    lspec N A (SpliceTailInit a h) (<[h := ys ++ xs]> (<[a := []]> A))
| l_rotate_left A h xs : A !! h = Some xs ->
    lspec N A (RotateLeft h) (<[h := match xs with [] => [] | x :: xs' => xs' ++ [x] end]> A)
| l_rotate_to_front A h l1 x l2 : A !! h = Some (l1 ++ x :: l2) ->
    lspec N A (RotateToFront x h) (<[h := (x :: l2) ++ l1]> A)
| l_cut_position A l h l0 e l2 : A !! h = Some (l0 ++ e :: l2) -> l ∈ N -> unlinked A l -> l <> h ->
    lspec N A (CutPosition l h e) (<[l := l0 ++ [e]]> (<[h := l2]> A))
| l_cut_before A l h l1 l2 : A !! h = Some (l1 ++ l2) -> l ∈ N -> unlinked A l -> l <> h ->
    lspec N A (CutBefore l h (hd h l2)) (<[l := l1]> (<[h := l2]> A)).

Inductive lspecs (N : gset Z) : gmap Z (list Z) -> list lop -> gmap Z (list Z) -> Prop :=
| lspecs_nil A : lspecs N A [] A
| lspecs_cons A o A' os A'' : lspec N A o A' -> lspecs N A' os A'' -> lspecs N A (o :: os) A''.

(** The heap holds these lists, on disjoint sets of objects. *)
Record lrep (N : gset Z) (A : gmap Z (list Z)) (H : lheap) : Prop := {
  lrep_null : H !! 0 = None;
  lrep_some : forall x, x ∈ N -> is_Some (H !! x);
  lrep_circle : forall h xs, A !! h = Some xs -> circle H (h :: xs);
  lrep_disj : forall h1 xs1 h2 xs2, A !! h1 = Some xs1 -> A !! h2 = Some xs2 -> h1 <> h2 ->
    h1 :: xs1 ## h2 :: xs2 }.

Lemma lrep_changes N A A' H H' (X : list Z) (P : Z -> Prop) :
  lrep N A H -> changes X H H' ->
  (forall h xs, A' !! h = Some xs -> (A !! h = Some xs /\ h :: xs ## X) \/
     (P h /\ circle H' (h :: xs) /\ h :: xs ⊆ X)) ->
  (forall h1 xs1 h2 xs2, P h1 -> P h2 -> A' !! h1 = Some xs1 -> A' !! h2 = Some xs2 -> h1 <> h2 ->
     h1 :: xs1 ## h2 :: xs2) ->
  lrep N A' H'.
Proof.
  intros [Hn Hs Hc Hd] Hch HA Hdis. split.
  - destruct Hch as [_ HS]. destruct (H' !! 0) eqn:E; [|done].
    destruct (proj1 (HS 0)) as [? E']; [rewrite E; eauto|congruence].
  - intros x Hx. apply (changes_Some _ _ _ _ Hch), Hs, Hx.
  - intros h xs Hh. destruct (HA h xs Hh) as [[Ho Hx]|(_ & Ho & _)]; [|done].
    apply (circle_changes _ _ _ _ Hch (Hc _ _ Ho)). set_solver.
  - intros h1 xs1 h2 xs2 H1 H2 Hne.
    destruct (HA _ _ H1) as [[O1 X1]|(P1 & C1 & X1)], (HA _ _ H2) as [[O2 X2]|(P2 & C2 & X2)].
    + by apply Hd.
    + clear -X1 X2. set_solver.
    + clear -X1 X2. set_solver.
    + by apply Hdis.
Qed.

Lemma lrep_one N A H H' h xs' (X : list Z) : lrep N A H -> changes X H H' ->
  (forall k zs, A !! k = Some zs -> k <> h -> k :: zs ## X) ->
  circle H' (h :: xs') -> h :: xs' ⊆ X -> lrep N (<[h := xs']> A) H'.
Proof.
  intros HR Hch HX Hc Hs. apply (lrep_changes N A _ H _ X (eq h)); [done|done| |].
  - intros k zs [[<- <-]|[Hne Hk]]%lookup_insert_Some; [by right|]. left. split; [done|]. by apply HX.
  - congruence.
Qed.

Lemma lrep_two N A H H' h xs' g ys' (X : list Z) : lrep N A H -> changes X H H' -> g <> h ->
  (forall k zs, A !! k = Some zs -> k <> h -> k <> g -> k :: zs ## X) ->
  circle H' (h :: xs') -> circle H' (g :: ys') -> h :: xs' ## g :: ys' ->
  h :: xs' ⊆ X -> g :: ys' ⊆ X ->
  lrep N (<[g := ys']> (<[h := xs']> A)) H'.
Proof.
  intros HR Hch Hgh HX Hc Hc' Hd Hs Hs'.
  apply (lrep_changes N A _ H _ X (fun k => k = h \/ k = g)); [done|done| |].
  - intros k zs [[<- <-]|[Hne [[<- <-]|[Hne' Hk]]%lookup_insert_Some]]%lookup_insert_Some.
    + right. split_and!; [by right|apply Hc'..|done].
    + right. split_and!; [by left|apply Hc..|done].
    + left. split; [done|]. apply HX; congruence.
  - intros h1 xs1 h2 xs2 [->| ->] [->| ->]; rewrite ?lookup_insert_eq; try done;
      rewrite lookup_insert_ne, lookup_insert_eq by done; intros [= <-] [= <-] _; [done|].
    clear -Hd. set_solver.
Qed.

Lemma lrep_delete N A H x : lrep N A H -> lrep N (delete x A) H.
Proof.
  intros HR. apply (lrep_changes N A _ H _ [] (fun _ => False)); [done|apply changes_refl| |done].
  intros h xs [_ Hh]%lookup_delete_Some. left. split; [done|]. set_solver.
Qed.

Lemma unlinked_away A x k zs : unlinked A x -> A !! k = Some zs -> k <> x -> x ∉ k :: zs.
Proof. intros [_ Hu] Hk Hne. apply Hu in Hk. set_solver. Qed.

Ltac away HR :=
  intros k zs Hk; intros; try (apply lookup_delete_Some in Hk as [? Hk]);
  repeat match goal with
  | Hu : unlinked _ ?x |- _ =>
      let F := fresh in pose proof (unlinked_away _ _ _ _ Hu Hk ltac:(congruence)) as F; clear Hu
  end;
  repeat match goal with
  | Hh : _ !! ?h = Some ?xs |- _ =>
      lazymatch type of Hh with
      | _ = Some zs => fail
      | _ => let F := fresh in
          pose proof (lrep_disj _ _ _ HR _ _ _ _ Hk Hh ltac:(congruence)) as F; clear Hh
      end
  end;
  repeat match goal with
  | F : _ |- _ =>
      lazymatch type of F with
      | _ ## _ => fail
      | _ ∉ _ => fail
      | Type => fail
      | Z => fail
      | list Z => fail
      | _ => clear F
      end
  end; set_solver.

Section refine.
Context (N : gset Z) (A : gmap Z (list Z)) (H : lheap) (HR : lrep N A H).

Definition refines (o : lop) (A' : gmap Z (list Z)) : Prop :=
  exists H', run_lop o H = Ok (tt, H') /\ lrep N A' H'.

Ltac known Hh := pose proof (lrep_circle _ _ _ HR _ _ Hh).
Ltac conclude H' := exists H'; split; [assumption|].

Lemma refines_init x : x ∈ N -> unlinked A x -> refines (Init x) (<[x := []]> A).
Proof.
  intros Hx Hu. destruct (INIT_LIST_HEAD_ok H x) as (H' & E & Hc & Hch); [by apply HR|].
  conclude H'. apply (lrep_one N A H H' x [] [x]); [done|done|away HR|done|done].
Qed.

Lemma refines_add new h xs : new ∈ N -> unlinked A new -> new <> h -> A !! h = Some xs ->
  refines (Add new h) (<[h := new :: xs]> (delete new A)) /\
  refines (AddTail new h) (<[h := xs ++ [new]]> (delete new A)).
Proof.
  intros Hn Hu Hne Hh. known Hh.
  assert (new ∉ h :: xs) as Hfresh by (by apply (unlinked_away A)).
  assert (forall k zs, delete new A !! k = Some zs -> k <> h -> k :: zs ## new :: h :: xs) by away HR.
  split.
  - destruct (list_add_ok H new h xs) as (H' & E & Hc & Hch); [done|done|by apply HR|]. conclude H'.
    eapply lrep_one; [by apply lrep_delete|done|done|done|set_solver].
  - destruct (list_add_tail_ok H new h xs) as (H' & E & Hc & Hch); [done|done|by apply HR|]. conclude H'.
    eapply lrep_one; [by apply lrep_delete|done|done|done|set_solver].
Qed.

Lemma refines_del h l1 x l2 : A !! h = Some (l1 ++ x :: l2) ->
  refines (Del x) (<[h := l1 ++ l2]> A) /\
  refines (DelInit x) (<[x := []]> (<[h := l1 ++ l2]> A)).
Proof.
  intros Hh. known Hh. pose proof (circle_NoDup _ _ H0) as Hnd. apply circle_at in H0.
  assert (forall k zs, A !! k = Some zs -> k <> h -> k :: zs ## x :: l2 ++ h :: l1) by away HR.
  split.
  - destruct (list_del_ok H x (l2 ++ h :: l1)) as (H' & E & Hc & Hch & _); [apply HR|done|]. conclude H'.
    apply circle_from in Hc. eapply lrep_one; [done|done|done|done|set_solver].
  - destruct (list_del_init_ok H x (l2 ++ h :: l1)) as (H' & E & Hc & Hc' & Hch); [apply HR|done|].
    conclude H'. apply circle_from in Hc.
    eapply lrep_two; [done|done| |auto|done|done| | |]; clear -Hnd; nodup; set_solver.
Qed.

Lemma refines_move h l1 x l2 g ys : A !! h = Some (l1 ++ x :: l2) -> A !! g = Some ys -> g <> h ->
  refines (Move x g) (<[g := x :: ys]> (<[h := l1 ++ l2]> A)) /\
  refines (MoveTail x g) (<[g := ys ++ [x]]> (<[h := l1 ++ l2]> A)).
Proof.
  intros Hh Hg Hne. known Hh. known Hg. pose proof (circle_NoDup _ _ H0) as Hnd.
  pose proof (lrep_disj _ _ _ HR _ _ _ _ Hh Hg ltac:(congruence)) as Hd. apply circle_at in H0.
  assert (forall k zs, A !! k = Some zs -> k <> h -> k <> g -> k :: zs ## x :: (l2 ++ h :: l1) ++ g :: ys)
    by away HR.
  split.
  - destruct (list_move_ok H x (l2 ++ h :: l1) g ys) as (H' & E & Hc & Hc' & Hch);
      [apply HR|done|done|set_solver|].
    conclude H'. apply circle_from in Hc.
    eapply lrep_two; [done|done|done|auto|done|done| | |]; clear -Hnd Hd; nodup; set_solver.
  - destruct (list_move_tail_ok H x (l2 ++ h :: l1) g ys) as (H' & E & Hc & Hc' & Hch);
      [apply HR|done|done|set_solver|].
    conclude H'. apply circle_from in Hc.
    eapply lrep_two; [done|done|done|auto|done|done| | |]; clear -Hnd Hd; nodup; set_solver.
Qed.

Lemma refines_move_same h l1 x l2 : A !! h = Some (l1 ++ x :: l2) ->
  refines (Move x h) (<[h := x :: l1 ++ l2]> A) /\
  refines (MoveTail x h) (<[h := (l1 ++ l2) ++ [x]]> A) /\
  refines (RotateToFront x h) (<[h := (x :: l2) ++ l1]> A).
Proof.
  intros Hh. known Hh.
  assert (forall k zs, A !! k = Some zs -> k <> h -> k :: zs ## h :: l1 ++ x :: l2) by away HR.
  split; [|split].
  - destruct (list_move_same_ok H h l1 x l2) as (H' & E & Hc & Hch); [apply HR|done|]. conclude H'.
    eapply lrep_one; [done|done|done|done|set_solver].
  - destruct (list_move_tail_same_ok H h l1 x l2) as (H' & E & Hc & Hch); [apply HR|done|]. conclude H'.
    eapply lrep_one; [done|done|done|done|set_solver].
  - destruct (list_rotate_to_front_ok H h l1 x l2) as (H' & E & Hc & Hch); [apply HR|done|]. conclude H'.
    eapply lrep_one; [done|done|done|done|set_solver].
Qed.

Lemma refines_rotate_left h xs : A !! h = Some xs ->
  refines (RotateLeft h) (<[h := match xs with [] => [] | x :: xs' => xs' ++ [x] end]> A).
Proof.
  intros Hh. known Hh.
  assert (forall k zs, A !! k = Some zs -> k <> h -> k :: zs ## h :: xs) by away HR.
  destruct (list_rotate_left_ok H h xs) as (H' & E & Hch & Hc); [apply HR|done|]. conclude H'.
  eapply lrep_one; [done|done|done|done|destruct xs; set_solver].
Qed.

Lemma refines_replace h l1 old l2 new : A !! h = Some (l1 ++ old :: l2) -> new ∈ N -> unlinked A new ->
  new <> h ->
  refines (Replace old new) (<[h := l1 ++ new :: l2]> (delete new A)) /\
  refines (ReplaceInit old new) (<[old := []]> (<[h := l1 ++ new :: l2]> (delete new A))).
Proof.
  intros Hh Hn Hu Hne. known Hh. pose proof (circle_NoDup _ _ H0) as Hnd. apply circle_at in H0.
  assert (new ∉ h :: l1 ++ old :: l2) as Hfresh by (by apply (unlinked_away A)).
  assert (forall k zs, delete new A !! k = Some zs -> k <> h -> k :: zs ## old :: new :: l2 ++ h :: l1)
    by away HR.
  split.
  - destruct (list_replace_ok H old new (l2 ++ h :: l1)) as (H' & E & Hc & Hch);
      [done|set_solver|by apply HR|].
    conclude H'. apply (circle_rotate H' (new :: l2) (h :: l1)) in Hc.
    eapply lrep_one; [by apply lrep_delete|done|done|done|set_solver].
  - destruct (list_replace_init_ok H old new (l2 ++ h :: l1)) as (H' & E & Hc & Hc' & Hch);
      [done|set_solver|by apply HR|].
    conclude H'. apply (circle_rotate H' (new :: l2) (h :: l1)) in Hc.
    eapply lrep_two; [by apply lrep_delete|done| |auto|done|done| | |]; clear -Hnd Hfresh; nodup; set_solver.
Qed.

Lemma refines_swap h l1 x l2 y l3 : A !! h = Some (l1 ++ x :: l2 ++ y :: l3) ->
  refines (Swap x y) (<[h := l1 ++ y :: l2 ++ x :: l3]> A).
Proof.
  intros Hh. known Hh.
  assert (forall k zs, A !! k = Some zs -> k <> h -> k :: zs ## x :: l2 ++ y :: l3 ++ h :: l1) by away HR.
  apply circle_at in H0. rewrite <- app_assoc in H0.
  destruct (list_swap_ok H x l2 y (l3 ++ h :: l1)) as (H' & E & Hc & Hch); [apply HR|done|]. conclude H'.
  replace (y :: l2 ++ x :: l3 ++ h :: l1) with ((y :: l2 ++ x :: l3) ++ h :: l1) in Hc
    by (simpl; by rewrite <- app_assoc).
  apply circle_from in Hc. eapply lrep_one; [done|done|done|done|set_solver].
Qed.

Lemma refines_splice a xs h ys : A !! a = Some xs -> A !! h = Some ys -> a <> h ->
  refines (Splice a h) (<[h := xs ++ ys]> (delete a A)) /\
  refines (SpliceTail a h) (<[h := ys ++ xs]> (delete a A)).
Proof.
  intros Ha Hh Hne. known Ha. known Hh.
  pose proof (lrep_disj _ _ _ HR _ _ _ _ Ha Hh ltac:(congruence)) as Hd.
  assert (forall k zs, delete a A !! k = Some zs -> k <> h -> k :: zs ## xs ++ h :: ys) by away HR.
  split.
  - destruct (list_splice_ok H a xs h ys) as (H' & E & Hc & Hch); [done..|]. conclude H'.
    eapply lrep_one; [by apply lrep_delete|done|done|done|set_solver].
  - destruct (list_splice_tail_ok H a xs h ys) as (H' & E & Hc & Hch); [done..|]. conclude H'.
    eapply lrep_one; [by apply lrep_delete|done|done|done|set_solver].
Qed.

Lemma refines_splice_init a xs h ys : A !! a = Some xs -> A !! h = Some ys -> a <> h ->
  refines (SpliceInit a h) (<[h := xs ++ ys]> (<[a := []]> A)) /\
  refines (SpliceTailInit a h) (<[h := ys ++ xs]> (<[a := []]> A)).
Proof.
  intros Ha Hh Hne. known Ha. known Hh. pose proof (circle_NoDup _ _ H0) as Hnd.
  pose proof (lrep_disj _ _ _ HR _ _ _ _ Ha Hh ltac:(congruence)) as Hd.
  assert (forall k zs, A !! k = Some zs -> k <> a -> k <> h -> k :: zs ## a :: xs ++ h :: ys) by away HR.
  split.
  - destruct (list_splice_init_ok H a xs h ys) as (H' & E & Hc & Hc' & Hch); [done..|]. conclude H'.
    eapply lrep_two; [done|done|done|auto|done|done| | |]; clear -Hnd Hd; nodup; set_solver.
  - destruct (list_splice_tail_init_ok H a xs h ys) as (H' & E & Hc & Hc' & Hch); [done..|]. conclude H'.
    eapply lrep_two; [done|done|done|auto|done|done| | |]; clear -Hnd Hd; nodup; set_solver.
Qed.

Lemma refines_cut_position l h l0 e l2 : A !! h = Some (l0 ++ e :: l2) -> l ∈ N -> unlinked A l ->
  l <> h -> refines (CutPosition l h e) (<[l := l0 ++ [e]]> (<[h := l2]> A)).
Proof.
  intros Hh Hn Hu Hne. known Hh. pose proof (circle_NoDup _ _ H0) as Hnd.
  assert (l ∉ h :: l0 ++ e :: l2) as Hfresh by (by apply (unlinked_away A)).
  assert (forall k zs, A !! k = Some zs -> k <> h -> k <> l -> k :: zs ## l :: h :: l0 ++ e :: l2)
    by away HR.
  destruct (list_cut_position_ok H l h l0 e l2) as (H' & E & Hc & Hc' & Hch); [done|done|by apply HR|].
  conclude H'.
  eapply lrep_two; [done|done|done|auto|done|done| | |]; clear -Hnd Hfresh; nodup; set_solver.
Qed.

Lemma refines_cut_before l h l1 l2 : A !! h = Some (l1 ++ l2) -> l ∈ N -> unlinked A l ->
  l <> h -> refines (CutBefore l h (hd h l2)) (<[l := l1]> (<[h := l2]> A)).
Proof.
  intros Hh Hn Hu Hne. known Hh. pose proof (circle_NoDup _ _ H0) as Hnd.
  assert (l ∉ h :: l1 ++ l2) as Hfresh by (by apply (unlinked_away A)).
  assert (forall k zs, A !! k = Some zs -> k <> h -> k <> l -> k :: zs ## l :: h :: l1 ++ l2)
    by away HR.
  destruct (list_cut_before_ok H l h l1 l2) as (H' & E & Hc & Hc' & Hch); [done|done|by apply HR|].
  conclude H'.
  eapply lrep_two; [done|done|done|auto|done|done| | |]; clear -Hnd Hfresh; nodup; set_solver.
Qed.

End refine.

Lemma lop_refines N A o A' H : lrep N A H -> lspec N A o A' -> refines N H o A'.
Proof.
  intros HR. destruct 1.
  - by apply (refines_init N A).
  - by apply (refines_add N A H HR new h xs).
  - by apply (refines_add N A H HR new h xs).
  - by apply (refines_del N A H HR h l1 x l2).
  - by apply (refines_del N A H HR h l1 x l2).
  - by apply (refines_move N A H HR h l1 x l2 g ys).
  - by apply (refines_move_same N A H HR h l1 x l2).
  - by apply (refines_move N A H HR h l1 x l2 g ys).
  - by apply (refines_move_same N A H HR h l1 x l2).
  - by apply (refines_replace N A H HR h l1 old l2 new).
  - by apply (refines_replace N A H HR h l1 old l2 new).
  - by apply (refines_swap N A).
  - by apply (refines_splice N A H HR a xs h ys).
  - by apply (refines_splice N A H HR a xs h ys).
  - by apply (refines_splice_init N A H HR a xs h ys).
  - by apply (refines_splice_init N A H HR a xs h ys).
  - by apply (refines_rotate_left N A).
  - by apply (refines_move_same N A H HR h l1 x l2).
  - by apply (refines_cut_position N A).
  - by apply (refines_cut_before N A).
Qed.

(** C6: [list.h] implements a store of lists. Any sequence of its operations,
    each called where the contract of [lspec] allows it, returns without a
    fault, and leaves the heap holding exactly the lists the contract computes,
    every one a well-formed ring that shares no object with another; walking
    such a list forwards visits its entries in order, walking it backwards in
    reverse, and [list_empty] and [list_count] agree with its contents. *)
Theorem list_operations_refine (N : gset Z) (A A' : gmap Z (list Z)) (os : list lop) (H : lheap) :
  lrep N A H -> lspecs N A os A' ->
  exists H', run_lops os H = Ok (tt, H') /\ lrep N A' H' /\
    forall h xs fuel, A' !! h = Some xs -> (length xs < fuel)%nat ->
      list_for_each fuel h cons [] H' = Ok (rev xs, H') /\
      list_for_each_prev fuel h cons [] H' = Ok (xs, H') /\
      list_empty h H' = Ok (bool_decide (xs = []), H') /\
      list_count fuel h H' = Ok (Z.of_nat (length xs), H').
Proof.
  intros HR Hs. revert H HR. induction Hs as [A|A o A1 os A' Ho Hs IH]; intros H HR.
  - exists H. split_and!; [done|done|apply HR..|]. intros h xs fuel Hh Hf.
    pose proof (lrep_circle _ _ _ HR _ _ Hh) as Hc.
    rewrite (list_for_each_ok _ H h xs), (list_for_each_prev_ok _ H h xs), (list_empty_ok H h xs),
      (list_count_ok H h xs) by done.
    assert (forall l acc : list Z, fold_left (fun a x => x :: a) l acc = rev l ++ acc) as Hrev.
    { clear. induction l as [|x l IH]; intros acc; simpl; [done|]. by rewrite IH, <- app_assoc. }
    by rewrite !Hrev, rev_involutive, !app_nil_r.
  - destruct (lop_refines N A o A1 H HR Ho) as (H1 & E1 & HR1).
    destruct (IH H1 HR1) as (H2 & E2 & HR2). exists H2. split; [|done].
    cbn [run_lops]. by rewrite (bind_step _ _ _ _ _ E1).
Qed.

Definition example_nodes : gset Z := list_to_set [8; 16; 24; 32].
Definition example_lheap : lheap := list_to_map ((fun a => (a, mk_list_head 0 0)) <$> [8; 16; 24; 32]).

Lemma list_operations_refine_witness :
  exists H', run_lops [Init 8; Init 16; Add 24 8; AddTail 32 8; Move 32 16] example_lheap = Ok (tt, H') /\
    list_for_each_prev 5 8 cons [] H' = Ok ([24], H') /\ list_count 5 16 H' = Ok (1, H').
Proof.
  destruct (list_operations_refine example_nodes ∅
    (<[16 := [32]]> (<[8 := [24]]> (<[8 := [24; 32]]> (delete 32 (<[8 := [24]]> (delete 24 (<[16 := []]> (<[8 := []]> ∅))))))))
    [Init 8; Init 16; Add 24 8; AddTail 32 8; Move 32 16] example_lheap)
    as (H' & E & _ & Hobs).
  - split; [done| | |].
    + intros x Hx. unfold example_nodes in Hx. set_unfold in Hx.
      destruct_or?; subst; [vm_compute; eauto..|done].
    + intros h xs. by rewrite lookup_empty.
    + intros h xs h2 xs2. by rewrite lookup_empty.
  - assert (forall A x, A !! x = None -> (map_Forall (fun _ xs => bool_decide (x ∉ xs) = true) A) -> unlinked A x) as U.
    { intros A x Hn Hf. split; [by left|]. intros h xs Hh. apply Hf in Hh. by apply bool_decide_eq_true in Hh. }
    eapply lspecs_cons; [apply l_init|].
    { vm_compute. reflexivity. }
    { apply U; [done|]. apply map_Forall_empty. }
    eapply lspecs_cons; [apply l_init; [by vm_compute|apply U; [done|]]|].
    { by apply (bool_decide_unpack _); vm_compute. }
    eapply lspecs_cons; [apply (l_add _ _ 24 8 []); [by vm_compute|apply U; [done|]|done|done]|].
    { by apply (bool_decide_unpack _); vm_compute. }
    eapply lspecs_cons; [apply (l_add_tail _ _ 32 8 [24]); [by vm_compute|apply U; [done|]|done|done]|].
    { by apply (bool_decide_unpack _); vm_compute. }
    eapply lspecs_cons; [apply (l_move _ _ 8 [24] 32 [] 16 []); done|]. constructor.
  - exists H'. split; [done|]. split.
    + apply (Hobs 8 [24] 5%nat); [done|simpl; lia].
    + apply (Hobs 16 [32] 5%nat); [done|simpl; lia].
Defined.
