(* ===== verification/Plist.v ===== *)
(** * Priority lists

    [utils/plist.c] and [utils/plist.h]: the priority-sorted lists the
    scheduler keeps its threads on. A node is on two rings: [node_list] holds
    all nodes in order, [prio_list] the first node of every priority, so that
    insertion skips whole priorities. The operations are shown to keep the two
    rings consistent and to act as a stable sorted sequence. *)
From Stdlib Require Import ZArith Lia Bool List.
From stdpp Require Import base list gmap option fin_maps sets sorting.
From S2P Require Import Prelude Dlist.

Open Scope Z_scope.

(** The nodes of the kernel's plists: the [prio] field by node address, and the
    two embedded [list_head]s in the heap of [Dlist]. *)
Record pheap := mk_pheap { links : gmap Z list_head; prios : gmap Z Z }.

Definition on_links {A} : M (gmap Z list_head) A -> M pheap A :=
  zoom links (fun l s => mk_pheap l (prios s)).

(** [&node->prio_list] and [&node->node_list]; [container_of] goes back. *)
Definition prio_list (node : Z) : Z := node + 4.
Definition node_list (node : Z) : Z := node + 12.
Definition of_prio_list (p : Z) : Z := p - 4.
Definition of_node_list (p : Z) : Z := p - 12.

Definition get_prio (node : Z) : M pheap Z := deref (fun s => prios s !! node).
Definition set_prio (node p : Z) : M pheap unit :=
  modify (fun s => mk_pheap (links s) (<[node := p]> (prios s))).

Definition plist_head_init (head : Z) : M pheap unit := on_links (INIT_LIST_HEAD head).

Definition plist_node_init (node prio : Z) : M pheap unit :=
  set_prio node prio;;
  on_links (INIT_LIST_HEAD (prio_list node));;
  on_links (INIT_LIST_HEAD (node_list node)).

Definition plist_head_empty (head : Z) : M pheap bool := on_links (list_empty head).
Definition plist_node_empty (node : Z) : M pheap bool := on_links (list_empty (node_list node)).
Definition plist_first (head : Z) : M pheap Z := p ← on_links (get_next head); mret (of_node_list p).
Definition plist_last (head : Z) : M pheap Z := p ← on_links (get_prev head); mret (of_node_list p).
Definition plist_next (pos : Z) : M pheap Z :=
  p ← on_links (get_next (node_list pos)); mret (of_node_list p).
Definition plist_prev (pos : Z) : M pheap Z :=
  p ← on_links (get_prev (node_list pos)); mret (of_node_list p).

(** The do-while loop of [plist_add], from the [iter], [prev] and [node_next]
    of one iteration to their final values. *)
Fixpoint add_loop (node first iter prev node_next : Z) (fuel : nat) : M pheap (Z * Z * Z) :=
  match fuel with
  | O => mfail Fuel
  | S fuel' =>
      p ← get_prio node; q ← get_prio iter;
      if p <? q then mret (iter, prev, node_list iter)
      else
        n ← on_links (get_next (prio_list iter));
        if of_prio_list n =? first then mret (of_prio_list n, iter, node_next)
        else add_loop node first (of_prio_list n) iter node_next fuel'
  end.

Definition plist_add (fuel : nat) (node head : Z) : M pheap unit :=
  empty ← plist_head_empty head;
  if empty : bool then on_links (list_add_tail (node_list node) head)
  else
    first ← plist_first head;
    r ← add_loop node first first 0 head fuel;
    let '(iter, prev, node_next) := r in
    differs ← (if prev =? 0 then mret true
               else pp ← get_prio prev; np ← get_prio node; mret (negb (pp =? np)));
    mwhen differs (on_links (list_add_tail (prio_list node) (prio_list iter)));;
    on_links (list_add_tail (node_list node) node_next).

Definition plist_del (node head : Z) : M pheap unit :=
  alone ← on_links (list_empty (prio_list node));
  mwhen (negb alone)
    (nn ← on_links (get_next (node_list node));
     mwhen (negb (nn =? head))
       (let next := of_node_list nn in
        e ← on_links (list_empty (prio_list next));
        mwhen e (on_links (list_add (prio_list next) (prio_list node))));;
     on_links (list_del_init (prio_list node)));;
  on_links (list_del_init (node_list node)).

(** The [plist_for_each_continue] loop of [plist_requeue]. *)
Fixpoint requeue_loop (node pos head node_next : Z) (fuel : nat) : M pheap Z :=
  match fuel with
  | O => mfail Fuel
  | S fuel' =>
      if node_list pos =? head then mret node_next
      else
        p ← get_prio node; q ← get_prio pos;
        if negb (p =? q) : bool then mret (node_list pos)
        else pos' ← plist_next pos; requeue_loop node pos' head node_next fuel'
  end.

Definition plist_requeue (fuel : nat) (node head : Z) : M pheap unit :=
  last ← plist_last head;
  if node =? last then mret tt
  else
    iter ← plist_next node;
    p ← get_prio node; q ← get_prio iter;
    if negb (p =? q) : bool then mret tt
    else
      plist_del node head;;
      pos ← plist_next iter;
      node_next ← requeue_loop node pos head head fuel;
      on_links (list_add_tail (node_list node) node_next).

(** ** Specification: a sequence sorted by priority, equal priorities in
    insertion order *)

Fixpoint pins (pr : Z -> Z) (node : Z) (ns : list Z) : list Z :=
  match ns with
  | [] => [node]
  | n :: ns' => if pr node <? pr n then node :: ns else n :: pins pr node ns'
  end.

Definition prem (node : Z) (ns : list Z) : list Z := filter (fun n => n <> node) ns.

(** ** Representation: the nodes grouped by priority *)

Record group := mk_group { g_prio : Z; g_lead : Z; g_rest : list Z }.

Definition members (g : group) : list Z := g_lead g :: g_rest g.
Definition flat (gs : list group) : list Z := concat (members <$> gs).
Definition leads (gs : list group) : list Z := g_lead <$> gs.

Record pinv (h : Z) (gs : list group) (s : pheap) : Prop := {
  pi_null : links s !! 0 = None;
  pi_nonzero : 0 ∉ flat gs;
  pi_nodes : circle (links s) (h :: (node_list <$> flat gs));
  pi_prios : circle (links s) (prio_list <$> leads gs);
  pi_rest : forall g n, g ∈ gs -> n ∈ g_rest g -> circle (links s) [prio_list n];
  pi_val : forall g n, g ∈ gs -> n ∈ members g -> prios s !! n = Some (g_prio g);
  pi_sorted : StronglySorted Z.lt (g_prio <$> gs);
  pi_addr : NoDup (h :: (node_list <$> flat gs) ++ (prio_list <$> flat gs)) }.

(** [head] holds the nodes [ns], in this order. *)
Definition plist (h : Z) (ns : list Z) (s : pheap) : Prop := exists gs, flat gs = ns /\ pinv h gs s.

(** The objects a plist is made of, and a node that is on none. *)
Definition pfoot (h : Z) (ns : list Z) : list Z := h :: (node_list <$> ns) ++ (prio_list <$> ns).
Record detached (n : Z) (s : pheap) : Prop := {
  dt_nonzero : n <> 0;
  dt_node : circle (links s) [node_list n];
  dt_prio : circle (links s) [prio_list n];
  dt_val : is_Some (prios s !! n) }.

(** ** Shared facts *)

#[local] Arguments circle : simpl never.

Lemma on_links_ok {A} (m : M (gmap Z list_head) A) s a l :
  m (links s) = Ok (a, l) -> on_links m s = Ok (a, mk_pheap l (prios s)).
Proof. intros E. unfold on_links, zoom. by rewrite E. Qed.

Lemma on_links_same {A} (m : M (gmap Z list_head) A) s a :
  m (links s) = Ok (a, links s) -> on_links m s = Ok (a, s).
Proof. intros E. rewrite (on_links_ok m s a _ E). by destruct s. Qed.

Lemma get_prio_ok n p s : prios s !! n = Some p -> get_prio n s = Ok (p, s).
Proof. intros E. by apply deref_some. Qed.

Lemma of_prio_list_prio_list n : of_prio_list (prio_list n) = n.
Proof. unfold of_prio_list, prio_list. lia. Qed.
Lemma of_node_list_node_list n : of_node_list (node_list n) = n.
Proof. unfold of_node_list, node_list. lia. Qed.

#[export] Instance prio_list_inj : Inj eq eq prio_list.
Proof. intros x y. unfold prio_list. lia. Qed.
#[export] Instance node_list_inj : Inj eq eq node_list.
Proof. intros x y. unfold node_list. lia. Qed.

Lemma add_before_ok H h l1 l2 new : circle H (h :: l1 ++ l2) -> new ∉ h :: l1 ++ l2 ->
  is_Some (H !! new) ->
  exists H', list_add_tail new (hd h l2) H = Ok (tt, H') /\ circle H' (h :: l1 ++ new :: l2) /\
    changes (new :: h :: l1 ++ l2) H H'.
Proof.
  intros Hc Hn Hs. destruct l2 as [|x l2].
  - rewrite app_nil_r in *. by apply list_add_tail_ok.
  - apply circle_at in Hc.
    destruct (list_add_tail_ok H new x (l2 ++ h :: l1) Hc) as (H' & E & Hc' & Hch); [set_solver|done|].
    exists H'. split; [done|]. split; [|eapply changes_mono; [|done]; set_solver].
    replace (x :: (l2 ++ h :: l1) ++ [new]) with ((x :: l2) ++ h :: l1 ++ [new]) in Hc'
      by (simpl; by rewrite <- app_assoc).
    apply circle_from in Hc'. by rewrite <- app_assoc in Hc'.
Qed.

Lemma add_between_ok H d l1 l2 new : l1 ++ l2 <> [] -> circle H (l1 ++ l2) -> new ∉ l1 ++ l2 ->
  is_Some (H !! new) ->
  exists H', list_add_tail new (hd d (l2 ++ l1)) H = Ok (tt, H') /\ circle H' (l1 ++ new :: l2) /\
    changes (new :: l1 ++ l2) H H'.
Proof.
  intros Hne Hc Hn Hs. apply circle_rotate in Hc.
  destruct (l2 ++ l1) as [|x l'] eqn:E.
  { apply app_nil in E as [-> ->]. done. }
  destruct (list_add_tail_ok H new x l' Hc) as (H' & E' & Hc' & Hch); [|done|].
  { intros Hin. apply Hn. rewrite <- E in Hin. set_solver. }
  exists H'. split; [done|]. split.
  - change (x :: l' ++ [new]) with ((x :: l') ++ [new]) in Hc'. rewrite <- E, <- app_assoc in Hc'.
    apply circle_rotate in Hc'. by rewrite <- app_assoc in Hc'.
  - eapply changes_mono; [|done]. rewrite <- E. set_solver.
Qed.

Lemma flat_app gs1 gs2 : flat (gs1 ++ gs2) = flat gs1 ++ flat gs2.
Proof. unfold flat. by rewrite fmap_app, concat_app. Qed.
Lemma flat_cons g gs : flat (g :: gs) = members g ++ flat gs.
Proof. done. Qed.
Lemma leads_app gs1 gs2 : leads (gs1 ++ gs2) = leads gs1 ++ leads gs2.
Proof. apply fmap_app. Qed.

Ltac flats :=
  rewrite ?flat_app, ?flat_cons; unfold members, flat; simpl;
  repeat (first [rewrite <- app_assoc | rewrite app_nil_r | progress simpl]); reflexivity.

Lemma elem_of_flat n gs : n ∈ flat gs <-> exists g, g ∈ gs /\ n ∈ members g.
Proof.
  induction gs as [|g gs IH]; [split; [set_solver|intros (? & ? & _); set_solver]|].
  rewrite flat_cons, elem_of_app, IH. set_solver.
Qed.

Lemma leads_flat n gs : n ∈ leads gs -> n ∈ flat gs.
Proof.
  unfold leads. rewrite list_elem_of_fmap. intros (g & -> & Hg). apply elem_of_flat.
  exists g. split; [done|]. constructor.
Qed.

Lemma hd_leads_flat h gs : hd h (node_list <$> flat gs) = hd h (node_list <$> leads gs).
Proof. by destruct gs. Qed.

(** ** [plist_add] *)

Lemma pinv_NoDup h gs s : pinv h gs s -> NoDup (flat gs).
Proof.
  intros HI. pose proof (pi_addr _ _ _ HI) as Hnd. apply NoDup_cons in Hnd as [_ Hnd].
  apply NoDup_app in Hnd as (Hnd & _ & _). by apply (NoDup_fmap_1 node_list).
Qed.

Lemma leads_NoDup gs : NoDup (flat gs) -> NoDup (leads gs).
Proof.
  induction gs as [|g gs IH]; [constructor|]. rewrite flat_cons. unfold members. simpl. intros Hnd.
  apply NoDup_cons in Hnd as [Hg Hnd]. apply NoDup_app in Hnd as (_ & _ & Hnd).
  constructor; [|auto]. intros Hin. apply Hg, elem_of_app. right. by apply leads_flat.
Qed.

Lemma sorted_after gs1 g gs2 : StronglySorted Z.lt (g_prio <$> gs1 ++ g :: gs2) ->
  Forall (fun g' => g_prio g < g_prio g') gs2.
Proof.
  rewrite fmap_app. intros (_ & _ & Hso)%StronglySorted_app. simpl in Hso.
  apply StronglySorted_cons in Hso as [Hall _]. by apply (Forall_fmap g_prio (Z.lt (g_prio g)) gs2).
Qed.

Lemma add_loop_ok h node p s gs2 : forall gs1 g fuel,
  pinv h (gs1 ++ g :: gs2) s -> prios s !! node = Some p ->
  Forall (fun g => g_prio g <= p) gs1 -> (length gs2 < fuel)%nat ->
  exists a b, gs1 ++ g :: gs2 = a ++ b /\ Forall (fun g => g_prio g <= p) a /\
    Forall (fun g => p < g_prio g) b /\
    add_loop node (hd 0 (leads (gs1 ++ g :: gs2))) (g_lead g) (List.last (leads gs1) 0) h fuel s =
      Ok ((hd 0 (leads (b ++ a)), List.last (leads a) 0, hd h (node_list <$> leads b)), s).
Proof.
  induction gs2 as [|g' gs2 IH]; intros gs1 g fuel HI Hp Hle Hf; (destruct fuel as [|fuel]; [lia|]);
    cbn [add_loop]; rewrite (bind_step _ _ _ _ _ (get_prio_ok _ _ _ Hp));
    rewrite (bind_step _ _ _ _ _ (get_prio_ok _ (g_prio g) s
      (pi_val _ _ _ HI g (g_lead g) ltac:(set_solver) ltac:(constructor)))).
  all: pose proof (pi_prios _ _ _ HI) as Hc; rewrite leads_app, fmap_app in Hc;
    apply circle_rotate in Hc; change (leads (g :: ?l)) with (g_lead g :: leads l) in Hc;
    pose proof (circle_next _ _ _ Hc) as En; pose proof (sorted_after _ _ _ (pi_sorted _ _ _ HI)) as Hso.
  all: destruct (Z.ltb_spec p (g_prio g)) as [Hlt|Hge].
  1, 3: exists gs1; eexists; split_and!; [reflexivity|done| |done];
    constructor; [done|]; eapply Forall_impl; [exact Hso|]; simpl; lia.
  - rewrite (bind_step _ _ _ _ _ (on_links_same _ _ _ (get_next_ok _ _ _ En))).
    assert (hd (prio_list (g_lead g)) (prio_list <$> leads gs1) =
      prio_list (hd 0 (leads (gs1 ++ [g])))) as Eh by (by destruct gs1).
    simpl app. simpl fmap. rewrite Eh, of_prio_list_prio_list, Z.eqb_refl.
    exists (gs1 ++ [g]), []. rewrite app_nil_r. split_and!; [done| |done|].
    + apply Forall_app. split; [done|]. by constructor.
    + unfold leads. simpl. rewrite fmap_app. simpl. by rewrite List.last_last.
  - rewrite (bind_step _ _ _ _ _ (on_links_same _ _ _ (get_next_ok _ _ _ En))).
    simpl. rewrite of_prio_list_prio_list.
    assert (g_lead g' <> hd 0 (leads (gs1 ++ g :: g' :: gs2))) as Hne.
    { pose proof (leads_NoDup _ (pinv_NoDup _ _ _ HI)) as Hnd. rewrite leads_app in Hnd.
      destruct gs1 as [|g0 gs1]; simpl in *; nodup; set_solver. }
    rewrite (proj2 (Z.eqb_neq _ _) Hne).
    destruct (IH (gs1 ++ [g]) g' fuel) as (a & b & E & Ha & Hb & Er); [by rewrite <- app_assoc|done| |simpl in Hf; lia|].
    + apply Forall_app. split; [done|]. by constructor.
    + exists a, b. rewrite <- app_assoc in E, Er. split_and!; [done..|].
      rewrite <- Er. unfold leads at 3. rewrite fmap_app. simpl. by rewrite List.last_last.
Qed.

Lemma pfoot_perm h ns ns' : ns ≡ₚ ns' -> NoDup (pfoot h ns) -> NoDup (pfoot h ns').
Proof. intros Hp. unfold pfoot. by rewrite Hp. Qed.

Lemma pfoot_mono h ns ns' : ns ⊆ ns' -> pfoot h ns ⊆ pfoot h ns'.
Proof. unfold pfoot. set_solver. Qed.

Lemma pfoot_disj h ns : NoDup (pfoot h ns) ->
  (forall a, a ∈ ns -> node_list a <> h /\ prio_list a <> h) /\
  (forall a b, a ∈ ns -> b ∈ ns -> node_list a <> prio_list b).
Proof.
  unfold pfoot. intros [Hh Hnd]%NoDup_cons. apply NoDup_app in Hnd as (_ & Hd & _). split.
  - intros a Ha. split; intros <-; apply Hh, elem_of_app; [left|right]; by apply list_elem_of_fmap_2.
  - intros a b Ha Hb E. apply (Hd (node_list a)); [by apply list_elem_of_fmap_2|].
    rewrite E. by apply list_elem_of_fmap_2.
Qed.

Lemma pfoot_NoDup h ns : NoDup (pfoot h ns) -> NoDup ns.
Proof.
  unfold pfoot. intros [_ Hnd]%NoDup_cons. apply NoDup_app in Hnd as (Hnd & _ & _).
  by apply (NoDup_fmap_1 node_list).
Qed.

Lemma pfoot_drop h n ns : NoDup (pfoot h (n :: ns)) -> NoDup (pfoot h ns).
Proof.
  unfold pfoot. intros [Hh Hnd]%NoDup_cons. apply NoDup_app in Hnd as (N1 & N2 & N3).
  simpl in N1, N3. apply NoDup_cons in N1 as [_ N1], N3 as [_ N3].
  constructor; [simpl in Hh; set_solver|]. apply NoDup_app. split; [done|]. split; [|done].
  intros x Hx Hx'. apply (N2 x); simpl; by apply elem_of_cons; right.
Qed.

Lemma changes_null X H H' : changes X H H' -> H !! 0 = None -> H' !! 0 = None.
Proof.
  intros [_ HS] H0. destruct (H' !! 0) eqn:E; [|done].
  destruct (proj1 (HS 0)) as [? E']; [rewrite E; eauto|congruence].
Qed.

Lemma rest_not_lead gs g n : NoDup (flat gs) -> g ∈ gs -> n ∈ g_rest g -> n ∉ leads gs.
Proof.
  intros Hnd Hg Hn. apply list_elem_of_split in Hg as (g1 & g2 & ->).
  rewrite flat_app, flat_cons in Hnd. rewrite leads_app, elem_of_app. unfold members in Hnd. simpl in Hnd.
  apply NoDup_app in Hnd as (_ & Hd & Hnd). apply NoDup_cons in Hnd as [Hl Hnd].
  apply NoDup_app in Hnd as (_ & Hd2 & _). simpl. rewrite elem_of_cons.
  intros [H1|[->|H1]].
  - apply leads_flat in H1. apply (Hd _ H1). set_solver.
  - set_solver.
  - apply leads_flat in H1. by apply (Hd2 n).
Qed.

(** The node joins the last group of [a], whose priority it has. *)
Lemma insert_join h a g b node s L' :
  pinv h (a ++ g :: b) s -> detached node s -> prios s !! node = Some (g_prio g) ->
  NoDup (pfoot h (node :: flat (a ++ g :: b))) ->
  circle L' (h :: (node_list <$> flat (a ++ [g])) ++ node_list node :: (node_list <$> flat b)) ->
  changes (node_list node :: h :: (node_list <$> flat (a ++ g :: b))) (links s) L' ->
  pinv h (a ++ mk_group (g_prio g) (g_lead g) (g_rest g ++ [node]) :: b) (mk_pheap L' (prios s)).
Proof.
  intros HI [Hnz _ Hdp _] Hp Hnd Hc Hch. set (gs' := a ++ _ :: b).
  assert (flat gs' = flat (a ++ [g]) ++ node :: flat b) as Hflat.
  { unfold gs'. flats. }
  assert (flat (a ++ g :: b) = flat (a ++ [g]) ++ flat b) as Hold by flats.
  assert (leads gs' = leads (a ++ g :: b)) as Hleads by (unfold gs'; by rewrite !leads_app).
  assert (node :: flat (a ++ g :: b) ≡ₚ flat gs') as Hperm.
  { rewrite Hflat, Hold. by apply Permutation_middle. }
  destruct (pfoot_disj _ _ Hnd) as [Dh Dn].
  assert (forall n, n ∈ node :: flat (a ++ g :: b) ->
    prio_list n ∉ node_list node :: h :: (node_list <$> flat (a ++ g :: b))) as Hout.
  { intros n Hn. rewrite !not_elem_of_cons. split_and!.
    - intros E. apply (Dn node n); [constructor|done|done].
    - by apply Dh.
    - intros (m & E & Hm)%list_elem_of_fmap. apply (Dn m n); [by constructor|done|done]. }
  split; simpl.
  - apply (changes_null _ _ _ Hch), HI.
  - rewrite <- Hperm, not_elem_of_cons. split; [done|]. apply HI.
  - by rewrite Hflat, fmap_app.
  - rewrite Hleads. apply (circle_changes _ _ _ _ Hch (pi_prios _ _ _ HI)).
    intros x (n & -> & Hn)%list_elem_of_fmap. apply Hout. constructor. by apply leads_flat.
  - intros g' n Hg' Hn. apply (circle_changes _ _ _ _ Hch).
    + unfold gs' in Hg'. apply elem_of_app in Hg' as [Hg'|[->|Hg']%elem_of_cons].
      * apply (pi_rest _ _ _ HI g'); set_solver.
      * simpl in Hn. apply elem_of_app in Hn as [Hn|Hn%list_elem_of_singleton]; [|by subst].
        apply (pi_rest _ _ _ HI g); set_solver.
      * apply (pi_rest _ _ _ HI g'); set_solver.
    + intros x ->%list_elem_of_singleton. apply Hout. rewrite Hperm. apply elem_of_flat.
      exists g'. split; [done|]. by constructor.
  - intros g' n Hg' Hn. unfold gs' in Hg'. apply elem_of_app in Hg' as [Hg'|[->|Hg']%elem_of_cons].
    + apply (pi_val _ _ _ HI g'); set_solver.
    + unfold members in Hn. simpl in Hn. rewrite app_comm_cons in Hn.
      apply elem_of_app in Hn as [Hn|Hn%list_elem_of_singleton]; [|by subst].
      apply (pi_val _ _ _ HI g); set_solver.
    + apply (pi_val _ _ _ HI g'); set_solver.
  - pose proof (pi_sorted _ _ _ HI) as Hso. unfold gs'. rewrite fmap_app in *. done.
  - by apply (pfoot_perm _ _ _ Hperm).
Qed.

(** The node opens a priority of its own between [a] and [b]. *)
Lemma insert_new h a b node p s L' :
  pinv h (a ++ b) s -> detached node s -> prios s !! node = Some p ->
  Forall (fun g => g_prio g < p) a -> Forall (fun g => p < g_prio g) b ->
  NoDup (pfoot h (node :: flat (a ++ b))) ->
  circle L' (h :: (node_list <$> flat a) ++ node_list node :: (node_list <$> flat b)) ->
  circle L' (prio_list <$> (leads a ++ node :: leads b)) ->
  changes (node_list node :: prio_list node :: h :: (node_list <$> flat (a ++ b)) ++
    (prio_list <$> leads (a ++ b))) (links s) L' ->
  pinv h (a ++ mk_group p node [] :: b) (mk_pheap L' (prios s)).
Proof.
  intros HI [Hnz _ Hdp _] Hp Ha Hb Hnd Hc Hcp Hch. set (gs' := a ++ _ :: b).
  assert (flat gs' = flat a ++ node :: flat b) as Hflat by (unfold gs'; flats).
  assert (leads gs' = leads a ++ node :: leads b) as Hleads by (unfold gs'; by rewrite leads_app).
  assert (node :: flat (a ++ b) ≡ₚ flat gs') as Hperm.
  { rewrite Hflat, flat_app. by apply Permutation_middle. }
  destruct (pfoot_disj _ _ Hnd) as [Dh Dn]. pose proof (pfoot_NoDup _ _ Hnd) as Hndf.
  apply NoDup_cons in Hndf as [Hfresh Hndf].
  assert (forall g n, g ∈ gs' -> n ∈ g_rest g -> g ∈ a ++ b) as Hold.
  { intros g n Hg Hn. unfold gs' in Hg. apply elem_of_app in Hg as [Hg|[->|Hg]%elem_of_cons];
      [set_solver|simpl in Hn; set_solver|set_solver]. }
  split; simpl.
  - apply (changes_null _ _ _ Hch), HI.
  - rewrite <- Hperm, not_elem_of_cons. split; [done|]. apply HI.
  - by rewrite Hflat, fmap_app.
  - by rewrite Hleads.
  - intros g n Hg Hn. pose proof (Hold g n Hg Hn) as Hg'.
    assert (n ∈ flat (a ++ b)) as Hnf by (apply elem_of_flat; exists g; split; [done|by constructor]).
    apply (circle_changes _ _ _ _ Hch (pi_rest _ _ _ HI g n Hg' Hn)).
    intros x ->%list_elem_of_singleton. rewrite !not_elem_of_cons, not_elem_of_app.
    split_and!.
    + intros E. apply (Dn node n); [constructor|by constructor|done].
    + intros E%(inj prio_list). congruence.
    + by apply Dh; constructor.
    + intros (m & E & Hm)%list_elem_of_fmap. apply (Dn m n); [by constructor|by constructor|done].
    + intros (m & E%(inj prio_list) & Hm)%list_elem_of_fmap. subst.
      by apply (rest_not_lead (a ++ b) g m).
  - intros g n Hg Hn. unfold gs' in Hg. apply elem_of_app in Hg as [Hg|[->|Hg]%elem_of_cons].
    + apply (pi_val _ _ _ HI g); set_solver.
    + unfold members in Hn. simpl in Hn. by apply list_elem_of_singleton in Hn as ->.
    + apply (pi_val _ _ _ HI g); set_solver.
  - pose proof (pi_sorted _ _ _ HI) as Hso. unfold gs'. rewrite fmap_app in *. simpl.
    apply StronglySorted_app in Hso as (Hx & Hsa & Hsb). apply StronglySorted_app. split_and!.
    + intros x1 x2 Hx1 Hx2. apply list_elem_of_fmap in Hx1 as (g & -> & Hg).
      rewrite list.Forall_forall in Ha. apply elem_of_cons in Hx2 as [->|Hx2]; [by apply Ha|].
      apply Hx; [by apply list_elem_of_fmap_2|done].
    + done.
    + apply StronglySorted_cons. split; [|done]. by apply Forall_fmap.
  - by apply (pfoot_perm _ _ _ Hperm).
Qed.

(** The priorities a heap records, for the specification. *)
Definition prio_of (s : pheap) (n : Z) : Z := default 0 (prios s !! n).

Lemma pins_split pr node l1 l2 : Forall (fun n => pr n <= pr node) l1 ->
  Forall (fun n => pr node < pr n) l2 -> pins pr node (l1 ++ l2) = l1 ++ node :: l2.
Proof.
  intros H1 H2. induction H1 as [|n l1 Hn H1 IH]; simpl.
  - destruct H2 as [|n l2 Hn H2]; [done|]. simpl. by rewrite (proj2 (Z.ltb_lt _ _)).
  - rewrite (proj2 (Z.ltb_ge _ _)) by done. by rewrite IH.
Qed.

Lemma flat_prios (P : Z -> Prop) h gs1 gs s : pinv h gs s -> gs1 ⊆ gs ->
  Forall (fun g => P (g_prio g)) gs1 -> Forall (fun n => P (prio_of s n)) (flat gs1).
Proof.
  intros HI Hsub Hall. apply list.Forall_forall. intros n (g & Hg & Hn)%elem_of_flat.
  unfold prio_of. rewrite (pi_val _ _ _ HI g n (Hsub _ Hg) Hn). simpl.
  rewrite list.Forall_forall in Hall. auto.
Qed.

Lemma pfoot_fresh h node ns : NoDup (pfoot h (node :: ns)) ->
  (node_list node ∉ h :: (node_list <$> ns)) /\ (prio_list node ∉ (prio_list <$> ns)) /\
  (node_list node ∉ prio_list node :: (prio_list <$> ns)) /\ prio_list node ∉ h :: (node_list <$> ns).
Proof.
  intros Hnd. destruct (pfoot_disj _ _ Hnd) as [Dh Dn].
  apply pfoot_NoDup, NoDup_cons in Hnd as [Hf _]. split_and!.
  - apply not_elem_of_cons. split; [apply Dh; constructor|].
    intros (m & E%(inj node_list) & Hm)%list_elem_of_fmap. congruence.
  - intros (m & E%(inj prio_list) & Hm)%list_elem_of_fmap. congruence.
  - change (prio_list node :: (prio_list <$> ns)) with (prio_list <$> node :: ns).
    intros (m & E & Hm)%list_elem_of_fmap. apply (Dn node m); [constructor|done|done].
  - apply not_elem_of_cons. split; [apply Dh; constructor|].
    intros (m & E & Hm)%list_elem_of_fmap. apply (Dn m node); [by constructor|constructor|done].
Qed.

(** Where [plist_add] found the place, it links the node into both rings. *)
Lemma add_new_ok h a b node p s :
  a ++ b <> [] -> pinv h (a ++ b) s -> detached node s -> prios s !! node = Some p ->
  Forall (fun g => g_prio g < p) a -> Forall (fun g => p < g_prio g) b ->
  NoDup (pfoot h (node :: flat (a ++ b))) ->
  exists s', (on_links (list_add_tail (prio_list node) (prio_list (hd 0 (leads (b ++ a)))));;
     on_links (list_add_tail (node_list node) (hd h (node_list <$> leads b)))) s = Ok (tt, s') /\
    pinv h (a ++ mk_group p node [] :: b) s' /\ prios s' = prios s /\
    changes (pfoot h (node :: flat (a ++ b))) (links s) (links s').
Proof.
  intros Hne HI Hdt Hp Ha Hb Hnd. destruct (pfoot_fresh _ _ _ Hnd) as (F1 & F2 & F3 & F4).
  assert (prio_list <$> leads (a ++ b) ⊆ prio_list <$> flat (a ++ b)) as Hsub.
  { intros x (m & -> & Hm)%list_elem_of_fmap. apply list_elem_of_fmap_2. by apply leads_flat. }
  pose proof (pi_prios _ _ _ HI) as Hc. rewrite leads_app, fmap_app in Hc.
  destruct (add_between_ok (links s) (prio_list 0) (prio_list <$> leads a) (prio_list <$> leads b)
    (prio_list node)) as (L1 & E1 & Hc1 & Hch1); [|done| | |].
  { destruct a, b; done. }
  { rewrite <- fmap_app, <- leads_app. auto. }
  { apply (circle_Some _ [prio_list node]); [apply Hdt|set_solver]. }
  replace (hd (prio_list 0) _) with (prio_list (hd 0 (leads (b ++ a)))) in E1
    by (rewrite leads_app, <- fmap_app; by destruct (leads b ++ leads a)).
  rewrite (bind_step _ _ _ _ _ (on_links_ok _ _ _ _ E1)).
  assert (circle L1 (h :: (node_list <$> flat a) ++ (node_list <$> flat b))) as Hcn.
  { rewrite <- fmap_app, <- flat_app. apply (circle_changes _ _ _ _ Hch1 (pi_nodes _ _ _ HI)).
    rewrite <- fmap_app, <- leads_app.
    destruct (pfoot_disj _ _ (pi_addr _ _ _ HI)) as [Dh Dn].
    intros x Hx. apply not_elem_of_cons. split; [intros ->; done|]. intros Hin. apply Hsub in Hin.
    apply list_elem_of_fmap in Hin as (m & -> & Hm). apply elem_of_cons in Hx as [Hx|Hx].
    - by apply (Dh m).
    - apply list_elem_of_fmap in Hx as (k & E & Hk). by apply (Dn k m). }
  destruct (add_before_ok L1 h (node_list <$> flat a) (node_list <$> flat b) (node_list node))
    as (L2 & E2 & Hc2 & Hch2); [done|by rewrite <- fmap_app, <- flat_app| |].
  { apply (changes_Some _ _ _ _ Hch1), (circle_Some _ [node_list node]); [apply Hdt|set_solver]. }
  rewrite hd_leads_flat in E2. rewrite (on_links_ok _ (mk_pheap L1 (prios s)) _ _ E2).
  rewrite <- fmap_app, <- leads_app in Hch1. rewrite <- fmap_app, <- flat_app in Hch2.
  eexists. split; [reflexivity|]. split; [|split; [done|]].
  - apply (insert_new h a b node p s L2); [done..| |].
    + rewrite fmap_app. apply (circle_changes _ _ _ _ Hch2 Hc1).
      intros x Hx. assert (x ∈ prio_list <$> node :: flat (a ++ b)) as Hx'.
      { rewrite leads_app, fmap_app in Hsub. clear -Hx Hsub. set_solver. }
      destruct (pfoot_disj _ _ Hnd) as [Dh Dn]. apply list_elem_of_fmap in Hx' as (m & -> & Hm).
      rewrite !not_elem_of_cons. split_and!.
      * intros E. apply (Dn node m); [constructor|done|done].
      * by apply Dh.
      * intros (k & E & Hk)%list_elem_of_fmap. apply (Dn k m); [by constructor|done|done].
    + apply (changes_trans _ _ L1); eapply changes_mono; [|done| |done]; set_solver.
  - simpl. apply (changes_trans _ _ L1); eapply changes_mono; [|done| |done]; unfold pfoot;
      [clear -Hsub|clear]; set_solver.
Qed.

Lemma add_join_ok h a g b node s :
  pinv h (a ++ g :: b) s -> detached node s -> prios s !! node = Some (g_prio g) ->
  NoDup (pfoot h (node :: flat (a ++ g :: b))) ->
  exists s', on_links (list_add_tail (node_list node) (hd h (node_list <$> leads b))) s = Ok (tt, s') /\
    pinv h (a ++ mk_group (g_prio g) (g_lead g) (g_rest g ++ [node]) :: b) s' /\ prios s' = prios s /\
    changes (pfoot h (node :: flat (a ++ g :: b))) (links s) (links s').
Proof.
  intros HI Hdt Hp Hnd. destruct (pfoot_fresh _ _ _ Hnd) as (F1 & _ & _ & _).
  assert (flat (a ++ g :: b) = flat (a ++ [g]) ++ flat b) as Hold by flats.
  pose proof (pi_nodes _ _ _ HI) as Hc. rewrite Hold, fmap_app in Hc, F1.
  destruct (add_before_ok (links s) h (node_list <$> flat (a ++ [g])) (node_list <$> flat b)
    (node_list node)) as (L' & E & Hc' & Hch); [done|done| |].
  { apply (circle_Some _ [node_list node]); [apply Hdt|set_solver]. }
  rewrite hd_leads_flat in E. rewrite (on_links_ok _ _ _ _ E). rewrite <- fmap_app, <- Hold in Hch.
  eexists. split; [reflexivity|]. split; [by apply insert_join|]. split; [done|].
  eapply changes_mono; [|done]. unfold pfoot. clear. set_solver.
Qed.

Lemma plist_add_ok fuel node h gs s :
  pinv h gs s -> detached node s -> NoDup (pfoot h (node :: flat gs)) -> (length gs <= fuel)%nat ->
  exists gs' s', plist_add fuel node h s = Ok (tt, s') /\ pinv h gs' s' /\
    flat gs' = pins (prio_of s) node (flat gs) /\ prios s' = prios s /\
    changes (pfoot h (node :: flat gs)) (links s) (links s').
Proof.
  intros HI Hdt Hnd Hf. destruct (dt_val _ _ Hdt) as [p Hp].
  assert (prio_of s node = p) as Hpr by (unfold prio_of; by rewrite Hp).
  unfold plist_add, plist_head_empty.
  rewrite (bind_step _ _ _ _ _ (on_links_same _ _ _ (list_empty_ok _ _ _ (pi_nodes _ _ _ HI)))).
  destruct gs as [|g gs].
  { simpl. destruct (list_add_tail_ok (links s) (node_list node) h [] (pi_nodes _ _ _ HI))
      as (L' & E & Hc & Hch).
    { by apply (pfoot_fresh _ _ _ Hnd). }
    { apply (circle_Some _ [node_list node]); [apply Hdt|set_solver]. }
    exists [mk_group p node []]. eexists. rewrite (on_links_ok _ _ _ _ E). split; [done|].
    split; [|split; [done|split; [done|eapply changes_mono; [|done]; unfold pfoot; set_solver]]].
    apply (insert_new h [] [] node p s L'); [done..| |eapply changes_mono; [|done]; set_solver].
    apply (circle_changes _ _ _ _ Hch (dt_prio _ _ Hdt)). intros x ->%list_elem_of_singleton.
    destruct (pfoot_fresh _ _ _ Hnd) as (_ & _ & F3 & F4). set_solver. }
  rewrite bool_decide_false by done. cbv beta iota.
  unfold plist_first. pose proof (circle_next _ _ _ (pi_nodes _ _ _ HI)) as En. simpl in En.
  rewrite (bind_step _ _ _ (g_lead g) s) by (rewrite (bind_step _ _ _ _ _ (on_links_same _ _ _
    (get_next_ok _ _ _ En))), of_node_list_node_list; done).
  destruct (add_loop_ok h node p s gs [] g fuel) as (a & b & E & Ha & Hb & Er);
    [done|done|constructor|simpl in Hf; lia|]. simpl in Er, E.
  rewrite (bind_step _ _ _ _ _ Er). rewrite E in HI, Hnd |- *.
  pose proof (flat_prios (fun q => q <= p) h a (a ++ b) s HI ltac:(set_solver) Ha) as Fa.
  pose proof (flat_prios (fun q => p < q) h b (a ++ b) s HI ltac:(set_solver) Hb) as Fb.
  rewrite <- Hpr in Fa, Fb. pose proof (pins_split _ _ _ _ Fa Fb) as Hpins.
  rewrite flat_app, Hpins, <- flat_app.
  destruct a as [|g' a _] using rev_ind.
  { simpl List.last. rewrite Z.eqb_refl, (bind_step _ _ _ _ _ (mret_ok true s)).
    destruct (add_new_ok h [] b node p s) as (s' & E' & HI' & Hps & Hch); [by rewrite <- E|done..|].
    exists ([] ++ mk_group p node [] :: b), s'. split; [exact E'|done]. }
  assert (List.last (leads (a ++ [g'])) 0 = g_lead g') as El
    by (unfold leads; rewrite fmap_app; apply List.last_last).
  rewrite El. assert (g_lead g' <> 0) as Hnz.
  { intros E0. apply (pi_nonzero _ _ _ HI). rewrite <- E0. apply leads_flat.
    rewrite !leads_app. set_solver. }
  rewrite (proj2 (Z.eqb_neq _ _) Hnz).
  assert (prios s !! g_lead g' = Some (g_prio g')) as Hg'.
  { apply (pi_val _ _ _ HI g'); [set_solver|constructor]. }
  rewrite (bind_step _ _ _ (negb (g_prio g' =? p)) s)
    by (by rewrite (bind_step _ _ _ _ _ (get_prio_ok _ _ _ Hg')), (bind_step _ _ _ _ _ (get_prio_ok _ _ _ Hp))).
  destruct (Z.eqb_spec (g_prio g') p) as [Heq|Hneq].
  - rewrite <- Heq in Hp. rewrite <- app_assoc in HI, Hnd |- *. simpl app in *.
    destruct (add_join_ok h a g' b node s) as (s' & E' & HI' & Hps & Hch); [done..|].
    eexists _, s'. split; [exact E'|]. split; [exact HI'|]. split; [flats|done].
  - destruct (add_new_ok h (a ++ [g']) b node p s) as (s' & E' & HI' & Hps & Hch); [by destruct a|done..| |done|done|].
    { rewrite list.Forall_forall in Ha |- *. intros g0 Hg0. pose proof (Ha g0 Hg0).
      enough (g_prio g0 <> p) by lia. intros <-. apply elem_of_app in Hg0 as [Hg0|Hg0]; [|set_solver].
      pose proof (pi_sorted _ _ _ HI) as Hso. rewrite fmap_app in Hso.
      apply StronglySorted_app in Hso as (_ & Hso & _). rewrite fmap_app in Hso.
      apply StronglySorted_app in Hso as (Hso & _ & _).
      assert (g_prio g0 < g_prio g') by (apply Hso; [by apply list_elem_of_fmap_2|set_solver]).
      pose proof (Ha g' ltac:(set_solver)). lia. }
    eexists _, s'. split; [exact E'|]. split; [exact HI'|]. split; [flats|done].
Qed.

(** ** [plist_del] *)

Lemma prem_out node l : node ∉ l -> prem node l = l.
Proof.
  induction l as [|x l IH]; [done|]. rewrite not_elem_of_cons. intros [Hx Hl].
  unfold prem. rewrite filter_cons_True by congruence. f_equal. by apply IH.
Qed.

Lemma prem_split node l1 l2 : NoDup (l1 ++ node :: l2) -> prem node (l1 ++ node :: l2) = l1 ++ l2.
Proof.
  intros (_ & H1 & [H2 _]%NoDup_cons)%NoDup_app.
  assert (node ∉ l1) by (intros Hin; apply (H1 _ Hin); constructor). unfold prem. rewrite filter_app, filter_cons_False by (intros Hf; by apply Hf).
  fold (prem node l1) (prem node l2). by rewrite !prem_out.
Qed.

(** What removing [node] from the priority ring must leave. *)
Record unprio (h : Z) (gs gs' : list group) (node : Z) (s : pheap) (L : gmap Z list_head) : Prop := {
  up_flat : flat gs' = prem node (flat gs);
  up_val : forall g n, g ∈ gs' -> n ∈ members g -> prios s !! n = Some (g_prio g);
  up_sorted : StronglySorted Z.lt (g_prio <$> gs');
  up_node : circle L [prio_list node];
  up_leads : circle L (prio_list <$> leads gs');
  up_rest : forall g n, g ∈ gs' -> n ∈ g_rest g -> circle L [prio_list n];
  up_changes : changes (prio_list <$> flat gs) (links s) L }.

Definition del_prio (node head : Z) : M pheap unit :=
  alone ← on_links (list_empty (prio_list node));
  mwhen (negb alone)
    (nn ← on_links (get_next (node_list node));
     mwhen (negb (nn =? head))
       (let next := of_node_list nn in
        e ← on_links (list_empty (prio_list next));
        mwhen e (on_links (list_add (prio_list next) (prio_list node))));;
     on_links (list_del_init (prio_list node))).

Lemma plist_del_eq node head s :
  plist_del node head s = (del_prio node head;; on_links (list_del_init (node_list node))) s.
Proof.
  unfold plist_del, del_prio, mbind, M_bind.
  by destruct (on_links (list_empty (prio_list node)) s) as [[alone s1]|f].
Qed.

(** A node that does not lead its priority is on no priority ring. *)
Lemma del_prio_rest h a g r1 node r2 b s :
  g_rest g = r1 ++ node :: r2 -> pinv h (a ++ g :: b) s ->
  exists gs' L, del_prio node h s = Ok (tt, mk_pheap L (prios s)) /\
    unprio h (a ++ g :: b) gs' node s L.
Proof.
  intros Hr HI. exists (a ++ mk_group (g_prio g) (g_lead g) (r1 ++ r2) :: b), (links s).
  assert (circle (links s) [prio_list node]) as Hc by (apply (pi_rest _ _ _ HI g); [|rewrite Hr]; set_solver).
  unfold del_prio. rewrite (bind_step _ _ _ _ _ (on_links_same _ _ _ (list_empty_ok _ _ _ Hc))).
  split; [by destruct s|]. pose proof (pinv_NoDup _ _ _ HI) as Hnd.
  assert (flat (a ++ g :: b) = (flat a ++ g_lead g :: r1) ++ node :: (r2 ++ flat b)) as Hf.
  { rewrite flat_app, flat_cons. unfold members. rewrite Hr. repeat (simpl; rewrite <- app_assoc). done. }
  split.
  - rewrite Hf in Hnd |- *. rewrite prem_split by done.
    rewrite flat_app, flat_cons. unfold members. repeat (simpl; rewrite <- app_assoc). done.
  - intros g' n [Hg|[->|Hg]%elem_of_cons]%elem_of_app Hn.
    + apply (pi_val _ _ _ HI g'); set_solver.
    + apply (pi_val _ _ _ HI g); [set_solver|]. unfold members in *. rewrite Hr. simpl in *. set_solver.
    + apply (pi_val _ _ _ HI g'); set_solver.
  - pose proof (pi_sorted _ _ _ HI) as Hso. rewrite fmap_app in *. done.
  - done.
  - pose proof (pi_prios _ _ _ HI) as Hp. rewrite leads_app in *. done.
  - intros g' n [Hg|[->|Hg]%elem_of_cons]%elem_of_app Hn.
    + apply (pi_rest _ _ _ HI g'); set_solver.
    + apply (pi_rest _ _ _ HI g); [set_solver|]. rewrite Hr. simpl in Hn. set_solver.
    + apply (pi_rest _ _ _ HI g'); set_solver.
  - apply changes_refl.
Qed.

Lemma leads_split h a g b s : pinv h (a ++ g :: b) s ->
  circle (links s) (prio_list (g_lead g) :: (prio_list <$> leads b) ++ (prio_list <$> leads a)).
Proof.
  intros HI. pose proof (pi_prios _ _ _ HI) as Hp. rewrite leads_app, fmap_app in Hp.
  by apply circle_rotate in Hp.
Qed.

Lemma sorted_drop a g b : StronglySorted Z.lt (g_prio <$> a ++ g :: b) ->
  StronglySorted Z.lt (g_prio <$> a ++ b).
Proof.
  rewrite !fmap_app. intros (H1 & H2 & H3)%StronglySorted_app. apply StronglySorted_app.
  simpl in *. apply StronglySorted_cons in H3 as [_ H3]. split_and!; [set_solver|done|done].
Qed.

(** The first node of a priority, when there is no other priority. *)
Lemma del_prio_single h g s : pinv h [g] s ->
  exists gs' L, del_prio (g_lead g) h s = Ok (tt, mk_pheap L (prios s)) /\ unprio h [g] gs' (g_lead g) s L.
Proof.
  intros HI. pose proof (leads_split h [] g [] s HI) as Hc. pose proof (pinv_NoDup _ _ _ HI) as Hnd.
  exists (match g_rest g with [] => [] | n :: r => [mk_group (g_prio g) n r] end), (links s).
  unfold del_prio. rewrite (bind_step _ _ _ _ _ (on_links_same _ _ _ (list_empty_ok _ _ _ Hc))).
  split; [by destruct s|]. unfold flat, members in *. simpl in *. rewrite app_nil_r in *.
  apply NoDup_cons in Hnd as [Hl Hnd]. split.
  - unfold flat, members. simpl. rewrite app_nil_r. change (g_lead g :: g_rest g) with ([] ++ g_lead g :: g_rest g). rewrite prem_split by (by constructor).
    destruct (g_rest g); [done|]. simpl. by rewrite app_nil_r.
  - intros g' n Hg Hn. destruct (g_rest g) as [|n2 r] eqn:Hr; [set_solver|].
    apply list_elem_of_singleton in Hg as ->. apply (pi_val _ _ _ HI g); [set_solver|].
    unfold members in *. rewrite Hr. simpl in *. set_solver.
  - destruct (g_rest g); repeat constructor.
  - done.
  - destruct (g_rest g) as [|n2 r] eqn:Hr; [done|]. simpl. apply (pi_rest _ _ _ HI g); [|rewrite Hr]; set_solver.
  - intros g' n Hg Hn. destruct (g_rest g) as [|n2 r] eqn:Hr; [set_solver|].
    apply list_elem_of_singleton in Hg as ->. apply (pi_rest _ _ _ HI g); [set_solver|].
    rewrite Hr. simpl in Hn. set_solver.
  - apply changes_refl.
Qed.

(** The only node of its priority leaves the ring. *)
Lemma del_prio_alone h a g b s : g_rest g = [] -> a ++ b <> [] -> pinv h (a ++ g :: b) s ->
  exists gs' L, del_prio (g_lead g) h s = Ok (tt, mk_pheap L (prios s)) /\
    unprio h (a ++ g :: b) gs' (g_lead g) s L.
Proof.
  intros Hr Hab HI. exists (a ++ b). pose proof (leads_split _ _ _ _ _ HI) as Hc.
  pose proof (pinv_NoDup _ _ _ HI) as Hnd. pose proof (pi_null _ _ _ HI) as H0.
  assert (flat (a ++ g :: b) = flat a ++ g_lead g :: flat b) as Hf
    by (rewrite flat_app, flat_cons; unfold members; by rewrite Hr).
  destruct (list_del_init_ok _ _ _ H0 Hc) as (L & E & Hcl & Hcn & Hch).
  apply circle_rotate in Hcl. rewrite <- fmap_app, <- leads_app in Hcl.
  assert (changes (prio_list <$> leads (a ++ g :: b)) (links s) L) as Hch'.
  { eapply changes_mono; [|done]. rewrite leads_app, fmap_app. simpl. set_solver. }
  exists L. split.
  - unfold del_prio. rewrite (bind_step _ _ _ _ _ (on_links_same _ _ _ (list_empty_ok _ _ _ Hc))).
    rewrite bool_decide_false by (by destruct a, b). cbn [negb mwhen].
    assert (nx (links s) (node_list (g_lead g)) = Some (hd h (node_list <$> flat b))) as En.
    { pose proof (pi_nodes _ _ _ HI) as Hn. rewrite Hf, fmap_app in Hn. simpl in Hn.
      pose proof (circle_next _ _ _ (circle_at _ _ _ _ _ Hn)) as En. rewrite En. by destruct b. }
    rewrite (bind_step _ _ _ _ _ (on_links_same _ _ _ (get_next_ok _ _ _ En))).
    rewrite (bind_step _ _ _ tt s); [by rewrite (on_links_ok _ _ _ _ E)|].
    destruct b as [|g2 b]; [simpl; by rewrite Z.eqb_refl|]. simpl hd.
    destruct (pfoot_disj _ _ (pi_addr _ _ _ HI)) as [Dh _].
    rewrite (proj2 (Z.eqb_neq _ _)) by (apply Dh; rewrite Hf; unfold flat; simpl; set_solver).
    cbn [negb mwhen]. rewrite of_node_list_node_list.
    replace (a ++ g :: g2 :: b) with ((a ++ [g]) ++ g2 :: b) in HI by (by rewrite <- app_assoc).
    rewrite (bind_step _ _ _ _ _ (on_links_same _ _ _ (list_empty_ok _ _ _ (leads_split _ _ _ _ _ HI)))).
    rewrite bool_decide_false; [done|]. rewrite leads_app, fmap_app. simpl.
    intros [_ [_ Hnil]%app_nil]%app_nil. done.
  - split.
    + rewrite Hf in Hnd |- *. rewrite prem_split by done. apply flat_app.
    + intros g' n Hg Hn. apply (pi_val _ _ _ HI g'); set_solver.
    + apply (sorted_drop a g b), HI.
    + done.
    + done.
    + intros g' n Hg Hn. apply (circle_changes _ _ _ _ Hch'); [apply (pi_rest _ _ _ HI g'); set_solver|].
      intros x ->%list_elem_of_singleton (m & E1%(inj prio_list) & Hm)%list_elem_of_fmap. subst m.
      revert Hm. apply (rest_not_lead _ g'); [done|set_solver|done].
    + eapply changes_mono; [|done]. intros x (m & -> & Hm)%list_elem_of_fmap.
      apply list_elem_of_fmap_2. by apply leads_flat.
Qed.

(** The first of several nodes of a priority hands its place to the next. *)
Lemma del_prio_handover h a g n2 r b s : g_rest g = n2 :: r -> a ++ b <> [] -> pinv h (a ++ g :: b) s ->
  exists gs' L, del_prio (g_lead g) h s = Ok (tt, mk_pheap L (prios s)) /\
    unprio h (a ++ g :: b) gs' (g_lead g) s L.
Proof.
  intros Hr Hab HI. exists (a ++ mk_group (g_prio g) n2 r :: b).
  pose proof (leads_split _ _ _ _ _ HI) as Hc.
  pose proof (pinv_NoDup _ _ _ HI) as Hnd. pose proof (pi_null _ _ _ HI) as H0.
  assert (n2 ∉ leads (a ++ g :: b)) as Hn2.
  { apply (rest_not_lead _ g); [done|set_solver|rewrite Hr; set_solver]. }
  assert (flat (a ++ g :: b) = flat a ++ g_lead g :: n2 :: r ++ flat b) as Hf
    by (rewrite flat_app, flat_cons; unfold members; rewrite Hr; flats).
  assert (circle (links s) [prio_list n2]) as Hcn2 by (apply (pi_rest _ _ _ HI g); [|rewrite Hr]; set_solver).
  destruct (list_add_ok _ (prio_list n2) _ _ Hc) as (L1 & E1 & Hc1 & Hch1).
  { rewrite <- fmap_app. intros [E%(inj prio_list)|(m & E%(inj prio_list) & Hm)%list_elem_of_fmap]%elem_of_cons;
      subst; apply Hn2; rewrite leads_app; simpl; set_solver. }
  { apply (circle_Some _ _ _ Hcn2). set_solver. }
  destruct (list_del_init_ok L1 _ _ (changes_null _ _ _ Hch1 H0) Hc1) as (L & E & Hcl & Hcn & Hch).
  apply (circle_rotate L (prio_list n2 :: (prio_list <$> leads b))) in Hcl.
  assert (changes (prio_list <$> n2 :: leads (a ++ g :: b)) (links s) L) as Hch'.
  { apply (changes_trans _ _ L1); eapply changes_mono; [|done| |done]; rewrite leads_app; simpl;
      rewrite fmap_app; simpl; set_solver. }
  exists L. split.
  - unfold del_prio. rewrite (bind_step _ _ _ _ _ (on_links_same _ _ _ (list_empty_ok _ _ _ Hc))).
    rewrite bool_decide_false by (by destruct a, b). cbn [negb mwhen].
    assert (nx (links s) (node_list (g_lead g)) = Some (node_list n2)) as En.
    { pose proof (pi_nodes _ _ _ HI) as Hn. rewrite Hf, fmap_app in Hn. simpl in Hn.
      by pose proof (circle_next _ _ _ (circle_at _ _ _ _ _ Hn)). }
    rewrite (bind_step _ _ _ _ _ (on_links_same _ _ _ (get_next_ok _ _ _ En))).
    destruct (pfoot_disj _ _ (pi_addr _ _ _ HI)) as [Dh _].
    rewrite (proj2 (Z.eqb_neq _ _)) by (apply Dh; rewrite Hf; set_solver).
    cbn [negb mwhen]. rewrite of_node_list_node_list.
    rewrite (bind_step _ _ _ tt (mk_pheap L1 (prios s)));
      [by rewrite (on_links_ok _ (mk_pheap L1 (prios s)) _ _ E)|].
    rewrite (bind_step _ _ _ _ _ (on_links_same _ _ _ (list_empty_ok _ _ _ Hcn2))).
    rewrite bool_decide_true by done. cbn [mwhen]. by apply on_links_ok.
  - split.
    + rewrite Hf in Hnd |- *. rewrite prem_split by done. flats.
    + intros g' n [Hg|[->|Hg]%elem_of_cons]%elem_of_app Hn; [apply (pi_val _ _ _ HI g'); set_solver| |
        apply (pi_val _ _ _ HI g'); set_solver].
      apply (pi_val _ _ _ HI g); [set_solver|]. unfold members in *. rewrite Hr. by constructor.
    + pose proof (pi_sorted _ _ _ HI) as Hso. rewrite fmap_app in *. done.
    + done.
    + rewrite leads_app, fmap_app. done.
    + intros g' n Hg Hn. apply (circle_changes _ _ _ _ Hch').
      * apply elem_of_app in Hg as [Hg|[->|Hg]%elem_of_cons];
          [apply (pi_rest _ _ _ HI g'); set_solver| |apply (pi_rest _ _ _ HI g'); set_solver].
        apply (pi_rest _ _ _ HI g); [set_solver|]. rewrite Hr. by constructor.
      * intros x ->%list_elem_of_singleton (m & E2%(inj prio_list) & Hm)%list_elem_of_fmap. subst m.
        assert (NoDup (flat (a ++ mk_group (g_prio g) n2 r :: b))) as Hnd'.
        { rewrite Hf in Hnd. apply NoDup_app in Hnd as (N1 & N2 & N3).
          apply NoDup_cons in N3 as [N4 N3]. rewrite flat_app, flat_cons. apply NoDup_app.
          split; [done|]. split; [|done]. intros y Hy Hy'. apply (N2 y Hy). by constructor. }
        pose proof (rest_not_lead _ g' n Hnd' Hg Hn) as Hnl. rewrite leads_app in Hnl. simpl in Hnl.
        assert (n = g_lead g) as ->.
        { rewrite leads_app in Hm. simpl in Hm. set_solver. }
        assert (g_lead g ∈ flat (a ++ mk_group (g_prio g) n2 r :: b)) as Hin
          by (apply elem_of_flat; exists g'; split; [done|by constructor]).
        rewrite Hf in Hnd. apply NoDup_app in Hnd as (_ & N2 & N3). apply NoDup_cons in N3 as [N4 _].
        rewrite flat_app, flat_cons in Hin. apply elem_of_app in Hin as [Hin|Hin]; [|done].
        apply (N2 _ Hin). constructor.
    + eapply changes_mono; [|done]. intros x (m & -> & Hm)%list_elem_of_fmap.
      apply list_elem_of_fmap_2. apply elem_of_cons in Hm as [->|Hm]; [|by apply leads_flat].
      rewrite Hf. set_solver.
Qed.

Lemma del_prio_ok h gs node s : pinv h gs s -> node ∈ flat gs ->
  exists gs' L, del_prio node h s = Ok (tt, mk_pheap L (prios s)) /\ unprio h gs gs' node s L.
Proof.
  intros HI (g & Hg & Hn)%elem_of_flat. apply list_elem_of_split in Hg as (a & b & ->).
  apply elem_of_cons in Hn as [->|Hn].
  - destruct (decide (a ++ b = [])) as [[-> ->]%app_nil|Hne].
    + by apply del_prio_single.
    + destruct (g_rest g) as [|n2 r] eqn:Hr; [by apply del_prio_alone|by apply (del_prio_handover _ _ _ n2 r)].
  - apply list_elem_of_split in Hn as (r1 & r2 & Hr). by apply (del_prio_rest _ _ _ r1 _ r2).
Qed.

Lemma plist_del_ok h gs node s : pinv h gs s -> node ∈ flat gs ->
  exists gs' s', plist_del node h s = Ok (tt, s') /\ pinv h gs' s' /\
    flat gs' = prem node (flat gs) /\ detached node s' /\ prios s' = prios s /\
    changes (pfoot h (flat gs)) (links s) (links s').
Proof.
  intros HI Hin. destruct (del_prio_ok h gs node s HI Hin) as (gs' & L1 & E1 & [U1 U2 U3 U4 U5 U6 U7]).
  rewrite plist_del_eq, (bind_step _ _ _ _ _ E1).
  pose proof (pinv_NoDup _ _ _ HI) as Hndf. pose proof (pi_addr _ _ _ HI) as Hnd.
  destruct (pfoot_disj _ _ Hnd) as [Dh Dn].
  destruct (list_elem_of_split _ _ Hin) as (l1 & l2 & Hf).
  assert (circle L1 (h :: (node_list <$> l1) ++ node_list node :: (node_list <$> l2))) as Hc1.
  { pose proof (pi_nodes _ _ _ HI) as Hn. rewrite Hf, fmap_app in Hn.
    apply (circle_changes _ _ _ _ U7 Hn). intros x Hx (m & -> & Hm)%list_elem_of_fmap.
    apply elem_of_cons in Hx as [Hx|Hx]; [by apply (Dh m)|].
    change (prio_list m ∈ (node_list <$> l1) ++ (node_list <$> node :: l2)) in Hx.
    rewrite <- fmap_app, <- Hf in Hx.
    apply list_elem_of_fmap in Hx as (k & E & Hk). by apply (Dn k m). }
  apply circle_at in Hc1. pose proof (changes_null _ _ _ U7 (pi_null _ _ _ HI)) as H0.
  destruct (list_del_init_ok L1 _ _ H0 Hc1) as (L2 & E2 & Hc2 & Hn2 & Hch2).
  apply circle_from in Hc2. rewrite <- fmap_app in Hc2.
  rewrite Hf in Hndf. pose proof (prem_split _ _ _ Hndf) as Hprem. rewrite <- Hf in Hndf, Hprem.
  rewrite <- Hprem, <- U1 in Hc2.
  assert (forall n, n ∈ flat gs -> prio_list n ∉ node_list node :: (node_list <$> l2) ++ h :: (node_list <$> l1))
    as Hout.
  { intros n Hn. rewrite <- Permutation_middle.
    change (prio_list n ∉ node_list node :: h :: (node_list <$> l2) ++ (node_list <$> l1)).
    rewrite <- fmap_app, !not_elem_of_cons. split_and!.
    - intros E. by apply (Dn node n).
    - by apply Dh.
    - intros (k & E & Hk)%list_elem_of_fmap. apply (Dn k n); [rewrite Hf; set_solver|done|done]. }
  assert (flat gs' ⊆ flat gs) as Hsub by (rewrite U1, Hprem, Hf; set_solver).
  assert (NoDup (flat gs')) as Hnd'.
  { rewrite U1. apply NoDup_filter. done. }
  eexists gs', _. split; [by rewrite (on_links_ok _ (mk_pheap L1 (prios s)) _ _ E2)|]. split; [|split; [done|]].
  - split; simpl.
    + by apply (changes_null _ _ _ Hch2).
    + intros H. by apply (pi_nonzero _ _ _ HI), Hsub.
    + done.
    + apply (circle_changes _ _ _ _ Hch2 U5). intros x (m & -> & Hm)%list_elem_of_fmap.
      by apply Hout, Hsub, leads_flat.
    + intros g n Hg Hn. apply (circle_changes _ _ _ _ Hch2 (U6 g n Hg Hn)).
      intros x ->%list_elem_of_singleton. apply Hout, Hsub, elem_of_flat. exists g. split; [done|by constructor].
    + done.
    + done.
    + apply (pfoot_drop _ node). apply (pfoot_perm _ (flat gs)); [|done].
      rewrite U1, Hprem, Hf. symmetry. apply Permutation_middle.
  - split; [|split; [done|]].
    + split; simpl; [intros ->; by apply (pi_nonzero _ _ _ HI)|done| |].
      * apply (circle_changes _ _ _ _ Hch2 U4). intros x ->%list_elem_of_singleton. by apply Hout.
      * apply elem_of_flat in Hin as (g & Hg & Hn). rewrite (pi_val _ _ _ HI g node Hg Hn). eauto.
    + simpl. apply (changes_trans _ _ L1); eapply changes_mono; [|done| |done]; unfold pfoot.
      * set_solver.
      * rewrite Hf, fmap_app. simpl. clear. set_solver.
Qed.

(** ** [plist_requeue] *)

Lemma node_list_of_node_list p : node_list (of_node_list p) = p.
Proof. unfold node_list, of_node_list. lia. Qed.

Lemma plist_next_ok h gs l1 n l2 s : pinv h gs s -> flat gs = l1 ++ n :: l2 ->
  plist_next n s = Ok (of_node_list (hd h (node_list <$> l2)), s).
Proof.
  intros HI Hf. pose proof (pi_nodes _ _ _ HI) as Hc. rewrite Hf, fmap_app in Hc. simpl in Hc.
  pose proof (circle_next _ _ _ (circle_at _ _ _ _ _ Hc)) as En. unfold plist_next.
  rewrite (bind_step _ _ _ _ _ (on_links_same _ _ _ (get_next_ok _ _ _ En))). by destruct l2.
Qed.

Lemma requeue_loop_ok h a g b node s y : forall x fuel,
  pinv h (a ++ g :: b) s -> prios s !! node = Some (g_prio g) -> members g = x ++ y ->
  (length y < fuel)%nat ->
  requeue_loop node (of_node_list (hd h (node_list <$> y ++ flat b))) h h fuel s =
    Ok (hd h (node_list <$> leads b), s).
Proof.
  induction y as [|n y IH]; intros x fuel HI Hp Hm Hf; (destruct fuel as [|fuel]; [simpl in Hf; lia|]);
    cbn [requeue_loop]; rewrite node_list_of_node_list.
  - change ([] ++ flat b) with (flat b). destruct b as [|g2 b]; [simpl; by rewrite Z.eqb_refl|].
    destruct (pfoot_disj _ _ (pi_addr _ _ _ HI)) as [Dh _].
    assert (g_lead g2 ∈ flat (a ++ g :: g2 :: b)) as Hin
      by (apply leads_flat; rewrite leads_app; simpl; set_solver).
    change (hd h (node_list <$> flat (g2 :: b))) with (node_list (g_lead g2)).
    rewrite (proj2 (Z.eqb_neq _ _)) by (by apply Dh).
    rewrite (bind_step _ _ _ _ _ (get_prio_ok _ _ _ Hp)). rewrite of_node_list_node_list.
    assert (prios s !! g_lead g2 = Some (g_prio g2)) as Hp2
      by (apply (pi_val _ _ _ HI g2); [set_solver|constructor]).
    rewrite (bind_step _ _ _ _ _ (get_prio_ok _ _ _ Hp2)).
    pose proof (sorted_after _ _ _ (pi_sorted _ _ _ HI)) as Hso. inversion Hso; subst.
    rewrite (proj2 (Z.eqb_neq _ _)) by lia. done.
  - assert (flat (a ++ g :: b) = (flat a ++ x) ++ n :: y ++ flat b) as Hfl
      by (rewrite flat_app, flat_cons, Hm; repeat (simpl; rewrite <- app_assoc); done).
    destruct (pfoot_disj _ _ (pi_addr _ _ _ HI)) as [Dh _].
    change (hd h (node_list <$> (n :: y) ++ flat b)) with (node_list n).
    rewrite (proj2 (Z.eqb_neq _ _)) by (apply Dh; rewrite Hfl; set_solver).
    rewrite (bind_step _ _ _ _ _ (get_prio_ok _ _ _ Hp)). rewrite of_node_list_node_list.
    assert (prios s !! n = Some (g_prio g)) as Hp2 by (apply (pi_val _ _ _ HI g); [|rewrite Hm]; set_solver).
    rewrite (bind_step _ _ _ _ _ (get_prio_ok _ _ _ Hp2)), Z.eqb_refl. cbn [negb].
    rewrite (bind_step _ _ _ _ _ (plist_next_ok _ _ _ _ _ _ HI Hfl)).
    apply (IH (x ++ [n])); [done|done|by rewrite <- app_assoc|simpl in Hf; lia].
Qed.

Lemma flat_sorted h gs s : pinv h gs s -> StronglySorted Z.le (prio_of s <$> flat gs).
Proof.
  intros HI. pose proof (pi_sorted _ _ _ HI) as Hso. pose proof (pi_val _ _ _ HI) as Hv. clear HI.
  induction gs as [|g gs IH]; [constructor|]. rewrite flat_cons, fmap_app.
  simpl in Hso. apply StronglySorted_cons in Hso as [Hall Hso].
  assert (forall n, n ∈ members g -> prio_of s n = g_prio g) as Hg.
  { intros n Hn. unfold prio_of. by rewrite (Hv g n ltac:(set_solver) Hn). }
  apply StronglySorted_app. split_and!.
  - intros x1 x2 (n1 & -> & H1)%list_elem_of_fmap (n2 & -> & H2)%list_elem_of_fmap.
    rewrite (Hg n1 H1). apply elem_of_flat in H2 as (g2 & Hg2 & Hn2). unfold prio_of.
    rewrite (Hv g2 n2 ltac:(set_solver) Hn2). simpl. rewrite list.Forall_forall in Hall.
    apply Z.lt_le_incl, Hall. by apply list_elem_of_fmap_2.
  - revert Hg. generalize (members g). induction l as [|n l IHl]; intros Hg; [constructor|].
    simpl. apply StronglySorted_cons. split; [|apply IHl; set_solver].
    apply list.Forall_forall. intros x (m & -> & Hm)%list_elem_of_fmap.
    rewrite (Hg n), (Hg m) by set_solver. lia.
  - apply IH; [done|]. intros g' n Hg' Hn. apply Hv; [by constructor|done].
Qed.

(** A node already where it belongs. *)
Lemma pins_in_place h gs s l1 node l2 : pinv h gs s -> flat gs = l1 ++ node :: l2 ->
  Forall (fun n => prio_of s node < prio_of s n) l2 ->
  pins (prio_of s) node (prem node (flat gs)) = flat gs.
Proof.
  intros HI Hf Hl2. pose proof (pinv_NoDup _ _ _ HI) as Hnd. pose proof (flat_sorted _ _ _ HI) as Hso.
  rewrite Hf in *. rewrite prem_split by done. apply pins_split; [|done].
  rewrite fmap_app in Hso. apply StronglySorted_app in Hso as (Hx & _ & _).
  apply list.Forall_forall. intros n Hn. apply Hx; [by apply list_elem_of_fmap_2|]. simpl. constructor.
Qed.

Lemma plist_last_ok h gs l n s : pinv h gs s -> flat gs = l ++ [n] -> plist_last h s = Ok (n, s).
Proof.
  intros HI Hf. pose proof (circle_prev _ _ _ (pi_nodes _ _ _ HI)) as Ep.
  rewrite Hf, fmap_app in Ep. simpl in Ep. rewrite List.last_last in Ep. unfold plist_last.
  rewrite (bind_step _ _ _ _ _ (on_links_same _ _ _ (get_prev_ok _ _ _ Ep))).
  by rewrite of_node_list_node_list.
Qed.

(** The node goes behind the group it has just left. *)
Lemma requeue_join_ok fuel h gs1 node m l1 l2 s : pinv h gs1 s -> detached node s ->
  flat gs1 = l1 ++ m :: l2 -> prios s !! node = prios s !! m ->
  NoDup (pfoot h (node :: flat gs1)) -> (length (flat gs1) <= fuel)%nat ->
  exists gs' s', (pos ← plist_next m; node_next ← requeue_loop node pos h h fuel;
      on_links (list_add_tail (node_list node) node_next)) s = Ok (tt, s') /\ pinv h gs' s' /\
    flat gs' = pins (prio_of s) node (flat gs1) /\ prios s' = prios s /\
    changes (pfoot h (node :: flat gs1)) (links s) (links s').
Proof.
  intros HI Hdt Hf Hpm Hnd Hfuel.
  assert (m ∈ flat gs1) as (g & Hg & Hm)%elem_of_flat by (rewrite Hf; set_solver).
  rewrite (pi_val _ _ _ HI g m Hg Hm) in Hpm.
  apply list_elem_of_split in Hg as (a & b & ->). apply list_elem_of_split in Hm as (x & y & Hmem).
  assert (flat (a ++ g :: b) = (flat a ++ x) ++ m :: y ++ flat b) as Hf'
    by (rewrite flat_app, flat_cons, Hmem; repeat (simpl; rewrite <- app_assoc); done).
  rewrite (bind_step _ _ _ _ _ (plist_next_ok _ _ _ _ _ _ HI Hf')).
  rewrite (bind_step _ _ _ (hd h (node_list <$> leads b)) s).
  2:{ apply (requeue_loop_ok h a g b node s y (x ++ [m])); [done|done|by rewrite <- app_assoc|].
      rewrite Hf', !length_app in Hfuel. simpl in Hfuel. rewrite length_app in Hfuel. lia. }
  destruct (add_join_ok h a g b node s HI Hdt Hpm Hnd) as (s' & E & HI' & Hps & Hch).
  eexists _, s'. split; [exact E|]. split; [exact HI'|]. split; [|done].
  assert (prio_of s node = g_prio g) as Hpr by (unfold prio_of; by rewrite Hpm).
  pose proof (pi_sorted _ _ _ HI) as Hso.
  replace (flat (a ++ g :: b)) with (flat (a ++ [g]) ++ flat b) by flats. rewrite pins_split.
  - flats.
  - rewrite Hpr. apply (flat_prios (fun q => q <= g_prio g) h _ _ s HI); [set_solver|].
    apply Forall_app. split; [|constructor; [lia|constructor]]. apply list.Forall_forall. intros g0 Hg0.
    rewrite fmap_app in Hso. apply StronglySorted_app in Hso as (Hx & _ & _).
    apply Z.lt_le_incl, Hx; [by apply list_elem_of_fmap_2|simpl; constructor].
  - rewrite Hpr. apply (flat_prios (fun q => g_prio g < q) h _ _ s HI); [set_solver|].
    by apply (sorted_after a).
Qed.

Lemma plist_requeue_ok fuel h gs node s : pinv h gs s -> node ∈ flat gs -> (length (flat gs) <= fuel)%nat ->
  exists gs' s', plist_requeue fuel node h s = Ok (tt, s') /\ pinv h gs' s' /\
    flat gs' = pins (prio_of s) node (prem node (flat gs)) /\ prios s' = prios s /\
    changes (pfoot h (flat gs)) (links s) (links s').
Proof.
  intros HI Hin Hfuel. destruct (list_elem_of_split _ _ Hin) as (l1 & l2 & Hf).
  pose proof (pinv_NoDup _ _ _ HI) as Hnd. unfold plist_requeue.
  assert (forall n, n ∈ flat gs -> prios s !! n = Some (prio_of s n)) as Hval.
  { intros n (g & Hg & Hn)%elem_of_flat. unfold prio_of. by rewrite (pi_val _ _ _ HI g n Hg Hn). }
  destruct l2 as [|m l2].
  { rewrite (bind_step _ _ _ _ _ (plist_last_ok _ _ _ _ _ HI Hf)), Z.eqb_refl.
    exists gs, s. split; [done|]. split; [done|]. split; [|done]. symmetry. by eapply pins_in_place. }
  destruct (exists_last (l := m :: l2)) as (l3 & z & Hz); [done|].
  rewrite (bind_step _ _ _ z s).
  2:{ apply (plist_last_ok _ gs (l1 ++ node :: l3)); [done|]. by rewrite Hf, Hz, <- app_assoc. }
  rewrite (proj2 (Z.eqb_neq node z)).
  2:{ intros ->. rewrite Hf, Hz in Hnd. apply NoDup_app in Hnd as (_ & _ & [Hx _]%NoDup_cons). set_solver. }
  rewrite (bind_step _ _ _ _ _ (plist_next_ok _ _ _ _ _ _ HI Hf)). simpl hd.
  rewrite of_node_list_node_list.
  assert (m ∈ flat gs) as Hmin by (rewrite Hf; set_solver).
  rewrite (bind_step _ _ _ _ _ (get_prio_ok _ _ _ (Hval _ Hin))).
  rewrite (bind_step _ _ _ _ _ (get_prio_ok _ _ _ (Hval _ Hmin))).
  pose proof (flat_sorted _ _ _ HI) as Hso. rewrite Hf, fmap_app in Hso.
  apply StronglySorted_app in Hso as (_ & _ & Hso). simpl in Hso.
  apply StronglySorted_cons in Hso as [Hge Hso]. apply StronglySorted_cons in Hso as [Hge2 _].
  inversion Hge as [|? ? Hnm _]; subst.
  destruct (Z.eqb_spec (prio_of s node) (prio_of s m)) as [Heq|Hneq]; cbn [negb].
  - destruct (plist_del_ok h gs node s HI Hin) as (gs1 & s1 & E1 & HI1 & Hf1 & Hdt & Hps & Hch1).
    rewrite (bind_step _ _ _ _ _ E1). rewrite Hf in Hnd. rewrite Hf, prem_split in Hf1 by done.
    assert (node :: flat gs1 ≡ₚ flat gs) as Hperm by (rewrite Hf1, Hf; apply Permutation_middle).
    assert (NoDup (pfoot h (node :: flat gs1))) as Hnd1.
    { apply (pfoot_perm _ (flat gs)); [by symmetry|apply HI]. }
    destruct (requeue_join_ok fuel h gs1 node m l1 l2 s1) as (gs' & s' & E & HI' & Hf' & Hps' & Hch');
      [done|done|done| |done| |].
    { rewrite Hps, (Hval _ Hin), (Hval _ Hmin). by f_equal. }
    { rewrite <- Hperm in Hfuel. simpl in Hfuel. lia. }
    exists gs', s'. split; [exact E|]. split; [done|]. split; [|split; [congruence|]].
    + rewrite Hf', Hf, prem_split by done. rewrite Hf1. unfold prio_of. by rewrite Hps.
    + apply (changes_trans _ _ (links s1)); [done|]. eapply changes_mono; [|done].
      unfold pfoot. rewrite Hperm. done.
  - exists gs, s. split; [done|]. split; [done|]. split; [|done]. symmetry.
    eapply pins_in_place; [done..|]. constructor; [lia|].
    apply (Forall_fmap (prio_of s) (Z.le (prio_of s m)) l2) in Hge2. eapply Forall_impl; [exact Hge2|]. simpl. lia.
Qed.

(** ** Framing *)

Lemma pfoot_head h ns : h ∈ pfoot h ns.
Proof. constructor. Qed.
Lemma pfoot_node h n ns : n ∈ ns -> node_list n ∈ pfoot h ns.
Proof. intros Hn. apply elem_of_cons. right. apply elem_of_app. left. by apply list_elem_of_fmap_2. Qed.
Lemma pfoot_prio h n ns : n ∈ ns -> prio_list n ∈ pfoot h ns.
Proof. intros Hn. apply elem_of_cons. right. apply elem_of_app. right. by apply list_elem_of_fmap_2. Qed.
Lemma elem_of_pfoot h ns x : x ∈ pfoot h ns -> x = h \/ exists n, n ∈ ns /\ (x = node_list n \/ x = prio_list n).
Proof.
  unfold pfoot. intros [->|[(n & -> & Hn)%list_elem_of_fmap|(n & -> & Hn)%list_elem_of_fmap]%elem_of_app]%elem_of_cons;
    eauto.
Qed.

Lemma pinv_frame h gs s s' X : pinv h gs s -> changes X (links s) (links s') ->
  (forall n, n ∈ flat gs -> prios s' !! n = prios s !! n) -> pfoot h (flat gs) ## X -> pinv h gs s'.
Proof.
  intros [I1 I2 I3 I4 I5 I6 I7 I8] Hch Hps Hd. split; try done.
  - by apply (changes_null _ _ _ Hch).
  - apply (circle_changes _ _ _ _ Hch I3). intros x Hx HX. apply (Hd x); [|done].
    apply elem_of_cons in Hx as [->|(m & -> & Hm)%list_elem_of_fmap]; [apply pfoot_head|by apply pfoot_node].
  - apply (circle_changes _ _ _ _ Hch I4). intros x (m & -> & Hm)%list_elem_of_fmap.
    intros Hx. apply (Hd (prio_list m)); [|done]. by apply pfoot_prio, leads_flat.
  - intros g n Hg Hn. apply (circle_changes _ _ _ _ Hch (I5 g n Hg Hn)).
    intros x ->%list_elem_of_singleton Hx. apply (Hd (prio_list n)); [|done].
    apply pfoot_prio, elem_of_flat. exists g. split; [done|by constructor].
  - intros g n Hg Hn. rewrite Hps; [by apply I6|]. apply elem_of_flat. eauto.
Qed.

Lemma plist_frame h ns s s' X : plist h ns s -> changes X (links s) (links s') ->
  (forall n, n ∈ ns -> prios s' !! n = prios s !! n) -> pfoot h ns ## X -> plist h ns s'.
Proof. intros (gs & <- & HI) Hch Hps Hd. exists gs. split; [done|]. by apply (pinv_frame _ _ s _ X). Qed.

Lemma detached_frame n s s' X : detached n s -> changes X (links s) (links s') ->
  prios s' !! n = prios s !! n -> node_list n ∉ X -> prio_list n ∉ X -> detached n s'.
Proof.
  intros [D1 D2 D3 D4] Hch Hps H1 H2. split; [done| | |by rewrite Hps].
  - apply (circle_changes _ _ _ _ Hch D2). by intros x ->%list_elem_of_singleton.
  - apply (circle_changes _ _ _ _ Hch D3). by intros x ->%list_elem_of_singleton.
Qed.

(** [plist_del] of a node that is on no list changes nothing that matters. *)
Lemma plist_del_detached h n s : detached n s -> links s !! 0 = None ->
  exists s', plist_del n h s = Ok (tt, s') /\ detached n s' /\ prios s' = prios s /\
    changes [node_list n] (links s) (links s').
Proof.
  intros [D1 D2 D3 D4] H0. rewrite plist_del_eq. unfold del_prio.
  rewrite (bind_step _ _ s tt s).
  2:{ rewrite (bind_step _ _ _ _ _ (on_links_same _ _ _ (list_empty_ok _ _ _ D3))). done. }
  destruct (list_del_init_ok _ _ _ H0 D2) as (L & E & _ & Hc & Hch).
  rewrite (on_links_ok _ _ _ _ E). eexists. split; [done|]. split; [|done]. split; simpl; try done.
  apply (circle_changes _ _ _ _ Hch D3). intros x ->%list_elem_of_singleton.
  unfold prio_list, node_list. intros ?%list_elem_of_singleton. lia.
Qed.

(** Adding the same amount to every priority of a list keeps it. *)
Lemma pinv_shift h gs s s' d : pinv h gs s -> links s' = links s ->
  (forall n, n ∈ flat gs -> prios s' !! n = Some (prio_of s n + d)) ->
  pinv h ((fun g => mk_group (g_prio g + d) (g_lead g) (g_rest g)) <$> gs) s'.
Proof.
  intros [I1 I2 I3 I4 I5 I6 I7 I8] Hl Hps. set (sh := fun g => _).
  assert (flat (sh <$> gs) = flat gs) as Hf by (unfold flat; by rewrite <- list_fmap_compose).
  assert (leads (sh <$> gs) = leads gs) as Hld by (unfold leads; by rewrite <- list_fmap_compose).
  split; rewrite ?Hl, ?Hf, ?Hld; try done.
  - intros g n (g0 & -> & Hg)%list_elem_of_fmap Hn. apply (I5 g0); done.
  - intros g n (g0 & -> & Hg)%list_elem_of_fmap Hn. rewrite Hps by (apply elem_of_flat; eauto).
    unfold prio_of. by rewrite (I6 g0 n Hg Hn).
  - rewrite <- list_fmap_compose. unfold compose. simpl. clear -I7.
    induction gs as [|g gs IH]; [constructor|]. simpl in *. apply StronglySorted_cons in I7 as [H1 H2].
    apply StronglySorted_cons. split; [|auto]. apply list.Forall_forall.
    intros x (g' & -> & Hg')%list_elem_of_fmap. rewrite list.Forall_forall in H1.
    assert (g_prio g < g_prio g') by (apply H1; by apply list_elem_of_fmap_2). lia.
Qed.

Lemma plist_shift h ns s s' d : plist h ns s -> links s' = links s ->
  (forall n, n ∈ ns -> prios s' !! n = Some (prio_of s n + d)) -> plist h ns s'.
Proof.
  intros (gs & <- & HI) Hl Hps. eexists. split; [|by eapply pinv_shift]. unfold flat.
  by rewrite <- list_fmap_compose.
Qed.

(** ** Refinement: a stable sorted sequence *)

Inductive pop := PAdd (n : Z) | PDel (n : Z) | PRequeue (n : Z).

Definition run_pop (fuel : nat) (h : Z) (o : pop) : M pheap unit :=
  match o with
  | PAdd n => plist_add fuel n h
  | PDel n => plist_del n h
  | PRequeue n => plist_requeue fuel n h
  end.

Fixpoint run_pops (fuel : nat) (h : Z) (os : list pop) : M pheap unit :=
  match os with [] => mret tt | o :: os' => run_pop fuel h o;; run_pops fuel h os' end.

(** Only a node of the pool that is off the list may be added, only one on it
    deleted or requeued. *)
Definition pspec (U : list Z) (pr : Z -> Z) (o : pop) (ns : list Z) : option (list Z) :=
  match o with
  | PAdd n => if decide (n ∈ U /\ n ∉ ns) then Some (pins pr n ns) else None
  | PDel n => if decide (n ∈ ns) then Some (prem n ns) else None
  | PRequeue n => if decide (n ∈ ns) then Some (pins pr n (prem n ns)) else None
  end.

Fixpoint pspecs (U : list Z) (pr : Z -> Z) (os : list pop) (ns : list Z) : option (list Z) :=
  match os with [] => Some ns | o :: os' => ns' ← pspec U pr o ns; pspecs U pr os' ns' end.

(** The pool [U] of nodes: those of [ns] on the list, the others on none. *)
Record pstate (h : Z) (U ns : list Z) (s : pheap) : Prop := {
  ps_plist : plist h ns s;
  ps_sub : ns ⊆ U;
  ps_addr : NoDup (pfoot h U);
  ps_off : forall n, n ∈ U -> n ∉ ns -> detached n s }.

Lemma pfoot_away h U ns m : NoDup (pfoot h U) -> ns ⊆ U -> m ∈ U -> m ∉ ns ->
  (node_list m ∉ pfoot h ns) /\ prio_list m ∉ pfoot h ns.
Proof.
  intros Hnd Hsub Hm Hn. destruct (pfoot_disj _ _ Hnd) as [Dh Dn]. unfold pfoot.
  rewrite !not_elem_of_cons, !not_elem_of_app. split_and!.
  - by apply Dh.
  - intros (k & E%(inj node_list) & Hk)%list_elem_of_fmap. congruence.
  - intros (k & E & Hk)%list_elem_of_fmap. apply (Dn m k); auto.
  - by apply Dh.
  - intros (k & E & Hk)%list_elem_of_fmap. apply (Dn k m); auto.
  - intros (k & E%(inj prio_list) & Hk)%list_elem_of_fmap. congruence.
Qed.

Lemma detached_changes h U ns m s s' : NoDup (pfoot h U) -> ns ⊆ U -> m ∈ U -> m ∉ ns ->
  changes (pfoot h ns) (links s) (links s') -> prios s' = prios s -> detached m s -> detached m s'.
Proof.
  intros Hnd Hsub Hm Hn Hch Hps [D1 D2 D3 D4].
  destruct (pfoot_away h U ns m Hnd Hsub Hm Hn) as [F1 F2]. split; [done| | |by rewrite Hps].
  - apply (circle_changes _ _ _ _ Hch D2). by intros x ->%list_elem_of_singleton.
  - apply (circle_changes _ _ _ _ Hch D3). by intros x ->%list_elem_of_singleton.
Qed.

Lemma pins_perm pr node ns : pins pr node ns ≡ₚ node :: ns.
Proof.
  induction ns as [|n ns IH]; simpl; [done|]. destruct (pr node <? pr n); [done|].
  rewrite IH. apply Permutation_swap.
Qed.

Lemma elem_of_prem node ns n : n ∈ prem node ns <-> n <> node /\ n ∈ ns.
Proof. unfold prem. rewrite list_elem_of_filter. tauto. Qed.

Lemma pfoot_sub h U ns : NoDup (pfoot h U) -> NoDup ns -> ns ⊆ U -> NoDup (pfoot h ns).
Proof.
  intros Hnd Hn Hsub. destruct (pfoot_disj _ _ Hnd) as [Dh Dn]. unfold pfoot. constructor.
  - rewrite not_elem_of_app. split; intros (k & E & Hk)%list_elem_of_fmap;
      destruct (Dh k (Hsub _ Hk)); congruence.
  - apply NoDup_app. split; [by apply (NoDup_fmap_2 _)|]. split; [|by apply (NoDup_fmap_2 _)].
    intros x (k & -> & Hk)%list_elem_of_fmap (j & E & Hj)%list_elem_of_fmap. apply (Dn k j); auto.
Qed.

Lemma groups_flat gs : (length gs <= length (flat gs))%nat.
Proof.
  induction gs as [|g gs IH]; [done|]. rewrite flat_cons, length_app. unfold members. simpl. lia.
Qed.

Lemma run_pop_ok fuel h U ns o ns' s : pstate h U ns s -> pspec U (prio_of s) o ns = Some ns' ->
  (length U <= fuel)%nat ->
  exists s', run_pop fuel h o s = Ok (tt, s') /\ pstate h U ns' s' /\ prios s' = prios s.
Proof.
  intros [(gs & Hf & HI) Hsub Hnd Hoff] Hspec Hfuel. pose proof (pinv_NoDup _ _ _ HI) as Hnn. subst ns.
  assert (length (flat gs) <= fuel)%nat as Hlen
    by (etrans; [by apply submseteq_length, NoDup_submseteq|done]).
  pose proof (groups_flat gs). destruct o as [n|n|n]; simpl in Hspec; case_decide as Hd; simplify_eq; simpl run_pop.
  - destruct Hd as [HnU Hn].
    destruct (plist_add_ok fuel n h gs s HI (Hoff n HnU Hn)) as (gs' & s' & E & HI' & Hf' & Hps & Hch).
    { apply (pfoot_sub h U); [done|by constructor|set_solver]. }
    { lia. }
    exists s'. split; [done|]. split; [|done]. split; [by exists gs'| |done|].
    + rewrite pins_perm. set_solver.
    + intros m Hm Hmn. rewrite pins_perm in Hmn.
      apply (detached_changes h U (n :: flat gs) m s); [done|set_solver|done|done|done|done|].
      apply Hoff; [done|set_solver].
  - destruct (plist_del_ok h gs n s HI Hd) as (gs' & s' & E & HI' & Hf' & Hdt & Hps & Hch).
    exists s'. split; [done|]. split; [|done]. split; [by exists gs'| |done|].
    + intros x [_ Hx]%elem_of_prem. auto.
    + intros m Hm Hmn. rewrite elem_of_prem in Hmn. destruct (decide (m = n)) as [->|Hne]; [done|].
      apply (detached_changes h U (flat gs) m s); try done; [naive_solver|apply Hoff; naive_solver].
  - destruct (plist_requeue_ok fuel h gs n s HI Hd Hlen) as (gs' & s' & E & HI' & Hf' & Hps & Hch).
    exists s'. split; [done|]. split; [|done]. split; [by exists gs'| |done|].
    + rewrite pins_perm. intros x [->|[_ Hx]%elem_of_prem]%elem_of_cons; auto.
    + intros m Hm Hmn. rewrite pins_perm, not_elem_of_cons, elem_of_prem in Hmn.
      apply (detached_changes h U (flat gs) m s); try done; [naive_solver|apply Hoff; naive_solver].
Qed.

(** C7: the plist operations implement a stable sorted sequence. Any sequence
    of [plist_add], [plist_del] and [plist_requeue] calls on nodes of a pool
    returns, and the list then holds what the specification computes: nodes in
    ascending [prio], each added or requeued node behind those of its priority.
    Both rings stay consistent, nodes off the list are reinitialised, and
    [plist_first] is the head of the sequence. *)
Theorem plist_operations_refine (fuel : nat) (h : Z) (U ns ns' : list Z) (os : list pop) (s : pheap) :
  pstate h U ns s -> pspecs U (prio_of s) os ns = Some ns' -> (length U <= fuel)%nat ->
  exists s', run_pops fuel h os s = Ok (tt, s') /\ pstate h U ns' s' /\ prios s' = prios s /\
    StronglySorted Z.le (prio_of s <$> ns') /\
    plist_head_empty h s' = Ok (bool_decide (ns' = []), s') /\
    forall n rest, ns' = n :: rest -> plist_first h s' = Ok (n, s').
Proof.
  intros Hs Hspec Hfuel. revert ns s Hs Hspec. induction os as [|o os IH]; intros ns s Hs Hspec.
  - simpl in Hspec. simplify_eq. exists s. split; [done|]. split; [done|]. split; [done|].
    destruct Hs as [(gs & Hf & HI) _ _ _]. subst ns'. pose proof (pi_nodes _ _ _ HI) as Hc.
    split; [by apply (flat_sorted h)|]. split.
    + unfold plist_head_empty. rewrite (on_links_same _ _ _ (list_empty_ok _ _ _ Hc)).
      do 2 f_equal. apply bool_decide_ext. by destruct (flat gs).
    + intros n rest Hn. unfold plist_first. rewrite Hn in Hc. pose proof (circle_next _ _ _ Hc) as En.
      rewrite (bind_step _ _ _ _ _ (on_links_same _ _ _ (get_next_ok _ _ _ En))). simpl.
      by rewrite of_node_list_node_list.
  - simpl in Hspec. destruct (pspec U (prio_of s) o ns) as [ns1|] eqn:Ho; [|done].
    destruct (run_pop_ok fuel h U ns o ns1 s Hs Ho Hfuel) as (s1 & E1 & Hs1 & Hps).
    assert (prio_of s1 = prio_of s) as Hpr by (unfold prio_of; by rewrite Hps).
    destruct (IH ns1 s1 Hs1) as (s' & E & Hs' & Hps' & Hrest); [by rewrite Hpr|].
    exists s'. rewrite Hpr in Hrest. split; [|split; [done|split; [congruence|done]]].
    cbn [run_pops]. by rewrite (bind_step _ _ _ _ _ E1).
Qed.

Definition example_pheap : pheap :=
  mk_pheap (list_to_map ((fun a => (a, mk_list_head a a)) <$> pfoot 1000 [100; 200; 300]))
    (list_to_map [(100, 5); (200, 3); (300, 5)]).

Lemma example_pstate : pstate 1000 [100; 200; 300] [] example_pheap.
Proof.
  assert (forall a, a ∈ pfoot 1000 [100; 200; 300] -> circle (links example_pheap) [a]) as Hc.
  { intros a Ha. split; [apply NoDup_singleton|].
    unfold pfoot, node_list, prio_list in Ha. simpl in Ha. set_unfold in Ha.
    destruct_or?; subst; by vm_compute. }
  split.
  - exists []. split; [done|]. split; try done; try (intros; set_solver); try constructor.
  - set_solver.
  - apply (bool_decide_unpack _). by vm_compute.
  - intros n Hn _. split.
    + intros ->. set_solver.
    + apply Hc. unfold pfoot. set_solver.
    + apply Hc. unfold pfoot. set_solver.
    + set_unfold in Hn. destruct_or?; subst; vm_compute; eauto.
Qed.

Lemma plist_operations_refine_witness :
  exists s', run_pops 3 1000 [PAdd 100; PAdd 300; PAdd 200; PRequeue 100] example_pheap = Ok (tt, s') /\
    pstate 1000 [100; 200; 300] [200; 300; 100] s' /\ plist_first 1000 s' = Ok (200, s').
Proof.
  destruct (plist_operations_refine 3 1000 [100; 200; 300] [] [200; 300; 100]
    [PAdd 100; PAdd 300; PAdd 200; PRequeue 100] example_pheap)
    as (s' & E & Hs & _ & _ & _ & Hfirst).
  - apply example_pstate.
  - by vm_compute.
  - simpl. lia.
  - exists s'. split; [exact E|]. split; [exact Hs|]. by apply (Hfirst 200 [300; 100]).
Defined.
