(* ===== verification/Sched.v ===== *)
(** * Scheduler

    [proc/sched.c]: threads wait on priority lists, one per policy for the
    ready ones and one each for the waiting and the terminated ones.
    [schedule] hands the CPU to the first thread of the most important
    non-empty ready list, and the timer interrupt rotates threads of the
    application policy. The theorems state which list a thread is on, who
    runs next, and that the rotation starves no application thread. *)
From Stdlib Require Import ZArith Lia Bool List.
From stdpp Require Import base list gmap option fin_maps sets sorting.
From S2P Require Import Prelude Dlist Plist.

Open Scope Z_scope.

#[local] Arguments circle : simpl never.

Inductive thread_state := THREAD_NEW | THREAD_READY | THREAD_RUNNING | THREAD_WAITING | THREAD_TERMINATED.
Inductive thread_policy := THREAD_KERNEL_POLICY | THREAD_SYSTEM_POLICY | THREAD_APP_POLICY.

#[export] Instance thread_state_eq_dec : EqDecision thread_state.
Proof. solve_decision. Defined.
#[export] Instance thread_policy_eq_dec : EqDecision thread_policy.
Proof. solve_decision. Defined.

(** The fields of [struct thread] the scheduler reads or writes; the embedded
    [sched_sibling] node lives in the plist heap. *)
Record thread := mk_thread {
  t_flags : Z;
  t_state : thread_state;
  t_policy : thread_policy;
  t_parent : Z;
  t_kernel_stack : Z;
  t_pending : Z;
  t_time_slice : Z }.

Definition with_state (st : thread_state) (t : thread) : thread :=
  mk_thread (t_flags t) st (t_policy t) (t_parent t) (t_kernel_stack t) (t_pending t) (t_time_slice t).
Definition with_slice (n : Z) (t : thread) : thread :=
  mk_thread (t_flags t) (t_state t) (t_policy t) (t_parent t) (t_kernel_stack t) (t_pending t) n.

(** The scheduler's state: the nodes of the lists, the threads and the page
    directory of each process by address, who runs, the lock, the interrupt
    flag, and what a switch loads into the CPU. *)
Record sched := mk_sched {
  sp : pheap;
  threads : gmap Z thread;
  pdirs : gmap Z Z;
  current_thread : Z;
  current_process : Z;
  scheduler_lock_counter : Z;
  interrupts : bool;
  tss_esp0 : Z;
  loaded_pdir : Z }.

Definition with_sp (p : pheap) (s : sched) : sched :=
  mk_sched p (threads s) (pdirs s) (current_thread s) (current_process s) (scheduler_lock_counter s)
    (interrupts s) (tss_esp0 s) (loaded_pdir s).
Definition with_threads (m : gmap Z thread) (s : sched) : sched :=
  mk_sched (sp s) m (pdirs s) (current_thread s) (current_process s) (scheduler_lock_counter s)
    (interrupts s) (tss_esp0 s) (loaded_pdir s).
Definition with_current (th : Z) (s : sched) : sched :=
  mk_sched (sp s) (threads s) (pdirs s) th (current_process s) (scheduler_lock_counter s)
    (interrupts s) (tss_esp0 s) (loaded_pdir s).
Definition with_cpu (proc esp0 pdir : Z) (s : sched) : sched :=
  mk_sched (sp s) (threads s) (pdirs s) (current_thread s) proc (scheduler_lock_counter s)
    (interrupts s) esp0 pdir.
Definition with_lock (c : Z) (i : bool) (s : sched) : sched :=
  mk_sched (sp s) (threads s) (pdirs s) (current_thread s) (current_process s) c i (tss_esp0 s) (loaded_pdir s).

Definition on_sp {A} : M pheap A -> M sched A := zoom sp with_sp.
Definition get_thread (th : Z) : M sched thread := deref (fun s => threads s !! th).
Definition put_thread (th : Z) (t : thread) : M sched unit :=
  modify (fun s => with_threads (<[th := t]> (threads s)) s).

Definition TIF_SIGNAL_MANUAL : Z := 1.
Definition SLICE_THRESHOLD : Z := 8.
Definition INT_MAX : Z := 2 ^ 31 - 1.

Section sched.
(** Where the linker puts the five lists and the compiler the
    [sched_sibling] field; [handle_signal] is the signal delivery of
    [ipc/signal.c]; [fuel] bounds the walks over the lists. *)
Context (kernel_ready_list system_ready_list app_ready_list waiting_list terminated_list : Z).
Context (offsetof_sched_sibling : Z) (handle_signal : M sched unit) (fuel : nat).

Definition sched_sibling (th : Z) : Z := th + offsetof_sched_sibling.
Definition of_sched_sibling (n : Z) : Z := n - offsetof_sched_sibling.

Definition lock_scheduler : M sched unit :=
  modify (fun s => with_lock (u32 (scheduler_lock_counter s + 1)) false s).

Definition unlock_scheduler : M sched unit :=
  modify (fun s => let c := u32 (scheduler_lock_counter s - 1) in
                   with_lock c (if c =? 0 then true else interrupts s) s).

Definition get_next_thread_from_list (list : Z) : M sched Z :=
  e ← on_sp (plist_head_empty list);
  if e : bool then mret 0
  else n ← on_sp (plist_first list); mret (of_sched_sibling n).

Definition get_next_thread_to_run : M sched Z :=
  nt ← get_next_thread_from_list kernel_ready_list;
  nt ← (if nt =? 0 then get_next_thread_from_list system_ready_list else mret nt);
  if nt =? 0 then get_next_thread_from_list app_ready_list else mret nt.

Definition pop_next_thread_from_list (list : Z) : M sched Z :=
  e ← on_sp (plist_head_empty list);
  if e : bool then mret 0
  else n ← on_sp (plist_first list); on_sp (plist_del n list);; mret (of_sched_sibling n).

Definition pop_next_thread_to_run : M sched Z :=
  nt ← pop_next_thread_from_list kernel_ready_list;
  nt ← (if nt =? 0 then pop_next_thread_from_list system_ready_list else mret nt);
  if nt =? 0 then pop_next_thread_from_list app_ready_list else mret nt.

Definition get_list_from_thread (state : thread_state) (policy : thread_policy) : Z :=
  match state with
  | THREAD_READY =>
      match policy with
      | THREAD_KERNEL_POLICY => kernel_ready_list
      | THREAD_SYSTEM_POLICY => system_ready_list
      | THREAD_APP_POLICY => app_ready_list
      end
  | THREAD_WAITING => waiting_list
  | THREAD_TERMINATED => terminated_list
  | _ => 0
  end.

Definition get_top_priority_from_list (state : thread_state) (policy : thread_policy) : M sched Z :=
  let h := get_list_from_thread state policy in
  e ← on_sp (plist_head_empty h);
  if negb e : bool then
    node ← on_sp (plist_first h);
    if negb (node =? 0) : bool then on_sp (get_prio node) else mret INT_MAX
  else mret INT_MAX.

Definition queue_thread (th : Z) : M sched unit :=
  t ← get_thread th;
  let h := get_list_from_thread (t_state t) (t_policy t) in
  mwhen (negb (h =? 0)) (on_sp (plist_add fuel (sched_sibling th) h)).

Definition remove_thread (th : Z) : M sched unit :=
  t ← get_thread th;
  let h := get_list_from_thread (t_state t) (t_policy t) in
  mwhen (negb (h =? 0)) (on_sp (plist_del (sched_sibling th) h)).

Definition update_thread (th : Z) (state : thread_state) : M sched unit :=
  t ← get_thread th;
  if decide (t_state t = state) then mret tt
  else
    lock_scheduler;;
    remove_thread th;;
    t ← get_thread th;
    put_thread th (with_state state t);;
    queue_thread th;;
    unlock_scheduler.

(** [tss_set_stack] and [do_switch] load the stack and the page directory of
    the thread; the saved stack pointers are not part of the state. *)
Definition switch_thread (nt : Z) : M sched unit :=
  cur ← gets current_thread;
  if cur =? nt then
    t ← get_thread cur;
    put_thread cur (with_slice 0 t);;
    update_thread cur THREAD_RUNNING
  else
    modify (with_current nt);;
    t ← get_thread nt;
    put_thread nt (with_slice 0 t);;
    update_thread nt THREAD_RUNNING;;
    t ← get_thread nt;
    pdir ← deref (fun s => pdirs s !! t_parent t);
    modify (with_cpu (t_parent t) (t_kernel_stack t) pdir).

(** [halt] waits for an interrupt, whose handlers are [irq]; with interrupts
    disabled it waits forever. *)
Definition halt (irq : M sched unit) : M sched unit :=
  i ← gets interrupts; if i : bool then irq else mfail Fuel.

(** The do-while loop of [schedule]; [irqs] are the interrupts that arrive,
    one per iteration. *)
Fixpoint wait_ready (irqs : list (M sched unit)) : M sched Z :=
  match irqs with
  | [] => mfail Fuel
  | irq :: irqs' =>
      unlock_scheduler;;
      halt irq;;
      lock_scheduler;;
      nt ← pop_next_thread_to_run;
      if negb (nt =? 0) : bool then mret nt
      else
        cur ← gets current_thread;
        t ← get_thread cur;
        if decide (t_state t = THREAD_RUNNING) then mret cur else wait_ready irqs'
  end.

Definition schedule (irqs : list (M sched unit)) : M sched unit :=
  cur ← gets current_thread;
  t ← get_thread cur;
  if decide (t_state t = THREAD_RUNNING) then mret tt
  else
    lock_scheduler;;
    nt ← pop_next_thread_to_run;
    nt ← (if nt =? 0 then wait_ready irqs else mret nt);
    switch_thread nt;;
    cur ← gets current_thread;
    t ← get_thread cur;
    mwhen (negb (t_pending t =? 0) && (Z.land (t_flags t) TIF_SIGNAL_MANUAL =? 0)) handle_signal;;
    unlock_scheduler.

(** The [plist_for_each_entry] loop of [irq_schedule_handler]. *)
Fixpoint scale_loop (iter head scale : Z) (n : nat) : M pheap unit :=
  match n with
  | O => mfail Fuel
  | S n' =>
      if node_list iter =? head then mret tt
      else
        p ← get_prio iter;
        set_prio iter (s32 (p - scale));;
        next ← plist_next iter;
        scale_loop next head scale n'
  end.

Definition irq_schedule_handler (irqs : list (M sched unit)) : M sched unit :=
  cur ← gets current_thread;
  t ← get_thread cur;
  if decide (t_policy t <> THREAD_APP_POLICY \/ t_state t <> THREAD_RUNNING) then mret tt
  else
    lock_scheduler;;
    put_thread cur (with_slice (u32 (t_time_slice t + 1)) t);;
    is_schedulable ←
      (if SLICE_THRESHOLD <=? u32 (t_time_slice t + 1) then
         nt ← get_next_thread_to_run;
         if negb (nt =? 0) : bool then
           tn ← get_thread nt;
           mwhen (bool_decide (t_policy tn = THREAD_APP_POLICY))
             (first ← on_sp (plist_first app_ready_list);
              last ← on_sp (plist_last app_ready_list);
              scale ← on_sp (get_prio first);
              on_sp (scale_loop first app_ready_list scale fuel);;
              lp ← on_sp (get_prio last);
              on_sp (set_prio (sched_sibling cur) (s32 (lp + 1))));;
           update_thread cur THREAD_READY;;
           mret true
         else mret false
       else mret false);
    unlock_scheduler;;
    c ← gets scheduler_lock_counter;
    mwhen (is_schedulable && (c =? 0)) (schedule irqs).

Definition sched_init : M sched unit :=
  on_sp (plist_head_init kernel_ready_list);;
  on_sp (plist_head_init system_ready_list);;
  on_sp (plist_head_init app_ready_list);;
  on_sp (plist_head_init waiting_list);;
  on_sp (plist_head_init terminated_list).

(** ** The lists as queues of threads *)

Definition heads : list Z :=
  [kernel_ready_list; system_ready_list; app_ready_list; waiting_list; terminated_list].

Definition upd (Q : Z -> list Z) (h : Z) (l : list Z) : Z -> list Z :=
  fun k => if decide (k = h) then l else Q k.

Definition tprio (p : pheap) (th : Z) : Z := prio_of p (sched_sibling th).

(** List [h] holds the threads [Q h], in this order, and no thread of [ths] is
    on two lists; one on none is unlinked. *)
Record queues (ths : list Z) (Q : Z -> list Z) (p : pheap) : Prop := {
  qs_plist : forall h, h ∈ heads -> plist h (sched_sibling <$> Q h) p;
  qs_sub : forall h, h ∈ heads -> Q h ⊆ ths;
  qs_disj : forall h1 h2, h1 ∈ heads -> h2 ∈ heads -> h1 <> h2 -> Q h1 ## Q h2;
  qs_off : forall th, th ∈ ths -> (forall h, h ∈ heads -> th ∉ Q h) -> detached (sched_sibling th) p;
  qs_addr : NoDup (heads ++ (node_list <$> (sched_sibling <$> ths)) ++ (prio_list <$> (sched_sibling <$> ths)));
  qs_heads : 0 ∉ heads;
  qs_ths : 0 ∉ ths }.

#[local] Instance sched_sibling_inj : Inj eq eq sched_sibling.
Proof. intros x y. unfold sched_sibling. lia. Qed.

Lemma of_sched_sibling_ok th : of_sched_sibling (sched_sibling th) = th.
Proof. unfold of_sched_sibling, sched_sibling. lia. Qed.

Lemma pins_fmap pr th l : pins pr (sched_sibling th) (sched_sibling <$> l) =
  sched_sibling <$> pins (fun x => pr (sched_sibling x)) th l.
Proof. induction l as [|x l IH]; simpl; [done|]. destruct (_ <? _); [done|]. simpl. f_equal. exact IH. Qed.

Lemma prem_fmap th l : prem (sched_sibling th) (sched_sibling <$> l) = sched_sibling <$> prem th l.
Proof.
  unfold prem. induction l as [|x l IH]; [done|]. simpl. destruct (decide (x = th)) as [->|Hne].
  - rewrite !filter_cons_False by (intros Hf; by apply Hf). apply IH.
  - rewrite !filter_cons_True by (try intros E%(inj sched_sibling); congruence). simpl. f_equal. exact IH.
Qed.

Lemma addr_facts ths : NoDup (heads ++ (node_list <$> (sched_sibling <$> ths)) ++
    (prio_list <$> (sched_sibling <$> ths))) ->
  (forall th h, th ∈ ths -> h ∈ heads -> node_list (sched_sibling th) <> h /\ prio_list (sched_sibling th) <> h) /\
  (forall a b, a ∈ ths -> b ∈ ths -> node_list (sched_sibling a) <> prio_list (sched_sibling b)) /\
  NoDup ths.
Proof.
  intros (_ & H1 & H2)%NoDup_app. apply NoDup_app in H2 as (H2 & H3 & _). split_and!.
  - intros th h Ht Hh. split; intros <-; apply (H1 _ Hh), elem_of_app; [left|right];
      by do 2 apply list_elem_of_fmap_2.
  - intros a b Ha Hb E. apply (H3 (node_list (sched_sibling a))); [by do 2 apply list_elem_of_fmap_2|].
    rewrite E. by do 2 apply list_elem_of_fmap_2.
  - apply NoDup_fmap_1 in H2. by apply NoDup_fmap_1 in H2.
Qed.

Lemma pfoot_sep ths h1 h2 A B : NoDup (heads ++ (node_list <$> (sched_sibling <$> ths)) ++
    (prio_list <$> (sched_sibling <$> ths))) ->
  h1 ∈ heads -> h2 ∈ heads -> h1 <> h2 -> A ⊆ ths -> B ⊆ ths -> A ## B ->
  pfoot h1 (sched_sibling <$> A) ## pfoot h2 (sched_sibling <$> B).
Proof.
  intros Hnd H1 H2 Hne HA HB Hd. destruct (addr_facts ths Hnd) as (F1 & F2 & _).
  intros x [->|(n & (a & -> & Ha)%list_elem_of_fmap & Hn)]%elem_of_pfoot
    [->|(m & (b & -> & Hb)%list_elem_of_fmap & Hm)]%elem_of_pfoot; [done| | |].
  - destruct (F1 b h1 (HB _ Hb) H1). naive_solver.
  - destruct (F1 a h2 (HA _ Ha) H2). naive_solver.
  - destruct Hn as [->| ->], Hm as [Hm|Hm].
    + apply (inj node_list), (inj sched_sibling) in Hm. subst. by apply (Hd b).
    + by apply (F2 a b (HA _ Ha) (HB _ Hb)).
    + by apply (F2 b a (HB _ Hb) (HA _ Ha)).
    + apply (inj prio_list), (inj sched_sibling) in Hm. subst. by apply (Hd b).
Qed.

Lemma node_away ths h A th : NoDup (heads ++ (node_list <$> (sched_sibling <$> ths)) ++
    (prio_list <$> (sched_sibling <$> ths))) ->
  h ∈ heads -> A ⊆ ths -> th ∈ ths -> th ∉ A ->
  (node_list (sched_sibling th) ∉ pfoot h (sched_sibling <$> A)) /\
  prio_list (sched_sibling th) ∉ pfoot h (sched_sibling <$> A).
Proof.
  intros Hnd Hh HA Ht Hn. destruct (addr_facts ths Hnd) as (F1 & F2 & _).
  destruct (F1 th h Ht Hh). split; intros [E|(n & (a & -> & Ha)%list_elem_of_fmap & Hx)]%elem_of_pfoot;
    try done; destruct Hx as [E|E].
  - apply (inj node_list), (inj sched_sibling) in E. congruence.
  - by apply (F2 th a Ht (HA _ Ha)).
  - by apply (F2 a th (HA _ Ha) Ht).
  - apply (inj prio_list), (inj sched_sibling) in E. congruence.
Qed.

(** One list changes: the general step. *)
Lemma queues_step ths Q p p' h th l' : queues ths Q p -> h ∈ heads -> th ∈ ths ->
  (forall k, k ∈ heads -> k <> h -> th ∉ Q k) ->
  changes (pfoot h (sched_sibling <$> th :: Q h)) (links p) (links p') -> prios p' = prios p ->
  plist h (sched_sibling <$> l') p' -> l' ⊆ th :: Q h -> (forall x, x ∈ Q h -> x <> th -> x ∈ l') ->
  (th ∉ l' -> detached (sched_sibling th) p') ->
  queues ths (upd Q h l') p'.
Proof.
  intros [H1 H2 H3 H4 H5 H6 H7] Hh Hth Hk Hch Hps Hpl Hsub Hkeep Hdet.
  assert (th :: Q h ⊆ ths) as Hsub' by (intros x [->|Hx]%elem_of_cons; [done|by apply (H2 h)]).
  assert (forall k, k ∈ heads -> k <> h -> Q k ## th :: Q h) as Hsep.
  { intros k Hkh Hne x Hx [->|Hx']%elem_of_cons; [by apply (Hk k)|]. by apply (H3 k h Hkh Hh Hne x). }
  split; [| | | |done|done|done].
  - intros k Hkh. unfold upd. case_decide as E; [by subst|].
    apply (plist_frame _ _ p _ _ (H1 k Hkh) Hch); [by rewrite Hps|].
    apply (pfoot_sep ths); [done..|by apply H2|done|by apply Hsep].
  - intros k Hkh. unfold upd. case_decide as E; [|by apply H2]. set_solver.
  - intros k1 k2 Hk1 Hk2 Hne. unfold upd. repeat case_decide; subst; [done| | |by apply H3].
    + intros x Hx Hx'. apply Hsub in Hx. by apply (Hsep k2 Hk2 ltac:(congruence) x).
    + intros x Hx Hx'. apply Hsub in Hx'. by apply (Hsep k1 Hk1 ltac:(congruence) x).
  - intros x Hx Hoff. destruct (decide (x = th)) as [->|Hne].
    { apply Hdet. specialize (Hoff h Hh). unfold upd in Hoff. by rewrite decide_True in Hoff. }
    assert (x ∉ th :: Q h) as Hxq.
    { intros [?|Hin]%elem_of_cons; [done|]. specialize (Hoff h Hh). unfold upd in Hoff.
      rewrite decide_True in Hoff by done. by apply Hoff, Hkeep. }
    destruct (node_away ths h (th :: Q h) x H5 Hh Hsub' Hx Hxq) as [F1 F2].
    eapply (detached_frame _ p); [|exact Hch|by rewrite Hps|done|done].
    apply H4; [done|]. intros k Hkh. specialize (Hoff k Hkh). unfold upd in Hoff.
    case_decide; [subst; set_solver|done].
Qed.

Lemma queues_null ths Q p : queues ths Q p -> links p !! 0 = None.
Proof.
  intros HQ. destruct (qs_plist _ _ _ HQ kernel_ready_list) as (gs & _ & HI); [constructor|]. apply HI.
Qed.

Lemma queues_NoDup ths Q p h : queues ths Q p -> h ∈ heads -> NoDup (Q h).
Proof.
  intros HQ Hh. destruct (qs_plist _ _ _ HQ h Hh) as (gs & Hf & HI). apply pinv_NoDup in HI.
  rewrite Hf in HI. by apply NoDup_fmap_1 in HI.
Qed.

Lemma queues_add ths Q p h th : queues ths Q p -> (length ths <= fuel)%nat -> h ∈ heads -> th ∈ ths ->
  (forall k, k ∈ heads -> th ∉ Q k) ->
  exists p', plist_add fuel (sched_sibling th) h p = Ok (tt, p') /\
    queues ths (upd Q h (pins (tprio p) th (Q h))) p' /\ prios p' = prios p.
Proof.
  intros HQ Hfuel Hh Hth Hoff. destruct (qs_plist _ _ _ HQ h Hh) as (gs & Hf & HI).
  pose proof (queues_NoDup _ _ _ _ HQ Hh) as HndQ.
  assert (th :: Q h ⊆ ths) as Hsub by (intros x [->|Hx]%elem_of_cons; [done|by apply (qs_sub _ _ _ HQ h)]).
  destruct (addr_facts ths (qs_addr _ _ _ HQ)) as (F1 & F2 & Hndt).
  destruct (plist_add_ok fuel (sched_sibling th) h gs p HI) as (gs' & p' & E & HI' & Hf' & Hps & Hch).
  - by apply HQ.
  - rewrite Hf. change (sched_sibling th :: (sched_sibling <$> Q h)) with (sched_sibling <$> th :: Q h). unfold pfoot. constructor.
    + rewrite not_elem_of_app. split; intros (n & E & (a & -> & Ha)%list_elem_of_fmap)%list_elem_of_fmap;
        destruct (F1 a h (Hsub _ Ha) Hh); congruence.
    + apply NoDup_app. rewrite !(NoDup_fmap _). split_and!; [by constructor; [apply Hoff|]| |by constructor; [apply Hoff|]].
      intros x (n & -> & (a & -> & Ha)%list_elem_of_fmap)%list_elem_of_fmap
        (m & E & (b & -> & Hb)%list_elem_of_fmap)%list_elem_of_fmap. by apply (F2 a b (Hsub _ Ha) (Hsub _ Hb)).
  - etrans; [apply groups_flat|]. rewrite Hf, length_fmap.
    etrans; [apply submseteq_length, NoDup_submseteq; [done|by apply (qs_sub _ _ _ HQ h)]|done].
  - exists p'. split; [done|]. split; [|done]. rewrite Hf in Hf', Hch. rewrite pins_fmap in Hf'.
    apply (queues_step ths Q p p' h th); [done|done|done|intros; by apply Hoff|done|done|by exists gs'| | |].
    + rewrite pins_perm. done.
    + intros x Hx _. rewrite pins_perm. set_solver.
    + intros Hn. exfalso. apply Hn. rewrite pins_perm. constructor.
Qed.

Lemma queues_del ths Q p h th : queues ths Q p -> h ∈ heads -> th ∈ Q h ->
  exists p', plist_del (sched_sibling th) h p = Ok (tt, p') /\
    queues ths (upd Q h (prem th (Q h))) p' /\ prios p' = prios p.
Proof.
  intros HQ Hh Hin. destruct (qs_plist _ _ _ HQ h Hh) as (gs & Hf & HI).
  destruct (plist_del_ok h gs (sched_sibling th) p HI) as (gs' & p' & E & HI' & Hf' & Hdt & Hps & Hch).
  { rewrite Hf. by apply list_elem_of_fmap_2. }
  exists p'. split; [done|]. split; [|done]. rewrite Hf in Hf', Hch. rewrite prem_fmap in Hf'.
  apply (queues_step ths Q p p' h th); [done|done|by apply (qs_sub _ _ _ HQ h)| | |done|by exists gs'| | |done].
  - intros k Hk Hne Hx. by apply (qs_disj _ _ _ HQ k h Hk Hh Hne th).
  - eapply changes_mono; [|done]. apply pfoot_mono. set_solver.
  - intros x [_ Hx]%elem_of_prem. set_solver.
  - intros x Hx Hne. by apply elem_of_prem.
Qed.

Lemma queues_del_off ths Q p h th : queues ths Q p -> h ∈ heads -> th ∈ ths ->
  (forall k, k ∈ heads -> th ∉ Q k) ->
  exists p', plist_del (sched_sibling th) h p = Ok (tt, p') /\ queues ths Q p' /\ prios p' = prios p.
Proof.
  intros HQ Hh Hth Hoff.
  destruct (plist_del_detached h (sched_sibling th) p) as (p' & E & Hdt & Hps & Hch);
    [by apply HQ|by eapply queues_null|].
  exists p'. split; [done|]. split; [|done]. destruct HQ as [H1 H2 H3 H4 H5 H6 H7].
  destruct (addr_facts ths H5) as (F1 & F2 & _).
  assert (forall k, k ∈ heads -> pfoot k (sched_sibling <$> Q k) ## [node_list (sched_sibling th)]) as Haway.
  { intros k Hk x Hx ->%list_elem_of_singleton.
    exact (proj1 (node_away ths k (Q k) th H5 Hk (H2 k Hk) Hth (Hoff k Hk)) Hx). }
  split; try done.
  - intros k Hk. apply (plist_frame _ _ p _ _ (H1 k Hk) Hch); [by rewrite Hps|auto].
  - intros x Hx Hxo. destruct (decide (x = th)) as [->|Hne]; [done|].
    eapply (detached_frame _ p); [by apply H4|exact Hch|by rewrite Hps| |].
    + intros E1%list_elem_of_singleton%(inj node_list)%(inj sched_sibling). done.
    + intros E1%list_elem_of_singleton. by apply (F2 th x).
Qed.

Lemma first_ok ths Q p h : queues ths Q p -> h ∈ heads ->
  plist_head_empty h p = Ok (bool_decide (Q h = []), p) /\
  forall th l, Q h = th :: l -> plist_first h p = Ok (sched_sibling th, p).
Proof.
  intros HQ Hh. destruct (qs_plist _ _ _ HQ h Hh) as (gs & Hf & HI).
  pose proof (pi_nodes _ _ _ HI) as Hc. rewrite Hf in Hc. split.
  - unfold plist_head_empty. rewrite (on_links_same _ _ _ (list_empty_ok _ _ _ Hc)).
    do 2 f_equal. apply bool_decide_ext. by destruct (Q h).
  - intros th l E. rewrite E in Hc. unfold plist_first. pose proof (circle_next _ _ _ Hc) as En.
    rewrite (bind_step _ _ _ _ _ (on_links_same _ _ _ (get_next_ok _ _ _ En))). simpl.
    by rewrite of_node_list_node_list.
Qed.

Lemma queues_ext ths Q Q' p : queues ths Q p -> (forall h, h ∈ heads -> Q' h = Q h) -> queues ths Q' p.
Proof.
  intros [H1 H2 H3 H4 H5 H6 H7] Hext. split; try done.
  - intros h Hh. rewrite Hext by done. auto.
  - intros h Hh. rewrite Hext by done. auto.
  - intros h1 h2 Hh1 Hh2 Hne. rewrite !Hext by done. auto.
  - intros th Hth Hoff. apply H4; [done|]. intros h Hh. rewrite <- Hext by done. auto.
Qed.

Lemma list_of_cases st pol : get_list_from_thread st pol = 0 \/ get_list_from_thread st pol ∈ heads.
Proof. unfold heads. destruct st, pol; simpl; set_solver. Qed.

Lemma on_sp_ok {A} (m : M pheap A) s a p : m (sp s) = Ok (a, p) -> on_sp m s = Ok (a, with_sp p s).
Proof. intros E. unfold on_sp, zoom. by rewrite E. Qed.

Lemma on_sp_same {A} (m : M pheap A) s a : m (sp s) = Ok (a, sp s) -> on_sp m s = Ok (a, s).
Proof. intros E. rewrite (on_sp_ok m s a _ E). by destruct s. Qed.

Lemma get_thread_ok th t s : threads s !! th = Some t -> get_thread th s = Ok (t, s).
Proof. intros E. by apply deref_some. Qed.

(** A thread that can only be on the list its state and policy name is taken
    off it. *)
Lemma remove_thread_ok ths Q s th t : queues ths Q (sp s) -> th ∈ ths -> threads s !! th = Some t ->
  (forall h, h ∈ heads -> th ∈ Q h -> h = get_list_from_thread (t_state t) (t_policy t)) ->
  exists p', remove_thread th s = Ok (tt, with_sp p' s) /\
    queues ths (fun h => prem th (Q h)) p' /\ prios p' = prios (sp s).
Proof.
  intros HQ Hth Ht Hon. unfold remove_thread. rewrite (bind_step _ _ _ _ _ (get_thread_ok _ _ _ Ht)).
  set (h := get_list_from_thread (t_state t) (t_policy t)) in *.
  assert (forall k, k ∈ heads -> k <> h -> th ∉ Q k) as Hk by (intros k Hk Hne Hin; by apply Hne, Hon).
  assert (forall k, k ∈ heads -> k <> h -> prem th (Q k) = Q k) as Hkeep
    by (intros; apply prem_out; auto).
  pose proof (list_of_cases (t_state t) (t_policy t)) as Hcases. fold h in Hcases.
  destruct Hcases as [H0|Hh].
  { rewrite H0. simpl. exists (sp s). split; [by destruct s|]. split; [|done].
    apply (queues_ext _ _ _ _ HQ). intros k Hkh. apply Hkeep; [done|]. intros ->.
    apply (qs_heads _ _ _ HQ). by rewrite <- H0. }
  rewrite (proj2 (Z.eqb_neq h 0)) by (intros E; apply (qs_heads _ _ _ HQ); by rewrite <- E). cbn [negb mwhen].
  destruct (decide (th ∈ Q h)) as [Hin|Hout].
  - destruct (queues_del _ _ _ _ _ HQ Hh Hin) as (p' & E & HQ' & Hps). exists p'.
    split; [by apply on_sp_ok|]. split; [|done]. apply (queues_ext _ _ _ _ HQ'). intros k Hkh.
    unfold upd. case_decide; [by subst|]. by apply Hkeep.
  - destruct (queues_del_off ths Q (sp s) h th HQ Hh Hth) as (p' & E & HQ' & Hps).
    { intros k Hkh. destruct (decide (k = h)) as [->|]; auto. }
    exists p'. split; [by apply on_sp_ok|]. split; [|done]. apply (queues_ext _ _ _ _ HQ'). intros k Hkh.
    apply prem_out. destruct (decide (k = h)) as [->|]; auto.
Qed.

(** The queues after a thread's state changes. *)
Definition moved (pr : Z -> Z) (th : Z) (t : thread) (st : thread_state) (Q : Z -> list Z) : Z -> list Z :=
  fun h => if decide (h = get_list_from_thread st (t_policy t)) then pins pr th (prem th (Q h))
           else prem th (Q h).

Definition unlocked (s : sched) : bool := if scheduler_lock_counter s =? 0 then true else false.

Lemma update_thread_core ths Q s th t st : queues ths Q (sp s) -> (length ths <= fuel)%nat ->
  th ∈ ths -> threads s !! th = Some t -> t_state t <> st -> 0 <= scheduler_lock_counter s < 2 ^ 32 - 1 ->
  (forall h, h ∈ heads -> th ∈ Q h -> h = get_list_from_thread (t_state t) (t_policy t)) ->
  exists p', update_thread th st s =
      Ok (tt, with_lock (scheduler_lock_counter s) (unlocked s)
                (with_threads (<[th := with_state st t]> (threads s)) (with_sp p' s))) /\
    queues ths (moved (tprio (sp s)) th t st Q) p' /\ prios p' = prios (sp s).
Proof.
  intros HQ Hfuel Hth Ht Hst Hlock Hon. unfold update_thread.
  rewrite (bind_step _ _ _ _ _ (get_thread_ok _ _ _ Ht)), decide_False by done.
  set (s1 := with_lock (u32 (scheduler_lock_counter s + 1)) false s).
  rewrite (bind_step _ _ _ tt s1) by done.
  destruct (remove_thread_ok ths Q s1 th t) as (p1 & E1 & HQ1 & Hps1); [done..|].
  rewrite (bind_step _ _ _ _ _ E1).
  rewrite (bind_step _ _ _ _ _ (get_thread_ok th t (with_sp p1 s1) Ht)).
  set (s2 := with_threads (<[th := with_state st t]> (threads s)) (with_sp p1 s1)).
  rewrite (bind_step _ _ _ tt s2) by done.
  assert (exists p2, queue_thread th s2 = Ok (tt, with_sp p2 s2) /\
    queues ths (moved (tprio (sp s)) th t st Q) p2 /\ prios p2 = prios (sp s)) as (p2 & E2 & HQ2 & Hps2).
  { unfold queue_thread. rewrite (bind_step _ _ _ (with_state st t) s2)
      by (apply get_thread_ok; apply lookup_insert_eq).
    simpl t_state. simpl t_policy. unfold moved.
    set (h := get_list_from_thread st (t_policy t)).
    pose proof (list_of_cases st (t_policy t)) as Hcases. fold h in Hcases. destruct Hcases as [H0|Hh].
    - rewrite H0. simpl. exists p1. split; [done|]. split; [|done]. apply (queues_ext _ _ _ _ HQ1).
      intros k Hk. rewrite decide_False; [done|]. intros ->. by apply (qs_heads _ _ _ HQ).
    - rewrite (proj2 (Z.eqb_neq h 0)) by (intros E; apply (qs_heads _ _ _ HQ); by rewrite <- E).
      cbn [negb mwhen]. destruct (queues_add ths _ p1 h th HQ1 Hfuel Hh Hth) as (p2 & E2 & HQ2 & Hps2).
      { intros k _ [Hx _]%elem_of_prem. done. }
      exists p2. split; [by apply (on_sp_ok _ s2)|]. split; [|by rewrite Hps2, Hps1].
      apply (queues_ext _ _ _ _ HQ2). intros k _. unfold upd. case_decide; [subst|done].
      f_equal. unfold tprio, prio_of. by rewrite Hps1. }
  rewrite (bind_step _ _ _ _ _ E2). exists p2. split; [|done].
  unfold unlock_scheduler, modify. do 2 f_equal. unfold s2, s1, with_lock, with_threads, with_sp, unlocked. simpl.
  rewrite u32_sub_l, Z.add_simpl_r, u32_small by (unfold is_u32; lia). done.
Qed.

(** ** The invariant *)

(** Every thread is on exactly the list its state and policy name (none when
    it is new or running), and the CPU has the stack and the directory of the
    current thread. *)
Record sched_ok (ths : list Z) (Q : Z -> list Z) (s : sched) : Prop := {
  so_queues : queues ths Q (sp s);
  so_ths : forall th, th ∈ ths <-> is_Some (threads s !! th);
  so_place : forall th t h, threads s !! th = Some t -> h ∈ heads ->
    th ∈ Q h <-> get_list_from_thread (t_state t) (t_policy t) = h;
  so_lock : 0 <= scheduler_lock_counter s < 2 ^ 32 - 1;
  so_pdirs : forall th t, threads s !! th = Some t -> is_Some (pdirs s !! t_parent t);
  so_cpu : exists t, threads s !! current_thread s = Some t /\ current_process s = t_parent t /\
    tss_esp0 s = t_kernel_stack t /\ pdirs s !! t_parent t = Some (loaded_pdir s) }.

Lemma so_on ths Q s th t : sched_ok ths Q s -> threads s !! th = Some t ->
  forall h, h ∈ heads -> th ∈ Q h -> h = get_list_from_thread (t_state t) (t_policy t).
Proof. intros Hok Ht h Hh Hin. symmetry. by apply (so_place _ _ _ Hok th t h Ht Hh). Qed.

(** What the invariant says of threads that keep state and policy. *)
Definition alike (t t' : thread) : Prop :=
  t_policy t' = t_policy t /\ t_parent t' = t_parent t /\ t_kernel_stack t' = t_kernel_stack t.

Lemma place_moved ths Q s th t st : sched_ok ths Q s -> threads s !! th = Some t ->
  forall th' t' h, <[th := with_state st t]> (threads s) !! th' = Some t' -> h ∈ heads ->
    th' ∈ moved (tprio (sp s)) th t st Q h <-> get_list_from_thread (t_state t') (t_policy t') = h.
Proof.
  intros Hok Ht th' t' h. unfold moved. intros [[<- <-]|[Hne Ht']]%lookup_insert_Some Hh.
  - simpl. case_decide as E; split; intros Hx.
    + by rewrite E.
    + rewrite pins_perm. constructor.
    + apply elem_of_prem in Hx as [? _]. done.
    + congruence.
  - rewrite <- (so_place _ _ _ Hok th' t' h Ht' Hh). case_decide.
    + rewrite pins_perm, elem_of_cons, elem_of_prem. naive_solver.
    + rewrite elem_of_prem. naive_solver.
Qed.

Lemma update_thread_ok ths Q s th t st : sched_ok ths Q s -> (length ths <= fuel)%nat ->
  threads s !! th = Some t -> t_state t <> st ->
  exists p', update_thread th st s =
      Ok (tt, with_lock (scheduler_lock_counter s) (unlocked s)
                (with_threads (<[th := with_state st t]> (threads s)) (with_sp p' s))) /\
    sched_ok ths (moved (tprio (sp s)) th t st Q)
      (with_lock (scheduler_lock_counter s) (unlocked s)
         (with_threads (<[th := with_state st t]> (threads s)) (with_sp p' s))) /\
    prios p' = prios (sp s).
Proof.
  intros Hok Hfuel Ht Hst. assert (th ∈ ths) as Hth by (apply Hok; eauto).
  destruct (update_thread_core ths Q s th t st) as (p' & E & HQ & Hps);
    [apply Hok|done|done|done|done|apply Hok|by eapply so_on|].
  exists p'. split; [done|]. split; [|done]. split; simpl; [done| | |apply Hok| |].
  - intros th'. rewrite (so_ths _ _ _ Hok). destruct (decide (th' = th)) as [->|Hne].
    + rewrite lookup_insert_eq. naive_solver.
    + by rewrite lookup_insert_ne.
  - by apply (place_moved ths).
  - intros th' t' [[<- <-]|[_ Ht']]%lookup_insert_Some; [exact (so_pdirs _ _ _ Hok th t Ht)|].
    by apply (so_pdirs _ _ _ Hok th').
  - destruct (so_cpu _ _ _ Hok) as (tc & Hc & Hcpu). destruct (decide (current_thread s = th)) as [E1|Hne].
    + rewrite E1, lookup_insert_eq. exists (with_state st t). rewrite E1, Ht in Hc. by injection Hc as ->.
    + rewrite lookup_insert_ne by done. by exists tc.
Qed.

(** ** Who runs next *)

Definition ready (Q : Z -> list Z) : list Z :=
  Q kernel_ready_list ++ Q system_ready_list ++ Q app_ready_list.

Lemma pop_list_ok ths Q s h : queues ths Q (sp s) -> h ∈ heads ->
  match Q h with
  | [] => pop_next_thread_from_list h s = Ok (0, s)
  | th :: l => exists p', pop_next_thread_from_list h s = Ok (th, with_sp p' s) /\
      queues ths (fun k => prem th (Q k)) p' /\ prios p' = prios (sp s)
  end.
Proof.
  intros HQ Hh. destruct (first_ok _ _ _ _ HQ Hh) as [He Hf]. unfold pop_next_thread_from_list.
  rewrite (bind_step _ _ _ _ _ (on_sp_same _ _ _ He)).
  destruct (Q h) as [|th l] eqn:EQ; [done|]. rewrite bool_decide_false by done.
  rewrite (bind_step _ _ _ _ _ (on_sp_same _ _ _ (Hf th l eq_refl))).
  assert (th ∈ Q h) as Hin by (rewrite EQ; constructor).
  destruct (queues_del _ _ _ _ _ HQ Hh Hin) as (p' & E & HQ' & Hps).
  exists p'. rewrite (bind_step _ _ _ _ _ (on_sp_ok _ _ _ _ E)), of_sched_sibling_ok.
  split; [done|]. split; [|done]. apply (queues_ext _ _ _ _ HQ'). intros k Hk. unfold upd.
  case_decide; [by subst|]. apply prem_out. intros Hx. by apply (qs_disj _ _ _ HQ k h Hk Hh H th).
Qed.

Lemma prem_ready th Q l : ready Q = th :: l -> NoDup (ready Q) -> ready (fun k => prem th (Q k)) = l.
Proof.
  unfold ready. intros E Hnd. unfold prem. rewrite <- !filter_app, E. rewrite E in Hnd.
  apply (prem_split th [] l Hnd).
Qed.

Lemma pop_next_ok ths Q s : queues ths Q (sp s) ->
  match ready Q with
  | [] => pop_next_thread_to_run s = Ok (0, s)
  | th :: l => exists p', pop_next_thread_to_run s = Ok (th, with_sp p' s) /\ th ∈ ths /\
      queues ths (fun k => prem th (Q k)) p' /\ prios p' = prios (sp s)
  end.
Proof.
  intros HQ. unfold ready, pop_next_thread_to_run.
  assert (kernel_ready_list ∈ heads /\ system_ready_list ∈ heads /\ app_ready_list ∈ heads) as (K1 & K2 & K3)
    by (unfold heads; set_solver).
  assert (forall h th l, h ∈ heads -> Q h = th :: l -> th ∈ ths /\ (th =? 0) = false) as Hnz.
  { intros h th l Hh E. assert (th ∈ ths) as Hin by (apply (qs_sub _ _ _ HQ h Hh); rewrite E; constructor).
    split; [done|]. apply Z.eqb_neq. intros ->. by apply (qs_ths _ _ _ HQ). }
  pose proof (pop_list_ok _ _ _ _ HQ K1) as P1. pose proof (pop_list_ok _ _ _ _ HQ K2) as P2.
  pose proof (pop_list_ok _ _ _ _ HQ K3) as P3.
  destruct (Q kernel_ready_list) as [|th l] eqn:E1.
  - rewrite (bind_step _ _ _ _ _ P1). simpl. destruct (Q system_ready_list) as [|th l] eqn:E2.
    + rewrite (bind_step _ _ _ _ _ P2). simpl. destruct (Q app_ready_list) as [|th l] eqn:E3; [done|].
      destruct P3 as (p' & E & HQ' & Hps). exists p'. split; [done|]. by destruct (Hnz _ _ _ K3 E3).
    + destruct P2 as (p' & E & HQ' & Hps). destruct (Hnz _ _ _ K2 E2) as [Hin H0].
      rewrite (bind_step _ _ _ _ _ E), H0. by exists p'.
  - destruct P1 as (p' & E & HQ' & Hps). destruct (Hnz _ _ _ K1 E1) as [Hin H0].
    rewrite (bind_step _ _ _ _ _ E), H0. rewrite (bind_step _ _ _ _ _ (mret_ok _ _)), H0. by exists p'.
Qed.

(** The fields a switch to [th] leaves. *)
Record runs (ths : list Z) (Q : Z -> list Z) (th : Z) (t : thread) (s s' : sched) : Prop := {
  rn_queues : queues ths Q (sp s');
  rn_prios : prios (sp s') = prios (sp s);
  rn_threads : threads s' = <[th := with_state THREAD_RUNNING (with_slice 0 t)]> (threads s);
  rn_pdirs : pdirs s' = pdirs s;
  rn_current : current_thread s' = th;
  rn_lock : scheduler_lock_counter s' = scheduler_lock_counter s;
  rn_ints : interrupts s' = unlocked s }.

Lemma switch_thread_ok ths Q s th t pd : queues ths Q (sp s) -> (length ths <= fuel)%nat ->
  th ∈ ths -> threads s !! th = Some t -> t_state t <> THREAD_RUNNING ->
  0 <= scheduler_lock_counter s < 2 ^ 32 - 1 -> (forall h, h ∈ heads -> th ∉ Q h) ->
  pdirs s !! t_parent t = Some pd ->
  exists s', switch_thread th s = Ok (tt, s') /\ runs ths Q th t s s' /\
    if current_thread s =? th then
      current_process s' = current_process s /\ tss_esp0 s' = tss_esp0 s /\ loaded_pdir s' = loaded_pdir s
    else current_process s' = t_parent t /\ tss_esp0 s' = t_kernel_stack t /\ loaded_pdir s' = pd.
Proof.
  intros HQ Hfuel Hth Ht Hst Hlock Hoff Hpd. unfold switch_thread.
  rewrite (bind_step _ _ _ (current_thread s) s) by done.
  assert (forall s1, sp s1 = sp s -> threads s1 = <[th := with_slice 0 t]> (threads s) ->
    scheduler_lock_counter s1 = scheduler_lock_counter s ->
    exists p', update_thread th THREAD_RUNNING s1 =
      Ok (tt, with_lock (scheduler_lock_counter s) (unlocked s)
            (with_threads (<[th := with_state THREAD_RUNNING (with_slice 0 t)]> (threads s)) (with_sp p' s1))) /\
      queues ths Q p' /\ prios p' = prios (sp s)) as Hup.
  { intros s1 Hsp Hts Hl.
    destruct (update_thread_core ths Q s1 th (with_slice 0 t) THREAD_RUNNING) as (p' & E & HQ' & Hps);
      [by rewrite Hsp|done|done|rewrite Hts; apply lookup_insert_eq|done|by rewrite Hl| |].
    { intros h Hh Hin. by apply Hoff in Hin. }
    exists p'. rewrite E. split_and!.
    - unfold unlocked. by rewrite Hl, Hts, insert_insert_eq.
    - apply (queues_ext _ _ _ _ HQ'). intros h Hh. unfold moved. simpl. rewrite decide_False.
      + symmetry. by apply prem_out, Hoff.
      + intros ->. by apply (qs_heads _ _ _ HQ).
    - by rewrite Hps, Hsp. }
  destruct (Z.eqb_spec (current_thread s) th) as [Hc|Hne].
  - rewrite Hc, (bind_step _ _ _ _ _ (get_thread_ok _ _ _ Ht)).
    rewrite (bind_step _ _ _ tt (with_threads (<[th := with_slice 0 t]> (threads s)) s)) by done.
    destruct (Hup (with_threads (<[th := with_slice 0 t]> (threads s)) s)) as (p' & E & HQ' & Hps); [done..|].
    rewrite E. eexists. split; [reflexivity|]. split; [|done]. by split.
  - rewrite (bind_step _ _ _ tt (with_current th s)) by done.
    rewrite (bind_step _ _ _ _ _ (get_thread_ok th t (with_current th s) Ht)).
    set (s1 := with_threads (<[th := with_slice 0 t]> (threads s)) (with_current th s)).
    rewrite (bind_step _ _ _ tt s1) by done.
    destruct (Hup s1) as (p' & E & HQ' & Hps); [done..|]. rewrite (bind_step _ _ _ _ _ E).
    erewrite (bind_step _ _ _ (with_state THREAD_RUNNING (with_slice 0 t)))
      by (apply get_thread_ok; simpl; apply lookup_insert_eq).
    erewrite (bind_step (deref _) _ _ pd) by (apply deref_some; exact Hpd).
    eexists. split; [reflexivity|]. split; [|done]. by split.
Qed.

Lemma heads_NoDup ths Q p : queues ths Q p -> NoDup heads.
Proof. intros HQ. pose proof (qs_addr _ _ _ HQ) as Hnd. by apply NoDup_app in Hnd as (Hnd & _ & _). Qed.

Lemma ready_state ths Q s th t l : sched_ok ths Q s -> ready Q = th :: l -> threads s !! th = Some t ->
  t_state t = THREAD_READY.
Proof.
  intros Hok E Ht. assert (th ∈ ready Q) as Hin by (rewrite E; constructor). unfold ready in Hin.
  pose proof (heads_NoDup _ _ _ (so_queues _ _ _ Hok)) as Hnd. unfold heads in Hnd.
  pose proof (qs_heads _ _ _ (so_queues _ _ _ Hok)) as H0. unfold heads in H0.
  assert (exists h, h ∈ [kernel_ready_list; system_ready_list; app_ready_list] /\ th ∈ Q h) as (h & Hh & Hq)
    by (rewrite !elem_of_app in Hin; destruct Hin as [?|[?|?]]; eexists; (split; [|eassumption]); set_solver).
  pose proof (so_on _ _ _ _ _ Hok Ht h ltac:(unfold heads; set_solver) Hq) as Hl. subst h.
  destruct (t_state t); simpl in Hh; try done; nodup; set_solver.
Qed.

Lemma ready_NoDup ths Q p : queues ths Q p -> NoDup (ready Q).
Proof.
  intros HQ. pose proof (heads_NoDup _ _ _ HQ) as Hnd. unfold heads in Hnd. unfold ready.
  assert (kernel_ready_list <> system_ready_list /\ kernel_ready_list <> app_ready_list /\
    system_ready_list <> app_ready_list) as (N1 & N2 & N3) by (nodup; set_solver).
  assert (kernel_ready_list ∈ heads /\ system_ready_list ∈ heads /\ app_ready_list ∈ heads) as (K1 & K2 & K3)
    by (unfold heads; set_solver).
  apply NoDup_app. split; [by eapply queues_NoDup|]. split.
  - intros x Hx [Hy|Hy]%elem_of_app; [by apply (qs_disj _ _ _ HQ _ _ K1 K2 N1 x)|].
    by apply (qs_disj _ _ _ HQ _ _ K1 K3 N2 x).
  - apply NoDup_app. split; [by eapply queues_NoDup|]. split; [|by eapply queues_NoDup].
    intros x Hx Hy. by apply (qs_disj _ _ _ HQ _ _ K2 K3 N3 x).
Qed.

Lemma elem_ready_ths ths Q p th l : queues ths Q p -> ready Q = th :: l -> th ∈ ths.
Proof.
  intros HQ E. assert (th ∈ ready Q) as Hin by (rewrite E; constructor). unfold ready in Hin.
  rewrite !elem_of_app in Hin.
  destruct Hin as [Hi|[Hi|Hi]]; eapply (qs_sub _ _ _ HQ); try exact Hi; unfold heads; set_solver.
Qed.

(** The thread has signals that [schedule] delivers. *)
Definition signalled (t : thread) : bool :=
  negb (t_pending t =? 0) && (Z.land (t_flags t) TIF_SIGNAL_MANUAL =? 0).

(** Up to the delivery of signals, which runs with the scheduler locked. *)
Lemma schedule_switch irqs ths Q s c th t l : sched_ok ths Q s -> (length ths <= fuel)%nat ->
  scheduler_lock_counter s < 2 ^ 32 - 2 ->
  threads s !! current_thread s = Some c -> t_state c <> THREAD_RUNNING ->
  ready Q = th :: l -> threads s !! th = Some t ->
  exists s', schedule irqs s = (mwhen (signalled t) handle_signal;; unlock_scheduler)
      (with_lock (scheduler_lock_counter s + 1) false s') /\
    sched_ok ths (fun h => prem th (Q h)) s' /\
    runs ths (fun h => prem th (Q h)) th t s s' /\ ready (fun h => prem th (Q h)) = l.
Proof.
  intros Hok Hfuel Hlock Hc Hcs Er Ht. pose proof (so_queues _ _ _ Hok) as HQ.
  pose proof (so_lock _ _ _ Hok) as Hl0. unfold schedule.
  rewrite (bind_step _ _ _ (current_thread s) s) by done.
  rewrite (bind_step _ _ _ _ _ (get_thread_ok _ _ _ Hc)), decide_False by done.
  set (s1 := with_lock (u32 (scheduler_lock_counter s + 1)) false s).
  rewrite (bind_step _ _ _ tt s1) by done.
  pose proof (pop_next_ok ths Q s1 HQ) as Hpop. rewrite Er in Hpop.
  destruct Hpop as (p' & E & Hin & HQ' & Hps). rewrite (bind_step _ _ _ _ _ E).
  rewrite (proj2 (Z.eqb_neq th 0)) by (intros ->; by apply (qs_ths _ _ _ HQ)).
  rewrite (bind_step _ _ _ _ _ (mret_ok _ _)).
  destruct (so_pdirs _ _ _ Hok th t Ht) as [pd Hpd].
  assert (scheduler_lock_counter s1 = scheduler_lock_counter s + 1) as Hl1
    by (simpl; apply u32_small; unfold is_u32; lia).
  destruct (switch_thread_ok ths (fun k => prem th (Q k)) (with_sp p' s1) th t pd)
    as (s2 & E2 & [R1 R2 R3 R4 R5 R6 R7] & Hcpu); [done|done|done|done| | | |done|].
  { rewrite (ready_state ths Q s th t l); done. }
  { change (scheduler_lock_counter (with_sp p' s1)) with (scheduler_lock_counter s1). lia. }
  { intros h _ [Hx _]%elem_of_prem. done. }
  rewrite (bind_step _ _ _ _ _ E2). rewrite (bind_step _ _ _ (current_thread s2) s2) by done.
  rewrite R5. erewrite (bind_step (get_thread th)).
  2:{ apply get_thread_ok. rewrite R3. apply lookup_insert_eq. }
  simpl t_pending. simpl t_flags. fold (signalled t).
  assert (scheduler_lock_counter s2 = scheduler_lock_counter s + 1) as Hl2 by (by rewrite R6).
  assert (interrupts s2 = false) as Hi2.
  { rewrite R7. unfold unlocked. change (scheduler_lock_counter (with_sp p' s1)) with (scheduler_lock_counter s1).
    rewrite Hl1. by rewrite (proj2 (Z.eqb_neq _ _)) by lia. }
  exists (with_lock (scheduler_lock_counter s) (unlocked s) s2). split.
  { f_equal. rewrite <- Hl2, <- Hi2. by destruct s2. }
  assert (runs ths (fun h => prem th (Q h)) th t s (with_lock (scheduler_lock_counter s) (unlocked s) s2)) as Hruns.
  { split; simpl; try done. rewrite R2. exact Hps. }
  split; [|split; [done|by apply prem_ready; [|eapply ready_NoDup]]].
  split; simpl; rewrite ?R3, ?R4, ?R5; try done.
  - intros th'. rewrite (so_ths _ _ _ Hok). simpl. destruct (decide (th' = th)) as [->|Hne].
    + rewrite lookup_insert_eq, Ht. naive_solver.
    + by rewrite lookup_insert_ne.
  - intros th' t' h [[<- <-]|[Hne Ht']]%lookup_insert_Some Hh; simpl.
    + rewrite elem_of_prem. split; [naive_solver|]. intros <-. by destruct (qs_heads _ _ _ HQ).
    + rewrite <- (so_place _ _ _ Hok th' t' h Ht' Hh), elem_of_prem. naive_solver.
  - intros th' t' [[<- <-]|[Hne Ht']]%lookup_insert_Some; [exact (so_pdirs _ _ _ Hok th t Ht)|].
    exact (so_pdirs _ _ _ Hok th' t' Ht').
  - rewrite lookup_insert_eq. eexists. split; [done|]. simpl. simpl in Hcpu.
    destruct (Z.eqb_spec (current_thread s) th) as [Hcur|Hcur].
    + destruct (so_cpu _ _ _ Hok) as (tc & Htc & Hcpu0). rewrite Hcur, Ht in Htc.
      injection Htc as <-. destruct Hcpu as (-> & -> & ->). exact Hcpu0.
    + destruct Hcpu as (-> & -> & ->). done.
Qed.

(** Without a signal, the lock goes back to its count. *)
Lemma unlock_again ths Q th t s s' : 0 <= scheduler_lock_counter s < 2 ^ 32 - 1 -> scheduler_lock_counter s < 2 ^ 32 - 2 ->
  runs ths Q th t s s' ->
  (mwhen false handle_signal;; unlock_scheduler) (with_lock (scheduler_lock_counter s + 1) false s') = Ok (tt, s').
Proof.
  intros H0 H1 [_ _ _ _ _ R6 R7].
  rewrite (bind_step _ _ _ tt (with_lock (scheduler_lock_counter s + 1) false s')) by done.
  unfold unlock_scheduler, modify. simpl. rewrite Z.add_simpl_r, u32_small by (unfold is_u32; lia).
  unfold unlocked in R7. rewrite <- R7, <- R6. by destruct s'.
Qed.

Lemma schedule_ok irqs ths Q s c th t l : sched_ok ths Q s -> (length ths <= fuel)%nat ->
  scheduler_lock_counter s < 2 ^ 32 - 2 ->
  threads s !! current_thread s = Some c -> t_state c <> THREAD_RUNNING ->
  ready Q = th :: l -> threads s !! th = Some t -> signalled t = false ->
  exists s', schedule irqs s = Ok (tt, s') /\ sched_ok ths (fun h => prem th (Q h)) s' /\
    runs ths (fun h => prem th (Q h)) th t s s' /\ ready (fun h => prem th (Q h)) = l.
Proof.
  intros Hok Hfuel Hlock Hc Hcs Er Ht Hsig. pose proof (so_lock _ _ _ Hok) as Hl0.
  destruct (schedule_switch irqs ths Q s c th t l) as (s' & E & Hok' & Hr & Hl); [done..|].
  exists s'. split; [|done]. rewrite E, Hsig. by apply (unlock_again _ _ _ _ _ _ Hl0 Hlock Hr).
Qed.

(** ** The timer interrupt *)

Lemma scale_loop_ok h sc : forall l2 l1 n p,
  circle (links p) (h :: (node_list <$> l1 ++ l2)) -> (forall x, x ∈ l2 -> is_Some (prios p !! x)) ->
  (length l2 < n)%nat ->
  exists p', scale_loop (of_node_list (hd h (node_list <$> l2))) h sc n p = Ok (tt, p') /\
    links p' = links p /\
    forall x, prios p' !! x = if decide (x ∈ l2) then (fun q => s32 (q - sc)) <$> prios p !! x else prios p !! x.
Proof.
  induction l2 as [|a l2 IH]; intros l1 n p Hc Hs Hn; (destruct n as [|n]; [simpl in Hn; lia|]);
    cbn [scale_loop]; rewrite node_list_of_node_list.
  - change (hd h (node_list <$> [])) with h. rewrite Z.eqb_refl. exists p. split; [done|]. split; [done|]. intros x.
    by rewrite decide_False by set_solver.
  - change (hd h (node_list <$> a :: l2)) with (node_list a). rewrite of_node_list_node_list.
    pose proof (circle_NoDup _ _ Hc) as Hnd. apply NoDup_cons in Hnd as [Hh Hnd].
    rewrite (proj2 (Z.eqb_neq (node_list a) h)).
    2:{ intros <-. apply Hh, list_elem_of_fmap_2. set_solver. }
    destruct (Hs a ltac:(constructor)) as [q Hq].
    rewrite (bind_step _ _ _ _ _ (get_prio_ok _ _ _ Hq)).
    set (p1 := mk_pheap (links p) (<[a := s32 (q - sc)]> (prios p))).
    rewrite (bind_step _ _ _ tt p1) by done.
    assert (plist_next a p1 = Ok (of_node_list (hd h (node_list <$> l2)), p1)) as En.
    { rewrite fmap_app in Hc. pose proof (circle_next _ _ _ (circle_at _ _ _ _ _ Hc)) as En.
      unfold plist_next. rewrite (bind_step _ _ _ _ _ (on_links_same _ p1 _ (get_next_ok _ _ _ En))).
      by destruct l2. }
    rewrite (bind_step _ _ _ _ _ En).
    assert (a ∉ l2) as Ha.
    { apply NoDup_fmap_1, NoDup_app in Hnd as (_ & _ & Hnd). by apply NoDup_cons in Hnd as [? _]. }
    destruct (IH (l1 ++ [a]) n p1) as (p' & E & Hl & Hp); [by rewrite <- app_assoc| |simpl in Hn; lia|].
    { intros x Hx. simpl. rewrite lookup_insert_ne by (intros ->; done). apply Hs. by constructor. }
    exists p'. split; [done|]. split; [done|]. intros x. rewrite Hp. simpl.
    destruct (decide (x = a)) as [->|Hne].
    + rewrite decide_False by done. rewrite decide_True by constructor. by rewrite lookup_insert_eq, Hq.
    + rewrite lookup_insert_ne by done. repeat case_decide; set_solver.
Qed.

(** Only priorities change: those of list [h] by the same amount, that of an
    unlinked thread to anything. *)
Lemma queues_reprio ths Q p p' h c d : queues ths Q p -> h ∈ heads -> c ∈ ths ->
  (forall k, k ∈ heads -> c ∉ Q k) -> links p' = links p ->
  (forall th, th ∈ Q h -> prios p' !! sched_sibling th = Some (tprio p th + d)) ->
  is_Some (prios p' !! sched_sibling c) ->
  (forall th, th ∈ ths -> th ∉ Q h -> th <> c -> prios p' !! sched_sibling th = prios p !! sched_sibling th) ->
  queues ths Q p'.
Proof.
  intros HQ Hh Hc Hoff Hl Hsh Hcs Hother. destruct HQ as [H1 H2 H3 H4 H5 H6 H7]. split; try done.
  - intros k Hk. destruct (decide (k = h)) as [->|Hne].
    + apply (plist_shift h _ p p' d); [auto|done|]. intros n (th & -> & Hth)%list_elem_of_fmap. by apply Hsh.
    + apply (plist_frame _ _ p p' [] (H1 k Hk)); [rewrite Hl; apply changes_refl| |set_solver].
      intros n (th & -> & Hth)%list_elem_of_fmap. apply Hother; [by apply (H2 k)| |intros ->; by apply (Hoff k)].
      intros Hx. by apply (H3 k h Hk Hh Hne th).
  - intros th Hth Hto. destruct (H4 th Hth Hto) as [D1 D2 D3 D4]. split; rewrite ?Hl; try done.
    destruct (decide (th = c)) as [->|Hne]; [done|]. by rewrite Hother by auto.
Qed.

Lemma pins_last pr c q : Forall (fun x => pr x <= pr c) q -> pins pr c q = q ++ [c].
Proof. intros H. pose proof (pins_split pr c q [] H (List.Forall_nil _)) as E. by rewrite app_nil_r in E. Qed.

Lemma queue_sorted ths Q p h : queues ths Q p -> h ∈ heads -> StronglySorted Z.le (tprio p <$> Q h).
Proof.
  intros HQ Hh. destruct (qs_plist _ _ _ HQ h Hh) as (gs & Hf & HI). pose proof (flat_sorted _ _ _ HI) as Hso.
  rewrite Hf, <- list_fmap_compose in Hso. exact Hso.
Qed.

Lemma queue_prio ths Q p h th : queues ths Q p -> h ∈ heads -> th ∈ Q h ->
  prios p !! sched_sibling th = Some (tprio p th).
Proof.
  intros HQ Hh Hth. destruct (qs_plist _ _ _ HQ h Hh) as (gs & Hf & HI).
  assert (sched_sibling th ∈ flat gs) as (g & Hg & Hn)%elem_of_flat
    by (rewrite Hf; by apply list_elem_of_fmap_2).
  unfold tprio, prio_of. by rewrite (pi_val _ _ _ HI g _ Hg Hn).
Qed.

(** Priorities are [int]s. The rescaling and the increment of the timer
    interrupt stay inside them, and will stay, as long as the ready threads
    [q] have room: behind some of them, the threads that were requeued last
    follow each other in steps of one, and the others (at most [length l1])
    add one each to the distance of the first and the last. *)
Definition ladder (pr : Z -> Z) (l : list Z) : Prop :=
  forall i a b, l !! i = Some a -> l !! S i = Some b -> pr b = pr a + 1.

Definition room (pr : Z -> Z) (q : list Z) : Prop :=
  (forall a, a ∈ q -> - 2 ^ 31 <= pr a <= INT_MAX) /\
  exists l1 l2, q = l1 ++ l2 /\ l2 <> [] /\ ladder pr l2 /\
    forall a b, a ∈ q -> b ∈ q -> pr b - pr a + Z.of_nat (length l1) < INT_MAX.

(** Any ready list whose spread and length add up to an [int] has room. *)
Lemma room_start pr q : q <> [] -> (forall a, a ∈ q -> - 2 ^ 31 <= pr a <= INT_MAX) ->
  (forall a b, a ∈ q -> b ∈ q -> pr b - pr a + Z.of_nat (length q) <= INT_MAX) -> room pr q.
Proof.
  intros Hne Hint Hs. split; [done|]. destruct (exists_last Hne) as (l1 & z & ->).
  exists l1, [z]. split_and!; [done|done|intros i a b _ Hb; by destruct i|].
  intros a b Ha Hb. specialize (Hs a b Ha Hb). rewrite length_app in Hs. simpl in Hs. lia.
Qed.

Lemma ladder_tail pr a l : ladder pr (a :: l) -> ladder pr l.
Proof. intros H i x y Hx Hy. exact (H (S i) x y Hx Hy). Qed.

Lemma ladder_above pr a l : ladder pr (a :: l) -> forall x, x ∈ l -> pr a + 1 <= pr x.
Proof.
  revert a. induction l as [|b l IH]; intros a H x Hx; [set_solver|].
  pose proof (H 0%nat a b eq_refl eq_refl) as Hb. apply elem_of_cons in Hx as [->|Hx]; [lia|].
  pose proof (IH b (ladder_tail _ _ _ H) x Hx). lia.
Qed.

Lemma ladder_snoc pr l z c : ladder pr (l ++ [z]) -> pr c = pr z + 1 -> ladder pr ((l ++ [z]) ++ [c]).
Proof.
  intros H Hc i a b Ha Hb. apply lookup_app_Some in Hb as [Hb|[Hlen Hb]].
  - apply (H i); [|done]. apply lookup_lt_Some in Hb. by rewrite lookup_app_l in Ha by lia.
  - apply list_lookup_singleton_Some in Hb as [Hi <-]. rewrite length_app in Hi, Hlen. simpl in Hi, Hlen.
    rewrite lookup_app_l in Ha by (rewrite length_app; simpl; lia).
    rewrite lookup_app_r in Ha by lia. replace (i - length l)%nat with 0%nat in Ha by lia. injection Ha as <-. done.
Qed.

Lemma ladder_ext pr pr' d l : (forall x, x ∈ l -> pr' x = pr x + d) -> ladder pr l -> ladder pr' l.
Proof.
  intros He H i a b Ha Hb. rewrite !He by (by eapply list_elem_of_lookup_2). rewrite (H i a b Ha Hb). lia.
Qed.

(** The room is kept when the first thread gets the CPU and the thread [c] that
    had it is put behind the last one, [z]. *)
Lemma room_rotate pr pr' th l z c : room pr (th :: l) -> StronglySorted Z.le (pr <$> th :: l) ->
  last (th :: l) = Some z -> c ∉ th :: l -> (forall y, y ∈ th :: l -> pr' y = pr y - pr th) ->
  pr' c = pr z - pr th + 1 -> room pr' (l ++ [c]).
Proof.
  intros [Hint (l1 & l2 & Eq & Hne & Hlad & Hroom)] Hso Hz Hc Hpr Hprc.
  assert (z ∈ th :: l) as Hzin by (by apply last_Some_elem_of).
  assert (th ∈ th :: l) as Hthin by constructor.
  assert (forall y, y ∈ th :: l -> pr th <= pr y /\ pr y <= pr z) as Hbetween.
  { intros y Hy. split.
    - apply StronglySorted_inv in Hso as [_ Hall]. apply elem_of_cons in Hy as [->|Hy]; [lia|].
      rewrite list.Forall_forall in Hall. apply Hall. by apply list_elem_of_fmap_2.
    - apply last_Some in Hz as [l0 Hl0]. rewrite Hl0 in Hso, Hy. rewrite fmap_app in Hso.
      apply StronglySorted_app in Hso as (Hx & _ & _).
      apply elem_of_app in Hy as [Hy|Hy%list_elem_of_singleton]; [|subst; lia].
      apply Hx; [by apply list_elem_of_fmap_2|simpl; constructor]. }
  pose proof (Hroom th z Hthin Hzin) as Hthz.
  assert (forall y, y ∈ l ++ [c] -> 0 <= pr' y <= pr z - pr th + 1) as Hrange.
  { intros y [Hy|Hy%list_elem_of_singleton]%elem_of_app; [|subst; pose proof (Hbetween z Hzin); lia].
    rewrite Hpr by (by constructor). pose proof (Hbetween y ltac:(by constructor)). lia. }
  split; [intros y Hy; specialize (Hrange y Hy); unfold INT_MAX in *; lia|].
  destruct l1 as [|x l1].
  - exists [], (l ++ [c]). simpl in Eq. subst l2.
    assert (ladder pr' (l ++ [c])) as Hlad'.
    { destruct (exists_last (l := th :: l)) as (l0 & z' & Hl0); [done|].
      assert (z' = z) as -> by (rewrite Hl0, last_snoc in Hz; congruence).
      apply (ladder_tail _ th). rewrite app_comm_cons, Hl0. apply ladder_snoc.
      - rewrite <- Hl0. apply (ladder_ext pr pr' (- pr th)); [|done]. intros y Hy. rewrite Hpr by done. lia.
      - rewrite Hprc, Hpr by done. lia. }
    split_and!; [done|by destruct l|done|]. intros a b Ha Hb. simpl. pose proof (Hrange b Hb).
    unfold INT_MAX in *. simpl in Hthz.
    assert (a = c \/ 1 <= pr' a) as [->|Ha1]; [|pose proof (Hrange c ltac:(set_solver)); lia|lia].
    apply elem_of_app in Ha as [Ha|Ha%list_elem_of_singleton]; [right|by left].
    rewrite Hpr by (by constructor). pose proof (ladder_above _ _ _ Hlad a Ha). lia.
  - injection Eq as <- Eq. exists l1, (l2 ++ [c]). rewrite Eq, app_assoc. split_and!; [done|by destruct l2| |].
    + destruct (exists_last (l := l2)) as (l0 & z' & Hl0); [done|].
      assert (z' = z) as ->.
      { rewrite Eq, Hl0, app_assoc, app_comm_cons, last_snoc in Hz. congruence. }
      rewrite Hl0. apply ladder_snoc; [|rewrite Hprc, Hpr by done; lia].
      rewrite <- Hl0. apply (ladder_ext pr pr' (- pr th)); [|done].
      intros y Hy. rewrite Hpr by (rewrite Eq; set_solver). lia.
    + intros a b Ha Hb. rewrite <- Eq in Ha, Hb. pose proof (Hrange a Ha). pose proof (Hrange b Hb).
      simpl in Hthz. lia.
Qed.

(** The rescaling step: the ready application threads keep their order and
    their distances, and the current thread gets a priority behind them all. *)
Lemma rescale_ok ths Q s c th l : queues ths Q (sp s) -> (length ths < fuel)%nat -> c ∈ ths ->
  (forall k, k ∈ heads -> c ∉ Q k) -> Q app_ready_list = th :: l -> room (tprio (sp s)) (Q app_ready_list) ->
  exists p', (first ← on_sp (plist_first app_ready_list);
      last ← on_sp (plist_last app_ready_list);
      scale ← on_sp (get_prio first);
      on_sp (scale_loop first app_ready_list scale fuel);;
      lp ← on_sp (get_prio last);
      on_sp (set_prio (sched_sibling c) (s32 (lp + 1)))) s = Ok (tt, with_sp p' s) /\
    queues ths Q p' /\ pins (tprio p') c (Q app_ready_list) = Q app_ready_list ++ [c] /\
    room (tprio p') (l ++ [c]).
Proof.
  intros HQ Hfuel Hc Hoff EQ Hroom. set (A := app_ready_list) in *.
  assert (A ∈ heads) as HA by (unfold heads; set_solver).
  destruct (first_ok _ _ _ _ HQ HA) as [_ Hfirst]. rewrite (bind_step _ _ _ _ _ (on_sp_same _ _ _ (Hfirst th l EQ))).
  destruct (qs_plist _ _ _ HQ A HA) as (gs & Hf & HI).
  destruct (exists_last (l := Q A)) as (l0 & z & Hz); [by rewrite EQ|].
  assert (plist_last A (sp s) = Ok (sched_sibling z, sp s)) as Hlast.
  { apply (plist_last_ok A gs (sched_sibling <$> l0)); [done|]. by rewrite Hf, Hz, fmap_app. }
  rewrite (bind_step _ _ _ _ _ (on_sp_same _ _ _ Hlast)).
  assert (th ∈ Q A) as Hth by (rewrite EQ; constructor). assert (z ∈ Q A) as Hzin by (rewrite Hz; set_solver).
  rewrite (bind_step _ _ _ _ _ (on_sp_same _ _ _ (get_prio_ok _ _ _ (queue_prio _ _ _ _ _ HQ HA Hth)))).
  set (sc := tprio (sp s) th).
  pose proof (pi_nodes _ _ _ HI) as Hc0. rewrite Hf in Hc0.
  destruct (scale_loop_ok A sc (sched_sibling <$> Q A) [] fuel (sp s)) as (p1 & E1 & Hl1 & Hp1); [done| | |].
  { intros x (y & -> & Hy)%list_elem_of_fmap. rewrite (queue_prio _ _ _ _ _ HQ HA Hy). eauto. }
  { rewrite length_fmap. eapply Nat.le_lt_trans; [|done].
    apply submseteq_length, NoDup_submseteq; [by eapply queues_NoDup|by apply (qs_sub _ _ _ HQ)]. }
  assert (of_node_list (hd A (node_list <$> (sched_sibling <$> Q A))) = sched_sibling th) as Eh
    by (rewrite EQ; simpl; apply of_node_list_node_list).
  rewrite Eh in E1. rewrite (bind_step _ _ _ _ _ (on_sp_ok _ _ _ _ E1)).
  pose proof (queue_sorted _ _ _ _ HQ HA) as Hso.
  assert (forall y, y ∈ Q A -> sc <= tprio (sp s) y < sc + INT_MAX) as Hsc.
  { intros y Hy. destruct Hroom as [_ (l1 & l2 & _ & _ & _ & Hr)]. specialize (Hr th y Hth Hy). fold sc in Hr.
    rewrite EQ in Hso, Hy. apply StronglySorted_inv in Hso as [_ Hall]. rewrite list.Forall_forall in Hall.
    apply elem_of_cons in Hy as [->|Hy]; [fold sc; unfold INT_MAX; lia|].
    specialize (Hall (tprio (sp s) y) ltac:(by apply list_elem_of_fmap_2)). fold sc in Hall. lia. }
  assert (forall y, y ∈ Q A -> prios p1 !! sched_sibling y = Some (tprio (sp s) y - sc)) as Hp1A.
  { intros y Hy. rewrite Hp1, decide_True by (by apply list_elem_of_fmap_2).
    rewrite (queue_prio _ _ _ _ _ HQ HA Hy). simpl. specialize (Hsc y Hy). unfold INT_MAX in Hsc.
    by rewrite s32_small by lia. }
  rewrite (bind_step _ _ _ _ _ (on_sp_same _ (with_sp p1 s) _ (get_prio_ok _ _ _ (Hp1A z Hzin)))).
  set (p2 := mk_pheap (links p1) (<[sched_sibling c := tprio (sp s) z - sc + 1]> (prios p1))).
  rewrite s32_small by (specialize (Hsc z Hzin); unfold INT_MAX in Hsc; lia).
  exists p2. split; [done|].
  assert (c ∉ Q A) as HcA by auto.
  assert (forall y, y ∈ Q A -> prios p2 !! sched_sibling y = Some (tprio (sp s) y - sc)) as Hp2A.
  { intros y Hy. simpl. rewrite lookup_insert_ne; [by apply Hp1A|].
    intros E%(inj sched_sibling). subst. done. }
  split.
  - apply (queues_reprio ths Q (sp s) p2 A c (- sc)); [done..| | |].
    + intros y Hy. rewrite Hp2A by done. done.
    + simpl. rewrite lookup_insert_eq. eauto.
    + intros y Hy Hn Hne. simpl. rewrite lookup_insert_ne by (intros E%(inj sched_sibling); done).
      rewrite Hp1, decide_False; [done|]. intros (x & E%(inj sched_sibling) & Hx)%list_elem_of_fmap. by subst.
  - assert (forall y, y ∈ Q A -> tprio p2 y = tprio (sp s) y - sc) as Ht2.
    { intros y Hy. unfold tprio at 1, prio_of. by rewrite Hp2A. }
    assert (tprio p2 c = tprio (sp s) z - sc + 1) as Htc.
    { unfold tprio at 1, prio_of. simpl. by rewrite lookup_insert_eq. }
    assert (last (Q A) = Some z) as Hlz by (rewrite Hz; apply last_snoc).
    split; [|rewrite EQ in *; by apply (room_rotate (tprio (sp s)) _ th l z)].
    apply pins_last. apply list.Forall_forall. intros y Hy. rewrite Ht2, Htc by done. rewrite Hz in Hso, Hy.
    enough (tprio (sp s) y <= tprio (sp s) z) by lia.
    apply elem_of_app in Hy as [Hy|Hy%list_elem_of_singleton]; [|subst; lia].
    rewrite fmap_app in Hso. apply StronglySorted_app in Hso as (Hx & _ & _).
    apply Hx; [by apply list_elem_of_fmap_2|simpl; constructor].
Qed.

Lemma sched_ok_lock ths Q s n i : sched_ok ths Q s -> 0 <= n < 2 ^ 32 - 1 -> sched_ok ths Q (with_lock n i s).
Proof. intros [H1 H2 H3 H4 H5 H6] Hn. by split. Qed.

Lemma sched_ok_sp ths Q s p : sched_ok ths Q s -> queues ths Q p -> sched_ok ths Q (with_sp p s).
Proof. intros [H1 H2 H3 H4 H5 H6] Hn. by split. Qed.

Lemma sched_ok_slice ths Q s th t n : sched_ok ths Q s -> threads s !! th = Some t ->
  sched_ok ths Q (with_threads (<[th := with_slice n t]> (threads s)) s).
Proof.
  intros Hok Ht. pose proof Hok as [H1 H2 H3 H4 H5 (tc & Hc & Hcpu)]. split; simpl; try done.
  - intros th'. rewrite H2. destruct (decide (th' = th)) as [->|Hne]; [|by rewrite lookup_insert_ne].
    rewrite lookup_insert_eq, Ht. naive_solver.
  - intros th' t' h [[<- <-]|[_ Ht']]%lookup_insert_Some Hh; [by apply (H3 th t)|by apply H3].
  - intros th' t' [[<- <-]|[_ Ht']]%lookup_insert_Some; [exact (H5 th t Ht)|exact (H5 th' t' Ht')].
  - destruct (decide (current_thread s = th)) as [E|Hne].
    + rewrite E, lookup_insert_eq. rewrite E, Ht in Hc. injection Hc as <-. eauto.
    + rewrite lookup_insert_ne by done. eauto.
Qed.

(** One application thread runs, the others wait their turn with room for the
    priorities, no kernel or system thread is ready and no signal is pending. *)
Record round_robin (ths : list Z) (cur : Z) (q : list Z) (k : Z) (s : sched) : Prop := {
  rr_queues : exists Q, sched_ok ths Q s /\ Q kernel_ready_list = [] /\ Q system_ready_list = [] /\
    Q app_ready_list = q;
  rr_lock : scheduler_lock_counter s = 0;
  rr_cur : current_thread s = cur;
  rr_run : exists c, threads s !! cur = Some c /\ t_state c = THREAD_RUNNING /\
    t_policy c = THREAD_APP_POLICY /\ t_time_slice c = k;
  rr_quiet : forall th t, threads s !! th = Some t -> t_pending t = 0;
  rr_room : room (tprio (sp s)) q }.

Lemma tick_keep irqs ths cur q k s : round_robin ths cur q k s -> 0 <= k -> k + 1 < SLICE_THRESHOLD ->
  exists s', irq_schedule_handler irqs s = Ok (tt, s') /\ round_robin ths cur q (k + 1) s'.
Proof.
  intros [(Q & Hok & HQ) Hl Hcur (c & Hc & Hst & Hpol & Hsl) Hq Hroom] Hk Hlt. unfold SLICE_THRESHOLD in Hlt.
  unfold irq_schedule_handler. rewrite (bind_step _ _ _ cur s) by (unfold gets; by rewrite Hcur).
  rewrite (bind_step _ _ _ _ _ (get_thread_ok _ _ _ Hc)), decide_False by (rewrite Hst, Hpol; naive_solver).
  rewrite Hsl, u32_small by (unfold is_u32; lia). unfold SLICE_THRESHOLD.
  set (s1 := with_lock (u32 (scheduler_lock_counter s + 1)) false s). rewrite (bind_step _ _ _ tt s1) by done.
  set (s2 := with_threads (<[cur := with_slice (k + 1) c]> (threads s1)) s1).
  rewrite (bind_step _ _ _ tt s2) by done. rewrite (proj2 (Z.leb_gt _ _)) by lia.
  rewrite (bind_step _ _ _ _ _ (mret_ok _ _)).
  set (s3 := with_lock 0 true s2). rewrite (bind_step _ _ _ tt s3).
  2:{ unfold s3, s2, s1, unlock_scheduler, modify. simpl. by rewrite Hl. }
  eexists. split; [reflexivity|]. split; try done.
  - exists Q. split; [|done]. apply sched_ok_lock; [|lia].
    apply (sched_ok_slice ths Q s1); [|done]. apply sched_ok_lock; [done|]. rewrite Hl. zdec.
  - exists (with_slice (k + 1) c). split; [apply lookup_insert_eq|done].
  - simpl. intros th t [[<- <-]|[_ Ht]]%lookup_insert_Some; [exact (Hq cur c Hc)|exact (Hq th t Ht)].
Qed.

Lemma get_next_app ths Q s th l : queues ths Q (sp s) -> Q kernel_ready_list = [] ->
  Q system_ready_list = [] -> Q app_ready_list = th :: l -> get_next_thread_to_run s = Ok (th, s).
Proof.
  intros HQ E1 E2 E3.
  destruct (first_ok _ _ _ kernel_ready_list HQ ltac:(unfold heads; set_solver)) as [F1 _].
  destruct (first_ok _ _ _ system_ready_list HQ ltac:(unfold heads; set_solver)) as [F2 _].
  destruct (first_ok _ _ _ app_ready_list HQ ltac:(unfold heads; set_solver)) as [F3 F4].
  rewrite E1 in F1. rewrite E2 in F2. rewrite E3 in F3.
  unfold get_next_thread_to_run, get_next_thread_from_list.
  rewrite (bind_step _ _ _ 0 s) by (by rewrite (bind_step _ _ _ _ _ (on_sp_same _ _ _ F1))). simpl.
  rewrite (bind_step _ _ _ 0 s) by (by rewrite (bind_step _ _ _ _ _ (on_sp_same _ _ _ F2))). simpl.
  rewrite (bind_step _ _ _ _ _ (on_sp_same _ _ _ F3)), bool_decide_false by done.
  rewrite (bind_step _ _ _ _ _ (on_sp_same _ _ _ (F4 th l E3))). by rewrite of_sched_sibling_ok.
Qed.

Lemma app_thread ths Q s th t : sched_ok ths Q s -> th ∈ Q app_ready_list -> threads s !! th = Some t ->
  t_state t = THREAD_READY /\ t_policy t = THREAD_APP_POLICY.
Proof.
  intros Hok Hin Ht. pose proof (so_on _ _ _ _ _ Hok Ht app_ready_list ltac:(unfold heads; set_solver) Hin) as E.
  pose proof (heads_NoDup _ _ _ (so_queues _ _ _ Hok)) as Hnd. unfold heads in Hnd.
  pose proof (qs_heads _ _ _ (so_queues _ _ _ Hok)) as H0. unfold heads in H0.
  destruct (t_state t), (t_policy t); simpl in E; try done; nodup; set_solver.
Qed.

Lemma tick_switch irqs ths cur th l s : round_robin ths cur (th :: l) (SLICE_THRESHOLD - 1) s ->
  (length ths < fuel)%nat ->
  exists s', irq_schedule_handler irqs s = Ok (tt, s') /\ round_robin ths th (l ++ [cur]) 0 s'.
Proof.
  intros [(Q & Hok & E1 & E2 & E3) Hl Hcur (c & Hc & Hst & Hpol & Hsl) Hq Hroom] Hfuel.
  unfold irq_schedule_handler. rewrite (bind_step _ _ _ cur s) by (unfold gets; by rewrite Hcur).
  rewrite (bind_step _ _ _ _ _ (get_thread_ok _ _ _ Hc)), decide_False by (rewrite Hst, Hpol; naive_solver).
  rewrite Hsl. change (u32 (SLICE_THRESHOLD - 1 + 1)) with SLICE_THRESHOLD. rewrite Z.leb_refl.
  set (s1 := with_lock (u32 (scheduler_lock_counter s + 1)) false s). rewrite (bind_step _ _ _ tt s1) by done.
  set (c2 := with_slice SLICE_THRESHOLD c).
  set (s2 := with_threads (<[cur := c2]> (threads s1)) s1). rewrite (bind_step _ _ _ tt s2) by done.
  assert (scheduler_lock_counter s2 = 1) as Hl2 by (simpl; by rewrite Hl).
  assert (sched_ok ths Q s2) as Hok2.
  { apply (sched_ok_slice ths Q s1); [|done]. apply sched_ok_lock; [done|]. rewrite Hl. zdec. }
  assert (cur ∈ ths) as Hcin by (apply Hok; eauto).
  assert (th ∈ Q app_ready_list) as Hthin by (rewrite E3; constructor).
  assert (exists t, threads s !! th = Some t) as [t Ht].
  { apply (so_ths _ _ _ Hok), (qs_sub _ _ _ (so_queues _ _ _ Hok) app_ready_list); [unfold heads; set_solver|done]. }
  assert (forall k, k ∈ heads -> cur ∉ Q k) as Hoff.
  { intros k Hk Hin. apply (so_on _ _ _ _ _ Hok Hc k Hk) in Hin. rewrite Hst in Hin. simpl in Hin. subst.
    by apply (qs_heads _ _ _ (so_queues _ _ _ Hok)). }
  assert (cur <> th) as Hne by (intros ->; apply (Hoff app_ready_list); [unfold heads; set_solver|done]).
  assert (threads s2 !! th = Some t) as Ht2 by (simpl; by rewrite lookup_insert_ne).
  destruct (rescale_ok ths Q s2 cur th l (so_queues _ _ _ Hok2) Hfuel Hcin Hoff E3 ltac:(by rewrite E3))
    as (p3 & E & HQ3 & Hpins & Hroom').
  set (s3 := with_sp p3 s2) in *. assert (sched_ok ths Q s3) as Hok3 by (by apply sched_ok_sp).
  destruct (update_thread_ok ths Q s3 cur c2 THREAD_READY Hok3) as (p4 & E4 & Hok4 & Hps4);
    [lia|apply lookup_insert_eq|simpl; by rewrite Hst|].
  rewrite (bind_step _ _ s2 true (with_lock (scheduler_lock_counter s3) (unlocked s3)
    (with_threads (<[cur:=with_state THREAD_READY c2]> (threads s3)) (with_sp p4 s3)))).
  2:{ rewrite (bind_step _ _ _ _ _ (get_next_app _ _ _ _ _ (so_queues _ _ _ Hok2) E1 E2 E3)).
      rewrite (proj2 (Z.eqb_neq th 0)).
      2:{ intros ->. apply (qs_ths _ _ _ (so_queues _ _ _ Hok)). apply (so_ths _ _ _ Hok). eauto. }
      cbn [negb]. rewrite (bind_step _ _ _ _ _ (get_thread_ok _ _ _ Ht2)).
      destruct (app_thread _ _ _ _ _ Hok Hthin Ht) as [_ Hap]. rewrite Hap, bool_decide_true by done.
      cbn [mwhen]. rewrite (bind_step _ _ _ _ _ E), (bind_step _ _ _ _ _ E4). done. }
  set (Q4 := moved (tprio (sp s3)) cur c2 THREAD_READY Q) in *.
  match goal with |- context [with_lock ?a ?b ?x] => set (s4 := with_lock a b x) in * end.
  set (s5 := with_lock 0 true s4). rewrite (bind_step _ _ _ tt s5).
  2:{ unfold unlock_scheduler, modify. change (scheduler_lock_counter s4) with (scheduler_lock_counter s2).
      by rewrite Hl2. }
  rewrite (bind_step _ _ _ 0 s5) by done. simpl andb. cbn [mwhen].
  assert (Q4 app_ready_list = th :: l ++ [cur]) as EA.
  { unfold Q4, moved. simpl. rewrite Hpol, decide_True by done.
    rewrite prem_out by (apply Hoff; unfold heads; set_solver).
    change (sp s3) with p3. by rewrite Hpins, E3. }
  pose proof (heads_NoDup _ _ _ (so_queues _ _ _ Hok)) as Hndh. unfold heads in Hndh.
  assert (Q4 kernel_ready_list = [] /\ Q4 system_ready_list = []) as [EK ES].
  { unfold Q4, moved. simpl. rewrite Hpol, E1, E2.
    rewrite !decide_False; [done|nodup; set_solver|nodup; set_solver]. }
  assert (ready Q4 = th :: l ++ [cur]) as Er by (unfold ready; by rewrite EK, ES, EA).
  assert (threads s5 !! th = Some t) as Ht5 by (simpl; by rewrite !lookup_insert_ne).
  assert (sched_ok ths Q4 s5) as Hok5 by (apply sched_ok_lock; [done|lia]).
  destruct (schedule_ok irqs ths Q4 s5 (with_state THREAD_READY c2) th t (l ++ [cur]))
    as (s6 & E6 & Hok6 & [R1 R2 R3 R4 R5 R6 R7] & Er6); [done|lia|simpl; lia| |done|done|done| |].
  { simpl. rewrite Hcur. apply lookup_insert_eq. }
  { unfold signalled. by rewrite (Hq th t Ht). }
  exists s6. split; [done|]. split; [|done|done| | |].
  - exists (fun h => prem th (Q4 h)). split; [done|]. rewrite EK, ES. split; [done|]. split; [done|].
    revert Er6. unfold ready. by rewrite EK, ES.
  - rewrite R3, lookup_insert_eq. eexists. split; [done|]. simpl. split; [done|]. split; [|done].
    by apply (app_thread _ _ _ _ _ Hok Hthin Ht).
  - rewrite R3. simpl. intros th' t' [[<- <-]|[_ [[<- <-]|[_ [[<- <-]|[_ Ht']]%lookup_insert_Some]]%lookup_insert_Some]]%lookup_insert_Some;
      simpl; eauto.
  - unfold tprio, prio_of in *. rewrite R2. change (sp s5) with p4. by rewrite Hps4.
Qed.

Fixpoint ticks (irqs : list (M sched unit)) (n : nat) : M sched unit :=
  match n with O => mret tt | S n' => irq_schedule_handler irqs;; ticks irqs n' end.

Lemma ticks_add irqs n m s s1 : ticks irqs n s = Ok (tt, s1) -> ticks irqs (n + m) s = ticks irqs m s1.
Proof.
  revert s. induction n as [|n IH]; intros s; simpl.
  - by intros [= ->].
  - intros (x & s' & E & E')%bind_ok. rewrite (bind_step _ _ _ _ _ E). by apply IH.
Qed.

Lemma slice_ticks irqs ths cur th l s : round_robin ths cur (th :: l) 0 s -> (length ths < fuel)%nat ->
  exists s', ticks irqs 8 s = Ok (tt, s') /\ round_robin ths th (l ++ [cur]) 0 s'.
Proof.
  intros H0 Hfuel.
  assert (forall k, (k <= 7)%nat -> exists s1, ticks irqs k s = Ok (tt, s1) /\
    round_robin ths cur (th :: l) (Z.of_nat k) s1) as Hk.
  { induction k as [|k IH]; intros Hk; [by exists s|]. destruct IH as (s1 & E1 & R1); [lia|].
    destruct (tick_keep irqs ths cur (th :: l) (Z.of_nat k) s1 R1) as (s2 & E2 & R2);
      [lia|unfold SLICE_THRESHOLD; lia|].
    exists s2. replace (S k) with (k + 1)%nat by lia. rewrite (ticks_add _ _ _ _ _ E1). simpl.
    rewrite (bind_step _ _ _ _ _ E2). split; [done|]. by replace (Z.of_nat (k + 1)) with (Z.of_nat k + 1) by lia. }
  destruct (Hk 7%nat) as (s1 & E1 & R1); [lia|].
  destruct (tick_switch irqs ths cur th l s1 R1 Hfuel) as (s2 & E2 & R2).
  exists s2. split; [|done]. change 8%nat with (7 + 1)%nat. rewrite (ticks_add irqs 7 1 s s1 E1). simpl. by rewrite (bind_step _ _ _ _ _ E2).
Qed.

(** C10: [update_thread] keeps the scheduler's invariant: the thread leaves the
    list it was on and joins, behind the threads of its priority, the list its
    new state and its policy name (none for a running thread); every other
    thread stays where it was, and the lock and the interrupt flag are left as
    the nesting demands. *)
Theorem update_thread_correct (ths : list Z) (Q : Z -> list Z) (s : sched) (th : Z) (t : thread)
    (st : thread_state) :
  sched_ok ths Q s -> (length ths <= fuel)%nat -> threads s !! th = Some t -> t_state t <> st ->
  exists s' Q', update_thread th st s = Ok (tt, s') /\ sched_ok ths Q' s' /\
    threads s' = <[th := with_state st t]> (threads s) /\
    current_thread s' = current_thread s /\ scheduler_lock_counter s' = scheduler_lock_counter s /\
    interrupts s' = unlocked s /\
    forall h, h ∈ heads -> Q' h = if decide (h = get_list_from_thread st (t_policy t))
      then pins (tprio (sp s)) th (prem th (Q h)) else prem th (Q h).
Proof.
  intros Hok Hfuel Ht Hst. destruct (update_thread_ok ths Q s th t st Hok Hfuel Ht Hst) as (p' & E & Hok' & _).
  eexists _, _. split; [exact E|]. split; [exact Hok'|]. done.
Qed.

(** C9: [schedule], called by a thread that is no longer running, gives the CPU
    to the first thread of the kernel list, else of the system list, else of
    the application list. That thread leaves its list, becomes the running
    current thread with a fresh time slice and its directory and stack loaded;
    the other threads keep their places. When the thread has no signal to
    deliver, that is all and the lock is released; when it has one (pending,
    and not marked [TIF_SIGNAL_MANUAL]), the same state with the lock still
    counted is handed to [handle_signal], and only the return of that call
    leads to the release of the lock. *)
Theorem schedule_runs_first_ready (irqs : list (M sched unit)) (ths : list Z) (Q : Z -> list Z) (s : sched)
    (c t : thread) (th : Z) (l : list Z) :
  sched_ok ths Q s -> (length ths <= fuel)%nat -> scheduler_lock_counter s < 2 ^ 32 - 2 ->
  threads s !! current_thread s = Some c -> t_state c <> THREAD_RUNNING ->
  ready Q = th :: l -> threads s !! th = Some t ->
  exists s', sched_ok ths (fun h => prem th (Q h)) s' /\
    current_thread s' = th /\
    threads s' = <[th := with_state THREAD_RUNNING (with_slice 0 t)]> (threads s) /\
    pdirs s !! t_parent t = Some (loaded_pdir s') /\ tss_esp0 s' = t_kernel_stack t /\
    scheduler_lock_counter s' = scheduler_lock_counter s /\ interrupts s' = unlocked s /\
    ready (fun h => prem th (Q h)) = l /\
    schedule irqs s =
      if signalled t
      then (handle_signal;; unlock_scheduler) (with_lock (scheduler_lock_counter s + 1) false s')
      else Ok (tt, s').
Proof.
  intros Hok Hfuel Hlock Hc Hcs Er Ht.
  destruct (schedule_switch irqs ths Q s c th t l Hok Hfuel Hlock Hc Hcs Er Ht)
    as (s' & E & Hok' & Hr & Er'). pose proof Hr as [R1 R2 R3 R4 R5 R6 R7].
  exists s'. destruct (so_cpu _ _ _ Hok') as (tc & Htc & _ & H1 & H2).
  rewrite R5, R3, lookup_insert_eq in Htc. injection Htc as <-. rewrite R4 in H2.
  split_and!; [done..|]. destruct (signalled t) eqn:Es; [exact E|].
  by rewrite E, (unlock_again _ _ _ _ _ _ (so_lock _ _ _ Hok) Hlock Hr).
Qed.


End sched.

(** ** A machine with three application threads, one of them running *)

Definition example_thread (st : thread_state) (proc stack : Z) : thread :=
  mk_thread 0 st THREAD_APP_POLICY proc stack 0 0.

Definition example_ths : list Z := [1000; 2000; 3000].

Definition example_sched : sched :=
  mk_sched
    (mk_pheap
       (list_to_map ((fun a => (a, mk_list_head a a)) <$>
          [8; 16; 24; 32; 40] ++ [1016; 2016; 3016] ++ [1008; 2008; 3008]))
       (list_to_map [(1004, 20); (2004, 20); (3004, 20)]))
    (list_to_map [(1000, example_thread THREAD_RUNNING 900 4096); (2000, example_thread THREAD_NEW 901 8192);
                  (3000, example_thread THREAD_NEW 902 12288)])
    (list_to_map [(900, 65536); (901, 131072); (902, 196608)])
    1000 900 0 true 4096 65536.

Lemma example_sched_ok : sched_ok 8 16 24 32 40 4 example_ths (fun _ => []) example_sched.
Proof.
  assert (forall a, a ∈ [8; 16; 24; 32; 40] ++ [1016; 2016; 3016] ++ [1008; 2008; 3008] ->
    circle (links (sp example_sched)) [a]) as Hc.
  { intros a Ha. split; [apply NoDup_singleton|]. set_unfold in Ha. destruct_or?; subst; by vm_compute. }
  split.
  - split.
    + intros h Hh. exists []. split; [done|].
      split; try done; try (intros; set_solver); try constructor; try apply NoDup_singleton; try constructor.
    + set_solver.
    + set_solver.
    + intros th Hth _. unfold example_ths in Hth. split.
      * set_unfold in Hth. destruct_or?; subst; by vm_compute.
      * apply Hc. set_unfold in Hth. destruct_or?; subst; set_solver.
      * apply Hc. set_unfold in Hth. destruct_or?; subst; set_solver.
      * set_unfold in Hth. destruct_or?; subst; vm_compute; eauto.
    + apply (bool_decide_unpack _). by vm_compute.
    + apply (bool_decide_unpack _). by vm_compute.
    + apply (bool_decide_unpack _). by vm_compute.
  - intros th. unfold example_ths. split.
    + intros Hth. set_unfold in Hth. destruct_or?; subst; vm_compute; eauto.
    + intros (t & Ht). apply elem_of_list_to_map_2 in Ht. set_solver.
  - intros th t h Ht Hh. apply elem_of_list_to_map_2 in Ht. split; [set_solver|].
    intros E. set_unfold in Ht. set_unfold in Hh.
    destruct_or?; simplify_eq.
  - by vm_compute.
  - intros th t Ht. apply elem_of_list_to_map_2 in Ht. set_unfold in Ht.
    destruct_or?; simplify_eq; vm_compute; eauto.
  - eexists. repeat split; by vm_compute.
Qed.

(** Both idle threads made ready. *)
Lemma example_round_robin : exists s, round_robin 8 16 24 32 40 4 example_ths 1000 [2000; 3000] 0 s.
Proof.
  destruct (update_thread_ok 8 16 24 32 40 4 4 example_ths _ example_sched 2000
    (example_thread THREAD_NEW 901 8192) THREAD_READY example_sched_ok) as (p1 & _ & Hok1 & Hp1);
    [simpl; lia|done|done|].
  match type of Hok1 with sched_ok _ _ _ _ _ _ _ _ ?s1 =>
    destruct (update_thread_ok 8 16 24 32 40 4 4 example_ths _ s1 3000
      (example_thread THREAD_NEW 902 12288) THREAD_READY Hok1) as (p2 & _ & Hok2 & Hp2) end;
    [simpl; lia|done|done|].
  eexists. split; [eexists; split; [exact Hok2|] | done | done | eexists; done | |].
  - split_and!; [done|done|]. unfold moved, tprio, prio_of. simpl. by rewrite Hp1.
  - simpl. intros th t Ht. rewrite !lookup_insert_Some in Ht.
    destruct Ht as [[_ <-]|[_ [[_ <-]|[_ Ht]]]]; [done|done|].
    by destruct Ht as [[_ <-]|[_ [[_ <-]|[_ [[_ <-]|[_ Ht]]]]]].
  - assert (forall th, th ∈ [2000; 3000] -> tprio 4 p2 th = 20) as H20.
    { intros th Hth. unfold tprio, prio_of. rewrite Hp2. simpl. rewrite Hp1.
      set_unfold in Hth. destruct_or?; subst; by vm_compute. }
    split; [intros a Ha; simpl; rewrite H20 by done; unfold INT_MAX; lia|].
    exists [2000], [3000]. split_and!; [done|done| |].
    + intros i a b _ Hb. by destruct i.
    + intros a b Ha Hb. simpl. rewrite !H20 by done. unfold INT_MAX. lia.
Qed.

Lemma update_thread_correct_witness : exists s' Q',
  update_thread 8 16 24 32 40 4 4 2000 THREAD_READY example_sched = Ok (tt, s') /\
  sched_ok 8 16 24 32 40 4 example_ths Q' s' /\ Q' 24 = [2000].
Proof.
  destruct (update_thread_correct 8 16 24 32 40 4 4 example_ths (fun _ => []) example_sched 2000
    (example_thread THREAD_NEW 901 8192) THREAD_READY) as (s' & Q' & E & Hok & _ & _ & _ & _ & HQ).
  - apply example_sched_ok.
  - simpl. lia.
  - reflexivity.
  - discriminate.
  - exists s', Q'. split; [exact E|]. split; [exact Hok|]. rewrite HQ; [reflexivity|].
    apply (bool_decide_unpack _). vm_compute. exact I.
Defined.

(** The two ready threads, the current one put to sleep. *)
Lemma example_sleep : exists s Q,
  sched_ok 8 16 24 32 40 4 example_ths Q s /\ scheduler_lock_counter s = 0 /\ current_thread s = 1000 /\
  threads s !! current_thread s = Some (example_thread THREAD_WAITING 900 4096) /\
  threads s !! 2000 = Some (example_thread THREAD_READY 901 8192) /\
  Q 8 = [] /\ Q 16 = [] /\ Q 24 = [2000].
Proof.
  destruct (update_thread_ok 8 16 24 32 40 4 4 example_ths _ example_sched 2000
    (example_thread THREAD_NEW 901 8192) THREAD_READY example_sched_ok) as (p1 & _ & Hok1 & Hp1);
    [simpl; lia|done|done|].
  match type of Hok1 with sched_ok _ _ _ _ _ _ _ _ ?s1 =>
    destruct (update_thread_ok 8 16 24 32 40 4 4 example_ths _ s1 1000
      (example_thread THREAD_RUNNING 900 4096) THREAD_WAITING Hok1) as (p2 & _ & Hok2 & Hp2) end;
    [simpl; lia|done|done|].
  eexists _, _. by split; [exact Hok2|].
Qed.

Lemma schedule_runs_first_ready_witness : exists s s',
  schedule 8 16 24 32 40 4 (mret tt) 4 [] s = Ok (tt, s') /\ current_thread s = 1000 /\ current_thread s' = 2000.
Proof.
  destruct example_sleep as (s & Q & Hok & Hlock & Hcur0 & Hc & Ht & Q1 & Q2 & Q3).
  destruct (schedule_runs_first_ready 8 16 24 32 40 4 (mret tt) 4 [] example_ths Q s
    (example_thread THREAD_WAITING 900 4096) (example_thread THREAD_READY 901 8192) 2000 [])
    as (s' & _ & Hcur & _ & _ & _ & _ & _ & _ & E).
  - exact Hok.
  - simpl. lia.
  - lia.
  - exact Hc.
  - discriminate.
  - unfold ready. rewrite Q1, Q2, Q3. reflexivity.
  - exact Ht.
  - exists s, s'. split; [exact E|]. split; [exact Hcur0|exact Hcur].
Defined.

