(* ===== verification/StrScan.v ===== *)
(** * Scanning strings a word at a time

    [strlen], [strnlen], [strchr], [strchrnul] and [strcspn]
    ([utils/string/]) walk to a word boundary byte by byte, then test four
    bytes at once with a carry trick, and look at single bytes only when the
    test fires. They are written against the memory class of [Mem] and proved
    to return what the obvious byte loop returns, at every alignment; what
    they read past the end of the string stays inside its last word. *)
From Stdlib Require Import ZArith Lia Bool.
From stdpp Require Import base list gmap option.
From S2P Require Import Prelude Mem.

Open Scope Z_scope.

(** ** The word tests *)

Definition himagic : Z := 0x80808080.
Definition lomagic : Z := 0x01010101.
(** [magic_bits / 0xff * 0xfe << 1 >> 1 | 1] on [magic_bits = -1]. *)
Definition magic_bits : Z :=
  Z.lor (Z.shiftr (u32 (Z.shiftl (u32 (u32 (-1) / 0xff * 0xfe)) 1)) 1) 1.

(** The test of [strlen], the weaker one of [strnlen], and the one of
    [strchr], which is applied to the word and to the word xor [charmask]. *)
Definition strlen_test (longword : Z) : bool :=
  negb (Z.land (Z.land (u32 (longword - lomagic)) (lnot32 longword)) himagic =? 0).
Definition strnlen_test (longword : Z) : bool :=
  negb (Z.land (u32 (longword - lomagic)) himagic =? 0).
Definition magic_test (longword : Z) : bool :=
  negb (Z.land (Z.lxor (u32 (longword + magic_bits)) (lnot32 longword)) (lnot32 magic_bits) =? 0).

Definition charmask (c : Z) : Z :=
  let m := Z.lor c (u32 (Z.shiftl c 8)) in Z.lor m (u32 (Z.shiftl m 16)).
Definition strchr_test (c longword : Z) : bool :=
  magic_test longword || magic_test (Z.lxor longword (charmask c)).

(** ** The routines *)

Section scan.
Context {S : Type} `{Mem S}.

(** The loop up to a word boundary. [inl (p, b)]: byte [b] at [p] stops the
    scan; [inr p]: [p] is aligned. Three rounds at most. *)
Fixpoint head_scan (stop : Z -> bool) (n : nat) (char_ptr : Z) : M S (Z * Z + Z) :=
  if Z.land char_ptr 3 =? 0 then mret (inr char_ptr)
  else match n with
       | O => mfail Fuel
       | Datatypes.S n' =>
           b ← load8 char_ptr;
           if stop b : bool then mret (inl (char_ptr, b)) else head_scan stop n' (u32 (char_ptr + 1))
       end.

(** Which of the four bytes of the word stops the scan, if any. *)
Definition word_bytes (stop : Z -> bool) (cp : Z) : M S (option (Z * Z)) :=
  b0 ← load8 cp;
  if stop b0 : bool then mret (Some (cp, b0)) else
  b1 ← load8 (u32 (cp + 1));
  if stop b1 : bool then mret (Some (u32 (cp + 1), b1)) else
  b2 ← load8 (u32 (cp + 2));
  if stop b2 : bool then mret (Some (u32 (cp + 2), b2)) else
  b3 ← load8 (u32 (cp + 3));
  if stop b3 : bool then mret (Some (u32 (cp + 3), b3)) else mret None.

(** [for (;;)] over the words; [fuel] words at most. *)
Fixpoint word_scan (test stop : Z -> bool) (fuel : nat) (longword_ptr : Z) : M S (Z * Z) :=
  match fuel with
  | O => mfail Fuel
  | Datatypes.S fuel' =>
      longword ← load32 longword_ptr;
      if test longword : bool then
        r ← word_bytes stop longword_ptr;
        match r with
        | Some pb => mret pb
        | None => word_scan test stop fuel' (u32 (longword_ptr + 4))
        end
      else word_scan test stop fuel' (u32 (longword_ptr + 4))
  end.

Definition scan (test stop : Z -> bool) (fuel : nat) (s : Z) : M S (Z * Z) :=
  h ← head_scan stop 3 s;
  match h with
  | inl pb => mret pb
  | inr longword_ptr => word_scan test stop fuel longword_ptr
  end.

Definition strlen (fuel : nat) (str : Z) : M S Z :=
  pb ← scan strlen_test (fun b => b =? 0) fuel str;
  mret (u32 (fst pb - str)).

Definition strchrnul (fuel : nat) (s c_in : Z) : M S Z :=
  let c := u8 c_in in
  pb ← scan (strchr_test c) (fun b => (b =? c) || (b =? 0)) fuel s;
  mret (fst pb).

Definition strchr (fuel : nat) (s c_in : Z) : M S Z :=
  let c := u8 c_in in
  pb ← scan (strchr_test c) (fun b => (b =? c) || (b =? 0)) fuel s;
  mret (if snd pb =? c then fst pb else 0).

(** The word loop of [strnlen]: the final [char_ptr], before it is clipped. *)
Fixpoint strnlen_loop (fuel : nat) (longword_ptr char_ptr end_ptr : Z) : M S Z :=
  if longword_ptr <? end_ptr then
    match fuel with
    | O => mfail Fuel
    | Datatypes.S fuel' =>
        longword ← load32 longword_ptr;
        if strnlen_test longword : bool then
          r ← word_bytes (fun b => b =? 0) longword_ptr;
          match r with
          | Some pb => mret (fst pb)
          | None => strnlen_loop fuel' (u32 (longword_ptr + 4)) end_ptr end_ptr
          end
        else strnlen_loop fuel' (u32 (longword_ptr + 4)) end_ptr end_ptr
    end
  else mret char_ptr.

Definition strnlen (fuel : nat) (str maxlen : Z) : M S Z :=
  if maxlen =? 0 then mret 0
  else
    let end_ptr := u32 (str + maxlen) in
    let end_ptr := if end_ptr <? str then u32 (-1) else end_ptr in
    let clip char_ptr := u32 ((if end_ptr <? char_ptr then end_ptr else char_ptr) - str) in
    h ← head_scan (fun b => b =? 0) 3 str;
    match h with
    | inl pb => mret (clip (fst pb))
    | inr char_ptr => p ← strnlen_loop fuel char_ptr char_ptr end_ptr; mret (clip p)
    end.

(** [do p[tmp = *s++] = 1; while (tmp);] on the table of [strcspn], a stack
    array that nothing else sees. *)
Fixpoint reject_table (fuel : nat) (s : Z) (p : list Z) : M S (list Z) :=
  match fuel with
  | O => mfail Fuel
  | Datatypes.S fuel' =>
      tmp ← load8 s;
      let p := <[Z.to_nat tmp := 1]> p in
      if tmp =? 0 then mret p else reject_table fuel' (u32 (s + 1)) p
  end.

Definition in_table (p : list Z) (a : Z) : M S Z :=
  b ← load8 a; mret (default 0 (p !! Z.to_nat b)).

Fixpoint strcspn_loop (fuel : nat) (p : list Z) (str s : Z) : M S Z :=
  match fuel with
  | O => mfail Fuel
  | Datatypes.S fuel' =>
      let s := u32 (s + 4) in
      c0 ← in_table p s;
      c1 ← in_table p (u32 (s + 1));
      c2 ← in_table p (u32 (s + 2));
      c3 ← in_table p (u32 (s + 3));
      if Z.lor (Z.lor (Z.lor c0 c1) c2) c3 =? 0 then strcspn_loop fuel' p str s
      else
        let count := u32 (s - str) in
        mret (if negb (Z.lor c0 c1 =? 0) then u32 (count - c0 + 1) else u32 (count - c2 + 3))
  end.

Definition strcspn (fuel : nat) (str reject : Z) : M S Z :=
  r0 ← load8 reject;
  single ← (if r0 =? 0 then mret true else r1 ← load8 (u32 (reject + 1)); mret (r1 =? 0));
  if single : bool then e ← strchrnul fuel str r0; mret (u32 (e - str))
  else
    p ← reject_table fuel reject (replicate 256 0);
    c0 ← in_table p str;
    if negb (c0 =? 0) then mret 0 else
    c1 ← in_table p (u32 (str + 1));
    if negb (c1 =? 0) then mret 1 else
    c2 ← in_table p (u32 (str + 2));
    if negb (c2 =? 0) then mret 2 else
    c3 ← in_table p (u32 (str + 3));
    if negb (c3 =? 0) then mret 3 else
    strcspn_loop fuel p str (ALIGN_DOWN str 4).
End scan.

(** ** The carry tricks *)

Lemma land_nonzero x y i : 0 <= i -> Z.testbit x i = true -> Z.testbit y i = true -> Z.land x y <> 0.
Proof.
  intros Hi Hx Hy E. assert (Z.testbit (Z.land x y) i = true) as Hb by by rewrite Z.land_spec, Hx, Hy.
  by rewrite E, Z.bits_0 in Hb.
Qed.

Lemma testbit_div x i : 0 <= i -> Z.testbit x i = negb ((x / 2 ^ i) mod 2 =? 0).
Proof.
  intros Hi. rewrite <- (Z.testbit_spec' x i Hi). by destruct (Z.testbit x i).
Qed.

(** Bit [i] of a word given by its bytes. *)
Ltac word_bit :=
  rewrite testbit_div by lia; apply negb_true_iff, Z.eqb_neq; unfold u32, lomagic, le32, is_u8 in *;
  Z.to_euclidean_division_equations; lia.

Lemma lnot32_bit w i : 0 <= i < 32 -> (w / 2 ^ i) mod 2 = 0 -> Z.testbit (lnot32 w) i = true.
Proof. intros Hi E. rewrite testbit_lnot32, testbit_div, E by lia. done. Qed.

Section tricks.
Context (b0 b1 b2 b3 : Z) (H0 : is_u8 b0) (H1 : is_u8 b1) (H2 : is_u8 b2) (H3 : is_u8 b3).
Abbreviation w := (le32 b0 b1 b2 b3).

(** The lowest zero byte borrows from nothing below it, so it becomes 0xff. *)
Lemma borrow_bit : b0 = 0 \/ b1 = 0 \/ b2 = 0 \/ b3 = 0 -> exists i, 0 <= i < 32 /\
  Z.testbit (u32 (w - lomagic)) i = true /\ Z.testbit himagic i = true /\ (w / 2 ^ i) mod 2 = 0.
Proof.
  intros Hz.
  destruct (Z.eq_dec b0 0) as [->|]; [exists 7|].
  2: destruct (Z.eq_dec b1 0) as [->|]; [exists 15|].
  3: destruct (Z.eq_dec b2 0) as [->|]; [exists 23|].
  4: assert (b3 = 0) as -> by lia; exists 31.
  all: (split; [lia|]); (split; [word_bit|]); (split; [done|]).
  all: unfold le32, is_u8 in *; Z.to_euclidean_division_equations; lia.
Qed.

Lemma strlen_test_zero : b0 = 0 \/ b1 = 0 \/ b2 = 0 \/ b3 = 0 -> strlen_test w = true.
Proof.
  intros (i & Hi & Hs & Hh & Hw)%borrow_bit. unfold strlen_test. apply negb_true_iff, Z.eqb_neq.
  apply (land_nonzero _ _ i); [lia| |done]. by rewrite Z.land_spec, Hs, (lnot32_bit w i Hi Hw).
Qed.

Lemma strnlen_test_zero : b0 = 0 \/ b1 = 0 \/ b2 = 0 \/ b3 = 0 -> strnlen_test w = true.
Proof.
  intros (i & Hi & Hs & Hh & Hw)%borrow_bit. unfold strnlen_test. apply negb_true_iff, Z.eqb_neq.
  by apply (land_nonzero _ _ i); [lia| |].
Qed.

(** A zero byte lets no carry out, so the hole above it keeps its bit. *)
Lemma hole_bit i : 0 <= i < 32 -> Z.testbit (lnot32 magic_bits) i = true ->
  (u32 (w + magic_bits) / 2 ^ i) mod 2 = (w / 2 ^ i) mod 2 -> magic_test w = true.
Proof.
  intros Hi Hm E. unfold magic_test. apply negb_true_iff, Z.eqb_neq.
  apply (land_nonzero _ _ i); [lia| |done].
  rewrite Z.lxor_spec, testbit_lnot32, !testbit_div, E by lia. by destruct (_ =? 0).
Qed.

Lemma magic_test_zero : b0 = 0 \/ b1 = 0 \/ b2 = 0 \/ b3 = 0 -> magic_test w = true.
Proof.
  intros [Hz|[Hz|[Hz|Hz]]]; [apply (hole_bit 8)|apply (hole_bit 16)|apply (hole_bit 24)|apply (hole_bit 31)];
    try lia; try done.
  all: change magic_bits with 0x7efefeff; unfold u32, le32, is_u8 in *; subst;
    Z.to_euclidean_division_equations; lia.
Qed.
End tricks.

Lemma byte_of_lxor x y k : 0 <= k -> byte_of (Z.lxor x y) k = Z.lxor (byte_of x k) (byte_of y k).
Proof.
  intros Hk. unfold byte_of. rewrite <- !Z.land_ones, <- !Z.shiftr_div_pow2, Z.shiftr_lxor by lia.
  apply Z.bits_inj'. intros i Hi. rewrite Z.land_spec, !Z.lxor_spec, !Z.land_spec.
  by destruct (Z.testbit (Z.ones 8) i); rewrite ?andb_true_r, ?andb_false_r.
Qed.

Lemma is_u32_lxor x y : is_u32 x -> is_u32 y -> is_u32 (Z.lxor x y).
Proof.
  intros Hx Hy. rewrite <- (u32_small x), <- (u32_small y) by done. unfold u32.
  rewrite <- !Z.land_ones by lia. replace (Z.lxor _ _) with (Z.land (Z.lxor x y) (Z.ones 32)).
  - rewrite Z.land_ones by lia. apply u32_range.
  - apply Z.bits_inj'. intros i Hi. rewrite Z.land_spec, !Z.lxor_spec, !Z.land_spec.
    by destruct (Z.testbit (Z.ones 32) i); rewrite ?andb_true_r, ?andb_false_r.
Qed.

Lemma charmask_splat c : charmask (u8 c) = le32 (u8 c) (u8 c) (u8 c) (u8 c).
Proof. apply splat_le32. Qed.

Lemma strchr_test_hit c b0 b1 b2 b3 : is_u8 b0 -> is_u8 b1 -> is_u8 b2 -> is_u8 b3 ->
  existsb (fun b => (b =? u8 c) || (b =? 0)) [b0; b1; b2; b3] = true ->
  strchr_test (u8 c) (le32 b0 b1 b2 b3) = true.
Proof.
  intros H0 H1 H2 H3 Hb. unfold strchr_test. apply orb_true_iff.
  rewrite charmask_splat. pose proof (u8_range c) as Hc. set (x := Z.lxor _ _).
  assert (is_u32 x) as Hx by (apply is_u32_lxor; by apply le32_u32).
  assert (forall k, 0 <= k < 4 -> byte_of (le32 b0 b1 b2 b3) k = u8 c -> byte_of x k = 0) as Hk.
  { intros k Hk E. unfold x. rewrite byte_of_lxor, byte_of_splat, E, Z.lxor_nilpotent by (done || lia). done. }
  destruct (byte_of_le32 b0 b1 b2 b3) as (E0 & E1 & E2 & E3); [done..|].
  assert ((b0 = 0 \/ b1 = 0 \/ b2 = 0 \/ b3 = 0) \/ (b0 = u8 c \/ b1 = u8 c \/ b2 = u8 c \/ b3 = u8 c))
    as [Hz|Hz].
  { simpl in Hb. rewrite !orb_true_iff, !Z.eqb_eq in Hb. clear -Hb. intuition congruence. }
  - left. by apply magic_test_zero.
  - right. rewrite <- (le32_byte_of x Hx). apply magic_test_zero; [apply byte_of_u8..|].
    destruct Hz as [Hz|[Hz|[Hz|Hz]]]; [left|right; left|right; right; left|right; right; right];
      apply Hk; try lia; congruence.
Qed.

(** ** Reading computations

    A computation that only reads: from any state that shows [V] it returns
    [r] and the state still shows [V]. *)
Section reads.
Context {S : Type} `{MemLaws S} (V : Z -> option Z) (R : rest_type (S:=S)).

Definition sees (s : S) : Prop := mem_ok s /\ rest s = R /\ forall x, view s x = V x.
Definition reads {A} (m : M S A) (r : A) : Prop := forall s, sees s -> exists s', m s = Ok (r, s') /\ sees s'.
Definition bytes_ok : Prop := forall a b, V a = Some b -> is_u32 a /\ is_u8 b.

Lemma sees_bytes s : sees s -> bytes_ok.
Proof.
  intros (Hok & _ & Hv) a b Hb. rewrite <- Hv in Hb.
  split; [by eapply view_u32|by eapply view_u8].
Qed.

Lemma reads_ret {A} (a : A) : reads (mret a) a.
Proof. intros s Hs. by exists s. Qed.

Lemma reads_bind {A B} (m : M S A) (k : A -> M S B) a r : reads m a -> reads (k a) r -> reads (m ≫= k) r.
Proof.
  intros Hm Hk s Hs. destruct (Hm s Hs) as (s1 & E1 & Hs1). destruct (Hk s1 Hs1) as (s2 & E2 & Hs2).
  exists s2. by rewrite (bind_step _ _ _ _ _ E1).
Qed.

Lemma reads_load8 a b : V a = Some b -> reads (load8 a) b.
Proof.
  intros Hb s (Hok & Hr & Hv). rewrite <- Hv in Hb.
  destruct (load8_law s a b Hok Hb) as (s' & E & Hok' & Hr' & Hv').
  exists s'. split; [done|]. split; [done|]. split; [congruence|]. intros x. by rewrite Hv', Hv.
Qed.

Lemma reads_load32 a b0 b1 b2 b3 : V a = Some b0 -> V (a + 1) = Some b1 -> V (a + 2) = Some b2 ->
  V (a + 3) = Some b3 -> reads (load32 a) (le32 b0 b1 b2 b3).
Proof.
  intros B0 B1 B2 B3 s (Hok & Hr & Hv). rewrite <- Hv in B0, B1, B2, B3.
  destruct (load32_law s a b0 b1 b2 b3 Hok B0 B1 B2 B3) as (s' & E & Hok' & Hr' & Hv').
  exists s'. split; [done|]. split; [done|]. split; [congruence|]. intros x. by rewrite Hv', Hv.
Qed.

(** [e] is the first address from [p] on whose byte, [b], stops the scan. *)
Definition stops (stop : Z -> bool) (p e b : Z) : Prop :=
  p <= e /\ V e = Some b /\ stop b = true /\ forall x, p <= x < e -> exists b', V x = Some b' /\ stop b' = false.

(** The bytes from [e] to the end of its word can be read. *)
Definition word_tail (e : Z) : Prop := forall x, e <= x < 4 * (e / 4) + 4 -> is_Some (V x).

Lemma stops_later stop p q e b : stops stop p e b -> p <= q <= e -> stops stop q e b.
Proof. intros (Hp & He & Hb & Hx) Hq. split_and!; [lia|done|done|]. intros x Hx'. apply Hx. lia. Qed.

Lemma stops_fun stop p e b e' b' : stops stop p e b -> stops stop p e' b' -> e = e' /\ b = b'.
Proof.
  intros (Hp & He & Hb & Hx) (Hp' & He' & Hb' & Hx').
  assert (e = e') as ->; [|split; congruence].
  destruct (Z.lt_trichotomy e e') as [Hlt|[->|Hlt]]; [|done|].
  - destruct (Hx' e) as (c & Hc & Hs); [lia|]. congruence.
  - destruct (Hx e') as (c & Hc & Hs); [lia|]. congruence.
Qed.

Lemma stops_lt stop p e b x c : stops stop p e b -> V x = Some c -> stop c = true -> p <= x -> e <= x.
Proof.
  intros (Hp & He & Hb & Hx) Hc Hs Hpx. destruct (Z.lt_ge_cases x e); [|done].
  destruct (Hx x) as (c' & Hc' & Hs'); [lia|]. congruence.
Qed.

Context (HV : bytes_ok).

Lemma head_scan_ok stop n p e b : stops stop p e b -> (- p) mod 4 <= Z.of_nat n ->
  exists r, reads (head_scan stop n p) r /\
    match r with inl pb => pb = (e, b) | inr q => q mod 4 = 0 /\ p <= q <= e end.
Proof.
  revert p. induction n as [|n IH]; intros p Hs Hn; cbn [head_scan];
    change 3 with (Z.ones 2); rewrite Z.land_ones by lia; change (2 ^ 2) with 4; destruct (Z.eqb_spec (p mod 4) 0) as [E|E].
  1,3: exists (inr p); split; [apply reads_ret|]; destruct Hs; lia.
  { Z.to_euclidean_division_equations. lia. }
  destruct Hs as (Hp & He & Hb & Hx) eqn:Es. clear Es. destruct (Z.eq_dec p e) as [->|Hne].
  - exists (inl (e, b)). split; [|done]. eapply reads_bind; [by apply reads_load8|]. rewrite Hb. apply reads_ret.
  - destruct (Hx p) as (b' & Hb' & Hsb); [lia|].
    destruct (HV e b He) as [He32 _]. unfold is_u32 in He32. destruct (HV p b' Hb') as [Hp32 _]. unfold is_u32 in Hp32.
    destruct (IH (p + 1)) as (r & Hr & Hr'); [by apply (stops_later _ p); [|lia]|Z.to_euclidean_division_equations; lia|].
    exists r. split.
    + eapply reads_bind; [by apply reads_load8|]. rewrite Hsb. by rewrite u32_small by (unfold is_u32; lia).
    + destruct r; [done|]. lia.
Qed.

Fixpoint pick (stop : Z -> bool) (p : Z) (bs : list Z) : option (Z * Z) :=
  match bs with
  | [] => None
  | b :: bs' => if stop b then Some (p, b) else pick stop (p + 1) bs'
  end.

Lemma word_bytes_ok stop p b0 b1 b2 b3 : V p = Some b0 -> V (p + 1) = Some b1 -> V (p + 2) = Some b2 ->
  V (p + 3) = Some b3 -> reads (word_bytes stop p) (pick stop p [b0; b1; b2; b3]).
Proof.
  intros B0 B1 B2 B3. unfold word_bytes, pick.
  rewrite (u32_small (p + 1)), (u32_small (p + 2)), (u32_small (p + 3)) by (by eapply HV).
  replace (p + 1 + 1) with (p + 2) by lia. replace (p + 2 + 1) with (p + 3) by lia.
  repeat (eapply reads_bind; [by apply reads_load8|]; case_match; [apply reads_ret|]). apply reads_ret.
Qed.

(** What [pick] finds is where the scan stops. *)
Lemma stops_pick stop bs p e b : stops stop p e b ->
  (forall i c, bs !! i = Some c -> V (p + Z.of_nat i) = Some c) ->
  match pick stop p bs with
  | Some eb => eb = (e, b)
  | None => existsb stop bs = false /\ p + Z.of_nat (length bs) <= e
  end.
Proof.
  revert p. induction bs as [|c bs IH]; intros p Hs Hbs; simpl pick.
  { simpl. destruct Hs. lia. }
  assert (V p = Some c) as Hc by (rewrite <- (Hbs 0%nat c) by done; f_equal; simpl; lia).
  destruct (stop c) eqn:Es.
  - pose proof (stops_lt _ _ _ _ _ _ Hs Hc Es ltac:(lia)). destruct Hs as (Hp & He & _).
    assert (p = e) as -> by lia. congruence.
  - assert (p < e) as Hlt.
    { destruct Hs as (Hp & He & Hb & _). destruct (Z.eq_dec p e) as [->|]; [congruence|lia]. }
    pose proof (IH (p + 1)) as IH1. destruct (pick stop (p + 1) bs).
    + apply IH1; [by apply (stops_later _ p); [|lia]|].
      intros i c' Hi. rewrite <- (Hbs (Datatypes.S i) c') by done. f_equal. lia.
    + simpl existsb. rewrite Es. simpl length. replace (p + _) with (p + 1 + Z.of_nat (length bs)) by lia.
      apply IH1; [by apply (stops_later _ p); [|lia]|].
      intros i c' Hi. rewrite <- (Hbs (Datatypes.S i) c') by done. f_equal. lia.
Qed.

(** The four bytes of an aligned word at or before the stop. *)
Lemma word_at stop p e b : stops stop p e b -> word_tail e -> p mod 4 = 0 ->
  exists b0 b1 b2 b3, V p = Some b0 /\ V (p + 1) = Some b1 /\ V (p + 2) = Some b2 /\ V (p + 3) = Some b3 /\
    forall i c, [b0; b1; b2; b3] !! i = Some c -> V (p + Z.of_nat i) = Some c.
Proof.
  intros Hs Ht Hp. assert (forall k, 0 <= k < 4 -> is_Some (V (p + k))) as Hk.
  { intros k Hk. destruct Hs as (Hpe & _ & _ & Hx). destruct (Z.lt_ge_cases (p + k) e).
    - destruct (Hx (p + k)) as (c & Hc & _); [lia|]. by rewrite Hc.
    - apply Ht. Z.to_euclidean_division_equations. lia. }
  destruct (Hk 0) as [b0 B0]; [lia|]. destruct (Hk 1) as [b1 B1]; [lia|].
  destruct (Hk 2) as [b2 B2]; [lia|]. destruct (Hk 3) as [b3 B3]; [lia|]. rewrite Z.add_0_r in B0.
  exists b0, b1, b2, b3. split_and!; [done..|].
  intros [|[|[|[|i]]]] c; simpl; intros [= <-]; [by rewrite Z.add_0_r|done..].
Qed.

(** A test that fires on every word with a byte to stop at. *)
Definition catches (test stop : Z -> bool) : Prop := forall b0 b1 b2 b3,
  is_u8 b0 -> is_u8 b1 -> is_u8 b2 -> is_u8 b3 ->
  existsb stop [b0; b1; b2; b3] = true -> test (le32 b0 b1 b2 b3) = true.

Lemma word_scan_ok test stop fuel p e b : catches test stop -> stops stop p e b -> word_tail e ->
  p mod 4 = 0 -> (e - p) / 4 < Z.of_nat fuel -> reads (word_scan test stop fuel p) (e, b).
Proof.
  intros Ht. revert p. induction fuel as [|fuel IH]; intros p Hs He Hp Hf.
  { destruct Hs. Z.to_euclidean_division_equations. lia. }
  destruct (word_at _ _ _ _ Hs He Hp) as (b0 & b1 & b2 & b3 & B0 & B1 & B2 & B3 & Hbs). cbn [word_scan].
  eapply reads_bind; [by apply reads_load32|].
  pose proof (stops_pick stop _ p e b Hs Hbs) as Hpick.
  assert (pick stop p [b0; b1; b2; b3] = None -> reads (word_scan test stop fuel (u32 (p + 4))) (e, b)) as Hnext.
  { intros E. rewrite E in Hpick. destruct Hpick as [_ Hpe]. simpl length in Hpe.
    destruct (HV e b) as [He32 _]; [apply Hs|]. destruct (HV p b0 B0) as [Hp32 _]. unfold is_u32 in *.
    rewrite u32_small by (unfold is_u32; lia).
    apply IH; [by apply (stops_later _ p); [|lia]|done| |]; Z.to_euclidean_division_equations; lia. }
  destruct (test (le32 b0 b1 b2 b3)) eqn:Et.
  - eapply reads_bind; [by apply word_bytes_ok|].
    destruct (pick stop p [b0; b1; b2; b3]); [subst; apply reads_ret|by apply Hnext].
  - apply Hnext. destruct (pick stop p [b0; b1; b2; b3]) as [eb|] eqn:E; [|done]. exfalso.
    assert (existsb stop [b0; b1; b2; b3] = true) as Hex.
    { clear -E. simpl in *. repeat case_match; simpl; rewrite ?orb_true_r; done. }
    rewrite (Ht b0 b1 b2 b3) in Et; [done|by eapply HV..|done].
Qed.

Lemma scan_ok test stop fuel p e b : catches test stop -> stops stop p e b -> word_tail e ->
  (e - p) / 4 < Z.of_nat fuel -> reads (scan test stop fuel p) (e, b).
Proof.
  intros Ht Hs He Hf. destruct (head_scan_ok stop 3 p e b Hs) as (r & Hr & Hr');
    [Z.to_euclidean_division_equations; lia|].
  eapply reads_bind; [exact Hr|]. destruct r as [pb|q]; [subst; apply reads_ret|].
  apply word_scan_ok; [done|by apply (stops_later _ p); [|lia]|done|lia|].
  Z.to_euclidean_division_equations. lia.
Qed.

(** ** C strings *)

Definition cstr (a : Z) (l : list Z) : Prop :=
  (forall i b, l !! i = Some b -> V (a + Z.of_nat i) = Some b /\ b <> 0) /\ V (a + Z.of_nat (length l)) = Some 0.

(** The length of the longest prefix that does not stop the scan. *)
Fixpoint span (stop : Z -> bool) (l : list Z) : nat :=
  match l with
  | [] => O
  | b :: l' => if stop b then O else Datatypes.S (span stop l')
  end.

Lemma span_le stop l : (span stop l <= length l)%nat.
Proof. induction l as [|b l IH]; simpl; [lia|]. destruct (stop b); lia. Qed.

Lemma cstr_tail a b l : cstr a (b :: l) -> V a = Some b /\ b <> 0 /\ cstr (a + 1) l.
Proof.
  intros [Hi Hz]. destruct (Hi 0%nat b) as [Hb Hnz]; [done|]. rewrite Z.add_0_r in Hb.
  split; [done|]. split; [done|]. split.
  - intros i c Hc. destruct (Hi (Datatypes.S i) c Hc) as [Hv Hn]. split; [|done]. rewrite <- Hv. f_equal. lia.
  - rewrite <- Hz. simpl. f_equal. lia.
Qed.

Lemma cstr_nil a : cstr a [] -> V a = Some 0.
Proof. intros [_ Hz]. by rewrite Z.add_0_r in Hz. Qed.

Lemma cstr_at a l i b : cstr a l -> (l ++ [0]) !! i = Some b -> V (a + Z.of_nat i) = Some b.
Proof.
  intros [Hi Hz] [Hb|[Hlen Hb]]%lookup_app_Some; [by apply Hi|].
  apply list_lookup_singleton_Some in Hb as [E <-]. replace i with (length l) by lia. done.
Qed.

Lemma cstr_u32 a l i : cstr a l -> (i <= length l)%nat -> is_u32 (a + Z.of_nat i).
Proof.
  intros Hc Hi. destruct ((l ++ [0]) !! i) as [b|] eqn:E.
  - by destruct (HV (a + Z.of_nat i) b (cstr_at _ _ _ _ Hc E)).
  - apply lookup_ge_None in E. rewrite length_app in E. simpl in E. lia.
Qed.

Lemma cstr_stops stop a l : stop 0 = true -> cstr a l ->
  stops stop a (a + Z.of_nat (span stop l)) (nth (span stop l) l 0).
Proof.
  intros H0s. revert a. induction l as [|b l IH]; intros a Hc; simpl.
  - apply cstr_nil in Hc. rewrite Z.add_0_r. split_and!; [lia|done|done|]. intros x Hx. lia.
  - destruct (cstr_tail _ _ _ Hc) as (Hb & _ & Hc'). destruct (stop b) eqn:E.
    + rewrite Z.add_0_r. split_and!; [lia|done|done|]. intros x Hx. lia.
    + destruct (IH _ Hc') as (? & ? & ? & Hx). replace (a + Z.of_nat (Datatypes.S (span stop l))) with
        (a + 1 + Z.of_nat (span stop l)) by lia. split_and!; [lia|done|done|].
      intros x Hx'. destruct (Z.eq_dec x a) as [->|]; [eauto|]. apply Hx. lia.
Qed.

Lemma span_zero l a : cstr a l -> span (fun b => b =? 0) l = length l.
Proof.
  revert a. induction l as [|b l IH]; intros a Hc; simpl; [done|].
  destruct (cstr_tail _ _ _ Hc) as (_ & Hb & Hc'). apply Z.eqb_neq in Hb. rewrite Hb. f_equal. by eapply IH.
Qed.

Lemma catches_strlen : catches strlen_test (fun b => b =? 0).
Proof.
  intros b0 b1 b2 b3 ? ? ? ? Hb. apply strlen_test_zero; [done..|].
  simpl in Hb. rewrite !orb_true_iff, !Z.eqb_eq in Hb. clear -Hb. intuition congruence.
Qed.

Lemma strlen_ok fuel a l : cstr a l -> word_tail (a + Z.of_nat (length l)) -> (length l < fuel)%nat ->
  reads (strlen fuel a) (Z.of_nat (length l)).
Proof.
  intros Hc Ht Hf. pose proof (cstr_stops (fun b => b =? 0) a l eq_refl Hc) as Hs. rewrite (span_zero _ _ Hc) in Hs.
  eapply reads_bind; [eapply (scan_ok _ _ _ _ _ _ catches_strlen Hs Ht); Z.to_euclidean_division_equations; lia|].
  simpl fst. replace (a + _ - a) with (Z.of_nat (length l)) by lia. rewrite u32_small; [apply reads_ret|].
  pose proof (cstr_u32 _ _ (length l) Hc ltac:(lia)) as H1. pose proof (cstr_u32 _ _ 0 Hc ltac:(lia)) as H2.
  unfold is_u32 in *. lia.
Qed.

Lemma catches_strchr c : catches (strchr_test (u8 c)) (fun b => (b =? u8 c) || (b =? 0)).
Proof. intros b0 b1 b2 b3 ? ? ? ?. by apply strchr_test_hit. Qed.

Definition is_or_nul (c b : Z) : bool := (b =? c) || (b =? 0).

Lemma strchr_scan_ok fuel a l c : cstr a l -> word_tail (a + Z.of_nat (span (is_or_nul (u8 c)) l)) ->
  (length l < fuel)%nat ->
  reads (scan (strchr_test (u8 c)) (fun b => (b =? u8 c) || (b =? 0)) fuel a)
    (a + Z.of_nat (span (is_or_nul (u8 c)) l), nth (span (is_or_nul (u8 c)) l) l 0).
Proof.
  intros Hc Ht Hf. pose proof (span_le (is_or_nul (u8 c)) l).
  eapply (scan_ok _ _ _ _ _ _ (catches_strchr c)); [by apply (cstr_stops (is_or_nul (u8 c))); [apply orb_true_r|]|done|].
  Z.to_euclidean_division_equations. lia.
Qed.

Lemma cstr_word_tail a l k : cstr a l -> word_tail (a + Z.of_nat (length l)) -> (k <= length l)%nat ->
  word_tail (a + Z.of_nat k).
Proof.
  intros Hc Ht Hk x Hx. destruct (Z.le_gt_cases (a + Z.of_nat (length l)) x) as [Hle|Hlt].
  - apply Ht. Z.to_euclidean_division_equations. lia.
  - destruct ((l ++ [0]) !! Z.to_nat (x - a)) as [b|] eqn:E.
    + apply (cstr_at _ _ _ _ Hc) in E. replace (a + Z.of_nat (Z.to_nat (x - a))) with x in E by lia. by rewrite E.
    + apply lookup_ge_None in E. rewrite length_app in E. simpl in E. lia.
Qed.

Lemma strchrnul_ok fuel a l c : cstr a l -> word_tail (a + Z.of_nat (length l)) -> (length l < fuel)%nat ->
  reads (strchrnul fuel a c) (a + Z.of_nat (span (is_or_nul (u8 c)) l)).
Proof.
  intros Hc Ht Hf. eapply reads_bind; [apply strchr_scan_ok; [done| |done]|apply reads_ret].
  apply (cstr_word_tail _ _ _ Hc Ht), span_le.
Qed.

Lemma strchr_ok fuel a l c : cstr a l -> word_tail (a + Z.of_nat (length l)) -> (length l < fuel)%nat ->
  reads (strchr fuel a c)
    (if nth (span (is_or_nul (u8 c)) l) l 0 =? u8 c then a + Z.of_nat (span (is_or_nul (u8 c)) l) else 0).
Proof.
  intros Hc Ht Hf. eapply reads_bind; [apply strchr_scan_ok; [done| |done]|apply reads_ret].
  apply (cstr_word_tail _ _ _ Hc Ht), span_le.
Qed.

(** *** strnlen *)

(** The words that hold the bytes from [p] up to [e] can be read. *)
Definition words_to (p e : Z) : Prop := forall x, p <= x < 4 * ((e - 1) / 4) + 4 -> is_Some (V x).

Lemma strnlen_loop_found fuel p cp e end_ptr : stops (fun b => b =? 0) p e 0 -> word_tail e -> p mod 4 = 0 ->
  (e < end_ptr \/ end_ptr = 2 ^ 32 - 1) -> (e - p) / 4 < Z.of_nat fuel ->
  reads (strnlen_loop fuel p cp end_ptr) e.
Proof.
  revert p cp. induction fuel as [|fuel IH]; intros p cp Hs Ht Hp He Hf.
  { destruct Hs. Z.to_euclidean_division_equations. lia. }
  destruct (word_at _ _ _ _ Hs Ht Hp) as (b0 & b1 & b2 & b3 & B0 & B1 & B2 & B3 & Hbs). cbn [strnlen_loop].
  destruct (HV e 0) as [He32 _]; [apply Hs|]. destruct (HV p b0 B0) as [Hp32 _].
  assert (p <= e) as Hpe by apply Hs. unfold is_u32 in *.
  rewrite (proj2 (Z.ltb_lt p end_ptr)) by (Z.to_euclidean_division_equations; lia).
  eapply reads_bind; [by apply reads_load32|].
  pose proof (stops_pick _ _ p e 0 Hs Hbs) as Hpick.
  assert (pick (fun b => b =? 0) p [b0; b1; b2; b3] = None ->
    reads (strnlen_loop fuel (u32 (p + 4)) end_ptr end_ptr) e) as Hnext.
  { intros E. rewrite E in Hpick. destruct Hpick as [_ Hle]. simpl length in Hle.
    rewrite u32_small by (unfold is_u32; lia).
    apply IH; [by apply (stops_later _ p); [|lia]|done| |done|]; Z.to_euclidean_division_equations; lia. }
  destruct (strnlen_test (le32 b0 b1 b2 b3)) eqn:Et.
  - eapply reads_bind; [by apply word_bytes_ok|].
    destruct (pick _ p [b0; b1; b2; b3]); [subst; apply reads_ret|by apply Hnext].
  - apply Hnext. destruct (pick _ p [b0; b1; b2; b3]) as [eb|] eqn:E; [|done]. exfalso.
    rewrite strnlen_test_zero in Et; [done|by eapply HV..|].
    clear -E. simpl in E. destruct (Z.eqb_spec b0 0), (Z.eqb_spec b1 0), (Z.eqb_spec b2 0), (Z.eqb_spec b3 0); auto. done.
Qed.

Lemma pick_at stop p bs x b : pick stop p bs = Some (x, b) ->
  exists i, bs !! i = Some b /\ x = p + Z.of_nat i /\ stop b = true.
Proof.
  revert p. induction bs as [|c bs IH]; intros p; simpl; [done|].
  destruct (stop c) eqn:E; [intros [= <- <-]; exists 0%nat; split_and!; [done|lia|done]|].
  intros (i & Hi & -> & Hb)%IH. exists (Datatypes.S i). split_and!; [done|lia|done].
Qed.

Lemma strnlen_loop_full fuel p cp e : p mod 4 = 0 -> 0 <= p -> e <= 2 ^ 32 - 4 -> words_to p e ->
  (forall x b, p <= x < e -> V x = Some b -> b <> 0) -> (e <= p -> e <= cp) -> (e - p) / 4 < Z.of_nat fuel ->
  exists r, reads (strnlen_loop fuel p cp e) r /\ e <= r.
Proof.
  revert p cp. induction fuel as [|fuel IH]; intros p cp Hp H0p He Hw Hnz Hcp Hf; cbn [strnlen_loop].
  { destruct (Z.ltb_spec p e); [Z.to_euclidean_division_equations; lia|]. exists cp. split; [apply reads_ret|auto]. }
  destruct (Z.ltb_spec p e) as [Hlt|Hge]; [|exists cp; split; [apply reads_ret|auto]].
  assert (forall k, 0 <= k < 4 -> is_Some (V (p + k))) as Hk.
  { intros k Hk. apply Hw. Z.to_euclidean_division_equations. lia. }
  destruct (Hk 0) as [b0 B0]; [lia|]. destruct (Hk 1) as [b1 B1]; [lia|].
  destruct (Hk 2) as [b2 B2]; [lia|]. destruct (Hk 3) as [b3 B3]; [lia|]. rewrite Z.add_0_r in B0. clear Hk.
  destruct (IH (p + 4) e) as (r & Hr & Her);
    [Z.to_euclidean_division_equations; lia|lia|lia|intros x Hx; apply Hw; lia|intros x b Hx; apply Hnz; lia|lia| |].
  { Z.to_euclidean_division_equations; lia. }
  assert (reads (strnlen_loop fuel (u32 (p + 4)) e e) r) as Hnext
    by (rewrite u32_small by (unfold is_u32; lia); done).
  destruct (strnlen_test (le32 b0 b1 b2 b3)) eqn:Et.
  - destruct (pick (fun b => b =? 0) p [b0; b1; b2; b3]) as [[x b]|] eqn:E.
    + exists x. split.
      * eapply reads_bind; [by apply reads_load32|]. rewrite Et. eapply reads_bind; [by apply word_bytes_ok|].
        rewrite E. apply reads_ret.
      * destruct (pick_at _ _ _ _ _ E) as (i & Hi & -> & Hb). apply Z.eqb_eq in Hb as ->.
        destruct (Z.le_gt_cases e (p + Z.of_nat i)) as [|Hlt']; [done|]. exfalso.
        apply (Hnz (p + Z.of_nat i) 0); [lia| |done].
        destruct i as [|[|[|[|i]]]]; simpl in Hi; simplify_eq; [by rewrite Z.add_0_r|done..].
    + exists r. split; [|done].
      eapply reads_bind; [by apply reads_load32|]. rewrite Et. eapply reads_bind; [by apply word_bytes_ok|]. by rewrite E.
  - exists r. split; [|done]. eapply reads_bind; [by apply reads_load32|]. by rewrite Et.
Qed.

Lemma head_scan_full n p e : (- p) mod 4 <= Z.of_nat n -> (p mod 4 <> 0 -> word_tail p) -> 0 <= p <= 2 ^ 32 - 4 ->
  (forall x b, p <= x < e -> V x = Some b -> b <> 0) ->
  exists r, reads (head_scan (fun b => b =? 0) n p) r /\
    match r with inl pb => e <= fst pb | inr q => q mod 4 = 0 /\ p <= q <= p + (- p) mod 4 end.
Proof.
  revert p. induction n as [|n IH]; intros p Hn Ht Hp Hnz; cbn [head_scan];
    change 3 with (Z.ones 2); rewrite Z.land_ones by lia; change (2 ^ 2) with 4; destruct (Z.eqb_spec (p mod 4) 0) as [E|E].
  1,3: exists (inr p); split; [apply reads_ret|]; Z.to_euclidean_division_equations; lia.
  { Z.to_euclidean_division_equations. lia. }
  destruct (Ht E p) as [b Hb]; [Z.to_euclidean_division_equations; lia|].
  destruct (Z.eqb_spec b 0) as [->|Hb0].
  - exists (inl (p, 0)). split; [eapply reads_bind; [by apply reads_load8|apply reads_ret]|]. simpl.
    destruct (Z.le_gt_cases e p); [done|]. exfalso. by apply (Hnz p 0); [lia| |].
  - destruct (IH (p + 1)) as (r & Hr & Hr');
      [Z.to_euclidean_division_equations; lia| |Z.to_euclidean_division_equations; lia| |].
    + intros E1 x Hx. apply Ht; Z.to_euclidean_division_equations; lia.
    + intros x c Hx. apply Hnz. lia.
    + exists r. split.
      * eapply reads_bind; [by apply reads_load8|]. apply Z.eqb_neq in Hb0. rewrite Hb0.
        rewrite u32_small by (unfold is_u32; Z.to_euclidean_division_equations; lia). done.
      * destruct r; [done|]. Z.to_euclidean_division_equations. lia.
Qed.

(** [n] is the length up to the terminator or [maxlen]. In the second case
    nothing is asked of what follows but that its word can be read. *)
Definition counted (a n maxlen : Z) : Prop :=
  (forall x, a <= x < a + n -> exists b, V x = Some b /\ b <> 0) /\
  (n < maxlen /\ V (a + n) = Some 0 /\ word_tail (a + n) \/
   n = maxlen /\ a + maxlen <= 2 ^ 32 - 4 /\ words_to a (a + maxlen)).

Lemma strnlen_ok fuel a n maxlen : counted a n maxlen -> 0 <= n -> is_u32 a -> is_u32 maxlen ->
  n / 4 < Z.of_nat fuel -> reads (strnlen fuel a maxlen) n.
Proof.
  intros [Hnz Hend] Hn Ha Hm Hf. unfold strnlen. unfold is_u32 in *.
  destruct (Z.eqb_spec maxlen 0) as [->|Hm0].
  { assert (n = 0) as -> by lia. apply reads_ret. }
  set (end_ptr := if u32 (a + maxlen) <? a then u32 (-1) else u32 (a + maxlen)).
  assert (end_ptr = if a + maxlen <? 2 ^ 32 then a + maxlen else 2 ^ 32 - 1) as Eend.
  { unfold end_ptr. change (u32 (-1)) with (2 ^ 32 - 1). destruct (Z.ltb_spec (a + maxlen) (2 ^ 32)).
    - rewrite u32_small by (unfold is_u32; lia). destruct (Z.ltb_spec (a + maxlen) a); lia.
    - replace (u32 (a + maxlen)) with (a + maxlen - 2 ^ 32); [destruct (Z.ltb_spec (a + maxlen - 2 ^ 32) a); lia|].
      unfold u32. rewrite <- (Z.mod_add _ (-1)) by lia. rewrite Z.mod_small; lia. }
  clearbody end_ptr.
  assert (forall x, (x <= end_ptr -> x - a = n) -> (end_ptr < x -> end_ptr - a = n) ->
    u32 ((if end_ptr <? x then end_ptr else x) - a) = n) as Hclip.
  { intros x H1 H2. destruct (Z.ltb_spec end_ptr x).
    - rewrite H2 by lia. apply u32_small. unfold is_u32. lia.
    - rewrite H1 by lia. apply u32_small. unfold is_u32. lia. }
  destruct Hend as [(Hlt & Hz & Ht)|(-> & Htop & Hw)].
  - assert (stops (fun b => b =? 0) a (a + n) 0) as Hs.
    { split_and!; [lia|done|done|]. intros x Hx. destruct (Hnz x Hx) as (b & Hb & Hb0).
      exists b. split; [done|]. by apply Z.eqb_neq. }
    destruct (HV _ _ Hz) as [He32 _]. unfold is_u32 in He32.
    destruct (head_scan_ok (fun b => b =? 0) 3 a (a + n) 0 Hs) as (r & Hr & Hr');
      [Z.to_euclidean_division_equations; lia|].
    eapply reads_bind; [exact Hr|]. destruct r as [pb|q].
    + subst pb. simpl fst. rewrite Hclip; [apply reads_ret|lia|]. destruct (Z.ltb_spec (a + maxlen) (2 ^ 32)); lia.
    + eapply reads_bind.
      { apply (strnlen_loop_found _ q q (a + n) end_ptr); [by apply (stops_later _ a); [|lia]|done|lia| |].
        - destruct (Z.ltb_spec (a + maxlen) (2 ^ 32)); lia.
        - Z.to_euclidean_division_equations; lia. }
      rewrite Hclip; [apply reads_ret|lia|]. destruct (Z.ltb_spec (a + maxlen) (2 ^ 32)); lia.
  - assert (end_ptr = a + maxlen) as -> by (destruct (Z.ltb_spec (a + maxlen) (2 ^ 32)); lia).
    assert (forall x b, a <= x < a + maxlen -> V x = Some b -> b <> 0) as Hnz'.
    { intros x b Hx Hb. destruct (Hnz x Hx) as (b' & Hb' & Hne). congruence. }
    destruct (head_scan_full 3 a (a + maxlen)) as (r & Hr & Hr'); [Z.to_euclidean_division_equations; lia| |lia|done|].
    { intros _ x Hx. apply Hw. Z.to_euclidean_division_equations; lia. }
    eapply reads_bind; [exact Hr|]. destruct r as [pb|q].
    + rewrite Hclip; [apply reads_ret|lia..].
    + destruct (strnlen_loop_full fuel q q (a + maxlen)) as (r & Hr2 & Hle);
        [lia|lia|lia| | |lia|Z.to_euclidean_division_equations; lia|].
      * intros x Hx. apply Hw. lia.
      * intros x b Hx. apply Hnz'. lia.
      * eapply reads_bind; [exact Hr2|]. rewrite Hclip; [apply reads_ret|lia..].
Qed.

(** *** strcspn *)

Definition is_reject (r : list Z) (b : Z) : bool := bool_decide (b ∈ r) || (b =? 0).

Definition marks (p : list Z) (r : list Z) : list Z := foldl (fun p b => <[Z.to_nat b := 1]> p) p (r ++ [0]).

Lemma reject_table_ok fuel a r p : cstr a r -> (length r < fuel)%nat -> reads (reject_table fuel a p) (marks p r).
Proof.
  revert fuel a p. induction r as [|b r IH]; intros [|fuel] a p Hc Hf; simpl in Hf; try lia; cbn [reject_table].
  - eapply reads_bind; [by apply reads_load8, cstr_nil|]. apply reads_ret.
  - destruct (cstr_tail _ _ _ Hc) as (Hb & Hb0 & Hc'). apply Z.eqb_neq in Hb0.
    eapply reads_bind; [by apply reads_load8|]. rewrite Hb0.
    assert (is_u32 (a + 1)) as Ha by (by apply (cstr_u32 a (b :: r) 1); [|simpl; lia]).
    rewrite (u32_small _ Ha). apply (IH fuel (a + 1)); [done|lia].
Qed.

Lemma marked_lookup (r p : list Z) b : Forall is_u8 r -> length p = 256%nat -> is_u8 b ->
  foldl (fun p b => <[Z.to_nat b := 1]> p) p r !! Z.to_nat b =
    if decide (b ∈ r) then Some 1 else p !! Z.to_nat b.
Proof.
  intros Hr Hp Hb. revert p Hp. induction Hr as [|c r Hc Hr IH]; intros p Hp; cbn [foldl].
  { by destruct (decide (b ∈ [])) as [?%elem_of_nil|]. }
  rewrite IH by by rewrite length_insert. unfold is_u8 in *.
  destruct (decide (b ∈ r)) as [Hin|Hin], (decide (b ∈ c :: r)) as [Hin'|Hin'].
  - done.
  - destruct Hin'. by right.
  - apply elem_of_cons in Hin' as [->|]; [|done]. apply list_lookup_insert_eq. lia.
  - apply list_lookup_insert_ne. intros E. apply Hin'. assert (b = c) as -> by lia. by left.
Qed.

Context (r : list Z) (Hr : Forall is_u8 r).
#[local] Abbreviation table := (marks (replicate 256 0) r).

Lemma in_table_ok a b : V a = Some b -> reads (in_table table a) (if is_reject r b then 1 else 0).
Proof.
  intros Hb. eapply reads_bind; [by apply reads_load8|].
  destruct (HV _ _ Hb) as [_ Hb8]. unfold marks. rewrite marked_lookup.
  - unfold is_reject. destruct (decide (b ∈ r ++ [0])) as [Hin|Hin].
    + replace (_ || _) with true; [apply reads_ret|]. symmetry. apply orb_true_iff.
      apply elem_of_app in Hin as [Hin| ->%list_elem_of_singleton]; [left; by apply bool_decide_eq_true|by right].
    + replace (_ || _) with false.
      * rewrite lookup_replicate_2 by (unfold is_u8 in Hb8; lia). apply reads_ret.
      * symmetry. apply orb_false_iff. rewrite bool_decide_eq_false, Z.eqb_neq, elem_of_app in *.
        rewrite list_elem_of_singleton in Hin. tauto.
  - apply Forall_app. split; [done|]. apply Forall_singleton. unfold is_u8. lia.
  - apply length_replicate.
  - done.
Qed.

Lemma strcspn_loop_ok fuel a s e b : stops (is_reject r) (s + 4) e b -> word_tail e -> s mod 4 = 0 ->
  is_u32 a -> 0 <= s -> a <= s + 4 -> (e - (s + 4)) / 4 < Z.of_nat fuel -> reads (strcspn_loop fuel table a s) (e - a).
Proof.
  revert s. induction fuel as [|fuel IH]; intros s Hs Ht Hs4 Ha Hs0 Has Hf.
  { destruct Hs. Z.to_euclidean_division_equations. lia. }
  destruct (word_at _ _ _ _ Hs Ht ltac:(Z.to_euclidean_division_equations; lia))
    as (b0 & b1 & b2 & b3 & B0 & B1 & B2 & B3 & Hbs). cbn [strcspn_loop].
  destruct (HV _ _ B0) as [U0 _], (HV _ _ B1) as [U1 _], (HV _ _ B2) as [U2 _], (HV _ _ B3) as [U3 _].
  rewrite (u32_small (s + 4)), (u32_small (s + 4 + 1)), (u32_small (s + 4 + 2)), (u32_small (s + 4 + 3)) by done.
  unfold is_u32 in *.
  do 4 (eapply reads_bind; [by apply in_table_ok|]).
  pose proof (stops_pick _ _ _ _ _ Hs Hbs) as Hp. unfold pick in Hp.
  assert (forall x, 0 <= x < 2 ^ 32 -> x = e - a -> reads (mret (u32 x)) (e - a)) as Hret.
  { intros x Hx <-. rewrite u32_small by done. apply reads_ret. }
  rewrite (u32_small (s + 4 - a)) by (unfold is_u32; lia).
  destruct (is_reject r b0), (is_reject r b1), (is_reject r b2), (is_reject r b3) eqn:E3; cbn [Z.lor Z.eqb negb Pos.lor];
    try (injection Hp as <- <-; apply Hret; lia).
  destruct Hp as [_ Hle]. simpl length in Hle. destruct (HV e b) as [He _]; [apply Hs|].
  apply IH; [by apply (stops_later _ (s + 4)); [|lia]|done|Z.to_euclidean_division_equations; lia|done|lia|lia|].
  Z.to_euclidean_division_equations; lia.
Qed.

(** The first bytes of the string, then the aligned words. *)
Lemma strcspn_table_ok fuel a l : cstr a l -> word_tail (a + Z.of_nat (length l)) -> (length l < fuel)%nat ->
  reads
    (c0 ← in_table table a;
     if negb (c0 =? 0) then mret 0 else
     c1 ← in_table table (u32 (a + 1));
     if negb (c1 =? 0) then mret 1 else
     c2 ← in_table table (u32 (a + 2));
     if negb (c2 =? 0) then mret 2 else
     c3 ← in_table table (u32 (a + 3));
     if negb (c3 =? 0) then mret 3 else
     strcspn_loop fuel table a (ALIGN_DOWN a 4))
    (Z.of_nat (span (is_reject r) l)).
Proof.
  intros Hc Ht Hf. set (n := span (is_reject r) l).
  pose proof (span_le (is_reject r) l : (n <= length l)%nat) as Hn.
  assert (is_reject r 0 = true) as Hr0 by apply orb_true_r.
  destruct (cstr_stops (is_reject r) a l Hr0 Hc) as (_ & He & Hstop & Hx).
  pose proof (cstr_stops (is_reject r) a l Hr0 Hc) as Hs. fold n in Hs, He, Hstop, Hx.
  assert (is_u32 a) as Ha by (rewrite <- (Z.add_0_r a); apply (cstr_u32 a l 0 Hc); lia).
  assert (forall k, (k < n)%nat -> exists b, V (a + Z.of_nat k) = Some b /\ is_reject r b = false) as Hk
    by (intros k Hk; apply Hx; lia).
  assert (forall k, (k <= n)%nat -> u32 (a + Z.of_nat k) = a + Z.of_nat k) as Hu
    by (intros k Hkn; apply u32_small, (cstr_u32 a l k Hc); lia).
  assert (forall k, (k < n)%nat -> reads (in_table table (a + Z.of_nat k)) 0) as Hmiss.
  { intros k Hkn. destruct (Hk k Hkn) as (b & Hb & Hrb). pose proof (in_table_ok _ _ Hb) as Hi. by rewrite Hrb in Hi. }
  assert (reads (in_table table (a + Z.of_nat n)) 1) as Hhit.
  { pose proof (in_table_ok _ _ He) as Hi. by rewrite Hstop in Hi. }
  clear Hk Hx Hr0. clearbody n.
  change (a + 1) with (a + Z.of_nat 1). change (a + 2) with (a + Z.of_nat 2). change (a + 3) with (a + Z.of_nat 3).
  replace (in_table table a) with (in_table (S:=S) table (a + Z.of_nat 0)) by (f_equal; lia).
  destruct n as [|[|[|[|n]]]];
    try rewrite (Hu 1%nat) by lia; try rewrite (Hu 2%nat) by lia; try rewrite (Hu 3%nat) by lia;
    repeat (first
      [ eapply reads_bind; [exact Hhit|]; apply reads_ret
      | eapply reads_bind; [apply Hmiss; lia|]; cbn [negb Z.eqb] ]).
  replace (Z.of_nat _) with (a + Z.of_nat (Datatypes.S (Datatypes.S (Datatypes.S (Datatypes.S n)))) - a) by lia.
  pose proof (ALIGN_DOWN_pow2 a 2 Ha ltac:(lia)) as Ed. change (2 ^ 2) with 4 in Ed. rewrite Ed. unfold is_u32 in Ha.
  eapply strcspn_loop_ok; [apply (stops_later _ a); [exact Hs|]|by apply (cstr_word_tail a l)|..];
    try done; Z.to_euclidean_division_equations; lia.
Qed.

Lemma strcspn_ok fuel a l ra : cstr a l -> word_tail (a + Z.of_nat (length l)) -> cstr ra r ->
  (length l < fuel)%nat -> (length r < fuel)%nat ->
  reads (strcspn fuel a ra) (Z.of_nat (span (is_reject r) l)).
Proof.
  intros Hc Ht Hcr Hf Hfr. unfold strcspn.
  assert (is_u32 (a + Z.of_nat 0)) as Ha by (apply (cstr_u32 a l 0 Hc); lia).
  assert (forall c, is_u8 c -> (forall b, is_or_nul c b = is_reject r b) ->
    reads (e ← strchrnul fuel a c; mret (u32 (e - a))) (Z.of_nat (span (is_reject r) l))) as Hone.
  { intros c Hc8 Heq. assert (span (is_or_nul (u8 c)) l = span (is_reject r) l) as Esp.
    { clear -Hc8 Heq. rewrite (u8_small c Hc8). induction l as [|b l IH]; simpl; [done|]. by rewrite Heq, IH. }
    eapply reads_bind; [by apply strchrnul_ok|]. rewrite Esp.
    replace (a + _ - a) with (Z.of_nat (span (is_reject r) l)) by lia. rewrite u32_small; [apply reads_ret|].
    pose proof (span_le (is_reject r) l). pose proof (cstr_u32 a l (length l) Hc ltac:(lia)). unfold is_u32 in *. lia. }
  assert (r = [] \/ (exists r0, r = [r0]) \/ exists r0 r1 r', r = r0 :: r1 :: r') as [Er|[[r0 Er]|(r0 & r1 & r' & Er)]].
  { destruct r as [|r0 [|r1 r']]; eauto 6. }
  all: pose proof Hcr as Hcr'; rewrite Er in Hcr'.
  - eapply reads_bind; [by apply reads_load8, cstr_nil|].
    eapply reads_bind; [apply reads_ret|]. apply Hone; [unfold is_u8; lia|].
    intros b. unfold is_or_nul, is_reject. rewrite Er, bool_decide_eq_false_2 by apply not_elem_of_nil.
    by destruct (b =? 0).
  - destruct (cstr_tail _ _ _ Hcr') as (B0 & N0 & Hc1). apply cstr_nil in Hc1.
    apply Z.eqb_neq in N0. eapply reads_bind; [by apply reads_load8|]. rewrite N0.
    destruct (HV _ _ Hc1) as [U1 _]. rewrite (u32_small _ U1).
    eapply reads_bind; [eapply reads_bind; [by apply reads_load8|apply reads_ret]|].
    apply Hone; [by eapply HV|]. intros b. unfold is_or_nul, is_reject. rewrite Er. f_equal.
    destruct (Z.eqb_spec b r0) as [->|Hne]; symmetry; [apply bool_decide_eq_true|apply bool_decide_eq_false];
      by rewrite list_elem_of_singleton.
  - destruct (cstr_tail _ _ _ Hcr') as (B0 & N0 & Hc1). destruct (cstr_tail _ _ _ Hc1) as (B1 & N1 & _).
    apply Z.eqb_neq in N0, N1. eapply reads_bind; [by apply reads_load8|]. rewrite N0.
    destruct (HV _ _ B1) as [U1 _]. rewrite (u32_small _ U1).
    eapply reads_bind; [eapply reads_bind; [by apply reads_load8|rewrite N1; apply reads_ret]|].
    eapply reads_bind; [by apply (reject_table_ok fuel ra r)|]. by apply strcspn_table_ok.
Qed.
End reads.

(** A reading computation run from a state: the result, and nothing changed. *)
Lemma reads_run {S} `{MemLaws S} {A} (m : M S A) (r : A) (s : S) : mem_ok s -> reads (view s) (rest s) m r ->
  exists s', m s = Ok (r, s') /\ leaves s s' (view s).
Proof. intros Hok Hm. by apply Hm. Qed.

Lemma view_bytes {S} `{MemLaws S} (s : S) : mem_ok s -> bytes_ok (view s).
Proof. intros Hok a b Hb. split; [by eapply view_u32|by eapply view_u8]. Qed.

Lemma span_ext (f g : Z -> bool) l : Forall (fun b => f b = g b) l -> span f l = span g l.
Proof. induction 1 as [|b l E _ IH]; simpl; [done|]. by rewrite E, IH. Qed.

(** The byte at which the search for [c] ends is [c] when [c] occurs. *)
Lemma span_elem c l : Forall (fun b => b <> 0) l ->
  (if nth (span (is_or_nul c) l) l 0 =? c then True else False) <-> c ∈ l ++ [0].
Proof.
  intros Hl. induction Hl as [|b l Hb Hl IH].
  - simpl nth. rewrite app_nil_l, list_elem_of_singleton. destruct (Z.eqb_spec 0 c); intuition congruence.
  - simpl app. rewrite elem_of_cons, <- IH. cbn [span]. unfold is_or_nul at 1.
    rewrite (proj2 (Z.eqb_neq b 0) Hb), orb_false_r.
    destruct (Z.eqb_spec b c) as [->|Hne]; cbn [nth]; [rewrite Z.eqb_refl; tauto|]. intuition congruence.
Qed.

Lemma cstr_nonzero {V} a l : cstr V a l -> Forall (fun b => b <> 0) l.
Proof. intros [Hi _]. apply Forall_lookup_2. intros i b Hb. by destruct (Hi i b Hb). Qed.

(** [strnlen] on a terminated string. *)
Lemma strnlen_cstr_ok {S} `{MemLaws S} V R fuel a l maxlen : bytes_ok V -> cstr V a l ->
  word_tail V (a + Z.of_nat (length l)) -> is_u32 maxlen -> a + Z.of_nat (length l) <= 2 ^ 32 - 4 ->
  (length l < fuel)%nat -> reads (S:=S) V R (strnlen fuel a maxlen) (Z.min maxlen (Z.of_nat (length l))).
Proof.
  intros HV Hc Ht Hm Htop Hf. pose proof (cstr_u32 _ HV _ _ 0 Hc ltac:(lia)) as Ha0.
  simpl in Ha0. rewrite Z.add_0_r in Ha0.
  apply strnlen_ok; [done| |unfold is_u32 in *; lia|done|done|apply Z.div_lt_upper_bound; lia]. split.
  + intros x Hx. destruct Hc as [Hi _]. destruct (lookup_lt_is_Some_2 l (Z.to_nat (x - a))) as [b Hb]; [lia|].
    destruct (Hi _ _ Hb) as [Hv Hb0]. exists b. split; [|done]. rewrite <- Hv. f_equal. lia.
  + destruct (Z.le_gt_cases maxlen (Z.of_nat (length l))).
    * right. rewrite Z.min_l by lia. split_and!; [done|lia|]. intros x Hx.
      apply (cstr_word_tail _ a l (Nat.min (Z.to_nat (x - a)) (length l)) Hc Ht); [lia|].
      Z.to_euclidean_division_equations. lia.
    * left. rewrite Z.min_r by lia. split_and!; [lia|apply Hc|done].
Qed.

(** C16: on a C string [l] at [a], whose last word can be read to its end, the
    word-at-a-time routines return what a byte loop returns and change
    nothing: the length for [strlen], the length clipped to [maxlen] for
    [strnlen], the address of the first [c] or of the terminator for
    [strchrnul], the address of the first [c] or NULL for [strchr], and the
    length of the longest prefix without a byte of [r] for [strcspn]. The
    fuel, one unit per character, is enough. *)
Theorem string_scans_correct {S} `{MemLaws S} (s : S) (a ra c maxlen : Z) (l r : list Z) (fuel : nat) :
  mem_ok s -> cstr (view s) a l -> word_tail (view s) (a + Z.of_nat (length l)) -> cstr (view s) ra r ->
  is_u32 maxlen -> a + Z.of_nat (length l) <= 2 ^ 32 - 4 -> (length l < fuel)%nat -> (length r < fuel)%nat ->
  let run {A} (m : M S A) (x : A) := exists s', m s = Ok (x, s') /\ leaves s s' (view s) in
  run (strlen fuel a) (Z.of_nat (length l)) /\
  run (strnlen fuel a maxlen) (Z.min maxlen (Z.of_nat (length l))) /\
  run (strchrnul fuel a c) (a + Z.of_nat (span (fun b => b =? u8 c) l)) /\
  run (strchr fuel a c)
    (if decide (u8 c ∈ l ++ [0]) then a + Z.of_nat (span (fun b => b =? u8 c) l) else 0) /\
  run (strcspn fuel a ra) (Z.of_nat (span (fun b => bool_decide (b ∈ r)) l)).
Proof.
  intros Hok Hc Ht Hcr Hm Htop Hf Hfr run. pose proof (view_bytes s Hok) as HV.
  pose proof (cstr_nonzero _ _ Hc) as Hnz.
  assert (Forall is_u8 r) as Hr8.
  { apply Forall_lookup_2. intros i b Hb. destruct Hcr as [Hi _]. destruct (Hi i b Hb) as [Hv _]. by eapply HV. }
  assert (span (is_or_nul (u8 c)) l = span (fun b => b =? u8 c) l) as Ec.
  { apply span_ext. eapply Forall_impl; [|exact Hnz]. intros b Hb. apply Z.eqb_neq in Hb.
    unfold is_or_nul. by rewrite Hb, orb_false_r. }
  assert (span (is_reject r) l = span (fun b => bool_decide (b ∈ r)) l) as Er.
  { apply span_ext. eapply Forall_impl; [|exact Hnz]. intros b Hb. apply Z.eqb_neq in Hb.
    unfold is_reject. by rewrite Hb, orb_false_r. }
  split_and!; apply reads_run; try done.
  - by apply strlen_ok.
  - by apply strnlen_cstr_ok.
  - rewrite <- Ec. by apply strchrnul_ok.
  - rewrite <- Ec.
    pose proof (strchr_ok _ (rest s) HV fuel a l c Hc Ht Hf) as Hs.
    pose proof (span_elem (u8 c) l Hnz) as Hiff.
    destruct (decide (u8 c ∈ l ++ [0])), (nth (span (is_or_nul (u8 c)) l) l 0 =? u8 c); by (exact Hs || tauto).
  - rewrite <- Er. by apply strcspn_ok.
Qed.

(** The string abcab at an odd address, its word padded by one byte, and the
    set cb elsewhere. *)
Definition string_example : flat :=
  list_to_map ([(1001, 97); (1002, 98); (1003, 99); (1004, 97); (1005, 98); (1006, 0); (1007, 7)] ++
               [(2000, 99); (2001, 98); (2002, 0)]).

Lemma string_scans_correct_witness :
  (exists s', strlen 9 1001 string_example = Ok (5, s')) /\
  (exists s', strchr 9 1001 99 string_example = Ok (1003, s')) /\
  (exists s', strcspn 9 1001 2000 string_example = Ok (1, s')).
Proof.
  destruct (string_scans_correct string_example 1001 2000 99 3 [97; 98; 99; 97; 98] [99; 98] 9)
    as ((s1 & E1 & _) & _ & _ & (s2 & E2 & _) & (s3 & E3 & _)).
  - unfold mem_ok, flat_laws, flat_ok, is_u32, is_u8. apply (bool_decide_unpack _). vm_compute. exact I.
  - split; [|reflexivity]. intros [|[|[|[|[|i]]]]] b; intros [= <-]; split; (reflexivity || lia).
  - intros x Hx. change (1001 + Z.of_nat (length [97; 98; 99; 97; 98])) with 1006 in Hx.
    change (4 * (1006 / 4) + 4) with 1008 in Hx. assert (x = 1006 \/ x = 1007) as [->| ->] by lia; eexists; reflexivity.
  - split; [|reflexivity]. intros [|[|i]] b; intros [= <-]; split; (reflexivity || lia).
  - zdec.
  - zdec.
  - simpl. lia.
  - simpl. lia.
  - split; [|split]; eexists; eassumption.
Defined.
