(* ===== verification/Memcmp.v ===== *)
(** * memcmp

    [utils/string/memcmp.c]: bytes up to a word boundary of the second block,
    then words, with a comparison loop entered in the middle (the labels
    [do0] to [do3] are the definitions of those names), shifting pairs of
    words together when the first block is not aligned the same way. Proved
    equal to the byte-by-byte comparison. *)
From Stdlib Require Import ZArith Lia Bool.
From stdpp Require Import base list gmap option.
From S2P Require Import Prelude Mem StrScan.

Open Scope Z_scope.

Definition MEMCMP_THRES : Z := 16.

Definition MERGE (w0 sh_1 w1 sh_2 : Z) : Z := Z.lor (Z.shiftr w0 sh_1) (u32 (Z.shiftl w1 sh_2)).

(** The bytes of two words compared from the lowest address; the loop has no
    bound of its own, its caller knows the words differ. *)
Fixpoint memcmp_bytes_loop (n : nat) (k a b : Z) : Z :=
  match n with
  | O => 0
  | S n' => if byte_of a k =? byte_of b k then memcmp_bytes_loop n' (k + 1) a b else s32 (byte_of a k - byte_of b k)
  end.
Definition memcmp_bytes (a b : Z) : Z := memcmp_bytes_loop 4 0 a b.
Definition CMP_LT_OR_GT : Z -> Z -> Z := memcmp_bytes.

Section memcmp.
Context {S : Type} `{Mem S}.

Definition ld (p i : Z) : M S Z := load32 (u32 (p + OPSIZ * i)).

(** ** Both blocks aligned *)
Section common.
Context (loop : Z -> Z -> Z -> Z -> Z -> M S Z).

Definition common_do0 (a1 b1 : Z) : M S Z :=
  if negb (a1 =? b1) then mret (CMP_LT_OR_GT a1 b1) else mret 0.

Definition common_do1 (a0 b0 srcp1 srcp2 len : Z) : M S Z :=
  a1 ← ld srcp1 3; b1 ← ld srcp2 3;
  if negb (a0 =? b0) then mret (CMP_LT_OR_GT a0 b0) else
  let srcp1 := u32 (srcp1 + 4 * OPSIZ) in
  let srcp2 := u32 (srcp2 + 4 * OPSIZ) in
  let len := u32 (len - 4) in
  if negb (len =? 0) then loop a1 b1 srcp1 srcp2 len else common_do0 a1 b1.

Definition common_do2 (a1 b1 srcp1 srcp2 len : Z) : M S Z :=
  a0 ← ld srcp1 2; b0 ← ld srcp2 2;
  if negb (a1 =? b1) then mret (CMP_LT_OR_GT a1 b1) else common_do1 a0 b0 srcp1 srcp2 len.

Definition common_do3 (a0 b0 srcp1 srcp2 len : Z) : M S Z :=
  a1 ← ld srcp1 1; b1 ← ld srcp2 1;
  if negb (a0 =? b0) then mret (CMP_LT_OR_GT a0 b0) else common_do2 a1 b1 srcp1 srcp2 len.

Definition common_body (a1 b1 srcp1 srcp2 len : Z) : M S Z :=
  a0 ← ld srcp1 0; b0 ← ld srcp2 0;
  if negb (a1 =? b1) then mret (CMP_LT_OR_GT a1 b1) else common_do3 a0 b0 srcp1 srcp2 len.
End common.

Fixpoint common_loop (fuel : nat) (a1 b1 srcp1 srcp2 len : Z) : M S Z :=
  match fuel with
  | O => mfail Fuel
  | Datatypes.S fuel' => common_body (common_loop fuel') a1 b1 srcp1 srcp2 len
  end.

Definition memcmp_common_alignment (fuel : nat) (srcp1 srcp2 len : Z) : M S Z :=
  if len mod 4 =? 3 then
    a1 ← ld srcp1 0; b1 ← ld srcp2 0;
    common_do2 (common_loop fuel) a1 b1 (u32 (srcp1 - OPSIZ)) (u32 (srcp2 - OPSIZ)) (u32 (len + 1))
  else if len mod 4 =? 0 then
    if (MEMCMP_THRES <=? 3 * OPSIZ) && (len =? 0) then mret 0 else
    a0 ← ld srcp1 0; b0 ← ld srcp2 0;
    common_do3 (common_loop fuel) a0 b0 srcp1 srcp2 len
  else if len mod 4 =? 1 then
    a1 ← ld srcp1 0; b1 ← ld srcp2 0;
    let srcp1 := u32 (srcp1 + OPSIZ) in
    let srcp2 := u32 (srcp2 + OPSIZ) in
    let len := u32 (len - 1) in
    if (MEMCMP_THRES <=? 3 * OPSIZ) && (len =? 0) then common_do0 a1 b1
    else common_loop fuel a1 b1 srcp1 srcp2 len
  else
    a0 ← ld srcp1 0; b0 ← ld srcp2 0;
    common_do1 (common_loop fuel) a0 b0 (u32 (srcp1 - 2 * OPSIZ)) (u32 (srcp2 - 2 * OPSIZ)) (u32 (len + 2)).

(** ** The first block not aligned *)
Section shifted.
Context (shl shr : Z) (loop : Z -> Z -> Z -> Z -> Z -> Z -> M S Z).

Definition shifted_do0 (a2 a3 b3 : Z) : M S Z :=
  let x := MERGE a2 shl a3 shr in
  if negb (x =? b3) then mret (CMP_LT_OR_GT x b3) else mret 0.

Definition shifted_do1 (a1 a2 b2 srcp1 srcp2 len : Z) : M S Z :=
  a3 ← ld srcp1 3; b3 ← ld srcp2 3;
  let x := MERGE a1 shl a2 shr in
  if negb (x =? b2) then mret (CMP_LT_OR_GT x b2) else
  let srcp1 := u32 (srcp1 + 4 * OPSIZ) in
  let srcp2 := u32 (srcp2 + 4 * OPSIZ) in
  let len := u32 (len - 4) in
  if negb (len =? 0) then loop a2 a3 b3 srcp1 srcp2 len else shifted_do0 a2 a3 b3.

Definition shifted_do2 (a0 a1 b1 srcp1 srcp2 len : Z) : M S Z :=
  a2 ← ld srcp1 2; b2 ← ld srcp2 2;
  let x := MERGE a0 shl a1 shr in
  if negb (x =? b1) then mret (CMP_LT_OR_GT x b1) else shifted_do1 a1 a2 b2 srcp1 srcp2 len.

Definition shifted_do3 (a3 a0 b0 srcp1 srcp2 len : Z) : M S Z :=
  a1 ← ld srcp1 1; b1 ← ld srcp2 1;
  let x := MERGE a3 shl a0 shr in
  if negb (x =? b0) then mret (CMP_LT_OR_GT x b0) else shifted_do2 a0 a1 b1 srcp1 srcp2 len.

Definition shifted_body (a2 a3 b3 srcp1 srcp2 len : Z) : M S Z :=
  a0 ← ld srcp1 0; b0 ← ld srcp2 0;
  let x := MERGE a2 shl a3 shr in
  if negb (x =? b3) then mret (CMP_LT_OR_GT x b3) else shifted_do3 a3 a0 b0 srcp1 srcp2 len.
End shifted.

Fixpoint shifted_loop (shl shr : Z) (fuel : nat) (a2 a3 b3 srcp1 srcp2 len : Z) : M S Z :=
  match fuel with
  | O => mfail Fuel
  | Datatypes.S fuel' => shifted_body shl shr (shifted_loop shl shr fuel') a2 a3 b3 srcp1 srcp2 len
  end.

Definition memcmp_not_common_alignment (fuel : nat) (srcp1 srcp2 len : Z) : M S Z :=
  let shl := 8 * (srcp1 mod OPSIZ) in
  let shr := 8 * OPSIZ - shl in
  let srcp1 := ALIGN_DOWN srcp1 OPSIZ in
  let loop := shifted_loop shl shr fuel in
  if len mod 4 =? 3 then
    a0 ← ld srcp1 0; a1 ← ld srcp1 1; b1 ← ld srcp2 0;
    shifted_do2 shl shr loop a0 a1 b1 srcp1 (u32 (srcp2 - OPSIZ)) (u32 (len + 1))
  else if len mod 4 =? 0 then
    if (MEMCMP_THRES <=? 3 * OPSIZ) && (len =? 0) then mret 0 else
    a3 ← ld srcp1 0; a0 ← ld srcp1 1; b0 ← ld srcp2 0;
    shifted_do3 shl shr loop a3 a0 b0 (u32 (srcp1 + OPSIZ)) srcp2 len
  else if len mod 4 =? 1 then
    a2 ← ld srcp1 0; a3 ← ld srcp1 1; b3 ← ld srcp2 0;
    let srcp1 := u32 (srcp1 + 2 * OPSIZ) in
    let srcp2 := u32 (srcp2 + OPSIZ) in
    let len := u32 (len - 1) in
    if (MEMCMP_THRES <=? 3 * OPSIZ) && (len =? 0) then shifted_do0 shl shr a2 a3 b3
    else loop a2 a3 b3 srcp1 srcp2 len
  else
    a1 ← ld srcp1 0; a2 ← ld srcp1 1; b2 ← ld srcp2 0;
    shifted_do1 shl shr loop a1 a2 b2 (u32 (srcp1 - OPSIZ)) (u32 (srcp2 - 2 * OPSIZ)) (u32 (len + 2)).

(** ** The entry point *)

(** A byte loop of [n] rounds; [inl res]: the blocks differ. *)
Fixpoint memcmp_byte_loop (n : nat) (srcp1 srcp2 : Z) : M S (Z + unit) :=
  match n with
  | O => mret (inr tt)
  | Datatypes.S n' =>
      a0 ← load8 srcp1; b0 ← load8 srcp2;
      let res := u32 (a0 - b0) in
      if negb (res =? 0) then mret (inl (s32 res))
      else memcmp_byte_loop n' (u32 (srcp1 + 1)) (u32 (srcp2 + 1))
  end.

Definition memcmp_tail (srcp1 srcp2 len : Z) : M S Z :=
  r ← memcmp_byte_loop (Z.to_nat len) srcp1 srcp2;
  match r with inl res => mret res | inr _ => mret 0 end.

Definition memcmp (fuel : nat) (s1 s2 len : Z) : M S Z :=
  if MEMCMP_THRES <=? len then
    let pre := (- s2) mod OPSIZ in
    r ← memcmp_byte_loop (Z.to_nat pre) s1 s2;
    match r with
    | inl res => mret res
    | inr _ =>
        let srcp1 := u32 (s1 + pre) in
        let srcp2 := u32 (s2 + pre) in
        let len := len - pre in
        res ← (if srcp1 mod OPSIZ =? 0 then memcmp_common_alignment fuel srcp1 srcp2 (len / OPSIZ)
               else memcmp_not_common_alignment fuel srcp1 srcp2 (len / OPSIZ));
        if negb (res =? 0) then mret res
        else
          let n := Z.land len (u32 (- OPSIZ)) in
          memcmp_tail (u32 (srcp1 + n)) (u32 (srcp2 + n)) (len mod OPSIZ)
    end
  else memcmp_tail s1 s2 len.
End memcmp.

(** ** The word loops *)

(** The reference on words: the first pair that differs decides. *)
Fixpoint wcmp (w1 w2 : Z -> Z) (i : Z) (m : nat) : Z :=
  match m with
  | O => 0
  | S m' => if w1 i =? w2 i then wcmp w1 w2 (i + 1) m' else CMP_LT_OR_GT (w1 i) (w2 i)
  end.

Section loops.
Context {S : Type} `{MemLaws S} (V : Z -> option Z) (R : rest_type (S:=S)).

Lemma ld_shift p j k : ld (S:=S) (u32 (p + OPSIZ * j)) k = ld p (j + k).
Proof. unfold ld. rewrite u32_add_l. do 2 f_equal. lia. Qed.

Lemma src_shift p j k : u32 (u32 (p + OPSIZ * j) + k * OPSIZ) = u32 (p + OPSIZ * (j + k)).
Proof. rewrite u32_add_l. f_equal. lia. Qed.

(** One comparison of the loops. *)
Lemma wcmp_step w1 w2 i m (k : M S Z) :
  (0 < m)%nat -> reads V R k (wcmp w1 w2 (i + 1) (Nat.pred m)) ->
  reads V R (if negb (w1 i =? w2 i) then mret (CMP_LT_OR_GT (w1 i) (w2 i)) else k) (wcmp w1 w2 i m).
Proof.
  intros Hm Hk. destruct m as [|m]; [lia|]. cbn [wcmp Nat.pred] in *.
  destruct (w1 i =? w2 i); [done|apply reads_ret].
Qed.

Context (w1 w2 : Z -> Z) (p1 p2 n : Z).

Section aligned.
Context (Hw1 : forall i, 0 <= i < n -> reads V R (ld p1 i) (w1 i)).
Context (Hw2 : forall i, 0 <= i < n -> reads V R (ld p2 i) (w2 i)).

Lemma common_do0_ok i : reads V R (common_do0 (w1 i) (w2 i)) (wcmp w1 w2 i 1).
Proof. apply wcmp_step; [lia|]. apply reads_ret. Qed.

Section body.
Context (loop : Z -> Z -> Z -> Z -> Z -> M S Z) (L : Z) (HL : 4 <= L < 2 ^ 32).
(** What the rest of the loop does from index [i]. *)
Context (Hloop : forall i, 4 < L -> 0 <= i -> i + (L - 4) < n ->
  reads V R (loop (w1 i) (w2 i) (u32 (p1 + OPSIZ * (i + 1))) (u32 (p2 + OPSIZ * (i + 1))) (L - 4))
    (wcmp w1 w2 i (Z.to_nat (L - 3)))).

Lemma common_do1_ok i : 0 <= i -> i + (L - 2) <= n ->
  reads V R (common_do1 loop (w1 i) (w2 i) (u32 (p1 + OPSIZ * (i - 2))) (u32 (p2 + OPSIZ * (i - 2))) L)
    (wcmp w1 w2 i (Z.to_nat (L - 2))).
Proof.
  intros Hi Hn. unfold common_do1. rewrite !ld_shift. replace (i - 2 + 3) with (i + 1) by lia.
  eapply reads_bind; [apply Hw1; lia|]. eapply reads_bind; [apply Hw2; lia|]. apply wcmp_step; [lia|].
  rewrite !src_shift, u32_small by (unfold is_u32; lia). replace (i - 2 + 4) with (i + 1 + 1) by lia.
  replace (Nat.pred (Z.to_nat (L - 2))) with (Z.to_nat (L - 3)) by lia.
  destruct (Z.eqb_spec (L - 4) 0) as [E|E]; cbn [negb].
  - replace (Z.to_nat (L - 3)) with 1%nat by lia. apply common_do0_ok.
  - apply Hloop; lia.
Qed.

Lemma common_do2_ok i : 0 <= i -> i + (L - 1) <= n ->
  reads V R (common_do2 loop (w1 i) (w2 i) (u32 (p1 + OPSIZ * (i - 1))) (u32 (p2 + OPSIZ * (i - 1))) L)
    (wcmp w1 w2 i (Z.to_nat (L - 1))).
Proof.
  intros Hi Hn. unfold common_do2. rewrite !ld_shift. replace (i - 1 + 2) with (i + 1) by lia.
  eapply reads_bind; [apply Hw1; lia|]. eapply reads_bind; [apply Hw2; lia|]. apply wcmp_step; [lia|].
  replace (Nat.pred (Z.to_nat (L - 1))) with (Z.to_nat (L - 2)) by lia.
  replace (i - 1) with (i + 1 - 2) by lia. apply common_do1_ok; lia.
Qed.

Lemma common_do3_ok i : 0 <= i -> i + L <= n ->
  reads V R (common_do3 loop (w1 i) (w2 i) (u32 (p1 + OPSIZ * i)) (u32 (p2 + OPSIZ * i)) L)
    (wcmp w1 w2 i (Z.to_nat L)).
Proof.
  intros Hi Hn. unfold common_do3. rewrite !ld_shift.
  eapply reads_bind; [apply Hw1; lia|]. eapply reads_bind; [apply Hw2; lia|]. apply wcmp_step; [lia|].
  replace (Nat.pred (Z.to_nat L)) with (Z.to_nat (L - 1)) by lia.
  replace (OPSIZ * i) with (OPSIZ * (i + 1 - 1)) by (f_equal; lia). apply common_do2_ok; lia.
Qed.

Lemma common_body_ok i : 0 <= i -> i + L < n ->
  reads V R (common_body loop (w1 i) (w2 i) (u32 (p1 + OPSIZ * (i + 1))) (u32 (p2 + OPSIZ * (i + 1))) L)
    (wcmp w1 w2 i (Z.to_nat (L + 1))).
Proof.
  intros Hi Hn. unfold common_body. rewrite !ld_shift, Z.add_0_r.
  eapply reads_bind; [apply Hw1; lia|]. eapply reads_bind; [apply Hw2; lia|]. apply wcmp_step; [lia|].
  replace (Nat.pred (Z.to_nat (L + 1))) with (Z.to_nat L) by lia. apply common_do3_ok; lia.
Qed.
End body.

Lemma common_loop_ok fuel i L : 4 <= L < 2 ^ 32 -> L mod 4 = 0 -> L / 4 <= Z.of_nat fuel -> 0 <= i -> i + L < n ->
  reads V R (common_loop fuel (w1 i) (w2 i) (u32 (p1 + OPSIZ * (i + 1))) (u32 (p2 + OPSIZ * (i + 1))) L)
    (wcmp w1 w2 i (Z.to_nat (L + 1))).
Proof.
  revert i L. induction fuel as [|fuel IH]; intros i L HL HL4 Hf Hi Hn.
  { Z.to_euclidean_division_equations. lia. }
  apply common_body_ok; [done| |done|done]. intros j Hlt Hj Hjn.
  replace (L - 3) with (L - 4 + 1) by lia. apply IH; try lia; Z.to_euclidean_division_equations; lia.
Qed.

Lemma memcmp_common_ok fuel : is_u32 p1 -> is_u32 p2 -> 3 <= n < 2 ^ 30 -> n <= Z.of_nat fuel ->
  reads V R (memcmp_common_alignment fuel p1 p2 n) (wcmp w1 w2 0 (Z.to_nat n)).
Proof.
  intros Hp1 Hp2 Hn Hf. unfold memcmp_common_alignment. change (MEMCMP_THRES <=? 3 * OPSIZ) with false. cbn [andb].
  assert (forall L, 4 <= L <= n + 2 -> L mod 4 = 0 -> forall i, 4 < L -> 0 <= i -> i + (L - 4) < n ->
    reads V R (common_loop fuel (w1 i) (w2 i) (u32 (p1 + OPSIZ * (i + 1))) (u32 (p2 + OPSIZ * (i + 1))) (L - 4))
      (wcmp w1 w2 i (Z.to_nat (L - 3)))) as Hloop.
  { intros L HL HL4 i H1 H2 H3. replace (L - 3) with (L - 4 + 1) by lia.
    apply common_loop_ok; try lia; Z.to_euclidean_division_equations; lia. }
  destruct (Z.eqb_spec (n mod 4) 3) as [E|E3]; [|destruct (Z.eqb_spec (n mod 4) 0) as [E|E0];
    [|destruct (Z.eqb_spec (n mod 4) 1) as [E|E1]]];
    (eapply reads_bind; [apply Hw1; lia|]); (eapply reads_bind; [apply Hw2; lia|]).
  - change (p1 - OPSIZ) with (p1 + OPSIZ * (0 - 1)). change (p2 - OPSIZ) with (p2 + OPSIZ * (0 - 1)).
    rewrite (u32_small (n + 1)) by (unfold is_u32; lia). replace (Z.to_nat n) with (Z.to_nat (n + 1 - 1)) by lia.
    apply common_do2_ok; try lia. apply Hloop; Z.to_euclidean_division_equations; lia.
  - rewrite <- (u32_small p1 Hp1) at 1. rewrite <- (u32_small p2 Hp2) at 1.
    rewrite <- (Z.add_0_r p1), <- (Z.add_0_r p2) at 1. change 0 with (OPSIZ * 0) at 3 4.
    apply common_do3_ok; try (Z.to_euclidean_division_equations; lia).
    apply Hloop; Z.to_euclidean_division_equations; lia.
  - rewrite (u32_small (n - 1)) by (unfold is_u32; lia). replace (Z.to_nat n) with (Z.to_nat (n - 1 + 1)) by lia.
    apply (common_loop_ok fuel 0); Z.to_euclidean_division_equations; lia.
  - change (p1 - 2 * OPSIZ) with (p1 + OPSIZ * (0 - 2)). change (p2 - 2 * OPSIZ) with (p2 + OPSIZ * (0 - 2)).
    rewrite (u32_small (n + 2)) by (unfold is_u32; lia). replace (Z.to_nat n) with (Z.to_nat (n + 2 - 2)) by lia.
    apply common_do1_ok; try lia. apply Hloop; Z.to_euclidean_division_equations; lia.
Qed.
End aligned.

Section unaligned.
Context (shl shr q : Z) (A : Z -> Z).
Context (HA : forall i, 0 <= i <= n -> reads V R (ld q i) (A i)).
Context (Hm : forall i, w1 i = MERGE (A i) shl (A (i + 1)) shr).
Context (Hw2 : forall i, 0 <= i < n -> reads V R (ld p2 i) (w2 i)).

Lemma shifted_do0_ok i : reads V R (shifted_do0 shl shr (A i) (A (i + 1)) (w2 i)) (wcmp w1 w2 i 1).
Proof. unfold shifted_do0. cbv zeta. rewrite <- Hm. apply wcmp_step; [lia|]. apply reads_ret. Qed.

Section body.
Context (loop : Z -> Z -> Z -> Z -> Z -> Z -> M S Z) (L : Z) (HL : 4 <= L < 2 ^ 32).
Context (Hloop : forall i, 4 < L -> 0 <= i -> i + (L - 4) < n ->
  reads V R (loop (A i) (A (i + 1)) (w2 i) (u32 (q + OPSIZ * (i + 2))) (u32 (p2 + OPSIZ * (i + 1))) (L - 4))
    (wcmp w1 w2 i (Z.to_nat (L - 3)))).

Lemma shifted_do1_ok i : 0 <= i -> i + (L - 2) <= n ->
  reads V R (shifted_do1 shl shr loop (A i) (A (i + 1)) (w2 i) (u32 (q + OPSIZ * (i - 1))) (u32 (p2 + OPSIZ * (i - 2))) L)
    (wcmp w1 w2 i (Z.to_nat (L - 2))).
Proof.
  intros Hi Hn. unfold shifted_do1. cbv zeta. rewrite !ld_shift, <- Hm.
  replace (i - 1 + 3) with (i + 1 + 1) by lia. replace (i - 2 + 3) with (i + 1) by lia.
  eapply reads_bind; [apply HA; lia|]. eapply reads_bind; [apply Hw2; lia|]. apply wcmp_step; [lia|].
  rewrite !src_shift, u32_small by (unfold is_u32; lia).
  replace (i - 1 + 4) with (i + 1 + 2) by lia. replace (i - 2 + 4) with (i + 1 + 1) by lia.
  replace (Nat.pred (Z.to_nat (L - 2))) with (Z.to_nat (L - 3)) by lia.
  destruct (Z.eqb_spec (L - 4) 0) as [E|E]; cbn [negb].
  - replace (Z.to_nat (L - 3)) with 1%nat by lia. apply shifted_do0_ok.
  - apply Hloop; lia.
Qed.

Lemma shifted_do2_ok i : 0 <= i -> i + (L - 1) <= n ->
  reads V R (shifted_do2 shl shr loop (A i) (A (i + 1)) (w2 i) (u32 (q + OPSIZ * i)) (u32 (p2 + OPSIZ * (i - 1))) L)
    (wcmp w1 w2 i (Z.to_nat (L - 1))).
Proof.
  intros Hi Hn. unfold shifted_do2. cbv zeta. rewrite !ld_shift, <- Hm.
  replace (i + 2) with (i + 1 + 1) by lia. replace (i - 1 + 2) with (i + 1) by lia.
  eapply reads_bind; [apply HA; lia|]. eapply reads_bind; [apply Hw2; lia|]. apply wcmp_step; [lia|].
  replace (Nat.pred (Z.to_nat (L - 1))) with (Z.to_nat (L - 2)) by lia.
  replace (i - 1) with (i + 1 - 2) by lia. replace (OPSIZ * i) with (OPSIZ * (i + 1 - 1)) by (f_equal; lia).
  apply shifted_do1_ok; lia.
Qed.

Lemma shifted_do3_ok i : 0 <= i -> i + L <= n ->
  reads V R (shifted_do3 shl shr loop (A i) (A (i + 1)) (w2 i) (u32 (q + OPSIZ * (i + 1))) (u32 (p2 + OPSIZ * i)) L)
    (wcmp w1 w2 i (Z.to_nat L)).
Proof.
  intros Hi Hn. unfold shifted_do3. cbv zeta. rewrite !ld_shift, <- Hm.
  eapply reads_bind; [apply HA; lia|]. eapply reads_bind; [apply Hw2; lia|]. apply wcmp_step; [lia|].
  replace (Nat.pred (Z.to_nat L)) with (Z.to_nat (L - 1)) by lia.
  replace (u32 (p2 + OPSIZ * i)) with (u32 (p2 + OPSIZ * (i + 1 - 1))) by (do 2 f_equal; lia).
  apply shifted_do2_ok; lia.
Qed.

Lemma shifted_body_ok i : 0 <= i -> i + L < n ->
  reads V R (shifted_body shl shr loop (A i) (A (i + 1)) (w2 i) (u32 (q + OPSIZ * (i + 2))) (u32 (p2 + OPSIZ * (i + 1))) L)
    (wcmp w1 w2 i (Z.to_nat (L + 1))).
Proof.
  intros Hi Hn. unfold shifted_body. cbv zeta. rewrite !ld_shift, !Z.add_0_r, <- Hm.
  replace (i + 2) with (i + 1 + 1) by lia.
  eapply reads_bind; [apply HA; lia|]. eapply reads_bind; [apply Hw2; lia|]. apply wcmp_step; [lia|].
  replace (Nat.pred (Z.to_nat (L + 1))) with (Z.to_nat L) by lia. apply shifted_do3_ok; lia.
Qed.
End body.

Lemma shifted_loop_ok fuel i L : 4 <= L < 2 ^ 32 -> L mod 4 = 0 -> L / 4 <= Z.of_nat fuel -> 0 <= i -> i + L < n ->
  reads V R (shifted_loop shl shr fuel (A i) (A (i + 1)) (w2 i) (u32 (q + OPSIZ * (i + 2))) (u32 (p2 + OPSIZ * (i + 1))) L)
    (wcmp w1 w2 i (Z.to_nat (L + 1))).
Proof.
  revert i L. induction fuel as [|fuel IH]; intros i L HL HL4 Hf Hi Hn.
  { Z.to_euclidean_division_equations. lia. }
  apply shifted_body_ok; [done| |done|done]. intros j Hlt Hj Hjn.
  replace (L - 3) with (L - 4 + 1) by lia. apply IH; try lia; Z.to_euclidean_division_equations; lia.
Qed.

Lemma memcmp_not_common_ok fuel : is_u32 p2 -> 3 <= n < 2 ^ 30 -> n <= Z.of_nat fuel ->
  shl = 8 * (p1 mod OPSIZ) -> shr = 8 * OPSIZ - shl -> q = ALIGN_DOWN p1 OPSIZ -> is_u32 q ->
  reads V R (memcmp_not_common_alignment fuel p1 p2 n) (wcmp w1 w2 0 (Z.to_nat n)).
Proof.
  intros Hp2 Hn Hf Eshl Eshr Eq Hq. unfold memcmp_not_common_alignment. cbv zeta.
  rewrite <- Eshl, <- Eshr, <- Eq. change (MEMCMP_THRES <=? 3 * OPSIZ) with false. cbn [andb].
  assert (forall L, 4 <= L <= n + 2 -> L mod 4 = 0 -> forall i, 4 < L -> 0 <= i -> i + (L - 4) < n ->
    reads V R (shifted_loop shl shr fuel (A i) (A (i + 1)) (w2 i) (u32 (q + OPSIZ * (i + 2))) (u32 (p2 + OPSIZ * (i + 1))) (L - 4))
      (wcmp w1 w2 i (Z.to_nat (L - 3)))) as Hloop.
  { intros L HL HL4 i H1 H2 H3. replace (L - 3) with (L - 4 + 1) by lia.
    apply shifted_loop_ok; try lia; Z.to_euclidean_division_equations; lia. }
  assert (q = u32 (q + OPSIZ * 0)) as Eq0 by (rewrite Z.mul_0_r, Z.add_0_r; symmetry; by apply u32_small).
  assert (p2 = u32 (p2 + OPSIZ * 0)) as Ep2 by (rewrite Z.mul_0_r, Z.add_0_r; symmetry; by apply u32_small).
  destruct (Z.eqb_spec (n mod 4) 3) as [E|E3]; [|destruct (Z.eqb_spec (n mod 4) 0) as [E|E0];
    [|destruct (Z.eqb_spec (n mod 4) 1) as [E|E1]]];
    (eapply reads_bind; [apply HA; lia|]); (eapply reads_bind; [apply HA; lia|]); (eapply reads_bind; [apply Hw2; lia|]).
  - change (p2 - OPSIZ) with (p2 + OPSIZ * (0 - 1)). rewrite Eq0.
    rewrite (u32_small (n + 1)) by (unfold is_u32; lia). replace (Z.to_nat n) with (Z.to_nat (n + 1 - 1)) by lia.
    apply (shifted_do2_ok _ (n + 1)); try lia. apply Hloop; Z.to_euclidean_division_equations; lia.
  - rewrite Ep2. apply (shifted_do3_ok _ n); try (Z.to_euclidean_division_equations; lia).
    apply Hloop; Z.to_euclidean_division_equations; lia.
  - rewrite (u32_small (n - 1)) by (unfold is_u32; lia). replace (Z.to_nat n) with (Z.to_nat (n - 1 + 1)) by lia.
    apply (shifted_loop_ok fuel 0); Z.to_euclidean_division_equations; lia.
  - change (q - OPSIZ) with (q + OPSIZ * (0 - 1)). change (p2 - 2 * OPSIZ) with (p2 + OPSIZ * (0 - 2)).
    rewrite (u32_small (n + 2)) by (unfold is_u32; lia). replace (Z.to_nat n) with (Z.to_nat (n + 2 - 2)) by lia.
    apply (shifted_do1_ok _ (n + 2)); try lia. apply Hloop; Z.to_euclidean_division_equations; lia.
Qed.
End unaligned.
End loops.

(** ** Words and bytes *)

(** The reference: the first byte that differs decides. *)
Fixpoint bcmp (v1 v2 : Z -> Z) (i : Z) (m : nat) : Z :=
  match m with
  | O => 0
  | S m' => if v1 i =? v2 i then bcmp v1 v2 (i + 1) m' else v1 i - v2 i
  end.

Lemma bcmp_app v1 v2 i m k :
  bcmp v1 v2 i (m + k) = if bcmp v1 v2 i m =? 0 then bcmp v1 v2 (i + Z.of_nat m) k else bcmp v1 v2 i m.
Proof.
  revert i. induction m as [|m IH]; intros i; cbn [bcmp Nat.add].
  - simpl. by rewrite Z.add_0_r.
  - destruct (Z.eqb_spec (v1 i) (v2 i)).
    + rewrite IH. by replace (i + 1 + Z.of_nat m) with (i + Z.of_nat (S m)) by lia.
    + destruct (Z.eqb_spec (v1 i - v2 i) 0); [lia|done].
Qed.

Definition word_of (v : Z -> Z) (i : Z) : Z := le32 (v i) (v (i + 1)) (v (i + 2)) (v (i + 3)).

Lemma word_cmp v1 v2 i : (forall k, 0 <= k < 4 -> is_u8 (v1 (i + k)) /\ is_u8 (v2 (i + k))) ->
  (if word_of v1 i =? word_of v2 i then 0 else CMP_LT_OR_GT (word_of v1 i) (word_of v2 i)) = bcmp v1 v2 i 4.
Proof.
  intros Hu. destruct (Hu 0) as [X0 Y0]; [lia|]. destruct (Hu 1) as [X1 Y1]; [lia|].
  destruct (Hu 2) as [X2 Y2]; [lia|]. destruct (Hu 3) as [X3 Y3]; [lia|]. rewrite Z.add_0_r in X0, Y0. clear Hu.
  unfold CMP_LT_OR_GT, memcmp_bytes, word_of. cbn [memcmp_bytes_loop bcmp].
  destruct (byte_of_le32 _ _ _ _ X0 X1 X2 X3) as (-> & E1 & E2 & E3).
  destruct (byte_of_le32 _ _ _ _ Y0 Y1 Y2 Y3) as (-> & F1 & F2 & F3).
  change (0 + 1) with 1. change (1 + 1) with 2. change (2 + 1) with 3. rewrite E1, E2, E3, F1, F2, F3.
  replace (i + 1 + 1) with (i + 2) by lia. replace (i + 2 + 1) with (i + 3) by lia.
  unfold is_u8 in *. rewrite !s32_small by lia.
  destruct (Z.eqb_spec (le32 (v1 i) (v1 (i + 1)) (v1 (i + 2)) (v1 (i + 3)))
    (le32 (v2 i) (v2 (i + 1)) (v2 (i + 2)) (v2 (i + 3)))) as [E|E];
    destruct (Z.eqb_spec (v1 i) (v2 i)), (Z.eqb_spec (v1 (i + 1)) (v2 (i + 1))),
      (Z.eqb_spec (v1 (i + 2)) (v2 (i + 2))), (Z.eqb_spec (v1 (i + 3)) (v2 (i + 3))); unfold le32 in E; lia.
Qed.

Lemma wcmp_bcmp v1 v2 w1 w2 base i m :
  (forall k, base + 4 * i <= k < base + 4 * (i + Z.of_nat m) -> is_u8 (v1 k) /\ is_u8 (v2 k)) ->
  (forall j, w1 j = word_of v1 (base + 4 * j)) -> (forall j, w2 j = word_of v2 (base + 4 * j)) ->
  wcmp w1 w2 i m = bcmp v1 v2 (base + 4 * i) (4 * m).
Proof.
  intros Hu Hw1 Hw2. revert i Hu. induction m as [|m IH]; intros i Hu; [done|].
  replace (4 * S m)%nat with (4 + 4 * m)%nat by lia. rewrite bcmp_app, <- (word_cmp v1 v2 (base + 4 * i)) by (intros k Hk; apply Hu; lia).
  cbn [wcmp]. rewrite Hw1, Hw2. change (Z.of_nat 4) with 4.
  replace (base + 4 * i + 4) with (base + 4 * (i + 1)) by lia.
  pose proof (word_cmp v1 v2 (base + 4 * i) ltac:(intros k Hk; apply Hu; lia)) as Hc.
  destruct (Z.eqb_spec (word_of v1 (base + 4 * i)) (word_of v2 (base + 4 * i))) as [E|E].
  - rewrite Z.eqb_refl. apply IH. intros k Hk. apply Hu. lia.
  - destruct (Z.eqb_spec (CMP_LT_OR_GT (word_of v1 (base + 4 * i)) (word_of v2 (base + 4 * i))) 0) as [E0|E0]; [|done].
    exfalso. rewrite E0 in Hc. symmetry in Hc. apply E. clear -Hc. cbn [bcmp] in Hc.
    replace (base + 4 * i + 1 + 1) with (base + 4 * i + 2) in Hc by lia.
    replace (base + 4 * i + 2 + 1) with (base + 4 * i + 3) in Hc by lia. unfold word_of.
    repeat match type of Hc with context [?a =? ?b] => destruct (Z.eqb_spec a b) end; try lia. congruence.
Qed.

Lemma lor_shiftl x y k : 0 <= k -> 0 <= x < 2 ^ k -> Z.lor x (y * 2 ^ k) = x + y * 2 ^ k.
Proof.
  intros Hk Hx. rewrite <- Z.lxor_lor, <- Z.add_nocarry_lxor; [done|..];
    rewrite <- Z.shiftl_mul_pow2 by lia; apply Z.bits_inj'; intros i Hi;
    rewrite Z.land_spec, Z.bits_0, Z.shiftl_spec by lia;
    (destruct (Z.lt_ge_cases i k);
     [rewrite (Z.testbit_neg_r y) by lia; apply andb_false_r
     |rewrite <- (Z.mod_small x (2 ^ k)) by lia; rewrite Z.mod_pow2_bits_high by lia; done]).
Qed.

(** Two aligned words shifted together are the unaligned word they hold. *)
Lemma MERGE_word v i o : (forall k, is_u8 (v k)) -> 1 <= o <= 3 ->
  MERGE (word_of v i) (8 * o) (word_of v (i + 4)) (32 - 8 * o) = word_of v (i + o).
Proof.
  intros Hv Ho. unfold MERGE, word_of. rewrite Z.shiftr_div_pow2, Z.shiftl_mul_pow2 by lia.
  pose proof (Hv i). pose proof (Hv (i + 1)). pose proof (Hv (i + 2)). pose proof (Hv (i + 3)).
  pose proof (Hv (i + 4)). pose proof (Hv (i + 4 + 1)). pose proof (Hv (i + 4 + 2)). pose proof (Hv (i + 4 + 3)).
  assert (o = 1 \/ o = 2 \/ o = 3) as [->|[->| ->]] by lia.
  - replace (i + 1 + 1) with (i + 2) by lia. replace (i + 1 + 2) with (i + 3) by lia. replace (i + 1 + 3) with (i + 4) by lia.
    replace (u32 _) with (v (i + 4) * 2 ^ 24);
      [rewrite lor_shiftl|]; unfold u32, le32, is_u8 in *; change (32 - 8 * 1) with 24; change (8 * 1) with 8; try lia;
      Z.to_euclidean_division_equations; lia.
  - replace (i + 2 + 1) with (i + 3) by lia. replace (i + 2 + 2) with (i + 4) by lia. replace (i + 2 + 3) with (i + 4 + 1) by lia.
    replace (u32 _) with ((v (i + 4) + 2 ^ 8 * v (i + 4 + 1)) * 2 ^ 16);
      [rewrite lor_shiftl|]; unfold u32, le32, is_u8 in *; change (32 - 8 * 2) with 16; change (8 * 2) with 16; try lia;
      Z.to_euclidean_division_equations; lia.
  - replace (i + 3 + 1) with (i + 4) by lia. replace (i + 3 + 2) with (i + 4 + 1) by lia. replace (i + 3 + 3) with (i + 4 + 2) by lia.
    replace (u32 _) with ((v (i + 4) + 2 ^ 8 * v (i + 4 + 1) + 2 ^ 16 * v (i + 4 + 2)) * 2 ^ 8);
      [rewrite lor_shiftl|]; unfold u32, le32, is_u8 in *; change (32 - 8 * 3) with 8; change (8 * 3) with 24; try lia;
      Z.to_euclidean_division_equations; lia.
Qed.

(** ** Correctness *)

Section correct.
Context {S : Type} `{MemLaws S} (V : Z -> option Z) (R : rest_type (S:=S)) (HV : bytes_ok V).

(** The byte at [a], where there is one. *)
Definition byte_at (a : Z) : Z := default 0 (V a).

Lemma byte_at_u8 a : is_u8 (byte_at a).
Proof. unfold byte_at. destruct (V a) eqn:E; simpl; [by eapply HV|unfold is_u8; lia]. Qed.

Lemma byte_at_some a : is_Some (V a) -> V a = Some (byte_at a).
Proof. unfold byte_at. by intros [b ->]. Qed.

Lemma ld_word p i : is_u32 (p + 4 * i) -> (forall k, 0 <= k < 4 -> is_Some (V (p + 4 * i + k))) ->
  reads V R (ld p i) (word_of (fun k => byte_at (p + k)) (4 * i)).
Proof.
  intros Hu Hk. unfold ld, word_of. change OPSIZ with 4. rewrite u32_small by done. rewrite !Z.add_assoc.
  apply reads_load32; try (apply byte_at_some, Hk; lia). rewrite <- (Z.add_0_r (p + 4 * i)). apply byte_at_some, Hk. lia.
Qed.

Context (a1 a2 : Z).
#[local] Abbreviation v1 := (fun k => byte_at (a1 + k)).
#[local] Abbreviation v2 := (fun k => byte_at (a2 + k)).

Lemma memcmp_byte_loop_ok n i :
  (forall k, i <= k < i + Z.of_nat n -> is_Some (V (a1 + k)) /\ is_Some (V (a2 + k))) ->
  reads V R (memcmp_byte_loop n (u32 (a1 + i)) (u32 (a2 + i)))
    (if bcmp v1 v2 i n =? 0 then inr tt else inl (bcmp v1 v2 i n)).
Proof.
  revert i. induction n as [|n IH]; intros i Hk; cbn [memcmp_byte_loop bcmp]; [apply reads_ret|].
  destruct (Hk i) as [H1 H2]; [lia|]. apply byte_at_some in H1, H2.
  destruct (HV _ _ H1) as [U1 _], (HV _ _ H2) as [U2 _].
  rewrite (u32_small (a1 + i)), (u32_small (a2 + i)) by done.
  eapply reads_bind; [by apply reads_load8|]. eapply reads_bind; [by apply reads_load8|].
  pose proof (byte_at_u8 (a1 + i)) as B1. pose proof (byte_at_u8 (a2 + i)) as B2. unfold is_u8 in B1, B2.
  destruct (Z.eqb_spec (byte_at (a1 + i)) (byte_at (a2 + i))) as [E|E].
  - rewrite E, Z.sub_diag. cbn [negb]. change (u32 0 =? 0) with true. cbn [negb].
    replace (a1 + i + 1) with (a1 + (i + 1)) by lia. replace (a2 + i + 1) with (a2 + (i + 1)) by lia.
    apply IH. intros k Hk'. apply Hk. lia.
  - assert (s32 (u32 (byte_at (a1 + i) - byte_at (a2 + i))) = byte_at (a1 + i) - byte_at (a2 + i)) as Es.
    { unfold s32. rewrite u32_idem. fold (s32 (byte_at (a1 + i) - byte_at (a2 + i))). apply s32_small. lia. }
    destruct (Z.eqb_spec (u32 (byte_at (a1 + i) - byte_at (a2 + i))) 0) as [E0|E0].
    { rewrite E0 in Es. change (s32 0) with 0 in Es. lia. }
    cbn [negb]. rewrite Es. destruct (Z.eqb_spec (byte_at (a1 + i) - byte_at (a2 + i)) 0); [lia|]. apply reads_ret.
Qed.

(** The words that hold the first block, and the second block. *)
Definition readable1 (len : Z) : Prop := forall x, 4 * (a1 / 4) <= x < 4 * ((a1 + len - 1) / 4) + 4 -> is_Some (V x).
Definition readable2 (len : Z) : Prop := forall x, a2 <= x < a2 + len -> is_Some (V x).

Lemma memcmp_words_ok fuel pre n : 0 <= pre -> 3 <= n < 2 ^ 30 -> n <= Z.of_nat fuel ->
  is_u32 (a1 + pre) -> is_u32 (a2 + pre) -> (a2 + pre) mod 4 = 0 -> readable1 (pre + 4 * n) -> readable2 (pre + 4 * n) ->
  reads V R (if (a1 + pre) mod OPSIZ =? 0 then memcmp_common_alignment fuel (a1 + pre) (a2 + pre) n
             else memcmp_not_common_alignment fuel (a1 + pre) (a2 + pre) n)
    (bcmp v1 v2 pre (4 * Z.to_nat n)).
Proof.
  intros Hpre Hn Hf U1 U2 Ha2 R1 R2. change OPSIZ with 4. unfold is_u32 in U1, U2.
  assert (forall x, is_Some (V x) -> is_u32 x) as Hu32 by (intros x [b Hb]; by destruct (HV x b Hb)).
  assert (forall i, 0 <= i < n ->
    reads V R (ld (a2 + pre) i) (word_of v2 (pre + 4 * i))) as Hw2.
  { intros i Hi. pose proof (ld_word (a2 + pre) i) as Hl. unfold word_of in *.
    rewrite <- !Z.add_assoc in Hl. rewrite <- !Z.add_assoc.
    apply Hl; [apply Hu32, R2; lia|intros k Hk; apply R2; lia]. }
  assert (forall m, Z.of_nat m <= n -> wcmp (fun i => word_of v1 (pre + 4 * i)) (fun i => word_of v2 (pre + 4 * i)) 0 m
    = bcmp v1 v2 pre (4 * m)) as Hcmp.
  { intros m Hm. rewrite (wcmp_bcmp v1 v2 _ _ pre 0); [by rewrite Z.mul_0_r, Z.add_0_r| |done|done].
    intros k Hk. split; apply byte_at_u8. }
  rewrite <- Hcmp by lia. destruct (Z.eqb_spec ((a1 + pre) mod 4) 0) as [E|E].
  - apply (memcmp_common_ok V R (fun i => word_of v1 (pre + 4 * i)) (fun i => word_of v2 (pre + 4 * i))); try done.
    intros i Hi. pose proof (ld_word (a1 + pre) i) as Hl. unfold word_of in *.
    rewrite <- !Z.add_assoc in Hl. rewrite <- !Z.add_assoc.
    apply Hl; [apply Hu32, R1; Z.to_euclidean_division_equations; lia|].
    intros k Hk; apply R1; Z.to_euclidean_division_equations; lia.
  - set (o := (a1 + pre) mod 4) in *. set (q := 4 * ((a1 + pre) / 4)).
    assert (1 <= o <= 3 /\ q + o = a1 + pre) as [Ho Eq] by (unfold o, q; Z.to_euclidean_division_equations; lia).
    assert (ALIGN_DOWN (a1 + pre) 4 = q) as Ed.
    { pose proof (ALIGN_DOWN_pow2 (a1 + pre) 2 ltac:(unfold is_u32; lia) ltac:(lia)) as Ed.
      by change (2 ^ 2) with 4 in Ed. }
    apply (memcmp_not_common_ok V R (fun i => word_of v1 (pre + 4 * i)) (fun i => word_of v2 (pre + 4 * i)) _ _ _
      (8 * o) (32 - 8 * o) q (fun i => word_of (fun k => byte_at (q + k)) (4 * i))); try done.
    + intros i Hi. apply ld_word; [apply Hu32, R1|intros k Hk; apply R1];
        unfold o, q in *; Z.to_euclidean_division_equations; lia.
    + intros i. replace (4 * (i + 1)) with (4 * i + 4) by lia.
      rewrite MERGE_word by (done || (intros k; apply byte_at_u8)).
      unfold word_of. f_equal; f_equal; lia.
    + unfold is_u32, q. Z.to_euclidean_division_equations; lia.
Qed.

Lemma memcmp_tail_ok i len : 0 <= len -> (forall k, i <= k < i + len -> is_Some (V (a1 + k)) /\ is_Some (V (a2 + k))) ->
  reads V R (memcmp_tail (u32 (a1 + i)) (u32 (a2 + i)) len) (bcmp v1 v2 i (Z.to_nat len)).
Proof.
  intros Hlen Hk. eapply reads_bind; [apply memcmp_byte_loop_ok; intros k Hk'; apply Hk; lia|].
  destruct (Z.eqb_spec (bcmp v1 v2 i (Z.to_nat len)) 0) as [->|]; apply reads_ret.
Qed.

Lemma memcmp_ok fuel len : is_u32 a1 -> is_u32 a2 -> is_u32 len -> readable1 len -> readable2 len ->
  len / 4 <= Z.of_nat fuel -> reads V R (memcmp fuel a1 a2 len) (bcmp v1 v2 0 (Z.to_nat len)).
Proof.
  intros U1 U2 Ulen R1 R2 Hf. unfold is_u32 in Ulen.
  assert (forall k, 0 <= k < len -> is_Some (V (a1 + k)) /\ is_Some (V (a2 + k))) as Hk.
  { intros k Hk. split; [apply R1; Z.to_euclidean_division_equations; lia|apply R2; lia]. }
  assert (forall x, is_Some (V x) -> is_u32 x) as Hu32 by (intros x [b Hb]; by destruct (HV x b Hb)).
  assert (a1 = u32 (a1 + 0)) as E1 by (rewrite Z.add_0_r, u32_small; done).
  assert (a2 = u32 (a2 + 0)) as E2 by (rewrite Z.add_0_r, u32_small; done).
  unfold memcmp. change OPSIZ with 4. change MEMCMP_THRES with 16.
  destruct (Z.leb_spec 16 len) as [Hbig|Hsmall]; cycle 1.
  { rewrite E1, E2 at 1. apply memcmp_tail_ok; [lia|]. intros k Hk'. apply Hk. lia. }
  cbv zeta. set (pre := (- a2) mod 4).
  assert (0 <= pre < 4) as Hpre by (apply Z.mod_pos_bound; lia).
  assert ((a2 + pre) mod 4 = 0) as Hal by (unfold pre; Z.to_euclidean_division_equations; lia).
  clearbody pre. set (n := (len - pre) / 4). set (r := (len - pre) mod 4).
  assert (len = pre + 4 * n + r /\ 0 <= r < 4 /\ 3 <= n < 2 ^ 30) as (Elen & Hr & Hn)
    by (unfold n, r; Z.to_euclidean_division_equations; lia).
  assert (Z.land (len - pre) (u32 (Z.opp 4)) = 4 * n) as El.
  { pose proof (ALIGN_DOWN_pow2 (len - pre) 2 ltac:(unfold is_u32; lia) ltac:(lia)) as Ed.
    by change (2 ^ 2) with 4 in Ed. }
  rewrite El. clearbody n r. clear El.
  replace (Z.to_nat len) with (Z.to_nat pre + (4 * Z.to_nat n + Z.to_nat r))%nat by lia.
  rewrite !bcmp_app, Z2Nat.id by lia. rewrite Z.add_0_l.
  eapply reads_bind; [rewrite E1, E2 at 1; apply memcmp_byte_loop_ok; intros k Hk'; apply Hk; lia|].
  destruct (bcmp v1 v2 0 (Z.to_nat pre) =? 0) eqn:Eb; [|apply reads_ret].
  destruct (Hk pre) as [P1%Hu32 P2%Hu32]; [lia|].
  rewrite (u32_small (a1 + pre)), (u32_small (a2 + pre)) by done.
  eapply reads_bind.
  { apply (memcmp_words_ok fuel pre n); try (done || lia).
    - Z.to_euclidean_division_equations; lia.
    - intros x Hx. apply R1. Z.to_euclidean_division_equations; lia.
    - intros x Hx. apply R2. lia. }
  destruct (bcmp v1 v2 pre (4 * Z.to_nat n) =? 0) eqn:Ew; cbn [negb]; [|apply reads_ret].
  replace (Z.of_nat (4 * Z.to_nat n)) with (4 * n) by lia. rewrite <- !Z.add_assoc.
  apply memcmp_tail_ok; [lia|]. intros k Hk'. apply Hk. lia.
Qed.
End correct.

(** The reference comparison on lists of bytes. *)
Fixpoint compare_bytes (l1 l2 : list Z) : Z :=
  match l1, l2 with
  | b1 :: l1', b2 :: l2' => if b1 =? b2 then compare_bytes l1' l2' else b1 - b2
  | _, _ => 0
  end.

Definition bytes_at (V : Z -> option Z) (a : Z) (l : list Z) : Prop :=
  forall i b, l !! i = Some b -> V (a + Z.of_nat i) = Some b.

Lemma compare_bytes_bcmp V a1 a2 l1 l2 i : bytes_at V (a1 + i) l1 -> bytes_at V (a2 + i) l2 -> length l1 = length l2 ->
  compare_bytes l1 l2 = bcmp (fun k => byte_at V (a1 + k)) (fun k => byte_at V (a2 + k)) i (length l1).
Proof.
  revert l2 i. induction l1 as [|b1 l1 IH]; intros [|b2 l2] i B1 B2 Hl; try done. cbn [compare_bytes length bcmp].
  assert (byte_at V (a1 + i) = b1) as ->.
  { unfold byte_at. pose proof (B1 0%nat b1 eq_refl) as Hb. rewrite Z.add_0_r in Hb. by rewrite Hb. }
  assert (byte_at V (a2 + i) = b2) as ->.
  { unfold byte_at. pose proof (B2 0%nat b2 eq_refl) as Hb. rewrite Z.add_0_r in Hb. by rewrite Hb. }
  destruct (b1 =? b2); [|done]. apply IH; [..|simpl in Hl; lia].
  - intros k b Hb. rewrite <- (B1 (S k) b Hb). f_equal. lia.
  - intros k b Hb. rewrite <- (B2 (S k) b Hb). f_equal. lia.
Qed.

(** C17: [memcmp] returns the difference of the first bytes that differ, and
    zero when the blocks are equal, for every length and every pair of
    alignments, and changes nothing. It reads no word that holds no byte of a
    block. *)
Theorem memcmp_correct {S} `{MemLaws S} (s : S) (a1 a2 : Z) (l1 l2 : list Z) (fuel : nat) :
  mem_ok s -> is_u32 a1 -> is_u32 a2 -> length l1 = length l2 -> is_u32 (Z.of_nat (length l1)) ->
  bytes_at (view s) a1 l1 -> bytes_at (view s) a2 l2 ->
  (forall x, 4 * (a1 / 4) <= x < 4 * ((a1 + Z.of_nat (length l1) - 1) / 4) + 4 -> is_Some (view s x)) ->
  (length l1 <= fuel)%nat ->
  exists s', memcmp fuel a1 a2 (Z.of_nat (length l1)) s = Ok (compare_bytes l1 l2, s') /\ leaves s s' (view s).
Proof.
  intros Hok U1 U2 Hl Hlen B1 B2 R1 Hf. apply reads_run; [done|].
  rewrite (compare_bytes_bcmp (view s) a1 a2 l1 l2 0) by (by rewrite ?Z.add_0_r || done).
  rewrite <- (Nat2Z.id (length l1)) at 2. apply memcmp_ok; try done.
  - by apply view_bytes.
  - intros x Hx. destruct (lookup_lt_is_Some_2 l2 (Z.to_nat (x - a2))) as [b Hb]; [lia|].
    apply B2 in Hb. replace (a2 + Z.of_nat (Z.to_nat (x - a2))) with x in Hb by lia. by rewrite Hb.
  - Z.to_euclidean_division_equations. lia.
Qed.

(** Two blocks of eighteen bytes, one at an odd address, that differ in the
    fifteenth. *)
Definition memcmp_example1 : list Z := [1; 2; 3; 4; 5; 6; 7; 8; 9; 10; 11; 12; 13; 14; 200; 16; 17; 18].
Definition memcmp_example2 : list Z := [1; 2; 3; 4; 5; 6; 7; 8; 9; 10; 11; 12; 13; 14; 15; 16; 17; 18].
Definition memcmp_example : flat :=
  list_to_map (imap (fun i b => (1000 + Z.of_nat i, b)) (0 :: memcmp_example1 ++ [0]) ++
               imap (fun i b => (2000 + Z.of_nat i, b)) memcmp_example2).

Lemma memcmp_example_ok : flat_ok memcmp_example.
Proof. unfold flat_ok, is_u32, is_u8. apply (bool_decide_unpack _). vm_compute. exact I. Qed.

Lemma flat_bytes_at (m : flat) a l :
  bool_decide (Forall (fun ib : nat * Z => m !! (a + Z.of_nat ib.1) = Some ib.2) (imap pair l)) = true ->
  bytes_at (view m) a l.
Proof.
  intros Hb%bool_decide_eq_true i b Hi. rewrite Forall_lookup in Hb.
  apply (Hb i (i, b)). rewrite list_lookup_imap, Hi. done.
Qed.

Lemma memcmp_correct_witness : exists s', memcmp 18 1001 2000 18 memcmp_example = Ok (185, s').
Proof.
  destruct (memcmp_correct memcmp_example 1001 2000 memcmp_example1 memcmp_example2 18) as (s' & E & _).
  - exact memcmp_example_ok.
  - zdec.
  - zdec.
  - reflexivity.
  - zdec.
  - apply flat_bytes_at. vm_compute. reflexivity.
  - apply flat_bytes_at. vm_compute. reflexivity.
  - intros x Hx. apply (flat_owns memcmp_example 1000 20); [vm_compute; reflexivity|].
    change (4 * (1001 / 4)) with 1000 in Hx.
    change (4 * ((1001 + Z.of_nat (length memcmp_example1) - 1) / 4) + 4) with 1020 in Hx. lia.
  - simpl. lia.
  - exists s'. exact E.
Defined.
