(* ===== verification/Strlib.v ===== *)
(** * The rest of the kernel's string library

    Comparison, copying, searching and tokenising ([utils/string/]) and the
    kernel's own helpers of [utils/string.c], composed from the scans of
    [StrScan] and from [memcpy] and [memset] as the code composes them, over
    the memory class of [Mem]. [char] is signed on this target; [s8] is the
    conversion. Loops over strings take fuel, one unit per character. *)
From Stdlib Require Import ZArith Lia Bool.
From stdpp Require Import base list gmap option.
From S2P Require Import Prelude Mem StrScan Memcmp.

Open Scope Z_scope.

Definition s8 (b : Z) : Z := if b <? 128 then b else b - 256.

(** ** [include/ctype.h] *)
Definition isspace (c : Z) : bool := (c =? 32) || ((9 <=? c) && (c <=? 13)).
Definition isupper (c : Z) : bool := (65 <=? c) && (c <=? 90).
Definition islower (c : Z) : bool := (97 <=? c) && (c <=? 122).
Definition isdigit (c : Z) : bool := (48 <=? c) && (c <=? 57).
Definition toupper (c : Z) : Z := c - 0x20 * (if islower c then 1 else 0).
Definition tolower (c : Z) : Z := c + 0x20 * (if isupper c then 1 else 0).

Section strlib.
Context {S : Type} `{Mem S} (fuel : nat).

(** ** Comparison *)

Fixpoint strcmp_loop (n : nat) (s1 s2 : Z) : M S Z :=
  match n with
  | O => mfail Fuel
  | Datatypes.S n' =>
      c1 ← load8 s1; c2 ← load8 s2;
      if c1 =? 0 then mret (c1 - c2)
      else if c1 =? c2 then strcmp_loop n' (u32 (s1 + 1)) (u32 (s2 + 1)) else mret (c1 - c2)
  end.
Definition strcmp (p1 p2 : Z) : M S Z := strcmp_loop fuel p1 p2.

(** One step of [strncmp]: both pointers advanced, or the result. *)
Definition strncmp_step (s1 s2 : Z) : M S (Z + Z * Z * (Z * Z)) :=
  c1 ← load8 s1; c2 ← load8 s2;
  if (c1 =? 0) || negb (c1 =? c2) then mret (inl (c1 - c2))
  else mret (inr (u32 (s1 + 1), u32 (s2 + 1), (c1, c2))).

(** The loop unrolled four times, [n4] rounds. *)
Fixpoint strncmp_loop4 (n4 : nat) (s1 s2 : Z) (c : Z * Z) : M S (Z + Z * Z * (Z * Z)) :=
  match n4 with
  | O => mret (inr (s1, s2, c))
  | Datatypes.S n4' =>
      r ← strncmp_step s1 s2;
      match r with inl d => mret (inl d) | inr (s1, s2, _) =>
      r ← strncmp_step s1 s2;
      match r with inl d => mret (inl d) | inr (s1, s2, _) =>
      r ← strncmp_step s1 s2;
      match r with inl d => mret (inl d) | inr (s1, s2, _) =>
      r ← strncmp_step s1 s2;
      match r with inl d => mret (inl d) | inr (s1, s2, c) => strncmp_loop4 n4' s1 s2 c
      end end end end
  end.

Fixpoint strncmp_loop1 (n : nat) (s1 s2 : Z) (c : Z * Z) : M S (Z + Z * Z * (Z * Z)) :=
  match n with
  | O => mret (inr (s1, s2, c))
  | Datatypes.S n' =>
      r ← strncmp_step s1 s2;
      match r with inl d => mret (inl d) | inr (s1, s2, c) => strncmp_loop1 n' s1 s2 c end
  end.

Definition strncmp (s1 s2 n : Z) : M S Z :=
  r ← (if 4 <=? n then strncmp_loop4 (Z.to_nat (Z.shiftr n 2)) s1 s2 (0, 0) else mret (inr (s1, s2, (0, 0))));
  match r with
  | inl d => mret d
  | inr (s1, s2, c) =>
      let n := if 4 <=? n then Z.land n 3 else n in
      r ← strncmp_loop1 (Z.to_nat n) s1 s2 c;
      match r with inl d => mret d | inr (_, _, (c1, c2)) => mret (c1 - c2) end
  end.

Fixpoint strcasecmp_loop (n : nat) (p1 p2 : Z) : M S Z :=
  match n with
  | O => mfail Fuel
  | Datatypes.S n' =>
      c1 ← load8 p1; c2 ← load8 p2;
      let result := tolower c1 - tolower c2 in
      if result =? 0 then
        c1 ← load8 p1;
        if c1 =? 0 then mret result else strcasecmp_loop n' (u32 (p1 + 1)) (u32 (p2 + 1))
      else mret result
  end.
Definition strcasecmp (s1 s2 : Z) : M S Z := if s1 =? s2 then mret 0 else strcasecmp_loop fuel s1 s2.

(** [n] is decremented first, so one character is always compared. *)
Fixpoint strncasecmp_loop (k : nat) (s1 s2 n : Z) : M S Z :=
  match k with
  | O => mfail Fuel
  | Datatypes.S k' =>
      b1 ← load8 s1; b2 ← load8 s2;
      let c1 := tolower (s8 b1) in
      let c2 := tolower (s8 b2) in
      let n := s32 (n - 1) in
      if (0 <? n) && (c1 =? c2) && negb (c1 =? 0) then strncasecmp_loop k' (u32 (s1 + 1)) (u32 (s2 + 1)) n
      else mret (c1 - c2)
  end.
Definition strncasecmp (s1 s2 n : Z) : M S Z := strncasecmp_loop fuel s1 s2 n.

(** ** Copying *)

Definition strcpy (dest src : Z) : M S Z :=
  n ← strlen fuel src; memcpy dest src (u32 (n + 1));; mret dest.

Definition strcat (dest src : Z) : M S Z :=
  n ← strlen fuel dest; strcpy (u32 (dest + n)) src;; mret dest.

Definition strncpy (s1 s2 n : Z) : M S Z :=
  size ← strnlen fuel s2 n;
  (if negb (size =? n) then memset (u32 (s1 + size)) 0 (u32 (n - size)) else mret tt);;
  memcpy s1 s2 size;; mret s1.

Definition strncat (s1 s2 n : Z) : M S Z :=
  let s := s1 in
  len ← strlen fuel s1;
  let s1 := u32 (s1 + len) in
  ss ← strnlen fuel s2 n;
  store8 (u32 (s1 + ss)) 0;;
  memcpy s1 s2 ss;; mret s.

(** ** Searching and tokenising *)

Definition strpbrk (s accept : Z) : M S Z :=
  n ← strcspn fuel s accept;
  let s := u32 (s + n) in
  c ← load8 s; mret (if negb (c =? 0) then s else 0).

Fixpoint strrchr_loop (n : nat) (s c found : Z) : M S Z :=
  match n with
  | O => mfail Fuel
  | Datatypes.S n' =>
      p ← strchr fuel s c;
      if negb (p =? 0) then strrchr_loop n' (u32 (p + 1)) c p else mret found
  end.
Definition strrchr (s c : Z) : M S Z :=
  let c := u8 c in
  if c =? 0 then strchr fuel s 0 else strrchr_loop fuel s c 0.

(** The token and the new [*stringp]. *)
Definition strsep (stringp delim : Z) : M S (Z * Z) :=
  let begin := stringp in
  if begin =? 0 then mret (0, stringp)
  else
    n ← strcspn fuel begin delim;
    let end_ := u32 (begin + n) in
    c ← load8 end_;
    if negb (c =? 0) then store8 end_ 0;; mret (begin, u32 (end_ + 1)) else mret (begin, 0).

(** ** [utils/string.c] *)

Definition bchars : list Z := [48; 49; 50; 51; 52; 53; 54; 55; 56; 57; 65; 66; 67; 68; 69; 70].

(** The digits, lowest first, in [tbuf], which has 32 bytes; [%] and [/] on
    [long long] truncate. *)
Fixpoint itoa_digits (n : nat) (i base : Z) (tbuf : list Z) : M S (list Z) :=
  if i =? 0 then mret tbuf
  else match n with
       | O => mfail Segv
       | Datatypes.S n' =>
           if base =? 0 then mfail Segv
           else match (if Z.rem i base <? 0 then None else bchars !! Z.to_nat (Z.rem i base)) with
                | None => mfail Segv
                | Some d => itoa_digits n' (Z.quot i base) base (tbuf ++ [d])
                end
       end.

Fixpoint itoa_copy (ds : list Z) (buf : Z) : M S unit :=
  match ds with
  | [] => store8 buf 0
  | d :: ds' => store8 buf d;; itoa_copy ds' (u32 (buf + 1))
  end.

Definition itoa (i base buf : Z) : M S unit :=
  if (i =? 0) || (16 <? base) then store8 buf 48;; store8 (u32 (buf + 1)) 0
  else tbuf ← itoa_digits 32 i base []; itoa_copy (rev tbuf) buf.

Definition itoa_s (i base buf : Z) : M S unit :=
  if 16 <? base then mret tt
  else if i <? 0 then store8 buf 45;; itoa (- i) base (u32 (buf + 1))
  else itoa i base buf.

Fixpoint atoi_loop (n : nat) (s res : Z) : M S Z :=
  match n with
  | O => mfail Fuel
  | Datatypes.S n' =>
      c ← load8 s;
      if negb (c =? 0) && (48 <=? s8 c) && (s8 c <=? 57) then atoi_loop n' (u32 (s + 1)) (s32 (10 * res + (s8 c - 48)))
      else mret res
  end.

Definition atoi (s : Z) : M S Z :=
  c ← load8 s;
  if c =? 45 then res ← atoi_loop fuel (u32 (s + 1)) 0; mret (s32 (res * -1))
  else if c =? 43 then res ← atoi_loop fuel (u32 (s + 1)) 0; mret res
  else res ← atoi_loop fuel s 0; mret res.

Fixpoint skip_spaces_loop (n : nat) (str : Z) : M S Z :=
  match n with
  | O => mfail Fuel
  | Datatypes.S n' => c ← load8 str; if isspace (s8 c) then skip_spaces_loop n' (u32 (str + 1)) else mret str
  end.
Definition skip_spaces (str : Z) : M S Z := skip_spaces_loop fuel str.

Fixpoint strim_loop (n : nat) (s end_ : Z) : M S Z :=
  match n with
  | O => mfail Fuel
  | Datatypes.S n' =>
      if s <=? end_ then c ← load8 end_; if isspace (s8 c) then strim_loop n' s (u32 (end_ - 1)) else mret end_
      else mret end_
  end.
Definition strim (s : Z) : M S Z :=
  size ← strlen fuel s;
  if size =? 0 then mret s
  else
    end_ ← strim_loop fuel s (u32 (s + size - 1));
    store8 (u32 (end_ + 1)) 0;;
    skip_spaces s.

Fixpoint strrstr_loop (n : nat) (string find findlen cp : Z) : M S Z :=
  match n with
  | O => mfail Fuel
  | Datatypes.S n' =>
      if string <=? cp then
        d ← strncmp cp find findlen;
        if d =? 0 then mret cp else strrstr_loop n' string find findlen (u32 (cp - 1))
      else mret 0
  end.
Definition strrstr (string find : Z) : M S Z :=
  findlen ← strlen fuel find;
  stringlen ← strlen fuel string;
  if stringlen <? findlen then mret 0
  else strrstr_loop fuel string find findlen (u32 (string + stringlen - findlen)).

Fixpoint strreplace_loop (n : nat) (s old new : Z) : M S Z :=
  match n with
  | O => mfail Fuel
  | Datatypes.S n' =>
      c ← load8 s;
      if c =? 0 then mret s
      else (if c =? u8 old then store8 s new else mret tt);; strreplace_loop n' (u32 (s + 1)) old new
  end.
Definition strreplace (s old new : Z) : M S Z := strreplace_loop fuel s old new.

Definition striof (s1 s2 : Z) : M S Z :=
  s ← strpbrk s1 s2; mret (if negb (s =? 0) then s32 (s - s1) else -1).

Definition strliof (s1 s2 : Z) : M S Z :=
  s ← strrstr s1 s2; mret (if negb (s =? 0) then s32 (s - s1) else -1).

Fixpoint count_loop (n : nat) (a : Z) : M S Z :=
  match n with
  | O => mfail Fuel
  | Datatypes.S n' => w ← load32 a; if w =? 0 then mret a else count_loop n' (u32 (a + 4))
  end.
Definition count_array_of_pointers (arr : Z) : M S Z :=
  if arr =? 0 then mret 0 else a ← count_loop fuel arr; mret (s32 (a - arr) / 4).
End strlib.

(** ** Comparison against the list reference *)

Section laws.
Context {S : Type} `{MemLaws S} (V : Z -> option Z) (R : rest_type (S:=S)) (HV : bytes_ok V) (fuel : nat).

Lemma cstr_hd a l : cstr V a l -> V a = Some (hd 0 (l ++ [0])).
Proof. destruct l as [|b l]; [apply cstr_nil|]. intros (Hb & _)%cstr_tail. done. Qed.

Lemma cstr_next a b l : cstr V a (b :: l) -> u32 (a + 1) = a + 1 /\ cstr V (a + 1) l.
Proof.
  intros Hc. split; [|by apply cstr_tail in Hc as (_ & _ & ?)].
  apply u32_small. apply (cstr_u32 _ HV a (b :: l) 1 Hc). simpl. lia.
Qed.

Lemma cstr_fun a l1 l2 : cstr V a l1 -> cstr V a l2 -> l1 = l2.
Proof.
  revert a l2. induction l1 as [|b l1 IH]; intros a [|c l2] H1 H2; [done| | |].
  - apply cstr_nil in H1. destruct (cstr_tail _ _ _ _ H2) as (? & ? & _). congruence.
  - apply cstr_nil in H2. destruct (cstr_tail _ _ _ _ H1) as (? & ? & _). congruence.
  - destruct (cstr_tail _ _ _ _ H1) as (? & ? & ?), (cstr_tail _ _ _ _ H2) as (? & ? & ?).
    f_equal; [congruence|]. by apply (IH (a + 1)).
Qed.

Lemma strcmp_loop_ok n a1 a2 l1 l2 : cstr V a1 l1 -> cstr V a2 l2 -> (length l1 < n)%nat ->
  reads V R (strcmp_loop n a1 a2) (compare_bytes (l1 ++ [0]) (l2 ++ [0])).
Proof.
  revert a1 a2 l1 l2. induction n as [|n IH]; intros a1 a2 l1 l2 H1 H2 Hn; [lia|]. cbn [strcmp_loop].
  eapply reads_bind; [by apply reads_load8, cstr_hd|]. eapply reads_bind; [by apply reads_load8, cstr_hd|].
  destruct l1 as [|b1 l1]; cbn [hd app].
  - cbn [Z.eqb]. destruct (l2 ++ [0]) as [|c2 l] eqn:E; [by destruct l2|]. cbn [hd compare_bytes].
    destruct (Z.eqb_spec 0 c2) as [<-|]; apply reads_ret.
  - destruct (cstr_tail _ _ _ _ H1) as (_ & Hb1 & _). apply Z.eqb_neq in Hb1 as Eb1. rewrite Eb1.
    destruct (cstr_next _ _ _ H1) as [-> H1'].
    destruct l2 as [|b2 l2]; cbn [hd app compare_bytes].
    + rewrite Eb1. apply reads_ret.
    + destruct (cstr_next _ _ _ H2) as [-> H2']. destruct (b1 =? b2); [|apply reads_ret].
      apply IH; [done|done|simpl in Hn; lia].
Qed.

Lemma strcasecmp_loop_ok n a1 a2 l1 l2 : cstr V a1 l1 -> cstr V a2 l2 -> (length l1 < n)%nat ->
  reads V R (strcasecmp_loop n a1 a2) (compare_bytes (tolower <$> l1 ++ [0]) (tolower <$> l2 ++ [0])).
Proof.
  revert a1 a2 l1 l2. induction n as [|n IH]; intros a1 a2 l1 l2 H1 H2 Hn; [lia|]. cbn [strcasecmp_loop].
  assert (forall b, is_u8 b -> b <> 0 -> tolower b <> 0) as Hlow.
  { intros b Hb Hb0. unfold tolower, is_u8 in *. destruct (isupper b); lia. }
  eapply reads_bind; [by apply reads_load8, cstr_hd|]. eapply reads_bind; [by apply reads_load8, cstr_hd|]. cbv zeta.
  destruct l1 as [|b1 l1], l2 as [|b2 l2]; cbn [hd app fmap list_fmap compare_bytes].
  - change (tolower 0 =? tolower 0) with true. change (tolower 0 - tolower 0) with 0. cbn [Z.eqb].
    eapply reads_bind; [by apply reads_load8, cstr_nil|]. apply reads_ret.
  - destruct (cstr_tail _ _ _ _ H2) as (Hb2 & Hn2 & _). destruct (HV _ _ Hb2) as [_ U2].
    pose proof (Hlow b2 U2 Hn2). change (tolower 0) with 0.
    destruct (Z.eqb_spec (0 - tolower b2) 0); [lia|]. destruct (Z.eqb_spec 0 (tolower b2)); [lia|]. apply reads_ret.
  - destruct (cstr_tail _ _ _ _ H1) as (Hb1 & Hn1 & _). destruct (HV _ _ Hb1) as [_ U1].
    pose proof (Hlow b1 U1 Hn1). change (tolower 0) with 0.
    destruct (Z.eqb_spec (tolower b1 - 0) 0); [lia|]. destruct (Z.eqb_spec (tolower b1) 0); [lia|]. apply reads_ret.
  - destruct (cstr_tail _ _ _ _ H1) as (Hb1 & Hn1 & _). apply Z.eqb_neq in Hn1.
    destruct (Z.eqb_spec (tolower b1 - tolower b2) 0), (Z.eqb_spec (tolower b1) (tolower b2)); try lia; [|apply reads_ret].
    eapply reads_bind; [by apply reads_load8|]. rewrite Hn1.
    destruct (cstr_next _ _ _ H1) as [-> H1'], (cstr_next _ _ _ H2) as [-> H2']. apply IH; [done|done|simpl in Hn; lia].
Qed.

Lemma strcasecmp_ok a1 a2 l1 l2 : cstr V a1 l1 -> cstr V a2 l2 -> (length l1 < fuel)%nat ->
  reads V R (strcasecmp fuel a1 a2) (compare_bytes (tolower <$> l1 ++ [0]) (tolower <$> l2 ++ [0])).
Proof.
  intros H1 H2 Hf. unfold strcasecmp. destruct (Z.eqb_spec a1 a2) as [->|]; [|by apply strcasecmp_loop_ok].
  rewrite (cstr_fun _ _ _ H1 H2). replace (compare_bytes _ _) with 0; [apply reads_ret|].
  induction (tolower <$> l2 ++ [0]) as [|b l IH]; simpl; [done|]. by rewrite Z.eqb_refl.
Qed.

(** *** strncmp *)

(** What [n] steps do to two strings. *)
Fixpoint walk (n : nat) (l1 l2 : list Z) : Z + list Z * list Z :=
  match n with
  | O => inr (l1, l2)
  | Datatypes.S n' =>
      match l1, l2 with
      | b1 :: l1', b2 :: l2' => if b1 =? b2 then walk n' l1' l2' else inl (b1 - b2)
      | _, _ => inl (hd 0 (l1 ++ [0]) - hd 0 (l2 ++ [0]))
      end
  end.

Lemma walk_add n m l1 l2 :
  walk (n + m) l1 l2 = match walk n l1 l2 with inl d => inl d | inr (l1', l2') => walk m l1' l2' end.
Proof.
  revert l1 l2. induction n as [|n IH]; intros l1 l2; [done|]. simpl. destruct l1, l2; try done.
  destruct (_ =? _); [apply IH|done].
Qed.

Definition walked (w : Z + list Z * list Z) (r : Z + Z * Z * (Z * Z)) : Prop :=
  match w, r with
  | inl d, inl d' => d' = d
  | inr (l1, l2), inr (a1, a2, (c1, c2)) => cstr V a1 l1 /\ cstr V a2 l2 /\ c1 = c2
  | _, _ => False
  end.

Lemma strncmp_step_ok a1 a2 l1 l2 : cstr V a1 l1 -> cstr V a2 l2 ->
  exists r, reads V R (strncmp_step a1 a2) r /\ walked (walk 1 l1 l2) r.
Proof.
  intros H1 H2. eexists. split.
  - eapply reads_bind; [by apply reads_load8, cstr_hd|]. eapply reads_bind; [by apply reads_load8, cstr_hd|].
    instantiate (1 := if (hd 0 (l1 ++ [0]) =? 0) || negb (hd 0 (l1 ++ [0]) =? hd 0 (l2 ++ [0]))
      then inl (hd 0 (l1 ++ [0]) - hd 0 (l2 ++ [0]))
      else inr (u32 (a1 + 1), u32 (a2 + 1), (hd 0 (l1 ++ [0]), hd 0 (l2 ++ [0])))).
    destruct (_ || _); apply reads_ret.
  - destruct l1 as [|b1 l1]; [done|]. cbn [hd app walk].
    destruct (cstr_tail _ _ _ _ H1) as (_ & Hb1 & _). apply Z.eqb_neq in Hb1 as Eb1. rewrite Eb1.
    destruct l2 as [|b2 l2]; cbn [hd app orb]; [by rewrite Eb1|].
    destruct (Z.eqb_spec b1 b2) as [->|]; cbn [negb walked]; [|done].
    destruct (cstr_next _ _ _ H1) as [-> H1'], (cstr_next _ _ _ H2) as [-> H2']. done.
Qed.

Lemma strncmp_loop1_ok n a1 a2 l1 l2 c : cstr V a1 l1 -> cstr V a2 l2 ->
  exists r, reads V R (strncmp_loop1 n a1 a2 (c, c)) r /\ walked (walk n l1 l2) r.
Proof.
  revert a1 a2 l1 l2 c. induction n as [|n IH]; intros a1 a2 l1 l2 c H1 H2.
  { exists (inr (a1, a2, (c, c))). split; [apply reads_ret|done]. }
  destruct (strncmp_step_ok a1 a2 l1 l2 H1 H2) as (r & Hr & Hw). rewrite (walk_add 1 n).
  destruct (walk 1 l1 l2) as [d|[l1' l2']], r as [d'|[[a1' a2'] [c1 c2]]]; try done.
  - exists (inl d). split; [|done]. eapply reads_bind; [exact Hr|]. simpl in Hw. subst. apply reads_ret.
  - destruct Hw as (H1' & H2' & ->). destruct (IH a1' a2' l1' l2' c2 H1' H2') as (r2 & Hr2 & Hw2).
    exists r2. split; [|done]. eapply reads_bind; [exact Hr|]. done.
Qed.

(** The unrolled loop is the plain loop. *)
Lemma strncmp_loop4_loop1 n4 a1 a2 c (s : S) :
  strncmp_loop4 n4 a1 a2 c s = strncmp_loop1 (4 * n4) a1 a2 c s.
Proof.
  revert a1 a2 c s. induction n4 as [|n4 IH]; intros a1 a2 c s; [done|].
  replace (4 * Datatypes.S n4)%nat with (4 + 4 * n4)%nat by lia. cbn [strncmp_loop4 strncmp_loop1 Nat.add].
  unfold mbind, M_bind.
  do 4 (destruct (strncmp_step _ _ _) as [[[d|[[? ?] ?]] ?]|]; [done| |done]). apply IH.
Qed.

Lemma compare_walk n l1 l2 :
  compare_bytes (take n (l1 ++ [0])) (take n (l2 ++ [0])) =
    match walk n l1 l2 with inl d => d | inr _ => 0 end.
Proof.
  revert l1 l2. induction n as [|n IH]; intros l1 l2; [done|].
  destruct l1 as [|b1 l1], l2 as [|b2 l2]; cbn [app take compare_bytes walk hd].
  - by rewrite take_nil.
  - rewrite take_nil. by destruct (Z.eqb_spec 0 b2) as [<-|].
  - rewrite take_nil. destruct (b1 =? 0) eqn:E; [|done]. apply Z.eqb_eq in E as ->. by destruct (take n (l1 ++ [0])).
  - destruct (b1 =? b2); [apply IH|done].
Qed.

Lemma strncmp_ok a1 a2 l1 l2 n : cstr V a1 l1 -> cstr V a2 l2 -> 0 <= n ->
  reads V R (strncmp a1 a2 n) (compare_bytes (take (Z.to_nat n) (l1 ++ [0])) (take (Z.to_nat n) (l2 ++ [0]))).
Proof.
  intros H1 H2 Hn. rewrite compare_walk. unfold strncmp.
  assert (exists q m, (if 4 <=? n then strncmp_loop4 (Z.to_nat (Z.shiftr n 2)) a1 a2 (0, 0) else mret (inr (a1, a2, (0, 0))))
      = strncmp_loop4 (S:=S) q a1 a2 (0, 0) /\ Z.to_nat (if 4 <=? n then Z.land n 3 else n) = m /\ Z.to_nat n = (4 * q + m)%nat)
    as (q & m & -> & -> & ->).
  { destruct (Z.leb_spec 4 n); [|exists 0%nat, (Z.to_nat n); by split_and!].
    exists (Z.to_nat (Z.shiftr n 2)), (Z.to_nat (Z.land n 3)). split_and!; [done|done|].
    rewrite Z.shiftr_div_pow2 by lia. change 3 with (Z.ones 2). rewrite Z.land_ones by lia. change (2 ^ 2) with 4.
    Z.to_euclidean_division_equations. lia. }
  rewrite walk_add. destruct (strncmp_loop1_ok (4 * q) a1 a2 l1 l2 0 H1 H2) as (r & Hr & Hw).
  assert (reads V R (strncmp_loop4 q a1 a2 (0, 0)) r) as Hr4.
  { intros s Hs. rewrite strncmp_loop4_loop1. by apply Hr. }
  eapply reads_bind; [exact Hr4|].
  destruct (walk (4 * q) l1 l2) as [d|[l1' l2']], r as [d'|[[a1' a2'] [c1 c2]]]; try done.
  { simpl in Hw. subst. apply reads_ret. }
  destruct Hw as (H1' & H2' & ->). destruct (strncmp_loop1_ok m a1' a2' l1' l2' c2 H1' H2') as (r2 & Hr2 & Hw2).
  eapply reads_bind; [exact Hr2|].
  destruct (walk m l1' l2') as [d|[l1'' l2'']], r2 as [d'|[[a1'' a2''] [x1 x2]]]; try done.
  { simpl in Hw2. subst. apply reads_ret. }
  destruct Hw2 as (_ & _ & ->). rewrite Z.sub_diag. apply reads_ret.
Qed.

(** ** Numerals *)

Lemma s8_digit c : 48 <= c <= 57 -> s8 c = c.
Proof. intros Hc. unfold s8. destruct (Z.ltb_spec c 128); lia. Qed.

(** The number a string of decimal digits denotes, [r] read before it. *)
Definition horner (r : Z) (ds : list Z) : Z := foldl (fun r d => 10 * r + (d - 48)) r ds.

Definition decimal (ds : list Z) : Prop := Forall (fun d => 48 <= d <= 57) ds.

Lemma horner_le r ds : decimal ds -> 0 <= r -> r <= horner r ds.
Proof.
  intros Hd. revert r. induction Hd as [|d ds Hd Hds IH]; intros r Hr; simpl; [lia|].
  specialize (IH (10 * r + (d - 48))). unfold horner in *. lia.
Qed.

Lemma atoi_loop_ok n a ds r : cstr V a ds -> decimal ds -> (length ds < n)%nat -> 0 <= r -> horner r ds < 2 ^ 31 ->
  reads V R (atoi_loop n a r) (horner r ds).
Proof.
  revert a ds r. induction n as [|n IH]; intros a ds r Hc Hd Hn Hr Hmax; [lia|]. cbn [atoi_loop].
  destruct ds as [|d ds].
  - eapply reads_bind; [by apply reads_load8, cstr_nil|]. apply reads_ret.
  - apply list.Forall_cons in Hd as [Hd Hds]. destruct (cstr_tail _ _ _ _ Hc) as (Hv & Hd0 & Hc').
    eapply reads_bind; [by apply reads_load8|]. apply Z.eqb_neq in Hd0. rewrite Hd0, s8_digit by done.
    rewrite (proj2 (Z.leb_le 48 d)), (proj2 (Z.leb_le d 57)) by lia. cbn [negb andb].
    destruct (cstr_next _ _ _ Hc) as [-> _]. change (horner r (d :: ds)) with (horner (10 * r + (d - 48)) ds) in *.
    pose proof (horner_le (10 * r + (d - 48)) ds Hds ltac:(lia)).
    rewrite s32_small by lia. apply IH; [done|done|simpl in Hn; lia|lia|done].
Qed.

(** What [itoa] prints: the digits of [i], lowest first. *)
Fixpoint low_digits (n : nat) (i base : Z) : list Z :=
  match n with
  | O => []
  | Datatypes.S n' => if i =? 0 then [] else nth (Z.to_nat (i mod base)) bchars 0 :: low_digits n' (i / base) base
  end.

Lemma itoa_digits_ok n i base tbuf (s : S) : 2 <= base <= 16 -> 0 <= i < base ^ Z.of_nat n ->
  itoa_digits n i base tbuf s = Ok (tbuf ++ low_digits n i base, s).
Proof.
  intros Hb. revert i tbuf. induction n as [|n IH]; intros i tbuf Hi; cbn [itoa_digits low_digits].
  - assert (i = 0) as -> by (simpl in Hi; lia). simpl. by rewrite app_nil_r.
  - destruct (Z.eqb_spec i 0) as [->|Hne]; [by rewrite app_nil_r|].
    rewrite (proj2 (Z.eqb_neq base 0)), Z.rem_mod_nonneg, Z.quot_div_nonneg by lia.
    pose proof (Z.mod_pos_bound i base ltac:(lia)) as Hm. rewrite (proj2 (Z.ltb_ge _ 0)) by lia.
    destruct (bchars !! Z.to_nat (i mod base)) as [d|] eqn:E.
    + rewrite IH; [|split; [apply Z.div_pos; lia|apply Z.div_lt_upper_bound; [lia|]]].
      * rewrite <- app_assoc. cbn [app]. erewrite nth_lookup_Some by exact E. done.
      * rewrite Nat2Z.inj_succ, Z.pow_succ_r in Hi; lia.
    + apply lookup_ge_None in E. simpl in E. lia.
Qed.

Lemma low_digits_decimal n i : 0 <= i < 10 ^ Z.of_nat n ->
  decimal (rev (low_digits n i 10)) /\ horner 0 (rev (low_digits n i 10)) = i.
Proof.
  revert i. induction n as [|n IH]; intros i Hi; cbn [low_digits].
  { split; [constructor|]. simpl in *. lia. }
  destruct (Z.eqb_spec i 0) as [->|Hne]; [split; [constructor|done]|].
  pose proof (Z.mod_pos_bound i 10 ltac:(lia)) as Hm. pose proof (Z.div_mod i 10 ltac:(lia)) as Hdm.
  rewrite Nat2Z.inj_succ, Z.pow_succ_r in Hi by lia.
  destruct (IH (i / 10)) as [Hd Hh]; [split; [apply Z.div_pos; lia|apply Z.div_lt_upper_bound; lia]|].
  assert (nth (Z.to_nat (i mod 10)) bchars 0 = 48 + i mod 10) as ->.
  { assert (i mod 10 = 0 \/ i mod 10 = 1 \/ i mod 10 = 2 \/ i mod 10 = 3 \/ i mod 10 = 4 \/ i mod 10 = 5 \/
      i mod 10 = 6 \/ i mod 10 = 7 \/ i mod 10 = 8 \/ i mod 10 = 9) as Hcases by lia.
    destruct_or! Hcases; by rewrite Hcases. }
  cbn [rev]. split.
  - apply Forall_app. split; [done|]. apply Forall_singleton. lia.
  - unfold horner in *. rewrite foldl_app, Hh. simpl. lia.
Qed.
End laws.

(** ** Writes *)

(** Memory with the bytes [l] at [a]. *)
Definition written (f : Z -> option Z) (a : Z) (l : list Z) (x : Z) : option Z :=
  if in_range a (Z.of_nat (length l)) x then l !! Z.to_nat (x - a) else f x.

Lemma written_cstr f a l : Forall (fun b => b <> 0) l -> cstr (written f a (l ++ [0])) a l.
Proof.
  intros Hl. assert (forall i, (i <= length l)%nat -> written f a (l ++ [0]) (a + Z.of_nat i) = (l ++ [0]) !! i) as Hw.
  { intros i Hi. unfold written. rewrite (proj2 (in_range_spec _ _ _)) by (rewrite length_app; simpl; lia).
    f_equal. lia. }
  split.
  - intros i b Hb. pose proof (lookup_lt_Some _ _ _ Hb). rewrite Hw by lia. split; [by apply lookup_app_l_Some|].
    by eapply (Forall_lookup_1 _ _ _ _ Hl).
  - rewrite Hw by lia. by rewrite lookup_app_r, Nat.sub_diag by lia.
Qed.

Lemma written_owns {S} `{MemLaws S} (s s' : S) a l b n : leaves s s' (written (view s) a l) -> owns s b n -> owns s' b n.
Proof.
  intros L Ho. eapply owns_leaves; [exact Ho|exact L|]. intros x Hx. unfold written.
  destruct (in_range a (Z.of_nat (length l)) x) eqn:E; [|done]. apply in_range_spec in E.
  apply lookup_lt_is_Some_2. lia.
Qed.

Lemma written_cons f a b l x :
  written (fun x => if x =? a then Some b else f x) (a + 1) l x = written f a (b :: l) x.
Proof.
  unfold written. simpl length. destruct (in_range (a + 1) (Z.of_nat (length l)) x) eqn:E1.
  - apply in_range_spec in E1. rewrite (proj2 (in_range_spec _ _ _)) by lia.
    replace (Z.to_nat (x - a)) with (Datatypes.S (Z.to_nat (x - (a + 1)))) by lia. done.
  - apply in_range_false in E1. destruct (Z.eqb_spec x a) as [->|Hne].
    + rewrite (proj2 (in_range_spec _ _ _)) by lia. by rewrite Z.sub_diag.
    + rewrite (proj2 (in_range_false _ _ _)); [done|]. lia.
Qed.

Lemma written_nil f a x : written f a [] x = f x.
Proof. unfold written. rewrite (proj2 (in_range_false _ _ _)); [done|]. simpl. lia. Qed.

Lemma written_ext f g a l x : (forall x, f x = g x) -> written f a l x = written g a l x.
Proof. intros E. unfold written. by destruct (in_range _ _ _). Qed.

Lemma written_snoc (V : Z -> option Z) buf out c x :
  written V buf (out ++ [c]) x = if x =? buf + Z.of_nat (length out) then Some c else written V buf out x.
Proof.
  unfold written. rewrite length_app. simpl. destruct (Z.eqb_spec x (buf + Z.of_nat (length out))) as [->|Hne].
  - rewrite (proj2 (in_range_spec _ _ _)) by lia. rewrite lookup_app_r by lia.
    replace (Z.to_nat _ - length out)%nat with O by lia. done.
  - destruct (in_range buf (Z.of_nat (length out)) x) eqn:E.
    + apply in_range_spec in E. rewrite (proj2 (in_range_spec _ _ _)) by lia. by rewrite lookup_app_l by lia.
    + apply in_range_false in E. rewrite (proj2 (in_range_false _ _ _)); [done|]. lia.
Qed.

Lemma written_some (V : Z -> option Z) buf l x : is_Some (V x) -> is_Some (written V buf l x).
Proof.
  intros Hx. unfold written. destruct (in_range _ _ _) eqn:E; [|done]. apply in_range_spec in E.
  apply lookup_lt_is_Some_2. lia.
Qed.

Lemma written_app f a l1 l2 x : written (written f a l1) (a + Z.of_nat (length l1)) l2 x = written f a (l1 ++ l2) x.
Proof.
  unfold written. rewrite length_app. destruct (in_range (a + Z.of_nat (length l1)) _ x) eqn:E2.
  - apply in_range_spec in E2. rewrite (proj2 (in_range_spec a _ x)) by lia. rewrite lookup_app_r by lia. f_equal. lia.
  - apply in_range_false in E2. destruct (in_range a (Z.of_nat (length l1)) x) eqn:E1.
    + apply in_range_spec in E1. rewrite (proj2 (in_range_spec a _ x)) by lia. by rewrite lookup_app_l by lia.
    + apply in_range_false in E1. by rewrite (proj2 (in_range_false a _ x)) by lia.
Qed.

Lemma store8_written {S} `{MemLaws S} (s : S) a b : mem_ok s -> is_Some (view s a) -> is_u8 b ->
  exists s', store8 a b s = Ok (tt, s') /\ leaves s s' (fun x => if x =? a then Some b else view s x).
Proof.
  intros Hok [c Hc] Hb. destruct (store8_law s a c b Hok Hc) as (s' & E & Hok' & Hr & Hv).
  exists s'. split; [done|]. split; [done|]. split; [done|]. intros x. by rewrite Hv, u8_small.
Qed.

Lemma itoa_copy_ok {S} `{MemLaws S} ds buf (s : S) : mem_ok s -> owns s buf (Z.of_nat (length ds) + 1) -> Forall is_u8 ds ->
  exists s', itoa_copy ds buf s = Ok (tt, s') /\ leaves s s' (written (view s) buf (ds ++ [0])).
Proof.
  intros Hok Ho Hds. revert buf s Hok Ho. induction Hds as [|d ds Hd Hds IH]; intros buf s Hok Ho; cbn [itoa_copy].
  - destruct (store8_written s buf 0 Hok) as (s' & E & L); [apply Ho; simpl; lia|unfold is_u8; lia|].
    exists s'. split; [done|]. eapply leaves_ext; [|exact L]. intros x. cbn [app]. by rewrite <- written_cons, written_nil.
  - cbn [length] in Ho. destruct (store8_written s buf d Hok) as (s1 & E1 & L1); [apply Ho; lia|done|].
    assert (is_u32 (buf + 1)) as Hu by (eapply owns_u32; [exact Hok|exact Ho|lia]).
    destruct (IH (buf + 1) s1) as (s2 & E2 & L2); [apply L1| |].
    { eapply owns_sub; [eapply owns_leaves; [exact Ho|exact L1|]|lia|lia]. intros x Hx. cbv beta. destruct (x =? buf); eauto. }
    exists s2. rewrite (bind_step _ _ _ _ _ E1), u32_small by done. split; [done|].
    eapply leaves_trans; [exact L1|]. eapply leaves_ext; [|exact L2]. intros x. cbn [app]. rewrite <- written_cons.
    apply written_ext, L1.
Qed.

(** The numeral [itoa_s] writes for base ten. *)
Definition numeral (i : Z) : list Z :=
  if i =? 0 then [48] else (if i <? 0 then [45] else []) ++ rev (low_digits 32 (Z.abs i) 10).

Lemma itoa_ok {S} `{MemLaws S} (s : S) i buf : mem_ok s -> 0 <= i < 2 ^ 31 -> owns s buf (Z.of_nat (length (numeral i)) + 1) ->
  exists s', itoa i 10 buf s = Ok (tt, s') /\ leaves s s' (written (view s) buf (numeral i ++ [0])).
Proof.
  intros Hok Hi Ho. unfold itoa, numeral in *. rewrite (proj2 (Z.ltb_ge i 0)) in * by lia. cbn [app] in *.
  rewrite Z.abs_eq in * by lia. change (16 <? 10) with false. rewrite orb_false_r.
  destruct (Z.eqb_spec i 0) as [->|Hne].
  - apply (itoa_copy_ok [48] buf s Hok Ho). apply Forall_singleton. unfold is_u8. lia.
  - rewrite (bind_step _ _ _ _ _ (itoa_digits_ok 32 i 10 [] s ltac:(lia) ltac:(lia))).
    apply itoa_copy_ok; [done|done|]. destruct (low_digits_decimal 32 i) as [Hd _]; [lia|].
    eapply Forall_impl; [|exact Hd]. unfold is_u8. intros d Hd'. simpl in Hd'. lia.
Qed.

Lemma itoa_s_ok {S} `{MemLaws S} (s : S) i buf : mem_ok s -> - 2 ^ 31 < i < 2 ^ 31 ->
  owns s buf (Z.of_nat (length (numeral i)) + 1) ->
  exists s', itoa_s i 10 buf s = Ok (tt, s') /\ leaves s s' (written (view s) buf (numeral i ++ [0])).
Proof.
  intros Hok Hi Ho. unfold itoa_s. change (16 <? 10) with false. cbv iota.
  destruct (Z.ltb_spec i 0) as [Hneg|Hpos]; [|apply itoa_ok; [done|lia|done]].
  assert (numeral i = 45 :: numeral (- i)) as En.
  { unfold numeral. rewrite (proj2 (Z.eqb_neq i 0)), (proj2 (Z.eqb_neq (- i) 0)), (proj2 (Z.ltb_lt i 0)),
      (proj2 (Z.ltb_ge (- i) 0)), Z.abs_opp by lia. done. }
  rewrite En in *. cbn [length] in Ho.
  destruct (store8_written s buf 45 Hok) as (s1 & E1 & L1); [apply Ho; lia|unfold is_u8; lia|].
  assert (is_u32 (buf + 1)) as Hu by (eapply owns_u32; [exact Hok|exact Ho|lia]).
  destruct (itoa_ok s1 (- i) (buf + 1)) as (s2 & E2 & L2); [apply L1|lia| |].
  { eapply owns_sub; [eapply owns_leaves; [exact Ho|exact L1|]|lia|lia]. intros x Hx. cbv beta. destruct (x =? buf); eauto. }
  exists s2. rewrite (bind_step _ _ _ _ _ E1), u32_small by done. split; [done|].
  eapply leaves_trans; [exact L1|]. eapply leaves_ext; [|exact L2]. intros x. cbn [app]. rewrite <- written_cons.
  apply written_ext, L1.
Qed.

Lemma numeral_nonzero i : - 2 ^ 31 < i < 2 ^ 31 -> Forall (fun b => b <> 0) (numeral i).
Proof.
  intros Hi. unfold numeral. destruct (Z.eqb_spec i 0); [by repeat constructor|].
  destruct (low_digits_decimal 32 (Z.abs i)) as [Hd _]; [lia|]. apply Forall_app. split.
  - destruct (i <? 0); by repeat constructor.
  - eapply Forall_impl; [|exact Hd]. intros d Hd'. simpl in Hd'. lia.
Qed.

Lemma atoi_numeral {S} `{MemLaws S} V R fuel buf i : bytes_ok V -> cstr V buf (numeral i) -> - 2 ^ 31 < i < 2 ^ 31 ->
  (length (numeral i) < fuel)%nat -> reads (S:=S) V R (atoi fuel buf) i.
Proof.
  intros HV Hc Hi Hf. unfold atoi.
  destruct (low_digits_decimal 32 (Z.abs i)) as [Hd Hh]; [lia|]. set (ds := rev (low_digits 32 (Z.abs i) 10)) in *.
  assert (i < 0 /\ numeral i = 45 :: ds \/ 0 <= i /\ exists d ds', numeral i = d :: ds' /\ decimal (d :: ds') /\ horner 0 (d :: ds') = i) as Hcases.
  { unfold numeral in *. fold ds. destruct (Z.eqb_spec i 0) as [->|Hne].
    - right. split; [lia|]. exists 48, []. split; [done|]. split; [|done]. apply Forall_singleton. lia.
    - destruct (Z.ltb_spec i 0); [by left|]. right. split; [done|]. rewrite Z.abs_eq in Hh by lia. cbn [app].
      destruct ds as [|d ds']; [simpl in Hh; lia|]. by exists d, ds'. }
  destruct Hcases as [[Hneg En]|(Hpos & d & ds' & En & Hd' & Hh')]; rewrite En in Hc, Hf.
  - destruct (cstr_tail _ _ _ _ Hc) as (Hv & _ & Hc'). destruct (cstr_next _ HV _ _ _ Hc) as [-> _].
    eapply reads_bind; [by apply reads_load8|]. cbn [Z.eqb Pos.eqb].
    eapply reads_bind; [apply (atoi_loop_ok V R HV fuel _ ds 0); [done|done|simpl in Hf; lia|lia|lia]|].
    rewrite Hh. replace (Z.abs i * -1) with i by lia. rewrite s32_small by lia. apply reads_ret.
  - destruct (cstr_tail _ _ _ _ Hc) as (Hv & _ & _). eapply reads_bind; [by apply reads_load8|].
    pose proof (Forall_inv Hd') as Hdd. cbv beta in Hdd.
    rewrite (proj2 (Z.eqb_neq d 45)), (proj2 (Z.eqb_neq d 43)) by lia.
    eapply reads_bind; [apply (atoi_loop_ok V R HV fuel _ (d :: ds') 0); [done|done|done|lia|lia]|].
    rewrite Hh'. apply reads_ret.
Qed.

(** [atoi] reads back what [itoa_s] prints in base ten: every [int] but
    the least one survives the round trip, and only the bytes of the numeral
    and its terminator are written. *)
Theorem itoa_atoi_roundtrip {S} `{MemLaws S} (s : S) (i buf : Z) (fuel : nat) :
  mem_ok s -> - 2 ^ 31 < i < 2 ^ 31 -> owns s buf (Z.of_nat (length (numeral i)) + 1) ->
  (length (numeral i) < fuel)%nat ->
  exists s1 s2, itoa_s i 10 buf s = Ok (tt, s1) /\ cstr (view s1) buf (numeral i) /\
    (forall x, ~ (buf <= x <= buf + Z.of_nat (length (numeral i))) -> view s1 x = view s x) /\
    atoi fuel buf s1 = Ok (i, s2) /\ forall x, view s2 x = view s1 x.
Proof.
  intros Hok Hi Ho Hf. destruct (itoa_s_ok s i buf Hok Hi Ho) as (s1 & E1 & L1).
  assert (cstr (view s1) buf (numeral i)) as Hc.
  { pose proof (written_cstr (view s) buf (numeral i) (numeral_nonzero i Hi)) as [Ha Hb].
    destruct L1 as (_ & _ & Hv). split; [intros k b Hk; rewrite Hv; by apply Ha|by rewrite Hv]. }
  destruct (reads_run (atoi fuel buf) i s1) as (s2 & E2 & _ & _ & V2); [apply L1| |].
  { apply atoi_numeral; [apply view_bytes, L1|done..]. }
  exists s1, s2. split_and!; try done. intros x Hx. destruct L1 as (_ & _ & ->). unfold written.
  rewrite (proj2 (in_range_false _ _ _)); [done|]. rewrite length_app. simpl. lia.
Qed.

Lemma itoa_atoi_roundtrip_witness :
  exists s1 s2, itoa_s (-1209) 10 105 flat_example = Ok (tt, s1) /\ atoi 9 105 s1 = Ok (-1209, s2).
Proof.
  destruct (itoa_atoi_roundtrip flat_example (-1209) 105 9) as (s1 & s2 & E1 & _ & _ & E2 & _).
  - exact flat_example_ok.
  - lia.
  - apply (flat_owns _ _ 6). vm_compute. reflexivity.
  - vm_compute. lia.
  - exists s1, s2. split; [exact E1|exact E2].
Defined.

(** ** Copies *)

Section copies.
Context {S : Type} `{MemLaws S} (fuel : nat).
Implicit Types s : S.

(** A source string: terminated, its last word readable. *)
Definition source (f : Z -> option Z) (a : Z) (l : list Z) : Prop :=
  cstr f a l /\ word_tail f (a + Z.of_nat (length l)) /\ (length l < fuel)%nat /\ a + Z.of_nat (length l) <= 2 ^ 32 - 4.

Lemma strlen_run s a l : mem_ok s -> source (view s) a l ->
  exists s', strlen fuel a s = Ok (Z.of_nat (length l), s') /\ leaves s s' (view s).
Proof. intros Hok (Hc & Ht & Hf & _). apply reads_run; [done|]. apply strlen_ok; [by apply view_bytes|done..]. Qed.

Lemma source_leaves s s' a l : leaves s s' (view s) -> source (view s) a l -> source (view s') a l.
Proof.
  intros (_ & _ & Hv) ([Ha Hz] & Ht & ? & ?). split_and!; [|intros x Hx; rewrite Hv; by apply Ht|done..].
  split; [intros i b Hi; rewrite Hv; by apply Ha|by rewrite Hv].
Qed.

Lemma owns_same s s' a n : leaves s s' (view s) -> owns s a n -> owns s' a n.
Proof. intros L Ho. by eapply owns_leaves. Qed.

(** A copy of the first [n] bytes of a string with its terminator. *)
Lemma copied_written s dst src l n x : cstr (view s) src l -> (n <= length l + 1)%nat ->
  copied s dst src (Z.of_nat n) x = written (view s) dst (take n (l ++ [0])) x.
Proof.
  intros Hc Hn. unfold copied, written. rewrite length_take, length_app. cbn [length]. rewrite Nat.min_l by lia.
  destruct (in_range dst (Z.of_nat n) x) eqn:E; [|done]. apply in_range_spec in E.
  rewrite lookup_take_lt by lia. destruct ((l ++ [0]) !! Z.to_nat (x - dst)) as [b|] eqn:Eb.
  - rewrite <- (cstr_at _ _ _ _ _ Hc Eb). f_equal. lia.
  - apply lookup_ge_None in Eb. rewrite length_app in Eb. simpl in Eb. lia.
Qed.

Lemma cstr_owns s a l : cstr (view s) a l -> owns s a (Z.of_nat (length l) + 1).
Proof.
  intros Hc x Hx. destruct ((l ++ [0]) !! Z.to_nat (x - a)) as [b|] eqn:Eb.
  - apply (cstr_at _ _ _ _ _ Hc) in Eb. replace (a + Z.of_nat (Z.to_nat (x - a))) with x in Eb by lia. by rewrite Eb.
  - apply lookup_ge_None in Eb. rewrite length_app in Eb. simpl in Eb. lia.
Qed.

Lemma strcpy_ok s dest src l : mem_ok s -> source (view s) src l -> owns s dest (Z.of_nat (length l) + 1) ->
  disjoint dest (Z.of_nat (length l) + 1) src (Z.of_nat (length l) + 1) ->
  exists s', strcpy fuel dest src s = Ok (dest, s') /\ leaves s s' (written (view s) dest (l ++ [0])).
Proof.
  intros Hok Hsrc Ho Hd. destruct (strlen_run s src l Hok Hsrc) as (s1 & E1 & L1). unfold strcpy.
  rewrite (bind_step _ _ _ _ _ E1). pose proof (source_leaves _ _ _ _ L1 Hsrc) as Hsrc1.
  destruct Hsrc1 as (Hc1 & _ & _ & Htop). pose proof (cstr_owns _ _ _ Hc1) as Ho1.
  pose proof (owns_same _ _ _ _ L1 Ho) as Ho1'.
  assert (forall a, owns s1 a (Z.of_nat (length l) + 1) -> is_u32 a) as Hu.
  { intros a Ha. eapply owns_u32; [apply L1|exact Ha|lia]. }
  rewrite u32_small by (unfold is_u32; pose proof (Hu src Ho1); unfold is_u32 in *; lia).
  destruct (memcpy_ok dest src (Z.of_nat (length l) + 1) s1) as (s2 & E2 & L2); try done; try lia; [apply L1|by apply Hu..|].
  rewrite (bind_step _ _ _ _ _ E2). exists s2. split; [done|]. eapply leaves_trans; [exact L1|].
  eapply leaves_ext; [|exact L2]. intros x.
  replace (Z.of_nat (length l) + 1) with (Z.of_nat (length l + 1)) by lia.
  rewrite (copied_written s1 dest src l) by (done || lia). rewrite take_ge by (rewrite length_app; simpl; lia).
  apply written_ext, L1.
Qed.

Lemma strcat_ok s dest src d l : mem_ok s -> source (view s) dest d -> source (view s) src l ->
  owns s (dest + Z.of_nat (length d)) (Z.of_nat (length l) + 1) ->
  disjoint (dest + Z.of_nat (length d)) (Z.of_nat (length l) + 1) src (Z.of_nat (length l) + 1) ->
  exists s', strcat fuel dest src s = Ok (dest, s') /\
    leaves s s' (written (view s) (dest + Z.of_nat (length d)) (l ++ [0])).
Proof.
  intros Hok Hdst Hsrc Ho Hd. destruct (strlen_run s dest d Hok Hdst) as (s1 & E1 & L1). unfold strcat.
  rewrite (bind_step _ _ _ _ _ E1). pose proof (owns_same _ _ _ _ L1 Ho) as Ho1.
  rewrite u32_small by (eapply owns_u32; [exact Hok|exact Ho|lia]).
  destruct (strcpy_ok s1 (dest + Z.of_nat (length d)) src l) as (s2 & E2 & L2);
    [apply L1|by eapply source_leaves|done|done|].
  rewrite (bind_step _ _ _ _ _ E2). exists s2. split; [done|]. eapply leaves_trans; [exact L1|].
  eapply leaves_ext; [|exact L2]. intros x. apply written_ext, L1.
Qed.

(** What [strncpy] leaves in its [n] bytes. *)
Definition padded (n : nat) (l : list Z) : list Z := take n l ++ replicate (n - length l) 0.

Lemma padded_length n l : length (padded n l) = n.
Proof. unfold padded. rewrite length_app, length_take, length_replicate. lia. Qed.

Lemma strncpy_ok s p1 p2 l n : mem_ok s -> source (view s) p2 l -> is_u32 n -> is_u32 p1 -> owns s p1 n ->
  disjoint p1 n p2 (Z.of_nat (length l) + 1) ->
  exists s', strncpy fuel p1 p2 n s = Ok (p1, s') /\ leaves s s' (written (view s) p1 (padded (Z.to_nat n) l)).
Proof.
  intros Hok (Hc & Ht & Hf & Htop) Hn Hp1 Ho Hd. unfold strncpy.
  set (size := Z.min n (Z.of_nat (length l))).
  assert (is_u32 p2) as Hp2 by (eapply owns_u32; [exact Hok|by apply cstr_owns|lia]).
  destruct (reads_run (strnlen fuel p2 n) size s Hok) as (sa & Ea & La); [by apply strnlen_cstr_ok; [apply view_bytes|..]|].
  rewrite (bind_step _ _ _ _ _ Ea). unfold is_u32 in *.
  assert (exists sb, (if negb (size =? n) then memset (u32 (p1 + size)) 0 (u32 (n - size)) else mret tt) sa = Ok (tt, sb) /\
    leaves s sb (fun x => if in_range (p1 + size) (n - size) x then Some 0 else view s x)) as (sb & Eb & Lb).
  { destruct (Z.eqb_spec size n) as [->|Hne]; cbn [negb].
    - exists sa. split; [done|]. eapply leaves_ext; [|exact La]. intros x. range_cases.
    - assert (is_u32 (p1 + size)) as Hu by (eapply owns_u32; [exact Hok|exact Ho|lia]).
      rewrite (u32_small (p1 + size)), (u32_small (n - size)) by (done || (unfold is_u32; lia)).
      destruct (memset_ok (p1 + size) 0 (n - size) sa) as (sb & Eb & Lb); [apply La|lia| |].
      { eapply owns_sub; [by eapply owns_same|lia|lia]. }
      exists sb. split; [done|]. eapply leaves_trans; [exact La|]. eapply leaves_ext; [|exact Lb].
      intros x. cbv beta. destruct La as (_ & _ & ->). done. }
  rewrite (bind_step _ _ _ _ _ Eb).
  assert (forall x, p2 <= x < p2 + Z.of_nat (length l) + 1 -> view sb x = view s x) as Hsrc.
  { intros x Hx. destruct Lb as (_ & _ & ->). unfold disjoint in Hd. range_cases. }
  assert (cstr (view sb) p2 l) as Hcb.
  { destruct Hc as [Ha Hz]. split; [|rewrite Hsrc by lia; done]. intros i b Hi.
    pose proof (lookup_lt_Some _ _ _ Hi). rewrite Hsrc by lia. by apply Ha. }
  destruct (memcpy_ok p1 p2 size sb) as (sc & Ec & Lc); [apply Lb|lia|done|done| | |unfold disjoint in *; lia|].
  { intros x Hx. destruct Lb as (_ & _ & ->). destruct (in_range _ _ _); [eauto|]. apply Ho. lia. }
  { eapply owns_sub; [by apply cstr_owns|lia|lia]. }
  rewrite (bind_step _ _ _ _ _ Ec). exists sc. split; [done|]. eapply leaves_trans; [exact Lb|].
  eapply leaves_ext; [|exact Lc]. intros x.
  replace size with (Z.of_nat (Z.to_nat size)) by lia. rewrite (copied_written sb p1 p2 l) by (done || lia).
  destruct Lb as (_ & _ & Vb). unfold written. rewrite padded_length, Vb, length_take, length_app. cbn [length].
  rewrite Nat.min_l by lia. unfold padded. range_cases.
  - rewrite lookup_take_lt, lookup_app_l by lia. rewrite lookup_app_l by (rewrite length_take; lia).
    by rewrite lookup_take_lt by lia.
  - rewrite lookup_app_r by (rewrite length_take; lia). rewrite length_take.
    symmetry. apply lookup_replicate_2. lia.
Qed.
End copies.

(** The copying routines write exactly the bytes they promise. Over a
    source string disjoint from the destination, [strcpy] leaves the string
    and its terminator at [dest], [strcat] leaves them over the terminator of
    the string at [dest], and [strncpy] fills exactly [n] bytes, with the
    first [n] characters and zeros after them; nothing else changes. *)
Theorem string_copies_correct {S} `{MemLaws S} (s : S) (fuel : nat) (dest src n : Z) (d l : list Z) :
  mem_ok s -> source fuel (view s) dest d -> source fuel (view s) src l -> is_u32 n ->
  owns s dest (Z.of_nat (length d) + Z.of_nat (length l) + 1) -> owns s dest n ->
  disjoint dest (Z.max n (Z.of_nat (length d) + Z.of_nat (length l) + 1)) src (Z.of_nat (length l) + 1) ->
  (exists s', strcpy fuel dest src s = Ok (dest, s') /\ leaves s s' (written (view s) dest (l ++ [0]))) /\
  (exists s', strcat fuel dest src s = Ok (dest, s') /\ cstr (view s') dest (d ++ l) /\
     leaves s s' (written (view s) (dest + Z.of_nat (length d)) (l ++ [0]))) /\
  (exists s', strncpy fuel dest src n s = Ok (dest, s') /\
     leaves s s' (written (view s) dest (padded (Z.to_nat n) l))).
Proof.
  intros Hok Hdst Hsrc Hn Ho Hon Hd. unfold disjoint in Hd.
  assert (is_u32 dest) as Hu by (eapply owns_u32; [exact Hok|exact Ho|lia]). split_and!.
  - apply strcpy_ok; try done; [eapply owns_sub; [exact Ho|lia|lia]|unfold disjoint; lia].
  - destruct (strcat_ok fuel s dest src d l Hok Hdst Hsrc) as (s' & E & L);
      [eapply owns_sub; [exact Ho|lia|lia]|unfold disjoint; lia|].
    exists s'. split; [done|]. split; [|done]. destruct L as (_ & _ & Hv).
    destruct Hdst as ([Hda Hdz] & _), Hsrc as ([Hla Hlz] & _).
    destruct (written_cstr (view s) (dest + Z.of_nat (length d)) l) as [Hwa Hwz].
    { apply Forall_lookup_2. intros i b Hi. by destruct (Hla i b Hi). }
    split.
    + intros i b [Hi|[Hge Hi]]%lookup_app_Some; rewrite Hv.
      * pose proof (lookup_lt_Some _ _ _ Hi). unfold written. rewrite (proj2 (in_range_false _ _ _)) by lia. by apply Hda.
      * destruct (Hwa _ _ Hi) as [<- ?]. split; [|done]. f_equal. lia.
    + rewrite Hv, <- Hwz, length_app. f_equal. lia.
  - apply strncpy_ok; try done. unfold disjoint. lia.
Qed.

(** Room for a longer string at 2000. *)
Definition copy_example : flat :=
  list_to_map ([(1001, 97); (1002, 98); (1003, 99); (1004, 0); (1005, 0); (1006, 0); (1007, 0)] ++
    [(2000, 120); (2001, 121); (2002, 0); (2003, 1); (2004, 1); (2005, 1); (2006, 1); (2007, 1)]).

Lemma flat_source (m : flat) a l : bytes_at (view m) a (l ++ [0]) -> Forall (fun b => b <> 0) l ->
  word_tail (view m) (a + Z.of_nat (length l)) -> a + Z.of_nat (length l) <= 2 ^ 32 - 4 ->
  source (Datatypes.S (length l)) (view m) a l.
Proof.
  intros Hb Hl Ht Htop. split_and!; [|done|lia|done]. split.
  - intros i b Hi. split; [apply Hb; by apply lookup_app_l_Some|by eapply (Forall_lookup_1 _ _ _ _ Hl)].
  - apply Hb. by rewrite lookup_app_r, Nat.sub_diag by lia.
Qed.

Lemma source_fuel f n n' a l : source n f a l -> (n <= n')%nat -> source n' f a l.
Proof. intros (? & ? & ? & ?) Hn. split_and!; [done|done|lia|done]. Qed.

Lemma string_copies_correct_witness :
  (exists s', strcat 9 2000 1001 copy_example = Ok (2000, s') /\ cstr (view s') 2000 [120; 121; 97; 98; 99]) /\
  (exists s', strncpy 9 2000 1001 5 copy_example = Ok (2000, s')).
Proof.
  destruct (string_copies_correct copy_example 9 2000 1001 5 [120; 121] [97; 98; 99])
    as (_ & (s1 & E1 & C1 & _) & (s2 & E2 & _)).
  - unfold mem_ok, flat_laws, flat_ok, is_u32, is_u8. apply (bool_decide_unpack _). vm_compute. exact I.
  - apply (source_fuel _ 3); [|lia]. apply flat_source.
    + apply flat_bytes_at. vm_compute. reflexivity.
    + repeat constructor; discriminate.
    + intros x Hx. change (2000 + Z.of_nat (length [120; 121])) with 2002 in Hx.
      change (4 * (2002 / 4) + 4) with 2004 in Hx. assert (x = 2002 \/ x = 2003) as [->| ->] by lia; eexists; reflexivity.
    + zdec.
  - apply (source_fuel _ 4); [|lia]. apply flat_source.
    + apply flat_bytes_at. vm_compute. reflexivity.
    + repeat constructor; discriminate.
    + intros x Hx. change (1001 + Z.of_nat (length [97; 98; 99])) with 1004 in Hx.
      change (4 * (1004 / 4) + 4) with 1008 in Hx.
      assert (x = 1004 \/ x = 1005 \/ x = 1006 \/ x = 1007) as [->|[->|[->| ->]]] by lia; eexists; reflexivity.
    + zdec.
  - zdec.
  - apply (flat_owns _ _ 6). vm_compute. reflexivity.
  - apply (flat_owns _ _ 5). vm_compute. reflexivity.
  - right. vm_compute. discriminate.
  - split; [exists s1|exists s2]; [split; [exact E1|exact C1]|exact E2].
Defined.

(** The comparison routines agree with the lexicographic comparison of
    the terminated strings: [strcmp] of all characters, [strncmp] (whose loop
    is unrolled four times) of the first [n], [strcasecmp] of the characters
    in lower case; nothing changes. *)
Theorem string_compare_correct {S} `{MemLaws S} (s : S) (fuel : nat) (a1 a2 n : Z) (l1 l2 : list Z) :
  mem_ok s -> cstr (view s) a1 l1 -> cstr (view s) a2 l2 -> (length l1 < fuel)%nat -> 0 <= n ->
  let run (m : M S Z) (x : Z) := exists s', m s = Ok (x, s') /\ leaves s s' (view s) in
  run (strcmp fuel a1 a2) (compare_bytes (l1 ++ [0]) (l2 ++ [0])) /\
  run (strncmp a1 a2 n) (compare_bytes (take (Z.to_nat n) (l1 ++ [0])) (take (Z.to_nat n) (l2 ++ [0]))) /\
  run (strcasecmp fuel a1 a2) (compare_bytes (tolower <$> l1 ++ [0]) (tolower <$> l2 ++ [0])).
Proof.
  intros Hok H1 H2 Hf Hn run. pose proof (view_bytes s Hok) as HV. split_and!; apply reads_run; try done.
  - by apply strcmp_loop_ok.
  - by apply strncmp_ok.
  - by apply strcasecmp_ok.
Qed.

(** The strings Abcd and abCe. *)
Definition compare_example : flat :=
  list_to_map [(1001, 65); (1002, 98); (1003, 99); (1004, 100); (1005, 0); (2000, 97); (2001, 98); (2002, 67); (2003, 101); (2004, 0)].

Lemma string_compare_correct_witness :
  (exists s', strcmp 9 1001 2000 compare_example = Ok (-32, s')) /\
  (exists s', strcasecmp 9 1001 2000 compare_example = Ok (-1, s')).
Proof.
  destruct (string_compare_correct compare_example 9 1001 2000 6 [65; 98; 99; 100] [97; 98; 67; 101])
    as ((s1 & E1 & _) & _ & (s2 & E2 & _)).
  - unfold mem_ok, flat_laws, flat_ok, is_u32, is_u8. apply (bool_decide_unpack _). vm_compute. exact I.
  - split; [|reflexivity]. intros [|[|[|[|i]]]] b; intros [= <-]; split; (reflexivity || lia).
  - split; [|reflexivity]. intros [|[|[|[|i]]]] b; intros [= <-]; split; (reflexivity || lia).
  - simpl. lia.
  - lia.
  - split; eexists; eassumption.
Defined.

(** ** Tokens *)

Lemma span_lookup stop l : (span stop l < length l)%nat ->
  exists b, l !! span stop l = Some b /\ stop b = true.
Proof.
  induction l as [|b l IH]; simpl; [lia|]. destruct (stop b) eqn:E; [by exists b|]. intros Hl. apply IH. lia.
Qed.

Lemma cstr_split f a l n b : cstr f a l -> l !! n = Some b ->
  let g x := if x =? a + Z.of_nat n then Some 0 else f x in
  cstr g a (take n l) /\ cstr g (a + Z.of_nat n + 1) (drop (Datatypes.S n) l).
Proof.
  intros [Ha Hz] Hn g. pose proof (lookup_lt_Some _ _ _ Hn). split; split.
  - intros i c [Hi Hin]%lookup_take_Some. unfold g. rewrite (proj2 (Z.eqb_neq _ _)) by lia. by apply Ha.
  - unfold g. rewrite length_take, Nat.min_l, Z.eqb_refl by lia. done.
  - intros i c Hi. rewrite lookup_drop in Hi. unfold g. rewrite (proj2 (Z.eqb_neq _ _)) by lia.
    destruct (Ha _ _ Hi) as [<- ?]. split; [f_equal; lia|done].
  - unfold g. rewrite length_drop, (proj2 (Z.eqb_neq _ _)) by lia. rewrite <- Hz. f_equal. lia.
Qed.

(** [strsep] cuts the first token off a string. When a delimiter occurs,
    it is overwritten with the terminator, the token before it is returned
    and [*stringp] is left at the string after it; otherwise the whole string
    is the token and [*stringp] becomes NULL. *)
Theorem strsep_correct {S} `{MemLaws S} (s : S) (fuel : nat) (a ra : Z) (l r : list Z) :
  mem_ok s -> source fuel (view s) a l -> cstr (view s) ra r -> (length r < fuel)%nat -> a <> 0 ->
  let n := span (fun b => bool_decide (b ∈ r)) l in
  exists s', (if decide (n < length l)%nat
     then strsep fuel a ra s = Ok ((a, a + Z.of_nat n + 1), s') /\
       cstr (view s') a (take n l) /\ cstr (view s') (a + Z.of_nat n + 1) (drop (Datatypes.S n) l) /\
       leaves s s' (fun x => if x =? a + Z.of_nat n then Some 0 else view s x)
     else strsep fuel a ra s = Ok ((a, 0), s') /\ leaves s s' (view s)).
Proof.
  intros Hok (Hc & Ht & Hf & Htop) Hr Hfr Ha n. pose proof (view_bytes s Hok) as HV.
  assert (Forall is_u8 r) as Hr8.
  { apply Forall_lookup_2. intros i b Hb. destruct Hr as [Hi _]. destruct (Hi i b Hb) as [Hv _]. by eapply HV. }
  assert (span (is_reject r) l = n) as En.
  { unfold n. apply span_ext. eapply Forall_impl; [|exact (cstr_nonzero _ _ Hc)]. intros b Hb. apply Z.eqb_neq in Hb.
    unfold is_reject. by rewrite Hb, orb_false_r. }
  pose proof (span_le (is_reject r) l) as Hle. rewrite En in Hle.
  destruct (reads_run (strcspn fuel a ra) (Z.of_nat n) s Hok) as (s1 & E1 & L1); [rewrite <- En; by apply strcspn_ok|].
  pose proof (cstr_u32 _ HV a l n Hc Hle) as Hun.
  assert (cstr (view s1) a l) as Hc1.
  { destruct L1 as (_ & _ & Hv), Hc as [Hca Hcz]. split; [intros i b Hi; rewrite Hv; by apply Hca|by rewrite Hv]. }
  destruct (reads_run (load8 (a + Z.of_nat n)) (nth n (l ++ [0]) 0) s1) as (s2 & E2 & L2); [apply L1| |].
  { apply reads_load8. apply (cstr_at _ _ l _ _ Hc1).
    destruct ((l ++ [0]) !! n) as [b|] eqn:Eb; [by erewrite nth_lookup_Some by exact Eb|].
    apply lookup_ge_None in Eb. rewrite length_app in Eb. simpl in Eb. lia. }
  assert (leaves s s2 (view s)) as L12.
  { eapply leaves_trans; [exact L1|]. eapply leaves_ext; [|exact L2]. apply L1. }
  unfold strsep. rewrite (proj2 (Z.eqb_neq a 0) Ha).
  rewrite (bind_step _ _ _ _ _ E1). cbv zeta. rewrite (u32_small _ Hun), (bind_step _ _ _ _ _ E2).
  destruct (decide (n < length l)%nat) as [Hlt|Hge].
  - destruct (span_lookup (is_reject r) l) as (b & Hb & _); [by rewrite En|]. rewrite En in Hb.
    assert (nth n (l ++ [0]) 0 = b) as ->.
    { erewrite nth_lookup_Some; [done|]. by apply lookup_app_l_Some. }
    destruct Hc as [Hca Hcz]. destruct (Hca n b Hb) as [Hvb Hb0]. apply Z.eqb_neq in Hb0. rewrite Hb0. cbn [negb].
    destruct (store8_written s2 (a + Z.of_nat n) 0) as (s3 & E3 & L3);
      [apply L12|destruct L12 as (_ & _ & ->); by rewrite Hvb|unfold is_u8; lia|].
    rewrite (bind_step _ _ _ _ _ E3). exists s3.
    assert (leaves s s3 (fun x => if x =? a + Z.of_nat n then Some 0 else view s x)) as L13.
    { eapply leaves_trans; [exact L12|]. eapply leaves_ext; [|exact L3]. intros x. cbv beta.
      destruct L12 as (_ & _ & ->). done. }
    destruct (cstr_split (view s) a l n b (conj Hca Hcz) Hb) as [Hx Hy].
    assert (forall p k, cstr (fun x => if x =? a + Z.of_nat n then Some 0 else view s x) p k -> cstr (view s3) p k) as Hmove.
    { intros p k [Hpa Hpz]. destruct L13 as (_ & _ & Hv). split; [intros i c Hi; rewrite Hv; by apply Hpa|by rewrite Hv]. }
    split_and!; [|by apply Hmove|by apply Hmove|exact L13].
    rewrite u32_small; [done|]. pose proof (cstr_u32 _ HV a l (Datatypes.S n) (conj Hca Hcz) ltac:(lia)) as Hs.
    replace (a + Z.of_nat n + 1) with (a + Z.of_nat (Datatypes.S n)) by lia. done.
  - assert (nth n (l ++ [0]) 0 = 0) as ->.
    { rewrite app_nth2 by lia. by replace (n - length l)%nat with 0%nat by lia. }
    cbn [Z.eqb negb]. exists s2. done.
Qed.

Lemma strsep_correct_witness : exists s', strsep 9 1001 2000 string_example = Ok ((1001, 1003), s') /\
  cstr (view s') 1001 [97] /\ cstr (view s') 1003 [99; 97; 98].
Proof.
  destruct (strsep_correct string_example 9 1001 2000 [97; 98; 99; 97; 98] [99; 98]) as (s' & E & C1 & C2 & _).
  - unfold mem_ok, flat_laws, flat_ok, is_u32, is_u8. apply (bool_decide_unpack _). vm_compute. exact I.
  - apply (source_fuel _ 6); [|lia]. apply flat_source.
    + apply flat_bytes_at. vm_compute. reflexivity.
    + repeat constructor; discriminate.
    + intros x Hx. change (1001 + Z.of_nat (length [97; 98; 99; 97; 98])) with 1006 in Hx.
      change (4 * (1006 / 4) + 4) with 1008 in Hx. assert (x = 1006 \/ x = 1007) as [->| ->] by lia; eexists; reflexivity.
    + zdec.
  - split; [|reflexivity]. intros [|[|i]] b; intros [= <-]; split; (reflexivity || lia).
  - simpl. lia.
  - discriminate.
  - exists s'. split; [exact E|]. split; [exact C1|exact C2].
Defined.
