(* ===== verification/Hashmap.v ===== *)
(** * The hash map

    [utils/hashmap.c]: open addressing with linear probing over a table whose
    size is a power of two, probing at most half of it; removal shifts later
    entries of the chain back. The kernel keeps its processes and its message
    queues in such maps, keyed by [uint32_t].

    A table is the list of its entries together with the address the heap gave
    it; an entry pointer is an index. [hash] and [key_compare] are the
    function pointers of the struct; keys are pointers whose targets do not
    change while they are in the map. *)
From Stdlib Require Import ZArith Lia Bool.
From stdpp Require Import base list gmap option sorting.
From S2P Require Import Prelude.

Open Scope Z_scope.

(** ** The heap the map allocates from *)

Class Alloc (A : Type) := {
  alloc_zeroed : Z -> Z -> M A Z;  (* kcalloc *)
  release : Z -> M A unit;         (* kfree *)
  resize : Z -> Z -> M A Z;        (* krealloc *)
}.

(** [live a l]: the blocks [l] are allocated in [a]. *)
Class AllocLaws (A : Type) `{Alloc A} := {
  live : A -> list Z -> Prop;
  live_perm : forall a l l', l ≡ₚ l' -> live a l -> live a l';
  alloc_law : forall a l n sz, live a l ->
    exists p a', alloc_zeroed n sz a = Ok (p, a') /\ (p = 0 /\ live a' l \/ p <> 0 /\ live a' (p :: l));
  release_law : forall a l p, live a (p :: l) -> exists a', release p a = Ok (tt, a') /\ live a' l;
}.

(** ** Data *)

Record hashmap_entry := mk_entry { e_key : Z; e_data : Z }.
Definition empty_entry : hashmap_entry := mk_entry 0 0.

Record hashmap (A : Type) := mk_hashmap {
  table_size_init : Z;
  table_size : Z;
  num_entries : Z;
  table : Z;
  cells : list hashmap_entry;
  hash : Z -> Z;
  key_compare : Z -> Z -> Z;
  key_alloc : option (Z -> M A Z);
  key_free : option (Z -> M A unit) }.
Arguments table_size_init {A} _. Arguments table_size {A} _. Arguments num_entries {A} _.
Arguments table {A} _. Arguments cells {A} _. Arguments hash {A} _. Arguments key_compare {A} _.
Arguments key_alloc {A} _. Arguments key_free {A} _. Arguments mk_hashmap {A}.

Definition with_cells {A} (l : list hashmap_entry) (m : hashmap A) : hashmap A :=
  mk_hashmap (table_size_init m) (table_size m) (num_entries m) (table m) l
    (hash m) (key_compare m) (key_alloc m) (key_free m).
Definition with_count {A} (n : Z) (m : hashmap A) : hashmap A :=
  mk_hashmap (table_size_init m) (table_size m) n (table m) (cells m)
    (hash m) (key_compare m) (key_alloc m) (key_free m).
Definition with_table {A} (size addr : Z) (l : list hashmap_entry) (m : hashmap A) : hashmap A :=
  mk_hashmap (table_size_init m) size (num_entries m) addr l
    (hash m) (key_compare m) (key_alloc m) (key_free m).

Record hst (A : Type) := mk_hst { hm : hashmap A; heap : A }.
Arguments mk_hst {A}. Arguments hm {A} _. Arguments heap {A} _.
Definition with_map {A} (m : hashmap A) (s : hst A) : hst A := mk_hst m (heap s).
Definition with_heap {A} (a : A) (s : hst A) : hst A := mk_hst (hm s) a.

Definition ENOMEM : Z := 12.
Definition EINVAL : Z := 22.
Definition sizeof_entry : Z := 8.

(** ** Indices *)

Definition HASHMAP_SIZE_MIN : Z := 32.
Definition HASHMAP_SIZE_DEFAULT : Z := 256.

Section ops.
Context {A : Type} `{Alloc A}.
Implicit Types m : hashmap A.

Definition on_heap {B} : M A B -> M (hst A) B := zoom heap with_heap.

Definition HASHMAP_SIZE_MOD m (val : Z) : Z := Z.land val (u32 (table_size m - 1)).
Definition HASHMAP_PROBE_LEN m : Z := Z.shiftr (table_size m) 1.
Definition HASHMAP_PROBE_NEXT m (index : Z) : Z := HASHMAP_SIZE_MOD m (u32 (index + 1)).
Definition HASHMAP_INDEX_LE m (a b : Z) : bool :=
  (a =? b) || negb (Z.land (u32 (b - a)) (Z.shiftr (table_size m) 1) =? 0).

Definition hashmap_table_min_size_calc (num_entries : Z) : Z := u32 (num_entries + num_entries / 3).

Fixpoint size_loop (fuel : nat) (min_size table_size : Z) : outcome Z :=
  if min_size <? table_size then
    match fuel with
    | O => Fail Fuel
    | S fuel' => size_loop fuel' (u32 (Z.shiftl min_size 1)) table_size
    end
  else Ok min_size.

Definition hashmap_table_size_calc (num_entries : Z) : outcome Z :=
  size_loop 32 HASHMAP_SIZE_MIN (hashmap_table_min_size_calc num_entries).

Definition hashmap_calc_index m (key : Z) : Z := HASHMAP_SIZE_MOD m (hash m key).

(** The entries from index [i] on; the index of the first populated one. *)
Fixpoint populated_from (l : list hashmap_entry) (i : Z) : option Z :=
  match l with
  | [] => None
  | e :: l' => if negb (e_key e =? 0) then Some i else populated_from l' (i + 1)
  end.
Definition hashmap_entry_get_populated m (entry : Z) : option Z :=
  populated_from (drop (Z.to_nat entry) (cells m)) entry.

(** ** Lookup *)

Definition entry_at m (i : Z) : option hashmap_entry := cells m !! Z.to_nat i.

Fixpoint probe_loop m (key : Z) (find_empty : bool) (n : nat) (index : Z) : outcome (option Z) :=
  match n with
  | O => Ok None
  | S n' =>
      match entry_at m index with
      | None => Fail Segv
      | Some entry =>
          if e_key entry =? 0 then Ok (if find_empty then Some index else None)
          else if key_compare m key (e_key entry) =? 0 then Ok (Some index)
          else probe_loop m key find_empty n' (HASHMAP_PROBE_NEXT m index)
      end
  end.

Definition hashmap_entry_find m (key : Z) (find_empty : bool) : outcome (option Z) :=
  probe_loop m key find_empty (Z.to_nat (HASHMAP_PROBE_LEN m)) (hashmap_calc_index m key).

(** ** Removal *)

(** The entries after the removed one, shifted into the hole where their home
    index allows; the final hole. *)
Fixpoint remove_loop m (n : nat) (index removed : Z) (l : list hashmap_entry) :
    outcome (Z * list hashmap_entry) :=
  match n with
  | O => Ok (removed, l)
  | S n' =>
      match l !! Z.to_nat index with
      | None => Fail Segv
      | Some entry =>
          if e_key entry =? 0 then Ok (removed, l)
          else if HASHMAP_INDEX_LE m removed (hashmap_calc_index m (e_key entry))
          then remove_loop m n' (HASHMAP_PROBE_NEXT m index) index (<[Z.to_nat removed := entry]> l)
          else remove_loop m n' (HASHMAP_PROBE_NEXT m index) removed l
      end
  end.

Definition hashmap_entry_remove (removed : Z) : M (hst A) unit :=
  m ← gets hm;
  removed_entry ← deref (fun _ => entry_at m removed);
  (match key_free m with Some f => on_heap (f (e_key removed_entry)) | None => mret tt end);;
  modify (fun s => with_map (with_count (u32 (num_entries (hm s) - 1)) (hm s)) s);;
  r ← mlift (remove_loop m (Z.to_nat (table_size m - 1)) (HASHMAP_PROBE_NEXT m removed) removed (cells m));
  modify (fun s => with_map (with_cells (<[Z.to_nat (fst r) := empty_entry]> (snd r)) (hm s)) s).

(** ** Rehashing *)

(** The old entries put one by one into the new table; [None] is [revert]. *)
Fixpoint rehash_loop (old : list hashmap_entry) m : outcome (option (hashmap A)) :=
  match old with
  | [] => Ok (Some m)
  | entry :: old' =>
      if e_data entry =? 0 then rehash_loop old' m
      else
        match hashmap_entry_find m (e_key entry) true with
        | Fail f => Fail f
        | Ok None => Ok None
        | Ok (Some i) => rehash_loop old' (with_cells (<[Z.to_nat i := mk_entry (e_key entry) (e_data entry)]> (cells m)) m)
        end
  end.

Definition hashmap_rehash (new_size : Z) : M (hst A) Z :=
  new_table ← on_heap (alloc_zeroed new_size sizeof_entry);
  if new_table =? 0 then mret (- ENOMEM)
  else
    m ← gets hm;
    let old_size := table_size m in
    let old_table := table m in
    let old_cells := cells m in
    r ← mlift (rehash_loop old_cells (with_table new_size new_table (replicate (Z.to_nat new_size) empty_entry) m));
    match r with
    | Some m' => modify (with_map m');; on_heap (release old_table);; mret 0
    | None => modify (with_map (with_table old_size old_table old_cells m));; on_heap (release new_table);; mret (- EINVAL)
    end.

(** ** The interface *)

Definition hashmap_init (hash_func : Z -> Z) (key_compare_func : Z -> Z -> Z) (initial_size : Z) : M (hst A) Z :=
  size ← (if initial_size =? 0 then mret HASHMAP_SIZE_DEFAULT else mlift (hashmap_table_size_calc initial_size));
  p ← on_heap (alloc_zeroed size sizeof_entry);
  if p =? 0 then mret (- ENOMEM)
  else
    modify (with_map (mk_hashmap size size 0 p (replicate (Z.to_nat size) empty_entry) hash_func key_compare_func None None));;
    mret 0.

(** The new entry, once its slot is known. *)
Definition put_entry (key data entry : Z) : M (hst A) Z :=
  m ← gets hm;
  e ← deref (fun _ => entry_at m entry);
  if e_key e =? 0 then
    k ← (match key_alloc m with
         | Some f => k ← on_heap (f key); mret (if k =? 0 then None else Some k)
         | None => mret (Some key)
         end);
    match k with
    | None => mret 0
    | Some k =>
        modify (fun s => with_map (with_count (u32 (num_entries m + 1))
                            (with_cells (<[Z.to_nat entry := mk_entry k data]> (cells m)) m)) s);;
        mret data
    end
  else if negb (e_data e =? 0) then mret (e_data e)
  else
    modify (fun s => with_map (with_cells (<[Z.to_nat entry := mk_entry (e_key e) data]> (cells m)) m) s);;
    mret data.

Definition hashmap_put (key data : Z) : M (hst A) Z :=
  m ← gets hm;
  (if table_size m <=? hashmap_table_min_size_calc (num_entries m)
   then hashmap_rehash (u32 (Z.shiftl (table_size m) 1));; mret tt else mret tt);;
  m ← gets hm;
  entry ← mlift (hashmap_entry_find m key true);
  match entry with
  | Some entry => put_entry key data entry
  | None =>
      rc ← hashmap_rehash (u32 (Z.shiftl (table_size m) 1));
      if rc <? 0 then mret 0
      else
        m ← gets hm;
        entry ← mlift (hashmap_entry_find m key true);
        match entry with Some entry => put_entry key data entry | None => mret 0 end
  end.

Definition hashmap_get (key : Z) : M (hst A) Z :=
  m ← gets hm;
  entry ← mlift (hashmap_entry_find m key false);
  match entry with
  | None => mret 0
  | Some i => e ← deref (fun _ => entry_at m i); mret (e_data e)
  end.

Definition hashmap_remove (key : Z) : M (hst A) Z :=
  m ← gets hm;
  entry ← mlift (hashmap_entry_find m key false);
  match entry with
  | None => mret 0
  | Some i =>
      e ← deref (fun _ => entry_at m i);
      hashmap_entry_remove i;; mret (e_data e)
  end.

Definition hashmap_size : M (hst A) Z := gets (fun s => num_entries (hm s)).

(** ** Iteration *)

Definition hashmap_iter m : option Z :=
  if num_entries m =? 0 then None else hashmap_entry_get_populated m 0.
Definition hashmap_iter_next m (iter : option Z) : option Z :=
  match iter with None => None | Some entry => hashmap_entry_get_populated m (entry + 1) end.
Definition hashmap_iter_get_key m (iter : option Z) : outcome Z :=
  match iter with
  | None => Ok 0
  | Some i => match entry_at m i with Some e => Ok (e_key e) | None => Fail Segv end
  end.
Definition hashmap_iter_get_data m (iter : option Z) : outcome Z :=
  match iter with
  | None => Ok 0
  | Some i => match entry_at m i with Some e => Ok (e_data e) | None => Fail Segv end
  end.
Definition hashmap_iter_set_data (iter : option Z) (data : Z) : M (hst A) unit :=
  match iter with
  | None => mret tt
  | Some i =>
      e ← deref (fun s => entry_at (hm s) i);
      modify (fun s => with_map (with_cells (<[Z.to_nat i := mk_entry (e_key e) data]> (cells (hm s))) (hm s)) s)
  end.
Definition hashmap_iter_remove (iter : option Z) : M (hst A) (option Z) :=
  match iter with
  | None => mret None
  | Some i =>
      e ← deref (fun s => entry_at (hm s) i);
      if e_key e =? 0 then gets (fun s => hashmap_iter_next (hm s) iter)
      else hashmap_entry_remove i;; gets (fun s => hashmap_entry_get_populated (hm s) i)
  end.

(** The entries from [iter] on, each key freed; one round per cell. *)
Fixpoint free_keys_loop (n : nat) (f : Z -> M A unit) (iter : option Z) : M (hst A) unit :=
  match iter with
  | None => mret tt
  | Some _ =>
      match n with
      | O => mfail Fuel
      | S n' =>
          m ← gets hm;
          k ← mlift (hashmap_iter_get_key m iter);
          on_heap (f k);;
          iter ← gets (fun s => hashmap_iter_next (hm s) iter);
          free_keys_loop n' f iter
      end
  end.

Definition hashmap_free_keys : M (hst A) unit :=
  m ← gets hm;
  match key_free m with
  | None => mret tt
  | Some f => free_keys_loop (S (length (cells m))) f (hashmap_iter m)
  end.

Definition hashmap_clear : M (hst A) unit :=
  hashmap_free_keys;;
  modify (fun s => with_map (with_cells (replicate (length (cells (hm s))) empty_entry) (with_count 0 (hm s))) s).

(** [krealloc] copies [table_size_init] entries of the cleared table. *)
Definition hashmap_reset : M (hst A) unit :=
  hashmap_clear;;
  m ← gets hm;
  if table_size m =? table_size_init m then mret tt
  else
    p ← on_heap (resize (table m) (u32 (sizeof_entry * table_size_init m)));
    if p =? 0 then mret tt
    else if Z.of_nat (length (cells m)) <? table_size_init m then mfail Segv
    else modify (fun s => with_map (with_table (table_size_init m) p (take (Z.to_nat (table_size_init m)) (cells m)) m) s).

Definition hashmap_destroy : M (hst A) unit :=
  hashmap_free_keys;;
  m ← gets hm;
  on_heap (release (table m));;
  modify (with_map (mk_hashmap 0 0 0 0 [] (fun _ => 0) (fun _ _ => 0) None None)).

Definition hashmap_set_key_alloc_funcs (a : option (Z -> M A Z)) (f : option (Z -> M A unit)) : M (hst A) unit :=
  modify (fun s => let m := hm s in
    with_map (mk_hashmap (table_size_init m) (table_size m) (num_entries m) (table m) (cells m)
      (hash m) (key_compare m) a f) s).

(** [func] may remove the current entry, which is then visited again; an
    index is only meaningful while the table stays where it is. *)
Fixpoint foreach_loop (fuel : nat) (func : Z -> Z -> M (hst A) Z) (entry : Z) : M (hst A) Z :=
  match fuel with
  | O => mfail Fuel
  | S fuel' =>
      m ← gets hm;
      if entry <? table_size m then
        e ← deref (fun _ => entry_at m entry);
        if e_key e =? 0 then foreach_loop fuel' func (entry + 1)
        else
          rc ← func (e_key e) (e_data e);
          if rc <? 0 then mret rc
          else if 0 <? rc then mret 0
          else
            m' ← gets hm;
            if negb (table m' =? table m) then mfail Segv
            else
              e' ← deref (fun _ => entry_at m' entry);
              if negb (e_key e' =? e_key e) then foreach_loop fuel' func entry
              else if negb (num_entries m =? num_entries m') then mret (-1)
              else foreach_loop fuel' func (entry + 1)
      else mret 0
  end.
Definition hashmap_foreach (fuel : nat) (func : Z -> Z -> M (hst A) Z) : M (hst A) Z := foreach_loop fuel func 0.
End ops.

(** ** Hash and comparison functions *)

(** Jenkins' one-at-a-time hash over the characters of a string. *)
Definition hash_mix (h c : Z) : Z :=
  let h := u32 (h + c) in
  let h := u32 (h + u32 (Z.shiftl h 10)) in
  Z.lxor h (Z.shiftr h 6).
Definition hash_final (h : Z) : Z :=
  let h := u32 (h + u32 (Z.shiftl h 3)) in
  let h := Z.lxor h (Z.shiftr h 11) in
  u32 (h + u32 (Z.shiftl h 15)).
Definition char_of (b : Z) : Z := if b <? 128 then b else b - 256.
Definition lower (c : Z) : Z := c + 0x20 * (if (65 <=? c) && (c <=? 90) then 1 else 0).
Definition hashmap_hash_string (str : list Z) : Z := hash_final (foldl (fun h b => hash_mix h (char_of b)) 0 str).
Definition hashmap_hash_string_i (str : list Z) : Z := hash_final (foldl (fun h b => hash_mix h (lower (char_of b))) 0 str).

(** [rd] is the 32-bit word a key points to. *)
Definition hashmap_hash_uint32 (rd : Z -> Z) (key : Z) : Z := rd key.
Definition hashmap_compare_uint32 (rd : Z -> Z) (a b : Z) : Z := s32 (s32 (rd a) - s32 (rd b)).

(** ** The invariant *)

(** The distance from [a] to [b] going up, modulo the size. *)
Definition dist (N a b : Z) : Z := if a <=? b then b - a else b - a + N.

Ltac dlia :=
  unfold dist in *;
  repeat match goal with
  | H : context [?a <=? ?b] |- _ => destruct (Z.leb_spec a b)
  | |- context [?a <=? ?b] => destruct (Z.leb_spec a b)
  end; lia.

Definition key_at (l : list hashmap_entry) (i : Z) : Z := e_key (nth (Z.to_nat i) l empty_entry).
Definition data_at (l : list hashmap_entry) (i : Z) : Z := e_data (nth (Z.to_nat i) l empty_entry).

Section invariant.
Context {A : Type}.
Implicit Types m : hashmap A.

(** Two keys that [key_compare] identifies hash alike. *)
Class KeyLaws m := {
  same_refl : forall a, key_compare m a a = 0;
  same_sym : forall a b, key_compare m a b = 0 -> key_compare m b a = 0;
  same_trans : forall a b c, key_compare m a b = 0 -> key_compare m b c = 0 -> key_compare m a c = 0;
  same_hash : forall a b, key_compare m a b = 0 -> hash m a = hash m b }.

Definition pow2_size (N : Z) : Prop := exists k, N = 2 ^ k /\ 1 <= k <= 31.

(** An entry sits less than half a table after its home index, with no empty
    slot between; no key occurs twice; a slot has data exactly when it has a
    key. *)
Record table_ok m : Prop := {
  to_size : pow2_size (table_size m);
  to_len : Z.of_nat (length (cells m)) = table_size m;
  to_hash : forall k, is_u32 (hash m k);
  to_place : forall i, 0 <= i < table_size m -> key_at (cells m) i <> 0 ->
    let h := hashmap_calc_index m (key_at (cells m) i) in
    2 * dist (table_size m) h i < table_size m /\
    forall p, 0 <= p < table_size m -> dist (table_size m) h p < dist (table_size m) h i -> key_at (cells m) p <> 0;
  to_uniq : forall i j, 0 <= i < table_size m -> 0 <= j < table_size m ->
    key_at (cells m) i <> 0 -> key_at (cells m) j <> 0 ->
    key_compare m (key_at (cells m) i) (key_at (cells m) j) = 0 -> i = j;
  to_data : forall i, 0 <= i < table_size m -> key_at (cells m) i = 0 <-> data_at (cells m) i = 0 }.

Definition populated (l : list hashmap_entry) : list hashmap_entry := filter (fun e => e_key e <> 0) l.

Record map_ok m : Prop := {
  mo_table : table_ok m;
  mo_count : num_entries m = Z.of_nat (length (populated (cells m))) }.

(** The map a table stands for. *)
Fixpoint assoc m (l : list hashmap_entry) (key : Z) : option Z :=
  match l with
  | [] => None
  | e :: l' =>
      if negb (e_key e =? 0) && (key_compare m key (e_key e) =? 0) then Some (e_data e) else assoc m l' key
  end.
Definition contents m : Z -> option Z := assoc m (cells m).

(** ** Index arithmetic *)

Lemma land_mask k v : 0 <= k <= 31 -> 0 <= v -> Z.land v (u32 (2 ^ k - 1)) = v mod 2 ^ k.
Proof.
  intros Hk Hv. assert (2 ^ k <= 2 ^ 31) by (apply Z.pow_le_mono_r; lia). assert (0 < 2 ^ k) by (apply Z.pow_pos_nonneg; lia).
  rewrite u32_small by (unfold is_u32; lia). replace (2 ^ k - 1) with (Z.ones k) by (rewrite Z.ones_equiv; lia).
  apply Z.land_ones. lia.
Qed.

Lemma size_bounds N : pow2_size N -> 2 <= N <= 2 ^ 31 /\ N = 2 * (N / 2).
Proof.
  intros (k & -> & Hk). assert (2 ^ k <= 2 ^ 31) by (apply Z.pow_le_mono_r; lia).
  replace k with (Z.succ (k - 1)) in * by lia. rewrite Z.pow_succ_r in * by lia.
  assert (0 < 2 ^ (k - 1)) by (apply Z.pow_pos_nonneg; lia).
  rewrite (Z.mul_comm 2), Z.div_mul by lia. lia.
Qed.

Lemma calc_index_range m key : pow2_size (table_size m) -> is_u32 (hash m key) ->
  0 <= hashmap_calc_index m key < table_size m.
Proof.
  intros (k & E & Hk) Hh. unfold hashmap_calc_index, HASHMAP_SIZE_MOD. unfold is_u32 in Hh.
  rewrite E, land_mask by lia. apply Z.mod_pos_bound. apply Z.pow_pos_nonneg; lia.
Qed.

Lemma probe_next m i : pow2_size (table_size m) -> 0 <= i < table_size m ->
  HASHMAP_PROBE_NEXT m i = if i + 1 =? table_size m then 0 else i + 1.
Proof.
  intros Hs Hi. destruct (size_bounds _ Hs) as [HN _]. destruct Hs as (k & E & Hk).
  unfold HASHMAP_PROBE_NEXT, HASHMAP_SIZE_MOD. rewrite u32_small by (unfold is_u32; lia).
  rewrite E at 1. rewrite land_mask by lia. rewrite <- E.
  destruct (Z.eqb_spec (i + 1) (table_size m)) as [->|]; [apply Z.mod_same; lia|apply Z.mod_small; lia].
Qed.

Lemma top_bit d k : 1 <= k -> 0 <= d < 2 ^ k -> Z.testbit d (k - 1) = (2 ^ k <=? 2 * d).
Proof.
  intros Hk Hd. assert (2 ^ k = 2 * 2 ^ (k - 1)) as E by (rewrite <- Z.pow_succ_r by lia; f_equal; lia).
  assert (0 < 2 ^ (k - 1)) by (apply Z.pow_pos_nonneg; lia). rewrite E in *. set (P := 2 ^ (k - 1)) in *.
  pose proof (Z.testbit_spec' d (k - 1) ltac:(lia)) as Hb. fold P in Hb.
  destruct (Z.leb_spec (2 * P) (2 * d)).
  - assert (d / P = 1) as Hq by (symmetry; apply (Z.div_unique d P 1 (d - P)); lia).
    rewrite Hq in Hb. by destruct (Z.testbit d (k - 1)).
  - rewrite (Z.div_small d P) in Hb by lia. by destruct (Z.testbit d (k - 1)).
Qed.

(** The test of [HASHMAP_INDEX_LE]: the bit below the size says on which half
    the difference falls. *)
Lemma index_le m a b : pow2_size (table_size m) -> 0 <= a < table_size m -> 0 <= b < table_size m ->
  HASHMAP_INDEX_LE m a b = (dist (table_size m) a b =? 0) || (table_size m <=? 2 * dist (table_size m) a b).
Proof.
  intros Hs Ha Hb. destruct (size_bounds _ Hs) as [HN HN2]. destruct Hs as (k & E & Hk). unfold HASHMAP_INDEX_LE. f_equal.
  - destruct (Z.eqb_spec a b), (Z.eqb_spec (dist (table_size m) a b) 0); try done; dlia.
  - rewrite Z.shiftr_div_pow2 by lia. change (2 ^ 1) with 2.
    assert (table_size m / 2 = bit (k - 1)) as ->.
    { unfold bit. rewrite Z.shiftl_mul_pow2, Z.mul_1_l, E by lia. replace k with (Z.succ (k - 1)) at 1 by lia.
      rewrite Z.pow_succ_r, (Z.mul_comm 2), Z.div_mul by lia. done. }
    rewrite land_bit_eqb, negb_involutive by lia.
    assert (u32 (b - a) mod 2 ^ k = dist (table_size m) a b) as Em.
    { unfold u32. assert (2 ^ 32 = 2 ^ k * 2 ^ (32 - k)) as -> by (rewrite <- Z.pow_add_r by lia; f_equal; lia).
      assert (0 < 2 ^ k) by (apply Z.pow_pos_nonneg; lia). assert (0 < 2 ^ (32 - k)) by (apply Z.pow_pos_nonneg; lia).
      rewrite Z.rem_mul_r, Z.mul_comm, Z.mod_add, Z.mod_mod by lia. unfold dist. rewrite E in *.
      destruct (Z.leb_spec a b); [apply Z.mod_small; lia|]. rewrite <- (Z.mod_add _ 1) by lia.
      rewrite Z.mul_1_l. apply Z.mod_small. lia. }
    rewrite <- (Z.mod_pow2_bits_low (u32 (b - a)) k (k - 1)) by lia. rewrite Em.
    assert (0 <= dist (table_size m) a b < 2 ^ k) as Hd by (rewrite <- E; dlia).
    transitivity (2 ^ k <=? 2 * dist (table_size m) a b); [apply top_bit; [lia|done]|by rewrite <- E].
Qed.

(** ** Lookup *)

Lemma entry_at_some m i : table_ok m -> 0 <= i < table_size m ->
  entry_at m i = Some (nth (Z.to_nat i) (cells m) empty_entry).
Proof.
  intros Hok Hi. unfold entry_at. pose proof (to_len m Hok).
  destruct (lookup_lt_is_Some_2 (cells m) (Z.to_nat i)) as [e E]; [lia|].
  by rewrite E, (nth_lookup_Some _ _ _ _ E).
Qed.

Lemma key_at_insert l i j e : 0 <= i -> 0 <= j -> i < Z.of_nat (length l) ->
  key_at (<[Z.to_nat i := e]> l) j = if j =? i then e_key e else key_at l j.
Proof.
  intros Hi Hj Hl. unfold key_at. rewrite !nth_lookup. destruct (Z.eqb_spec j i) as [->|Hne].
  - by rewrite list_lookup_insert_eq by lia.
  - by rewrite list_lookup_insert_ne by lia.
Qed.

Lemma data_at_insert l i j e : 0 <= i -> 0 <= j -> i < Z.of_nat (length l) ->
  data_at (<[Z.to_nat i := e]> l) j = if j =? i then e_data e else data_at l j.
Proof.
  intros Hi Hj Hl. unfold data_at. rewrite !nth_lookup. destruct (Z.eqb_spec j i) as [->|Hne].
  - by rewrite list_lookup_insert_eq by lia.
  - by rewrite list_lookup_insert_ne by lia.
Qed.

Definition absent m (key : Z) : Prop :=
  forall i, 0 <= i < table_size m -> key_at (cells m) i <> 0 -> key_compare m key (key_at (cells m) i) <> 0.

(** Every slot that a search for [key] looks at is occupied. *)
Definition crowded m (key : Z) : Prop :=
  forall p, 0 <= p < table_size m -> 2 * dist (table_size m) (hashmap_calc_index m key) p < table_size m ->
    key_at (cells m) p <> 0.

(** What a search returns: the slot of the key, or for [find_empty] a slot the
    key may take; nothing when the key is not there and, for [find_empty],
    there is no slot for it. *)
Definition found m (key : Z) (fe : bool) (r : option Z) : Prop :=
  let h := hashmap_calc_index m key in
  match r with
  | Some i => 0 <= i < table_size m /\ 2 * dist (table_size m) h i < table_size m /\
      (forall p, 0 <= p < table_size m -> dist (table_size m) h p < dist (table_size m) h i -> key_at (cells m) p <> 0) /\
      (key_at (cells m) i <> 0 /\ key_compare m key (key_at (cells m) i) = 0 \/
       fe = true /\ key_at (cells m) i = 0 /\ absent m key)
  | None => absent m key /\ (fe = true -> crowded m key)
  end.

Lemma probe_loop_ok m `{KeyLaws m} key fe n x : table_ok m -> 0 <= x < table_size m ->
  let h := hashmap_calc_index m key in
  2 * (dist (table_size m) h x + Z.of_nat n) = table_size m ->
  (forall p, 0 <= p < table_size m -> dist (table_size m) h p < dist (table_size m) h x ->
     key_at (cells m) p <> 0 /\ key_compare m key (key_at (cells m) p) <> 0) ->
  exists r, probe_loop m key fe n x = Ok r /\ found m key fe r.
Proof.
  intros Hok Hx h. assert (0 <= h < table_size m) as Hh by (apply calc_index_range; apply Hok).
  assert (forall i, 0 <= i < table_size m -> key_at (cells m) i <> 0 -> key_compare m key (key_at (cells m) i) = 0 ->
    2 * dist (table_size m) h i < table_size m /\
    forall p, 0 <= p < table_size m -> dist (table_size m) h p < dist (table_size m) h i -> key_at (cells m) p <> 0) as Hplace.
  { intros i Hi Hk Hc. pose proof (to_place m Hok i Hi Hk) as Hp. cbv zeta in Hp.
    unfold hashmap_calc_index in *. rewrite <- (same_hash _ _ Hc) in Hp. exact Hp. }
  revert x Hx. induction n as [|n IH]; intros x Hx Hn Hprev; cbn [probe_loop].
  { exists None. split; [done|]. split.
    - intros i Hi Hk Hc. destruct (Hplace i Hi Hk Hc) as [Hd _]. apply (Hprev i Hi); [lia|done].
    - intros _ i Hi Hd. fold h in Hd. apply (Hprev i Hi). lia. }
  rewrite entry_at_some by done. fold (key_at (cells m) x). destruct (Z.eqb_spec (key_at (cells m) x) 0) as [E0|E0].
  - assert (absent m key) as Habs.
    { intros i Hi Hk Hc. destruct (Hplace i Hi Hk Hc) as [_ Hp].
      destruct (Z.lt_trichotomy (dist (table_size m) h i) (dist (table_size m) h x)) as [Hlt|[Heq|Hgt]].
      - by apply (Hprev i Hi Hlt).
      - assert (i = x) as -> by dlia. done.
      - by apply (Hp x Hx Hgt). }
    destruct fe; [exists (Some x)|exists None]; (split; [done|]); [|split; [done|discriminate]].
    split_and!; [lia..|dlia| |right; done]. intros p Hp Hlt. by apply Hprev.
  - destruct (Z.eqb_spec (key_compare m key (key_at (cells m) x)) 0) as [Ec|Ec].
    + exists (Some x). split; [done|]. split_and!; [lia..|dlia| |left; done]. intros p Hp Hlt. by apply Hprev.
    + rewrite probe_next by (done || apply Hok). destruct (size_bounds _ (to_size m Hok)) as [HN _].
      assert (0 <= (if x + 1 =? table_size m then 0 else x + 1) < table_size m) as Hx'
        by (destruct (Z.eqb_spec (x + 1) (table_size m)); lia).
      assert (dist (table_size m) h (if x + 1 =? table_size m then 0 else x + 1) = dist (table_size m) h x + 1) as Hd.
      { destruct (Z.eqb_spec (x + 1) (table_size m)); dlia. }
      apply IH; [done|lia|]. intros p Hp Hlt. rewrite Hd in Hlt.
      destruct (Z.eq_dec (dist (table_size m) h p) (dist (table_size m) h x)) as [E|E]; [|apply Hprev; [done|lia]].
      assert (p = x) as -> by dlia. done.
Qed.

Lemma find_ok m `{KeyLaws m} key fe : table_ok m -> exists r, hashmap_entry_find m key fe = Ok r /\ found m key fe r.
Proof.
  intros Hok. unfold hashmap_entry_find. destruct (size_bounds _ (to_size m Hok)) as [HN HN2].
  assert (0 <= hashmap_calc_index m key < table_size m) as Hh by (apply calc_index_range; apply Hok).
  apply (probe_loop_ok m key fe); [done|done| |].
  - unfold HASHMAP_PROBE_LEN. rewrite Z.shiftr_div_pow2 by lia. change (2 ^ 1) with 2. rewrite Z2Nat.id by lia. dlia.
  - intros p Hp Hlt. dlia.
Qed.

(** ** Contents *)

Definition has m (key d : Z) : Prop := exists i, 0 <= i < table_size m /\ key_at (cells m) i <> 0 /\
  key_compare m key (key_at (cells m) i) = 0 /\ data_at (cells m) i = d.

Lemma assoc_has m l key d : assoc m l key = Some d -> exists i, 0 <= i < Z.of_nat (length l) /\ key_at l i <> 0 /\
  key_compare m key (key_at l i) = 0 /\ data_at l i = d.
Proof.
  induction l as [|e l IH]; [done|]. cbn [assoc]. intros E.
  destruct (Z.eqb_spec (e_key e) 0) as [E0|E0], (Z.eqb_spec (key_compare m key (e_key e)) 0) as [Ec|Ec];
    cbn [negb andb] in E; try (destruct (IH E) as (i & Hi & H1 & H2 & H3); exists (i + 1);
      unfold key_at, data_at in *; replace (Z.to_nat (i + 1)) with (S (Z.to_nat i)) by lia; simpl; split_and!; (lia || done)).
  injection E as <-. exists 0. unfold key_at, data_at. simpl. split_and!; (lia || done).
Qed.

Lemma assoc_none m l key : assoc m l key = None -> forall i, 0 <= i < Z.of_nat (length l) -> key_at l i <> 0 ->
  key_compare m key (key_at l i) <> 0.
Proof.
  induction l as [|e l IH]; cbn [assoc]; intros E i Hi Hk; [simpl in Hi; lia|]. simpl length in Hi.
  destruct (Z.eqb_spec (e_key e) 0) as [E0|E0], (Z.eqb_spec (key_compare m key (e_key e)) 0) as [Ec|Ec];
    cbn [negb andb] in E; try done;
    (destruct (Z.eq_dec i 0) as [->|Hne]; [by unfold key_at in *|]);
    unfold key_at in *; replace (Z.to_nat i) with (S (Z.to_nat (i - 1))) in * by lia; simpl in *; apply IH; (done || lia).
Qed.

Lemma contents_has m `{KeyLaws m} key d : table_ok m -> contents m key = Some d <-> has m key d.
Proof.
  intros Hok. unfold contents, has. rewrite <- (to_len m Hok). split; [apply assoc_has|].
  intros (i & Hi & Hk & Hc & <-). rewrite (to_len m Hok) in Hi. destruct (assoc m (cells m) key) as [d|] eqn:E.
  - destruct (assoc_has _ _ _ _ E) as (j & Hj & Hkj & Hcj & <-). rewrite (to_len m Hok) in Hj.
    rewrite (to_uniq m Hok i j); try done. eapply same_trans; [apply same_sym; exact Hc|exact Hcj].
  - exfalso. rewrite <- (to_len m Hok) in Hi. by apply (assoc_none _ _ _ E i Hi Hk).
Qed.

Lemma contents_absent m `{KeyLaws m} key : table_ok m -> contents m key = None <-> absent m key.
Proof.
  intros Hok. split.
  - intros E i Hi. rewrite <- (to_len m Hok) in Hi. by apply (assoc_none _ _ _ E i Hi).
  - intros Habs. destruct (contents m key) as [d|] eqn:E; [|done]. exfalso.
    apply contents_has in E as (i & Hi & Hk & Hc & _); [|done|done]. by apply (Habs i Hi Hk).
Qed.

(** The contents with one key bound. *)
Definition bind_key m (key d : Z) (f : Z -> option Z) : Z -> option Z :=
  fun k => if key_compare m k key =? 0 then Some d else f k.

Lemma option_ext {B} (o o' : option B) : (forall b, o = Some b <-> o' = Some b) -> o = o'.
Proof. intros Hx. destruct o as [b|]; [symmetry; by apply Hx|]. destruct o' as [b|]; [by apply Hx|done]. Qed.

Lemma populated_insert l i e : key_at l i = 0 -> e_key e <> 0 -> 0 <= i < Z.of_nat (length l) ->
  length (populated (<[Z.to_nat i := e]> l)) = S (length (populated l)).
Proof.
  intros Hk He Hi. destruct (lookup_lt_is_Some_2 l (Z.to_nat i)) as [x Hx]; [lia|].
  rewrite <- (take_drop_middle l _ _ Hx) at 2. rewrite insert_take_drop by lia. unfold populated.
  rewrite !filter_app, !length_app, !filter_cons.
  assert (e_key x = 0) as E0 by (unfold key_at in Hk; by rewrite (nth_lookup_Some _ _ _ _ Hx) in Hk).
  destruct (decide (e_key e <> 0)); [|done]. destruct (decide (e_key x <> 0)); [done|]. simpl. lia.
Qed.

#[export] Instance with_cells_laws m l `{Hl : KeyLaws m} : KeyLaws (with_cells l m).
Proof. destruct Hl. by split. Qed.
#[export] Instance with_count_laws m n `{Hl : KeyLaws m} : KeyLaws (with_count n m).
Proof. destruct Hl. by split. Qed.
#[export] Instance with_table_laws m sz p l `{Hl : KeyLaws m} : KeyLaws (with_table sz p l m).
Proof. destruct Hl. by split. Qed.

(** A new entry in the slot a search for its key found. *)
Lemma insert_ok m `{KeyLaws m} key data i : table_ok m -> found m key true (Some i) -> key_at (cells m) i = 0 ->
  key <> 0 -> data <> 0 ->
  let m' := with_cells (<[Z.to_nat i := mk_entry key data]> (cells m)) m in
  table_ok m' /\ (forall k, contents m' k = bind_key m key data (contents m) k) /\
  length (populated (cells m')) = S (length (populated (cells m))).
Proof.
  intros Hok (Hi & Hd & Hchain & Hcase) Hk0 Hkey Hdata m'. destruct Hcase as [[? _]|(_ & _ & Habs)]; [done|].
  pose proof (to_len m Hok) as Hlen.
  assert (forall j, 0 <= j -> key_at (cells m') j = if j =? i then key else key_at (cells m) j) as Hka
    by (intros j Hj; apply key_at_insert; lia).
  assert (forall j, 0 <= j -> data_at (cells m') j = if j =? i then data else data_at (cells m) j) as Hda
    by (intros j Hj; apply data_at_insert; lia).
  assert (table_ok m') as Hok'.
  { split; [apply Hok| |apply Hok| | |].
    - unfold m'. cbn [cells with_cells table_size]. by rewrite length_insert.
    - change (table_size m') with (table_size m). intros j Hj. rewrite Hka by lia. cbv zeta.
      change (hashmap_calc_index m') with (hashmap_calc_index m).
      assert (forall p, 0 <= p < table_size m -> key_at (cells m) p <> 0 -> key_at (cells m') p <> 0) as Hgrow.
      { intros p Hp Hne. rewrite Hka by lia. by destruct (p =? i). }
      destruct (Z.eqb_spec j i) as [->|Hne]; intros Hkj.
      + split; [done|]. intros p Hp Hlt. apply Hgrow, Hchain; done.
      + destruct (to_place m Hok j Hj Hkj) as [H1 H2]. split; [done|]. intros p Hp Hlt. apply Hgrow, H2; done.
    - change (table_size m') with (table_size m). change (key_compare m') with (key_compare m).
      intros j1 j2 H1 H2. rewrite !Hka by lia.
      destruct (Z.eqb_spec j1 i) as [->|N1], (Z.eqb_spec j2 i) as [->|N2]; try done; intros K1 K2 Hc.
      + exfalso. by apply (Habs j2 H2 K2).
      + exfalso. apply (Habs j1 H1 K1). by apply same_sym.
      + by apply (to_uniq m Hok).
    - change (table_size m') with (table_size m). intros j Hj. rewrite Hka, Hda by lia.
      destruct (j =? i); [tauto|by apply (to_data m Hok)]. }
  split_and!; [done| |apply populated_insert; [done|done|lia]].
  intros k. apply option_ext. intros d. rewrite contents_has by apply _ || done. unfold has, bind_key.
  change (key_compare m') with (key_compare m). change (table_size m') with (table_size m).
  destruct (Z.eqb_spec (key_compare m k key) 0) as [Ec|Ec].
  - split.
    + intros (j & Hj & Hkj & Hc & <-). rewrite Hka in Hkj, Hc by lia. rewrite Hda by lia.
      destruct (Z.eqb_spec j i); [done|]. exfalso. apply (Habs j Hj Hkj). eapply same_trans; [apply same_sym; exact Ec|exact Hc].
    + intros [= <-]. exists i. rewrite Hka, Hda, Z.eqb_refl by lia. done.
  - rewrite contents_has by done. split; intros (j & Hj & Hkj & Hc & Hdj); exists j.
    + rewrite Hka in Hkj, Hc by lia. rewrite Hda in Hdj by lia. by destruct (Z.eqb_spec j i).
    + assert (j <> i) as Hne by (by intros ->). apply Z.eqb_neq in Hne. rewrite Hka, Hda, Hne by lia. done.
Qed.

(** ** Counting *)

(** Distinct occupied slots are distinct entries. *)
Lemma populated_slots l ps : NoDup ps -> (forall p, p ∈ ps -> 0 <= p < Z.of_nat (length l) /\ key_at l p <> 0) ->
  (length ps <= length (populated l))%nat.
Proof.
  revert ps. induction l as [|e l IH] using rev_ind; intros ps Hnd Hps.
  - destruct ps as [|p ps]; [simpl; lia|]. destruct (Hps p ltac:(constructor)) as [Hp _]. simpl in Hp. lia.
  - set (ps' := filter (fun p => p < Z.of_nat (length l)) ps).
    assert (length ps' <= length (populated l))%nat as Hl.
    { apply IH; [by apply NoDup_filter|]. intros p [Hlt Hp]%list_elem_of_filter. destruct (Hps p Hp) as [Hr Hk].
      split; [lia|]. unfold key_at in *. rewrite app_nth1 in Hk by lia. done. }
    unfold populated. rewrite filter_app, length_app. fold (populated l).
    destruct (decide (Z.of_nat (length l) ∈ ps)) as [Hin|Hout].
    + assert (filter (fun e => e_key e <> 0) [e] = [e]) as ->.
      { rewrite filter_cons, decide_True; [done|]. destruct (Hps _ Hin) as [_ Hk]. unfold key_at in Hk.
        by rewrite Nat2Z.id, nth_middle in Hk. }
      assert (length ps <= length (Z.of_nat (length l) :: ps'))%nat; [|simpl in *; lia].
      apply submseteq_length, NoDup_submseteq; [done|]. intros p Hp. destruct (Hps p Hp) as [Hr _].
      rewrite length_app in Hr. simpl in Hr. destruct (Z.eq_dec p (Z.of_nat (length l))) as [->|]; [constructor|].
      right. apply list_elem_of_filter. split; [lia|done].
    + assert (length ps <= length ps')%nat; [|lia]. apply submseteq_length, NoDup_submseteq; [done|].
      intros p Hp. destruct (Hps p Hp) as [Hr _]. rewrite length_app in Hr. simpl in Hr.
      apply list_elem_of_filter. split; [|done]. destruct (Z.eq_dec p (Z.of_nat (length l))) as [->|]; [done|lia].
Qed.

(** The slot [j] places after [a]. *)
Definition slot (N a j : Z) : Z := if a + j <? N then a + j else a + j - N.

(** Only half a table of entries keeps a search from finding a slot. *)
Lemma crowded_count m key : table_ok m -> crowded m key -> table_size m <= 2 * Z.of_nat (length (populated (cells m))).
Proof.
  intros Hok Hc. destruct (size_bounds _ (to_size _ Hok)) as [HN HN2].
  assert (0 <= hashmap_calc_index m key < table_size m) as Hh by (apply calc_index_range; apply Hok).
  set (h := hashmap_calc_index m key) in *. set (N := table_size m) in *.
  pose proof (populated_slots (cells m) (slot N h <$> seqZ 0 (N / 2))) as H. rewrite length_fmap, length_seqZ in H.
  enough (Z.to_nat (N / 2) <= length (populated (cells m)))%nat by lia. apply H.
  - apply NoDup_fmap_2_strong; [|apply NoDup_seqZ]. intros a b Ha%elem_of_seqZ Hb%elem_of_seqZ E. unfold slot in E.
    destruct (Z.ltb_spec (h + a) N), (Z.ltb_spec (h + b) N); lia.
  - intros p (j & -> & Hj%elem_of_seqZ)%list_elem_of_fmap. rewrite (to_len m Hok). fold N.
    assert (0 <= slot N h j < N) as Hr by (unfold slot; destruct (Z.ltb_spec (h + j) N); lia). split; [done|].
    apply Hc; [done|]. fold h N. unfold slot in *. destruct (Z.ltb_spec (h + j) N); dlia.
Qed.

(** ** Rehashing *)

(** The entries of a well-formed table, as a list. *)
Record entries_ok m (l : list hashmap_entry) : Prop := {
  eo_uniq : forall i j e e', l !! i = Some e -> l !! j = Some e' -> e_key e <> 0 -> e_key e' <> 0 ->
    key_compare m (e_key e) (e_key e') = 0 -> i = j;
  eo_data : forall i e, l !! i = Some e -> e_key e = 0 <-> e_data e = 0 }.

Lemma table_entries m : table_ok m -> entries_ok m (cells m).
Proof.
  intros Hok. pose proof (to_len m Hok) as Hlen.
  assert (forall i e, cells m !! i = Some e -> 0 <= Z.of_nat i < table_size m /\
    key_at (cells m) (Z.of_nat i) = e_key e /\ data_at (cells m) (Z.of_nat i) = e_data e) as Hat.
  { intros i e Hi. pose proof (lookup_lt_Some _ _ _ Hi). unfold key_at, data_at. rewrite Nat2Z.id.
    rewrite (nth_lookup_Some _ _ _ _ Hi). split_and!; (lia || done). }
  split.
  - intros i j e e' Hi Hj Hk Hk' Hc. destruct (Hat i e Hi) as (R1 & K1 & _), (Hat j e' Hj) as (R2 & K2 & _).
    apply Nat2Z.inj. apply (to_uniq m Hok); congruence || done.
  - intros i e Hi. destruct (Hat i e Hi) as (R1 & K1 & D1). rewrite <- K1, <- D1. by apply (to_data m Hok).
Qed.

Lemma assoc_app m l l' k : assoc m (l ++ l') k = match assoc m l k with Some d => Some d | None => assoc m l' k end.
Proof. induction l as [|e l IH]; [done|]. simpl. by destruct (_ && _). Qed.

Lemma assoc_ext m m' l k : key_compare m = key_compare m' -> assoc m l k = assoc m' l k.
Proof. intros E. induction l as [|e l IH]; [done|]. simpl. by rewrite E, IH. Qed.

(** [m] holds exactly the entries of [l]. *)
Definition holds m (l : list hashmap_entry) : Prop :=
  (forall k, contents m k = assoc m l k) /\ length (populated (cells m)) = length (populated l).

Lemma rehash_loop_ok old : forall m `{KeyLaws m} pre, table_ok m -> entries_ok m (pre ++ old) -> holds m pre ->
  exists r, rehash_loop old m = Ok r /\
    match r with Some m' => table_ok m' /\ holds m' (pre ++ old) /\ (exists l, m' = with_cells l m)
    | None => table_size m < 2 * Z.of_nat (length (populated (pre ++ old))) end.
Proof.
  induction old as [|e old IH]; intros m Hlaws pre Hok He [Hc Hn]; cbn [rehash_loop].
  { exists (Some m). split; [done|]. rewrite app_nil_r. split_and!; [done|done|]. exists (cells m). by destruct m. }
  assert ((pre ++ e :: old) !! length pre = Some e) as Hlk by by rewrite lookup_app_r, Nat.sub_diag by lia.
  assert (pre ++ e :: old = (pre ++ [e]) ++ old) as Eapp by by rewrite <- app_assoc.
  destruct (Z.eqb_spec (e_data e) 0) as [E0|E0].
  - apply (eo_data _ _ He _ _ Hlk) in E0. rewrite Eapp in *. apply IH; [done|done|done|]. split.
    + intros k. rewrite Hc, assoc_app. simpl. rewrite E0. simpl. by destruct (assoc m pre k).
    + rewrite Hn. unfold populated. rewrite filter_app, filter_cons, decide_False by tauto. by rewrite app_nil_r.
  - assert (e_key e <> 0) as Hk0 by (intros E; by apply (eo_data _ _ He _ _ Hlk) in E).
    assert (forall k, key_compare m k (e_key e) = 0 -> assoc m pre k = None) as Hnone.
    { intros k Hk. destruct (assoc m pre k) as [d|] eqn:E; [|done]. exfalso.
      destruct (assoc_has _ _ _ _ E) as (i & Hi & Hki & Hci & _).
      destruct (lookup_lt_is_Some_2 pre (Z.to_nat i)) as [x Hx]; [lia|].
      assert (Z.to_nat i = length pre); [|lia]. unfold key_at in Hki, Hci. rewrite (nth_lookup_Some _ _ _ _ Hx) in Hki, Hci.
      eapply (eo_uniq _ _ He _ _ x e); [by apply lookup_app_l_Some|exact Hlk|done|done|].
      eapply same_trans; [apply same_sym; exact Hci|exact Hk]. }
    destruct (find_ok m (e_key e) true Hok) as (r & -> & Hf). destruct r as [i|].
    2:{ exists None. split; [done|]. destruct Hf as [_ Hcr]. pose proof (crowded_count _ _ Hok (Hcr eq_refl)) as Hcount.
        rewrite Hn in Hcount. unfold populated in *. rewrite filter_app, filter_cons, decide_True by done.
        rewrite length_app. simpl. lia. }
    destruct (id Hf) as (Hi & _ & _ & Hcase).
    assert (key_at (cells m) i = 0) as Hki.
    { destruct Hcase as [[Hki Hci]|(_ & ? & _)]; [|done]. exfalso.
      assert (contents m (e_key e) = Some (data_at (cells m) i)) as Hs by (apply contents_has; [done|done|]; by exists i).
      rewrite Hc, Hnone in Hs by apply same_refl. done. }
    destruct (insert_ok m (e_key e) (e_data e) i Hok Hf Hki Hk0 E0) as (Hok' & Hc' & Hn').
    set (m1 := with_cells _ m) in *. rewrite Eapp in *.
    destruct (IH m1 _ (pre ++ [e])) as (r & Er & Hr); [done|by destruct He as [Hu Hd]; split| |].
    { split.
      - intros k. rewrite Hc'. unfold bind_key. rewrite Hc, (assoc_ext m1 m) by done. rewrite assoc_app. simpl.
        rewrite (proj2 (Z.eqb_neq _ _) Hk0). simpl.
        destruct (Z.eqb_spec (key_compare m k (e_key e)) 0) as [Ek|Ek]; [by rewrite (Hnone _ Ek)|by destruct (assoc m pre k)].
      - rewrite Hn', Hn. unfold populated. rewrite filter_app, filter_cons, decide_True by done. rewrite length_app. simpl. lia. }
    exists r. split; [done|]. destruct r as [m'|]; [|done]. destruct Hr as (? & ? & l & ->). split_and!; [done|done|].
    exists l. by destruct m.
Qed.
End invariant.

(** ** Removal *)

Section removal.
Context {A : Type} (m : hashmap A) `{KeyLaws A m}.
#[local] Abbreviation N := (table_size m).
#[local] Abbreviation home k := (hashmap_calc_index m k).
Context (Hsize : pow2_size N) (Hhash : forall k, is_u32 (hash m k)).

Definition has_in (l : list hashmap_entry) (key d : Z) : Prop := exists i, 0 <= i < N /\ key_at l i <> 0 /\
  key_compare m key (key_at l i) = 0 /\ data_at l i = d.

(** [L] is the table with its hole at [a] cleared, [x] the index the scan has
    reached: chains may be broken at [a] only, by entries the scan has not
    passed; [e] is an empty slot ahead, at most half a table from the hole. *)
Record scanning (L : list hashmap_entry) (a x e : Z) : Prop := {
  sc_range : 0 <= a < N /\ 0 <= x < N /\ 0 <= e < N;
  sc_len : Z.of_nat (length L) = N;
  sc_hole : key_at L a = 0 /\ data_at L a = 0;
  sc_empty : key_at L e = 0 /\ a <> e;
  sc_ahead : 1 <= dist N a x <= dist N a e /\ 2 * dist N a e <= N;
  sc_chain : forall i, 0 <= i < N -> key_at L i <> 0 -> 2 * dist N (home (key_at L i)) i < N /\
    forall p, 0 <= p < N -> dist N (home (key_at L i)) p < dist N (home (key_at L i)) i -> p <> a -> key_at L p <> 0;
  sc_later : forall i, 0 <= i < N -> key_at L i <> 0 ->
    dist N (home (key_at L i)) a < dist N (home (key_at L i)) i -> dist N a x <= dist N a i;
  sc_between : forall p, 0 <= p < N -> p <> a -> dist N a p < dist N a x -> key_at L p <> 0;
  sc_uniq : forall i j, 0 <= i < N -> 0 <= j < N -> key_at L i <> 0 -> key_at L j <> 0 ->
    key_compare m (key_at L i) (key_at L j) = 0 -> i = j;
  sc_data : forall i, 0 <= i < N -> key_at L i = 0 <-> data_at L i = 0 }.

Lemma home_range k : 0 <= home k < N.
Proof. by apply calc_index_range. Qed.

(** The scan stops at an empty slot: the chains are whole. *)
Lemma scanning_done L a x e : scanning L a x e -> key_at L x = 0 -> forall i, 0 <= i < N -> key_at L i <> 0 ->
  forall p, 0 <= p < N -> dist N (home (key_at L i)) p < dist N (home (key_at L i)) i -> key_at L p <> 0.
Proof.
  intros Hs Hx i Hi Hk p Hp Hlt. destruct (sc_range _ _ _ _ Hs) as (Ra & Rx & Re). destruct (sc_ahead _ _ _ _ Hs) as [Hax _].
  destruct (sc_chain _ _ _ _ Hs i Hi Hk) as [_ Hch]. destruct (Z.eq_dec p a) as [->|Hne]; [|by apply Hch].
  exfalso. pose proof (sc_later _ _ _ _ Hs i Hi Hk Hlt) as Hlate. pose proof (home_range (key_at L i)) as Hh.
  assert (i <> x) by (intros ->; done).
  apply (Hch x Rx); [|dlia|done]. set (h := home (key_at L i)) in *. clearbody h. dlia.
Qed.

(** Whether the entry at [x] may move into the hole. *)
Lemma le_moves L a x e : scanning L a x e -> key_at L x <> 0 ->
  HASHMAP_INDEX_LE m a (home (key_at L x)) = true <->
  dist N (home (key_at L x)) a < dist N (home (key_at L x)) x.
Proof.
  intros Hs Hk. destruct (sc_range _ _ _ _ Hs) as (Ra & Rx & Re). destruct (sc_ahead _ _ _ _ Hs) as [Hax Hae].
  destruct (sc_empty _ _ _ _ Hs) as [He _]. pose proof (home_range (key_at L x)) as Hh.
  destruct (sc_chain _ _ _ _ Hs x Rx Hk) as [Hd _]. assert (x <> e) as Hxe by (intros ->; done).
  rewrite index_le by done. set (h := home (key_at L x)) in *. clearbody h.
  rewrite orb_true_iff, Z.eqb_eq, Z.leb_le. split; [intros [?|?]|intros ?]; dlia.
Qed.

Definition next (x : Z) : Z := if x + 1 =? N then 0 else x + 1.

Lemma next_range x : 0 <= x < N -> 0 <= next x < N.
Proof. intros Hx. unfold next. destruct (Z.eqb_spec (x + 1) N); lia. Qed.

(** The entry at [x] stays. *)
Lemma scanning_skip L a x e : scanning L a x e -> key_at L x <> 0 ->
  ~ dist N (home (key_at L x)) a < dist N (home (key_at L x)) x -> scanning L a (next x) e.
Proof.
  intros Hs Hk Hno. destruct (sc_range _ _ _ _ Hs) as (Ra & Rx & Re). destruct (sc_ahead _ _ _ _ Hs) as [Hax Hae].
  destruct (sc_empty _ _ _ _ Hs) as [He Hea]. assert (x <> e) as Hxe by (intros ->; done).
  destruct (size_bounds _ Hsize) as [HN _].
  assert (dist N a (next x) = dist N a x + 1) as Hd.
  { unfold next. destruct (Z.eqb_spec (x + 1) N); dlia. }
  split; try apply Hs.
  - pose proof (next_range x Rx). done.
  - rewrite Hd. split; [|done]. dlia.
  - intros i Hi Hki Hlt. rewrite Hd. pose proof (sc_later _ _ _ _ Hs i Hi Hki Hlt).
    assert (i <> x) by (intros ->; done). dlia.
  - intros p Hp Hpa Hlt. rewrite Hd in Hlt. destruct (Z.eq_dec p x) as [->|Hne]; [done|].
    apply (sc_between _ _ _ _ Hs p Hp Hpa). dlia.
Qed.

(** The entry at [x] moves into the hole, and leaves one behind. *)
Definition moved (L : list hashmap_entry) (a x : Z) : list hashmap_entry :=
  <[Z.to_nat x := empty_entry]> (<[Z.to_nat a := nth (Z.to_nat x) L empty_entry]> L).

Lemma moved_at L a x e : scanning L a x e -> forall j, 0 <= j ->
  key_at (moved L a x) j = (if j =? x then 0 else if j =? a then key_at L x else key_at L j) /\
  data_at (moved L a x) j = (if j =? x then 0 else if j =? a then data_at L x else data_at L j).
Proof.
  intros Hs j Hj. destruct (sc_range _ _ _ _ Hs) as (Ra & Rx & Re). pose proof (sc_len _ _ _ _ Hs). unfold moved.
  rewrite !key_at_insert, !data_at_insert by (rewrite ?length_insert; lia). done.
Qed.

Lemma scanning_move L a x e : scanning L a x e -> key_at L x <> 0 ->
  dist N (home (key_at L x)) a < dist N (home (key_at L x)) x -> scanning (moved L a x) x (next x) e.
Proof.
  intros Hs Hk Hmv. destruct (sc_range _ _ _ _ Hs) as (Ra & Rx & Re). destruct (sc_ahead _ _ _ _ Hs) as [Hax Hae].
  destruct (sc_empty _ _ _ _ Hs) as [He Hea]. assert (x <> e) as Hxe by (intros ->; done).
  assert (x <> a) as Hxa by dlia. destruct (size_bounds _ Hsize) as [HN _].
  pose proof (moved_at L a x e Hs) as Hat.
  assert (forall j, 0 <= j -> key_at (moved L a x) j = if j =? x then 0 else if j =? a then key_at L x else key_at L j) as Hka
    by (intros j Hj; apply Hat; lia).
  assert (forall p, 0 <= p < N -> p <> x -> p = a \/ key_at L p <> 0 -> key_at (moved L a x) p <> 0) as Hgrow.
  { intros p Hp Hpx Hor. rewrite Hka by lia. rewrite (proj2 (Z.eqb_neq p x) Hpx). destruct (Z.eqb_spec p a); [done|].
    by destruct Hor. }
  split.
  - pose proof (next_range x Rx). done.
  - unfold moved. rewrite !length_insert. apply Hs.
  - destruct (Hat x ltac:(lia)) as [-> ->]. by rewrite Z.eqb_refl.
  - destruct (Hat e ltac:(lia)) as [-> _]. rewrite (proj2 (Z.eqb_neq e x)), (proj2 (Z.eqb_neq e a)) by lia. done.
  - unfold next. destruct (Z.eqb_spec (x + 1) N); dlia.
  - intros i Hi Hki. rewrite Hka in * by lia. destruct (Z.eqb_spec i x) as [|Hix]; [done|].
    destruct (Z.eqb_spec i a) as [->|Hia].
    + destruct (sc_chain _ _ _ _ Hs x Rx Hk) as [Hd Hch]. split; [lia|].
      intros p Hp Hlt Hpx. apply Hgrow; [done|done|]. destruct (Z.eq_dec p a); [by left|]. right. apply Hch; [done|lia|done].
    + destruct (sc_chain _ _ _ _ Hs i Hi Hki) as [Hd Hch]. split; [done|].
      intros p Hp Hlt Hpx. apply Hgrow; [done|done|]. destruct (Z.eq_dec p a); [by left|]. right. by apply Hch.
  - intros i Hi Hki _. rewrite Hka in Hki by lia. destruct (Z.eqb_spec i x) as [|Hix]; [done|].
    unfold next. destruct (Z.eqb_spec (x + 1) N); dlia.
  - intros p Hp Hpx Hlt. exfalso. unfold next in Hlt. destruct (Z.eqb_spec (x + 1) N); dlia.
  - intros i j Hi Hj. rewrite !Hka by lia.
    destruct (Z.eqb_spec i x), (Z.eqb_spec j x); try done.
    destruct (Z.eqb_spec i a) as [->|], (Z.eqb_spec j a) as [->|]; intros Ki Kj Hc; try done.
    + pose proof (sc_uniq _ _ _ _ Hs x j Rx Hj Ki Kj Hc). congruence.
    + pose proof (sc_uniq _ _ _ _ Hs i x Hi Rx Ki Kj Hc). congruence.
    + by apply (sc_uniq _ _ _ _ Hs).
  - intros i Hi. destruct (Hat i ltac:(lia)) as [-> ->].
    destruct (i =? x); [done|]. destruct (i =? a); by apply (sc_data _ _ _ _ Hs).
Qed.

Lemma moved_has L a x e k d : scanning L a x e -> key_at L x <> 0 -> has_in (moved L a x) k d <-> has_in L k d.
Proof.
  intros Hs Hk. destruct (sc_range _ _ _ _ Hs) as (Ra & Rx & Re). destruct (sc_hole _ _ _ _ Hs) as [Hh _].
  pose proof (moved_at L a x e Hs) as Hat. split; intros (i & Hi & Hki & Hc & Hd).
  - destruct (Hat i ltac:(lia)) as [E1 E2]. rewrite E1 in Hki, Hc. rewrite E2 in Hd.
    destruct (Z.eqb_spec i x); [done|]. destruct (Z.eqb_spec i a); [by exists x|by exists i].
  - assert (a <> x) as Hax by (intros ->; done). assert (i <> a) as Hia by (intros ->; done).
    destruct (Z.eq_dec i x) as [->|Hix].
    + exists a. destruct (Hat a ltac:(lia)) as [-> ->]. rewrite (proj2 (Z.eqb_neq a x) Hax), Z.eqb_refl. done.
    + exists i. destruct (Hat i ltac:(lia)) as [-> ->].
      rewrite (proj2 (Z.eqb_neq i x) Hix), (proj2 (Z.eqb_neq i a) Hia). done.
Qed.

Lemma populated_clear l i : key_at l i <> 0 -> 0 <= i < Z.of_nat (length l) ->
  length (populated l) = S (length (populated (<[Z.to_nat i := empty_entry]> l))).
Proof.
  intros Hk Hi. destruct (lookup_lt_is_Some_2 l (Z.to_nat i)) as [x Hx]; [lia|].
  rewrite <- (take_drop_middle l _ _ Hx) at 1. rewrite insert_take_drop by lia. unfold populated.
  rewrite !filter_app, !length_app, !filter_cons.
  unfold key_at in Hk. rewrite (nth_lookup_Some _ _ _ _ Hx) in Hk.
  destruct (decide (e_key x <> 0)); [|done]. destruct (decide (e_key empty_entry <> 0)); [done|]. simpl. lia.
Qed.

Lemma moved_populated L a x e : scanning L a x e -> key_at L x <> 0 ->
  length (populated (moved L a x)) = length (populated L).
Proof.
  intros Hs Hk. destruct (sc_range _ _ _ _ Hs) as (Ra & Rx & Re). destruct (sc_hole _ _ _ _ Hs) as [Hh _].
  pose proof (sc_len _ _ _ _ Hs). assert (x <> a) as Hax by (intros ->; done).
  assert (length (populated (<[Z.to_nat a := nth (Z.to_nat x) L empty_entry]> L)) = S (length (populated L))) as E1
    by (apply populated_insert; [done|done|lia]).
  pose proof (populated_clear (<[Z.to_nat a := nth (Z.to_nat x) L empty_entry]> L) x) as E2.
  rewrite key_at_insert in E2 by lia. rewrite (proj2 (Z.eqb_neq x a) Hax) in E2.
  specialize (E2 Hk ltac:(rewrite length_insert; lia)). unfold moved. lia.
Qed.

(** What the loop leaves once the last hole is cleared. *)
Definition closed (L L' : list hashmap_entry) : Prop :=
  Z.of_nat (length L') = N /\
  (forall i, 0 <= i < N -> key_at L' i <> 0 -> 2 * dist N (home (key_at L' i)) i < N /\
     forall p, 0 <= p < N -> dist N (home (key_at L' i)) p < dist N (home (key_at L' i)) i -> key_at L' p <> 0) /\
  (forall i j, 0 <= i < N -> 0 <= j < N -> key_at L' i <> 0 -> key_at L' j <> 0 ->
     key_compare m (key_at L' i) (key_at L' j) = 0 -> i = j) /\
  (forall i, 0 <= i < N -> key_at L' i = 0 <-> data_at L' i = 0) /\
  (forall k d, has_in L' k d <-> has_in L k d) /\ length (populated L') = length (populated L).

Lemma remove_loop_ok n l a x e : scanning (<[Z.to_nat a := empty_entry]> l) a x e -> dist N x e <= Z.of_nat n ->
  exists a' l', remove_loop m n x a l = Ok (a', l') /\
    closed (<[Z.to_nat a := empty_entry]> l) (<[Z.to_nat a' := empty_entry]> l').
Proof.
  assert (forall L a x e, scanning L a x e -> key_at L x = 0 -> closed L L) as Hdone.
  { intros L a' x' e' Hs Hx. split_and!; try done; [apply Hs| |apply Hs|apply Hs].
    intros i Hi Hk. split; [by apply (sc_chain _ _ _ _ Hs i)|by apply (scanning_done L a' x' e')]. }
  revert l a x. induction n as [|n IH]; intros l a x Hs Hn.
  all: set (L := <[Z.to_nat a := empty_entry]> l) in *.
  all: destruct (sc_range _ _ _ _ Hs) as (Ra & Rx & Re); destruct (sc_ahead _ _ _ _ Hs) as [Hax Hae];
    destruct (sc_empty _ _ _ _ Hs) as [He Hea].
  { assert (x = e) as -> by dlia. exists a, l. split; [done|]. by eapply Hdone. }
  assert (x <> a) as Hxa by dlia. pose proof (sc_len _ _ _ _ Hs) as Hlen.
  assert (l !! Z.to_nat x = Some (nth (Z.to_nat x) L empty_entry)) as Hlk.
  { destruct (lookup_lt_is_Some_2 L (Z.to_nat x)) as [y Hy]; [lia|]. rewrite (nth_lookup_Some _ _ _ _ Hy).
    unfold L in Hy. by rewrite list_lookup_insert_ne in Hy by lia. }
  cbn [remove_loop]. rewrite Hlk. fold (key_at L x).
  destruct (Z.eqb_spec (key_at L x) 0) as [E0|E0]; [exists a, l; split; [done|]; by eapply Hdone|].
  assert (x <> e) as Hxe by (intros ->; done). rewrite probe_next by done. fold (next x).
  assert (dist N (next x) e <= Z.of_nat n) as Hn' by (unfold next; destruct (Z.eqb_spec (x + 1) N); dlia).
  pose proof (le_moves L a x e Hs E0) as Hle.
  destruct (HASHMAP_INDEX_LE m a (home (key_at L x))).
  - assert (<[Z.to_nat x := empty_entry]> (<[Z.to_nat a := nth (Z.to_nat x) L empty_entry]> l) = moved L a x) as El.
    { unfold moved, L. by rewrite list_insert_insert_eq. }
    destruct (IH (<[Z.to_nat a := nth (Z.to_nat x) L empty_entry]> l) x (next x)) as (a' & l' & E & Hc);
      [rewrite El; apply scanning_move; [done|done|by apply Hle]|done|].
    rewrite El in Hc. exists a', l'. split; [done|]. destruct Hc as (? & ? & ? & ? & Hh & Hp). split_and!; try done.
    + intros k d. rewrite Hh. by eapply moved_has.
    + rewrite Hp. by eapply moved_populated.
  - apply (IH l a (next x)); [|done]. apply scanning_skip; [done|done|]. intros Hlt. by apply Hle in Hlt.
Qed.
End removal.

(** ** The operations on a state *)

Section correct.
Context {A : Type} `{AllocLaws A}.
Implicit Types (m : hashmap A) (s : hst A).

Lemma empty_table_ok m sz p : pow2_size sz -> (forall k, is_u32 (hash m k)) ->
  let m' := with_table sz p (replicate (Z.to_nat sz) empty_entry) m in table_ok m' /\ holds m' [].
Proof.
  intros Hs Hh m'. destruct (size_bounds _ Hs) as [HN _].
  assert (forall i, nth i (cells m') empty_entry = empty_entry) as Hnth by
    (intros i; rewrite nth_lookup; destruct (cells m' !! i) as [e|] eqn:E; [by apply lookup_replicate in E as [-> _]|done]).
  split; [split|split].
  - done.
  - simpl. rewrite length_replicate. lia.
  - done.
  - intros i Hi Hk. unfold key_at in Hk. by rewrite Hnth in Hk.
  - intros i j Hi Hj Hk. unfold key_at in Hk. by rewrite Hnth in Hk.
  - intros i Hi. unfold key_at, data_at. by rewrite Hnth.
  - intros k. change (assoc m' (replicate (Z.to_nat sz) empty_entry) k = None). clear. clearbody m'. induction (Z.to_nat sz) as [|n IH]; [done|]. exact IH.
  - simpl. clear. induction (Z.to_nat sz) as [|n IH]; [done|]. unfold populated in *. simpl replicate.
    rewrite filter_cons, decide_False by tauto. done.
Qed.

(** A well-formed map whose table is a live block. *)
Definition valid (L : list Z) s : Prop := map_ok (hm s) /\ live (heap s) (table (hm s) :: L).

Lemma on_alloc_ok {B} (f : M A B) s b a : f (heap s) = Ok (b, a) -> on_heap f s = Ok (b, with_heap a s).
Proof. apply zoom_ok. Qed.

Lemma with_table_self m : with_table (table_size m) (table m) (cells m) m = m.
Proof. by destruct m. Qed.

Lemma populated_le m : table_ok m -> Z.of_nat (length (populated (cells m))) <= table_size m.
Proof.
  intros Hok. rewrite <- (to_len m Hok). assert (length (populated (cells m)) <= length (cells m))%nat by apply length_filter. lia.
Qed.

Lemma hashmap_rehash_ok L s sz `{KeyLaws A (hm s)} : valid L s -> pow2_size sz ->
  exists rc s', hashmap_rehash sz s = Ok (rc, s') /\ valid L s' /\
    (exists sz' p l, hm s' = with_table sz' p l (hm s) /\ (rc < 0 /\ hm s' = hm s /\
      (2 * table_size (hm s) <= sz -> exists a', alloc_zeroed sz sizeof_entry (heap s) = Ok (0, a')) \/ rc = 0 /\ sz' = sz)) /\
    forall k, contents (hm s') k = contents (hm s) k.
Proof.
  intros [[Hok Hn] Hl] Hsz. unfold hashmap_rehash.
  destruct (alloc_law (heap s) _ sz sizeof_entry Hl) as (p & a1 & E1 & Hp).
  rewrite (bind_step _ _ _ _ _ (on_alloc_ok _ _ _ _ E1)). destruct Hp as [[-> Hl1]|[Hp Hl1]].
  { exists (- ENOMEM), (with_heap a1 s). split; [done|]. split; [done|]. split; [|done].
    exists (table_size (hm s)), (table (hm s)), (cells (hm s)). split; [by rewrite with_table_self|]. left. split_and!; [done|done|eauto]. }
  rewrite (proj2 (Z.eqb_neq p 0) Hp). rewrite (bind_step _ _ _ (hm s) _) by done. cbv zeta.
  destruct (empty_table_ok (hm s) sz p Hsz (to_hash _ Hok)) as [Hok0 Hh0].
  set (m0 := with_table sz p _ (hm s)) in *.
  destruct (rehash_loop_ok (cells (hm s)) m0 []) as (r & Er & Hr);
    [done|by destruct (table_entries _ Hok); split|done|].
  rewrite (bind_step _ _ _ r (with_heap a1 s)) by (unfold mlift; by rewrite Er). destruct r as [m'|].
  - destruct Hr as (Hok' & [Hc Hn'] & l & ->). simpl app in *.
    destruct (release_law a1 (p :: L) (table (hm s))) as (a2 & E2 & Hl2); [by eapply live_perm; [|exact Hl1]; constructor|].
    rewrite (bind_step _ _ _ tt (mk_hst (with_cells l m0) a1)) by done.
    rewrite (bind_step _ _ _ tt (mk_hst (with_cells l m0) a2)) by exact (on_alloc_ok _ (mk_hst (with_cells l m0) a1) _ _ E2).
    exists 0, (mk_hst (with_cells l m0) a2). split; [done|]. split_and!.
    + split; [split; [done|]|done]. change (num_entries (hm s) = Z.of_nat (length (populated (cells (with_cells l m0))))).
      by rewrite Hn', Hn.
    + exists sz, p, l. split; [done|]. by right.
    + intros k. simpl hm. rewrite Hc. by apply assoc_ext.
  - destruct (release_law a1 (table (hm s) :: L) p Hl1) as (a2 & E2 & Hl2).
    rewrite with_table_self. rewrite (bind_step _ _ _ tt (mk_hst (hm s) a1)) by done.
    rewrite (bind_step _ _ _ tt (mk_hst (hm s) a2)) by exact (on_alloc_ok _ (mk_hst (hm s) a1) _ _ E2).
    exists (- EINVAL), (mk_hst (hm s) a2). split; [done|]. split; [done|]. split; [|done].
    exists (table_size (hm s)), (table (hm s)), (cells (hm s)). split; [by rewrite with_table_self|]. left.
    split_and!; [done|done|]. intros Hbig. exfalso. change (table_size m0) with sz in Hr. simpl app in Hr.
    pose proof (populated_le _ Hok). lia.
Qed.

(** What a put leaves: a bound key keeps its data; a new key is bound, or, for
    the reason [fail], the map is as it was. *)
Definition put_result (fail : Prop) (key data r : Z) (m m' : hashmap A) : Prop :=
  match contents m key with
  | Some d => r = d /\ forall k, contents m' k = contents m k
  | None => r = data /\ (forall k, contents m' k = bind_key m key data (contents m) k) \/
            r = 0 /\ fail /\ forall k, contents m' k = contents m k
  end.

Lemma put_entry_ok L s key data i `{KeyLaws A (hm s)} : valid L s -> found (hm s) key true (Some i) ->
  key_alloc (hm s) = None -> key <> 0 -> data <> 0 ->
  exists r s', put_entry key data i s = Ok (r, s') /\ valid L s' /\ put_result False key data r (hm s) (hm s') /\
    (exists n l, hm s' = with_count n (with_cells l (hm s))).
Proof.
  intros [[Hok Hn] Hl] Hf Hka Hkey Hdata. destruct (id Hf) as (Hi & _ & _ & Hcase). unfold put_entry.
  rewrite (bind_step _ _ _ (hm s) s) by done.
  rewrite (bind_step _ _ _ (nth (Z.to_nat i) (cells (hm s)) empty_entry) s) by (apply deref_some; by apply entry_at_some).
  fold (key_at (cells (hm s)) i) (data_at (cells (hm s)) i). unfold put_result.
  destruct (Z.eqb_spec (key_at (cells (hm s)) i) 0) as [E0|E0].
  - destruct Hcase as [[? _]|(_ & _ & Habs)]; [done|]. rewrite Hka. rewrite (bind_step _ _ _ (Some key) s) by done.
    destruct (insert_ok (hm s) key data i Hok Hf E0 Hkey Hdata) as (Hok' & Hc & Hpop).
    rewrite (proj2 (contents_absent _ _ Hok) Habs).
    eexists data, _. split; [reflexivity|]. split_and!.
    + split; [|done]. split; [by destruct Hok'|]. cbn [hm with_map with_count num_entries cells]. rewrite Hpop, Hn.
      pose proof (size_bounds _ (to_size _ Hok)). pose proof (to_len _ Hok).
      assert (length (populated (cells (hm s))) <= length (cells (hm s)))%nat by apply length_filter.
      rewrite u32_small by (unfold is_u32; lia). lia.
    + left. split; [done|]. intros k. rewrite <- Hc. by apply assoc_ext.
    + by exists (u32 (num_entries (hm s) + 1)), (<[Z.to_nat i := mk_entry key data]> (cells (hm s))).
  - destruct Hcase as [[_ Hc]|(_ & ? & _)]; [|done].
    assert (data_at (cells (hm s)) i <> 0) as Hd0 by (intros E; by apply (to_data _ Hok) in E).
    assert (contents (hm s) key = Some (data_at (cells (hm s)) i)) as -> by (apply contents_has; [done|done|]; by exists i).
    apply Z.eqb_neq in Hd0. rewrite Hd0. cbn [negb]. exists (data_at (cells (hm s)) i), s.
    split; [done|]. split; [done|]. split; [done|]. exists (num_entries (hm s)), (cells (hm s)). by destruct (hm s).
Qed.

(** The fields no operation but the setters changes. *)
Definition same_funcs m m' : Prop :=
  hash m' = hash m /\ key_compare m' = key_compare m /\ key_alloc m' = key_alloc m /\ key_free m' = key_free m /\
  table_size_init m' = table_size_init m.

Lemma same_funcs_trans m1 m2 m3 : same_funcs m1 m2 -> same_funcs m2 m3 -> same_funcs m1 m3.
Proof. unfold same_funcs. intros (? & ? & ? & ? & ?) (? & ? & ? & ? & ?). split_and!; congruence. Qed.

Lemma same_funcs_laws m m' : same_funcs m m' -> KeyLaws m -> KeyLaws m'.
Proof. intros (Eh & Ec & _) []. split; rewrite ?Eh, ?Ec; done. Qed.

Lemma bind_key_ext m m' key d f g k : key_compare m = key_compare m' -> (forall k, f k = g k) ->
  bind_key m key d f k = bind_key m' key d g k.
Proof. intros E Hfg. unfold bind_key. rewrite E. by destruct (_ =? 0). Qed.

Lemma put_result_from (fail1 fail : Prop) key data r m m1 m' : same_funcs m m1 -> (forall k, contents m1 k = contents m k) ->
  (fail1 -> fail) -> put_result fail1 key data r m1 m' -> put_result fail key data r m m'.
Proof.
  intros (_ & Ec & _) Hc Hfail. unfold put_result. rewrite Hc. destruct (contents m key).
  - intros [? Hk]. split; [done|]. intros k. by rewrite Hk.
  - intros [[? Hk]|(? & ? & Hk)]; [left|right]; split_and?; auto; intros k; rewrite Hk; [by apply bind_key_ext|done].
Qed.

(** A slot searched and filled, or the search failed. *)
Lemma find_put_ok (fail : Prop) L s key data `{KeyLaws A (hm s)} (k : M (hst A) Z) : valid L s -> key_alloc (hm s) = None ->
  key <> 0 -> data <> 0 ->
  (contents (hm s) key = None -> crowded (hm s) key ->
     exists r s', k s = Ok (r, s') /\ valid L s' /\ put_result fail key data r (hm s) (hm s') /\ same_funcs (hm s) (hm s')) ->
  exists r s', (entry ← mlift (hashmap_entry_find (hm s) key true);
                match entry with Some entry => put_entry key data entry | None => k end) s = Ok (r, s') /\
    valid L s' /\ put_result fail key data r (hm s) (hm s') /\ same_funcs (hm s) (hm s').
Proof.
  intros Hv Hka Hkey Hdata Hk. destruct (find_ok (hm s) key true (mo_table _ (proj1 Hv))) as (r & E & Hf).
  rewrite (bind_step _ _ _ r s) by (unfold mlift; by rewrite E). destruct r as [i|].
  - destruct (put_entry_ok L s key data i Hv Hf Hka Hkey Hdata) as (r & s' & Ep & Hv' & Hr & n & l & Em).
    exists r, s'. split_and!; [done..| |by rewrite Em]. by apply (put_result_from False fail _ _ _ (hm s) (hm s)).
  - destruct Hf as [Habs Hcr]. apply Hk; [|auto]. apply contents_absent; [done|apply Hv|done].
Qed.

Lemma pow2_double N : pow2_size N -> N <= 2 ^ 30 -> pow2_size (u32 (Z.shiftl N 1)) /\ u32 (Z.shiftl N 1) = 2 * N.
Proof.
  intros (k & -> & Hk) HN. rewrite Z.shiftl_mul_pow2 by lia. change (2 ^ 1) with 2.
  assert (0 < 2 ^ k) by (apply Z.pow_pos_nonneg; lia). rewrite u32_small by (unfold is_u32; lia).
  split; [|lia]. exists (k + 1). rewrite Z.pow_add_r by lia. split; [lia|].
  assert (k <= 30); [|lia]. destruct (Z.le_gt_cases k 30); [done|]. assert (k = 31) as -> by lia. lia.
Qed.

(** [hashmap_rehash] as [hashmap_put] calls it: it fails only for want of memory. *)
Definition no_memory s : Prop :=
  exists a', alloc_zeroed (u32 (Z.shiftl (table_size (hm s)) 1)) sizeof_entry (heap s) = Ok (0, a').

Lemma grow_ok L s `{KeyLaws A (hm s)} : valid L s -> table_size (hm s) <= 2 ^ 30 ->
  exists rc s', hashmap_rehash (u32 (Z.shiftl (table_size (hm s)) 1)) s = Ok (rc, s') /\ valid L s' /\
    same_funcs (hm s) (hm s') /\ (forall k, contents (hm s') k = contents (hm s) k) /\
    num_entries (hm s') = num_entries (hm s) /\
    (rc < 0 /\ hm s' = hm s /\ no_memory s \/ rc = 0 /\ table_size (hm s') = 2 * table_size (hm s)).
Proof.
  intros Hv Hsz. destruct (pow2_double _ (to_size _ (mo_table _ (proj1 Hv))) Hsz) as [Hp2 E2].
  destruct (hashmap_rehash_ok L s _ Hv Hp2) as (rc & s' & E & Hv' & (sz' & p & l & Em & Hrc) & Hc).
  exists rc, s'. split_and!; [done..|by rewrite Em|done|by rewrite Em|].
  destruct Hrc as [(Hneg & Hsame & Hmem)|[-> ->]]; [left|right; by rewrite Em].
  split_and!; [done..|]. apply Hmem. lia.
Qed.

(** The memory that a put of [s] asks for and does not get: at its start, or
    after the table has grown once. *)
Definition put_fails s : Prop :=
  no_memory s \/
  exists s1, hashmap_rehash (u32 (Z.shiftl (table_size (hm s)) 1)) s = Ok (0, s1) /\ no_memory s1.

(** The state in which [hashmap_put] searches: the table is not full, unless
    it was to grow and could not. *)
Lemma put_grow_ok L s `{KeyLaws A (hm s)} : valid L s -> table_size (hm s) <= 2 ^ 29 ->
  exists s1, (if table_size (hm s) <=? hashmap_table_min_size_calc (num_entries (hm s))
      then hashmap_rehash (u32 (Z.shiftl (table_size (hm s)) 1));; mret tt else mret tt) s = Ok (tt, s1) /\
    valid L s1 /\ same_funcs (hm s) (hm s1) /\ (forall k, contents (hm s1) k = contents (hm s) k) /\
    table_size (hm s1) <= 2 ^ 30 /\ (no_memory s1 -> put_fails s) /\
    (table_size (hm s1) <= num_entries (hm s1) -> no_memory s).
Proof.
  intros Hv Hsz. pose proof Hv as [[Hok Hn] _]. pose proof (populated_le _ Hok) as Hle.
  destruct (size_bounds _ (to_size _ Hok)) as [HN _].
  destruct (Z.leb_spec (table_size (hm s)) (hashmap_table_min_size_calc (num_entries (hm s)))) as [_|Hbelow].
  - destruct (grow_ok L s Hv) as (rc & s1 & E & Hv1 & Hf & Hc & Hne & Hrc); [lia|]. exists s1.
    rewrite (bind_step _ _ _ _ _ E). split_and!; [done..| | |].
    + destruct Hrc as [(_ & -> & _)|[_ ->]]; lia.
    + intros Hm. destruct Hrc as [(_ & _ & ?)|[-> _]]; [by left|right; eauto].
    + intros Hfull. destruct Hrc as [(_ & _ & ?)|[_ E2]]; [done|lia].
  - exists s. split_and!; try done; [lia|by left|]. intros Hfull. exfalso. unfold hashmap_table_min_size_calc in Hbelow.
    rewrite u32_small in Hbelow by (unfold is_u32; Z.to_euclidean_division_equations; lia).
    Z.to_euclidean_division_equations; lia.
Qed.

Lemma hashmap_put_ok L s key data `{KeyLaws A (hm s)} : valid L s -> key_alloc (hm s) = None ->
  table_size (hm s) <= 2 ^ 29 -> key <> 0 -> data <> 0 ->
  exists r s', hashmap_put key data s = Ok (r, s') /\ valid L s' /\ put_result (put_fails s) key data r (hm s) (hm s') /\
    same_funcs (hm s) (hm s').
Proof.
  intros Hv Hka Hsz Hkey Hdata. unfold hashmap_put. rewrite (bind_step _ _ _ (hm s) s) by done.
  destruct (put_grow_ok L s Hv Hsz) as (s1 & E1 & Hv1 & Hs1 & Hc1 & Hsz1 & Hmem1 & Hfull1).
  rewrite (bind_step _ _ _ _ _ E1), (bind_step _ _ _ (hm s1) s1) by done.
  pose proof (same_funcs_laws _ _ Hs1 _) as Hlaws1.
  assert (key_alloc (hm s1) = None) as Hka1 by (destruct Hs1 as (_ & _ & -> & _); done).
  edestruct (find_put_ok (put_fails s) L s1 key data) as (r & s' & E & Hv' & Hr & Hs'); [exact Hv1|done|done|done| |].
  2: { exists r, s'. split; [exact E|]. split; [done|]. split; [by apply (put_result_from (put_fails s) _ _ _ _ _ (hm s1))|by eapply same_funcs_trans]. }
  intros Habs Hcr. destruct (grow_ok L s1 Hv1 Hsz1) as (rc & s2 & E2 & Hv2 & Hs2 & Hc2 & Hn2 & Hrc).
  rewrite (bind_step _ _ _ _ _ E2).
  assert (put_fails s -> exists r s', (mret 0 : M (hst A) Z) s2 = Ok (r, s') /\ valid L s' /\
    put_result (put_fails s) key data r (hm s1) (hm s') /\ same_funcs (hm s1) (hm s')) as Hzero.
  { intros Hfail. exists 0, s2. split_and!; try done. unfold put_result. rewrite Habs. right. done. }
  destruct Hrc as [(Hneg & _ & Hm)|[-> Hsz2]]; [rewrite (proj2 (Z.ltb_lt rc 0)) by done; auto|]. cbn [Z.ltb Z.compare].
  rewrite (bind_step _ _ _ (hm s2) s2) by done. pose proof (same_funcs_laws _ _ Hs2 _) as Hlaws2.
  assert (key_alloc (hm s2) = None) as Hka2 by (destruct Hs2 as (_ & _ & -> & _); done).
  edestruct (find_put_ok (put_fails s) L s2 key data (mret 0)) as (r & s' & E & Hv' & Hr & Hs'); [exact Hv2|done|done|done| |].
  - intros Habs2 Hcr2. apply (crowded_count _ _ (mo_table _ (proj1 Hv2))) in Hcr2.
    rewrite <- (mo_count _ (proj1 Hv2)), Hn2, Hsz2 in Hcr2.
    exists 0, s2. split_and!; try done. unfold put_result. rewrite Habs2. right. split_and!; [done| |done].
    left. apply Hfull1. lia.
  - exists r, s'. split; [exact E|]. split; [done|]. split; [by apply (put_result_from (put_fails s) _ _ _ _ _ (hm s2))|by eapply same_funcs_trans].
Qed.

Lemma hashmap_get_ok L s key `{KeyLaws A (hm s)} : valid L s ->
  hashmap_get key s = Ok (default 0 (contents (hm s) key), s).
Proof.
  intros [[Hok Hn] Hl]. unfold hashmap_get. rewrite (bind_step _ _ _ (hm s) s) by done.
  destruct (find_ok (hm s) key false Hok) as (r & E & Hf).
  rewrite (bind_step _ _ _ r s) by (unfold mlift; by rewrite E). destruct r as [i|].
  - destruct Hf as (Hi & _ & _ & [[Hk Hc]|(? & _)]); [|done].
    rewrite (bind_step _ _ _ _ s (deref_some _ s _ (entry_at_some _ _ Hok Hi))).
    assert (contents (hm s) key = Some (data_at (cells (hm s)) i)) as -> by (apply contents_has; [done|done|]; by exists i).
    done.
  - by rewrite (proj2 (contents_absent _ _ Hok) (proj1 Hf)).
Qed.

(** An empty slot follows slot [i] at most half a table away: the run of
    occupied slots from [i] is no longer than half the table. *)
Definition short_run m (i : Z) : Prop :=
  exists e, 0 <= e < table_size m /\ key_at (cells m) e = 0 /\ 2 * dist (table_size m) i e <= table_size m.

Lemma scanning_start m i e : table_ok m -> 0 <= i < table_size m -> key_at (cells m) i <> 0 ->
  0 <= e < table_size m -> key_at (cells m) e = 0 -> 2 * dist (table_size m) i e <= table_size m ->
  scanning m (<[Z.to_nat i := empty_entry]> (cells m)) i (next m i) e.
Proof.
  intros Hok Hi Hki He Hke Hd. pose proof (to_len m Hok) as Hlen. destruct (size_bounds _ (to_size m Hok)) as [HN _].
  assert (i <> e) as Hie by (intros ->; done).
  assert (forall j, 0 <= j -> key_at (<[Z.to_nat i := empty_entry]> (cells m)) j = if j =? i then 0 else key_at (cells m) j) as Hka
    by (intros j Hj; apply key_at_insert; lia).
  assert (forall j, 0 <= j -> data_at (<[Z.to_nat i := empty_entry]> (cells m)) j = if j =? i then 0 else data_at (cells m) j) as Hda
    by (intros j Hj; apply data_at_insert; lia).
  assert (forall j, 0 <= j < table_size m -> key_at (<[Z.to_nat i := empty_entry]> (cells m)) j <> 0 ->
    j <> i /\ key_at (cells m) j <> 0 /\ key_at (<[Z.to_nat i := empty_entry]> (cells m)) j = key_at (cells m) j) as Hne.
  { intros j Hj. rewrite Hka by lia. by destruct (Z.eqb_spec j i). }
  split.
  - pose proof (next_range m i Hi). done.
  - by rewrite length_insert.
  - rewrite Hka, Hda, Z.eqb_refl by lia. done.
  - rewrite Hka by lia. by destruct (Z.eqb_spec e i).
  - unfold next. destruct (Z.eqb_spec (i + 1) (table_size m)); dlia.
  - intros j Hj Hkj. destruct (Hne j Hj Hkj) as (Hji & Hkj' & ->). destruct (to_place m Hok j Hj Hkj') as [H1 H2].
    split; [done|]. intros p Hp Hlt Hpi. rewrite Hka by lia. rewrite (proj2 (Z.eqb_neq p i) Hpi). by apply H2.
  - intros j Hj Hkj _. destruct (Hne j Hj Hkj) as (Hji & _). unfold next. destruct (Z.eqb_spec (i + 1) (table_size m)); dlia.
  - intros p Hp Hpi Hlt. exfalso. unfold next in Hlt. destruct (Z.eqb_spec (i + 1) (table_size m)); dlia.
  - intros j1 j2 H1 H2 K1 K2. destruct (Hne j1 H1 K1) as (_ & K1' & ->), (Hne j2 H2 K2) as (_ & K2' & ->).
    by apply (to_uniq m Hok).
  - intros j Hj. rewrite Hka, Hda by lia. destruct (j =? i); [done|]. by apply (to_data m Hok).
Qed.

Lemma hashmap_entry_remove_ok L s i `{KeyLaws A (hm s)} : valid L s -> key_free (hm s) = None ->
  0 <= i < table_size (hm s) -> key_at (cells (hm s)) i <> 0 -> short_run (hm s) i ->
  exists s', hashmap_entry_remove i s = Ok (tt, s') /\ valid L s' /\ same_funcs (hm s) (hm s') /\
    forall k, contents (hm s') k =
      if key_compare (hm s) k (key_at (cells (hm s)) i) =? 0 then None else contents (hm s) k.
Proof.
  intros [[Hok Hn] Hl] Hkf Hi Hki (e & He & Hke & Hd). unfold hashmap_entry_remove.
  rewrite (bind_step _ _ _ (hm s) s) by done.
  rewrite (bind_step _ _ _ _ s (deref_some _ s _ (entry_at_some _ _ Hok Hi))).
  rewrite Hkf. rewrite (bind_step _ _ _ tt s) by done.
  set (s1 := with_map (with_count (u32 (num_entries (hm s) - 1)) (hm s)) s).
  rewrite (bind_step _ _ _ tt s1) by done.
  rewrite probe_next by (done || apply Hok). fold (next (hm s) i).
  pose proof (scanning_start (hm s) i e Hok Hi Hki He Hke Hd) as Hs. destruct (size_bounds _ (to_size _ Hok)) as [HN _].
  destruct (remove_loop_ok (hm s) (to_size _ Hok) (to_hash _ Hok) (Z.to_nat (table_size (hm s) - 1)) (cells (hm s)) i (next (hm s) i) e)
    as (a' & l' & E & Hlen & Hch & Hun & Hda & Hhas & Hpop); [done| |].
  { pose proof (next_range (hm s) i Hi). dlia. }
  rewrite (bind_step _ _ _ (a', l') s1) by (unfold mlift; by rewrite E).
  eexists. split; [reflexivity|]. cbn [hm with_map fst snd]. set (m' := with_cells _ _).
  assert (table_ok m') as Hok' by (split; [apply Hok|exact Hlen|apply Hok|exact Hch|exact Hun|exact Hda]).
  assert (KeyLaws m') as Hlaws' by (unfold m'; apply _).
  split_and!.
  - split; [|exact Hl]. split; [done|]. unfold m'. cbn [num_entries with_cells with_count cells hm with_map].
    rewrite Hpop. pose proof (populated_clear (cells (hm s)) i Hki ltac:(rewrite (to_len _ Hok); lia)) as Hp.
    pose proof (to_len _ Hok). assert (length (populated (cells (hm s))) <= length (cells (hm s)))%nat by apply length_filter.
    change (num_entries (hm s1)) with (u32 (num_entries (hm s) - 1)). rewrite Hn, u32_small by (unfold is_u32; lia). lia.
  - done.
  - intros k. apply option_ext. intros d. rewrite (contents_has m' k d Hok').
    change (has m' k d) with (has_in (hm s) (cells m') k d). unfold m'. cbn [cells with_cells]. rewrite Hhas.
    assert (forall j, 0 <= j -> key_at (<[Z.to_nat i := empty_entry]> (cells (hm s))) j = if j =? i then 0 else key_at (cells (hm s)) j) as Hka
      by (intros j Hj; apply key_at_insert; rewrite ?(to_len _ Hok); lia).
    assert (forall j, 0 <= j -> data_at (<[Z.to_nat i := empty_entry]> (cells (hm s))) j = if j =? i then 0 else data_at (cells (hm s)) j) as Hdt
      by (intros j Hj; apply data_at_insert; rewrite ?(to_len _ Hok); lia).
    destruct (Z.eqb_spec (key_compare (hm s) k (key_at (cells (hm s)) i)) 0) as [Ec|Ec].
    + split; [|done]. intros (j & Hj & Hkj & Hc & _). exfalso. rewrite Hka in Hkj, Hc by lia.
      destruct (Z.eqb_spec j i) as [|Hji]; [done|]. apply Hji. apply (to_uniq _ Hok); try done.
      eapply same_trans; [apply same_sym; exact Hc|exact Ec].
    + rewrite (contents_has (hm s) k d Hok). split; intros (j & Hj & Hkj & Hc & Hdj); exists j.
      * rewrite Hka in Hkj, Hc by lia. rewrite Hdt in Hdj by lia. by destruct (Z.eqb_spec j i).
      * assert (j <> i) as Hne by (intros ->; done). apply Z.eqb_neq in Hne. rewrite Hka, Hdt, Hne by lia. done.
Qed.

Lemma hashmap_remove_ok L s key `{KeyLaws A (hm s)} : valid L s -> key_free (hm s) = None ->
  (forall i, 0 <= i < table_size (hm s) -> short_run (hm s) i) ->
  exists s', hashmap_remove key s = Ok (default 0 (contents (hm s) key), s') /\ valid L s' /\ same_funcs (hm s) (hm s') /\
    forall k, contents (hm s') k = if key_compare (hm s) k key =? 0 then None else contents (hm s) k.
Proof.
  intros Hv Hkf Hrun. pose proof (mo_table _ (proj1 Hv)) as Hok. unfold hashmap_remove.
  rewrite (bind_step _ _ _ (hm s) s) by done. destruct (find_ok (hm s) key false Hok) as (r & E & Hf).
  rewrite (bind_step _ _ _ r s) by (unfold mlift; by rewrite E). destruct r as [i|].
  - destruct Hf as (Hi & _ & _ & [[Hk Hc]|(? & _)]); [|done].
    rewrite (bind_step _ _ _ _ s (deref_some _ s _ (entry_at_some _ _ Hok Hi))).
    assert (contents (hm s) key = Some (data_at (cells (hm s)) i)) as -> by (apply contents_has; [done|done|]; by exists i).
    destruct (hashmap_entry_remove_ok L s i Hv Hkf Hi Hk (Hrun i Hi)) as (s' & E' & Hv' & Hs' & Hc').
    rewrite (bind_step _ _ _ _ _ E'). exists s'. split_and!; try done. intros k. rewrite Hc'.
    destruct (Z.eqb_spec (key_compare (hm s) k (key_at (cells (hm s)) i)) 0) as [E1|E1],
      (Z.eqb_spec (key_compare (hm s) k key) 0) as [E2|E2]; try done.
    + destruct E2. eapply same_trans; [exact E1|by apply same_sym].
    + destruct E1. by eapply same_trans.
  - destruct Hf as [Hf _]. pose proof (proj2 (contents_absent _ _ Hok) Hf) as Hnone. rewrite Hnone. exists s. split_and!; try done.
    intros k. destruct (Z.eqb_spec (key_compare (hm s) k key) 0) as [E1|E1]; [|done].
    apply contents_absent; [done|done|]. intros i Hi Hki Hc. apply (Hf i Hi Hki).
    eapply same_trans; [apply same_sym; exact E1|exact Hc].
Qed.
(** *** Removal from a long run *)

(** The key [k] is not the one looked for. *)
Definition other m (key k : Z) : Prop := k = 0 \/ key_compare m key k <> 0.

Lemma next_slot m a j : pow2_size (table_size m) -> 0 <= a < table_size m -> 0 <= j < table_size m ->
  HASHMAP_PROBE_NEXT m (slot (table_size m) a j) = slot (table_size m) a (j + 1).
Proof.
  intros Hs Ha Hj. unfold slot. rewrite probe_next by (done || destruct (Z.ltb_spec (a + j) (table_size m)); lia).
  destruct (Z.ltb_spec (a + j) (table_size m)), (Z.ltb_spec (a + (j + 1)) (table_size m));
    case_match; rewrite ?Z.eqb_eq, ?Z.eqb_neq in *; lia.
Qed.

Lemma slot_range N a j : 0 <= a < N -> 0 <= j < N -> 0 <= slot N a j < N /\ dist N a (slot N a j) = j.
Proof. intros Ha Hj. unfold slot. destruct (Z.ltb_spec (a + j) N); dlia. Qed.

Lemma slot_dist N a p : 0 <= a < N -> 0 <= p < N -> slot N a (dist N a p) = p /\ 0 <= dist N a p < N.
Proof. intros Ha Hp. unfold slot, dist. destruct (Z.leb_spec a p); case_match; rewrite ?Z.ltb_lt, ?Z.ltb_ge in *; lia. Qed.

Lemma probe_miss m key n a j : pow2_size (table_size m) -> Z.of_nat (length (cells m)) = table_size m ->
  0 <= a < table_size m -> 0 <= j -> j + Z.of_nat n <= table_size m ->
  (forall i, j <= i < j + Z.of_nat n -> other m key (key_at (cells m) (slot (table_size m) a i))) ->
  probe_loop m key false n (slot (table_size m) a j) = Ok None.
Proof.
  intros Hs Hl Ha. revert j. induction n as [|n IH]; intros j Hj Hn Hmiss; cbn [probe_loop]; [done|].
  destruct (slot_range (table_size m) a j Ha ltac:(lia)) as [Hr _]. unfold entry_at.
  destruct (lookup_lt_is_Some_2 (cells m) (Z.to_nat (slot (table_size m) a j))) as [e He]; [lia|]. rewrite He.
  pose proof (Hmiss j ltac:(lia)) as Hj'. unfold other, key_at in Hj'. rewrite (nth_lookup_Some _ _ _ _ He) in Hj'.
  destruct (Z.eqb_spec (e_key e) 0) as [|Hk]; [done|]. destruct Hj' as [|Hne]; [done|].
  rewrite (proj2 (Z.eqb_neq _ _) Hne), next_slot by (done || lia). apply IH; [lia|lia|]. intros i Hi. apply Hmiss. lia.
Qed.

(** The scan passes entries whose home is after the hole. *)
Lemma remove_skip m a l n k j : pow2_size (table_size m) -> Z.of_nat (length l) = table_size m ->
  0 <= a < table_size m -> 0 <= j -> j + Z.of_nat k <= table_size m ->
  (forall i, j <= i < j + Z.of_nat k -> let key := key_at l (slot (table_size m) a i) in
     key <> 0 /\ HASHMAP_INDEX_LE m a (hashmap_calc_index m key) = false) ->
  remove_loop m (k + n) (slot (table_size m) a j) a l = remove_loop m n (slot (table_size m) a (j + Z.of_nat k)) a l.
Proof.
  intros Hs Hl Ha. revert j. induction k as [|k IH]; intros j Hj Hk Hpass.
  { by rewrite Z.add_0_r. }
  destruct (slot_range (table_size m) a j Ha ltac:(lia)) as [Hr _]. cbn [Nat.add remove_loop].
  destruct (lookup_lt_is_Some_2 l (Z.to_nat (slot (table_size m) a j))) as [e He]; [lia|]. rewrite He.
  destruct (Hpass j ltac:(lia)) as [Hne Hle]. unfold key_at in Hne, Hle. rewrite (nth_lookup_Some _ _ _ _ He) in Hne, Hle.
  rewrite (proj2 (Z.eqb_neq _ _) Hne), Hle, next_slot by (done || lia).
  rewrite IH by (lia || intros i Hi; apply Hpass; lia). do 2 f_equal. lia.
Qed.

(** Behind the hole [slot a jr] the scan moves entries among the slots it has
    not left behind; slot [a] keeps its entry. *)
Lemma remove_rest m key a n : forall j jr l, pow2_size (table_size m) -> Z.of_nat (length l) = table_size m ->
  0 <= a < table_size m -> 0 < jr < j -> j + Z.of_nat n <= table_size m ->
  (forall i, 0 < i < table_size m -> i <> jr -> other m key (key_at l (slot (table_size m) a i))) ->
  exists jr' l', remove_loop m n (slot (table_size m) a j) (slot (table_size m) a jr) l = Ok (slot (table_size m) a jr', l') /\
    Z.of_nat (length l') = table_size m /\ 0 < jr' < table_size m /\
    forall i, 0 < i < table_size m -> i <> jr' -> other m key (key_at l' (slot (table_size m) a i)).
Proof.
  induction n as [|n IH]; intros j jr l Hs Hl Ha Hj Hn Hoth; cbn [remove_loop].
  { exists jr, l. split_and!; (done || lia). }
  set (N := table_size m) in *. destruct (slot_range N a j Ha ltac:(lia)) as [Rj Dj].
  destruct (slot_range N a jr Ha ltac:(lia)) as [Rr Dr].
  destruct (lookup_lt_is_Some_2 l (Z.to_nat (slot N a j))) as [e He]; [lia|]. rewrite He.
  destruct (e_key e =? 0); [exists jr, l; split_and!; (done || lia)|].
  rewrite next_slot by (done || lia). fold N. destruct (HASHMAP_INDEX_LE _ _ _).
  - apply IH; try done; [by rewrite length_insert|lia|lia|]. intros i Hi Hne.
    destruct (slot_range N a i Ha ltac:(lia)) as [Ri Di]. rewrite key_at_insert by lia.
    destruct (Z.eqb_spec (slot N a i) (slot N a jr)) as [E|E].
    + specialize (Hoth j ltac:(lia) ltac:(lia)). unfold key_at in Hoth. by rewrite (nth_lookup_Some _ _ _ _ He) in Hoth.
    + apply Hoth; [done|]. intros ->. done.
  - apply IH; (done || lia).
Qed.
(** A run of occupied slots from [a] that is longer than half the table: the
    entries up to the middle are at home behind [a], and the one half a table
    away is at its home. *)
Record long_run m (a : Z) : Prop := {
  lr_near : forall j, 0 < j < table_size m / 2 -> let k := key_at (cells m) (slot (table_size m) a j) in
    k <> 0 /\ 1 <= dist (table_size m) a (hashmap_calc_index m k) <= j;
  lr_far : let b := slot (table_size m) a (table_size m / 2) in
    key_at (cells m) b <> 0 /\ hashmap_calc_index m (key_at (cells m) b) = b }.

(** The scan leaves the far entry in slot [a] and nowhere else. *)
Lemma remove_long_run m a key `{KeyLaws A m} : table_ok m -> 0 <= a < table_size m -> long_run m a ->
  key_compare m key (key_at (cells m) (slot (table_size m) a (table_size m / 2))) = 0 ->
  exists r l, remove_loop m (Z.to_nat (table_size m - 1)) (HASHMAP_PROBE_NEXT m a) a (cells m) = Ok (r, l) /\
    Z.of_nat (length l) = table_size m /\ 0 <= r < table_size m /\
    forall i, 0 < i < table_size m -> other m key (key_at (<[Z.to_nat r := empty_entry]> l) (slot (table_size m) a i)).
Proof.
  intros Hok Ha [Hnear Hfar] Hkey. destruct (size_bounds _ (to_size _ Hok)) as [HN HN2].
  pose proof (to_size _ Hok) as Hp. pose proof (to_len _ Hok) as Hlen. pose proof (to_uniq _ Hok) as Huniq.
  assert (forall k, 0 <= hashmap_calc_index m k < table_size m) as Hidx by (intros k; apply calc_index_range; [done|apply Hok]).
  pose proof (fun j => next_slot m a j Hp Ha) as Hnext. pose proof (fun x => index_le m a x Hp Ha) as Hle.
  pose proof (fun n k => remove_skip m a (cells m) n k 1 Hp Hlen Ha) as Hskip.
  pose proof (fun n j jr l => remove_rest m key a n j jr l Hp) as Hrest.
  set (N := table_size m) in *. clearbody N. set (b := slot N a (N / 2)) in *.
  destruct (slot_range N a (N / 2) Ha ltac:(lia)) as [Rb Db]. fold b in Rb, Db.
  assert (HASHMAP_PROBE_NEXT m a = slot N a 1) as ->.
  { change 1 with (0 + 1). rewrite <- Hnext by lia. f_equal. unfold slot. destruct (Z.ltb_spec (a + 0) N); lia. }
  replace (Z.to_nat (N - 1)) with (Z.to_nat (N / 2 - 1) + S (Z.to_nat (N / 2 - 1)))%nat by lia.
  rewrite Hskip; [|lia|lia|].
  2:{ intros i Hi. destruct (Hnear i ltac:(lia)) as [Hk Hd]. split; [done|]. rewrite Hle by done.
      destruct (Z.eqb_spec (dist N a (hashmap_calc_index m (key_at (cells m) (slot N a i)))) 0); [lia|].
      destruct (Z.leb_spec N (2 * dist N a (hashmap_calc_index m (key_at (cells m) (slot N a i))))); [lia|done]. }
  replace (1 + Z.of_nat (Z.to_nat (N / 2 - 1))) with (N / 2) by lia. fold b. cbn [remove_loop].
  destruct (lookup_lt_is_Some_2 (cells m) (Z.to_nat b)) as [e He]; [lia|]. rewrite He.
  destruct Hfar as [Hkb Hhb]. assert (key_at (cells m) b = e_key e) as Eb by (unfold key_at; by rewrite (nth_lookup_Some _ _ _ _ He)).
  rewrite Eb in Hkb, Hhb, Hkey. rewrite (proj2 (Z.eqb_neq _ _) Hkb), Hhb, Hle, Db by done.
  rewrite (proj2 (Z.leb_le N (2 * (N / 2)))), orb_true_r by lia. unfold b at 1. rewrite Hnext by lia.
  destruct (Hrest (Z.to_nat (N / 2 - 1)) (N / 2 + 1) (N / 2) (<[Z.to_nat a := e]> (cells m)))
    as (jr & l & El & Hll & Hjr & Hoth); [by rewrite length_insert|done|lia|lia| |].
  - intros i Hi Hne. destruct (slot_range N a i Ha ltac:(lia)) as [Ri Di]. rewrite key_at_insert by lia.
    destruct (Z.eqb_spec (slot N a i) a) as [E|_]; [rewrite E in Di; dlia|].
    destruct (Z.eq_dec (key_at (cells m) (slot N a i)) 0) as [|Hk]; [by left|right]. intros Hc.
    assert (slot N a i = b) as E; [|rewrite E, Db in Di; lia].
    apply Huniq; [done|done|done|by rewrite Eb|]. rewrite Eb.
    eapply same_trans; [apply same_sym; exact Hc|exact Hkey].
  - fold b in El. exists (slot N a jr), l. destruct (slot_range N a jr Ha ltac:(lia)) as [Rr Dr].
    split_and!; [done|done|lia|lia|]. intros i Hi. destruct (slot_range N a i Ha ltac:(lia)) as [Ri Di].
    rewrite key_at_insert by lia. destruct (Z.eqb_spec (slot N a i) (slot N a jr)) as [E|E]; [by left|].
    apply Hoth; [done|]. intros ->. done.
Qed.
(** A removal from slot [a], whatever the scan leaves. *)
Lemma remove_runs L s key a r l `{KeyLaws A (hm s)} : valid L s -> key_free (hm s) = None ->
  0 <= a < table_size (hm s) -> key_at (cells (hm s)) a <> 0 -> key_compare (hm s) key (key_at (cells (hm s)) a) = 0 ->
  remove_loop (hm s) (Z.to_nat (table_size (hm s) - 1)) (HASHMAP_PROBE_NEXT (hm s) a) a (cells (hm s)) = Ok (r, l) ->
  exists s', hashmap_remove key s = Ok (data_at (cells (hm s)) a, s') /\
    hm s' = with_cells (<[Z.to_nat r := empty_entry]> l) (with_count (u32 (num_entries (hm s) - 1)) (hm s)).
Proof.
  intros [[Hok Hn] Hl] Hkf Ha Hka Hkey El. unfold hashmap_remove. rewrite (bind_step _ _ _ (hm s) s) by done.
  destruct (find_ok (hm s) key false Hok) as (o & E & Hf). rewrite (bind_step _ _ _ o s) by (unfold mlift; by rewrite E).
  destruct o as [i|]; [|exfalso; by apply (proj1 Hf a Ha Hka)].
  destruct Hf as (Hi & _ & _ & [[Hk Hc]|(? & _)]); [|done].
  assert (i = a) as -> by (apply (to_uniq _ Hok); try done; eapply same_trans; [apply same_sym; exact Hc|exact Hkey]).
  rewrite (bind_step _ _ _ _ s (deref_some _ s _ (entry_at_some _ _ Hok Ha))).
  set (m' := with_cells (<[Z.to_nat r := empty_entry]> l) (with_count (u32 (num_entries (hm s) - 1)) (hm s))).
  exists (with_map m' s). split; [|done]. rewrite (bind_step _ _ s tt (with_map m' s)); [done|].
  unfold hashmap_entry_remove. rewrite (bind_step _ _ _ (hm s) s) by done.
  rewrite (bind_step _ _ _ _ s (deref_some _ s _ (entry_at_some _ _ Hok Ha))). rewrite Hkf, (bind_step _ _ _ tt s) by done.
  erewrite bind_step by reflexivity. by erewrite (bind_step (mlift _)) by (unfold mlift; by rewrite El).
Qed.
End correct.

(** C11: a put into a well-formed map returns and keeps it well-formed. A key
    already bound keeps its data, which is returned. A new key is bound to
    [data], which is returned, whatever the hash function does with the keys:
    NULL is returned, and the map left as it was, only when the kernel heap
    refuses a table of twice the size, at the start of the call or after the
    table has grown once ([put_fails]). Whatever was rehashed on the way,
    [hashmap_get] then answers every key accordingly. *)
Theorem hashmap_put_correct {A} `{AllocLaws A} (L : list Z) (s : hst A) (key data : Z) :
  KeyLaws (hm s) -> valid L s -> key_alloc (hm s) = None -> table_size (hm s) <= 2 ^ 29 -> key <> 0 -> data <> 0 ->
  exists r s', hashmap_put key data s = Ok (r, s') /\ valid L s' /\
    match contents (hm s) key with
    | Some d => r = d /\ forall k, hashmap_get k s' = Ok (default 0 (contents (hm s) k), s')
    | None =>
        r = data /\ (forall k, hashmap_get k s' =
          Ok (if key_compare (hm s) k key =? 0 then data else default 0 (contents (hm s) k), s')) \/
        r = 0 /\ put_fails s /\ forall k, hashmap_get k s' = Ok (default 0 (contents (hm s) k), s')
    end.
Proof.
  intros Hlaws Hv Hka Hsz Hkey Hdata.
  destruct (hashmap_put_ok L s key data Hv Hka Hsz Hkey Hdata) as (r & s' & E & Hv' & Hr & Hs).
  exists r, s'. split; [done|]. split; [done|]. pose proof (same_funcs_laws _ _ Hs Hlaws) as Hlaws'.
  assert (forall k, hashmap_get k s' = Ok (default 0 (contents (hm s') k), s')) as Hget
    by (intros k; by apply (hashmap_get_ok L)).
  unfold put_result, bind_key in Hr. destruct (contents (hm s) key).
  - destruct Hr as [-> Hc]. split; [done|]. intros k. by rewrite Hget, Hc.
  - destruct Hr as [[-> Hc]|(-> & Hf & Hc)]; [left|right]; split_and?; try done; intros k; rewrite Hget, Hc;
      [by destruct (_ =? 0)|done].
Qed.

(** C12: where no run of occupied slots is longer than half the table,
    [hashmap_remove] returns the data of the key, or NULL, and afterwards
    [hashmap_get] finds exactly the other bindings: the entries shifted back
    into the hole are all still reachable. *)
Theorem hashmap_remove_correct {A} `{AllocLaws A} (L : list Z) (s : hst A) (key : Z) :
  KeyLaws (hm s) -> valid L s -> key_free (hm s) = None ->
  (forall i, 0 <= i < table_size (hm s) -> short_run (hm s) i) ->
  exists s', hashmap_remove key s = Ok (default 0 (contents (hm s) key), s') /\ valid L s' /\
    forall k, hashmap_get k s' = Ok (if key_compare (hm s) k key =? 0 then 0 else default 0 (contents (hm s) k), s').
Proof.
  intros Hlaws Hv Hkf Hrun. destruct (hashmap_remove_ok L s key Hv Hkf Hrun) as (s' & E & Hv' & Hs & Hc).
  exists s'. split; [done|]. split; [done|]. pose proof (same_funcs_laws _ _ Hs Hlaws) as Hlaws'.
  intros k. rewrite (hashmap_get_ok L s' k Hv'), Hc. by destruct (_ =? 0).
Qed.

(** ** Maps keyed by [uint32_t] *)

(** The functions the kernel passes satisfy the laws. *)
Lemma uint32_laws {A} (m : hashmap A) (rd : Z -> Z) : (forall k, is_u32 (rd k)) ->
  hash m = hashmap_hash_uint32 rd -> key_compare m = hashmap_compare_uint32 rd -> KeyLaws m.
Proof.
  intros Hrd Eh Ec. assert (forall a b, key_compare m a b = 0 <-> rd a = rd b) as Heq.
  { intros a b. rewrite Ec. unfold hashmap_compare_uint32. pose proof (Hrd a) as Ha. pose proof (Hrd b) as Hb.
    unfold is_u32 in *. split; [|intros ->; rewrite Z.sub_diag; reflexivity].
    unfold s32. rewrite (u32_small (rd a)), (u32_small (rd b)) by done. intros E. pose proof (u32_range ((if rd a <? 2 ^ 31 then rd a else rd a - 2 ^ 32) -
      (if rd b <? 2 ^ 31 then rd b else rd b - 2 ^ 32))) as Hr. unfold u32, is_u32 in *.
    destruct (Z.ltb_spec (rd a) (2 ^ 31)), (Z.ltb_spec (rd b) (2 ^ 31));
      match type of E with context [?x mod 2 ^ 32 <? _] => destruct (Z.ltb_spec (x mod 2 ^ 32) (2 ^ 31)) end;
      Z.to_euclidean_division_equations; lia. }
  split.
  - intros a. by apply Heq.
  - intros a b Hab. apply Heq. symmetry. by apply Heq.
  - intros a b c Hab Hbc. apply Heq. transitivity (rd b); by apply Heq.
  - intros a b Hab. rewrite Eh. by apply Heq.
Qed.

(** A heap that never runs out: the address of the next block. *)
#[export] Instance bump_alloc : Alloc Z := {
  alloc_zeroed n sz := fun a => Ok (a, a + Z.max 0 (n * sz));
  release _ := fun a => Ok (tt, a);
  resize _ sz := fun a => Ok (a, a + Z.max 0 sz) }.
#[export] Program Instance bump_laws : AllocLaws Z := { live a _ := 0 < a }.
Next Obligation. done. Qed.
Next Obligation.
  intros a l n sz Ha. exists a, (a + Z.max 0 (n * sz)). split; [done|]. simpl in *. right. lia.
Qed.
Next Obligation. intros a l p Ha. by exists a. Qed.

(** Keys are pointers to words; the word at [4096 + 8 * i] is [i]. *)
Definition example_rd (k : Z) : Z := u32 ((k - 4096) / 8).
Definition example_key (i : Z) : Z := 4096 + 8 * i.

Definition example_map (size : Z) : hst Z :=
  mk_hst (mk_hashmap size size 0 512 (replicate (Z.to_nat size) empty_entry)
            (hashmap_hash_uint32 example_rd) (hashmap_compare_uint32 example_rd) None None) 1024.

Lemma example_laws size : KeyLaws (hm (example_map size)).
Proof. apply (uint32_laws _ example_rd); [|done|done]. intros k. apply u32_range. Qed.

Lemma example_valid size : pow2_size size -> valid [] (example_map size).
Proof.
  intros Hs. destruct (empty_table_ok (hm (example_map size)) size 512 Hs) as [Hok [_ Hn]];
    [intros k; apply u32_range|]. split; [|simpl; lia]. split; [done|]. 
  change (0 = Z.of_nat (length (populated (replicate (Z.to_nat size) empty_entry)))). change (length (populated (replicate (Z.to_nat size) empty_entry)) = 0%nat) in Hn. by rewrite Hn.
Qed.

(** The answer and the table a run leaves. *)
Definition shown (o : outcome (Z * hst Z)) : option (Z * Z * list hashmap_entry) :=
  match o with Ok (r, s) => Some (r, table_size (hm s), cells (hm s)) | Fail _ => None end.
Definition example_cells : list hashmap_entry := <[5%nat := mk_entry (example_key 5) 77]> (replicate 32 empty_entry).

Lemma hashmap_put_correct_witness :
  exists s', hashmap_put (example_key 5) 77 (example_map 32) = Ok (77, s') /\ hashmap_get (example_key 5) s' = Ok (77, s').
Proof.
  destruct (hashmap_put_correct [] (example_map 32) (example_key 5) 77) as (r & s' & E & _ & Hc).
  - apply example_laws.
  - apply example_valid. exists 5. split; [reflexivity|lia].
  - reflexivity.
  - zdec.
  - discriminate.
  - discriminate.
  - exists s'. destruct Hc as [[-> Hget]|[-> _]].
    + split; [exact E|]. apply Hget.
    + exfalso. assert (shown (hashmap_put (example_key 5) 77 (example_map 32)) = Some (77, 32, example_cells)) as Es
        by (vm_compute; reflexivity).
      rewrite E in Es. discriminate Es.
Defined.

Lemma example_one : exists s : hst Z, KeyLaws (hm s) /\ valid [] s /\ key_free (hm s) = None /\
  table_size (hm s) = 32 /\ cells (hm s) = example_cells.
Proof.
  pose proof (example_laws 32) as Hlaws.
  destruct (hashmap_put_ok [] (example_map 32) (example_key 5) 77) as (r & s & E & Hv & _ & Hs).
  - apply example_valid. exists 5. split; [reflexivity|lia].
  - reflexivity.
  - zdec.
  - discriminate.
  - discriminate.
  - assert (shown (hashmap_put (example_key 5) 77 (example_map 32)) = Some (77, 32, example_cells)) as Es
      by (vm_compute; reflexivity).
    rewrite E in Es. injection Es as _ Hsz Hc. exists s. split_and!; [by eapply same_funcs_laws|done| |done|done].
    destruct Hs as (_ & _ & _ & -> & _). done.
Qed.

Lemma hashmap_remove_correct_witness :
  exists s s' : hst Z, hashmap_remove (example_key 5) s = Ok (77, s') /\ hashmap_get (example_key 5) s' = Ok (0, s').
Proof.
  destruct example_one as (s & Hlaws & Hv & Hkf & Hsz & Hc).
  destruct (hashmap_remove_correct [] s (example_key 5)) as (s' & E & _ & Hget).
  - exact Hlaws.
  - exact Hv.
  - exact Hkf.
  - rewrite Hsz. intros i Hi. unfold short_run. rewrite Hsz, Hc. destruct (Z.eq_dec i 5) as [->|Hne].
    + exists 6. split; [zdec|]. split; [reflexivity|zdec].
    + exists i. split; [exact Hi|]. split.
      * unfold key_at, example_cells. rewrite nth_lookup, list_lookup_insert_ne by lia.
        rewrite lookup_replicate_2 by lia. reflexivity.
      * unfold dist. rewrite Z.leb_refl. lia.
  - exists s, s'. assert (contents (hm s) (example_key 5) = Some 77) as E7.
    { apply contents_has; [exact Hlaws|apply Hv|]. exists 5. rewrite Hsz, Hc. split; [zdec|]. split; [discriminate|].
      split; [apply same_refl|reflexivity]. }
    rewrite E7 in E. split; [exact E|]. rewrite Hget, same_refl. reflexivity.
Defined.

(** C13: without that bound removal loses bindings. Wherever a run of occupied
    slots from slot [a] is longer than half the table, the entries up to the
    middle are at home behind [a] and the one half a table away is at its own
    home, [hashmap_remove] of the key in slot [a] makes the far key, which
    [hashmap_get] answered before, unreachable: its entry is moved into the
    hole, half a table before its home, where no probe looks. *)
Theorem hashmap_remove_loses_key {A} `{AllocLaws A} (L : list Z) (s : hst A) (a key key1 : Z) :
  KeyLaws (hm s) -> valid L s -> key_free (hm s) = None ->
  0 <= a < table_size (hm s) -> long_run (hm s) a ->
  let b := slot (table_size (hm s)) a (table_size (hm s) / 2) in
  key_at (cells (hm s)) a <> 0 -> key_compare (hm s) key (key_at (cells (hm s)) a) = 0 ->
  key_compare (hm s) key1 (key_at (cells (hm s)) b) = 0 ->
  data_at (cells (hm s)) b <> 0 /\ hashmap_get key1 s = Ok (data_at (cells (hm s)) b, s) /\
  exists s', hashmap_remove key s = Ok (data_at (cells (hm s)) a, s') /\ hashmap_get key1 s' = Ok (0, s').
Proof.
  intros Hlaws Hv Hkf Ha Hrun b Hka Hkey Hkey1. pose proof Hv as [[Hok Hn] Hl].
  destruct (size_bounds _ (to_size _ Hok)) as [HN HN2].
  destruct (slot_range _ a (table_size (hm s) / 2) Ha ltac:(lia)) as [Rb Db]. fold b in Rb, Db.
  pose proof (lr_far _ _ Hrun) as [Hkb Hhb]. fold b in Hkb, Hhb. split_and!.
  - intros E. by apply (to_data _ Hok) in E.
  - rewrite (hashmap_get_ok L s key1 Hv).
    by rewrite (proj2 (contents_has (hm s) key1 (data_at (cells (hm s)) b) Hok)) by (by exists b).
  - destruct (remove_long_run (hm s) a key1 Hok Ha Hrun Hkey1) as (r & l & El & Hll & Hr & Hoth).
    destruct (remove_runs L s key a r l Hv Hkf Ha Hka Hkey El) as (s' & Es & Em).
    exists s'. split; [done|]. unfold hashmap_get. rewrite (bind_step _ _ _ (hm s') s') by done.
    assert (hashmap_entry_find (hm s') key1 false = Ok None) as Ef.
    { unfold hashmap_entry_find. rewrite Em. unfold HASHMAP_PROBE_LEN. rewrite Z.shiftr_div_pow2 by lia. change (2 ^ 1) with 2.
      change (table_size (with_cells _ _)) with (table_size (hm s)).
      match goal with |- probe_loop ?m' _ _ _ _ = _ => set (m1 := m') end.
      assert (hashmap_calc_index m1 key1 = slot (table_size m1) b 0) as ->.
      { unfold hashmap_calc_index. change (hash m1) with (hash (hm s)). rewrite (same_hash _ _ Hkey1).
        change (hashmap_calc_index (hm s) (key_at (cells (hm s)) b) = slot (table_size (hm s)) b 0). rewrite Hhb.
        unfold slot. destruct (Z.ltb_spec (b + 0) (table_size (hm s))); lia. }
      apply probe_miss; [apply Hok|change (Z.of_nat (length (<[Z.to_nat r:=empty_entry]> l)) = table_size (hm s)); by rewrite length_insert|done|lia|
        change (table_size m1) with (table_size (hm s)); lia|].
      change (table_size m1) with (table_size (hm s)). intros i Hi.
      change (other (hm s) key1 (key_at (<[Z.to_nat r:=empty_entry]> l) (slot (table_size (hm s)) b i))).
      destruct (slot_range _ b i Rb ltac:(lia)) as [Ri Di].
      destruct (slot_dist _ a (slot (table_size (hm s)) b i) Ha Ri) as [E Hd]. rewrite <- E.
      apply Hoth. split; [|lia]. destruct (Z.eq_dec (slot (table_size (hm s)) b i) a) as [E'|]; [|dlia].
      rewrite E' in Di. clear - Di Db Hi HN2 Ha Rb. dlia. }
    by rewrite (bind_step _ _ _ None s') by (unfold mlift; by rewrite Ef).
Qed.

(** Seventeen keys in a table of 32 slots, each at its home: the run from slot
    0 reaches half a table further. *)
Definition dense_cells : list hashmap_entry :=
  ((fun i => mk_entry (example_key i) (100 + i)) <$> seqZ 0 17) ++ replicate 15 empty_entry.
Definition dense_map : hst Z :=
  mk_hst (mk_hashmap 32 32 17 512 dense_cells
            (hashmap_hash_uint32 example_rd) (hashmap_compare_uint32 example_rd) None None) 1024.

Lemma dense_at i : 0 <= i < 32 ->
  key_at dense_cells i = (if i <? 17 then example_key i else 0) /\
  data_at dense_cells i = (if i <? 17 then 100 + i else 0).
Proof.
  intros Hi. pose proof (check_below (fun i => (key_at dense_cells i =? (if i <? 17 then example_key i else 0)) &&
    (data_at dense_cells i =? (if i <? 17 then 100 + i else 0))) 32 ltac:(vm_compute; reflexivity) i Hi) as H.
  cbn beta in H. apply andb_true_iff in H as [H1 H2]. split; by apply Z.eqb_eq.
Qed.

Lemma dense_home i : 0 <= i < 17 -> hashmap_calc_index (hm dense_map) (example_key i) = i.
Proof.
  intros Hi. apply Z.eqb_eq.
  exact (check_below (fun i => hashmap_calc_index (hm dense_map) (example_key i) =? i) 17 ltac:(vm_compute; reflexivity) i Hi).
Qed.

Lemma dense_laws : KeyLaws (hm dense_map).
Proof. apply (uint32_laws _ example_rd); [intros k; apply u32_range|reflexivity|reflexivity]. Qed.

Lemma dense_valid : valid [] dense_map.
Proof.
  pose proof dense_laws as Hlaws.
  split; [|simpl; lia]. split; [|by vm_compute]. split.
  - exists 5. split; [reflexivity|lia].
  - by vm_compute.
  - intros k. apply u32_range.
  - change (cells (hm dense_map)) with dense_cells. change (table_size (hm dense_map)) with 32. intros i Hi.
    destruct (dense_at i Hi) as [-> _]. destruct (Z.ltb_spec i 17); [|done]. intros _. rewrite dense_home by lia. cbv zeta.
    unfold dist at 1. rewrite Z.leb_refl. split; [lia|]. intros p Hp Hlt. dlia.
  - change (cells (hm dense_map)) with dense_cells. change (table_size (hm dense_map)) with 32. intros i j Hi Hj.
    destruct (dense_at i Hi) as [-> _], (dense_at j Hj) as [-> _].
    destruct (Z.ltb_spec i 17); [|done]. destruct (Z.ltb_spec j 17); [|done]. intros _ _ Hc.
    rewrite <- (dense_home i), <- (dense_home j) by lia. unfold hashmap_calc_index. f_equal. apply (same_hash (m := hm dense_map)). done.
  - change (cells (hm dense_map)) with dense_cells. change (table_size (hm dense_map)) with 32. intros i Hi.
    destruct (dense_at i Hi) as [-> ->]. destruct (Z.ltb_spec i 17); [|done]. unfold example_key. lia.
Qed.

Lemma hashmap_remove_loses_key_witness :
  hashmap_get (example_key 16) dense_map = Ok (116, dense_map) /\
  exists s', hashmap_remove (example_key 0) dense_map = Ok (100, s') /\ hashmap_get (example_key 16) s' = Ok (0, s').
Proof.
  destruct (hashmap_remove_loses_key [] dense_map 0 (example_key 0) (example_key 16)) as (_ & Hget & s' & Hrem & Hlost).
  - exact dense_laws.
  - exact dense_valid.
  - reflexivity.
  - zdec.
  - split; [|split; [discriminate|reflexivity]].
    change (cells (hm dense_map)) with dense_cells. change (table_size (hm dense_map)) with 32. intros j Hj.
    change (32 / 2) with 16 in Hj. assert (slot 32 0 j = j) as -> by (unfold slot; rewrite (proj2 (Z.ltb_lt _ _)); lia).
    cbv zeta. rewrite (proj1 (dense_at j ltac:(lia))), (proj2 (Z.ltb_lt j 17)) by lia. rewrite dense_home by lia.
    split; [unfold example_key; lia|]. dlia.
  - discriminate.
  - reflexivity.
  - reflexivity.
  - split; [exact Hget|]. exists s'. split; [exact Hrem|exact Hlost].
Defined.
