(* ===== verification/Vsprintf.v ===== *)
(** * Formatted printing

    [utils/vsprintf.c]: [number], [vsnprintf] and its front ends, and the
    [simple_strto*] readers. The output goes to memory through the class of
    [Mem], one character at a time and never past [end]; the format is the
    list of its characters, the variable arguments are the words on the
    stack, read in order. The specification is [render], which computes the
    whole output as a list; [vsnprintf] is proved to write the part of it that
    fits and to return its length. *)
From Stdlib Require Import ZArith Lia Bool.
From stdpp Require Import base list gmap option.
From S2P Require Import Prelude Mem StrScan Strlib.

Open Scope Z_scope.

(** ** Constants *)

Definition ZEROPAD : Z := 1.
Definition SIGN : Z := 2.
Definition PLUS : Z := 4.
Definition SPACE : Z := 8.
Definition LEFT : Z := 16.
Definition SPECIAL : Z := 32.
Definition LARGE : Z := 64.

Definition flag (type f : Z) : bool := negb (Z.land type f =? 0).

(** "0123456789abcdefghijklmnopqrstuvwxyz" and its upper-case form. *)
Definition small_digits : list Z := map (fun i => 48 + Z.of_nat i) (seq 0 10) ++ map (fun i => 97 + Z.of_nat i) (seq 0 26).
Definition large_digits : list Z := map (fun i => 48 + Z.of_nat i) (seq 0 10) ++ map (fun i => 65 + Z.of_nat i) (seq 0 26).
(** "<NULL>" *)
Definition null_string : list Z := [60; 78; 85; 76; 76; 62].
Definition PAGE_SIZE : Z := 4096.

(** ** Division of a 64-bit number by a 32-bit base, one digit at a time *)

(** The digit and the quotient; [divl] divides [upper:low] by the base. *)
Definition do_div (n base : Z) : Z * Z :=
  let low := u32 n in
  let high := n / 2 ^ 32 in
  let upper := if high =? 0 then high else high mod base in
  let high := if high =? 0 then high else high / base in
  let dividend := upper * 2 ^ 32 + low in
  (dividend mod base, high * 2 ^ 32 + u32 (dividend / base)).

Section printf.
Context {S : Type} `{Mem S}.

(** [if (str <= end) *str = c; ++str;] *)
Definition putc (end_ c str : Z) : M S Z :=
  (if str <=? end_ then store8 str c else mret tt);; mret (u32 (str + 1)).

(** A loop that puts the same character [n] times. *)
Fixpoint put_n (end_ c : Z) (n : nat) (str : Z) : M S Z :=
  match n with
  | O => mret str
  | Datatypes.S n' => str ← putc end_ c str; put_n end_ c n' str
  end.

(** [while (i-- > 0) put tmp[i]]: the digits from the last one on. *)
Fixpoint put_digits (end_ : Z) (tmp : list Z) (i : nat) (str : Z) : M S Z :=
  match i with
  | O => mret str
  | Datatypes.S i' =>
      match tmp !! i' with
      | None => mfail Segv
      | Some d => str ← putc end_ d str; put_digits end_ tmp i' str
      end
  end.

(** ** number *)

(** The digits of [num], lowest first, in [tmp], which has 66 bytes. *)
Fixpoint num_digits (fuel : nat) (digits : list Z) (num base : Z) (tmp : list Z) : outcome (list Z) :=
  if num =? 0 then Ok tmp
  else match fuel with
       | O => Fail Segv
       | Datatypes.S fuel' =>
           match digits !! Z.to_nat (fst (do_div num base)) with
           | None => Fail Segv
           | Some d => num_digits fuel' digits (snd (do_div num base)) base (tmp ++ [d])
           end
       end.

(** The sign character (0 for none), the magnitude and the remaining size. *)
Definition num_sign (num size type : Z) : Z * Z * Z :=
  if flag type SIGN then
    if 2 ^ 63 <=? num then (45, u64 (- num), size - 1)
    else if flag type PLUS then (43, num, size - 1)
    else if flag type SPACE then (32, num, size - 1)
    else (0, num, size)
  else (0, num, size).

(** [size] and [precision] are [int]s. The subtractions leave that range only for a width
    within 70 of its least value or a precision within 70 of its greatest; C leaves the
    result of such an overflow open, and no wrap-around is modelled there. *)
Definition number (end_ num base size precision type str : Z) : M S Z :=
  let digits := if flag type LARGE then large_digits else small_digits in
  let type := if flag type LEFT then Z.land type (Z.lnot ZEROPAD) else type in
  if (base <? 2) || (36 <? base) then mret 0
  else
    let c := if flag type ZEROPAD then 48 else 32 in
    let '(sign, num, size) := num_sign num size type in
    let size := if flag type SPECIAL then (if base =? 16 then size - 2 else if base =? 8 then size - 1 else size) else size in
    tmp ← mlift (if num =? 0 then Ok [48] else num_digits 66 digits num base []);
    let i := Z.of_nat (length tmp) in
    let precision := if precision <? i then i else precision in
    let size := size - precision in
    let spaces := negb (flag type (ZEROPAD + LEFT)) in
    str ← (if spaces then put_n end_ 32 (Z.to_nat size) str else mret str);
    let size := if spaces then Z.min size 0 - 1 else size in
    str ← (if negb (sign =? 0) then putc end_ sign str else mret str);
    str ← (if flag type SPECIAL then
             if base =? 8 then putc end_ 48 str
             else if base =? 16 then str ← putc end_ 48 str; putc end_ (nth 33 digits 0) str
             else mret str
           else mret str);
    str ← (if negb (flag type LEFT) then put_n end_ c (Z.to_nat size) str else mret str);
    let size := if negb (flag type LEFT) then Z.min size 0 - 1 else size in
    str ← put_n end_ 48 (Z.to_nat (precision - i)) str;
    str ← put_digits end_ tmp (length tmp) str;
    put_n end_ 32 (Z.to_nat size) str.

(** ** Reading the format *)

Fixpoint skip_atoi (s : list Z) (i : Z) : Z * list Z :=
  match s with
  | c :: s' => if isdigit c then skip_atoi s' (s32 (i * 10 + c - 48)) else (i, s)
  | [] => (i, [])
  end.

Fixpoint parse_flags (fmt : list Z) (flags : Z) : Z * list Z :=
  match fmt with
  | c :: fmt' =>
      if c =? 45 then parse_flags fmt' (Z.lor flags LEFT)
      else if c =? 43 then parse_flags fmt' (Z.lor flags PLUS)
      else if c =? 32 then parse_flags fmt' (Z.lor flags SPACE)
      else if c =? 35 then parse_flags fmt' (Z.lor flags SPECIAL)
      else if c =? 48 then parse_flags fmt' (Z.lor flags ZEROPAD)
      else (flags, fmt)
  | [] => (flags, [])
  end.

(** The variable arguments: the words on the stack and the next one to read. *)
Definition va_arg (args : nat -> Z) (n : nat) : Z := u32 (args n).
Definition va_int (args : nat -> Z) (n : nat) : Z := s32 (args n).
Definition va_long_long (args : nat -> Z) (n : nat) : Z := u32 (args n) + 2 ^ 32 * u32 (args (Datatypes.S n)).

(** A conversion up to its letter: flags, width, precision and qualifier (-1
    for none), the rest of the format and the next argument. *)
Record conv := mk_conv { flags : Z; field_width : Z; precision : Z; qualifier : Z; rest_fmt : list Z; next_arg : nat }.

Definition parse_width (args : nat -> Z) (fl : Z) (fmt : list Z) (n : nat) : Z * Z * list Z * nat :=
  match fmt with
  | c :: fmt' =>
      if isdigit c then let '(w, r) := skip_atoi fmt 0 in (fl, w, r, n)
      else if c =? 42 then
        let w := va_int args n in
        if w <? 0 then (Z.lor fl LEFT, s32 (- w), fmt', Datatypes.S n) else (fl, w, fmt', Datatypes.S n)
      else (fl, -1, fmt, n)
  | [] => (fl, -1, [], n)
  end.

Definition parse_precision (args : nat -> Z) (fmt : list Z) (n : nat) : Z * list Z * nat :=
  match fmt with
  | 46 :: fmt' =>
      let '(p, r, n) :=
        match fmt' with
        | c :: fmt'' =>
            if isdigit c then let '(p, r) := skip_atoi fmt' 0 in (p, r, n)
            else if c =? 42 then (va_int args n, fmt'', Datatypes.S n)
            else (-1, fmt', n)
        | [] => (-1, [], n)
        end in
      (if p <? 0 then 0 else p, r, n)
  | _ => (-1, fmt, n)
  end.

(** ['h'], ['l'], ['L'], ['Z'], ['z']; ["ll"] is ['L']. *)
Definition parse_qualifier (fmt : list Z) : Z * list Z :=
  match fmt with
  | c :: fmt' =>
      if (c =? 104) || (c =? 108) || (c =? 76) || (c =? 90) || (c =? 122) then
        match fmt' with
        | d :: fmt'' => if (c =? 108) && (d =? 108) then (76, fmt'') else (c, fmt')
        | [] => (c, [])
        end
      else (-1, fmt)
  | [] => (-1, [])
  end.

Definition parse_conv (args : nat -> Z) (fmt : list Z) (n : nat) : conv :=
  let '(fl, fmt) := parse_flags fmt 0 in
  let '(fl, w, fmt, n) := parse_width args fl fmt n in
  let '(p, fmt, n) := parse_precision args fmt n in
  let '(q, fmt) := parse_qualifier fmt in
  mk_conv fl w p q fmt n.

(** The number an integer conversion prints, and the argument after it. *)
Definition fetch_num (args : nat -> Z) (q fl : Z) (n : nat) : Z * nat :=
  if q =? 76 then (va_long_long args n, Datatypes.S (Datatypes.S n))
  else if q =? 108 then (if flag fl SIGN then u64 (s32 (va_arg args n)) else va_arg args n, Datatypes.S n)
  else if (q =? 90) || (q =? 122) then (va_arg args n, Datatypes.S n)
  else if q =? 104 then
    let v := u16 (va_arg args n) in
    (if flag fl SIGN then u64 (if v <? 2 ^ 15 then v else v - 2 ^ 16) else v, Datatypes.S n)
  else (if flag fl SIGN then u64 (s32 (va_arg args n)) else va_arg args n, Datatypes.S n).

(** ** vsnprintf *)

(** [simple_strnlen]; the count wraps at zero, so -1 is no bound. *)
Fixpoint simple_strnlen_loop (fuel : nat) (s count : Z) : M S Z :=
  if count =? 0 then mret s
  else match fuel with
       | O => mfail Fuel
       | Datatypes.S fuel' =>
           c ← load8 s;
           if c =? 0 then mret s else simple_strnlen_loop fuel' (u32 (s + 1)) (count - 1)
       end.
Definition simple_strnlen (fuel : nat) (s count : Z) : M S Z :=
  sc ← simple_strnlen_loop fuel s (u32 count); mret (u32 (sc - s)).

(** [for (i = 0; i < len; ++i)]: the characters at [s]. *)
Fixpoint put_string (end_ s : Z) (len : nat) (str : Z) : M S Z :=
  match len with
  | O => mret str
  | Datatypes.S len' => c ← load8 s; str ← putc end_ c str; put_string end_ (u32 (s + 1)) len' str
  end.

(** The characters of a string constant. *)
Fixpoint put_list (end_ : Z) (l : list Z) (str : Z) : M S Z :=
  match l with
  | [] => mret str
  | c :: l' => str ← putc end_ c str; put_list end_ l' str
  end.

Definition print_char (end_ fl w c str : Z) : M S Z :=
  let left := flag fl LEFT in
  str ← (if negb left then put_n end_ 32 (Z.to_nat (w - 1)) str else mret str);
  let w := if negb left then Z.min (w - 1) 0 else w in
  str ← putc end_ (u8 c) str;
  put_n end_ 32 (Z.to_nat (w - 1)) str.

Definition print_string (fuel : nat) (end_ fl w p s str : Z) : M S Z :=
  let null := s <? PAGE_SIZE in
  len ← (if null then mret (Z.of_nat (if p <? 0 then length null_string else Nat.min (Z.to_nat p) (length null_string)))
         else len ← simple_strnlen fuel s p; mret (s32 len));
  let left := flag fl LEFT in
  str ← (if negb left then put_n end_ 32 (Z.to_nat (w - len)) str else mret str);
  let w := if negb left then Z.min w len - 1 else w in
  str ← (if null then put_list end_ (take (Z.to_nat len) null_string) str else put_string end_ s (Z.to_nat len) str);
  put_n end_ 32 (Z.to_nat (w - len)) str.

(** One conversion: the new [str], the format after it and the next argument. *)
Definition print_conv (fuel : nat) (args : nat -> Z) (buf end_ : Z) (k : conv) (str : Z) : M S (Z * list Z * nat) :=
  let n := next_arg k in
  match rest_fmt k with
  | [] => str ← putc end_ 37 str; mret (str, [], n)
  | c :: fmt =>
      if c =? 99 then str ← print_char end_ (flags k) (field_width k) (va_int args n) str; mret (str, fmt, Datatypes.S n)
      else if c =? 115 then
        str ← print_string fuel end_ (flags k) (field_width k) (precision k) (va_arg args n) str; mret (str, fmt, Datatypes.S n)
      else if c =? 112 then
        let w := if field_width k =? -1 then 8 else field_width k in
        let fl := if field_width k =? -1 then Z.lor (flags k) ZEROPAD else flags k in
        str ← number end_ (va_arg args n) 16 w (precision k) fl str; mret (str, fmt, Datatypes.S n)
      else if c =? 110 then store32 (va_arg args n) (u32 (str - buf));; mret (str, fmt, Datatypes.S n)
      else if c =? 37 then str ← putc end_ 37 str; mret (str, fmt, n)
      else if (c =? 111) || (c =? 88) || (c =? 120) || (c =? 100) || (c =? 105) || (c =? 117) then
        let base := if c =? 111 then 8 else if (c =? 88) || (c =? 120) then 16 else 10 in
        let fl := if c =? 88 then Z.lor (flags k) LARGE else if (c =? 100) || (c =? 105) then Z.lor (flags k) SIGN else flags k in
        let '(num, n) := fetch_num args (qualifier k) fl n in
        str ← number end_ num base (field_width k) (precision k) fl str; mret (str, fmt, n)
      else str ← putc end_ 37 str; str ← putc end_ c str; mret (str, fmt, n)
  end.

(** The loop over the format; every round consumes a character of it. *)
Fixpoint print_loop (rounds fuel : nat) (args : nat -> Z) (buf end_ : Z) (fmt : list Z) (n : nat) (str : Z) : M S Z :=
  match fmt with
  | [] => mret str
  | c :: fmt' =>
      match rounds with
      | O => mfail Fuel
      | Datatypes.S rounds' =>
          if negb (c =? 37) then str ← putc end_ c str; print_loop rounds' fuel args buf end_ fmt' n str
          else
            r ← print_conv fuel args buf end_ (parse_conv args fmt' n) str;
            let '(str, fmt, n) := r in print_loop rounds' fuel args buf end_ fmt n str
      end
  end.

Definition vsnprintf (fuel : nat) (buf size : Z) (fmt : list Z) (args : nat -> Z) : M S Z :=
  if s32 size <? 0 then mret 0
  else
    let end_ := u32 (buf + size - 1) in
    let wraps := end_ <? u32 (buf - 1) in
    let end_ := if wraps then u32 (-1) else end_ in
    let size := if wraps then u32 (end_ - buf + 1) else size in
    str ← print_loop (length fmt) fuel args buf end_ fmt 0 buf;
    (if str <=? end_ then store8 str 0 else if 0 <? size then store8 end_ 0 else mret tt);;
    mret (s32 (str - buf)).

Definition INT_MAX : Z := 2 ^ 31 - 1.

Definition vscnprintf (fuel : nat) (buf size : Z) (fmt : list Z) (args : nat -> Z) : M S Z :=
  i ← vsnprintf fuel buf size fmt args; mret (if size <=? u32 i then s32 (size - 1) else i).
Definition snprintf (fuel : nat) (buf size : Z) (fmt : list Z) (args : nat -> Z) : M S Z := vsnprintf fuel buf size fmt args.
Definition scnprintf (fuel : nat) (buf size : Z) (fmt : list Z) (args : nat -> Z) : M S Z :=
  i ← vsnprintf fuel buf size fmt args; mret (if size <=? u32 i then s32 (size - 1) else i).
Definition vsprintf (fuel : nat) (buf : Z) (fmt : list Z) (args : nat -> Z) : M S Z := vsnprintf fuel buf INT_MAX fmt args.
Definition sprintf (fuel : nat) (buf : Z) (fmt : list Z) (args : nat -> Z) : M S Z := vsnprintf fuel buf INT_MAX fmt args.

(** ** Reading numbers *)

Definition isxdigit (c : Z) : bool := isdigit c || ((65 <=? c) && (c <=? 70)) || ((97 <=? c) && (c <=? 102)).

(** [isdigit(c) ? c - '0' : toupper(c) - 'A' + 10] *)
Definition digit_value (c : Z) : Z := if isdigit c then c - 48 else toupper c - 65 + 10.

(** The base, once a base of 0 is resolved, and the first digit. *)
Definition strto_base (cp base : Z) : M S (Z * Z) :=
  if base =? 0 then
    c ← load8 cp;
    if c =? 48 then
      x ← load8 (u32 (cp + 1));
      if toupper x =? 88 then
        d ← load8 (u32 (cp + 2));
        mret (if isxdigit d then (16, u32 (cp + 2)) else (8, u32 (cp + 1)))
      else mret (8, u32 (cp + 1))
    else mret (10, cp)
  else if base =? 16 then
    c ← load8 cp;
    if c =? 48 then
      x ← load8 (u32 (cp + 1)); mret (base, if toupper x =? 88 then u32 (cp + 2) else cp)
    else mret (base, cp)
  else mret (base, cp).

(** The digits; [wrap] is the width of the result. *)
Fixpoint strto_loop (wrap : Z -> Z) (fuel : nat) (base cp result : Z) : M S (Z * Z) :=
  match fuel with
  | O => mfail Fuel
  | Datatypes.S fuel' =>
      c ← load8 cp;
      if isxdigit c && (digit_value c <? base)
      then strto_loop wrap fuel' base (u32 (cp + 1)) (wrap (result * base + digit_value c))
      else mret (result, cp)
  end.

(** The result and [*endp]. *)
Definition simple_strtoul (fuel : nat) (cp base : Z) : M S (Z * Z) :=
  bc ← strto_base cp base; strto_loop u32 fuel (fst bc) (snd bc) 0.
Definition simple_strtoull (fuel : nat) (cp base : Z) : M S (Z * Z) :=
  bc ← strto_base cp base; strto_loop u64 fuel (fst bc) (snd bc) 0.
Definition simple_strtol (fuel : nat) (cp base : Z) : M S (Z * Z) :=
  c ← load8 cp;
  if c =? 45 then r ← simple_strtoul fuel (u32 (cp + 1)) base; mret (s32 (- fst r), snd r)
  else r ← simple_strtoul fuel cp base; mret (s32 (fst r), snd r).
Definition s64 (z : Z) : Z := let w := u64 z in if w <? 2 ^ 63 then w else w - 2 ^ 64.
Definition simple_strtoll (fuel : nat) (cp base : Z) : M S (Z * Z) :=
  c ← load8 cp;
  if c =? 45 then r ← simple_strtoull fuel (u32 (cp + 1)) base; mret (s64 (- fst r), snd r)
  else r ← simple_strtoull fuel cp base; mret (s64 (fst r), snd r).

(** ** vsscanf *)

(** [while (p( *str )) str++;] *)
Fixpoint skip_while (p : Z -> bool) (fuel : nat) (str : Z) : M S Z :=
  match fuel with
  | O => mfail Fuel
  | Datatypes.S fuel' => c ← load8 str; if p c then skip_while p fuel' (u32 (str + 1)) else mret str
  end.

(** The same on the format. *)
Fixpoint drop_while (p : Z -> bool) (fmt : list Z) : list Z :=
  match fmt with
  | c :: fmt' => if p c then drop_while p fmt' else fmt
  | [] => []
  end.

(** [do { *s++ = *str++; } while (--field_width > 0 && *str);] *)
Fixpoint scan_chars (fuel : nat) (s str field_width : Z) : M S Z :=
  match fuel with
  | O => mfail Fuel
  | Datatypes.S fuel' =>
      c ← load8 str; store8 s c;;
      let field_width := field_width - 1 in
      if 0 <? field_width then
        c ← load8 (u32 (str + 1));
        if c =? 0 then mret (u32 (str + 1)) else scan_chars fuel' (u32 (s + 1)) (u32 (str + 1)) field_width
      else mret (u32 (str + 1))
  end.

(** [while ( *str && !isspace( *str ) && field_width-- ) *s++ = *str++; *s = 0;] *)
Fixpoint scan_word (fuel : nat) (s str field_width : Z) : M S Z :=
  match fuel with
  | O => mfail Fuel
  | Datatypes.S fuel' =>
      c ← load8 str;
      if negb (c =? 0) && negb (isspace c) && negb (field_width =? 0)
      then store8 s c;; scan_word fuel' (u32 (s + 1)) (u32 (str + 1)) (field_width - 1)
      else store8 s 0;; mret str
  end.

(** ['h'], ['l'], ['L'], ['Z'], ['z']; ["hh"] is ['H'] and ["ll"] is ['L']. *)
Definition scan_qualifier (fmt : list Z) : Z * list Z :=
  match fmt with
  | c :: fmt' =>
      if (c =? 104) || (c =? 108) || (c =? 76) || (c =? 90) || (c =? 122) then
        match fmt' with
        | d :: fmt'' =>
            if c =? d then
              if c =? 104 then (72, fmt'') else if c =? 108 then (76, fmt'') else (c, fmt')
            else (c, fmt')
        | [] => (c, [])
        end
      else (-1, fmt)
  | [] => (-1, [])
  end.

(** The conversion and the store through the next argument; the end pointer. *)
Definition scan_number (fuel : nat) (q : Z) (is_sign : bool) (str base ip : Z) : M S Z :=
  if q =? 76 then
    r ← (if is_sign then simple_strtoll fuel str base else simple_strtoull fuel str base);
    store32 ip (u32 (fst r));; store32 (u32 (ip + 4)) (u32 (fst r / 2 ^ 32));; mret (snd r)
  else
    r ← (if is_sign && negb ((q =? 90) || (q =? 122)) then simple_strtol fuel str base else simple_strtoul fuel str base);
    (if q =? 72 then store8 ip (u8 (fst r))
     else if q =? 104 then store8 ip (u8 (fst r));; store8 (u32 (ip + 1)) (u8 (fst r / 2 ^ 8))
     else store32 ip (u32 (fst r)));;
    mret (snd r).

(** What one conversion decides: the result, or where to go on (format, input,
    next argument, conversions done). *)
Definition scan_next : Type := Z + (list Z * Z * nat * Z).

Definition scan_integer (fuel : nat) (args : nat -> Z) (q : Z) (base : Z) (is_sign : bool) (fmt : list Z) (str : Z) (n : nat) (num : Z) : M S scan_next :=
  str ← skip_while isspace fuel str;
  c ← load8 str;
  digit ← (if is_sign && (c =? 45) then load8 (u32 (str + 1)) else mret c);
  if (digit =? 0) || ((base =? 16) && negb (isxdigit digit)) || ((base =? 10) && negb (isdigit digit)) ||
     ((base =? 8) && (negb (isdigit digit) || (55 <? digit))) || ((base =? 0) && negb (isdigit digit))
  then mret (inl num)
  else
    next ← scan_number fuel q is_sign str base (va_arg args n);
    mret (if next =? 0 then inl (num + 1) else inr (fmt, next, Datatypes.S n, num + 1)).

(** One conversion, after its [%]; [buf] is the start of the input. *)
Definition scan_conv (fuel : nat) (args : nat -> Z) (buf : Z) (fmt : list Z) (str : Z) (n : nat) (num : Z) : M S scan_next :=
  match fmt with
  | 42 :: _ =>
      str ← skip_while (fun c => negb (isspace c) && negb (c =? 0)) fuel str;
      mret (inr (drop_while (fun c => negb (isspace c)) fmt, str, n, num))
  | _ =>
      let '(field_width, fmt) := match fmt with c :: _ => if isdigit c then skip_atoi fmt 0 else (-1, fmt) | [] => (-1, fmt) end in
      let '(q, fmt) := scan_qualifier fmt in
      c ← load8 str;
      match fmt with
      | [] => mret (inl num)
      | d :: fmt =>
          if c =? 0 then mret (inl num)
          else if d =? 99 then
            str ← scan_chars fuel (va_arg args n) str (if field_width =? -1 then 1 else field_width);
            mret (inr (fmt, str, Datatypes.S n, num + 1))
          else if d =? 115 then
            str ← skip_while isspace fuel str;
            str ← scan_word fuel (va_arg args n) str (if field_width =? -1 then INT_MAX else field_width);
            mret (inr (fmt, str, Datatypes.S n, num + 1))
          else if d =? 110 then store32 (va_arg args n) (u32 (str - buf));; mret (inr (fmt, str, Datatypes.S n, num))
          else if d =? 111 then scan_integer fuel args q 8 false fmt str n num
          else if (d =? 120) || (d =? 88) then scan_integer fuel args q 16 false fmt str n num
          else if d =? 105 then scan_integer fuel args q 0 true fmt str n num
          else if d =? 100 then scan_integer fuel args q 10 true fmt str n num
          else if d =? 117 then scan_integer fuel args q 10 false fmt str n num
          else if d =? 37 then mret (if c =? 37 then inr (fmt, u32 (str + 1), n, num) else inl num)
          else mret (inl num)
      end
  end.

(** The loop; every round consumes a character of the format. *)
Fixpoint scan_loop (rounds fuel : nat) (args : nat -> Z) (buf : Z) (fmt : list Z) (str : Z) (n : nat) (num : Z) : M S Z :=
  match fmt with
  | [] => mret num
  | f :: _ =>
      c ← load8 str;
      if c =? 0 then mret num
      else match rounds with
      | O => mfail Fuel
      | Datatypes.S rounds' =>
          str ← (if isspace f then skip_while isspace fuel str else mret str);
          match (if isspace f then drop_while isspace fmt else fmt) with
          | [] => mret num
          | f :: fmt =>
              if negb (f =? 37) then
                c ← load8 str;
                if f =? c then scan_loop rounds' fuel args buf fmt (u32 (str + 1)) n num else mret num
              else
                r ← scan_conv fuel args buf fmt str n num;
                match r with
                | inl num => mret num
                | inr (fmt, str, n, num) => scan_loop rounds' fuel args buf fmt str n num
                end
          end
      end
  end.

Definition vsscanf (fuel : nat) (buf : Z) (fmt : list Z) (args : nat -> Z) : M S Z := scan_loop (length fmt) fuel args buf fmt buf 0 0.
Definition sscanf (fuel : nat) (buf : Z) (fmt : list Z) (args : nat -> Z) : M S Z := vsscanf fuel buf fmt args.
End printf.

(** ** The specification *)

(** The digits of [num] in [base], highest first. *)
Fixpoint base_digits (fuel : nat) (digits : list Z) (num base : Z) (acc : list Z) : list Z :=
  match fuel with
  | O => acc
  | S fuel' => if num =? 0 then acc else base_digits fuel' digits (num / base) base (nth (Z.to_nat (num mod base)) digits 0 :: acc)
  end.
Definition magnitude (digits : list Z) (num base : Z) : list Z :=
  if num =? 0 then [48] else base_digits 64 digits num base [].

Definition blanks (n : Z) : list Z := replicate (Z.to_nat n) 32.
Definition zeros (n : Z) : list Z := replicate (Z.to_nat n) 48.

(** A number: blanks, the sign, the prefix, zeros for the width or the
    precision, the digits, blanks. *)
Definition render_number (num base w p type : Z) : list Z :=
  let digits := if flag type LARGE then large_digits else small_digits in
  let left := flag type LEFT in
  let zpad := negb left && flag type ZEROPAD in
  let neg := flag type SIGN && (2 ^ 63 <=? num) in
  let sign := if flag type SIGN then (if 2 ^ 63 <=? num then [45] else if flag type PLUS then [43] else if flag type SPACE then [32] else []) else [] in
  let prefix := if flag type SPECIAL then (if base =? 16 then [48; nth 33 digits 0] else if base =? 8 then [48] else []) else [] in
  let ds := magnitude digits (if neg then u64 (- num) else num) base in
  let body := zeros (p - Z.of_nat (length ds)) ++ ds in
  let room := w - Z.of_nat (length sign + length prefix + length body) in
  (if negb left && negb zpad then blanks room else []) ++ sign ++ prefix ++
  (if zpad then zeros room else []) ++ body ++ (if left then blanks room else []).

Definition render_text (l : list Z) (left : bool) (w : Z) : list Z :=
  let room := w - Z.of_nat (length l) in
  if left then l ++ blanks room else blanks room ++ l.

(** [V] shows the strings the arguments point to; [None] when a [%s] argument
    is no string of at most [fuel] characters. [%n] is left out. *)
Section render.
Context (V : Z -> option Z) (args : nat -> Z) (fuel : nat).

(** The first [p] characters at [s], all of them when [p < 0]. *)
Fixpoint text_at (fuel : nat) (s p : Z) : option (list Z) :=
  if p =? 0 then Some []
  else match fuel with
       | O => None
       | S fuel' =>
           match V s with
           | None => None
           | Some b => if b =? 0 then Some [] else cons b <$> text_at fuel' (s + 1) (p - 1)
           end
       end.

(** The characters a [%s] argument shows; a null pointer shows as [<NULL>]. *)
Definition string_arg (s p : Z) : option (list Z) :=
  if s <? PAGE_SIZE then Some (if p <? 0 then null_string else take (Z.to_nat p) null_string) else text_at fuel s p.

Definition render_conv (k : conv) : option (list Z * list Z * nat) :=
  let n := next_arg k in
  match rest_fmt k with
  | [] => Some ([37], [], n)
  | c :: fmt =>
      if c =? 99 then Some (render_text [u8 (va_int args n)] (flag (flags k) LEFT) (field_width k), fmt, S n)
      else if c =? 115 then
        match string_arg (va_arg args n) (precision k) with
        | Some t => Some (render_text t (flag (flags k) LEFT) (field_width k), fmt, S n)
        | None => None
        end
      else if c =? 112 then
        let auto := field_width k =? -1 in
        Some (render_number (va_arg args n) 16 (if auto then 8 else field_width k) (precision k)
                (if auto then Z.lor (flags k) ZEROPAD else flags k), fmt, S n)
      else if c =? 110 then None
      else if c =? 37 then Some ([37], fmt, n)
      else if (c =? 111) || (c =? 88) || (c =? 120) || (c =? 100) || (c =? 105) || (c =? 117) then
        let base := if c =? 111 then 8 else if (c =? 88) || (c =? 120) then 16 else 10 in
        let fl := if c =? 88 then Z.lor (flags k) LARGE else if (c =? 100) || (c =? 105) then Z.lor (flags k) SIGN else flags k in
        let '(num, n) := fetch_num args (qualifier k) fl n in
        Some (render_number num base (field_width k) (precision k) fl, fmt, n)
      else Some ([37; c], fmt, n)
  end.

Fixpoint render (rounds : nat) (fmt : list Z) (n : nat) : option (list Z) :=
  match fmt with
  | [] => Some []
  | c :: fmt' =>
      match rounds with
      | O => None
      | S rounds' =>
          if negb (c =? 37) then cons c <$> render rounds' fmt' n
          else
            match render_conv (parse_conv args fmt' n) with
            | Some (out, fmt, n) => app out <$> render rounds' fmt n
            | None => None
            end
      end
  end.
End render.

(** ** Output, one character at a time *)

Section emits.
Context {S : Type} `{MemLaws S} (V : Z -> option Z) (R : rest_type (S:=S)) (buf : Z) (cap limit : nat).
Context (Hbuf : 0 < buf) (Hcap : buf + Z.of_nat cap <= 2 ^ 32) (Hlim : buf + Z.of_nat limit < 2 ^ 32 /\ Z.of_nat limit < 2 ^ 31).
Context (Hown : forall x, buf <= x < buf + Z.of_nat (Nat.min cap (limit + 1)) -> is_Some (V x)).
#[local] Abbreviation last := (buf + Z.of_nat cap - 1).

(** The characters [out] have been put: memory holds those that fit. *)
Definition put_so_far (out : list Z) (s : S) : Prop :=
  mem_ok s /\ rest s = R /\ forall x, view s x = written V buf (take cap out) x.

(** [limit] is the length of the whole output. *)
Definition fits (out : list Z) : Prop := (length out <= limit)%nat.

(** A step that takes [str] and returns the new [str] puts [l]. *)
Definition emits (m : Z -> M S Z) (l : list Z) : Prop := forall out s, put_so_far out s -> fits (out ++ l) ->
  exists s', m (buf + Z.of_nat (length out)) s = Ok (buf + Z.of_nat (length (out ++ l)), s') /\ put_so_far (out ++ l) s'.

Lemma fits_app_l out l : fits (out ++ l) -> fits out.
Proof. unfold fits. rewrite length_app. lia. Qed.

Lemma emits_nil : emits mret [].
Proof. intros out s Hs _. exists s. by rewrite app_nil_r. Qed.

Lemma emits_app m1 m2 l1 l2 : emits m1 l1 -> emits m2 l2 -> emits (fun str => str ← m1 str; m2 str) (l1 ++ l2).
Proof.
  intros H1 H2 out s Hs Hf. rewrite app_assoc in *. destruct (H1 out s Hs) as (s1 & E1 & Hs1); [by eapply fits_app_l|].
  destruct (H2 _ s1 Hs1 Hf) as (s2 & E2 & Hs2). exists s2. by rewrite (bind_step _ _ _ _ _ E1).
Qed.

Lemma emits_if (b : bool) m1 m2 l1 l2 : emits m1 l1 -> emits m2 l2 ->
  emits (fun str => if b then m1 str else m2 str) (if b then l1 else l2).
Proof. by destruct b. Qed.

Lemma emits_putc c : is_u8 c -> emits (putc last c) [c].
Proof.
  intros Hc out s (Hok & Hr & Hv) Hf. unfold putc. unfold fits in Hf. rewrite length_app in *. simpl in *.
  assert (u32 (buf + Z.of_nat (length out) + 1) = buf + Z.of_nat (length out + 1)) as Hu
    by (rewrite u32_small; unfold is_u32; lia).
  destruct (Z.leb_spec (buf + Z.of_nat (length out)) last) as [Hle|Hgt].
  - destruct (store8_written s (buf + Z.of_nat (length out)) c Hok) as (s' & E & Hok' & Hr' & Hv'); [|done|].
    { rewrite Hv. apply written_some, Hown. lia. }
    exists s'. rewrite (bind_step _ _ _ _ _ E), Hu. split; [done|]. split; [done|]. split; [congruence|].
    intros x. rewrite Hv', Hv, !take_ge by (rewrite ?length_app; simpl; lia). by rewrite written_snoc.
  - exists s. rewrite (bind_step _ _ _ _ _ (mret_ok tt s)), Hu. split; [done|]. split; [done|]. split; [done|].
    intros x. rewrite take_app_le by lia. apply Hv.
Qed.

Lemma emits_put_n c n : is_u8 c -> emits (put_n last c n) (replicate n c).
Proof.
  intros Hc. induction n as [|n IH]; [apply emits_nil|].
  apply (emits_app (putc last c) (put_n last c n) [c]); [by apply emits_putc|done].
Qed.

Lemma emits_put_list l : Forall is_u8 l -> emits (put_list last l) l.
Proof.
  induction 1 as [|c l Hc Hl IH]; [apply emits_nil|].
  apply (emits_app (putc last c) (put_list last l) [c]); [by apply emits_putc|done].
Qed.

Lemma emits_put_digits tmp i : Forall is_u8 tmp -> (i <= length tmp)%nat -> emits (put_digits last tmp i) (rev (take i tmp)).
Proof.
  intros Ht. induction i as [|i IH]; intros Hi; [apply emits_nil|]. cbn [put_digits].
  destruct (lookup_lt_is_Some_2 tmp i) as [d Hd]; [lia|]. rewrite Hd. rewrite (take_S_r _ _ _ Hd), rev_unit.
  apply (emits_app (putc last d) (put_digits last tmp i) [d]); [|apply IH; lia].
  apply emits_putc. by eapply (Forall_lookup_1 _ _ _ _ Ht).
Qed.

(** Putting [l] by a step that first runs something pure. *)
Lemma emits_eq m l l' : emits m l -> l = l' -> emits m l'.
Proof. by intros ? <-. Qed.

Lemma emits_ext m m' l : (forall str s, m str s = m' str s) -> emits m l -> emits m' l.
Proof. intros E Hm out s Hs Hf. destruct (Hm out s Hs Hf) as (s' & E' & Hs'). exists s'. by rewrite <- E. Qed.
End emits.

(** ** Digits *)

Lemma do_div_ok n base : 0 <= n < 2 ^ 64 -> 0 < base < 2 ^ 32 -> do_div n base = (n mod base, n / base).
Proof.
  intros Hn Hb. unfold do_div, u32. set (h := n / 2 ^ 32). set (l := n mod 2 ^ 32).
  assert (n = h * 2 ^ 32 + l) as E by (unfold h, l; pose proof (Z.div_mod n (2 ^ 32)); lia).
  assert (0 <= h < 2 ^ 32) as Hh by (unfold h; split; [apply Z.div_pos; lia|apply Z.div_lt_upper_bound; lia]).
  assert (0 <= l < 2 ^ 32) as Hl by (apply Z.mod_pos_bound; lia).
  replace (if h =? 0 then h else h mod base) with (h mod base) by (destruct (Z.eqb_spec h 0) as [->|]; [by rewrite Z.mod_0_l by lia|done]).
  replace (if h =? 0 then h else h / base) with (h / base) by (destruct (Z.eqb_spec h 0) as [->|]; [by rewrite Z.div_0_l by lia|done]).
  pose proof (Z.mod_pos_bound h base ltac:(lia)) as Hr. pose proof (Z.div_mod h base ltac:(lia)) as Eh.
  set (d := h mod base * 2 ^ 32 + l).
  assert (n = h / base * 2 ^ 32 * base + d) as En by (unfold d; nia).
  rewrite (Z.mod_small (d / base)) by (split; [apply Z.div_pos; unfold d; nia|apply Z.div_lt_upper_bound; unfold d; nia]).
  rewrite En, (Z.add_comm (_ * base)), Z.mod_add, Z.div_add by lia. f_equal. lia.
Qed.

Lemma lookup_nth (l : list Z) i : (i < length l)%nat -> l !! i = Some (nth i l 0).
Proof. intros Hi. destruct (lookup_lt_is_Some_2 l i Hi) as [x Hx]. by rewrite Hx, (nth_lookup_Some _ _ _ _ Hx). Qed.

Lemma num_digits_ok f f' k digits num base tmp : length digits = 36%nat -> 2 <= base <= 36 -> (k <= 64)%nat ->
  0 <= num < 2 ^ Z.of_nat k -> (k <= f)%nat -> (k <= f')%nat ->
  exists t, num_digits f digits num base tmp = Ok t /\ rev t = base_digits f' digits num base (rev tmp).
Proof.
  intros Hd Hb. revert f f' num tmp. induction k as [|k IH]; intros f f' num tmp Hk Hn Hf Hf'.
  - assert (num = 0) as -> by (simpl in Hn; lia). exists tmp. split; [by destruct f|by destruct f'].
  - destruct f as [|f]; [lia|]. destruct f' as [|f']; [lia|]. cbn [num_digits base_digits].
    destruct (Z.eqb_spec num 0) as [|Hnz]; [eauto|].
    assert (2 ^ Z.of_nat (S k) <= 2 ^ 64) by (apply Z.pow_le_mono_r; lia).
    rewrite do_div_ok by lia. cbn [fst snd]. pose proof (Z.mod_pos_bound num base ltac:(lia)).
    rewrite lookup_nth by lia. destruct (IH f f' (num / base) (tmp ++ [nth (Z.to_nat (num mod base)) digits 0])) as (t & -> & Et); [lia| |lia..|].
    { rewrite Nat2Z.inj_succ, Z.pow_succ_r in Hn by lia. split; [apply Z.div_pos; lia|apply Z.div_lt_upper_bound; nia]. }
    exists t. split; [done|]. by rewrite Et, rev_unit.
Qed.

Lemma base_digits_forall (P : Z -> Prop) digits f num base acc : Forall P digits -> P 0 -> Forall P acc ->
  Forall P (base_digits f digits num base acc).
Proof.
  intros Hd H0. revert num acc. induction f as [|f IH]; intros num acc Ha; cbn [base_digits]; [done|].
  destruct (num =? 0); [done|]. apply IH. constructor; [|done].
  set (i := Z.to_nat (num mod base)). destruct (digits !! i) as [d|] eqn:E.
  - rewrite (nth_lookup_Some _ _ _ _ E). by eapply (Forall_lookup_1 _ _ _ _ Hd).
  - rewrite nth_overflow; [done|]. by apply lookup_ge_None.
Qed.

Lemma digit_sets_u8 b : Forall is_u8 (if b : bool then large_digits else small_digits).
Proof. destruct b; repeat (constructor; [unfold is_u8; cbv; split; congruence|]); constructor. Qed.

Lemma digit_sets_length b : length (if b : bool then large_digits else small_digits) = 36%nat.
Proof. by destruct b. Qed.

Lemma magnitude_u8 b num base : Forall is_u8 (magnitude (if b : bool then large_digits else small_digits) num base).
Proof.
  unfold magnitude. destruct (num =? 0); [repeat constructor; lia|].
  apply base_digits_forall; [apply digit_sets_u8|unfold is_u8; lia|constructor].
Qed.

(** ** Parsing *)

Lemma skip_atoi_ok s i : - 2 ^ 31 <= i < 2 ^ 31 ->
  - 2 ^ 31 <= fst (skip_atoi s i) < 2 ^ 31 /\ exists pre, s = pre ++ snd (skip_atoi s i).
Proof.
  revert i. induction s as [|c s IH]; intros i Hi; cbn [skip_atoi]; [split; [done|by exists []]|].
  destruct (isdigit c); [|split; [done|by exists []]]. destruct (IH (s32 (i * 10 + c - 48)) (s32_range _)) as [Hr [pre E]].
  split; [done|]. exists (c :: pre). simpl. by rewrite <- E.
Qed.

Lemma parse_flags_ok fmt fl : exists pre, fmt = pre ++ snd (parse_flags fmt fl).
Proof.
  revert fl. induction fmt as [|c fmt IH]; intros fl; cbn [parse_flags]; [by exists []|].
  repeat (destruct (_ =? _); [match goal with |- context [parse_flags fmt ?f] => destruct (IH f) as [pre E] end;
    exists (c :: pre); simpl; by rewrite <- E|]). by exists [].
Qed.

Lemma parse_width_ok args fl fmt n : exists pre, fmt = pre ++ snd (fst (parse_width args fl fmt n)).
Proof.
  unfold parse_width. destruct fmt as [|c fmt]; [by exists []|]. destruct (isdigit c).
  - destruct (skip_atoi_ok (c :: fmt) 0) as [_ [pre E]]; [lia|]. destruct (skip_atoi _ _). by exists pre.
  - destruct (c =? 42); [|by exists []]. exists [c]. by destruct (va_int args n <? 0).
Qed.

Lemma parse_precision_ok args fmt n : (exists pre, fmt = pre ++ snd (fst (parse_precision args fmt n))) /\
  -1 <= fst (fst (parse_precision args fmt n)) < 2 ^ 31.
Proof.
  assert (forall x, x < 2 ^ 31 -> -1 <= (if x <? 0 then 0 else x) < 2 ^ 31) as Hx by (intros x; destruct (Z.ltb_spec x 0); lia).
  unfold parse_precision. destruct fmt as [|c fmt]; [split; [by exists []|simpl; lia]|].
  destruct (Z.eq_dec c 46) as [->|Hc].
  - destruct fmt as [|d fmt]; [split; [by exists [46]|simpl; lia]|]. destruct (isdigit d).
    + destruct (skip_atoi_ok (d :: fmt) 0) as [Hr [pre E]]; [lia|]. destruct (skip_atoi _ _) as [p r].
      split; [exists (46 :: pre); simpl in *; by rewrite E|apply Hx; simpl in Hr; lia].
    + destruct (d =? 42); [split; [by exists [46; d]|apply (Hx (va_int args n)), s32_range]|split; [by exists [46]|simpl; lia]].
  - match goal with |- (exists pre, _ = _ ++ snd (fst ?x)) /\ _ => replace x with (-1, c :: fmt, n) end; [split; [by exists []|simpl; lia]|].
    destruct c as [|c|c]; [done| |done]. do 6 (destruct c as [c|c|]; try done).
Qed.

Lemma parse_qualifier_ok fmt : exists pre, fmt = pre ++ snd (parse_qualifier fmt).
Proof.
  unfold parse_qualifier. destruct fmt as [|c fmt]; [by exists []|]. destruct (_ || _); [|by exists []].
  destruct fmt as [|d fmt]; [by exists [c]|]. destruct (_ && _); [by exists [c; d]|by exists [c]].
Qed.

(** A conversion leaves a suffix of the format and a precision of an [int]. *)
Lemma parse_conv_ok args fmt n : exists pre, fmt = pre ++ rest_fmt (parse_conv args fmt n) /\
  -1 <= precision (parse_conv args fmt n) < 2 ^ 31.
Proof.
  unfold parse_conv. destruct (parse_flags_ok fmt 0) as [p1 E1]. destruct (parse_flags fmt 0) as [fl f1].
  destruct (parse_width_ok args fl f1 n) as [p2 E2]. destruct (parse_width args fl f1 n) as [[[fl' w] f2] n2].
  destruct (parse_precision_ok args f2 n2) as [[p3 E3] Hp]. destruct (parse_precision args f2 n2) as [[p f3] n3].
  destruct (parse_qualifier_ok f3) as [p4 E4]. destruct (parse_qualifier f3) as [q f4].
  exists (p1 ++ p2 ++ p3 ++ p4). split; [|done]. cbn [fst snd rest_fmt] in *. by rewrite E1, E2, E3, E4, <- !app_assoc.
Qed.

Lemma render_conv_suffix V args fuel k out fmt n : render_conv V args fuel k = Some (out, fmt, n) -> exists pre, rest_fmt k = pre ++ fmt.
Proof.
  unfold render_conv. destruct (rest_fmt k) as [|c r]; [intros [= <- <- <-]; by exists []|].
  repeat case_match; intros; simplify_eq; by exists [c].
Qed.

Lemma fetch_num_range args q fl n : 0 <= fst (fetch_num args q fl n) < 2 ^ 64.
Proof.
  assert (forall x, 0 <= u32 x < 2 ^ 32) as H32 by (intros x; apply u32_range).
  assert (forall x, 0 <= u64 x < 2 ^ 64) as H64 by (intros x; apply Z.mod_pos_bound; lia).
  assert (forall x, 0 <= u16 x < 2 ^ 16) as H16 by (intros x; apply Z.mod_pos_bound; lia).
  pose proof (H32 (args n)). pose proof (H32 (args (Datatypes.S n))). pose proof (H16 (va_arg args n)).
  unfold fetch_num, va_long_long, va_arg in *.
  destruct (q =? 76); [cbn [fst]; lia|]. destruct (q =? 108); [cbn [fst]; destruct (flag fl SIGN); [apply H64|lia]|].
  destruct ((q =? 90) || (q =? 122)); [cbn [fst]; lia|].
  destruct (q =? 104); cbn [fst]; (destruct (flag fl SIGN); [apply H64|lia]).
Qed.

(** ** number *)

Lemma flag_land t m f : Z.land m f = f -> flag (Z.land t m) f = flag t f.
Proof. intros E. unfold flag. by rewrite <- Z.land_assoc, E. Qed.

Lemma flag_or t f g : flag t (Z.lor f g) = flag t f || flag t g.
Proof.
  unfold flag. rewrite Z.land_lor_distr_r. destruct (Z.eqb_spec (Z.land t f) 0) as [E|E]; cbn [negb orb].
  - by rewrite E, Z.lor_0_l.
  - apply negb_true_iff, Z.eqb_neq. intros Ho. by apply Z.lor_eq_0_iff in Ho as [? _].
Qed.

Lemma flag_cleared t : flag (Z.land t (Z.lnot ZEROPAD)) ZEROPAD = false.
Proof. unfold flag. by rewrite <- Z.land_assoc, Z.land_0_r. Qed.

Section printing.
Context {S : Type} `{MemLaws S} (V : Z -> option Z) (R : rest_type (S:=S)) (buf : Z) (cap limit : nat).
Context (Hbuf : 0 < buf) (Hcap : buf + Z.of_nat cap <= 2 ^ 32) (Hlim : buf + Z.of_nat limit < 2 ^ 32 /\ Z.of_nat limit < 2 ^ 31).
Context (Hown : forall x, buf <= x < buf + Z.of_nat (Nat.min cap (limit + 1)) -> is_Some (V x)).
#[local] Abbreviation last := (buf + Z.of_nat cap - 1).
#[local] Abbreviation Emits := (emits V R buf cap limit).

(** The output of [number] once the sign, the magnitude and the flags are
    known: [size] is what is left of the width after sign, prefix and body. *)
Lemma number_parts (left zpad : bool) (sign : Z) (special : bool) base x tmp prec size :
  is_u8 sign -> is_u8 x -> Forall is_u8 tmp -> (left = true -> zpad = false) ->
  Emits (fun str =>
    str ← (if negb (zpad || left) then put_n last 32 (Z.to_nat size) str else mret str);
    str ← (if negb (sign =? 0) then putc last sign str else mret str);
    str ← (if special then
             if base =? 8 then putc last 48 str
             else if base =? 16 then str ← putc last 48 str; putc last x str
             else mret str
           else mret str);
    str ← (if negb left then put_n last (if zpad then 48 else 32)
             (Z.to_nat (if negb (zpad || left) then Z.min size 0 - 1 else size)) str else mret str);
    str ← put_n last 48 (Z.to_nat prec) str;
    str ← put_digits last tmp (length tmp) str;
    put_n last 32 (Z.to_nat (if negb left then Z.min (if negb (zpad || left) then Z.min size 0 - 1 else size) 0 - 1
                             else if negb (zpad || left) then Z.min size 0 - 1 else size)) str)
  ((if negb left && negb zpad then blanks size else []) ++ (if sign =? 0 then [] else [sign]) ++
   (if special then (if base =? 8 then [48] else if base =? 16 then [48; x] else []) else []) ++
   (if zpad then zeros size else []) ++ (zeros prec ++ rev tmp) ++ (if left then blanks size else [])).
Proof.
  intros Hs Hx Ht Hlz.
  assert (is_u8 32 /\ is_u8 48) as [? ?] by (unfold is_u8; lia).
  eapply emits_eq.
  - repeat (apply emits_app || apply emits_if || apply emits_nil); try (by apply emits_putc); try (apply emits_put_n; try done).
    + by destruct zpad.
    + by apply emits_put_digits.
  - rewrite firstn_all. unfold blanks, zeros.
    destruct left, zpad; cbn [negb orb andb]; try (specialize (Hlz eq_refl); done); rewrite <- ?app_assoc; repeat f_equal.
    all: first [by destruct (sign =? 0)|by replace (Z.to_nat _) with O by lia].
Qed.

(** A step in front of an output that puts nothing. *)
Lemma emits_quiet {A} (m : M S A) (k : A -> Z -> M S Z) a l :
  (forall out s, put_so_far V R buf cap out s -> fits limit (out ++ l) ->
     exists s', m s = Ok (a, s') /\ put_so_far V R buf cap out s') ->
  Emits (k a) l -> Emits (fun str => x ← m; k x str) l.
Proof.
  intros Hm Hk out s Hs Hf. destruct (Hm out s Hs Hf) as (s1 & E1 & Hs1). rewrite (bind_step _ _ _ _ _ E1). by apply Hk.
Qed.

Lemma emits_lift {A} (o : outcome A) (k : A -> Z -> M S Z) a l : o = Ok a -> Emits (k a) l -> Emits (fun str => x ← mlift o; k x str) l.
Proof. intros ->. apply emits_quiet. eauto. Qed.

Lemma num_sign_ok num size type : 0 <= num < 2 ^ 64 ->
  let neg := flag type SIGN && (2 ^ 63 <=? num) in
  let sign := if flag type SIGN then (if 2 ^ 63 <=? num then [45] else if flag type PLUS then [43] else if flag type SPACE then [32] else []) else [] in
  exists c, num_sign num size type = (c, if neg then u64 (- num) else num, size - Z.of_nat (length sign)) /\
    is_u8 c /\ (if c =? 0 then [] else [c]) = sign.
Proof.
  intros Hn. cbv zeta. unfold num_sign, is_u8.
  destruct (flag type SIGN); cbn [andb]; [destruct (2 ^ 63 <=? num); [|destruct (flag type PLUS); [|destruct (flag type SPACE)]]|];
    eexists; (split; [repeat f_equal; simpl; lia|split; [lia|done]]).
Qed.

Lemma number_ok num base w p type : 0 <= num < 2 ^ 64 -> 2 <= base <= 36 ->
  Emits (number last num base w p type) (render_number num base w p type).
Proof.
  intros Hn Hb. unfold number, render_number. set (ds := if flag type LARGE then large_digits else small_digits).
  set (ty := if flag type LEFT then Z.land type (Z.lnot ZEROPAD) else type).
  assert (forall f, Z.land (Z.lnot ZEROPAD) f = f -> flag ty f = flag type f) as Hty
    by (intros f Hf; unfold ty; destruct (flag type LEFT); [by apply flag_land|done]).
  assert (flag ty ZEROPAD = negb (flag type LEFT) && flag type ZEROPAD) as Hz
    by (unfold ty; destruct (flag type LEFT); [apply flag_cleared|done]).
  replace ((base <? 2) || (36 <? base)) with false by (destruct (Z.ltb_spec base 2), (Z.ltb_spec 36 base); first [done|lia]).
  change (ZEROPAD + LEFT) with (Z.lor ZEROPAD LEFT). rewrite flag_or, Hz, (Hty LEFT), (Hty SPECIAL) by done.
  destruct (num_sign_ok num w ty Hn) as (c & -> & Hc & Es). rewrite (Hty SIGN), (Hty PLUS), (Hty SPACE) in * by done.
  cbv beta iota zeta in Es |- *. rewrite <- Es in *.
  set (N := if flag type SIGN && (2 ^ 63 <=? num) then u64 (- num) else num).
  assert (0 <= N < 2 ^ 64) as HN by (unfold N; destruct (flag type SIGN && _); [apply Z.mod_pos_bound; lia|done]).
  destruct (num_digits_ok 66 64 64 ds N base [] (digit_sets_length _) Hb) as (t & Ht & Er); [lia..|].
  assert (exists t, (if N =? 0 then Ok [48] else num_digits 66 ds N base []) = Ok t /\ rev t = magnitude ds N base) as (t' & Ht' & Er')
    by (unfold magnitude; destruct (N =? 0); eauto).
  clear t Ht Er. apply (emits_lift _ _ t' _ Ht'). cbv beta.
  assert (Forall is_u8 t') as Hu by (rewrite <- (rev_involutive t'), Er'; apply Forall_rev, magnitude_u8).
  eapply emits_eq; [eapply emits_ext; [|apply (number_parts (flag type LEFT) (negb (flag type LEFT) && flag type ZEROPAD) c
    (flag type SPECIAL) base (nth 33 ds 0) t'); [done| |done|]]|].
  - intros str s. reflexivity.
  - by destruct (flag type LARGE).
  - by intros ->.
  - rewrite <- Er', length_rev, !length_app, length_rev. set (sg := if c =? 0 then [] else [c]).
    replace (zeros ((if p <? _ then _ else p) - _)) with (zeros (p - Z.of_nat (length t')))
      by (unfold zeros; f_equal; destruct (Z.ltb_spec p (Z.of_nat (length t'))); lia).
    set (pre := if flag type SPECIAL then if base =? 8 then [48] else if base =? 16 then [48; nth 33 ds 0] else [] else []).
    replace (if flag type SPECIAL then if base =? 16 then [48; nth 33 ds 0] else if base =? 8 then [48] else [] else []) with pre
      by (unfold pre; destruct (flag type SPECIAL), (Z.eqb_spec base 8), (Z.eqb_spec base 16); first [done|lia]).
    set (room := w - Z.of_nat (length sg + length pre + _)).
    match goal with |- context [blanks (?a - ?b)] => replace (a - b) with room; [done|] end.
    unfold room, zeros, pre. rewrite length_replicate.
    destruct (Z.ltb_spec p (Z.of_nat (length t'))), (flag type SPECIAL), (Z.eqb_spec base 8), (Z.eqb_spec base 16); simpl length; lia.
Qed.

(** ** Strings *)

Context (HV : bytes_ok V).

(** The memory a [%s] argument may be in: what the output does not touch. *)
Definition outside (x : Z) : option Z := if in_range buf (Z.of_nat (Nat.min cap (limit + 1))) x then None else V x.

Lemma outside_view out s x b : put_so_far V R buf cap out s -> fits limit out -> outside x = Some b -> view s x = Some b.
Proof.
  intros (_ & _ & Hv) Hf Hx. rewrite Hv. unfold outside in Hx. destruct (in_range _ _ x) eqn:E; [done|].
  apply in_range_false in E. unfold written. rewrite (proj2 (in_range_false _ _ _)); [done|].
  unfold fits in Hf. rewrite length_take. lia.
Qed.

Lemma outside_bytes x b : outside x = Some b -> is_u32 x /\ is_u8 b.
Proof. unfold outside. destruct (in_range _ _ x); [done|]. apply HV. Qed.

Lemma outside_load out s x b : put_so_far V R buf cap out s -> fits limit out -> outside x = Some b ->
  exists s', load8 x s = Ok (b, s') /\ put_so_far V R buf cap out s'.
Proof.
  intros Hs Hf Hx. pose proof (outside_view _ _ _ _ Hs Hf Hx) as Hv. destruct Hs as (Hok & Hr & Hw).
  destruct (load8_law s x b Hok Hv) as (s' & E & Hok' & Hr' & Hv'). exists s'. split; [done|].
  split; [done|]. split; [congruence|]. intros y. by rewrite Hv'.
Qed.

Lemma strnlen_loop_text f s p count t out st : text_at outside f s p = Some t -> 0 <= s ->
  (p < 0 /\ 2 ^ 32 - s <= count \/ p = count /\ 0 <= p) -> put_so_far V R buf cap out st -> fits limit out ->
  exists st', simple_strnlen_loop f (u32 s) count st = Ok (u32 (s + Z.of_nat (length t)), st') /\ put_so_far V R buf cap out st'.
Proof.
  intros Ht Hs Hp Hst Hf. revert s p count t st Ht Hs Hp Hst. induction f as [|f IH]; intros s p count t st Ht Hs Hp Hst;
    cbn [text_at simple_strnlen_loop] in *.
  - destruct (Z.eqb_spec p 0) as [->|]; [|done]. injection Ht as <-. replace (count =? 0) with true by lia.
    exists st. by rewrite Z.add_0_r.
  - destruct (Z.eqb_spec p 0) as [->|Hp0].
    { injection Ht as <-. replace (count =? 0) with true by lia. exists st. by rewrite Z.add_0_r. }
    destruct (outside s) as [b|] eqn:Eb; [|done].
    destruct (outside_load out st s b Hst Hf Eb) as (st1 & E1 & Hst1). pose proof (proj1 (outside_bytes _ _ Eb)) as Hu. unfold is_u32 in Hu.
    replace (count =? 0) with false by lia. rewrite (u32_small s), (bind_step _ _ _ _ _ E1) by done.
    destruct (Z.eqb_spec b 0) as [->|Hb].
    + injection Ht as <-. exists st1. simpl. by rewrite Z.add_0_r, u32_small.
    + destruct (text_at outside f (s + 1) (p - 1)) as [t'|] eqn:Et; [|done]. injection Ht as <-.
      destruct (IH (s + 1) (p - 1) (count - 1) t' st1 Et) as (st2 & E2 & Hst2); [lia..|done|].
      exists st2. rewrite E2. split; [|done]. do 3 f_equal. simpl length. lia.
Qed.

Lemma put_string_ok f s p t : text_at outside f s p = Some t -> Emits (put_string last (u32 s) (length t)) t.
Proof.
  revert s p t. induction f as [|f IH]; intros s p t Ht; cbn [text_at] in Ht.
  - destruct (p =? 0); [|done]. injection Ht as <-. apply emits_nil.
  - destruct (p =? 0); [injection Ht as <-; apply emits_nil|]. destruct (outside s) as [b|] eqn:Eb; [|done].
    destruct (b =? 0); [injection Ht as <-; apply emits_nil|].
    destruct (text_at outside f (s + 1) (p - 1)) as [t'|] eqn:Et; [|done]. injection Ht as <-. cbn [length put_string].
    destruct (outside_bytes _ _ Eb) as [Hu Hb]. rewrite (u32_small s) by done. apply emits_quiet with (a := b).
    + intros out st Hst Hf. apply outside_load; [done|by eapply fits_app_l|done].
    + change (b :: t') with ([b] ++ t'). apply emits_app; [by apply emits_putc|]. by eapply IH.
Qed.

Lemma print_text_ok (left : bool) (m : Z -> M S Z) t w len : len = Z.of_nat (length t) -> Emits m t ->
  Emits (fun str =>
    str ← (if negb left then put_n last 32 (Z.to_nat (w - len)) str else mret str);
    str ← m str;
    put_n last 32 (Z.to_nat ((if negb left then Z.min w len - 1 else w) - len)) str) (render_text t left w).
Proof.
  intros -> Hm. assert (is_u8 32) by (unfold is_u8; lia). eapply emits_eq.
  - repeat (apply emits_app || apply emits_if || apply emits_nil); [by apply emits_put_n|exact Hm|by apply emits_put_n].
  - unfold render_text, blanks. destruct left; cbn [negb]; [done|]. replace (Z.to_nat (Z.min _ _ - 1 - _)) with O by lia.
    by rewrite app_nil_r.
Qed.

Lemma print_char_ok fl w c : Emits (print_char last fl w c) (render_text [u8 c] (flag fl LEFT) w).
Proof.
  eapply emits_ext; [|apply (print_text_ok (flag fl LEFT) (putc last (u8 c)) [u8 c] w 1); [done|apply emits_putc; [done..|apply u8_range]]].
  intros str s. unfold print_char. cbv beta zeta. destruct (flag fl LEFT); cbn [negb]; [done|].
  unfold mbind, M_bind. destruct (put_n _ _ _ str s) as [[]|]; [|done]. destruct (putc _ _ _ _) as [[]|]; [|done].
  do 2 f_equal. lia.
Qed.

Lemma print_string_ok fuel fl w p a t : is_u32 a -> -1 <= p < 2 ^ 31 -> string_arg outside fuel a p = Some t ->
  Emits (print_string fuel last fl w p a) (render_text t (flag fl LEFT) w).
Proof.
  intros Ha Hp Ht. unfold print_string, string_arg in *. set (left := flag fl LEFT).
  assert (length t <= length (render_text t left w))%nat as Hlen by (unfold render_text; destruct left; rewrite length_app; lia).
  destruct (Z.ltb_spec a PAGE_SIZE) as [Hnull|Hptr].
  - injection Ht as <-. apply emits_quiet with (a := Z.of_nat (if p <? 0 then length null_string else Nat.min (Z.to_nat p) (length null_string))); [eauto|].
    apply print_text_ok.
    + destruct (p <? 0); [done|]. by rewrite length_take.
    + eapply emits_eq; [apply emits_put_list; [done..|]|].
      * apply Forall_take. repeat constructor; lia.
      * rewrite Nat2Z.id. destruct (p <? 0); [done|]. by rewrite <- take_take, (take_ge null_string (length _)) by lia.
  - apply emits_quiet with (a := Z.of_nat (length t)).
    + intros out s Hs Hf. unfold simple_strnlen. unfold is_u32 in Ha.
      destruct (strnlen_loop_text fuel a p (u32 p) t out s Ht) as (s1 & E1 & Hs1); [lia| |done|by eapply fits_app_l|].
      { destruct (Z.lt_ge_cases p 0); [left; replace p with (-1) by lia; change (u32 (-1)) with (2 ^ 32 - 1); unfold PAGE_SIZE in *; lia|right]. rewrite u32_small; unfold is_u32; lia. }
      exists s1. split; [|done]. rewrite u32_small in E1 by done.
      rewrite (bind_step _ _ s (u32 (Z.of_nat (length t))) s1).
      * unfold fits in Hf. rewrite length_app in Hf. rewrite u32_small, s32_small by (unfold is_u32; lia). done.
      * rewrite (bind_step _ _ _ _ _ E1), u32_sub_l. rewrite Z.add_simpl_l. done.
    + apply print_text_ok; [done|]. rewrite Nat2Z.id. eapply emits_eq; [|done]. rewrite <- (u32_small a) by done. by eapply put_string_ok.
Qed.

(** ** Conversions and the loop *)

(** A conversion that puts [l] and goes on with [fmt] and argument [n]. *)
Definition converts (m : Z -> M S (Z * list Z * nat)) (l fmt : list Z) (n : nat) : Prop :=
  forall out s, put_so_far V R buf cap out s -> fits limit (out ++ l) ->
  exists s', m (buf + Z.of_nat (length out)) s = Ok ((buf + Z.of_nat (length (out ++ l)), fmt, n), s') /\ put_so_far V R buf cap (out ++ l) s'.

Lemma emits_converts m l fmt n : Emits m l -> converts (fun str => str ← m str; mret (str, fmt, n)) l fmt n.
Proof.
  intros Hm out s Hs Hf. destruct (Hm out s Hs Hf) as (s' & E & Hs'). exists s'. by rewrite (bind_step _ _ _ _ _ E).
Qed.

Lemma print_conv_ok fuel args k out fmt n : Forall is_u8 (rest_fmt k) -> -1 <= precision k < 2 ^ 31 ->
  render_conv outside args fuel k = Some (out, fmt, n) -> converts (print_conv fuel args buf last k) out fmt n.
Proof.
  intros H8 Hp. unfold render_conv, print_conv. destruct (rest_fmt k) as [|c r].
  { intros [= <- <- <-]. apply emits_converts. apply emits_putc; [done..|unfold is_u8; lia]. }
  apply list.Forall_cons in H8 as [Hc _]. assert (is_u8 37) by (unfold is_u8; lia).
  destruct (c =? 99); [intros [= <- <- <-]; apply emits_converts, print_char_ok|].
  destruct (c =? 115).
  { destruct (string_arg _ _ _ _) as [t|] eqn:Et; [|done]. intros [= <- <- <-].
    apply emits_converts. apply print_string_ok; [apply u32_range|done..]. }
  destruct (c =? 112).
  { intros [= <- <- <-]. apply emits_converts. apply number_ok; [done..| |lia]. pose proof (u32_range (args (next_arg k))).
    unfold va_arg, is_u32 in *. lia. }
  destruct (c =? 110); [done|]. destruct (c =? 37); [intros [= <- <- <-]; by apply emits_converts, emits_putc|].
  destruct (_ || _).
  - set (fl := if c =? 88 then _ else _). pose proof (fetch_num_range args (qualifier k) fl (next_arg k)) as Hn.
    destruct (fetch_num _ _ _ _) as [num m]. intros [= <- <- <-]. apply emits_converts. apply number_ok; [done..|].
    destruct (c =? 111), ((c =? 88) || (c =? 120)); lia.
  - intros [= <- <- <-]. intros o s Hs Hf.
    assert (Emits (fun str => str ← putc last 37 str; putc last c str) ([37] ++ [c])) as He by (apply emits_app; by apply emits_putc).
    destruct (He o s Hs Hf) as (s' & E & Hs').
    exists s'. split; [|done]. apply bind_ok in E as (str & s1 & E1 & E2).
    by rewrite (bind_step _ _ _ _ _ E1), (bind_step _ _ _ _ _ E2).
Qed.

Lemma print_loop_ok rounds fuel args fmt n l : Forall is_u8 fmt -> render outside args fuel rounds fmt n = Some l ->
  Emits (print_loop rounds fuel args buf last fmt n) l.
Proof.
  revert fmt n l. induction rounds as [|rounds IH]; intros fmt n l H8 Hr; destruct fmt as [|c fmt]; cbn [render print_loop] in *;
    try done; try (injection Hr as <-; apply emits_nil).
  apply list.Forall_cons in H8 as [Hc H8]. destruct (negb (c =? 37)).
  - destruct (render outside args fuel rounds fmt n) as [l'|] eqn:El; [|done]. injection Hr as <-.
    change (c :: l') with ([c] ++ l'). apply emits_app; [by apply emits_putc|by apply IH].
  - destruct (render_conv outside args fuel (parse_conv args fmt n)) as [[[o fmt'] n']|] eqn:Ec; [|done].
    destruct (render outside args fuel rounds fmt' n') as [l'|] eqn:El; [|done]. injection Hr as <-.
    destruct (parse_conv_ok args fmt n) as (pre & Hsuf & Hp).
    assert (Forall is_u8 (rest_fmt (parse_conv args fmt n))) as H8' by (rewrite Hsuf in H8; by apply list.Forall_app in H8 as [_ ?]).
    pose proof (print_conv_ok fuel args _ o fmt' n' H8' Hp Ec) as Hconv.
    destruct (render_conv_suffix outside args fuel _ _ _ _ Ec) as [pre' Hsuf'].
    assert (Forall is_u8 fmt') as H8f by (rewrite Hsuf' in H8'; by apply list.Forall_app in H8' as [_ ?]).
    pose proof (IH fmt' n' l' H8f El) as Hrest. intros out s Hs Hf. rewrite app_assoc in *.
    destruct (Hconv out s Hs) as (s1 & E1 & Hs1); [by eapply fits_app_l|]. rewrite (bind_step _ _ _ _ _ E1). by apply Hrest.
Qed.

(** The last step: the terminating NUL, inside the buffer when it has room. *)
Lemma terminate_ok out s : put_so_far V R buf cap out s -> length out = limit ->
  exists s', (if buf + Z.of_nat limit <=? last then store8 (buf + Z.of_nat limit) 0
              else if 0 <? Z.of_nat cap then store8 last 0 else mret tt) s = Ok (tt, s') /\
    mem_ok s' /\ rest s' = R /\ forall x, view s' x = written V buf (if cap is O then [] else take (cap - 1) out ++ [0]) x.
Proof.
  intros Hs Hl. pose proof Hs as (Hok & Hr & Hv). assert (is_u8 0) by (unfold is_u8; lia). destruct cap as [|c] eqn:Ec.
  { rewrite (proj2 (Z.leb_gt (buf + Z.of_nat limit) _)) by lia. exists s. split; [done|]. split; [done|]. split; [done|]. intros x. by rewrite Hv, take_0. }
  assert (forall a, buf <= a < buf + Z.of_nat (Nat.min (Datatypes.S c) (limit + 1)) -> exists s', store8 a 0 s = Ok (tt, s') /\
    mem_ok s' /\ rest s' = R /\ forall x, view s' x = if x =? a then Some 0 else written V buf (take (Datatypes.S c) out) x) as Hst.
  { intros a Ha. destruct (store8_written s a 0 Hok) as (s' & E & Hok' & Hr' & Hv'); [|done|].
    { rewrite Hv. apply written_some, Hown. lia. }
    exists s'. split; [done|]. split; [done|]. split; [congruence|]. intros x. by rewrite Hv', Hv. }
  rewrite Nat.sub_succ, Nat.sub_0_r. set (l := take c out).
  assert (length l = Nat.min c limit) as Hll by (unfold l; rewrite length_take; lia).
  destruct (Hst (buf + Z.of_nat (length l))) as (s' & E & Hok' & Hr' & Hv'); [lia|]. exists s'.
  assert ((if buf + Z.of_nat limit <=? buf + Z.of_nat (Datatypes.S c) - 1 then store8 (buf + Z.of_nat limit) 0
           else if 0 <? Z.of_nat (Datatypes.S c) then store8 (buf + Z.of_nat (Datatypes.S c) - 1) 0 else mret tt)
          = store8 (buf + Z.of_nat (length l)) 0) as ->.
  { destruct (Z.leb_spec (buf + Z.of_nat limit) (buf + Z.of_nat (Datatypes.S c) - 1)); [f_equal; lia|].
    rewrite (proj2 (Z.ltb_lt 0 _)) by lia. f_equal. lia. }
  split; [done|]. split; [done|]. split; [done|]. intros x. rewrite Hv', written_snoc.
  destruct (x =? buf + Z.of_nat (length l)) eqn:Ex; [done|]. destruct (decide (limit <= c)%nat).
  - unfold l. by rewrite !take_ge by lia.
  - destruct (lookup_lt_is_Some_2 out c) as [d Hd]; [lia|]. rewrite (take_S_r _ _ _ Hd). fold l. by rewrite written_snoc, Ex.
Qed.
End printing.

(** ** vsnprintf *)

(** The bytes [vsnprintf] leaves in a buffer of [cap] bytes for the output [out]. *)
Definition truncated (cap : nat) (out : list Z) : list Z := if cap is O then [] else take (cap - 1) out ++ [0].

(** The bytes from [buf] on that a call may use. *)
Definition room (buf size : Z) : Z := Z.min size (2 ^ 32 - buf).

(** [view s] without the bytes a call with output [out] may write. *)
Definition unwritten (f : Z -> option Z) (buf size : Z) (len : nat) : Z -> option Z :=
  outside f buf (Z.to_nat (room buf size)) len.

Lemma vsnprintf_ok {S} `{MemLaws S} (s : S) fuel buf size fmt args out : mem_ok s -> 0 < buf < 2 ^ 32 -> 0 <= size < 2 ^ 31 ->
  Forall is_u8 fmt -> owns s buf (Z.min (room buf size) (Z.of_nat (length out) + 1)) ->
  buf + Z.of_nat (length out) < 2 ^ 32 -> Z.of_nat (length out) < 2 ^ 31 ->
  render (unwritten (view s) buf size (length out)) args fuel (length fmt) fmt 0 = Some out ->
  exists s', vsnprintf fuel buf size fmt args s = Ok (Z.of_nat (length out), s') /\
    leaves s s' (written (view s) buf (truncated (Z.to_nat (room buf size)) out)).
Proof.
  intros Hok Hb Hsz H8 Ho Hl1 Hl2 Hr. unfold vsnprintf. set (cap := Z.to_nat (room buf size)).
  assert (Z.of_nat cap = room buf size) as Hcap by (unfold cap, room; lia). unfold room in Hcap.
  rewrite s32_small by lia. replace (size <? 0) with false by lia.
  assert (exists w, (u32 (buf + size - 1) <? u32 (buf - 1)) = w /\ (if w then u32 (-1) else u32 (buf + size - 1)) = buf + Z.of_nat cap - 1 /\
    (if w then u32 ((if w then u32 (-1) else u32 (buf + size - 1)) - buf + 1) else size) = Z.of_nat cap) as (w & -> & Ee & Es).
  { rewrite (u32_small (buf - 1)) by (unfold is_u32; lia). change (u32 (-1)) with (2 ^ 32 - 1).
    destruct (Z.le_gt_cases (buf + size) (2 ^ 32)).
    - rewrite (u32_small (buf + size - 1)) by (unfold is_u32; lia). exists false. repeat split; lia.
    - unfold u32. rewrite <- (Z.mod_add (buf + size - 1) (-1)), (Z.mod_small (_ + _)) by lia. exists true. repeat split; [lia..|].
      rewrite Z.mod_small; lia. }
  cbv zeta. rewrite Es, Ee.
  assert (forall x, buf <= x < buf + Z.of_nat (Nat.min cap (length out + 1)) -> is_Some (view s x)) as Hown
    by (intros x Hx; apply Ho; unfold room; lia).
  destruct (print_loop_ok (view s) (rest s) buf cap (length out) ltac:(lia) ltac:(lia) Hown (view_bytes s Hok)
    (length fmt) fuel args fmt 0 out H8 Hr [] s) as (s1 & E1 & Hs1).
  { split; [done|]. split; [done|]. intros x. by rewrite take_nil, written_nil. }
  { unfold fits. simpl. lia. }
  cbn [length app] in E1, Hs1. rewrite Z.add_0_r in E1. rewrite (bind_step _ _ _ _ _ E1).
  destruct (terminate_ok (view s) (rest s) buf cap (length out) ltac:(lia) Hown out s1 Hs1 eq_refl) as (s2 & E2 & Hs2).
  exists s2. rewrite (bind_step _ _ _ _ _ E2), Z.add_simpl_l, s32_small by lia. done.
Qed.

(** Every format renders, unless it has a [%n] or an argument of [%s] is neither
    null nor a string. *)
Lemma render_total V args fuel rounds fmt n : (length fmt <= rounds)%nat -> 110 ∉ fmt ->
  (forall n p, -1 <= p -> is_Some (string_arg V fuel (va_arg args n) p)) -> is_Some (render V args fuel rounds fmt n).
Proof.
  intros Hl Hn Hs. revert fmt n Hl Hn. induction rounds as [|rounds IH]; intros [|c fmt] n Hl Hn; cbn [render length] in *; try done; try lia.
  destruct (negb (c =? 37)); [apply fmap_is_Some, IH; [lia|set_solver]|].
  destruct (parse_conv_ok args fmt n) as (pre & Hsuf & Hp).
  assert (is_Some (render_conv V args fuel (parse_conv args fmt n))) as [[[out fmt'] n'] Er].
  { unfold render_conv. destruct (rest_fmt (parse_conv args fmt n)) as [|d r] eqn:Ed; [done|].
    assert (d <> 110) by (intros ->; apply Hn; rewrite Hsuf; set_solver).
    repeat case_match; eauto; try lia.
    match goal with E : string_arg _ _ _ _ = None |- _ => destruct (Hs (next_arg (parse_conv args fmt n)) (precision (parse_conv args fmt n))) as [t Ht]; [lia|congruence] end. }
  rewrite Er. destruct (render_conv_suffix _ _ _ _ _ _ _ Er) as [pre' Hsuf'].
  apply fmap_is_Some, IH.
  - apply (f_equal length) in Hsuf, Hsuf'. rewrite length_app in Hsuf, Hsuf'. lia.
  - intros Hin. apply Hn. rewrite Hsuf, Hsuf'. set_solver.
Qed.

(** ** Reading the digits back *)

Definition digits_value (base r : Z) (ds : list Z) : Z := foldl (fun r d => r * base + digit_value d) r ds.
Definition is_digit (base d : Z) : Prop := isxdigit d = true /\ 0 <= digit_value d < base.

Lemma small_digit_ok b i : (i < 16)%nat -> let d := nth i (if b : bool then large_digits else small_digits) 0 in
  isxdigit d = true /\ digit_value d = Z.of_nat i.
Proof. intros Hi. destruct b; do 16 (destruct i as [|i]; [done|]); lia. Qed.

Lemma base_digits_value b base f num acc : 2 <= base <= 16 -> 0 <= num < 2 ^ Z.of_nat f -> Forall (is_digit base) acc ->
  let ds := if b : bool then large_digits else small_digits in
  digits_value base 0 (base_digits f ds num base acc) = digits_value base num acc /\ Forall (is_digit base) (base_digits f ds num base acc) /\
  (length (base_digits f ds num base acc) <= f + length acc)%nat.
Proof.
  intros Hb Hn Ha ds. revert num acc Hn Ha. induction f as [|f IH]; intros num acc Hn Ha; cbn [base_digits].
  { assert (num = 0) as -> by (simpl in Hn; lia). split; [done|]. split; [done|lia]. }
  destruct (Z.eqb_spec num 0) as [->|Hnz]; [split; [done|split; [done|lia]]|].
  pose proof (Z.mod_pos_bound num base ltac:(lia)). pose proof (Z.div_mod num base ltac:(lia)).
  destruct (small_digit_ok b (Z.to_nat (num mod base))) as [Hx Hv]; [lia|]. fold ds in Hx, Hv.
  set (d := nth (Z.to_nat (num mod base)) ds 0) in *. destruct (IH (num / base) (d :: acc)) as (E1 & E2 & E3).
  - rewrite Nat2Z.inj_succ, Z.pow_succ_r in Hn by lia. split; [apply Z.div_pos; lia|apply Z.div_lt_upper_bound; nia].
  - constructor; [|done]. split; [done|lia].
  - rewrite E1. split; [|split; [done|cbn [length] in E3; lia]]. cbn [digits_value foldl]. f_equal. lia.
Qed.

(** The numeral [number] writes has the value printed, and starts with [0] only when that is 0. *)
Lemma magnitude_value b base num : 2 <= base <= 16 -> 0 <= num < 2 ^ 64 ->
  let l := magnitude (if b : bool then large_digits else small_digits) num base in
  digits_value base 0 l = num /\ Forall (is_digit base) l /\ (1 <= length l <= 64)%nat.
Proof.
  intros Hb Hn. unfold magnitude. destruct (Z.eqb_spec num 0) as [->|Hnz].
  { split; [done|]. split; [constructor; [split; [done|change (digit_value 48) with 0; lia]|constructor]|simpl; lia]. }
  pose proof (base_digits_value b base 64 num [] Hb Hn ltac:(constructor)) as E. cbv zeta in E.
  generalize dependent (base_digits 64 (if b then large_digits else small_digits) num base []). intros l (E1 & E2 & E3).
  split; [done|]. split; [done|]. cbn [length] in E3. split; [|lia]. destruct l; [cbn in E1; lia|cbn [length]; lia].
Qed.

Section reading.
Context {S : Type} `{MemLaws S} (V : Z -> option Z) (R : rest_type (S:=S)) (HV : bytes_ok V).

Lemma strto_loop_ok wrap fuel base a ds r : (forall r v, wrap (wrap r * base + v) = wrap (r * base + v)) ->
  cstr V a ds -> Forall (is_digit base) ds -> (length ds < fuel)%nat ->
  reads V R (strto_loop wrap fuel base a (wrap r)) (wrap (digits_value base r ds), a + Z.of_nat (length ds)).
Proof.
  intros Hw. revert fuel a r. induction ds as [|d ds IH]; intros fuel a r Hc Hd Hf; (destruct fuel as [|fuel]; [simpl in Hf; lia|]); cbn [strto_loop].
  - eapply reads_bind; [apply reads_load8, (cstr_nil _ _ Hc)|]. rewrite Z.add_0_r. apply reads_ret.
  - destruct (cstr_tail _ _ _ _ Hc) as (Hv & _ & Hc'). apply list.Forall_cons in Hd as [[Hx Hr] Hd].
    eapply reads_bind; [by apply reads_load8|]. rewrite Hx. rewrite (proj2 (Z.ltb_lt _ _)) by lia. cbn [andb].
    rewrite Hw. destruct (cstr_next V HV a d ds Hc) as [-> _]. cbn [length] in *.
    replace (a + Z.of_nat (Datatypes.S (length ds))) with (a + 1 + Z.of_nat (length ds)) by lia. apply IH; [done..|lia].
Qed.

Lemma strto_base_ok base a ds : base <> 0 -> cstr V a ds -> Forall (is_digit base) ds -> ds <> [] -> reads V R (strto_base a base) (base, a).
Proof.
  intros Hb Hc Hd Hne. unfold strto_base. destruct (Z.eqb_spec base 0) as [|_]; [done|]. destruct (base =? 16); [|apply reads_ret].
  destruct ds as [|d ds]; [done|]. destruct (cstr_tail _ _ _ _ Hc) as (Hv & _ & Hc'). eapply reads_bind; [by apply reads_load8|].
  destruct (d =? 48); [|apply reads_ret]. destruct (cstr_next V HV a d ds Hc) as [-> _].
  apply list.Forall_cons in Hd as [_ Hd]. eapply reads_bind; [apply reads_load8, cstr_hd, Hc'|].
  replace (toupper _ =? 88) with false; [apply reads_ret|]. symmetry. apply Z.eqb_neq.
  destruct Hd as [|x ds [Hx _] _]; [done|]. cbn [hd app]. intros E. revert Hx. unfold isxdigit, toupper, islower, isdigit in *.
  destruct ((97 <=? x) && (x <=? 122)) eqn:Ex; lia.
Qed.

Lemma wrap_mod n base r v : (r mod n * base + v) mod n = (r * base + v) mod n.
Proof. rewrite Zplus_mod, Zmult_mod_idemp_l, <- Zplus_mod. done. Qed.

(** The value of a digit string, as far as the result has room for it. *)
Lemma simple_strtoul_ok fuel base a ds : base <> 0 -> cstr V a ds -> Forall (is_digit base) ds -> ds <> [] -> (length ds < fuel)%nat ->
  reads V R (simple_strtoul fuel a base) (u32 (digits_value base 0 ds), a + Z.of_nat (length ds)).
Proof.
  intros. unfold simple_strtoul. eapply reads_bind; [by eapply strto_base_ok|]. cbn [fst snd].
  apply (strto_loop_ok u32 fuel base a ds 0); [|done..]. intros. apply wrap_mod.
Qed.

Lemma simple_strtoull_ok fuel base a ds : base <> 0 -> cstr V a ds -> Forall (is_digit base) ds -> ds <> [] -> (length ds < fuel)%nat ->
  reads V R (simple_strtoull fuel a base) (u64 (digits_value base 0 ds), a + Z.of_nat (length ds)).
Proof.
  intros. unfold simple_strtoull. eapply reads_bind; [by eapply strto_base_ok|]. cbn [fst snd].
  apply (strto_loop_ok u64 fuel base a ds 0); [|done..]. intros. apply wrap_mod.
Qed.
End reading.

(** ** Printing and scanning an integer *)

Definition le_bytes (w : Z) : list Z := [byte_of w 0; byte_of w 1; byte_of w 2; byte_of w 3].

Lemma store32_le_bytes {S} `{MemLaws S} V R (s : S) a w : sees V R s -> (forall k, 0 <= k < 4 -> is_Some (V (a + k))) ->
  exists s', store32 a w s = Ok (tt, s') /\ sees (written V a (le_bytes w)) R s'.
Proof.
  intros (Hok & Hr & Hv) Ho. destruct (store32_law s a w Hok) as (s' & E & Hok' & Hr' & Hv'); [intros k Hk; rewrite Hv; by apply Ho|].
  exists s'. split; [done|]. split; [done|]. split; [congruence|]. intros x. rewrite Hv', Hv. unfold written, in_range. cbn [length le_bytes].
  change (Z.of_nat 4) with 4. destruct ((a <=? x) && (x <? a + 4)) eqn:Ex; [|done].
  assert (x = a + 0 \/ x = a + 1 \/ x = a + 2 \/ x = a + 3) as [->|[->|[->| ->]]] by lia; rewrite Z.add_simpl_l; done.
Qed.

Section integers.
Context (c : Z) (long : bool).

(** The conversions [%d], [%u], [%x], [%X], [%o] and their [ll] forms. *)
Definition int_conversion : Prop := c ∈ [100; 117; 120; 88; 111].
Definition int_format : list Z := [37] ++ (if long then [108; 108] else []) ++ [c].
Definition int_base : Z := if c =? 111 then 8 else if (c =? 88) || (c =? 120) then 16 else 10.
Definition int_flags : Z := if c =? 88 then LARGE else if c =? 100 then SIGN else 0.
Definition int_signed : bool := c =? 100.
Definition int_qualifier : Z := if long then 76 else -1.
Definition int_number (args : nat -> Z) : Z := fst (fetch_num args int_qualifier int_flags 0).
Definition int_negative (args : nat -> Z) : bool := int_signed && (2 ^ 63 <=? int_number args).
Definition int_digits (args : nat -> Z) : list Z :=
  magnitude (if c =? 88 then large_digits else small_digits) (if int_negative args then u64 (- int_number args) else int_number args) int_base.

Lemma int_render V args fuel : int_conversion -> render V args fuel (length int_format) int_format 0 =
  Some (render_number (int_number args) int_base (-1) (-1) int_flags ++ []).
Proof. unfold int_conversion, int_format, int_number, int_base, int_flags, int_qualifier. intros Hc. destruct long; set_unfold in Hc; destruct Hc as [->|[->|[->|[->|[->|[]]]]]]; reflexivity. Qed.

Lemma int_text args : int_conversion -> render_number (int_number args) int_base (-1) (-1) int_flags =
  (if int_negative args then [45] else []) ++ int_digits args.
Proof.
  intros Hc. unfold render_number, int_digits, int_negative. 
  assert (flag int_flags SIGN = int_signed /\ flag int_flags LARGE = (c =? 88) /\ flag int_flags LEFT = false /\ flag int_flags ZEROPAD = false /\
    flag int_flags SPECIAL = false /\ flag int_flags PLUS = false /\ flag int_flags SPACE = false) as (-> & -> & -> & -> & -> & -> & ->)
    by (unfold int_flags, int_signed; set_unfold in Hc; destruct Hc as [->|[->|[->|[->|[->|[]]]]]]; done).
  cbn [andb negb]. set (ds := magnitude _ _ _). unfold blanks, zeros.
  replace (Z.to_nat (-1 - _)) with O by lia. replace (Z.to_nat (-1 - Z.of_nat (length ds))) with O by lia. cbn [replicate app].
  rewrite app_nil_r. by destruct int_signed, (2 ^ 63 <=? int_number args).
Qed.

Lemma int_digits_ok args : int_conversion -> digits_value int_base 0 (int_digits args) = (if int_negative args then u64 (- int_number args) else int_number args) /\
  Forall (is_digit int_base) (int_digits args) /\ (1 <= length (int_digits args) <= 64)%nat.
Proof.
  intros Hc. unfold int_digits. apply (magnitude_value (c =? 88)).
  - unfold int_base. destruct (c =? 111), ((c =? 88) || (c =? 120)); lia.
  - pose proof (fetch_num_range args int_qualifier int_flags 0). unfold int_number. destruct (int_negative args); [apply Z.mod_pos_bound|]; lia.
Qed.

Lemma int_scan_conv {S} `{Mem S} fuel args buf str num (s : S) : int_conversion ->
  scan_conv fuel args buf ((if long then [108; 108] else []) ++ [c]) str 0 num s =
  (b ← load8 str; if b =? 0 then mret (inl num) else scan_integer fuel args int_qualifier int_base int_signed [] str 0 num) s.
Proof.
  intros Hc. set_unfold in Hc; unfold int_qualifier, int_base, int_signed; destruct long; destruct Hc as [->|[->|[->|[->|[->|[]]]]]]; reflexivity.
Qed.

Definition int_out (args : nat -> Z) : list Z := (if int_negative args then [45] else []) ++ int_digits args.

Lemma u32_s32 x : u32 (s32 x) = u32 x.
Proof. unfold s32, u32. destruct (_ <? _); [apply Zmod_mod|]. rewrite <- (Z.mod_add (_ - _) 1), Z.mul_1_l, Z.sub_add by lia. apply Zmod_mod. Qed.

Lemma u64_s64 x : u64 (s64 x) = u64 x.
Proof. unfold s64, u64. destruct (_ <? _); [apply Zmod_mod|]. rewrite <- (Z.mod_add (_ - _) 1), Z.mul_1_l, Z.sub_add by lia. apply Zmod_mod. Qed.

Lemma u32_u64 x : u32 (u64 x) = u32 x.
Proof. unfold u32, u64. apply Z.mod_mod_divide. by exists (2 ^ 32). Qed.

Lemma mod_opp_congr m x y : x mod m = y mod m -> (- x) mod m = (- y) mod m.
Proof. intros E. rewrite <- (Z.sub_0_l x), <- (Z.sub_0_l y), Zminus_mod, E, <- Zminus_mod. done. Qed.

(** The stack words the printed number came from. *)
Lemma int_number_words args : int_conversion -> u32 (int_number args) = u32 (args 0%nat) /\ (long = true -> u32 (int_number args / 2 ^ 32) = u32 (args 1%nat)).
Proof.
  intros Hc. unfold int_number, fetch_num, int_qualifier, va_long_long, va_arg. destruct long; cbn [Z.eqb Pos.eqb orb fst].
  - assert (0 <= u32 (args 0%nat) < 2 ^ 32) by apply u32_range. split.
    + unfold u32 at 1. rewrite Z.mul_comm, Z.mod_add by lia. apply u32_idem.
    + intros _. rewrite Z.mul_comm, Z.div_add, Z.div_small by lia. apply u32_idem.
  - split; [|done]. destruct (flag int_flags SIGN); [by rewrite u32_u64, u32_s32, u32_idem|apply u32_idem].
Qed.

Section scan_value.
Context {S : Type} `{MemLaws S} (V : Z -> option Z) (R : rest_type (S:=S)) (HV : bytes_ok V) (fuel : nat) (a : Z) (args : nat -> Z).
Context (Hc : int_conversion) (Hs : cstr V a (int_out args)) (Hf : (66 < fuel)%nat).

Lemma int_first d ds : int_digits args = d :: ds -> d <> 45 /\ isspace d = false /\ d <> 0.
Proof.
  intros E. destruct (int_digits_ok args Hc) as (_ & Hd & _). rewrite E in Hd. apply list.Forall_cons in Hd as [[Hx _] _].
  unfold isxdigit, isdigit, isspace in *. lia.
Qed.

(** [simple_strtol] and [simple_strtoul], or their long forms, read the number back modulo their width. *)
Lemma int_scan_value : exists r,
  reads V R (if long then (if int_signed then simple_strtoll fuel a int_base else simple_strtoull fuel a int_base)
             else (if int_signed then simple_strtol fuel a int_base else simple_strtoul fuel a int_base))
    (r, a + Z.of_nat (length (int_out args))) /\
  (if long then u64 r = u64 (int_number args) else u32 r = u32 (int_number args)).
Proof.
  destruct (int_digits_ok args Hc) as (Hv & Hd & Hl). unfold int_out in *.
  assert (int_base <> 0) as Hb by (unfold int_base; destruct (c =? 111), ((c =? 88) || (c =? 120)); lia).
  destruct (int_digits args) as [|d ds] eqn:Ed; [simpl in Hl; lia|]. destruct (int_first d ds Ed) as (H45 & _ & _).
  assert (forall a, cstr V a (d :: ds) -> reads V R (simple_strtoul fuel a int_base) (u32 (digits_value int_base 0 (d :: ds)), a + Z.of_nat (length (d :: ds)))) as Hul
    by (intros; apply simple_strtoul_ok; [done..|lia]).
  assert (forall a, cstr V a (d :: ds) -> reads V R (simple_strtoull fuel a int_base) (u64 (digits_value int_base 0 (d :: ds)), a + Z.of_nat (length (d :: ds)))) as Hull
    by (intros; apply simple_strtoull_ok; [done..|lia]).
  rewrite Hv in Hul, Hull. unfold int_negative in *. destruct int_signed; cbn [andb] in *.
  - destruct (2 ^ 63 <=? int_number args); cbn [app] in Hs.
    + destruct (cstr_tail _ _ _ _ Hs) as (Ha & _ & Hs'). destruct (cstr_next V HV _ _ _ Hs) as [En _].
      replace (a + Z.of_nat (length ([45] ++ d :: ds))) with (a + 1 + Z.of_nat (length (d :: ds))) by (simpl length; lia).
      destruct long; eexists; (split; [unfold simple_strtol, simple_strtoll; eapply reads_bind; [by apply reads_load8|]; cbn [Z.eqb];
        rewrite En; eapply reads_bind; [by eauto|]; apply reads_ret|]).
      * cbn [fst]. rewrite u64_s64. rewrite <- (Z.opp_involutive (int_number args)) at 2. apply mod_opp_congr. unfold u64. by rewrite !Zmod_mod.
      * cbn [fst]. rewrite u32_s32. rewrite <- (Z.opp_involutive (int_number args)) at 2. apply mod_opp_congr. 
        change (u32 (u32 (u64 (- int_number args))) = u32 (- int_number args)). by rewrite u32_idem, u32_u64.
    + destruct (cstr_tail _ _ _ _ Hs) as (Ha & _ & _).
      destruct long; eexists; (split; [unfold simple_strtol, simple_strtoll; eapply reads_bind; [by apply reads_load8|];
        rewrite (proj2 (Z.eqb_neq d 45) H45); eapply reads_bind; [by eauto|]; apply reads_ret|]); cbn [fst].
      * rewrite u64_s64. apply Zmod_mod.
      * rewrite u32_s32. apply Zmod_mod.
  - destruct long; eexists; (split; [by eauto|apply Zmod_mod]).
Qed.

Lemma int_digit_check d ds : int_digits args = d :: ds ->
  (d =? 0) || ((int_base =? 16) && negb (isxdigit d)) || ((int_base =? 10) && negb (isdigit d)) ||
  ((int_base =? 8) && (negb (isdigit d) || (55 <? d))) || ((int_base =? 0) && negb (isdigit d)) = false.
Proof.
  intros E. destruct (int_digits_ok args Hc) as (_ & Hd & _). rewrite E in Hd. apply list.Forall_cons in Hd as [[Hx Hv] _].
  assert (int_base = 16 \/ int_base = 10 \/ int_base = 8) as Hb by (unfold int_base; destruct (c =? 111), ((c =? 88) || (c =? 120)); auto).
  assert (int_base <= 10 -> isdigit d = true) as Hi.
  { intros Hle. unfold digit_value, isxdigit, toupper, islower in *. destruct (isdigit d) eqn:Edig; [done|exfalso].
    cbn [orb] in Hx. destruct ((97 <=? d) && (d <=? 122)) eqn:El; lia. }
  assert (d <> 0) by (apply (int_first d ds E)).
  destruct Hb as [Hb|[Hb|Hb]]; rewrite Hb in *; cbn [Z.eqb Pos.eqb andb orb];
    rewrite ?orb_false_r, ?Hx, ?Hi, (proj2 (Z.eqb_neq d 0)) by (done || lia); try done.
  cbn [negb orb]. apply Z.ltb_ge. unfold digit_value in Hv. rewrite Hi in Hv by lia. lia.
Qed.

(** Where the scan finds its first digit. *)
Lemma int_scan_digit : exists d ds, int_digits args = d :: ds /\
  reads V R (skip_while isspace fuel a) a /\ exists b, V a = Some b /\ b <> 0 /\
  reads V R (if int_signed && (b =? 45) then load8 (u32 (a + 1)) else mret b) d.
Proof.
  destruct (int_digits_ok args Hc) as (_ & _ & Hl). unfold int_out, int_negative in *.
  destruct (int_digits args) as [|d ds] eqn:Ed; [simpl in Hl; lia|]. exists d, ds. split; [done|].
  destruct (int_first d ds Ed) as (H45 & Hsp & H0').
  assert (forall b l, cstr V a (b :: l) -> isspace b = false -> reads V R (skip_while isspace fuel a) a) as Hskip.
  { intros b l Hcs Hb. destruct fuel as [|f]; [lia|]. cbn [skip_while]. eapply reads_bind; [apply reads_load8, (cstr_tail _ _ _ _ Hcs)|].
    rewrite Hb. apply reads_ret. }
  destruct (int_signed && (2 ^ 63 <=? int_number args)) eqn:En; cbn [app] in Hs.
  - apply andb_true_iff in En as [Esg _]. split; [by eapply Hskip|]. destruct (cstr_tail _ _ _ _ Hs) as (Ha & _ & Hs').
    exists 45. split; [done|]. split; [done|]. rewrite Esg. cbn [Z.eqb andb]. destruct (cstr_next V HV _ _ _ Hs) as [-> _].
    apply reads_load8, (cstr_tail _ _ _ _ Hs').
  - split; [by eapply Hskip|]. destruct (cstr_tail _ _ _ _ Hs) as (Ha & _ & _). exists d. split; [done|]. split; [done|].
    rewrite (proj2 (Z.eqb_neq d 45) H45), andb_false_r. apply reads_ret.
Qed.

(** The bytes the scan stores. *)
Definition int_stored : list Z := le_bytes (u32 (int_number args)) ++ (if long then le_bytes (u32 (int_number args / 2 ^ 32)) else []).

Lemma int_scan_number p s : sees V R s -> is_u32 (p + 7) -> 0 <= p -> (forall k, 0 <= k < Z.of_nat (length int_stored) -> is_Some (V (p + k))) ->
  exists s', scan_number fuel int_qualifier int_signed a int_base p s = Ok (a + Z.of_nat (length (int_out args)), s') /\
    leaves s s' (written V p int_stored).
Proof.
  intros Hsee Hp7 Hp Ho. destruct int_scan_value as (r & Hr & Er). unfold scan_number, int_qualifier, int_stored in *.
  assert (forall x, u32 (x / 2 ^ 32) = u64 x / 2 ^ 32) as Hhi.
  { intros x. unfold u32, u64. change (2 ^ 64) with (2 ^ 32 * 2 ^ 32). rewrite Z.rem_mul_r, Z.add_comm, Z.mul_comm, Z.div_add_l by lia.
    rewrite (Z.div_small (x mod _)) by (apply Z.mod_pos_bound; lia). lia. }
  destruct long; cbn [Z.eqb Pos.eqb orb andb negb] in *; rewrite ?andb_true_r; destruct (Hr s Hsee) as (s1 & E1 & Hs1); rewrite (bind_step _ _ _ _ _ E1); cbn [fst snd].
  - assert (u32 r = u32 (int_number args) /\ u32 (r / 2 ^ 32) = u32 (int_number args / 2 ^ 32)) as [-> ->].
    { split; [by rewrite <- u32_u64, Er, u32_u64|by rewrite !Hhi, Er]. }
    destruct (store32_le_bytes V R s1 p (u32 (int_number args)) Hs1) as (s2 & E2 & L2); [intros k Hk; apply Ho; rewrite length_app; simpl; lia|].
    rewrite (bind_step _ _ _ _ _ E2). unfold is_u32 in Hp7. rewrite (u32_small (p + 4)) by (unfold is_u32; lia).
    destruct (store32_le_bytes (written V p (le_bytes (u32 (int_number args)))) R s2 (p + 4) (u32 (int_number args / 2 ^ 32)) L2) as (s3 & E3 & L3).
    { intros k Hk. apply written_some. rewrite <- Z.add_assoc. apply Ho. rewrite length_app. simpl. lia. }
    rewrite (bind_step _ _ _ _ _ E3). exists s3. split; [done|]. destruct L3 as (? & ? & Hv3), Hsee as (_ & ? & _).
    split; [done|]. split; [congruence|]. intros x. rewrite Hv3. apply (written_app V p (le_bytes _) (le_bytes _)).
  - rewrite Er, app_nil_r in *. destruct (store32_le_bytes V R s1 p (u32 (int_number args)) Hs1) as (s2 & E2 & L2 & ? & Hv2); [intros k Hk; apply Ho; simpl; lia|].
    rewrite (bind_step _ _ _ _ _ E2). exists s2. split; [done|]. destruct Hsee as (_ & ? & _). split; [done|]. split; [congruence|done].
Qed.

Lemma int_scan_conversion p s : sees V R s -> is_u32 (p + 7) -> is_u32 p -> (forall k, 0 <= k < Z.of_nat (length int_stored) -> is_Some (V (p + k))) ->
  exists s', scan_conv fuel (fun _ => p) a ((if long then [108; 108] else []) ++ [c]) a 0 0 s =
      Ok (inr ([], a + Z.of_nat (length (int_out args)), 1%nat, 1), s') /\ leaves s s' (written V p int_stored).
Proof.
  intros Hsee Hp7 Hp Ho. destruct int_scan_digit as (d & ds & Ed & Hskip & b & Hb & Hb0 & Hdig). rewrite int_scan_conv by done.
  destruct (reads_load8 V R a b Hb s Hsee) as (s1 & E1 & Hs1). rewrite (bind_step _ _ _ _ _ E1), (proj2 (Z.eqb_neq b 0) Hb0). unfold scan_integer.
  destruct (Hskip s1 Hs1) as (s2 & E2 & Hs2). rewrite (bind_step _ _ _ _ _ E2).
  destruct (reads_load8 V R a b Hb s2 Hs2) as (s3 & E3 & Hs3). rewrite (bind_step _ _ _ _ _ E3).
  destruct (Hdig s3 Hs3) as (s4 & E4 & Hs4). rewrite (bind_step _ _ _ _ _ E4), (int_digit_check d ds Ed).
  unfold va_arg. rewrite (u32_small p) by done. destruct (int_scan_number p s4 Hs4 Hp7 (proj1 Hp) Ho) as (s5 & E5 & L5).
  rewrite (bind_step _ _ _ _ _ E5). exists s5. split.
  - rewrite (proj2 (Z.eqb_neq _ 0)); [done|]. pose proof (cstr_u32 V HV _ _ 0 Hs ltac:(lia)) as Ha. unfold is_u32 in Ha.
    assert (1 <= length (int_out args))%nat by (unfold int_out; rewrite length_app, Ed; simpl; lia). lia.
  - destruct L5 as (? & Hr5 & ?), Hs4 as (_ & Hr4 & _), Hsee as (_ & Hr & _). split; [done|]. split; [congruence|done].
Qed.

Lemma int_scan p s : sees V R s -> is_u32 (p + 7) -> is_u32 p -> (forall k, 0 <= k < Z.of_nat (length int_stored) -> is_Some (V (p + k))) ->
  exists s', vsscanf fuel a int_format (fun _ => p) s = Ok (1, s') /\ leaves s s' (written V p int_stored).
Proof.
  intros Hsee Hp7 Hp Ho. destruct int_scan_digit as (_ & _ & _ & _ & b & Hb & Hb0 & _).
  destruct (reads_load8 V R a b Hb s Hsee) as (s1 & E1 & Hs1). destruct (int_scan_conversion p s1 Hs1 Hp7 Hp Ho) as (s2 & E2 & L2).
  exists s2. unfold vsscanf, int_format. cbn [app length scan_loop]. change (isspace 37) with false. cbv iota.
  rewrite (bind_step _ _ _ _ _ E1), (proj2 (Z.eqb_neq b 0) Hb0), (bind_step _ _ _ _ _ (mret_ok a s1)). cbn [Z.eqb Pos.eqb negb].
  rewrite (bind_step _ _ _ _ _ E2). destruct L2 as (? & Hr2 & ?), Hs1 as (_ & Hr1 & _), Hsee as (_ & Hr & _).
  split; [by destruct long|]. split; [done|]. split; [congruence|done].
Qed.
End scan_value.
End integers.

Lemma int_print_ok {S} `{MemLaws S} (s : S) fuel buf size c long args : int_conversion c -> mem_ok s -> 0 < buf -> 66 <= size < 2 ^ 31 ->
  buf + size <= 2 ^ 32 -> owns s buf size ->
  exists s1, vsnprintf fuel buf size (int_format c long) args s = Ok (Z.of_nat (length (int_out c long args)), s1) /\ mem_ok s1 /\
    cstr (view s1) buf (int_out c long args) /\ forall x, view s1 x = written (view s) buf (int_out c long args ++ [0]) x.
Proof.
  intros Hc Hok Hb Hsz Hend Ho. set (out := int_out c long args).
  destruct (int_digits_ok c long args Hc) as (_ & Hd & Hl).
  assert (length out <= 65)%nat as Hlen by (unfold out, int_out; rewrite length_app; destruct (int_negative _ _ _); simpl; lia).
  assert (room buf size = size) as Hroom by (unfold room; lia).
  destruct (vsnprintf_ok s fuel buf size (int_format c long) args out) as (s1 & E1 & L1); [done|lia|lia| | |lia|lia| |].
  { unfold int_format. set_unfold in Hc. destruct long, Hc as [->|[->|[->|[->|[->|[]]]]]]; repeat constructor; lia. }
  { intros x Hx. apply Ho. lia. }
  { rewrite int_render, app_nil_r by done. f_equal. by apply int_text. }
  assert (truncated (Z.to_nat (room buf size)) out = out ++ [0]) as Et.
  { rewrite Hroom. unfold truncated. destruct (Z.to_nat size) as [|k] eqn:Ek; [lia|]. by rewrite take_ge by lia. }
  rewrite Et in L1. destruct L1 as (Hok1 & Hr1 & Hv1).
  exists s1. split; [done|]. split; [done|]. split; [|done].
  assert (cstr (written (view s) buf (out ++ [0])) buf out) as Hcw.
  { apply written_cstr. unfold out, int_out. apply Forall_app. split; [destruct (int_negative _ _ _); repeat constructor; lia|].
      eapply Forall_impl; [|exact Hd]. intros d [Hx _] ->. done. }
  destruct Hcw as [Hc1 Hc2]. split; [intros i b Hi; rewrite Hv1; by apply Hc1|by rewrite Hv1].
Qed.

(** ** Claims *)

(** C18: [vsnprintf] implements [render]: it returns the length of the whole
    output, leaves in a buffer of [size] bytes the part that fits and a NUL
    (nothing when [size] is 0), and writes no other byte; [snprintf] and, with
    a size of [INT_MAX], [vsprintf] and [sprintf] do the same. *)
Theorem vsnprintf_correct {S} `{MemLaws S} (s : S) (fuel : nat) (buf size : Z) (fmt : list Z) (args : nat -> Z) (out : list Z) :
  mem_ok s -> 0 < buf < 2 ^ 32 -> 0 <= size < 2 ^ 31 -> Forall is_u8 fmt ->
  owns s buf (Z.min (room buf size) (Z.of_nat (length out) + 1)) ->
  buf + Z.of_nat (length out) < 2 ^ 32 -> Z.of_nat (length out) < 2 ^ 31 ->
  render (unwritten (view s) buf size (length out)) args fuel (length fmt) fmt 0 = Some out ->
  let prints m := exists s', m s = Ok (Z.of_nat (length out), s') /\
    leaves s s' (written (view s) buf (truncated (Z.to_nat (room buf size)) out)) in
  prints (vsnprintf fuel buf size fmt args) /\ prints (snprintf fuel buf size fmt args) /\
  (size = INT_MAX -> prints (vsprintf fuel buf fmt args) /\ prints (sprintf fuel buf fmt args)).
Proof.
  intros. assert (prints (vsnprintf fuel buf size fmt args)) as Hp by (by apply vsnprintf_ok).
  split; [done|]. split; [done|]. intros ->. done.
Qed.

(** [vscnprintf] and [scnprintf] return the number of characters in the
    buffer, at most [size - 1], for every format that renders. *)
Theorem scnprintf_bounded {S} `{MemLaws S} (s : S) (fuel : nat) (buf size : Z) (fmt : list Z) (args : nat -> Z) (out : list Z) :
  mem_ok s -> 0 < buf < 2 ^ 32 -> 0 < size < 2 ^ 31 -> Forall is_u8 fmt ->
  owns s buf (Z.min (room buf size) (Z.of_nat (length out) + 1)) ->
  buf + Z.of_nat (length out) < 2 ^ 32 -> Z.of_nat (length out) < 2 ^ 31 ->
  render (unwritten (view s) buf size (length out)) args fuel (length fmt) fmt 0 = Some out ->
  exists s', vscnprintf fuel buf size fmt args s = Ok (Z.min (Z.of_nat (length out)) (size - 1), s') /\
    scnprintf fuel buf size fmt args s = Ok (Z.min (Z.of_nat (length out)) (size - 1), s') /\
    forall x, ~ (buf <= x < buf + Z.min size (Z.of_nat (length out) + 1)) -> view s' x = view s x.
Proof.
  intros Hok Hb Hs H8 Ho Hl1 Hl2 Hr. destruct (vsnprintf_ok s fuel buf size fmt args out) as (s' & E & _ & _ & Hv); [done|done|lia|done..|].
  exists s'. unfold vscnprintf, scnprintf. rewrite (bind_step _ _ _ _ _ E), u32_small by (unfold is_u32; lia).
  assert ((if size <=? Z.of_nat (length out) then s32 (size - 1) else Z.of_nat (length out)) = Z.min (Z.of_nat (length out)) (size - 1)) as ->
    by (destruct (Z.leb_spec size (Z.of_nat (length out))); rewrite ?s32_small; lia).
  split; [done|]. split; [done|]. intros x Hx. rewrite Hv. unfold written. rewrite (proj2 (in_range_false _ _ _)); [done|].
  unfold truncated. destruct (Z.to_nat _) as [|k] eqn:Ek; [simpl; lia|]. rewrite length_app, length_take. unfold room in Ek. simpl length. lia.
Qed.

(** C19: What [snprintf] prints with [%d], [%u], [%x], [%X] or [%o], or their
    [ll] forms, [sscanf] reads back with the same format: one conversion, and
    the very words that were passed. *)
Theorem snprintf_sscanf_roundtrip {S} `{MemLaws S} (s : S) (fuel : nat) (buf size p c : Z) (long : bool) (args : nat -> Z) :
  int_conversion c -> mem_ok s -> 0 < buf -> 66 <= size < 2 ^ 31 -> buf + size <= 2 ^ 32 -> owns s buf size ->
  owns s p 8 -> p + 8 <= buf \/ buf + size <= p -> (66 < fuel)%nat ->
  exists n s1 s2, snprintf fuel buf size (int_format c long) args s = Ok (n, s1) /\
    sscanf fuel buf (int_format c long) (fun _ => p) s1 = Ok (1, s2) /\
    (forall k, 0 <= k < 4 -> view s2 (p + k) = Some (byte_of (u32 (args 0%nat)) k)) /\
    (long = true -> forall k, 0 <= k < 4 -> view s2 (p + 4 + k) = Some (byte_of (u32 (args 1%nat)) k)).
Proof.
  intros Hc Hok Hb Hsz Hend Ho Hp Hdis Hf. destruct (int_print_ok s fuel buf size c long args) as (s1 & E1 & Hok1 & Hcs & Hv1); [done..|].
  assert (forall x, p <= x < p + 8 -> is_u32 x /\ is_Some (view s1 x)) as Hpo
    by (intros x Hx; split; [eapply owns_u32; [exact Hok|exact Hp|lia]|]; rewrite Hv1; apply written_some, Hp; lia).
  assert (length (int_stored c long args) = if long then 8 else 4)%nat as Hsl by (unfold int_stored; by destruct long).
  destruct (int_scan c long (view s1) (rest s1) (view_bytes s1 Hok1) fuel buf args Hc Hcs Hf p s1) as (s2 & E2 & _ & _ & Hv2).
  { done. } { apply Hpo; lia. } { apply Hpo; lia. } { intros k Hk. apply Hpo. rewrite Hsl in Hk. destruct long; lia. }
  exists (Z.of_nat (length (int_out c long args))), s1, s2. split; [done|]. split; [done|].
  destruct (int_number_words c long args Hc) as [Ew0 Ew1].
  assert (forall k, 0 <= k < Z.of_nat (length (int_stored c long args)) -> view s2 (p + k) = int_stored c long args !! Z.to_nat k) as Hst
    by (intros k Hk; rewrite Hv2; unfold written; rewrite (proj2 (in_range_spec _ _ _)) by lia; f_equal; lia).
  rewrite Hsl in Hst. unfold int_stored in Hst. rewrite Ew0 in Hst. split.
  - intros k Hk. rewrite Hst by (destruct long; lia). assert (k = 0 \/ k = 1 \/ k = 2 \/ k = 3) as [->|[->|[->| ->]]] by lia; done.
  - intros ->. rewrite Ew1 in Hst by done. intros k Hk. rewrite <- Z.add_assoc, Hst by lia.
    assert (k = 0 \/ k = 1 \/ k = 2 \/ k = 3) as [->|[->|[->| ->]]] by lia; done.
Qed.

(** A buffer of 80 bytes at 5000, the string hi at 6000, eight bytes at 7000. *)
Definition printf_example : flat :=
  list_to_map (map (fun k : nat => (5000 + Z.of_nat k, 255)) (seq 0 80) ++ [(6000, 104); (6001, 105); (6002, 0)] ++
    map (fun k : nat => (7000 + Z.of_nat k, 1)) (seq 0 8)).

Lemma printf_example_ok : mem_ok printf_example.
Proof. unfold mem_ok, flat_laws, flat_ok, is_u32, is_u8. apply (bool_decide_unpack _). vm_compute. exact I. Qed.

(** ["%s=%#06x%-4d|"] with hi, 255 and -3: ["hi=0x00ff-3  |"]. *)
Definition printf_format : list Z := [37; 115; 61; 37; 35; 48; 54; 120; 37; 45; 52; 100; 124].
Definition printf_args (n : nat) : Z := nth n [6000; 255; 2 ^ 32 - 3] 0.
Definition printf_out : list Z := [104; 105; 61; 48; 120; 48; 48; 102; 102; 45; 51; 32; 32; 124].

Lemma vsnprintf_correct_witness :
  exists s', vsnprintf 9 5000 8 printf_format printf_args printf_example = Ok (14, s') /\
    cstr (view s') 5000 [104; 105; 61; 48; 120; 48; 48] /\ view s' 5008 = Some 255.
Proof.
  destruct (vsnprintf_correct printf_example 9 5000 8 printf_format printf_args printf_out) as ((s' & E & _ & _ & Hv) & _ & _).
  - exact printf_example_ok.
  - lia.
  - lia.
  - unfold is_u8. repeat (constructor; [lia|]). constructor.
  - apply (flat_owns _ _ 8). vm_compute. reflexivity.
  - zdec.
  - zdec.
  - vm_compute. reflexivity.
  - exists s'. split; [exact E|]. split; [split|]; [intros i b|rewrite Hv; reflexivity..].
    rewrite Hv. do 7 (destruct i as [|i]; [intros [= <-]; split; [reflexivity|discriminate]|]). discriminate.
Defined.

Lemma scnprintf_bounded_witness :
  exists s', scnprintf 9 5000 8 printf_format printf_args printf_example = Ok (7, s') /\ view s' 5008 = Some 255.
Proof.
  destruct (scnprintf_bounded printf_example 9 5000 8 printf_format printf_args printf_out) as (s' & _ & E & Hv).
  - exact printf_example_ok.
  - lia.
  - lia.
  - unfold is_u8. repeat (constructor; [lia|]). constructor.
  - apply (flat_owns _ _ 8). vm_compute. reflexivity.
  - zdec.
  - zdec.
  - vm_compute. reflexivity.
  - exists s'. split; [exact E|]. rewrite Hv by (simpl; lia). reflexivity.
Defined.

Lemma snprintf_sscanf_roundtrip_witness :
  exists n s1 s2, snprintf 67 5000 80 (int_format 100 true) printf_args printf_example = Ok (n, s1) /\
    sscanf 67 5000 (int_format 100 true) (fun _ => 7000) s1 = Ok (1, s2) /\ view s2 7000 = Some 112.
Proof.
  destruct (snprintf_sscanf_roundtrip printf_example 67 5000 80 7000 100 true printf_args) as (n & s1 & s2 & E1 & E2 & Hv & _).
  - constructor.
  - exact printf_example_ok.
  - lia.
  - lia.
  - lia.
  - apply (flat_owns _ _ 80). vm_compute. reflexivity.
  - apply (flat_owns _ _ 8). vm_compute. reflexivity.
  - lia.
  - lia.
  - exists n, s1, s2. split; [exact E1|]. split; [exact E2|]. exact (Hv 0 ltac:(lia)).
Defined.
