(* ===== verification/Semaphore.v ===== *)
(** * Semaphores

    [locking/semaphore.c] and the spin lock of [locking/spinlock.h], over the
    scheduler: a thread that finds no token left queues itself and gives up the
    CPU, and a release hands the token to the first waiter. The theorems relate
    the code, whatever the threads do, to an abstract semaphore with holders
    and a FIFO of waiters. *)
From Stdlib Require Import ZArith Lia Bool List.
From stdpp Require Import base list gmap option fin_maps sets.
From S2P Require Import Prelude Dlist Plist Sched.

Open Scope Z_scope.

#[local] Arguments circle : simpl never.

(** [struct semaphore] without its [wait_list], whose links are in a heap of
    list nodes; a waiter's [sibling] is its first field. *)
Record semaphore := mk_semaphore { sem_lock : Z; sem_count : Z; sem_capacity : Z }.

Record sem_state := mk_sem_state {
  sc : sched;
  wl : lheap;
  task : gmap Z Z;
  sems : gmap Z semaphore }.

Definition on_sc {A} : M sched A -> M sem_state A := zoom sc (fun c s => mk_sem_state c (wl s) (task s) (sems s)).
Definition on_wl {A} : M lheap A -> M sem_state A := zoom wl (fun h s => mk_sem_state (sc s) h (task s) (sems s)).
Definition get_sem (sem : Z) : M sem_state semaphore := deref (fun s => sems s !! sem).
Definition put_sem (sem : Z) (x : semaphore) : M sem_state unit :=
  modify (fun s => mk_sem_state (sc s) (wl s) (task s) (<[sem := x]> (sems s))).
Definition put_task (waiter th : Z) : M sem_state unit :=
  modify (fun s => mk_sem_state (sc s) (wl s) (<[waiter := th]> (task s)) (sems s)).

(** [offsetof(struct semaphore, wait_list)]. *)
Definition wait_list (sem : Z) : Z := sem + 12.

Definition disable_interrupts : M sem_state unit :=
  on_sc (modify (fun s => with_lock (scheduler_lock_counter s) false s)).
Definition enable_interrupts : M sem_state unit :=
  on_sc (modify (fun s => with_lock (scheduler_lock_counter s) true s)).

(** [xchg_8(&sem->lock, x)] *)
Definition xchg_8 (sem x : Z) : M sem_state Z :=
  v ← get_sem sem; put_sem sem (mk_semaphore x (sem_count v) (sem_capacity v));; mret (sem_lock v).

(** A lock that is taken stays so while the only CPU spins. *)
Definition spin_lock (sem : Z) : M sem_state unit :=
  old ← xchg_8 sem 1; if old =? 0 then mret tt else mfail Fuel.
Definition spin_unlock (sem : Z) : M sem_state unit :=
  v ← get_sem sem; put_sem sem (mk_semaphore 0 (sem_count v) (sem_capacity v)).
Definition spin_trylock (sem : Z) : M sem_state Z := xchg_8 sem 1.

Definition set_count (sem n : Z) : M sem_state unit :=
  v ← get_sem sem; put_sem sem (mk_semaphore (sem_lock v) n (sem_capacity v)).

Definition sema_init (sem val : Z) : M sem_state unit :=
  put_sem sem (mk_semaphore 0 (u32 val) (u32 val));; on_wl (INIT_LIST_HEAD (wait_list sem)).

Section semaphore.
Context (kernel_ready_list system_ready_list app_ready_list waiting_list terminated_list : Z).
Context (offsetof_sched_sibling : Z) (handle_signal : M sched unit) (fuel : nat).
#[local] Abbreviation update_thread :=
  (update_thread kernel_ready_list system_ready_list app_ready_list waiting_list terminated_list offsetof_sched_sibling fuel).
#[local] Abbreviation schedule :=
  (schedule kernel_ready_list system_ready_list app_ready_list waiting_list terminated_list offsetof_sched_sibling handle_signal fuel).

(** The address [kcalloc] finds for a waiter. The heap is apart from this state ([Malloc]);
    that the address is not in use is a hypothesis of the theorems. *)
Context (fresh_waiter : sem_state -> Z).

Definition kcalloc_waiter : M sem_state Z := fun s =>
  let w := fresh_waiter s in
  Ok (w, mk_sem_state (sc s) (<[w := mk_list_head 0 0]> (wl s)) (<[w := 0]> (task s)) (sems s)).

Definition acquire_semaphore (irqs : list (M sched unit)) (sem : Z) : M sem_state unit :=
  disable_interrupts;;
  spin_lock sem;;
  v ← get_sem sem;
  if 0 <? sem_count v then
    set_count sem (u32 (sem_count v - 1));;
    spin_unlock sem;;
    enable_interrupts
  else
    waiter ← kcalloc_waiter;
    cur ← on_sc (gets current_thread);
    put_task waiter cur;;
    on_wl (list_add_tail waiter (wait_list sem));;
    on_sc (update_thread cur THREAD_WAITING);;
    spin_unlock sem;;
    on_sc (schedule irqs).

Definition release_semaphore (sem : Z) : M sem_state unit :=
  disable_interrupts;;
  spin_lock sem;;
  e ← on_wl (list_empty (wait_list sem));
  (if e : bool then
     v ← get_sem sem;
     mwhen (sem_count v <? sem_capacity v) (set_count sem (u32 (sem_count v + 1)))
   else
     waiter ← on_wl (get_next (wait_list sem));
     on_wl (list_del waiter);;
     th ← deref (fun s => task s !! waiter);
     on_sc (update_thread th THREAD_READY));;
  spin_unlock sem;;
  enable_interrupts.

(** The end of a time slice, as [irq_schedule_handler] leaves it: the current
    thread is ready again and another one gets the CPU. *)
Definition preempt (irqs : list (M sched unit)) : M sem_state unit :=
  cur ← on_sc (gets current_thread);
  on_sc (update_thread cur THREAD_READY);;
  on_sc (schedule irqs).

(** ** The abstract semaphore *)

(** Who runs, who is ready, the tokens left, the waiters in order of arrival,
    and a holder for every token handed out. *)
Record asem := mk_asem { a_cur : Z; a_ready : gset Z; a_count : Z; a_wait : list Z; a_hold : list Z }.

Inductive sem_event := Acquire | Release | Preempt.

Inductive asem_step : asem -> sem_event -> asem -> Prop :=
| acquire_free cur r c w h : 0 < c ->
    asem_step (mk_asem cur r c w h) Acquire (mk_asem cur r (c - 1) w (cur :: h))
| acquire_wait cur r w h n : n ∈ r ->
    asem_step (mk_asem cur r 0 w h) Acquire (mk_asem n (r ∖ {[n]}) 0 (w ++ [cur]) h)
| release_hand cur r c t w h1 h2 :
    asem_step (mk_asem cur r c (t :: w) (h1 ++ cur :: h2)) Release (mk_asem cur ({[t]} ∪ r) c w (t :: h1 ++ h2))
| release_free cur r c h1 h2 :
    asem_step (mk_asem cur r c [] (h1 ++ cur :: h2)) Release (mk_asem cur r (c + 1) [] (h1 ++ h2))
| preempt_to cur r c w h n : n ∈ {[cur]} ∪ r ->
    asem_step (mk_asem cur r c w h) Preempt (mk_asem n (({[cur]} ∪ r) ∖ {[n]}) c w h).

(** A blocking thread needs one that can run; only a holder releases. *)
Definition enabled (a : asem) (e : sem_event) : Prop :=
  match e with
  | Acquire => 0 < a_count a \/ a_ready a <> ∅
  | Release => a_cur a ∈ a_hold a
  | Preempt => True
  end.

#[export] Instance enabled_dec a e : Decision (enabled a e).
Proof. destruct e; unfold enabled; apply _. Defined.

Record asem_ok (cap : Z) (a : asem) : Prop := {
  ao_tokens : Z.of_nat (length (a_hold a)) + a_count a = cap;
  ao_count : 0 <= a_count a;
  ao_wait : 0 < a_count a -> a_wait a = [];
  ao_nodup : NoDup (a_cur a :: a_wait a);
  ao_cur : a_cur a ∉ a_ready a;
  ao_ready : forall th, th ∈ a_wait a -> th ∉ a_ready a }.

Lemma asem_step_ok cap a e a' : asem_ok cap a -> asem_step a e a' -> asem_ok cap a'.
Proof.
  intros [H1 H2 H3 H4 H5 H6] Hs. destruct Hs; simpl in *; split; simpl; try rewrite ?length_app in *; simpl in *; try lia; try done; try set_solver.
  - rewrite NoDup_cons, NoDup_app in *. destruct H4 as [Hc Hw]. split; [|split; [done|split; [|apply NoDup_singleton]]]; set_solver.
  - apply NoDup_cons in H4 as [Hc Hw]. apply NoDup_cons in Hw as [Ht Hw]. constructor; set_solver.
  - apply NoDup_cons in H4 as [Hc Hw]. set_solver.
  - apply NoDup_cons in H4 as [Hc Hw]. apply NoDup_cons in Hw as [Ht Hw]. set_solver.
  - apply NoDup_cons in H4 as [Hc Hw]. constructor; set_solver.
  - apply NoDup_cons in H4 as [Hc Hw]. set_solver.
Qed.

(** ** The semaphore in memory *)

#[local] Abbreviation sched_ok := (sched_ok kernel_ready_list system_ready_list app_ready_list waiting_list terminated_list offsetof_sched_sibling).
#[local] Abbreviation ready := (ready kernel_ready_list system_ready_list app_ready_list).

Definition in_state (s : sched) (th : Z) (st : thread_state) : Prop := exists t, threads s !! th = Some t /\ t_state t = st.

(** The scheduler runs [cur], the threads of [r] are ready and those of [w] wait; no
    signal is pending. *)
Record scheduled (ths : list Z) (cur : Z) (r : gset Z) (w : list Z) (s : sched) : Prop := {
  sd_ok : exists Q, sched_ok ths Q s;
  sd_lock : scheduler_lock_counter s = 0;
  sd_cur : current_thread s = cur;
  sd_running : in_state s cur THREAD_RUNNING;
  sd_ready : forall th, th ∈ r <-> in_state s th THREAD_READY;
  sd_wait : forall th, th ∈ w -> in_state s th THREAD_WAITING;
  sd_signal : forall th t, threads s !! th = Some t -> t_pending t = 0 }.

(** The fields and the ring of waiters of [sem]. *)
Record represents (sem cap c : Z) (w : list Z) (s : sem_state) : Prop := {
  rp_sem : sems s !! sem = Some (mk_semaphore 0 c cap);
  rp_null : wl s !! 0 = None;
  rp_list : exists ws, circle (wl s) (wait_list sem :: ws) /\ Forall2 (fun x th => task s !! x = Some th) ws w }.

Definition sim (ths : list Z) (sem cap : Z) (s : sem_state) (a : asem) : Prop :=
  scheduled ths (a_cur a) (a_ready a) (a_wait a) (sc s) /\ represents sem cap (a_count a) (a_wait a) s.

Lemma ready_iff ths Q s th : sched_ok ths Q s -> th ∈ ready Q <-> in_state s th THREAD_READY.
Proof.
  intros Hok. pose proof (heads_NoDup _ _ _ _ _ _ _ _ _ (so_queues _ _ _ _ _ _ _ _ _ Hok)) as Hnd. unfold heads in Hnd.
  pose proof (qs_heads _ _ _ _ _ _ _ _ _ (so_queues _ _ _ _ _ _ _ _ _ Hok)) as H0. unfold heads in H0. unfold Sched.ready. split.
  - intros Hin. assert (exists h, h ∈ [kernel_ready_list; system_ready_list; app_ready_list] /\ th ∈ Q h) as (h & Hh & Hq)
      by (rewrite !elem_of_app in Hin; destruct Hin as [?|[?|?]]; eexists; (split; [|eassumption]); set_solver).
    assert (th ∈ ths) as Hth by (eapply (qs_sub _ _ _ _ _ _ _ _ _ (so_queues _ _ _ _ _ _ _ _ _ Hok) h); [unfold heads; set_solver|done]).
    apply (so_ths _ _ _ _ _ _ _ _ _ Hok) in Hth as [t Ht]. exists t. split; [done|].
    apply (so_place _ _ _ _ _ _ _ _ _ Hok th t h Ht) in Hq; [|unfold heads; set_solver]. subst h.
    destruct (t_state t); simpl in Hh; try done; rewrite !NoDup_cons in Hnd; set_solver.
  - intros (t & Ht & Hst). pose proof (so_place _ _ _ _ _ _ _ _ _ Hok th t (get_list_from_thread kernel_ready_list system_ready_list
      app_ready_list waiting_list terminated_list (t_state t) (t_policy t)) Ht) as Hp. rewrite Hst in Hp. simpl in Hp.
    rewrite !elem_of_app. destruct (t_policy t); [left|right; left|right; right]; apply Hp; unfold heads; set_solver.
Qed.

Context (ths : list Z) (Hfuel : (length ths <= fuel)%nat).

Lemma scheduled_lock cur r w s i : scheduled ths cur r w s -> scheduled ths cur r w (with_lock (scheduler_lock_counter s) i s).
Proof.
  intros [[Q Hok] Hl Hc Hr Hrd Hw Hsig]. split; try done. exists Q. apply sched_ok_lock; [done|]. rewrite Hl. lia.
Qed.

(** A thread's state changes. *)
Lemma update_state cur r w s th t st : scheduled ths cur r w s -> threads s !! th = Some t -> t_state t <> st ->
  exists s', update_thread th st s = Ok (tt, s') /\ (exists Q, sched_ok ths Q s') /\ scheduler_lock_counter s' = 0 /\
    current_thread s' = cur /\ threads s' = <[th := with_state st t]> (threads s).
Proof.
  intros [[Q Hok] Hl Hc Hr Hrd Hw Hsig] Ht Hst.
  destruct (update_thread_ok _ _ _ _ _ _ _ ths Q s th t st Hok Hfuel Ht Hst) as (p & E & Hok' & _). eexists. split; [exact E|].
  split; [eauto|]. done.
Qed.

Lemma in_state_insert s s' th t th' st : threads s' = <[th := t]> (threads s) ->
  in_state s' th' st <-> (if decide (th' = th) then t_state t = st else in_state s th' st).
Proof.
  intros E. unfold in_state. rewrite E. destruct (decide (th' = th)) as [->|Hne].
  - rewrite lookup_insert_eq. split; [intros (t' & [= <-] & Hs); done|eauto].
  - by rewrite lookup_insert_ne.
Qed.

(** A waiter becomes ready. *)
Lemma wake_ok cur r w s th : scheduled ths cur r (th :: w) s -> NoDup (cur :: th :: w) ->
  exists s', update_thread th THREAD_READY s = Ok (tt, s') /\ scheduled ths cur ({[th]} ∪ r) w s'.
Proof.
  intros Hs Hnd. pose proof Hs as [_ _ _ Hr Hrd Hw Hsig]. destruct (Hw th) as (t & Ht & Hst); [constructor|].
  destruct (update_state cur r (th :: w) s th t THREAD_READY Hs Ht) as (s' & E & HQ & Hl & Hc & Hth); [congruence|].
  exists s'. split; [done|]. apply NoDup_cons in Hnd as [Hcur Hnd]. apply NoDup_cons in Hnd as [Hth' Hnd].
  assert (forall th' st, in_state s' th' st <-> (if decide (th' = th) then THREAD_READY = st else in_state s th' st)) as Hin
    by (intros; by apply (in_state_insert s s' th (with_state THREAD_READY t))).
  split; try done.
  - apply Hin. rewrite decide_False by set_solver. done.
  - intros th'. rewrite Hin, elem_of_union, elem_of_singleton. case_decide; [naive_solver|]. rewrite <- Hrd. naive_solver.
  - intros th' Hin'. apply Hin. rewrite decide_False by set_solver. apply Hw. by right.
  - intros th' t'. rewrite Hth. intros [[<- <-]|[_ Ht']]%lookup_insert_Some; [simpl; by eapply Hsig|by eapply Hsig].
Qed.

(** The current thread gives up the CPU. *)
Lemma leave_ok irqs cur r w s st : scheduled ths cur r w s -> cur ∉ w -> (st = THREAD_WAITING \/ st = THREAD_READY) ->
  let r' := if decide (st = THREAD_READY) then {[cur]} ∪ r else r in r' <> ∅ ->
  exists s1 s2 n, update_thread cur st s = Ok (tt, s1) /\ schedule irqs s1 = Ok (tt, s2) /\ n ∈ r' /\
    scheduled ths n (r' ∖ {[n]}) (if decide (st = THREAD_READY) then w else w ++ [cur]) s2.
Proof.
  intros Hs Hw0 Hst r' Hne. pose proof Hs as [_ _ _ (t & Ht & Hrun) Hrd Hw Hsig].
  destruct (update_state cur r w s cur t st Hs Ht) as (s1 & E1 & [Q1 Hok1] & Hl1 & Hc1 & Hth1); [rewrite Hrun; destruct Hst as [->| ->]; done|].
  assert (forall th' st', in_state s1 th' st' <-> (if decide (th' = cur) then st = st' else in_state s th' st')) as Hin1
    by (intros; by apply (in_state_insert s s1 cur (with_state st t))).
  assert (forall th, th ∈ r' <-> in_state s1 th THREAD_READY) as Hr'.
  { intros th. rewrite Hin1. unfold r'. destruct Hst as [->| ->].
    - rewrite (decide_False (P := THREAD_WAITING = _)) by done. rewrite Hrd. case_decide as E; [|done]. subst th.
      split; [|done]. intros (t' & Ht' & Hs'). congruence.
    - rewrite (decide_True (P := THREAD_READY = _)) by done. rewrite elem_of_union, elem_of_singleton, Hrd. case_decide; naive_solver. }
  destruct (ready Q1) as [|n l] eqn:Er.
  { exfalso. apply set_choose_L in Hne as [x Hx]. apply Hr', (ready_iff ths Q1 s1 x Hok1) in Hx. rewrite Er in Hx. set_solver. }
  assert (in_state s1 n THREAD_READY) as Hn by (apply (ready_iff ths Q1 s1 n Hok1); rewrite Er; constructor). pose proof Hn as (tn & Htn & Hsn).
  destruct (schedule_ok _ _ _ _ _ _ handle_signal fuel irqs ths Q1 s1 (with_state st t) n tn l Hok1 Hfuel) as (s2 & E2 & Hok2 & [_ _ R3 _ R5 R6 _] & _).
  { lia. } { by rewrite Hth1, Hc1, lookup_insert_eq. } { destruct Hst as [->| ->]; done. } { done. } { done. }
  { unfold signalled. rewrite Hth1 in Htn. apply lookup_insert_Some in Htn as [[<- <-]|[_ Htn]]; simpl; by erewrite Hsig by done. }
  exists s1, s2, n. split; [done|]. split; [done|]. split; [by apply Hr'|].
  assert (forall th' st', in_state s2 th' st' <-> (if decide (th' = n) then THREAD_RUNNING = st' else in_state s1 th' st')) as Hin2
    by (intros; by apply (in_state_insert s1 s2 n (with_state THREAD_RUNNING (with_slice 0 tn)))).
  split; [eauto|lia|done| | | |].
  - apply Hin2. by rewrite decide_True.
  - intros th. rewrite Hin2, elem_of_difference, not_elem_of_singleton, Hr'. case_decide; naive_solver.
  - intros th Hth. apply Hin2. assert (in_state s1 th THREAD_WAITING) as Hwt.
    { apply Hin1. destruct Hst as [->| ->].
      - rewrite (decide_False (P := THREAD_WAITING = _)) in Hth by done. case_decide; [done|]. apply Hw. set_solver.
      - rewrite (decide_True (P := THREAD_READY = _)) in Hth by done. rewrite decide_False by set_solver. by apply Hw. }
    destruct (decide (th = n)) as [E|]; [|done]. subst th. destruct Hn as (t1 & ? & ?), Hwt as (t2 & ? & ?). congruence.
  - intros th t'. rewrite R3, Hth1. intros [[<- <-]|[_ [[<- <-]|[_ Ht']]%lookup_insert_Some]]%lookup_insert_Some; simpl; try (by eapply Hsig).
    rewrite Hth1 in Htn. apply lookup_insert_Some in Htn as [[<- <-]|[_ Htn]]; simpl; by eapply Hsig.
Qed.

(** ** The operations *)

Context (irqs : list (M sched unit)) (sem cap : Z) (Hcap : 0 <= cap < 2 ^ 32).
Context (Hfresh : forall s, wl s !! fresh_waiter s = None /\ fresh_waiter s <> 0).

Definition run_event (e : sem_event) : M sem_state unit :=
  match e with
  | Acquire => acquire_semaphore irqs sem
  | Release => release_semaphore sem
  | Preempt => preempt irqs
  end.

(** The state inside the critical section. *)
Definition entered (c : Z) (s : sem_state) : sem_state :=
  mk_sem_state (with_lock (scheduler_lock_counter (sc s)) false (sc s)) (wl s) (task s) (<[sem := mk_semaphore 1 c cap]> (sems s)).

Lemma get_sem_ok s v : sems s !! sem = Some v -> get_sem sem s = Ok (v, s).
Proof. intros Hs. unfold get_sem. by rewrite (deref_some (fun s => sems s !! sem) s v Hs). Qed.

Lemma xchg_ok s v x : sems s !! sem = Some v ->
  xchg_8 sem x s = Ok (sem_lock v, mk_sem_state (sc s) (wl s) (task s) (<[sem := mk_semaphore x (sem_count v) (sem_capacity v)]> (sems s))).
Proof. intros Hs. unfold xchg_8. by rewrite (bind_step _ _ _ _ _ (get_sem_ok _ _ Hs)). Qed.

Lemma enter_ok {A} c w s (k : M sem_state A) : represents sem cap c w s ->
  (disable_interrupts;; spin_lock sem;; k) s = k (entered c s).
Proof.
  intros [Hs _ _]. rewrite (bind_step _ _ s tt (mk_sem_state (with_lock (scheduler_lock_counter (sc s)) false (sc s)) (wl s) (task s) (sems s))) by done.
  rewrite (bind_step _ _ _ tt (entered c s)); [done|]. unfold spin_lock. by rewrite (bind_step _ _ _ _ _ (xchg_ok (mk_sem_state _ _ _ _) _ 1 Hs)).
Qed.

Lemma set_count_ok s v n : sems s !! sem = Some v ->
  set_count sem n s = Ok (tt, mk_sem_state (sc s) (wl s) (task s) (<[sem := mk_semaphore (sem_lock v) n (sem_capacity v)]> (sems s))).
Proof. intros Hs. unfold set_count. by rewrite (bind_step _ _ _ _ _ (get_sem_ok _ _ Hs)). Qed.

Lemma spin_unlock_ok s v : sems s !! sem = Some v ->
  spin_unlock sem s = Ok (tt, mk_sem_state (sc s) (wl s) (task s) (<[sem := mk_semaphore 0 (sem_count v) (sem_capacity v)]> (sems s))).
Proof. intros Hs. unfold spin_unlock. by rewrite (bind_step _ _ _ _ _ (get_sem_ok _ _ Hs)). Qed.

Lemma on_sc_ok {A} (m : M sched A) s a c : m (sc s) = Ok (a, c) -> on_sc m s = Ok (a, mk_sem_state c (wl s) (task s) (sems s)).
Proof. intros E. unfold on_sc, zoom. by rewrite E. Qed.

Lemma on_wl_ok {A} (m : M lheap A) s a h : m (wl s) = Ok (a, h) -> on_wl m s = Ok (a, mk_sem_state (sc s) h (task s) (sems s)).
Proof. intros E. unfold on_wl, zoom. by rewrite E. Qed.

Lemma represents_ext c w c' s s' : represents sem cap c w s -> wl s' = wl s -> task s' = task s ->
  sems s' !! sem = Some (mk_semaphore 0 c' cap) -> represents sem cap c' w s'.
Proof. intros [_ H2 H3] E1 E2 E3. split; [done|by rewrite E1|by rewrite E1, E2]. Qed.

Lemma acquire_free_ok cur r c w s : scheduled ths cur r w (sc s) -> represents sem cap c w s -> 0 < c <= cap ->
  exists s', acquire_semaphore irqs sem s = Ok (tt, s') /\ scheduled ths cur r w (sc s') /\ represents sem cap (c - 1) w s'.
Proof.
  intros Hd Hr Hc. unfold acquire_semaphore. rewrite (enter_ok c w s _ Hr).
  assert (sems (entered c s) !! sem = Some (mk_semaphore 1 c cap)) as Hs1 by apply lookup_insert_eq.
  rewrite (bind_step _ _ _ _ _ (get_sem_ok _ _ Hs1)). cbn [sem_count]. rewrite (proj2 (Z.ltb_lt 0 c)) by lia.
  rewrite (bind_step _ _ _ _ _ (set_count_ok _ _ _ Hs1)). erewrite (bind_step (spin_unlock sem)); [|apply spin_unlock_ok, lookup_insert_eq].
  eexists. split; [reflexivity|]. split; [by apply (scheduled_lock cur r w (with_lock _ _ (sc s))), scheduled_lock|].
  eapply represents_ext; [exact Hr|done|done|]. cbn [sems]. rewrite lookup_insert_eq. rewrite u32_small by (unfold is_u32; lia). done.
Qed.

(** The new waiter joins the ring at its tail. *)
Lemma enqueue_ok (h : lheap) (ws : list Z) (tk : gmap Z Z) (th : list Z) (w : Z) : circle h (wait_list sem :: ws) -> h !! 0 = None -> h !! w = None -> w <> 0 -> Forall2 (fun x t => tk !! x = Some t) ws th ->
  forall cur, exists h', list_add_tail w (wait_list sem) (<[w := mk_list_head 0 0]> h) = Ok (tt, h') /\ h' !! 0 = None /\
    circle h' (wait_list sem :: ws ++ [w]) /\ Forall2 (fun x t => <[w := cur]> (<[w := 0]> tk) !! x = Some t) (ws ++ [w]) (th ++ [cur]).
Proof.
  intros Hc H0 Hw Hw0 Ht cur. assert (w ∉ wait_list sem :: ws) as Hn by (intros Hin; destruct (circle_Some _ _ _ Hc Hin); congruence).
  destruct (list_add_tail_ok (<[w := mk_list_head 0 0]> h) w (wait_list sem) ws) as (h' & E & Hc' & Hch).
  - apply (circle_frame h); [done|]. intros x Hx. rewrite lookup_insert_ne; [done|]. by intros ->.
  - done.
  - rewrite lookup_insert_eq. eauto.
  - exists h'. split; [done|]. split_and!; [|done|].
    + destruct (h' !! 0) as [v|] eqn:E0; [|done]. destruct Hch as [_ Hd]. destruct (proj1 (Hd 0)) as [v' Hv']; [eauto|].
      rewrite lookup_insert_ne in Hv' by done. congruence.
    + apply Forall2_app; [|repeat constructor; by rewrite lookup_insert_eq].
      assert (w ∉ ws) as Hnw by set_solver. clear - Ht Hnw.
      induction Ht as [|y t ws th Hy Ht IH]; constructor; [by rewrite !lookup_insert_ne by set_solver|apply IH; set_solver].
Qed.

Lemma acquire_wait_ok cur r w s : scheduled ths cur r w (sc s) -> represents sem cap 0 w s -> cur ∉ w -> r <> ∅ ->
  exists s' n, acquire_semaphore irqs sem s = Ok (tt, s') /\ n ∈ r /\ scheduled ths n (r ∖ {[n]}) (w ++ [cur]) (sc s') /\
    represents sem cap 0 (w ++ [cur]) s'.
Proof.
  intros Hd Hr Hcw Hne. unfold acquire_semaphore. rewrite (enter_ok 0 w s _ Hr). set (e := entered 0 s).
  assert (sems e !! sem = Some (mk_semaphore 1 0 cap)) as Hs1 by apply lookup_insert_eq.
  rewrite (bind_step _ _ _ _ _ (get_sem_ok _ _ Hs1)). cbn [sem_count]. rewrite Z.ltb_irrefl.
  destruct (Hfresh e) as [Hf Hf0]. set (x := fresh_waiter e) in *. destruct Hr as [Hs H0 (ws & Hc & Ht)].
  set (e2 := mk_sem_state (sc e) (<[x := mk_list_head 0 0]> (wl e)) (<[x := 0]> (task e)) (sems e)).
  rewrite (bind_step _ _ _ x e2) by done.
  assert (on_sc (gets current_thread) e2 = Ok (cur, e2)) as Ecur by (unfold on_sc, zoom; simpl; by rewrite (sd_cur _ _ _ _ _ Hd)).
  rewrite (bind_step _ _ _ _ _ Ecur). erewrite bind_step; [|reflexivity].
  destruct (enqueue_ok (wl e) ws (task e) w x Hc H0 Hf Hf0 Ht cur) as (h' & E3 & H0' & Hc' & Ht').
  erewrite bind_step; [|apply on_wl_ok; exact E3].
  destruct (leave_ok irqs cur r w (sc e) THREAD_WAITING) as (s1 & s2 & n & E4 & E5 & Hn & Hd2); [by apply scheduled_lock|done|by left|done|].
  erewrite bind_step; [|apply on_sc_ok; exact E4]. erewrite bind_step; [|apply spin_unlock_ok; exact Hs1].
  erewrite on_sc_ok; [|exact E5]. eexists _, n. split; [reflexivity|]. split; [exact Hn|]. split; [exact Hd2|].
  split; [apply lookup_insert_eq|exact H0'|eauto].
Qed.

Lemma release_free_ok cur r c s : scheduled ths cur r [] (sc s) -> represents sem cap c [] s -> 0 <= c < cap ->
  exists s', release_semaphore sem s = Ok (tt, s') /\ scheduled ths cur r [] (sc s') /\ represents sem cap (c + 1) [] s'.
Proof.
  intros Hd Hr Hc. unfold release_semaphore. rewrite (enter_ok c [] s _ Hr). destruct Hr as [Hs H0 (ws & Hci & Ht)].
  apply Forall2_nil_inv_r in Ht as ->. set (e := entered c s).
  assert (sems e !! sem = Some (mk_semaphore 1 c cap)) as Hs1 by apply lookup_insert_eq.
  erewrite bind_step; [|apply on_wl_ok, (list_empty_ok _ _ _ Hci)]. cbn [bool_decide].
  rewrite bool_decide_eq_true_2 by done.
  erewrite bind_step; [|erewrite bind_step; [|apply get_sem_ok; exact Hs1]; cbn [sem_count sem_capacity];
    rewrite (proj2 (Z.ltb_lt c cap)) by lia; apply set_count_ok; exact Hs1].
  erewrite bind_step; [|apply spin_unlock_ok, lookup_insert_eq]. eexists. split; [reflexivity|].
  split; [by apply (scheduled_lock cur r [] (with_lock _ _ (sc s))), scheduled_lock|].
  split; [|done|exists []; done]. cbn [sems]. rewrite lookup_insert_eq, u32_small by (unfold is_u32; lia). done.
Qed.

Lemma release_hand_ok cur r c t w s : scheduled ths cur r (t :: w) (sc s) -> represents sem cap c (t :: w) s -> NoDup (cur :: t :: w) ->
  exists s', release_semaphore sem s = Ok (tt, s') /\ scheduled ths cur ({[t]} ∪ r) w (sc s') /\ represents sem cap c w s'.
Proof.
  intros Hd Hr Hnd. unfold release_semaphore. rewrite (enter_ok c (t :: w) s _ Hr). destruct Hr as [Hs H0 (ws & Hci & Ht)].
  apply Forall2_cons_inv_r in Ht as (x & ws' & Hx & Ht & ->). set (e := entered c s).
  assert (sems e !! sem = Some (mk_semaphore 1 c cap)) as Hs1 by apply lookup_insert_eq.
  erewrite bind_step; [|apply on_wl_ok, (list_empty_ok _ _ _ Hci)]. rewrite bool_decide_eq_false_2 by done.
  destruct (list_del_ok (wl s) x (ws' ++ [wait_list sem]) H0) as (h' & E1 & Hc' & Hch & _).
  { apply (circle_rotate (wl s) [wait_list sem] (x :: ws')). exact Hci. }
  apply (circle_rotate h' ws' [wait_list sem]) in Hc'. simpl in Hc'.
  destruct (wake_ok cur r w (sc e) t) as (s1 & E2 & Hd1); [by apply scheduled_lock|done|].
  erewrite bind_step; [|erewrite bind_step; [|apply on_wl_ok, get_next_ok, (circle_next _ _ _ Hci)];
    cbn [hd]; erewrite bind_step; [|apply on_wl_ok; exact E1];
    erewrite bind_step; [|apply deref_some; exact Hx]; apply on_sc_ok; exact E2].
  erewrite bind_step; [|apply spin_unlock_ok; exact Hs1]. eexists. split; [reflexivity|]. split; [by apply scheduled_lock|].
  split; [apply lookup_insert_eq| |eauto]. cbn [wl].
  destruct (h' !! 0) as [v|] eqn:E0; [|done]. destruct Hch as [_ Hdm]. destruct (proj1 (Hdm 0)) as [v' Hv']; [eauto|congruence].
Qed.

Lemma preempt_ok cur r c w s : scheduled ths cur r w (sc s) -> represents sem cap c w s -> cur ∉ w ->
  exists s' n, preempt irqs s = Ok (tt, s') /\ n ∈ {[cur]} ∪ r /\ scheduled ths n (({[cur]} ∪ r) ∖ {[n]}) w (sc s') /\ represents sem cap c w s'.
Proof.
  intros Hd Hr Hcw. unfold preempt.
  assert (on_sc (gets current_thread) s = Ok (cur, s)) as Ecur by (unfold on_sc, zoom; simpl; rewrite (sd_cur _ _ _ _ _ Hd); by destruct s).
  rewrite (bind_step _ _ _ _ _ Ecur).
  destruct (leave_ok irqs cur r w (sc s) THREAD_READY Hd Hcw ltac:(by right)) as (s1 & s2 & n & E1 & E2 & Hn & Hd2); [set_solver|].
  erewrite bind_step; [|apply on_sc_ok; exact E1]. erewrite on_sc_ok; [|exact E2]. eexists _, n. split; [reflexivity|].
  split; [done|]. split; [done|]. by destruct Hr.
Qed.

(** ** Every run is a run of the abstract semaphore *)

Fixpoint run_events (es : list sem_event) : M sem_state unit :=
  match es with
  | [] => mret tt
  | e :: es' => run_event e;; run_events es'
  end.

Inductive asem_steps : asem -> list sem_event -> asem -> Prop :=
| steps_nil a : asem_steps a [] a
| steps_cons a e a' es a'' : asem_step a e a' -> asem_steps a' es a'' -> asem_steps a (e :: es) a''.

Lemma event_refines s a e : sim ths sem cap s a -> asem_ok cap a -> enabled a e ->
  exists s' a', run_event e s = Ok (tt, s') /\ asem_step a e a' /\ sim ths sem cap s' a'.
Proof.
  intros [Hd Hr] [H1 H2 H3 H4 H5 H6] He. destruct a as [cur r c w h]. simpl in *. pose proof H4 as [Hcw Hnd]%NoDup_cons.
  destruct e; simpl in *.
  - destruct (decide (0 < c)) as [Hc|Hc].
    + destruct (acquire_free_ok cur r c w s Hd Hr) as (s' & E & Hd' & Hr'); [lia|]. exists s', (mk_asem cur r (c - 1) w (cur :: h)).
      split; [done|]. split; [by constructor|done].
    + assert (c = 0) as -> by lia. destruct (acquire_wait_ok cur r w s Hd Hr Hcw) as (s' & n & E & Hn & Hd' & Hr'); [by destruct He|].
      exists s', (mk_asem n (r ∖ {[n]}) 0 (w ++ [cur]) h). split; [done|]. split; [by constructor|done].
  - apply list_elem_of_split in He as (h1 & h2 & ->). destruct w as [|t w].
    + destruct (release_free_ok cur r c s Hd Hr) as (s' & E & Hd' & Hr'); [rewrite length_app in H1; simpl in H1; lia|].
      exists s', (mk_asem cur r (c + 1) [] (h1 ++ h2)). split; [done|]. split; [by constructor|done].
    + destruct (release_hand_ok cur r c t w s Hd Hr H4) as (s' & E & Hd' & Hr').
      exists s', (mk_asem cur ({[t]} ∪ r) c w (t :: h1 ++ h2)). split; [done|]. split; [by constructor|done].
  - destruct (preempt_ok cur r c w s Hd Hr Hcw) as (s' & n & E & Hn & Hd' & Hr').
    exists s', (mk_asem n (({[cur]} ∪ r) ∖ {[n]}) c w h). split; [done|]. split; [by constructor|done].
Qed.

(** C22: whatever the running threads do with a semaphore (acquire it, release
    a token they hold, lose the CPU), every step returns as long as a thread
    that has to wait leaves a ready one behind, and the run is one of the
    abstract semaphore: the holders and the tokens left always add up to the
    capacity, no token is left while a thread waits, a release hands its token
    to the thread that has waited longest, and a waiting thread does not run. *)
Theorem semaphore_refines (es : list sem_event) (s : sem_state) (a : asem) :
  sim ths sem cap s a -> asem_ok cap a ->
  exists ran s' a', ran `prefix_of` es /\ run_events ran s = Ok (tt, s') /\ asem_steps a ran a' /\
    sim ths sem cap s' a' /\ Z.of_nat (length (a_hold a')) + a_count a' = cap /\ (0 < a_count a' -> a_wait a' = []) /\
    (a_cur a' ∉ a_wait a') /\ forall e, es !! length ran = Some e -> ~ enabled a' e.
Proof.
  intros Hs Ha. revert s a Hs Ha. induction es as [|e es IH]; intros s a Hs Ha.
  { exists [], s, a. split; [done|]. pose proof (ao_nodup _ _ Ha) as Hnd. apply NoDup_cons in Hnd as [Hc _].
    split_and!; try done; [constructor|apply Ha|apply Ha]. }
  destruct (decide (enabled a e)) as [He|He].
  - destruct (event_refines s a e Hs Ha) as (s1 & a1 & E1 & Hst & Hs1); [done|].
    destruct (IH s1 a1 Hs1 (asem_step_ok _ _ _ _ Ha Hst)) as (dn & s' & a' & Hp & E & Hsts & Hrest).
    exists (e :: dn), s', a'. split; [by apply prefix_cons|]. split; [cbn [run_events]; by rewrite (bind_step _ _ _ _ _ E1)|].
    split; [by econstructor|]. exact Hrest.
  - exists [], s, a. pose proof (ao_nodup _ _ Ha) as Hnd. apply NoDup_cons in Hnd as [Hc _].
    split_and!; try done; [apply prefix_nil|constructor|apply Ha|apply Ha|]. by intros e' [= <-].
Qed.
End semaphore.

(** ** A mutex taken by one of the threads of the example machine *)

Definition example_fresh (s : sem_state) : Z := fresh ({[0]} ∪ dom (wl s)).

Lemma example_fresh_ok s : wl s !! example_fresh s = None /\ example_fresh s <> 0.
Proof.
  pose proof (is_fresh ({[0]} ∪ dom (wl s))) as Hf. fold (example_fresh s) in Hf. rewrite elem_of_union, elem_of_singleton in Hf.
  split; [apply not_elem_of_dom|]; naive_solver.
Qed.

Lemma example_mutex : exists c, scheduled 8 16 24 32 40 4 example_ths 1000 {[2000]} [] c.
Proof.
  destruct (update_thread_ok 8 16 24 32 40 4 4 example_ths _ example_sched 2000
    (example_thread THREAD_NEW 901 8192) THREAD_READY example_sched_ok) as (p1 & _ & Hok1 & Hp1); [simpl; lia|done|done|].
  eexists. split; [eexists; exact Hok1|done|done| | | |].
  - eexists. split; reflexivity.
  - intros th. rewrite elem_of_singleton. unfold in_state. split.
    + intros ->. eexists. split; reflexivity.
    + intros (t & Ht & Hs). simpl in Ht. rewrite !lookup_insert_Some in Ht. destruct Ht as [[<- _]|[_ Ht]]; [done|].
      by destruct Ht as [[_ <-]|[_ [[_ <-]|[_ [[_ <-]|[_ Ht]]]]]].
  - set_solver.
  - intros th t Ht. simpl in Ht. rewrite !lookup_insert_Some in Ht. destruct Ht as [[_ <-]|[_ Ht]]; [done|].
    by destruct Ht as [[_ <-]|[_ [[_ <-]|[_ [[_ <-]|[_ Ht]]]]]].
Qed.

Lemma semaphore_refines_witness : exists s s',
  acquire_semaphore 8 16 24 32 40 4 (mret tt) 4 example_fresh [] 500 s = Ok (tt, s') /\ current_thread (sc s) = 1000 /\
  sems s' !! 500 = Some (mk_semaphore 0 0 1).
Proof.
  destruct example_mutex as (c & Hc).
  pose (s := mk_sem_state c {[512 := mk_list_head 512 512]} ∅ {[500 := mk_semaphore 0 1 1]}).
  pose (a := mk_asem 1000 {[2000]} 1 [] []).
  destruct (semaphore_refines 8 16 24 32 40 4 (mret tt) 4 example_fresh example_ths ltac:(simpl; lia) [] 500 1 ltac:(lia) example_fresh_ok
    [Acquire] s a) as (ran & s' & a' & Hp & E & Hst & Hs & _ & _ & _ & Hen).
  - split; [exact Hc|]. split; [reflexivity|reflexivity|]. exists []. split; [|constructor]. split; [apply NoDup_singleton|split; reflexivity].
  - split; simpl; try lia; try done; [apply NoDup_singleton|set_solver..].
  - exists s, s'. destruct ran as [|e ran].
    + exfalso. inversion Hst; subst a'. apply (Hen Acquire); [reflexivity|]. left. simpl. lia.
    + destruct Hp as [k Hk]. injection Hk as <- Hk. symmetry in Hk. apply app_eq_nil in Hk as [-> ->].
      cbn [run_events] in E. apply bind_ok in E as ([] & s1 & E & [= ->]). split; [exact E|].
      split; [apply (sd_cur _ _ _ _ _ _ _ _ _ _ _ Hc)|]. inversion Hst as [|? ? a1 ? ? Hst1 Hst2]; subst. inversion Hst2; subst.
      inversion Hst1; subst; exact (rp_sem _ _ _ _ _ (proj2 Hs)).
Defined.
