(* ===== verification/Timer.v ===== *)
(** * Timers

    [system/timer.c]: the list of armed timers, on the intrusive lists of
    [Dlist]. [mod_timer] arms a timer or moves it, and the tick handler runs
    the function of every timer that has expired. The functions are
    parameters; they may disarm or postpone the timer they run for. *)
From Stdlib Require Import ZArith Lia Bool List.
From stdpp Require Import base list gmap option fin_maps sets.
From S2P Require Import Prelude Dlist.

Open Scope Z_scope.

#[local] Arguments circle : simpl never.

Definition TIMER_MAGIC : Z := 0x4b87ad6e.

(** [struct timer_list] without its [sibling] node and its unused lock. *)
Record timer := mk_timer { tm_expires : Z; tm_function : Z; tm_magic : Z }.

(** The nodes, the timers by address, and what their functions act on. *)
Record timers (W : Type) := mk_timers { nodes : lheap; tms : gmap Z timer; world : W }.
Arguments mk_timers {W}.
Arguments nodes {W}.
Arguments tms {W}.
Arguments world {W}.

(** [offsetof(struct timer_list, sibling)]. *)
Definition timer_sibling (t : Z) : Z := t + 12.
Definition of_sibling (n : Z) : Z := n - 12.

(** ** Lists of timers *)

Definition expires_of (m : gmap Z timer) (t : Z) : Z := default 0 (tm_expires <$> m !! t).

(** Where [add_timer] puts a timer: behind the last entry of the first ones
    that do not expire later, but at the tail when it expires before all. *)
Fixpoint earlier (m : gmap Z timer) (e : Z) (L : list Z) : nat :=
  match L with
  | [] => O
  | u :: L' => if e <? expires_of m u then O else S (earlier m e L')
  end.
Definition inserted (m : gmap Z timer) (e t : Z) (L : list Z) : list Z :=
  let k := earlier m e L in
  if decide (k = O) then L ++ [t] else take k L ++ t :: drop k L.

#[local] Instance timer_sibling_inj : Inj eq eq timer_sibling.
Proof. intros x y. unfold timer_sibling. lia. Qed.

Lemma of_sibling_ok t : of_sibling (timer_sibling t) = t.
Proof. unfold of_sibling, timer_sibling. lia. Qed.

Lemma list_del_unlinked H e : H !! e = Some (mk_list_head 0 0) -> list_del e H = Ok (tt, H).
Proof.
  intros He. unfold list_del, __list_del_entry, __list_del_entry_valid, get_next, get_prev, set_next, set_prev, nx, pv, upn, upp, LIST_POISON1, LIST_POISON2.
  unfold mbind, M_bind, deref. rewrite He. simpl. rewrite He. simpl.
  rewrite (alter_id (fun n => mk_list_head 0 (lh_prev n))) by (intros x Hx; congruence || (rewrite He in Hx; by injection Hx as <-)).
  rewrite He. rewrite alter_id; [done|]. intros x Hx. rewrite He in Hx. by injection Hx as <-.
Qed.

Definition disarmed (t : Z) (L : list Z) : list Z := filter (fun u => u <> t) L.

Lemma disarmed_out t L : t ∉ L -> disarmed t L = L.
Proof.
  unfold disarmed. induction L as [|u L IH]; intros Hn; [done|]. rewrite filter_cons_True by set_solver. f_equal. apply IH. set_solver.
Qed.

Lemma disarmed_split t l1 l2 : t ∉ l1 -> t ∉ l2 -> disarmed t (l1 ++ t :: l2) = l1 ++ l2.
Proof.
  intros H1 H2. unfold disarmed. rewrite filter_app, filter_cons_False by (intros Hn; by apply Hn).
  fold (disarmed t l1) (disarmed t l2). by rewrite !disarmed_out.
Qed.

Lemma expires_of_Some m t x : m !! t = Some x -> expires_of m t = tm_expires x.
Proof. intros E. unfold expires_of. by rewrite E. Qed.

Lemma earlier_le m e L : (earlier m e L <= length L)%nat.
Proof. induction L as [|u L IH]; simpl; [lia|]. destruct (_ <? _); simpl; lia. Qed.

Lemma length_disarmed t L : (length (disarmed t L) <= length L)%nat.
Proof. apply length_filter. Qed.

Definition expired (m : gmap Z timer) (cms t : Z) : Prop := expires_of m t <= cms.
#[export] Instance expired_dec m cms t : Decision (expired m cms t).
Proof. unfold expired. apply _. Defined.

Lemma filter_expired_ext m m' cms (L : list Z) : (forall u, u ∈ L -> expires_of m' u = expires_of m u) ->
  filter (expired m' cms) L = filter (expired m cms) L.
Proof.
  intros E. induction L as [|u L IH]; [done|]. rewrite !filter_cons, IH by (intros; apply E; by right).
  specialize (E u ltac:(left)). destruct (decide (expired m' cms u)), (decide (expired m cms u)); unfold expired in *; first [done|lia].
Qed.

Lemma disarmed_length t L : NoDup L -> (length L <= S (length (disarmed t L)))%nat.
Proof.
  intros Hnd. destruct (decide (t ∈ L)) as [Hin|Hn]; [|rewrite disarmed_out by done; lia].
  apply list_elem_of_split in Hin as (l1 & l2 & ->). apply NoDup_app in Hnd as (_ & Hd & Hnd). apply NoDup_cons in Hnd as [Hn2 _].
  rewrite disarmed_split, !length_app; [simpl; lia| |done]. intros Hin. by apply (Hd t Hin); left.
Qed.

Lemma elem_disarmed t u L : u ∈ disarmed t L <-> u <> t /\ u ∈ L.
Proof. unfold disarmed. by rewrite list_elem_of_filter. Qed.

Lemma filter_disarmed m cms t L : (t ∈ L -> ~ expired m cms t) -> filter (expired m cms) (disarmed t L) = filter (expired m cms) L.
Proof.
  unfold disarmed. induction L as [|u L IH]; intros Ht; [done|]. destruct (decide (u = t)) as [->|Hne].
  - rewrite (filter_cons_False _ t L), (filter_cons_False (expired m cms)); [apply IH; set_solver|apply Ht; left|by intros Hn; apply Hn].
  - rewrite (filter_cons_True (fun v => v <> t)), !(filter_cons (expired m cms)), IH by set_solver. done.
Qed.

(** A list that agrees with [l1 ++ y :: l3] but for [t], cut before [y]. *)
Lemma disarmed_cut t y l1 l3 L : NoDup (l1 ++ y :: l3) -> y <> t -> disarmed t L = l1 ++ y :: l3 ->
  exists A B, L = A ++ y :: B /\ disarmed t A = l1 /\ disarmed t B = l3.
Proof.
  intros Hnd Hy E. assert (y ∈ L) as Hin by (apply (elem_disarmed t); rewrite E; set_solver).
  apply list_elem_of_split in Hin as (A & B & ->). exists A, B. split; [done|].
  unfold disarmed in E. rewrite filter_app, filter_cons_True in E by done.
  apply NoDup_app in Hnd as (_ & Hd & [Hn3 _]%NoDup_cons). fold (disarmed t A) (disarmed t B) in E.
  assert (y ∉ l1) as Hn1 by (intros Hin; apply (Hd y Hin); left). clear Hd Hy. revert l1 Hn1 E.
  induction (disarmed t A) as [|a A' IH]; intros [|b l1] Hn1 E; simpl in E; simplify_eq/=.
  - done.
  - set_solver.
  - set_solver.
  - destruct (IH l1) as [-> ->]; [set_solver|done|done].
Qed.

Lemma disarmed_inserted m e t L : t ∉ L -> disarmed t (inserted m e t L) = L.
Proof.
  intros Hn. unfold inserted. set (k := earlier m e L). destruct (decide (k = O)).
  - rewrite disarmed_split; [by rewrite app_nil_r|done|set_solver].
  - rewrite disarmed_split; [apply take_drop| |]; intros Hin; apply Hn; rewrite <- (take_drop k L); apply elem_of_app; auto.
Qed.

Section timer.
Context {W : Type} (list_of_timer : Z) (fuel : nat).

Definition on_nodes {A} : M lheap A -> M (timers W) A := zoom nodes (fun h s => mk_timers h (tms s) (world s)).
Definition get_timer (t : Z) : M (timers W) timer := deref (fun s => tms s !! t).

(** The source raises the debug exception, [int $0x01]; its handler panics by raising it again,
    so the call does not return, as after a failed assertion. *)
Definition assert_timer_valid (t : Z) : M (timers W) unit :=
  x ← get_timer t; massert (tm_magic x =? TIMER_MAGIC).

Definition is_actived_timer (t : Z) : M (timers W) bool :=
  p ← on_nodes (get_prev (timer_sibling t));
  n ← on_nodes (get_next (timer_sibling t));
  mret (negb (p =? LIST_POISON1) && negb (n =? LIST_POISON2)).

(** The loop of [add_timer] from the entry at [pos]: the last entry that does not expire later. *)
Fixpoint add_scan (n : nat) (expires pos node : Z) : M (timers W) Z :=
  match n with
  | O => mfail Fuel
  | S n' =>
      if pos =? list_of_timer then mret node
      else
        let iter := of_sibling pos in
        assert_timer_valid iter;;
        x ← get_timer iter;
        if expires <? tm_expires x then mret node
        else next ← on_nodes (get_next pos); add_scan n' expires next iter
  end.

Definition add_timer (t : Z) : M (timers W) unit :=
  first ← on_nodes (get_next list_of_timer);
  x ← get_timer t;
  node ← add_scan fuel (tm_expires x) first 0;
  if negb (node =? 0) then on_nodes (list_add (timer_sibling t) (timer_sibling node))
  else on_nodes (list_add_tail (timer_sibling t) list_of_timer).

Definition del_timer (t : Z) : M (timers W) unit := on_nodes (list_del (timer_sibling t)).

Definition set_expires (t e : Z) : M (timers W) unit :=
  x ← get_timer t;
  modify (fun s => mk_timers (nodes s) (<[t := mk_timer e (tm_function x) (tm_magic x)]> (tms s)) (world s)).

Definition mod_timer (t expires : Z) : M (timers W) unit :=
  del_timer t;; set_expires t expires;; add_timer t.

Definition timer_init : M (timers W) unit := on_nodes (INIT_LIST_HEAD list_of_timer).

(** ** The list of armed timers *)

(** [L] is armed, in this order; the other timers are unlinked. *)
Record armed (L : list Z) (s : timers W) : Prop := {
  ar_ring : circle (nodes s) (list_of_timer :: (timer_sibling <$> L));
  ar_null : nodes s !! 0 = None;
  ar_timer : forall t x, tms s !! t = Some x -> tm_magic x = TIMER_MAGIC /\ t <> 0;
  ar_in : forall t, t ∈ L -> is_Some (tms s !! t);
  ar_out : forall t, is_Some (tms s !! t) -> t ∉ L -> nodes s !! timer_sibling t = Some (mk_list_head 0 0);
  ar_head : forall t, is_Some (tms s !! t) -> timer_sibling t <> list_of_timer }.

(** ** Arming and disarming *)

Lemma armed_NoDup L s : armed L s -> NoDup L.
Proof. intros [Hc _ _ _ _ _]. apply circle_NoDup, NoDup_cons in Hc as [_ Hc]. by apply NoDup_fmap_1 in Hc. Qed.

Lemma armed_away L s t : armed L s -> is_Some (tms s !! t) -> t ∉ L -> timer_sibling t ∉ list_of_timer :: (timer_sibling <$> L).
Proof.
  intros Ha Ht Hn. rewrite elem_of_cons. intros [E|(u & E & Hu)%list_elem_of_fmap]; [by apply (ar_head _ _ Ha t)|].
  by apply (inj timer_sibling) in E as ->.
Qed.

(** The new ring, after a change to nodes of the old one and to that of [t]. *)
Lemma armed_change L L' s h t m X w : armed L s -> circle h (list_of_timer :: (timer_sibling <$> L')) -> changes X (nodes s) h ->
  X ⊆ timer_sibling t :: list_of_timer :: (timer_sibling <$> L) -> is_Some (tms s !! t) ->
  (forall u, u <> t -> u ∈ L' <-> u ∈ L) -> (t ∉ L' -> h !! timer_sibling t = Some (mk_list_head 0 0)) ->
  (forall u, is_Some (m !! u) <-> is_Some (tms s !! u)) -> (forall u x, m !! u = Some x -> tm_magic x = TIMER_MAGIC) ->
  armed L' (mk_timers h m w).
Proof.
  intros Ha Hc Hch HX Ht HL Hout Hm Hmag. split; cbn [nodes tms]; [done| | | | |].
  - destruct (h !! 0) eqn:E; [|done]. destruct (proj1 (proj2 Hch 0)) as [v Hv]; [eauto|]. by rewrite (ar_null _ _ Ha) in Hv.
  - intros u x Hu. split; [by eapply Hmag|]. destruct (proj1 (Hm u)) as [x' Hx']; [eauto|]. by apply (ar_timer _ _ Ha u x').
  - intros u Hu. apply Hm. destruct (decide (u = t)) as [->|Hne]; [done|]. apply (ar_in _ _ Ha). by apply HL.
  - intros u Hu Hn. destruct (decide (u = t)) as [->|Hne]; [by apply Hout|]. apply Hm in Hu.
    assert (u ∉ L) as HuL by (by rewrite <- HL). rewrite (proj1 Hch); [by apply (ar_out _ _ Ha)|].
    intros Hin. apply HX in Hin. apply elem_of_cons in Hin as [E%(inj timer_sibling)|Hin]; [done|]. by apply (armed_away L s u).
  - intros u Hu. apply (ar_head _ _ Ha). by apply Hm.
Qed.

Lemma on_nodes_ok {A} (m : M lheap A) s a h : m (nodes s) = Ok (a, h) -> on_nodes m s = Ok (a, mk_timers h (tms s) (world s)).
Proof. intros E. unfold on_nodes, zoom. by rewrite E. Qed.

Lemma on_nodes_same {A} (m : M lheap A) s a : m (nodes s) = Ok (a, nodes s) -> on_nodes m s = Ok (a, s).
Proof. intros E. rewrite (on_nodes_ok _ _ _ _ E). by destruct s. Qed.

Lemma del_timer_ok L s t : armed L s -> is_Some (tms s !! t) ->
  exists h, del_timer t s = Ok (tt, mk_timers h (tms s) (world s)) /\ armed (disarmed t L) (mk_timers h (tms s) (world s)).
Proof.
  intros Ha Ht. unfold del_timer. destruct (decide (t ∈ L)) as [Hin|Hn].
  - apply list_elem_of_split in Hin as (l1 & l2 & ->). pose proof (armed_NoDup _ _ Ha) as Hnd.
    apply NoDup_app in Hnd as (_ & Hd & Hnd). apply NoDup_cons in Hnd as [Hn2 _].
    assert (t ∉ l1) as Hn1 by (intros Hin; by apply (Hd t Hin); left). rewrite disarmed_split by done.
    pose proof (ar_ring _ _ Ha) as Hc. rewrite fmap_app, fmap_cons in Hc.
    destruct (list_del_ok (nodes s) (timer_sibling t) ((timer_sibling <$> l2) ++ list_of_timer :: (timer_sibling <$> l1)) (ar_null _ _ Ha)
      (circle_at _ _ _ _ _ Hc)) as (h & E & Hc' & Hch & Hp).
    exists h. split; [by apply on_nodes_ok|]. eapply (armed_change (l1 ++ t :: l2)); [done| |done| |done| |done|done|].
    + rewrite fmap_app. by apply circle_from in Hc'.
    + rewrite fmap_app, fmap_cons. set_solver.
    + intros u Hu. rewrite !elem_of_app, elem_of_cons. naive_solver.
    + intros u x Hx. by apply (ar_timer _ _ Ha u).
  - rewrite (disarmed_out t L Hn). exists (nodes s). split; [apply on_nodes_ok, list_del_unlinked, Ha; done|]. by destruct s.
Qed.

Lemma get_timer_ok s t x : tms s !! t = Some x -> get_timer t s = Ok (x, s).
Proof. intros Hx. unfold get_timer. by rewrite (deref_some (fun s => tms s !! t) s x Hx). Qed.

Lemma timer_valid_ok L s t x : armed L s -> tms s !! t = Some x -> assert_timer_valid t s = Ok (tt, s).
Proof.
  intros Ha Hx. unfold assert_timer_valid. rewrite (bind_step _ _ _ _ _ (get_timer_ok _ _ _ Hx)).
  apply massert_true, Z.eqb_eq. by apply (ar_timer _ _ Ha t).
Qed.

(** The entry behind [l1] of the ring. *)
Lemma armed_next l1 t l2 s : armed (l1 ++ t :: l2) s ->
  get_next (timer_sibling t) (nodes s) = Ok (hd list_of_timer (timer_sibling <$> l2), nodes s) /\ timer_sibling t <> list_of_timer.
Proof.
  intros Ha. pose proof (ar_ring _ _ Ha) as Hc. rewrite fmap_app, fmap_cons in Hc. split.
  - rewrite (get_next_ok _ _ _ (circle_next _ _ _ (circle_at _ _ _ _ _ Hc))). by destruct l2.
  - apply (ar_head _ _ Ha), (ar_in _ _ Ha). set_solver.
Qed.

Lemma armed_first L s : armed L s -> get_next list_of_timer (nodes s) = Ok (hd list_of_timer (timer_sibling <$> L), nodes s).
Proof. intros Ha. apply get_next_ok, (circle_next _ _ _ (ar_ring _ _ Ha)). Qed.

Lemma add_scan_ok e s : forall l2 l1 n node, armed (l1 ++ l2) s -> (length l2 < n)%nat ->
  add_scan n e (hd list_of_timer (timer_sibling <$> l2)) node s = Ok (List.last (take (earlier (tms s) e l2) l2) node, s).
Proof.
  induction l2 as [|t l2 IH]; intros l1 n node Ha Hn; (destruct n as [|n]; [simpl in Hn; lia|]); cbn [add_scan fmap list_fmap hd earlier].
  - by rewrite Z.eqb_refl.
  - destruct (armed_next _ _ _ _ Ha) as [En Hne]. rewrite (proj2 (Z.eqb_neq _ _) Hne), of_sibling_ok.
    destruct (ar_in _ _ Ha t) as [x Hx]; [set_solver|]. rewrite (bind_step _ _ _ _ _ (timer_valid_ok _ _ _ _ Ha Hx)).
    rewrite (bind_step _ _ _ _ _ (get_timer_ok _ _ _ Hx)), (expires_of_Some _ _ _ Hx). destruct (e <? tm_expires x); [done|].
    rewrite (bind_step _ _ _ _ _ (on_nodes_same _ _ _ En)). rewrite (IH (l1 ++ [t])); [|by rewrite <- app_assoc|simpl in Hn; lia].
    cbn [take]. by rewrite last_shift.
Qed.

Lemma add_timer_ok L s t x : armed L s -> tms s !! t = Some x -> t ∉ L -> (length L < fuel)%nat ->
  exists h, add_timer t s = Ok (tt, mk_timers h (tms s) (world s)) /\
    armed (inserted (tms s) (tm_expires x) t L) (mk_timers h (tms s) (world s)).
Proof.
  intros Ha Hx Hn Hf. unfold add_timer. rewrite (bind_step _ _ _ _ _ (on_nodes_same _ _ _ (armed_first _ _ Ha))).
  rewrite (bind_step _ _ _ _ _ (get_timer_ok _ _ _ Hx)). rewrite (bind_step _ _ _ _ _ (add_scan_ok (tm_expires x) s L [] fuel 0 Ha Hf)).
  unfold inserted. pose proof (earlier_le (tms s) (tm_expires x) L) as Hle. set (k := earlier _ _ _) in *.
  pose proof (armed_away L s t Ha ltac:(eauto) Hn) as Haw.
  assert (is_Some (nodes s !! timer_sibling t)) as Hst by (rewrite (ar_out _ _ Ha t) by eauto; eauto).
  assert (forall u y, tms s !! u = Some y -> tm_magic y = TIMER_MAGIC) as Hmag by (intros u y Hu; by apply (ar_timer _ _ Ha u)).
  destruct (decide (k = O)) as [->|Hk].
  - cbn [take List.last Z.eqb negb]. destruct (list_add_tail_ok (nodes s) (timer_sibling t) list_of_timer (timer_sibling <$> L)) as (h & E & Hc & Hch);
      [apply Ha|done|done|]. exists h. split; [by apply on_nodes_ok|].
    eapply (armed_change L (L ++ [t]) s h t); [done|by rewrite fmap_app|done|done|eauto| | |done|done].
    + intros u Hu. set_solver.
    + intros Hnin. set_solver.
  - destruct (take k L) as [|z l1 _] eqn:Etk using rev_ind; [apply (f_equal length) in Etk; rewrite length_take in Etk; simpl in Etk; lia|].
    rewrite List.last_last. assert (L = l1 ++ z :: drop k L) as EL by (rewrite <- (take_drop k L) at 1; by rewrite Etk, <- app_assoc).
    set (l2 := drop k L) in *. clearbody l2. subst L.
    assert (z <> 0) as Hz by (destruct (ar_in _ _ Ha z) as [y Hy]; [set_solver|]; by apply (ar_timer _ _ Ha z y)).
    rewrite (proj2 (Z.eqb_neq z 0) Hz). cbn [negb]. pose proof (ar_ring _ _ Ha) as Hc. rewrite fmap_app, fmap_cons in Hc, Haw. apply circle_at in Hc.
    destruct (list_add_ok (nodes s) (timer_sibling t) (timer_sibling z) ((timer_sibling <$> l2) ++ list_of_timer :: (timer_sibling <$> l1)) Hc) as (h & E & Hc' & Hch);
      [set_solver|done|]. exists h. split; [by apply on_nodes_ok|].
    eapply (armed_change (l1 ++ z :: l2) ((l1 ++ [z]) ++ t :: l2) s h t); [done| |done| |eauto| | |done|done].
    + rewrite !fmap_app, fmap_cons. cbn [fmap list_fmap]. rewrite <- app_assoc. cbn [app].
      apply (circle_from h list_of_timer (timer_sibling <$> l1) (timer_sibling z :: timer_sibling t :: (timer_sibling <$> l2))). exact Hc'.
    + rewrite fmap_app, fmap_cons. set_solver.
    + intros u Hu. set_solver.
    + intros Hnin. set_solver.
Qed.

Lemma armed_expires L s t x e : armed L s -> tms s !! t = Some x ->
  armed L (mk_timers (nodes s) (<[t := mk_timer e (tm_function x) (tm_magic x)]> (tms s)) (world s)).
Proof.
  intros Ha Hx. assert (forall u, is_Some (<[t := mk_timer e (tm_function x) (tm_magic x)]> (tms s) !! u) <-> is_Some (tms s !! u)) as Hd.
  { intros u. destruct (decide (u = t)) as [->|Hne]; [rewrite lookup_insert_eq, Hx; split; eauto|by rewrite lookup_insert_ne]. }
  split; cbn [nodes tms]; try apply Ha.
  - intros u y [[<- <-]|[_ Hu]]%lookup_insert_Some; [by apply (ar_timer _ _ Ha t x)|by apply (ar_timer _ _ Ha u y)].
  - intros u Hu. by apply Hd, (ar_in _ _ Ha).
  - intros u Hu. by apply (ar_out _ _ Ha), Hd.
  - intros u Hu. by apply (ar_head _ _ Ha), Hd.
Qed.

Lemma mod_timer_ok L s t x e : armed L s -> tms s !! t = Some x -> (length L < fuel)%nat ->
  let m := <[t := mk_timer e (tm_function x) (tm_magic x)]> (tms s) in
  exists h, mod_timer t e s = Ok (tt, mk_timers h m (world s)) /\ armed (inserted m e t (disarmed t L)) (mk_timers h m (world s)).
Proof.
  intros Ha Hx Hf m. unfold mod_timer. destruct (del_timer_ok L s t Ha) as (h1 & E1 & Ha1); [eauto|]. rewrite (bind_step _ _ _ _ _ E1).
  unfold set_expires. erewrite bind_step; [|erewrite bind_step; [|apply get_timer_ok; exact Hx]; reflexivity].
  pose proof (armed_expires _ _ t x e Ha1 Hx) as Ha2. cbn [nodes tms world] in *. fold m in Ha2 |- *.
  destruct (add_timer_ok (disarmed t L) (mk_timers h1 m (world s)) t (mk_timer e (tm_function x) (tm_magic x)) Ha2) as (h2 & E2 & Ha3).
  - apply lookup_insert_eq.
  - intros Hin. apply list_elem_of_filter in Hin as [? _]. done.
  - pose proof (length_disarmed t L). lia.
  - exists h2. done.
Qed.

End timer.

(** ** The tick *)

Section tick.
Context {W : Type} (list_of_timer : Z) (fuel : nat).
(** The function at an address, run for a timer. *)
Context (call : Z -> Z -> M (timers W) unit).
#[local] Abbreviation armed := (armed list_of_timer (W:=W)).

(** [list_for_each_entry_safe]: [next] is read before the function runs. *)
Fixpoint handler_loop (n : nat) (cms iter next : Z) : M (timers W) unit :=
  match n with
  | O => mfail Fuel
  | S n' =>
      if iter =? list_of_timer then mret tt
      else
        let t := of_sibling iter in
        assert_timer_valid t;;
        x ← get_timer t;
        mwhen (tm_expires x <=? cms) (call (tm_function x) t);;
        next' ← on_nodes (get_next next);
        handler_loop n' cms next next'
  end.

(** [cms] is the time of the tick, in milliseconds. *)
Definition timer_schedule_handler (cms : Z) : M (timers W) unit :=
  first ← on_nodes (get_next list_of_timer);
  next ← on_nodes (get_next first);
  handler_loop fuel cms first next.

(** What a timer function does at time [cms]: it may disarm or postpone its
    own timer, leaves the other timers alone, and acts on the rest by [eff]. *)
Definition well_behaved (cms : Z) (eff : Z -> W -> W) : Prop := forall L s t x,
  armed L s -> t ∈ L -> tms s !! t = Some x -> tm_expires x <= cms -> (length L < fuel)%nat ->
  exists s' L', call (tm_function x) t s = Ok (tt, s') /\ armed L' s' /\ disarmed t L' = disarmed t L /\
    (t ∈ L' -> cms < expires_of (tms s') t) /\ (forall u, u <> t -> tms s' !! u = tms s !! u) /\ world s' = eff t (world s).

(** One round of the tick: what is left of the list to visit. *)
Lemma handler_body cms eff l1 t l2 s x : well_behaved cms eff -> armed (l1 ++ t :: l2) s -> (length (l1 ++ t :: l2) < fuel)%nat ->
  (forall u, u ∈ l1 -> ~ expired (tms s) cms u) -> tms s !! t = Some x ->
  exists s1 A B, mwhen (tm_expires x <=? cms) (call (tm_function x) t) s = Ok (tt, s1) /\ armed (A ++ B) s1 /\
    hd list_of_timer (timer_sibling <$> B) = hd list_of_timer (timer_sibling <$> l2) /\
    (length B + length (filter (expired (tms s1) cms) B) < length (t :: l2) + length (filter (expired (tms s) cms) (t :: l2)))%nat /\
    (length (A ++ B) <= length (l1 ++ t :: l2))%nat /\ (forall u, u ∈ A -> ~ expired (tms s1) cms u) /\
    foldl (fun w u => eff u w) (world s1) (filter (expired (tms s1) cms) B) = foldl (fun w u => eff u w) (world s) (filter (expired (tms s) cms) (t :: l2)) /\
    forall u, u ∈ l1 ++ t :: l2 -> ~ expired (tms s) cms u -> u ∈ A ++ B /\ ~ expired (tms s1) cms u.
Proof.
  intros Hcall Ha Hf Hl1 Hx. pose proof (expires_of_Some _ _ _ Hx) as Ex. destruct (Z.leb_spec (tm_expires x) cms) as [Hexp|Hexp]; cbn [mwhen].
  2:{ exists s, (l1 ++ [t]), l2. rewrite <- app_assoc. rewrite filter_cons_False by (unfold expired; lia). simpl length.
      split_and!; [done|done|done|lia|done| |done|done]. intros u [Hu|Hu]%elem_of_app; [by apply Hl1|].
      apply list_elem_of_singleton in Hu as ->. unfold expired. lia. }
  pose proof (armed_NoDup _ _ _ Ha) as Hnd. assert (Hnt : (t ∉ l1 ++ l2) /\ NoDup (l1 ++ l2)).
  { rewrite NoDup_app, NoDup_cons in Hnd. rewrite NoDup_app. set_solver. }
  destruct Hnt as [Hnt Hnd2]. destruct (Hcall (l1 ++ t :: l2) s t x Ha) as (s1 & L1 & E & Ha1 & Hd & Hpost & Hoth & Hw); [set_solver|done|done|done|].
  rewrite disarmed_split in Hd by set_solver. exists s1.
  assert (forall u, u ∈ L1 -> u = t \/ u ∈ l1 ++ l2) as Hin1.
  { intros u Hu. destruct (decide (u = t)); [by left|right]. rewrite <- Hd. by apply elem_disarmed. }
  assert (forall u, u <> t -> expires_of (tms s1) u = expires_of (tms s) u) as Hexps by (intros u Hu; unfold expires_of; by rewrite Hoth).
  assert (forall u, u ∈ L1 -> u ∉ l2 -> ~ expired (tms s1) cms u) as Hnexp.
  { intros u Hu Hu2. unfold expired. destruct (decide (u = t)) as [->|Hne]; [specialize (Hpost Hu); lia|].
    rewrite Hexps by done. apply Hl1. destruct (Hin1 u Hu) as [?|[?|?]%elem_of_app]; done. }
  assert (forall u, u ∈ l1 ++ t :: l2 -> ~ expired (tms s) cms u -> u ∈ L1 /\ ~ expired (tms s1) cms u) as Hkeep.
  { intros u Hu He. assert (u <> t) as Hne by (intros ->; apply He; unfold expired; lia). unfold expired in *. rewrite Hexps by done.
    split; [|done]. apply (elem_disarmed t). rewrite Hd. set_solver. }
  assert (length L1 <= length (l1 ++ t :: l2))%nat as Hlen.
  { pose proof (disarmed_length t L1 (armed_NoDup _ _ _ Ha1)) as Hl. rewrite Hd in Hl. rewrite !length_app in *. simpl. lia. }
  rewrite (filter_cons_True _ t l2) by (unfold expired; lia). cbn [foldl length]. rewrite <- Hw. destruct l2 as [|y l3].
  - exists L1, []. rewrite app_nil_r. split_and!; [done|done|done|simpl; lia|done| |done|done]. intros u Hu. apply Hnexp; [done|set_solver].
  - destruct (disarmed_cut t y l1 l3 L1) as (A & B & -> & HA & HB); [done|set_solver|done|]. exists A, (y :: B).
    pose proof (armed_NoDup _ _ _ Ha1) as Hnd1. assert (filter (expired (tms s1) cms) (y :: B) = filter (expired (tms s) cms) (y :: l3)) as Hfil.
    { rewrite <- (filter_expired_ext (tms s) (tms s1) cms (y :: l3)) by (intros u Hu; apply Hexps; set_solver).
      rewrite <- HB. assert (y <> t) by set_solver. replace (y :: disarmed t B) with (disarmed t (y :: B)) by (unfold disarmed; by rewrite filter_cons_True).
      symmetry. apply filter_disarmed. intros Hin. apply Hnexp; set_solver. }
    rewrite Hfil. assert (length B <= S (length l3))%nat as HlB.
    { rewrite <- HB. apply disarmed_length. apply NoDup_app in Hnd1 as (_ & _ & [_ ?]%NoDup_cons). done. }
    split_and!; [done|done|done|simpl length in *; lia|done| |done|done].
    intros u Hu. apply Hnexp; [set_solver|]. intros Hu2. rewrite <- HB in Hu2. apply NoDup_app in Hnd1 as (_ & Hdj & _).
    apply (Hdj u Hu). apply elem_of_cons in Hu2 as [->|Hu2]; [left|right]. by apply elem_disarmed in Hu2 as [_ Hu2].
Qed.

Lemma handler_loop_ok cms eff : well_behaved cms eff -> forall n l2 l1 s nxt,
  armed (l1 ++ l2) s -> (length l2 + length (filter (expired (tms s) cms) l2) < n)%nat -> (length (l1 ++ l2) < fuel)%nat ->
  (forall t, t ∈ l1 -> ~ expired (tms s) cms t) -> (forall t l3, l2 = t :: l3 -> nxt = hd list_of_timer (timer_sibling <$> l3)) ->
  exists s' L', handler_loop n cms (hd list_of_timer (timer_sibling <$> l2)) nxt s = Ok (tt, s') /\ armed L' s' /\
    world s' = foldl (fun w t => eff t w) (world s) (filter (expired (tms s) cms) l2) /\
    (forall t, t ∈ L' -> ~ expired (tms s') cms t) /\ (forall t, t ∈ l1 ++ l2 -> ~ expired (tms s) cms t -> t ∈ L').
Proof.
  intros Hcall n. induction n as [|n IH]; intros l2 l1 s nxt Ha Hn Hf Hl1 Hnxt; [lia|]. cbn [handler_loop]. destruct l2 as [|t l2].
  { cbn [fmap list_fmap hd]. rewrite Z.eqb_refl. exists s, l1. rewrite app_nil_r in *. done. }
  rewrite (Hnxt t l2 eq_refl) in *. cbn [fmap list_fmap hd]. destruct (armed_next _ _ _ _ _ Ha) as [_ Hne].
  rewrite (proj2 (Z.eqb_neq _ _) Hne), of_sibling_ok. destruct (ar_in _ _ _ Ha t) as [x Hx]; [set_solver|].
  rewrite (bind_step _ _ _ _ _ (timer_valid_ok _ _ _ _ _ Ha Hx)), (bind_step _ _ _ _ _ (get_timer_ok _ _ _ Hx)).
  destruct (handler_body cms eff l1 t l2 s x Hcall Ha Hf Hl1 Hx) as (s1 & A & B & E & Ha1 & Eh & Hm & Hlen & HA & Hfold & Hkeep).
  rewrite (bind_step _ _ _ _ _ E). change (list_fmap Z Z timer_sibling l2) with (timer_sibling <$> l2). rewrite <- Eh.
  assert (exists nxt', get_next (hd list_of_timer (timer_sibling <$> B)) (nodes s1) = Ok (nxt', nodes s1) /\
    forall t l3, B = t :: l3 -> nxt' = hd list_of_timer (timer_sibling <$> l3)) as (nxt' & En & Hnxt').
  { destruct B as [|y B]; cbn [fmap list_fmap hd]; [exists (hd list_of_timer (timer_sibling <$> (A ++ []))); split; [by apply (armed_first list_of_timer)|done]|].
    destruct (armed_next _ _ _ _ _ Ha1) as [E1 _]. eexists. split; [exact E1|]. by intros u l3 [= <- <-]. }
  rewrite (bind_step _ _ _ _ _ (on_nodes_same _ _ _ En)).
  destruct (IH B A s1 nxt' Ha1) as (s' & L' & E' & Ha' & Hw & Hexp & Hin); [lia|lia|done|done|].
  exists s', L'. split; [done|]. split; [done|]. split; [by rewrite Hw|]. split; [done|].
  intros u Hu He. destruct (Hkeep u Hu He) as [H1 H2]. by apply Hin.
Qed.

(** C23: a tick at time [cms] returns and runs the function of every armed timer
    that has expired, once and in list order, when those functions only disarm
    or postpone their own timer; afterwards no armed timer has expired, and the
    timers that had not expired are still armed. *)
Theorem timer_tick_correct (cms : Z) (eff : Z -> W -> W) (L : list Z) (s : timers W) :
  well_behaved cms eff -> armed L s -> (2 * length L < fuel)%nat ->
  exists s' L', timer_schedule_handler cms s = Ok (tt, s') /\ armed L' s' /\
    world s' = foldl (fun w t => eff t w) (world s) (filter (expired (tms s) cms) L) /\
    (forall t, t ∈ L' -> ~ expired (tms s') cms t) /\ (forall t, t ∈ L -> ~ expired (tms s) cms t -> t ∈ L').
Proof.
  intros Hcall Ha Hf. unfold timer_schedule_handler. rewrite (bind_step _ _ _ _ _ (on_nodes_same _ _ _ (armed_first _ _ _ Ha))).
  assert (exists nxt, get_next (hd list_of_timer (timer_sibling <$> L)) (nodes s) = Ok (nxt, nodes s) /\
    forall t l3, L = t :: l3 -> nxt = hd list_of_timer (timer_sibling <$> l3)) as (nxt & En & Hnxt).
  { destruct L as [|y B]; cbn [fmap list_fmap hd]; [exists list_of_timer; split; [by apply (armed_first list_of_timer [])|done]|].
    destruct (armed_next _ [] _ _ _ Ha) as [E1 _]. eexists. split; [exact E1|]. by intros u l3 [= <- <-]. }
  rewrite (bind_step _ _ _ _ _ (on_nodes_same _ _ _ En)). pose proof (length_filter (expired (tms s) cms) L).
  apply (handler_loop_ok cms eff Hcall fuel L [] s nxt); [done|lia|simpl; lia|set_solver|done].
Qed.

(** [mod_timer] arms a timer, or moves one that is armed, and nothing
    else: it then expires at the new time and stands behind the first entries
    that expire no later, except that a timer earlier than all others goes to
    the tail. *)
Theorem mod_timer_correct (L : list Z) (s : timers W) (t : Z) (x : timer) (e : Z) :
  armed L s -> tms s !! t = Some x -> (length L < fuel)%nat ->
  exists s', mod_timer list_of_timer fuel t e s = Ok (tt, s') /\ world s' = world s /\
    tms s' = <[t := mk_timer e (tm_function x) (tm_magic x)]> (tms s) /\
    armed (inserted (tms s') e t (disarmed t L)) s'.
Proof.
  intros Ha Hx Hf. destruct (mod_timer_ok list_of_timer fuel L s t x e Ha Hx Hf) as (h & E & Ha'). eexists. split; [exact E|]. done.
Qed.
End tick.

(** ** Two kinds of timer functions: one shot, and periodic *)

Definition example_call (f t : Z) : M (timers (list Z)) unit :=
  modify (fun s => mk_timers (nodes s) (tms s) (world s ++ [t]));;
  if f =? 1 then del_timer t else mod_timer 8 10 t 5000.

Lemma example_well_behaved : well_behaved 8 10 example_call 100 (fun t w => w ++ [t]).
Proof.
  intros L s t x Ha Hin Hx Hexp Hf. set (s1 := mk_timers (nodes s) (tms s) (world s ++ [t])).
  assert (armed 8 L s1) as Ha1 by (destruct Ha; by split). unfold example_call. rewrite (bind_step _ _ s tt s1) by done.
  assert (disarmed t (disarmed t L) = disarmed t L) as Hdd by (apply disarmed_out; intros [? _]%elem_disarmed; done).
  destruct (tm_function x =? 1).
  - destruct (del_timer_ok 8 L s1 t Ha1) as (h & E & Ha2); [eauto|]. eexists _, _. split; [exact E|]. split; [exact Ha2|].
    split; [done|]. split; [intros [? _]%elem_disarmed; done|]. done.
  - destruct (mod_timer_ok 8 10 L s1 t x 5000 Ha1 Hx Hf) as (h & E & Ha2). eexists _, _. split; [exact E|]. split; [exact Ha2|].
    split; [rewrite disarmed_inserted; [done|]; intros [? _]%elem_disarmed; done|]. cbn [tms].
    split; [intros _; unfold expires_of; rewrite lookup_insert_eq; simpl; lia|]. split; [|done]. intros u Hu. by rewrite lookup_insert_ne.
Qed.

(** Timers at 100, 200 and 300, due at 50, 500 and 80; the last one is periodic. *)
Definition example_timers : timers (list Z) :=
  mk_timers (list_to_map [(8, mk_list_head 112 312); (112, mk_list_head 212 8); (212, mk_list_head 312 112); (312, mk_list_head 8 212)])
    (list_to_map [(100, mk_timer 50 1 TIMER_MAGIC); (200, mk_timer 500 1 TIMER_MAGIC); (300, mk_timer 80 2 TIMER_MAGIC)]) [].

Lemma example_armed : armed 8 [100; 200; 300] example_timers.
Proof.
  split; cbn [nodes tms example_timers].
  - split; [|cbn [fmap list_fmap chain]; repeat split; by vm_compute]. apply (bool_decide_unpack _). by vm_compute.
  - done.
  - intros t x Hx. apply elem_of_list_to_map_2 in Hx. set_unfold in Hx. destruct_or?; by simplify_eq.
  - intros t Ht. set_unfold in Ht. destruct_or?; subst; by vm_compute; eauto.
  - intros t [x Hx] Hn. apply elem_of_list_to_map_2 in Hx. exfalso. apply Hn. set_unfold in Hx. destruct_or?; simplify_eq; set_solver.
  - intros t [x Hx]. apply elem_of_list_to_map_2 in Hx. set_unfold in Hx. destruct_or?; simplify_eq; by vm_compute.
Qed.

Lemma timer_tick_correct_witness : exists s', timer_schedule_handler 8 10 example_call 100 example_timers = Ok (tt, s') /\ world s' = [100; 300].
Proof.
  destruct (timer_tick_correct 8 10 example_call 100 (fun t w => w ++ [t]) [100; 200; 300] example_timers) as (s' & L' & E & _ & Hw & _).
  - exact example_well_behaved.
  - exact example_armed.
  - simpl. lia.
  - exists s'. split; [exact E|]. rewrite Hw. vm_compute. reflexivity.
Defined.

(** Postponed to 20, the timer at 200 expires first and is yet put last. *)
Lemma mod_timer_correct_witness : exists s', mod_timer 8 10 200 20 example_timers = Ok (tt, s') /\ armed 8 [100; 300; 200] s'.
Proof.
  destruct (mod_timer_correct 8 10 [100; 200; 300] example_timers 200 (mk_timer 500 1 TIMER_MAGIC) 20) as (s' & E & _ & Et & Ha).
  - exact example_armed.
  - reflexivity.
  - simpl. lia.
  - exists s'. split; [exact E|]. rewrite Et in Ha. exact Ha.
Defined.
