(* ===== verification/Mmap.v ===== *)
(** * Memory areas of a process

    [memory/mmap.c]: the list of areas ([vm_area_struct]) of the current
    process, the search for a free range, and [do_mmap], [do_munmap] and
    [do_brk], which map the pages of an area through the page tables of [Vmm]
    with frames of [Pmm]. *)
From Stdlib Require Import ZArith Lia Bool List.
From stdpp Require Import base list gmap option fin_maps sets sorting.
From S2P Require Import Prelude Bitmap Pmm Mem Vmm Dlist.

Open Scope Z_scope.

#[local] Arguments circle : simpl never.

(** [struct vm_area_struct] without its list node; [vm_mm] is always the
    current process's and [vm_flags] is never set. *)
Record area := mk_area { vm_start : Z; vm_end : Z; vm_file : Z }.

(** Page tables and frames, the nodes of the area list, the areas by address,
    and the fields of [struct mm_struct] the file uses. *)
Record mm := mk_mm {
  mvm : vm;
  mnodes : lheap;
  areas : gmap Z area;
  free_area_cache : Z;
  brk : Z;
  end_brk : Z }.

Definition on_mvm {A} : M vm A -> M mm A :=
  zoom mvm (fun v s => mk_mm v (mnodes s) (areas s) (free_area_cache s) (brk s) (end_brk s)).
Definition on_mnodes {A} : M lheap A -> M mm A :=
  zoom mnodes (fun h s => mk_mm (mvm s) h (areas s) (free_area_cache s) (brk s) (end_brk s)).
Definition get_area (v : Z) : M mm area := deref (fun s => areas s !! v).
Definition put_area (v : Z) (a : area) : M mm unit :=
  modify (fun s => mk_mm (mvm s) (mnodes s) (<[v := a]> (areas s)) (free_area_cache s) (brk s) (end_brk s)).
Definition set_cache (c : Z) : M mm unit :=
  modify (fun s => mk_mm (mvm s) (mnodes s) (areas s) c (brk s) (end_brk s)).
Definition set_brk (b : Z) : M mm unit :=
  modify (fun s => mk_mm (mvm s) (mnodes s) (areas s) (free_area_cache s) b (end_brk s)).
Definition set_end (v e : Z) : M mm unit :=
  a ← get_area v; put_area v (mk_area (vm_start a) e (vm_file a)).

(** [offsetof(struct vm_area_struct, vm_sibling)]. *)
Definition vm_sibling (v : Z) : Z := v + 16.
Definition of_vm_sibling (n : Z) : Z := n - 16.

Section mmap.
(** The head [mm->mmap] and the directory of the current process; where
    [kcalloc] finds room for an area; the open files and their [mmap]. *)
Context (mmap pdir : Z) (fresh_area : mm -> Z) (fd_file : Z -> Z) (file_mmap : Z -> Z -> M mm unit) (fuel : nat).

(** [kcalloc] of an area. The heap it allocates from is apart from this state ([Malloc]);
    that the address it returns is not in use is a hypothesis of the theorems. *)
Definition kcalloc_area : M mm Z := fun s =>
  let v := fresh_area s in
  Ok (v, mk_mm (mvm s) (<[vm_sibling v := mk_list_head 0 0]> (mnodes s)) (<[v := mk_area 0 0 0]> (areas s))
           (free_area_cache s) (brk s) (end_brk s)).
Definition kfree_area (v : Z) : M mm unit := fun s =>
  Ok (tt, mk_mm (mvm s) (delete (vm_sibling v) (mnodes s)) (delete v (areas s)) (free_area_cache s) (brk s) (end_brk s)).
(** [memcpy(dst, src, sizeof(struct vm_area_struct))], list node included. *)
Definition copy_area (dst src : Z) : M mm unit :=
  a ← get_area src; n ← deref (fun s => mnodes s !! vm_sibling src);
  put_area dst a;; on_mnodes (fun h => Ok (tt, <[vm_sibling dst := n]> h)).

(** The loop of [get_unmapped_area] from the entry at [pos]; the address found. *)
Fixpoint area_scan (n : nat) (vma addr len pos : Z) : M mm Z :=
  match n with
  | O => mfail Fuel
  | S n' =>
      if pos =? mmap then mret addr
      else
        let iter := of_vm_sibling pos in
        a ← get_area iter;
        is_last_entry ← on_mnodes (list_is_last pos mmap);
        next_pos ← on_mnodes (get_next pos);
        next_start ← (if is_last_entry : bool then mret 0 else b ← get_area (of_vm_sibling next_pos); mret (vm_start b));
        if u32 (addr + len) <=? vm_start a then on_mnodes (list_add pos mmap);; mret addr
        else if (vm_end a <=? addr) && (is_last_entry || (u32 (addr + len) <=? next_start)) then
          on_mnodes (list_add (vm_sibling vma) pos);; mret addr
        else if negb is_last_entry && (vm_end a <=? addr) && (addr <? next_start) && (len <=? u32 (next_start - vm_end a)) then
          on_mnodes (list_add (vm_sibling vma) pos);; mret (u32 (next_start - len))
        else area_scan n' vma addr len next_pos
  end.

Definition get_unmapped_area (addr len : Z) : M mm Z :=
  vma ← kcalloc_area;
  s ← gets id;
  let addr := if (addr =? 0) || (addr <? end_brk s) then Z.max (free_area_cache s) (end_brk s) else addr in
  massert (addr =? PAGE_ALIGN addr);;
  let len := PAGE_ALIGN len in
  e ← on_mnodes (list_empty mmap);
  found ← (if e : bool then on_mnodes (list_add (vm_sibling vma) mmap);; mret addr
           else first ← on_mnodes (get_next mmap); area_scan fuel vma addr len first);
  (if negb (found =? 0) then
     a ← get_area vma; put_area vma (mk_area found (u32 (found + len)) (vm_file a));; set_cache (u32 (found + len))
   else mret tt);;
  mret vma.

Fixpoint find_scan (n : nat) (addr pos : Z) : M mm Z :=
  match n with
  | O => mfail Fuel
  | S n' =>
      if pos =? mmap then mret 0
      else
        a ← get_area (of_vm_sibling pos);
        if (vm_start a <=? addr) && (addr <? vm_end a) then mret (of_vm_sibling pos)
        else next ← on_mnodes (get_next pos); find_scan n' addr next
  end.
Definition find_vma (addr : Z) : M mm Z := first ← on_mnodes (get_next mmap); find_scan fuel addr first.

Definition expand_area (vma address : Z) (fixed : bool) : M mm unit :=
  let address := PAGE_ALIGN address in
  a ← get_area vma;
  if address <=? vm_end a then mret tt
  else
    l ← on_mnodes (list_is_last (vm_sibling vma) mmap);
    if l : bool then set_end vma address
    else
      next ← on_mnodes (get_next (vm_sibling vma));
      b ← get_area (of_vm_sibling next);
      if address <=? vm_start b then set_end vma address
      else
        massert (negb fixed);;
        on_mnodes (list_del (vm_sibling vma));;
        vma_expand ← get_unmapped_area 0 (u32 (address - vm_start a));
        copy_area vma vma_expand;;
        kfree_area vma_expand.

Definition do_munmap (addr len : Z) : M mm Z :=
  vma ← find_vma addr;
  if vma =? 0 then mret 0
  else
    a ← get_area vma;
    if vm_start a <? addr then mret 0
    else
      (if PAGE_ALIGN len <=? u32 (vm_end a - vm_start a) then set_end vma addr
       else on_mnodes (list_del (vm_sibling vma)));;
      mret 0.

Definition user_flags : Z := Z.lor (Z.lor I86_PTE_PRESENT I86_PTE_WRITABLE) I86_PTE_USER.

(** The pages of an anonymous area, with [n] rounds at most. *)
Fixpoint map_pages (vaddr limit : Z) (n : nat) : M vm unit :=
  if vaddr <? limit then
    match n with
    | O => mfail Fuel
    | S n' =>
        paddr ← on_pmm pmm_alloc_block;
        vmm_map_address pdir vaddr paddr user_flags;;
        map_pages (u32 (vaddr + PMM_FRAME_SIZE)) limit n'
    end
  else mret tt.

Definition page_fuel : nat := Z.to_nat (2 ^ 20).

Definition do_mmap (addr len fd : Z) : M mm Z :=
  let file := if 0 <=? fd then fd_file fd else 0 in
  let aligned_addr := ALIGN_DOWN addr PMM_FRAME_SIZE in
  vma ← find_vma aligned_addr;
  vma ← (if vma =? 0 then get_unmapped_area aligned_addr len
         else
           a ← get_area vma;
           (if vm_end a <? u32 (addr + len) then expand_area vma (u32 (addr + len)) true else mret tt);;
           mret vma);
  (if negb (file =? 0) then
     file_mmap file vma;;
     a ← get_area vma; put_area vma (mk_area (vm_start a) (vm_end a) file)
   else
     a ← get_area vma;
     on_mvm (map_pages (vm_start a) (vm_end a) page_fuel));;
  a ← get_area vma;
  mret (if addr =? 0 then vm_start a else addr).

(** Consecutive pages to consecutive frames. *)
Fixpoint map_run (vaddr limit paddr : Z) (n : nat) : M vm unit :=
  if vaddr <? limit then
    match n with
    | O => mfail Fuel
    | S n' =>
        vmm_map_address pdir vaddr paddr user_flags;;
        map_run (u32 (vaddr + PMM_FRAME_SIZE)) limit (u32 (paddr + PMM_FRAME_SIZE)) n'
    end
  else mret tt.

(** [mm->brk] is [new_brk] by the time the two are compared. *)
Definition do_brk (addr len : Z) : M mm Z :=
  vma ← find_vma addr;
  let new_brk := PAGE_ALIGN (u32 (addr + len)) in
  set_brk new_brk;;
  if vma =? 0 then mret 0
  else
    a ← get_area vma;
    if new_brk <=? vm_end a then mret 0
    else
      new_vma ← kcalloc_area;
      copy_area new_vma vma;;
      b ← gets brk;
      (if b <? new_brk then expand_area new_vma new_brk true else set_end new_vma new_brk);;
      a ← get_area vma;
      na ← get_area new_vma;
      (if negb (vm_file a =? 0) then file_mmap (vm_file a) new_vma
       else if vm_end a <? vm_end na then
         paddr ← on_mvm (on_pmm (pmm_alloc_blocks ((vm_end na - vm_end a) / PMM_FRAME_SIZE)));
         on_mvm (map_run (vm_end a) (vm_end na) paddr page_fuel)
       else if vm_end na <? vm_end a then on_mvm (unmap_loop pdir (vm_end na) (vm_end a) page_fuel)
       else mret tt);;
      copy_area vma new_vma;;
      mret 0.
End mmap.

(** ** Frames for the pages *)

(** [k] more frames can be allocated. *)
Definition frames_left (p : pmm) (k : nat) : Prop :=
  used_frames p + Z.of_nat k <= max_frames p /\
  exists l, NoDup l /\ length l = k /\ forall f, f ∈ l -> 0 <= f < scanned p /\ frame_used p f = false.

Lemma frames_left_le p k j : frames_left p k -> (j <= k)%nat -> frames_left p j.
Proof.
  intros [Hu (l & Hnd & Hl & Hf)] Hj. split; [lia|]. exists (take j l). split_and!.
  - rewrite <- (take_drop j l) in Hnd. by apply NoDup_app in Hnd as [? _].
  - rewrite length_take. lia.
  - intros f Hin. apply Hf. rewrite <- (take_drop j l). set_solver.
Qed.

Lemma alloc_left p k : pmm_wf p -> frames_left p (S k) ->
  exists r p', pmm_alloc_block p = Ok (r, p') /\ r <> 0 /\ pmm_wf p' /\ alloc_result p p' r /\ frames_left p' k.
Proof.
  intros Hwf [Hu (l & Hnd & Hl & Hf)]. destruct (pmm_alloc_block_ok p Hwf) as (r & p' & E & Hwf' & Ha). exists r, p'.
  destruct l as [|x l]; [done|]. pose proof Ha as Ha'.
  destruct Ha as [_ Hex|f Hf0 Hfree Hlow Hroom Hs Hbm].
  { exfalso. destruct Hex as [?|Hex]; [lia|]. destruct (Hf x) as [? Hx]; [left|]. rewrite Hex in Hx by lia. done. }
  split; [done|]. split; [unfold PMM_FRAME_SIZE; lia|]. split; [done|]. split; [done|].
  assert (max_frames p' = max_frames p /\ used_frames p' = used_frames p + 1 /\ scanned p' = scanned p) as (Em & Eu & Es)
    by (rewrite Hs; unfold scanned; done).
  split; [lia|]. exists (take k (filter (fun g => g <> f) (x :: l))). split_and!.
  - assert (NoDup (filter (fun g => g <> f) (x :: l))) as Hn by (by apply NoDup_filter).
    rewrite <- (take_drop k (filter _ _)) in Hn. by apply NoDup_app in Hn as [? _].
  - rewrite length_take. enough (length (x :: l) <= S (length (filter (fun g => g <> f) (x :: l))))%nat by lia.
    clear -Hnd. induction Hnd as [|y l' Hy Hnd IH]; [simpl; lia|]. rewrite filter_cons. destruct (decide (y <> f)) as [Hne|He]; [simpl; lia|].
    assert (filter (fun g => g <> f) l' = l') as ->; [|simpl; lia]. apply dec_stable in He as ->. clear -Hy.
    induction l' as [|z l' IH]; [done|]. rewrite filter_cons_True by set_solver. f_equal. apply IH. set_solver.
  - intros g Hg. assert (g ∈ filter (fun g => g <> f) (x :: l)) as Hg' by (rewrite <- (take_drop k (filter _ _)); set_solver).
    apply list_elem_of_filter in Hg' as [Hne Hin]. destruct (Hf g Hin) as [Hr Hfr]. rewrite Es. split; [done|].
    unfold frame_used in *. rewrite (bb_used _ _ _ Hbm) by lia. rewrite (proj2 (Z.eqb_neq g f) Hne). done.
Qed.

(** ** Mapping the pages of an area *)

Section map_pages.
Context (d : Z).

(** The pages from [va] on show the frames [fs], all free before; the rest is as it was. *)
Record maps_fresh (va : Z) (fs : list Z) (s s' : vm) : Prop := {
  mf_paging : paging d s';
  mf_walk : forall x, is_u32 x -> x < PAGE_TABLE_BASE ->
    page_walk s' x = if in_range va (4096 * Z.of_nat (length fs)) x then fs !! Z.to_nat ((x - va) / 4096) else page_walk s x;
  mf_nodup : NoDup fs;
  mf_free : forall f, f ∈ fs -> page_aligned f /\ frame_used (frames s) (f / 4096) = false /\ frame_used (frames s') (f / 4096) = true;
  mf_used : forall f, 0 <= f -> frame_used (frames s) f = true -> frame_used (frames s') f = true }.

Lemma map_address_left s virt paddr k : paging d s -> mappable d virt -> page_aligned paddr -> frames_left (frames s) (S k) ->
  exists s', vmm_map_address d virt paddr user_flags s = Ok (tt, s') /\ paging d s' /\ frames_left (frames s') k /\
    (forall f, 0 <= f -> frame_used (frames s) f = true -> frame_used (frames s') f = true) /\
    forall va, is_u32 va -> va < PAGE_TABLE_BASE -> page_walk s' va = if va / 4096 =? virt / 4096 then Some paddr else page_walk s va.
Proof.
  intros Hpg Hm Hp Hl. assert (flags_ok user_flags) as Hfl by (split; [by vm_compute|done]).
  destruct (is_page_enabled (pde s (virt / 2 ^ 22))) eqn:Hen.
  - destruct (map_address_present d s virt paddr user_flags Hpg Hm Hp Hfl Hen) as (s' & E & Hpg' & Hfr & _ & _ & Hw).
    exists s'. rewrite Hfr. split_and!; [done|done|eapply frames_left_le; [done|lia]|done|]. intros va Hva _. by apply Hw.
  - destruct (alloc_left _ k (pg_pmm d s Hpg) Hl) as (r & p' & Ea & Hr & _ & Har & Hl').
    destruct (map_address_absent d s virt paddr user_flags r p' Hpg Hm Hp Hfl Hen Ea Hr) as (s' & E & Hpg' & Hfr & _ & _ & Hw).
    exists s'. rewrite Hfr. split_and!; [done|done|done| |done]. intros f Hf Hu. by eapply alloc_keeps.
Qed.

Lemma maps_fresh_cons va r fs s s1 s2 : 0 <= va -> va mod 4096 = 0 -> page_aligned r -> frame_used (frames s) (r / 4096) = false ->
  frame_used (frames s1) (r / 4096) = true -> (forall f, 0 <= f -> frame_used (frames s) f = true -> frame_used (frames s1) f = true) ->
  (forall x, is_u32 x -> x < PAGE_TABLE_BASE -> page_walk s1 x = if x / 4096 =? va / 4096 then Some r else page_walk s x) ->
  maps_fresh (va + 4096) fs s1 s2 -> maps_fresh va (r :: fs) s s2.
Proof.
  intros Hva Hmod Hr Hfree Hnow Hkeep Hw [P W N F U]. split; [done| | | |].
  - intros x Hx Hlt. rewrite W by done. rewrite Hw by done. simpl length. rewrite Nat2Z.inj_succ.
    destruct (in_range (va + 4096) (4096 * Z.of_nat (length fs)) x) eqn:E1.
    + apply in_range_spec in E1. rewrite (proj2 (in_range_spec _ _ _)) by lia.
      replace (Z.to_nat ((x - va) / 4096)) with (S (Z.to_nat ((x - (va + 4096)) / 4096)));[done|].
      replace (x - va) with (x - (va + 4096) + 1 * 4096) by lia. rewrite Z.div_add by lia.
      assert (0 <= (x - (va + 4096)) / 4096) by (apply Z.div_pos; lia). lia.
    + apply in_range_false in E1. destruct (Z.eqb_spec (x / 4096) (va / 4096)) as [Heq|Hne].
      * assert (va <= x < va + 4096) by (Z.to_euclidean_division_equations; lia).
        rewrite (proj2 (in_range_spec _ _ _)) by lia. rewrite Z.div_small by lia. done.
      * rewrite (proj2 (in_range_false _ _ _)); [done|]. intros Hin. apply Hne. Z.to_euclidean_division_equations. lia.
  - constructor; [|done]. intros Hin. destruct (F r Hin) as (_ & Hf & _). congruence.
  - intros f [->|Hin]%elem_of_cons.
    + split_and!; [done|done|]. apply U; [|done]. destruct Hr as [Hr _]. unfold is_u32 in Hr. apply Z.div_pos; lia.
    + destruct (F f Hin) as (Hfa & Hf & Hf'). split_and!; [done| |done]. destruct (frame_used (frames s) (f / 4096)) eqn:E; [|done].
      apply Hkeep in E; [congruence|]. destruct Hfa as [Hfa _]. unfold is_u32 in Hfa. apply Z.div_pos; lia.
  - intros f Hf Hu. apply U; [done|]. by apply Hkeep.
Qed.

Lemma map_pages_ok n : forall va s fuel, paging d s -> KERNEL_HIGHER_HALF <= d -> page_aligned va -> va + 4096 * Z.of_nat n <= KERNEL_HIGHER_HALF ->
  frames_left (frames s) (2 * n) -> (n <= fuel)%nat ->
  exists s' fs, map_pages d va (va + 4096 * Z.of_nat n) fuel s = Ok (tt, s') /\ length fs = n /\ maps_fresh va fs s s'.
Proof.
  unfold KERNEL_HIGHER_HALF. induction n as [|n IH]; intros va s fuel Hpg Hd Hva Hlim Hl Hf.
  { exists s, []. split; [destruct fuel; cbn [map_pages]; (destruct (Z.ltb_spec va (va + 4096 * Z.of_nat 0)); [lia|done])|]. split; [done|].
    split; [done| |constructor|set_solver|done]. intros x _ _. rewrite (proj2 (in_range_false _ _ _)); [done|]. simpl. lia. }
  destruct fuel as [|fuel]; [lia|]. cbn [map_pages]. destruct (Z.ltb_spec va (va + 4096 * Z.of_nat (S n))); [|lia].
  replace (2 * S n)%nat with (S (S (2 * n))) in Hl by lia. pose proof Hva as [Hvu Hv0]. unfold is_u32 in Hvu.
  destruct (alloc_left _ _ (pg_pmm d s Hpg) Hl) as (r & p1 & Ea & Hr & Hwf1 & Har & Hl1).
  rewrite (bind_step _ _ s r (with_frames p1 s)) by (unfold on_pmm, zoom; by rewrite Ea).
  assert (page_aligned r) as Hra by (eapply alloc_aligned; [apply Hpg|done]).
  destruct (map_address_left (with_frames p1 s) va r (2 * n)) as (s2 & E2 & Hpg2 & Hl2 & Hk2 & Hw2); [by eapply paging_alloc| |done|done|].
  { split; [done|]. unfold PAGE_TABLE_BASE. split; [lia|]. Z.to_euclidean_division_equations. lia. }
  rewrite (bind_step _ _ _ _ _ E2). unfold PMM_FRAME_SIZE. rewrite u32_small by (unfold is_u32; lia).
  destruct (IH (va + 4096) s2 fuel) as (s3 & fs & E3 & Hlen & Hm); [done|done| |lia|done|lia|].
  { split; [unfold is_u32; lia|]. Z.to_euclidean_division_equations. lia. }
  exists s3, (r :: fs). split; [rewrite <- E3; f_equal; lia|]. split; [simpl; lia|].
  assert (0 <= r / 4096) by (destruct Hra as [Hru _]; unfold is_u32 in Hru; apply Z.div_pos; lia).
  eapply (maps_fresh_cons va r fs s s2 s3); [lia|done|done|by eapply alloc_was_free| | |exact Hw2|exact Hm].
  - apply Hk2; [done|]. by eapply alloc_marks.
  - intros f Hf0 Hu. apply Hk2; [done|]. by eapply alloc_keeps.
Qed.
End map_pages.

(** ** The list of areas *)

#[local] Instance vm_sibling_inj : Inj eq eq vm_sibling.
Proof. intros x y. unfold vm_sibling. lia. Qed.

Lemma of_vm_sibling_ok v : of_vm_sibling (vm_sibling v) = v.
Proof. unfold of_vm_sibling, vm_sibling. lia. Qed.

Definition area_ok (a : area) : Prop := 0 <= vm_start a <= vm_end a /\ vm_end a < 2 ^ 32.
Definition before (a b : area) : Prop := vm_end a <= vm_start b.

Section areas.
Context (mmap : Z).

(** The list holds the areas [L], whose contents are [l], in order of address. *)
Record areas_ok (L : list Z) (l : list area) (s : mm) : Prop := {
  ao_ring : circle (mnodes s) (mmap :: (vm_sibling <$> L));
  ao_null : mnodes s !! 0 = None;
  ao_areas : Forall2 (fun v a => areas s !! v = Some a) L l;
  ao_nodes : forall v, v ∈ L -> vm_sibling v <> mmap /\ v <> 0;
  ao_ok : Forall area_ok l;
  ao_order : StronglySorted before l }.

Lemma on_mnodes_ok {A} (m : M lheap A) s a h : m (mnodes s) = Ok (a, h) ->
  on_mnodes m s = Ok (a, mk_mm (mvm s) h (areas s) (free_area_cache s) (brk s) (end_brk s)).
Proof. intros E. unfold on_mnodes, zoom. by rewrite E. Qed.

Lemma on_mnodes_same {A} (m : M lheap A) s a : m (mnodes s) = Ok (a, mnodes s) -> on_mnodes m s = Ok (a, s).
Proof. intros E. rewrite (on_mnodes_ok _ _ _ _ E). by destruct s. Qed.

Lemma get_area_ok s v a : areas s !! v = Some a -> get_area v s = Ok (a, s).
Proof. intros E. unfold get_area. by rewrite (deref_some (fun s => areas s !! v) s a E). Qed.

Lemma areas_first L l s : areas_ok L l s -> get_next mmap (mnodes s) = Ok (hd mmap (vm_sibling <$> L), mnodes s).
Proof. intros Ha. apply get_next_ok, (circle_next _ _ _ (ao_ring _ _ _ Ha)). Qed.

Lemma areas_next L1 v L2 l s : areas_ok (L1 ++ v :: L2) l s ->
  get_next (vm_sibling v) (mnodes s) = Ok (hd mmap (vm_sibling <$> L2), mnodes s) /\ vm_sibling v <> mmap.
Proof.
  intros Ha. pose proof (ao_ring _ _ _ Ha) as Hc. rewrite fmap_app, fmap_cons in Hc. split.
  - rewrite (get_next_ok _ _ _ (circle_next _ _ _ (circle_at _ _ _ _ _ Hc))). by destruct L2.
  - apply (ao_nodes _ _ _ Ha). set_solver.
Qed.

(** [list_is_last] at an area. *)
Lemma areas_last L1 v L2 l s : areas_ok (L1 ++ v :: L2) l s ->
  list_is_last (vm_sibling v) mmap (mnodes s) = Ok (bool_decide (L2 = []), mnodes s).
Proof.
  intros Ha. destruct (areas_next _ _ _ _ _ Ha) as [En _]. unfold list_is_last. rewrite (bind_step _ _ _ _ _ En).
  destruct L2 as [|w L2]; cbn [fmap list_fmap hd]; [by rewrite Z.eqb_refl|].
  rewrite (proj2 (Z.eqb_neq _ _)); [done|]. apply (ao_nodes _ _ _ Ha). set_solver.
Qed.

Lemma find_scan_none addr s : forall L2 l2 L1 l1 n, areas_ok (L1 ++ L2) (l1 ++ l2) s -> Forall2 (fun v a => areas s !! v = Some a) L2 l2 ->
  (length L2 < n)%nat -> (forall a, a ∈ l2 -> ~ (vm_start a <= addr < vm_end a)) ->
  find_scan mmap n addr (hd mmap (vm_sibling <$> L2)) s = Ok (0, s).
Proof.
  induction L2 as [|v L2 IH]; intros l2 L1 l1 n Ha H2 Hn Hno; (destruct n as [|n]; [simpl in Hn; lia|]); cbn [find_scan fmap list_fmap hd].
  - by rewrite Z.eqb_refl.
  - destruct (areas_next _ _ _ _ _ Ha) as [En Hne]. rewrite (proj2 (Z.eqb_neq _ _) Hne), of_vm_sibling_ok.
    apply Forall2_cons_inv_l in H2 as (a & l2' & Hv & H2 & ->). rewrite (bind_step _ _ _ _ _ (get_area_ok _ _ _ Hv)).
    replace ((vm_start a <=? addr) && (addr <? vm_end a)) with false by (specialize (Hno a ltac:(left)); lia).
    rewrite (bind_step _ _ _ _ _ (on_mnodes_same _ _ _ En)). apply (IH l2' (L1 ++ [v]) (l1 ++ [a])); [by rewrite <- !app_assoc|done|simpl in Hn; lia|].
    intros b Hb. apply Hno. by right.
Qed.

Lemma find_vma_none addr L l s fuel : areas_ok L l s -> (length L < fuel)%nat -> (forall a, a ∈ l -> ~ (vm_start a <= addr < vm_end a)) ->
  find_vma mmap fuel addr s = Ok (0, s).
Proof.
  intros Ha Hf Hno. unfold find_vma. rewrite (bind_step _ _ _ _ _ (on_mnodes_same _ _ _ (areas_first _ _ _ Ha))).
  by apply (find_scan_none addr s L l [] []); [|apply Ha|..].
Qed.

(** The ring with [v] linked behind the areas [L1]. *)
Lemma link_after L1 w L2 l s v : areas_ok (L1 ++ w :: L2) l s -> is_Some (mnodes s !! vm_sibling v) -> v ∉ L1 ++ w :: L2 -> vm_sibling v <> mmap ->
  exists h, list_add (vm_sibling v) (vm_sibling w) (mnodes s) = Ok (tt, h) /\ circle h (mmap :: (vm_sibling <$> (L1 ++ w :: v :: L2))) /\ h !! 0 = None.
Proof.
  intros Ha Hn Hv Hvm. pose proof (ao_ring _ _ _ Ha) as Hc. rewrite fmap_app, fmap_cons in Hc. apply circle_at in Hc.
  destruct (list_add_ok (mnodes s) (vm_sibling v) (vm_sibling w) ((vm_sibling <$> L2) ++ mmap :: (vm_sibling <$> L1)) Hc) as (h & E & Hc' & Hch); [|done|].
  { intros Hin. assert (vm_sibling v ∈ vm_sibling <$> (L1 ++ w :: L2)) as Hin' by (rewrite fmap_app, fmap_cons; set_solver).
    apply list_elem_of_fmap in Hin' as (u & E & Hu). apply (inj vm_sibling) in E as <-. done. }
  exists h. split; [done|]. split.
  - rewrite fmap_app. cbn [fmap list_fmap].
    apply (circle_from h mmap (vm_sibling <$> L1) (vm_sibling w :: vm_sibling v :: (vm_sibling <$> L2))). exact Hc'.
  - destruct (h !! 0) eqn:E0; [|done]. destruct (proj1 (proj2 Hch 0)) as [x Hx]; [eauto|]. by rewrite (ao_null _ _ _ Ha) in Hx.
Qed.

(** The start of the area after [pos], read only when there is one. *)
Lemma next_start_ok L2 l2 s : Forall2 (fun v a => areas s !! v = Some a) L2 l2 ->
  (if bool_decide (L2 = []) then mret 0 else b ← get_area (of_vm_sibling (hd mmap (vm_sibling <$> L2))); mret (vm_start b)) s =
  Ok (from_option vm_start 0 (head l2), s).
Proof.
  intros H2. destruct L2 as [|y L2]; [by apply Forall2_nil_inv_l in H2 as ->|]. apply Forall2_cons_inv_l in H2 as (b & l2' & Hy & _ & ->).
  rewrite bool_decide_eq_false_2 by done. cbn [fmap list_fmap hd]. by rewrite of_vm_sibling_ok, (bind_step _ _ _ _ _ (get_area_ok _ _ _ Hy)).
Qed.

Lemma area_scan_ok addr len v s : forall R lR L1 l1 w a L2 l2 n, areas_ok (L1 ++ R ++ w :: L2) (l1 ++ lR ++ a :: l2) s ->
  Forall2 (fun v a => areas s !! v = Some a) (R ++ w :: L2) (lR ++ a :: l2) -> length lR = length R ->
  is_Some (mnodes s !! vm_sibling v) -> v ∉ L1 ++ R ++ w :: L2 -> vm_sibling v <> mmap -> (length R < n)%nat ->
  0 < len -> addr + len < 2 ^ 32 -> (forall b, b ∈ lR ++ [a] -> area_ok b /\ vm_end b <= addr) -> (forall b, b ∈ l2 -> addr + len <= vm_start b) ->
  exists h, area_scan mmap n v addr len (hd mmap (vm_sibling <$> (R ++ w :: L2))) s =
      Ok (addr, mk_mm (mvm s) h (areas s) (free_area_cache s) (brk s) (end_brk s)) /\
    circle h (mmap :: (vm_sibling <$> (L1 ++ R ++ w :: v :: L2))) /\ h !! 0 = None.
Proof.
  induction R as [|x R IH]; intros lR L1 l1 w a L2 l2 n Ha H2 HlR Hn Hv Hvm Hf Hlen Hw Hb1 Hb2; (destruct n as [|n]; [simpl in Hf; lia|]);
    cbn [area_scan app fmap list_fmap hd].
  - apply nil_length_inv in HlR as ->. cbn [app] in *. destruct (areas_next _ _ _ _ _ Ha) as [En Hne]. pose proof (areas_last _ _ _ _ _ Ha) as El.
    rewrite (proj2 (Z.eqb_neq _ _) Hne), of_vm_sibling_ok. apply Forall2_cons_1 in H2 as [Hwa H2].
    rewrite (bind_step _ _ _ _ _ (get_area_ok _ _ _ Hwa)), (bind_step _ _ _ _ _ (on_mnodes_same _ _ _ El)), (bind_step _ _ _ _ _ (on_mnodes_same _ _ _ En)).
    destruct (Hb1 a ltac:(left)) as [[Ha1 Ha2] Hae]. rewrite (u32_small (addr + len)) by (unfold is_u32; lia).
    destruct (link_after _ _ _ _ _ _ Ha Hn Hv Hvm) as (h & Eh & Hc & H0).
    assert ((bool_decide (L2 = []) || (addr + len <=? from_option vm_start 0 (head l2))) = true) as Hns.
    { destruct L2 as [|y L2]; [done|]. apply Forall2_cons_inv_l in H2 as (b & l2' & _ & _ & ->). cbn. apply Z.leb_le, Hb2. left. }
    rewrite (bind_step _ _ _ _ _ (next_start_ok _ _ _ H2)). rewrite (proj2 (Z.leb_gt _ _)) by lia. rewrite (proj2 (Z.leb_le (vm_end a) addr) Hae), Hns. cbn [andb].
    exists h. split; [|done]. by rewrite (bind_step _ _ _ _ _ (on_mnodes_ok _ _ _ _ Eh)).
  - destruct lR as [|b lR]; [done|]. cbn [app] in *. destruct (areas_next _ _ _ _ _ Ha) as [En Hne]. pose proof (areas_last _ _ _ _ _ Ha) as El.
    rewrite (proj2 (Z.eqb_neq _ _) Hne), of_vm_sibling_ok. apply Forall2_cons_1 in H2 as [Hxb H2].
    rewrite (bind_step _ _ _ _ _ (get_area_ok _ _ _ Hxb)), (bind_step _ _ _ _ _ (on_mnodes_same _ _ _ El)), (bind_step _ _ _ _ _ (on_mnodes_same _ _ _ En)).
    rewrite bool_decide_eq_false_2 by (by destruct R). cbv iota.
    assert (exists y c, hd mmap (vm_sibling <$> (R ++ w :: L2)) = vm_sibling y /\ areas s !! y = Some c /\ c ∈ lR ++ [a]) as (y & c & Ey & Hy & Hcin).
    { destruct R as [|z R], lR as [|c lR]; try done; cbn [app] in H2; apply Forall2_cons_1 in H2 as [Hz _]; eexists _, _; (split; [done|]); (split; [done|]); set_solver. }
    rewrite Ey, of_vm_sibling_ok. erewrite bind_step; [|rewrite (bind_step _ _ _ _ _ (get_area_ok _ _ _ Hy)); reflexivity].
    destruct (Hb1 b ltac:(left)) as [[Hbo1 Hbo2] Hbe]. destruct (Hb1 c ltac:(set_solver)) as [[Hco1 Hco2] Hce].
    rewrite (u32_small (addr + len)) by (unfold is_u32; lia). rewrite (proj2 (Z.leb_gt (addr + len) (vm_start b))) by lia.
    rewrite (proj2 (Z.leb_gt (addr + len) (vm_start c))) by lia. rewrite (proj2 (Z.ltb_ge addr (vm_start c))) by lia.
    rewrite !andb_false_r. cbn [negb andb orb]. rewrite <- Ey.
    destruct (IH lR (L1 ++ [x]) (l1 ++ [b]) w a L2 l2 n) as (h & E & Hc & H0); try done.
    + by rewrite <- !app_assoc.
    + simpl in HlR. lia.
    + by rewrite <- app_assoc.
    + simpl in Hf. lia.
    + intros e He. apply Hb1. set_solver.
    + exists h. rewrite <- !app_assoc in Hc. done.
Qed.

Lemma sorted_insert (l1 l2 : list area) a : StronglySorted before (l1 ++ l2) -> (forall b, b ∈ l1 -> before b a) -> (forall b, b ∈ l2 -> before a b) ->
  StronglySorted before (l1 ++ a :: l2).
Proof.
  induction l1 as [|x l1 IH]; cbn [app]; intros Hs H1 H2.
  - constructor; [done|]. by apply list.Forall_forall.
  - apply StronglySorted_inv in Hs as [Hs Hx]. constructor; [apply IH; [done|set_solver|done]|].
    apply list.Forall_app in Hx as [Hx1 Hx2]. apply list.Forall_app. split; [done|]. constructor; [apply H1; left|done].
Qed.

Context (fresh_area : mm -> Z).
Context (Hfresh : forall s, areas s !! fresh_area s = None /\ mnodes s !! vm_sibling (fresh_area s) = None /\ fresh_area s <> 0 /\ vm_sibling (fresh_area s) <> 0).

(** The state once the area is allocated. *)
Definition with_fresh (s : mm) : mm :=
  mk_mm (mvm s) (<[vm_sibling (fresh_area s) := mk_list_head 0 0]> (mnodes s)) (<[fresh_area s := mk_area 0 0 0]> (areas s))
    (free_area_cache s) (brk s) (end_brk s).

Lemma fresh_ok L l s : areas_ok L l s -> areas_ok L l (with_fresh s) /\ (fresh_area s ∉ L) /\ vm_sibling (fresh_area s) <> mmap.
Proof.
  intros Ha. destruct (Hfresh s) as (H1 & H2 & H3 & H4). pose proof Ha as [Hc H0 Hl Hn Hok Hs].
  assert (fresh_area s ∉ L) as HnL.
  { intros Hin. apply list_elem_of_lookup in Hin as [i Hi]. destruct (Forall2_lookup_l _ _ _ _ _ Hl Hi) as (a & _ & E). congruence. }
  assert (vm_sibling (fresh_area s) <> mmap) as Hm by (intros E; destruct (circle_Some _ _ mmap Hc ltac:(left)) as [? ?]; congruence).
  split; [|done]. split; cbn; [|by rewrite lookup_insert_ne| |done|done|done].
  - apply (circle_frame (mnodes s)); [done|]. intros x Hx. rewrite lookup_insert_ne; [done|]. intros E. subst x.
    destruct (circle_Some _ _ _ Hc Hx) as [? ?]. congruence.
  - apply Forall2_same_length_lookup. split; [by eapply Forall2_length|]. intros i v a Hv Ha'.
    rewrite lookup_insert_ne; [by eapply (Forall2_lookup_lr _ _ _ _ _ _ Hl)|]. intros <-. apply HnL. by eapply list_elem_of_lookup_2.
Qed.

(** Linking the allocated area and filling it in. *)
Lemma areas_ok_link L1 L2 l1 l2 s h a c : areas_ok (L1 ++ L2) (l1 ++ l2) s -> length L1 = length l1 ->
  circle h (mmap :: (vm_sibling <$> (L1 ++ fresh_area s :: L2))) -> h !! 0 = None -> area_ok a ->
  (forall b, b ∈ l1 -> before b a) -> (forall b, b ∈ l2 -> before a b) ->
  areas_ok (L1 ++ fresh_area s :: L2) (l1 ++ a :: l2) (mk_mm (mvm s) h (<[fresh_area s := a]> (areas (with_fresh s))) c (brk s) (end_brk s)).
Proof.
  intros Ha Hl Hc H0 Hao Hb1 Hb2. destruct (fresh_ok _ _ _ Ha) as (_ & HnL & Hm). pose proof (ao_areas _ _ _ Ha) as H2.
  apply Forall2_app_inv in H2 as [Hf1 Hf2]; [|done].
  assert (forall L l, L ⊆ L1 ++ L2 -> Forall2 (fun v a => areas s !! v = Some a) L l ->
    Forall2 (fun v b => <[fresh_area s := a]> (areas (with_fresh s)) !! v = Some b) L l) as Hkeep.
  { intros L l Hsub H2. apply Forall2_same_length_lookup. split; [by eapply Forall2_length|]. intros i v b Hv Hb.
    assert (v <> fresh_area s) by (intros ->; apply HnL, Hsub; by eapply list_elem_of_lookup_2). cbn.
    rewrite !lookup_insert_ne by done. by eapply (Forall2_lookup_lr _ _ _ _ _ _ H2). }
  split; cbn [mnodes areas]; [done|done| | | |].
  - apply Forall2_app; [apply Hkeep; [set_solver|done]|]. constructor; [apply lookup_insert_eq|]. apply Hkeep; [set_solver|done].
  - intros v Hv. destruct (decide (v = fresh_area s)) as [->|Hne]; [split; [done|apply Hfresh]|]. apply (ao_nodes _ _ _ Ha). set_solver.
  - pose proof (ao_ok _ _ _ Ha) as Hok. apply list.Forall_app in Hok as [Hk1 Hk2]. apply list.Forall_app. split; [done|]. by constructor.
  - apply sorted_insert; [apply Ha|done|done].
Qed.

(** The range a request is served from. *)
Definition served (s : mm) (addr : Z) : Z := if (addr =? 0) || (addr <? end_brk s) then Z.max (free_area_cache s) (end_brk s) else addr.

(** [get_unmapped_area] around its search for the place of the new area. *)
Lemma get_unmapped_area_step addr len L l s r s1 fuel : areas_ok L l s -> let a0 := served s addr in let v := fresh_area s in let e := PAGE_ALIGN len in
  page_aligned a0 ->
  (if bool_decide ((vm_sibling <$> L) = []) then on_mnodes (list_add (vm_sibling v) mmap);; mret a0
   else first ← on_mnodes (get_next mmap); area_scan mmap fuel v a0 e first) (with_fresh s) = Ok (r, s1) ->
  r <> 0 -> areas s1 !! v = Some (mk_area 0 0 0) ->
  get_unmapped_area mmap fresh_area fuel addr len s =
    Ok (v, mk_mm (mvm s1) (mnodes s1) (<[v := mk_area r (u32 (r + e)) 0]> (areas s1)) (u32 (r + e)) (brk s1) (end_brk s1)).
Proof.
  intros Ha a0 v e Hal E Hr Hv. destruct (fresh_ok _ _ _ Ha) as (Ha' & _ & _).
  unfold get_unmapped_area. rewrite (bind_step _ _ s v (with_fresh s)) by done. rewrite (bind_step _ _ _ (with_fresh s) (with_fresh s)) by done.
  change (end_brk (with_fresh s)) with (end_brk s). change (free_area_cache (with_fresh s)) with (free_area_cache s). fold (served s addr). fold a0.
  rewrite (PAGE_ALIGN_aligned a0) by done. rewrite (bind_step _ _ _ _ _ (massert_true _ _ (Z.eqb_refl a0))).
  rewrite (bind_step _ _ _ _ _ (on_mnodes_same _ _ _ (list_empty_ok _ _ _ (ao_ring _ _ _ Ha')))). rewrite (bind_step _ _ _ _ _ E).
  rewrite (proj2 (Z.eqb_neq r 0)) by done. cbn [negb]. erewrite bind_step; [|rewrite (bind_step _ _ _ _ _ (get_area_ok _ _ _ Hv)); reflexivity]. done.
Qed.

Lemma get_unmapped_area_ok addr len n L1 L2 l1 l2 s fuel : areas_ok (L1 ++ L2) (l1 ++ l2) s -> length L1 = length l1 -> (length (L1 ++ L2) < fuel)%nat ->
  let a0 := served s addr in let v := fresh_area s in
  page_aligned a0 -> 0 < a0 -> PAGE_ALIGN len = 4096 * n -> 0 < n -> a0 + 4096 * n < 2 ^ 32 -> (L1 = [] -> L2 = []) ->
  (forall b, b ∈ l1 -> vm_end b <= a0) -> (forall b, b ∈ l2 -> a0 + 4096 * n <= vm_start b) ->
  exists h, let s' := mk_mm (mvm s) h (<[v := mk_area a0 (a0 + 4096 * n) 0]> (areas (with_fresh s))) (a0 + 4096 * n) (brk s) (end_brk s) in
    get_unmapped_area mmap fresh_area fuel addr len s = Ok (v, s') /\
    areas_ok (L1 ++ v :: L2) (l1 ++ mk_area a0 (a0 + 4096 * n) 0 :: l2) s'.
Proof.
  intros Ha Hl Hf a0 v Hal Hpos Hlen Hn Hmax Hne Hb1 Hb2. destruct (fresh_ok _ _ _ Ha) as (Ha' & HnL & Hm). fold v in HnL, Hm.
  assert (is_Some (mnodes (with_fresh s) !! vm_sibling v)) as Hnode by (cbn; rewrite lookup_insert_eq; eauto).
  assert (exists h, (if bool_decide ((vm_sibling <$> (L1 ++ L2)) = []) then on_mnodes (list_add (vm_sibling v) mmap);; mret a0
      else first ← on_mnodes (get_next mmap); area_scan mmap fuel v a0 (4096 * n) first) (with_fresh s) =
      Ok (a0, mk_mm (mvm s) h (areas (with_fresh s)) (free_area_cache s) (brk s) (end_brk s)) /\
    circle h (mmap :: (vm_sibling <$> (L1 ++ v :: L2))) /\ h !! 0 = None) as (h & E & Hc & H0).
  { destruct L1 as [|x L1 _] using rev_ind.
    - rewrite (Hne eq_refl) in *. cbn [app fmap list_fmap]. rewrite bool_decide_eq_true_2 by done.
      destruct (list_add_ok (mnodes (with_fresh s)) (vm_sibling v) mmap []) as (h & E & Hc & Hch); [apply Ha'|set_solver|done|].
      exists h. rewrite (bind_step _ _ _ _ _ (on_mnodes_ok _ _ _ _ E)). split; [done|]. split; [done|].
      destruct (h !! 0) eqn:E0; [|done]. destruct (proj1 (proj2 Hch 0)) as [y Hy]; [eauto|]. by rewrite (ao_null _ _ _ Ha') in Hy.
    - destruct l1 as [|a l1 _] using rev_ind; [rewrite length_app in Hl; simpl in Hl; lia|]. rewrite !length_app in Hl. simpl in Hl.
      rewrite bool_decide_eq_false_2 by (rewrite <- app_assoc; by destruct L1).
      rewrite (bind_step _ _ _ _ _ (on_mnodes_same _ _ _ (areas_first _ _ _ Ha'))). rewrite <- !app_assoc in *. cbn [app] in *.
      destruct (area_scan_ok a0 (4096 * n) v (with_fresh s) L1 l1 [] [] x a L2 l2 fuel) as (h & E & Hc & H0); try done; [apply Ha'|lia| |lia| |].
      + rewrite length_app in Hf. simpl in Hf. lia.
      + intros b Hb. split; [|by apply Hb1]. eapply (list.Forall_forall area_ok (l1 ++ a :: l2)); [apply Ha|set_solver].
      + exists h. done. }
  exists h. rewrite <- Hlen in E |- *. split.
  { erewrite (get_unmapped_area_step _ _ _ _ _ _ _ _ Ha Hal E) by (lia || apply lookup_insert_eq). cbn [mvm mnodes areas brk end_brk].
    by rewrite u32_small by (unfold is_u32; lia). }
  rewrite Hlen. apply (areas_ok_link L1 L2 l1 l2 s h); [done|done|done|done|split; cbn; lia| |].
  - intros b Hb. by apply Hb1.
  - intros b Hb. by apply Hb2.
Qed.
End areas.

(** ** Anonymous mappings *)

(** C20: [do_mmap] of anonymous memory. When the pages [[a0, a0 + 4096 n)] that
    serve the request (the page of the hint, or behind the break and the last
    mapping when there is none) lie below the kernel and between the areas
    before and after them, and 2n frames are free (one per page, and one per
    page table that may be missing), the call succeeds: the area list gains
    exactly the area [[a0, a0 + 4096 n)] at its place and stays sorted, disjoint
    and well linked; its n pages are mapped to n different frames that were
    free and are now in use; every other address translates as before, and the
    paging invariant holds. The result is the hint, or [a0] without one. *)
Theorem mmap_anonymous_correct mmap pdir fresh_area fd_file file_mmap fuel addr len n L1 L2 l1 l2 s :
  (forall s, areas s !! fresh_area s = None /\ mnodes s !! vm_sibling (fresh_area s) = None /\ fresh_area s <> 0 /\ vm_sibling (fresh_area s) <> 0) ->
  areas_ok mmap (L1 ++ L2) (l1 ++ l2) s -> length L1 = length l1 -> (length (L1 ++ L2) < fuel)%nat ->
  paging pdir (mvm s) -> KERNEL_HIGHER_HALF <= pdir -> frames_left (frames (mvm s)) (2 * n) ->
  let hint := ALIGN_DOWN addr PMM_FRAME_SIZE in
  let a0 := served s hint in
  let a1 := a0 + 4096 * Z.of_nat n in
  page_aligned a0 -> 0 < a0 -> PAGE_ALIGN len = 4096 * Z.of_nat n -> (0 < n)%nat -> a1 <= KERNEL_HIGHER_HALF ->
  (forall b, b ∈ l1 ++ l2 -> ~ (vm_start b <= hint < vm_end b)) -> (L1 = [] -> L2 = []) ->
  (forall b, b ∈ l1 -> vm_end b <= a0) -> (forall b, b ∈ l2 -> a1 <= vm_start b) ->
  exists s' fs, do_mmap mmap pdir fresh_area fd_file file_mmap fuel addr len (-1) s = Ok (if addr =? 0 then a0 else addr, s') /\
    areas_ok mmap (L1 ++ fresh_area s :: L2) (l1 ++ mk_area a0 a1 0 :: l2) s' /\
    length fs = n /\ maps_fresh pdir a0 fs (mvm s) (mvm s').
Proof.
  intros Hfresh Ha Hl Hf Hpg Hpd Hfr hint a0 a1 Hal Hpos Hlen Hn Hmax Hno Hne Hb1 Hb2. unfold KERNEL_HIGHER_HALF in Hmax, Hpd.
  unfold do_mmap. cbn [Z.leb Z.compare]. rewrite (bind_step _ _ _ _ _ (find_vma_none mmap hint _ _ s fuel Ha Hf Hno)). cbn [Z.eqb].
  destruct (get_unmapped_area_ok mmap fresh_area Hfresh hint len (Z.of_nat n) L1 L2 l1 l2 s fuel) as (h & E & Ha'); try done; [lia..|].
  rewrite (bind_step _ _ _ _ _ E). set (s1 := mk_mm _ _ _ _ _ _) in *. cbn [negb].
  assert (areas s1 !! fresh_area s = Some (mk_area a0 a1 0)) as Hv by apply lookup_insert_eq.
  destruct (map_pages_ok pdir n a0 (mvm s1) page_fuel) as (v' & fs & Em & Hlf & Hm); [done|done|done|done|done| |].
  { unfold page_fuel. lia. }
  fold a1 in Em. erewrite bind_step; [|rewrite (bind_step _ _ _ _ _ (get_area_ok _ _ _ Hv)); unfold on_mvm, zoom; cbn [vm_start vm_end]; by rewrite Em].
  erewrite bind_step; [|apply get_area_ok, Hv]. eexists _, fs. split; [reflexivity|]. split; [|done].
  destruct Ha' as [Hc H0 Ha2 Hn' Hok Hs]. by split.
Qed.

(** ** A hint below the first area *)

(** [list_add(&iter->vm_sibling, &mm->mmap)] with [iter] the first area. *)
Lemma relink_first_ok mmap w L l s : areas_ok mmap (w :: L) l s ->
  exists h, list_add (vm_sibling w) mmap (mnodes s) = Ok (tt, h) /\ nx h (vm_sibling w) = Some (vm_sibling w) /\ nx h mmap = Some (vm_sibling w).
Proof.
  intros Ha. pose proof (ao_ring _ _ _ _ Ha) as Hc. assert (vm_sibling w <> mmap) as Hne by (apply (ao_nodes _ _ _ _ Ha); left).
  assert (is_Some (mnodes s !! mmap) /\ is_Some (mnodes s !! vm_sibling w)) as [H1 H2] by (split; apply (circle_Some _ _ _ Hc); set_solver).
  unfold list_add. rewrite (bind_step _ _ _ _ _ (areas_first _ _ _ _ Ha)). cbn [fmap list_fmap hd]. rewrite __list_add_eq.
  rewrite (bind_step _ _ _ _ _ (set_prev_ok _ _ _ H2)). erewrite bind_step by (apply set_next_ok; by rewrite is_Some_upp).
  erewrite bind_step by (apply set_prev_ok; by rewrite is_Some_upn, is_Some_upp). rewrite set_next_ok by (by rewrite is_Some_upp, is_Some_upn, is_Some_upp).
  eexists. split; [done|]. destruct (is_Some_nx _ _ H1) as [y1 E1], (is_Some_nx _ _ H2) as [y2 E2].
  repeat rewrite ?nx_upn, ?nx_upp. rewrite E1, E2. split; repeat case_decide; done.
Qed.

Lemma find_scan_spins mmap w a x s k : nx (mnodes s) (vm_sibling w) = Some (vm_sibling w) -> vm_sibling w <> mmap -> areas s !! w = Some a ->
  ~ (vm_start a <= x < vm_end a) -> find_scan mmap k x (vm_sibling w) s = Fail Fuel.
Proof.
  intros Hn Hne Ha Hx. induction k as [|k IH]; [done|]. cbn [find_scan]. rewrite (proj2 (Z.eqb_neq _ _) Hne), of_vm_sibling_ok.
  rewrite (bind_step _ _ _ _ _ (get_area_ok _ _ _ Ha)). replace ((vm_start a <=? x) && (x <? vm_end a)) with false by lia.
  by rewrite (bind_step _ _ _ _ _ (on_mnodes_same _ _ _ (get_next_ok _ _ _ Hn))).
Qed.

(** C21: a request that fits below the first area corrupts the list. The code
    links the first area itself behind the head, in place of the new one: the
    first area then follows itself, the new area is on no list, and every later
    search for an address outside the first area runs for ever, whatever the
    number of rounds it is given. *)
Theorem mmap_below_first_corrupts mmap fresh_area fuel addr len n w a L l s :
  (forall s, areas s !! fresh_area s = None /\ mnodes s !! vm_sibling (fresh_area s) = None /\ fresh_area s <> 0 /\ vm_sibling (fresh_area s) <> 0) ->
  areas_ok mmap (w :: L) (a :: l) s -> (0 < fuel)%nat -> let a0 := served s addr in
  page_aligned a0 -> 0 < a0 -> PAGE_ALIGN len = 4096 * n -> 0 < n -> a0 + 4096 * n <= vm_start a ->
  exists s', get_unmapped_area mmap fresh_area fuel addr len s = Ok (fresh_area s, s') /\
    forall x k, ~ (vm_start a <= x < vm_end a) -> find_vma mmap k x s' = Fail Fuel.
Proof.
  intros Hfresh Ha Hf a0 Hal Hpos Hlen Hn Hlow. destruct fuel as [|fuel]; [lia|].
  destruct (fresh_ok _ _ Hfresh _ _ _ Ha) as (Ha' & HnL & Hm). destruct (relink_first_ok _ _ _ _ _ Ha') as (h & Eh & Hw & Hh).
  assert (area_ok a) as [_ Hau] by (pose proof (ao_ok _ _ _ _ Ha) as Hok; by apply Forall_cons in Hok as [? _]).
  assert (vm_start a <= vm_end a) by (pose proof (ao_ok _ _ _ _ Ha) as Hok; apply Forall_cons in Hok as [Hok _]; apply Hok).
  pose proof (ao_areas _ _ _ _ Ha') as H2. apply Forall2_cons_1 in H2 as [Hwa H2].
  assert (w <> fresh_area s) as Hwf by set_solver. destruct (areas_next _ [] w L _ _ Ha') as [En Hne].
  set (s1 := mk_mm (mvm s) h (areas (with_fresh fresh_area s)) (free_area_cache s) (brk s) (end_brk s)).
  eexists. split.
  - apply (get_unmapped_area_step mmap fresh_area Hfresh addr len _ _ s a0 s1 _ Ha Hal); [|lia|apply lookup_insert_eq].
    rewrite bool_decide_eq_false_2 by done. rewrite (bind_step _ _ _ _ _ (on_mnodes_same _ _ _ (areas_first _ _ _ _ Ha'))). cbn [fmap list_fmap hd area_scan].
    rewrite (proj2 (Z.eqb_neq _ _) Hne), of_vm_sibling_ok, (bind_step _ _ _ _ _ (get_area_ok _ _ _ Hwa)).
    rewrite (bind_step _ _ _ _ _ (on_mnodes_same _ _ _ (areas_last _ [] _ _ _ _ Ha'))), (bind_step _ _ _ _ _ (on_mnodes_same _ _ _ En)).
    rewrite (bind_step _ _ _ _ _ (next_start_ok _ _ _ _ H2)). fold a0. rewrite Hlen, (u32_small (a0 + 4096 * n)) by (unfold is_u32; lia).
    rewrite (proj2 (Z.leb_le _ _) Hlow). by rewrite (bind_step _ _ _ _ _ (on_mnodes_ok _ _ _ _ Eh)).
  - intros x k Hx. unfold find_vma. erewrite bind_step by (apply on_mnodes_same, get_next_ok, Hh).
    apply (find_scan_spins mmap w a); [exact Hw|done| |done]. cbn. rewrite lookup_insert_ne by congruence. exact Hwa.
Qed.

(** ** A process with one area *)

Definition example_mm : mm :=
  mk_mm example_vm {[8 := mk_list_head 116 116; 116 := mk_list_head 8 8]} {[100 := mk_area 0x400000 0x402000 0]} 0x402000 0x300000 0x300000.

Definition example_fresh_area (s : mm) : Z := fresh ({[0; -16]} ∪ dom (areas s) ∪ set_map of_vm_sibling (dom (mnodes s))).

Lemma example_fresh_area_ok s : areas s !! example_fresh_area s = None /\ mnodes s !! vm_sibling (example_fresh_area s) = None /\
  example_fresh_area s <> 0 /\ vm_sibling (example_fresh_area s) <> 0.
Proof.
  pose proof (is_fresh ({[0; -16]} ∪ dom (areas s) ∪ set_map of_vm_sibling (dom (mnodes s)) : gset Z)) as Hf. fold (example_fresh_area s) in Hf.
  rewrite !elem_of_union, !elem_of_singleton, elem_of_map in Hf. unfold vm_sibling, of_vm_sibling in *.
  split; [apply not_elem_of_dom; tauto|]. split; [|split; [tauto|intros ?; apply Hf; left; left; right; lia]].
  apply not_elem_of_dom. intros Hin. apply Hf. right. exists (example_fresh_area s + 16). split; [lia|done].
Qed.

Lemma example_areas_ok : areas_ok 8 [100] [mk_area 0x400000 0x402000 0] example_mm.
Proof.
  split; [| |repeat constructor|intros v ->%list_elem_of_singleton; split; discriminate|repeat constructor; cbn; lia|repeat constructor].
  - cbn. split; [by apply (bool_decide_unpack _)|]. repeat split.
  - reflexivity.
Qed.

Lemma example_frames_left : frames_left (frames (mvm example_mm)) 4.
Proof.
  split; [vm_compute; discriminate|]. exists [4; 5; 6; 7]. split; [by apply (bool_decide_unpack _)|]. split; [done|].
  assert (Forall (fun f => (0 <=? f) && (f <? scanned (frames (mvm example_mm))) && negb (frame_used (frames (mvm example_mm)) f) = true) [4; 5; 6; 7]) as HF
    by (repeat constructor).
  intros f Hf. rewrite list.Forall_forall in HF. specialize (HF f Hf). split; [lia|]. by destruct (frame_used _ f); [rewrite andb_false_r in HF|].
Qed.

Lemma mmap_anonymous_correct_witness : exists s' fs,
  do_mmap 8 0xC0002000 example_fresh_area (fun _ => 0) (fun _ _ => mret tt) 4 0 5000 (-1) example_mm = Ok (0x402000, s') /\
  length fs = 2%nat /\ page_walk (mvm s') 0x403000 = fs !! 1%nat.
Proof.
  destruct (mmap_anonymous_correct 8 0xC0002000 example_fresh_area (fun _ => 0) (fun _ _ => mret tt) 4 0 5000 2 [100] [] [mk_area 0x400000 0x402000 0] []
    example_mm example_fresh_area_ok example_areas_ok eq_refl) as (s' & fs & E & _ & Hl & Hm).
  - cbn. lia.
  - exact example_paging.
  - zdec.
  - exact example_frames_left.
  - split; [zdec|reflexivity].
  - zdec.
  - reflexivity.
  - lia.
  - zdec.
  - intros b ->%list_elem_of_singleton [H _]. apply Z.leb_le in H. discriminate H.
  - discriminate.
  - intros b ->%list_elem_of_singleton. zdec.
  - intros b Hb. by apply not_elem_of_nil in Hb.
  - exists s', fs. split; [exact E|]. split; [done|]. rewrite (mf_walk _ _ _ _ _ Hm) by zdec. rewrite Hl. reflexivity.
Defined.

Lemma mmap_below_first_corrupts_witness : exists s',
  get_unmapped_area 8 example_fresh_area 4 0x3F0000 4096 example_mm = Ok (example_fresh_area example_mm, s') /\
  forall k, find_vma 8 k 0x500000 s' = Fail Fuel.
Proof.
  destruct (mmap_below_first_corrupts 8 example_fresh_area 4 0x3F0000 4096 1 100 (mk_area 0x400000 0x402000 0) [] [] example_mm
    example_fresh_area_ok example_areas_ok) as (s' & E & Hs); [lia|split; [zdec|reflexivity]|zdec|reflexivity|zdec|zdec|].
  exists s'. split; [exact E|]. intros k. apply Hs. cbn. lia.
Defined.
