(* ===== verification/Sort.v ===== *)
(** * Sorting and searching arrays

    [libc/stdlib/qsort_r.c], [qsort.c] and [bsearch.c] of the C library, over
    byte-addressed memory: the elements are swapped a byte at a time and are
    compared by a function of the caller that reads them through pointers. The
    array is a list of elements, each a list of bytes; sorting is shown to leave
    a sorted permutation of it and to touch nothing else. *)
From Stdlib Require Import ZArith Lia Bool List.
From stdpp Require Import base list gmap option sorting.
From S2P Require Import Prelude Mem StrScan Memcmp Strlib.

Open Scope Z_scope.

(** ** The functions *)

Section sort.
Context {S : Type} `{Mem S}.

Fixpoint memswap (a b : Z) (size : nat) : M S unit :=
  match size with
  | O => mret tt
  | Datatypes.S size' =>
      tmp ← load8 a; x ← load8 b; store8 a x;; store8 b tmp;;
      memswap (u32 (a + 1)) (u32 (b + 1)) size'
  end.

Definition array_index (base element_size index : Z) : Z := u32 (base + u32 (element_size * index)).

(** [compare(a, b, arg)]. *)
Context (compare : Z -> Z -> Z -> M S Z) (arg : Z).

(** The loop of [partition] from [i] on, [n] rounds; the final [store_index]. *)
Fixpoint partition_loop (base element_size pivot_index : Z) (n : nat) (i store_index : Z) : M S Z :=
  match n with
  | O => mret store_index
  | Datatypes.S n' =>
      let pivot := array_index base element_size pivot_index in
      let value := array_index base element_size i in
      c ← compare value pivot arg;
      if c <=? 0 then
        let other := array_index base element_size store_index in
        mwhen (negb (value =? other)) (memswap value other (Z.to_nat element_size));;
        partition_loop base element_size pivot_index n' (u32 (i + 1)) (u32 (store_index + 1))
      else partition_loop base element_size pivot_index n' (u32 (i + 1)) store_index
  end.

Definition partition (base element_size num_elements pivot_index : Z) : M S Z :=
  let last := u32 (num_elements - 1) in
  mwhen (negb (pivot_index =? last))
    (memswap (array_index base element_size pivot_index) (array_index base element_size last) (Z.to_nat element_size));;
  store_index ← partition_loop base element_size last (Z.to_nat last) 0 0;
  memswap (array_index base element_size last) (array_index base element_size store_index) (Z.to_nat element_size);;
  mret store_index.

(** The recursion, to a depth of [fuel]. *)
Fixpoint qsort_r (fuel : nat) (base num_elements element_size : Z) : M S unit :=
  match fuel with
  | O => mfail Fuel
  | Datatypes.S fuel' =>
      if (element_size =? 0) || (num_elements <? 2) then mret tt
      else
        pivot_index ← partition base element_size num_elements (num_elements / 2);
        mwhen (2 <=? pivot_index) (qsort_r fuel' base pivot_index element_size);;
        let right := u32 (num_elements - u32 (pivot_index + 1)) in
        mwhen (2 <=? right) (qsort_r fuel' (array_index base element_size (u32 (pivot_index + 1))) right element_size)
  end.
End sort.

Section search.
Context {S : Type} `{Mem S}.

(** [qsort] passes its comparison through the [arg] of [qsort_r]; a function
    pointer [f] stands for the function [call f]. *)
Context (call : Z -> Z -> Z -> M S Z).

Definition compare_wrapper (a b arg : Z) : M S Z := call arg a b.

Definition qsort (fuel : nat) (base_ptr num_elements element_size compare : Z) : M S unit :=
  qsort_r compare_wrapper compare fuel base_ptr num_elements element_size.

(** The loop of [bsearch], [fuel] rounds at most. *)
Fixpoint bsearch (fuel : nat) (key base nmemb size compare : Z) : M S Z :=
  if nmemb =? 0 then mret 0
  else
    match fuel with
    | O => mfail Fuel
    | Datatypes.S fuel' =>
        let i := nmemb / 2 in
        let candidate := u32 (base + u32 (i * size)) in
        rel ← call compare key candidate;
        if rel <? 0 then bsearch fuel' key base i size compare
        else if 0 <? rel then bsearch fuel' key (u32 (candidate + size)) (u32 (nmemb - u32 (i + 1))) size compare
        else mret candidate
    end.
End search.

(** ** Swapping *)

(** Memory with the [n] bytes at [a] and at [b] exchanged. *)
Definition swapped (f : Z -> option Z) (a b n x : Z) : option Z :=
  if in_range a n x then f (b + (x - a)) else if in_range b n x then f (a + (x - b)) else f x.

Lemma swapped_comm f a b n x : disjoint a n b n -> swapped f a b n x = swapped f b a n x.
Proof. unfold disjoint, swapped. intros Hd. range_cases. Qed.

Lemma swapped_written f a l1 x l2 y l3 n z : Z.of_nat (length x) = n -> Z.of_nat (length y) = n ->
  let p := a + Z.of_nat (length l1) in let q := p + n + Z.of_nat (length l2) in
  swapped (written f a (l1 ++ x ++ l2 ++ y ++ l3)) p q n z = written f a (l1 ++ y ++ l2 ++ x ++ l3) z.
Proof.
  intros Hx Hy p q. assert (forall u v w, Z.of_nat (length u) = n -> Z.of_nat (length v) = n -> written f a (l1 ++ u ++ l2 ++ v ++ l3) w =
    if in_range p n w then u !! Z.to_nat (w - p) else if in_range q n w then v !! Z.to_nat (w - q)
    else written f a (l1 ++ x ++ l2 ++ y ++ l3) w) as Hw.
  { intros u v w Hu Hv. rewrite <- !written_app. rewrite Hu, Hv, Hx, Hy. fold p q.
    replace (p + n + Z.of_nat (length l2)) with q by done. unfold written. rewrite Hu, Hv, Hx, Hy. range_cases. }
  rewrite (Hw y x) by done. unfold swapped. range_cases.
  - rewrite (Hw x y) by done. rewrite (proj2 (in_range_false _ _ _)), (proj2 (in_range_spec _ _ _)) by lia. f_equal. lia.
  - rewrite (Hw x y) by done. rewrite (proj2 (in_range_spec _ _ _)) by lia. f_equal. lia.
Qed.

Lemma written_app_r f a l1 l2 x : written (written f (a + Z.of_nat (length l1)) l2) a l1 x = written f a (l1 ++ l2) x.
Proof. rewrite <- written_app. unfold written. range_cases. Qed.

Section laws.
Context {S : Type} `{MemLaws S}.
Implicit Types s : S.

Lemma memswap_ok n : forall a b s, mem_ok s -> owns s a (Z.of_nat n) -> owns s b (Z.of_nat n) -> disjoint a (Z.of_nat n) b (Z.of_nat n) ->
  exists s', memswap a b n s = Ok (tt, s') /\ leaves s s' (swapped (view s) a b (Z.of_nat n)).
Proof.
  induction n as [|n IH]; intros a b s Hok Ha Hb Hd; unfold disjoint in Hd.
  { exists s. split; [done|]. repeat split; [done..|]. intros x. unfold swapped. range_cases. }
  cbn [memswap]. destruct (Ha a) as [va Eva]; [lia|]. destruct (Hb b) as [vb Evb]; [lia|].
  pose proof (view_u8 _ _ _ Hok Eva) as Hva. pose proof (view_u8 _ _ _ Hok Evb) as Hvb.
  destruct (load8_law _ _ _ Hok Eva) as (s1 & E1 & Ok1 & R1 & V1). rewrite (bind_step _ _ _ _ _ E1). rewrite <- V1 in Evb.
  destruct (load8_law _ _ _ Ok1 Evb) as (s2 & E2 & Ok2 & R2 & V2). rewrite (bind_step _ _ _ _ _ E2).
  destruct (store8_written s2 a vb Ok2) as (s3 & E3 & Ok3 & R3 & V3); [rewrite V2, V1, Eva; eauto|done|]. rewrite (bind_step _ _ _ _ _ E3).
  destruct (store8_written s3 b va Ok3) as (s4 & E4 & Ok4 & R4 & V4); [rewrite V3; range_cases; rewrite V2, Evb; eauto|done|]. rewrite (bind_step _ _ _ _ _ E4).
  assert (forall x, view s4 x = if x =? b then Some va else if x =? a then Some vb else view s x) as Hv4
    by (intros x; rewrite V4; range_cases; rewrite V3; range_cases; by rewrite V2, V1).
  rewrite V1 in Evb. destruct n as [|n].
  { exists s4. split; [done|]. split; [done|]. split; [congruence|]. intros x. rewrite Hv4. unfold swapped. range_cases.
    - replace (b + (x - a)) with b by lia. done.
    - replace (a + (x - b)) with a by lia. done. }
  rewrite !u32_small; cycle 1.
  { apply (owns_u32 s b (Z.of_nat (2 + n))); [done|done|lia]. } { apply (owns_u32 s a (Z.of_nat (2 + n))); [done|done|lia]. }
  destruct (IH (a + 1) (b + 1) s4) as (s5 & E5 & L5); [done| | |unfold disjoint; lia|].
  { intros x Hx. rewrite Hv4. range_cases. apply Ha. lia. } { intros x Hx. rewrite Hv4. range_cases. apply Hb. lia. }
  exists s5. split; [done|]. apply (leaves_trans s s4 s5 (view s4)); [split; [done|]; split; [congruence|done]|].
  eapply leaves_ext; [|exact L5]. intros x. unfold swapped. rewrite !Hv4. range_cases; try (f_equal; lia).
  - replace (b + (x - a)) with b by lia. done.
  - replace (a + (x - b)) with a by lia. done.
Qed.

Lemma memswap_self n : forall a s, mem_ok s -> owns s a (Z.of_nat n) -> exists s', memswap a a n s = Ok (tt, s') /\ leaves s s' (view s).
Proof.
  induction n as [|n IH]; intros a s Hok Ha; [by exists s|]. cbn [memswap]. destruct (Ha a) as [va Eva]; [lia|].
  pose proof (view_u8 _ _ _ Hok Eva) as Hva.
  destruct (load8_law _ _ _ Hok Eva) as (s1 & E1 & Ok1 & R1 & V1). rewrite (bind_step _ _ _ _ _ E1). rewrite <- V1 in Eva.
  destruct (load8_law _ _ _ Ok1 Eva) as (s2 & E2 & Ok2 & R2 & V2). rewrite (bind_step _ _ _ _ _ E2). rewrite <- V2 in Eva.
  destruct (store8_written s2 a va Ok2) as (s3 & E3 & Ok3 & R3 & V3); [eauto|done|]. rewrite (bind_step _ _ _ _ _ E3).
  destruct (store8_written s3 a va Ok3) as (s4 & E4 & Ok4 & R4 & V4); [rewrite V3, Z.eqb_refl; eauto|done|]. rewrite (bind_step _ _ _ _ _ E4).
  assert (leaves s s4 (view s)) as L4.
  { split; [done|]. split; [congruence|]. intros x. rewrite V4, V3. rewrite V2, V1 in Eva |- *. range_cases. by subst. }
  destruct n as [|n]; [by exists s4|]. rewrite u32_small by (apply (owns_u32 s a (Z.of_nat (2 + n))); [done|done|lia]).
  destruct (IH (a + 1) s4) as (s5 & E5 & L5); [done|intros x Hx; rewrite (proj2 (proj2 L4)); apply Ha; lia|].
  exists s5. split; [done|]. eapply leaves_trans; [exact L4|]. eapply leaves_ext; [|exact L5]. intros x. apply L4.
Qed.
End laws.

(** ** Arrays *)

Section array.
Context {S : Type} `{MemLaws S} (es : Z) (Hes : 0 < es).
Implicit Types s : S.

Definition elem_ok (e : list Z) : Prop := Z.of_nat (length e) = es /\ Forall is_u8 e.

(** Memory is [V] with the elements [els] at [b]. *)
Definition holds (V : Z -> option Z) (R : rest_type (S:=S)) (b : Z) (els : list (list Z)) (s : S) : Prop :=
  mem_ok s /\ rest s = R /\ forall x, view s x = written V b (concat els) x.

Lemma length_elems els : Forall elem_ok els -> Z.of_nat (length (concat els)) = es * Z.of_nat (length els).
Proof. induction 1 as [|e els [He _] _ IH]; [simpl; lia|]. cbn [concat length]. rewrite length_app. lia. Qed.

Lemma concat_mid l1 (x : list Z) l2 y l3 : concat (l1 ++ x :: l2 ++ y :: l3) = concat l1 ++ x ++ concat l2 ++ y ++ concat l3.
Proof. rewrite concat_app. cbn [concat]. by rewrite concat_app. Qed.

Lemma array_index_ok b i n : 0 <= b -> b + es * n <= 2 ^ 32 -> 0 <= i < n -> array_index b es i = b + es * i.
Proof. intros Hb Hfit Hi. unfold array_index. assert (0 <= es * i < es * n) by nia. rewrite (u32_small (es * i)) by (unfold is_u32; lia). apply u32_small. unfold is_u32. lia. Qed.

Lemma holds_same V R b els s s' : holds V R b els s -> leaves s s' (view s) -> holds V R b els s'.
Proof. intros (Hok & Hr & Hv) (Hok' & Hr' & Hv'). split; [done|]. split; [congruence|]. intros x. by rewrite Hv'. Qed.

Lemma holds_owns V R b l1 x l2 s : holds V R b (l1 ++ x :: l2) s -> Forall elem_ok (l1 ++ x :: l2) -> owns s (b + es * Z.of_nat (length l1)) es.
Proof.
  intros (_ & _ & Hv) Hok z Hz. rewrite Hv. unfold written. rewrite length_elems by done. rewrite length_app. cbn [length].
  rewrite (proj2 (in_range_spec _ _ _)) by nia. apply lookup_lt_is_Some_2. pose proof (length_elems _ Hok) as Hl. rewrite length_app in Hl. cbn [length] in Hl. nia.
Qed.

Lemma holds_at V R b l1 x l2 s : holds V R b (l1 ++ x :: l2) s -> Forall elem_ok (l1 ++ x :: l2) ->
  bytes_at (view s) (b + es * Z.of_nat (length l1)) x.
Proof.
  intros (_ & _ & Hv) Hok i c Hc. rewrite Hv. unfold written. pose proof (length_elems _ Hok) as Hl. rewrite Hl. rewrite length_app in *. cbn [length] in *.
  apply list.Forall_app in Hok as [Hok1 [[Hx _] _]%list.Forall_cons]. pose proof (lookup_lt_Some _ _ _ Hc). pose proof (length_elems _ Hok1) as Hl1.
  rewrite (proj2 (in_range_spec _ _ _)) by nia. rewrite concat_app. cbn [concat]. rewrite lookup_app_r by lia. rewrite lookup_app_l by lia.
  rewrite <- Hc. f_equal. lia.
Qed.

Lemma swap_slots V R b l1 x l2 y l3 s : holds V R b (l1 ++ x :: l2 ++ y :: l3) s -> Forall elem_ok (l1 ++ x :: l2 ++ y :: l3) ->
  let p := b + es * Z.of_nat (length l1) in let q := b + es * Z.of_nat (length l1 + 1 + length l2) in
  forall c d, (c = p /\ d = q) \/ (c = q /\ d = p) ->
  exists s', memswap c d (Z.to_nat es) s = Ok (tt, s') /\ holds V R b (l1 ++ y :: l2 ++ x :: l3) s'.
Proof.
  intros Hh Hok p q c d Hcd. pose proof (holds_owns _ _ _ _ _ _ _ Hh Hok) as Op.
  assert (owns s q es) as Oq.
  { replace (l1 ++ x :: l2 ++ y :: l3) with ((l1 ++ x :: l2) ++ y :: l3) in Hh, Hok by (by rewrite <- app_assoc).
    pose proof (holds_owns _ _ _ _ _ _ _ Hh Hok) as O. rewrite length_app in O. cbn [length] in O. unfold q. replace (length l1 + 1 + length l2)%nat with (length l1 + Datatypes.S (length l2))%nat by lia. done. }
  fold p in Op. assert (disjoint p es q es) as Hd by (left; unfold p, q; nia).
  assert (forall z, swapped (view s) p q es z = written V b (concat (l1 ++ y :: l2 ++ x :: l3)) z) as Hsw.
  { intros z. pose proof Hok as Ho. apply list.Forall_app in Ho as [Ho1 [[Hx _] [Ho2 [[Hy _] _]%list.Forall_cons]%list.Forall_app]%list.Forall_cons].
    rewrite concat_mid. rewrite <- (swapped_written V b (concat l1) x (concat l2) y (concat l3) es z Hx Hy).
    rewrite (length_elems l1), (length_elems l2) by done. fold p. replace (p + es + es * Z.of_nat (length l2)) with q by (unfold p, q; lia).
    destruct Hh as (_ & _ & Hv). unfold swapped. by rewrite !Hv, concat_mid. }
  assert (exists s', memswap c d (Z.to_nat es) s = Ok (tt, s') /\ leaves s s' (swapped (view s) p q es)) as (s' & E & Hok' & Hr' & Hv').
  { pose proof (memswap_ok (Z.to_nat es)) as Hm. rewrite Z2Nat.id in Hm by lia. destruct Hcd as [[-> ->]|[-> ->]].
    - apply Hm; [apply Hh|done..].
    - destruct (Hm q p s) as (s' & E & L); [apply Hh|done|done|unfold disjoint in *; lia|]. exists s'. split; [done|].
      eapply leaves_ext; [|exact L]. intros z. symmetry. by apply swapped_comm. }
  exists s'. split; [done|]. split; [done|]. split; [rewrite Hr'; apply Hh|]. intros z. by rewrite Hv'.
Qed.
End array.

(** ** Sorting *)

(** [compare] reads the two elements, decides by [cmp] and changes nothing. *)
Definition compares {S} `{MemLaws S} (es : Z) (compare : Z -> Z -> Z -> M S Z) (arg : Z) (cmp : list Z -> list Z -> Z) : Prop :=
  forall (s : S) p q x y, mem_ok s -> elem_ok es x -> elem_ok es y -> bytes_at (view s) p x -> bytes_at (view s) q y ->
  exists s', compare p q arg s = Ok (cmp x y, s') /\ leaves s s' (view s).

(** What the C standard asks of the comparison. *)
Definition orders (es : Z) (cmp : list Z -> list Z -> Z) : Prop :=
  (forall x y, elem_ok es x -> elem_ok es y -> Z.sgn (cmp y x) = - Z.sgn (cmp x y)) /\
  (forall x y z, elem_ok es x -> elem_ok es y -> elem_ok es z -> cmp x y <= 0 -> cmp y z <= 0 -> cmp x z <= 0).

Definition below (cmp : list Z -> list Z -> Z) (x y : list Z) : Prop := cmp x y <= 0.

Section qsort.
Context {S : Type} `{MemLaws S} (es : Z) (Hes : 0 < es) (compare : Z -> Z -> Z -> M S Z) (arg : Z) (cmp : list Z -> list Z -> Z).
Context (Hcmp : compares es compare arg cmp) (Hord : orders es cmp).
Implicit Types s : S.
#[local] Abbreviation ok := (Forall (elem_ok es)).
#[local] Abbreviation size l := (Z.of_nat (length l)).

Lemma Forall_perm_elem els els' : els ≡ₚ els' -> ok els -> ok els'.
Proof. intros E. by rewrite E. Qed.

Lemma compare_slots V R b l1 x l2 l3 y l4 s : holds V R b (l1 ++ x :: l2) s -> l1 ++ x :: l2 = l3 ++ y :: l4 -> ok (l1 ++ x :: l2) ->
  exists s', compare (b + es * size l1) (b + es * size l3) arg s = Ok (cmp x y, s') /\ holds V R b (l1 ++ x :: l2) s'.
Proof.
  intros Hh E Hok. pose proof (holds_at es Hes V R b l1 x l2 s Hh Hok) as Hx. pose proof Hh as Hh2. pose proof Hok as Hok2. rewrite E in Hh2, Hok2.
  pose proof (holds_at es Hes V R b l3 y l4 s Hh2 Hok2) as Hy.
  apply list.Forall_app in Hok as [_ [Hxo _]%list.Forall_cons]. apply list.Forall_app in Hok2 as [_ [Hyo _]%list.Forall_cons].
  destruct (Hcmp s _ _ x y (proj1 Hh) Hxo Hyo Hx Hy) as (s' & E' & L). exists s'. split; [done|]. by eapply holds_same.
Qed.

Lemma partition_loop_ok V R b p : forall C A B s, let n := size (A ++ B ++ C) in
  holds V R b (A ++ B ++ C ++ [p]) s -> ok (A ++ B ++ C ++ [p]) -> 0 <= b -> b + es * (n + 1) <= 2 ^ 32 ->
  Forall (fun v => cmp v p <= 0) A -> Forall (fun v => 0 < cmp v p) B ->
  exists s' A' B', partition_loop compare arg b es n (length C) (size (A ++ B)) (size A) s = Ok (size A', s') /\
    holds V R b (A' ++ B' ++ [p]) s' /\ A' ++ B' ≡ₚ A ++ B ++ C /\ Forall (fun v => cmp v p <= 0) A' /\ Forall (fun v => 0 < cmp v p) B'.
Proof.
  induction C as [|v C IH]; intros A B s n Hh Hok Hb Hfit HA HB.
  { exists s, A, B. split; [done|]. split; [done|]. by rewrite app_nil_r. }
  cbn [length partition_loop]. assert (n = size A + size B + size C + 1) as Hn by (unfold n; rewrite !length_app; cbn [length]; lia).
  assert (n < 2 ^ 32) as Hn32 by nia. rewrite length_app, Nat2Z.inj_add.
  rewrite !(array_index_ok es Hes b _ (n + 1)) by lia.
  destruct (compare_slots V R b (A ++ B) v (C ++ [p]) (A ++ B ++ v :: C) p [] s) as (s1 & E1 & H1).
  { by rewrite <- app_assoc. } { by rewrite <- !app_assoc. } { by rewrite <- app_assoc. }
  fold n in E1. rewrite length_app, Nat2Z.inj_add in E1. rewrite (bind_step _ _ _ _ _ E1). rewrite !(u32_small) by (unfold is_u32; lia).
  rewrite <- app_assoc in H1. cbn [app] in H1. destruct (Z.leb_spec (cmp v p) 0) as [Hv|Hv].
  - assert (exists s2 B2, mwhen (negb (b + es * (size A + size B) =? b + es * size A))
      (memswap (b + es * (size A + size B)) (b + es * size A) (Z.to_nat es)) s1 = Ok (tt, s2) /\
      holds V R b ((A ++ [v]) ++ B2 ++ C ++ [p]) s2 /\ B2 ≡ₚ B) as (s2 & B2 & E2 & H2 & HB2).
    { destruct B as [|w B].
      - exists s1, []. rewrite Z.add_0_r, Z.eqb_refl. split; [done|]. by rewrite <- app_assoc.
      - rewrite (proj2 (Z.eqb_neq _ _)) by (cbn [length]; nia).
        destruct (swap_slots es Hes V R b A w B v (C ++ [p]) s1 H1 Hok (b + es * (size A + size (w :: B))) (b + es * size A)) as (s2 & E2 & H2).
        { right. split; [cbn [length]; lia|done]. }
        exists s2, (B ++ [w]). split; [done|]. rewrite <- !app_assoc. split; [done|]. by rewrite Permutation_app_comm. }
    rewrite (bind_step _ _ _ _ _ E2). assert (A ++ B ++ v :: C ≡ₚ (A ++ [v]) ++ B2 ++ C) as Hp.
    { rewrite HB2, <- !app_assoc. cbn [app]. by rewrite <- !Permutation_middle. }
    destruct (IH (A ++ [v]) B2 s2) as (s3 & A' & B' & E3 & H3 & P3 & HA' & HB'); [done| |done| | |by rewrite HB2|].
    { eapply Forall_perm_elem; [|exact Hok]. replace (A ++ B ++ (v :: C) ++ [p]) with ((A ++ B ++ v :: C) ++ [p]) by (by rewrite <- !app_assoc). rewrite Hp. by rewrite <- !app_assoc. }
    { rewrite <- Hp. fold n. done. } { apply list.Forall_app. by repeat constructor. }
    rewrite <- Hp in E3. fold n in E3. exists s3, A', B'. split; [|by rewrite <- Hp in P3]. rewrite <- E3.
    rewrite !length_app. cbn [length]. pose proof (Permutation_length HB2). f_equal; lia.
  - destruct (IH A (B ++ [v]) s1) as (s3 & A' & B' & E3 & H3 & P3 & HA' & HB').
    { by rewrite <- !app_assoc. } { by rewrite <- !app_assoc. } { done. } { rewrite <- !app_assoc. done. } { done. } { apply list.Forall_app. by repeat constructor. }
    exists s3, A', B'. rewrite <- !app_assoc in E3, P3. cbn [app] in E3, P3. split; [|done]. fold n in E3. rewrite <- E3.
    rewrite !length_app. cbn [length]. f_equal; lia.
Qed.

Lemma partition_ok V R b els k s : let n := size els in holds V R b els s -> ok els -> 0 < b -> b + es * n <= 2 ^ 32 -> 0 <= k < n ->
  exists s' A p B, partition compare arg b es n k s = Ok (size A, s') /\ holds V R b (A ++ p :: B) s' /\ A ++ p :: B ≡ₚ els /\
    Forall (fun v => cmp v p <= 0) A /\ Forall (fun v => 0 < cmp v p) B.
Proof.
  intros n Hh Hok Hb Hfit Hk. assert (n < 2 ^ 32) as Hn32 by nia. unfold partition. rewrite (u32_small (n - 1)) by (unfold is_u32; lia).
  rewrite !(array_index_ok es Hes b _ n) by lia.
  assert (exists s1 L p, mwhen (negb (k =? n - 1)) (memswap (b + es * k) (b + es * (n - 1)) (Z.to_nat es)) s = Ok (tt, s1) /\
    holds V R b (L ++ [p]) s1 /\ L ++ [p] ≡ₚ els) as (s1 & L & p & E1 & H1 & P1).
  { destruct (lookup_lt_is_Some_2 els (Z.to_nat k)) as [x Hx]; [lia|]. pose proof (take_drop_middle _ _ _ Hx) as El. pose proof (length_take_le els (Z.to_nat k) ltac:(lia)) as Hl1.
    set (l1 := take (Z.to_nat k) els) in *. set (l2 := drop (Datatypes.S (Z.to_nat k)) els) in *. clearbody l1 l2. subst els.
    unfold n in *. rewrite length_app in *. cbn [length] in *. destruct l2 as [|y l2 _] using rev_ind.
    - exists s, l1, x. rewrite (proj2 (Z.eqb_eq _ _)) by (simpl; lia). done.
    - rewrite length_app in *. cbn [length] in *. rewrite (proj2 (Z.eqb_neq _ _)) by lia.
      destruct (swap_slots es Hes V R b l1 x l2 y [] s Hh Hok (b + es * k) (b + es * (Z.of_nat (length l1 + Datatypes.S (length l2 + 1)) - 1))) as (s1 & E1 & H1).
      { left. split; [subst; lia|f_equal; f_equal; lia]. }
      exists s1, (l1 ++ y :: l2), x. split; [done|]. rewrite <- app_assoc. split; [done|]. cbn [app]. f_equiv. rewrite <- !Permutation_cons_append. apply perm_swap. }
  rewrite (bind_step _ _ _ _ _ E1). assert (size L = n - 1) as HL by (apply Permutation_length in P1; unfold n; rewrite <- P1, length_app; simpl; lia).
  destruct (partition_loop_ok V R b p L [] [] s1) as (s2 & A & B & E2 & H2 & P2 & HA & HB).
  { done. } { eapply Forall_perm_elem; [symmetry; exact P1|done]. } { lia. } { cbn [app]. rewrite HL. by rewrite Z.sub_add. } { done. } { done. }
  cbn [app length Z.of_nat] in E2, P2. rewrite HL in E2. replace (Z.to_nat (n - 1)) with (length L) by lia. rewrite (bind_step _ _ _ _ _ E2).
  assert (size A + size B = n - 1) as HAB by (apply Permutation_length in P2; rewrite length_app in P2; lia).
  rewrite (array_index_ok es Hes b _ n) by lia. assert (ok (A ++ B ++ [p])) as Hok2.
  { eapply Forall_perm_elem; [|exact Hok]. by rewrite <- P1, app_assoc, <- P2. }
  destruct B as [|w B].
  - destruct (memswap_self (Z.to_nat es) (b + es * size A) s2) as (s3 & E3 & L3); [apply H2| |].
    { rewrite Z2Nat.id by lia. by eapply holds_owns. }
    replace (n - 1) with (size A) by (simpl in HAB; lia). rewrite (bind_step _ _ _ _ _ E3). exists s3, A, p, []. split; [done|].
    split; [by eapply holds_same|]. split; [|done]. rewrite <- P1. by rewrite <- P2, app_nil_r.
  - cbn [length] in HAB. destruct (swap_slots es Hes V R b A w B p [] s2 H2 Hok2 (b + es * (n - 1)) (b + es * size A)) as (s3 & E3 & H3).
    { right. split; [|done]. f_equal. f_equal. lia. }
    rewrite (bind_step _ _ _ _ _ E3). exists s3, A, p, (B ++ [w]). split; [done|]. split; [done|].
    assert (w :: B ≡ₚ B ++ [w]) as Pw by apply Permutation_cons_append. split; [|split; [done|by rewrite <- Pw]].
    rewrite <- P1, <- P2, <- Pw. rewrite <- app_assoc. by rewrite (Permutation_app_comm (w :: B) [p]).
Qed.
Lemma sorted_mid A p B : ok (A ++ p :: B) -> StronglySorted (below cmp) A -> StronglySorted (below cmp) B ->
  Forall (fun v => cmp v p <= 0) A -> Forall (fun v => 0 < cmp v p) B -> StronglySorted (below cmp) (A ++ p :: B).
Proof.
  intros Hok HA HB HAp HBp. apply list.Forall_app in Hok as [HoA [Hop HoB]%list.Forall_cons].
  assert (Forall (below cmp p) B) as HpB.
  { rewrite list.Forall_forall in HBp, HoB |- *. intros v Hv. unfold below. pose proof (proj1 Hord v p (HoB v Hv) Hop). specialize (HBp v Hv). cbn beta in HBp. lia. }
  induction HA as [|x A _ IH Hx]; cbn [app]; [by constructor|].
  apply list.Forall_cons in HoA as [Hox HoA]. apply list.Forall_cons in HAp as [Hxp HAp].
  constructor; [by apply IH|]. apply list.Forall_app. split; [done|]. constructor; [done|].
  rewrite list.Forall_forall in HpB, HoB |- *. intros v Hv. apply (proj2 Hord x p v); [done|done|by apply HoB|done|by apply HpB].
Qed.

(** The two halves of the array, each with the rest as part of the memory around it. *)
Lemma holds_left V R b A B s : ok A -> holds V R b (A ++ B) s <-> holds (written V (b + es * size A) (concat B)) R b A s.
Proof.
  intros HA. unfold holds. rewrite concat_app, <- length_elems by done.
  split; intros (? & ? & Hv); (split; [done|]; split; [done|]; intros x; rewrite Hv); [symmetry|]; apply written_app_r.
Qed.

Lemma holds_right V R b A B s : ok A -> holds V R b (A ++ B) s <-> holds (written V b (concat A)) R (b + es * size A) B s.
Proof.
  intros HA. unfold holds. rewrite concat_app, <- length_elems by done.
  split; intros (? & ? & Hv); (split; [done|]; split; [done|]; intros x; rewrite Hv); [symmetry|]; apply written_app.
Qed.

Lemma qsort_r_ok fuel : forall V R b els s, let n := size els in holds V R b els s -> ok els -> 0 < b -> b + es * n <= 2 ^ 32 -> (length els < fuel)%nat ->
  exists s' els', qsort_r compare arg fuel b n es s = Ok (tt, s') /\ holds V R b els' s' /\ els' ≡ₚ els /\ StronglySorted (below cmp) els'.
Proof.
  induction fuel as [|fuel IH]; intros V R b els s n Hh Hok Hb Hfit Hf; [lia|]. cbn [qsort_r]. rewrite (proj2 (Z.eqb_neq es 0)) by lia. cbn [orb].
  destruct (Z.ltb_spec n 2) as [Hlt|Hge].
  { exists s, els. split; [done|]. split; [done|]. split; [done|]. destruct els as [|x [|y els]]; [constructor|by repeat constructor|unfold n in Hlt; simpl in Hlt; lia]. }
  assert (forall l V b s, holds V R b l s -> ok l -> 0 < b -> b + es * size l <= 2 ^ 32 -> (length l < length els)%nat ->
    exists s' l', mwhen (2 <=? size l) (qsort_r compare arg fuel b (size l) es) s = Ok (tt, s') /\ holds V R b l' s' /\ l' ≡ₚ l /\ StronglySorted (below cmp) l') as Hrec.
  { intros l V' b' s' Hl Hlok Hb' Hfit' Hlen. destruct (Z.leb_spec 2 (size l)).
    - cbn [mwhen]. apply IH; [done..|lia].
    - exists s', l. split; [done|]. split; [done|]. split; [done|]. destruct l as [|x [|y l]]; [constructor|by repeat constructor|simpl in *; lia]. }
  destruct (partition_ok V R b els (n / 2) s Hh Hok Hb Hfit) as (s1 & A & p & B & E1 & H1 & P1 & HA & HB).
  { split; [apply Z.div_pos; lia|apply Z.div_lt_upper_bound; lia]. }
  fold n in E1. rewrite (bind_step _ _ _ _ _ E1). pose proof (Permutation_length P1) as Hlen. rewrite length_app in Hlen. cbn [length] in Hlen.
  assert (ok (A ++ p :: B)) as Hok1 by (eapply Forall_perm_elem; [symmetry; exact P1|done]).
  pose proof Hok1 as [HoA HopB]%list.Forall_app. pose proof HopB as [Hop HoB]%list.Forall_cons.
  destruct (Hrec A (written V (b + es * size A) (concat (p :: B))) b s1) as (s2 & A' & E2 & H2 & PA & SA); [by apply holds_left|done|done|nia|lia|].
  rewrite (bind_step _ _ _ _ _ E2). assert (ok A') as HoA' by (by rewrite PA).
  rewrite <- (Permutation_length PA : length A' = length A) in H2. apply holds_left in H2; [|done].
  assert (n = size A' + size B + 1) as Hn by (pose proof (Permutation_length PA); unfold n; lia). assert (n < 2 ^ 32) as Hn32 by nia.
  rewrite <- (Permutation_length PA : length A' = length A).
  rewrite !u32_small by (unfold is_u32; rewrite ?u32_small; unfold is_u32; lia). replace (n - (size A' + 1)) with (size B) by lia.
  replace (A' ++ p :: B) with ((A' ++ [p]) ++ B) in H2 by (by rewrite <- app_assoc).
  assert (ok (A' ++ [p])) as HoAp by (apply list.Forall_app; split; [done|by constructor]). apply holds_right in H2; [|done].
  assert (size (A' ++ [p]) = size A' + 1) as HAp by (rewrite length_app; simpl; lia). rewrite HAp in H2.
  assert (exists s3 B', mwhen (2 <=? size B) (qsort_r compare arg fuel (array_index b es (size A' + 1)) (size B) es) s2 = Ok (tt, s3) /\
    holds (written V b (concat (A' ++ [p]))) R (b + es * (size A' + 1)) B' s3 /\ B' ≡ₚ B /\ StronglySorted (below cmp) B') as (s3 & B' & E3 & H3 & PB & SB).
  { destruct (Z.eq_dec (size B) 0) as [HB0|HB0].
    - exists s2, B. rewrite HB0. split; [done|]. split; [done|]. split; [done|]. destruct B; [constructor|simpl in HB0; lia].
    - rewrite (array_index_ok es Hes b _ n) by lia. apply Hrec; [done|done|nia|nia|lia]. }
  exists s3, (A' ++ p :: B'). split; [done|]. rewrite <- HAp in H3. apply holds_right in H3; [|done]. rewrite <- app_assoc in H3. split; [done|].
  split; [by rewrite <- P1, PA, PB|]. apply sorted_mid; [|done|done|by rewrite PA|by rewrite PB].
  eapply Forall_perm_elem; [|exact Hok1]. by rewrite PA, PB.
Qed.
End qsort.

(** ** Searching *)

Lemma sorted_app_inv {A} (P : A -> A -> Prop) l1 l2 : StronglySorted P (l1 ++ l2) ->
  StronglySorted P l1 /\ StronglySorted P l2 /\ forall x y, x ∈ l1 -> y ∈ l2 -> P x y.
Proof.
  induction l1 as [|a l1 IH]; cbn [app]; intros Hs; [split; [constructor|]; split; [done|]; intros x y Hx; by apply not_elem_of_nil in Hx|].
  apply StronglySorted_inv in Hs as [Hs Ha]. destruct (IH Hs) as (H1 & H2 & H12). apply list.Forall_app in Ha as [Ha1 Ha2]. split; [by constructor|]. split; [done|].
  intros x y [->|Hx]%elem_of_cons Hy; [|by apply H12]. by eapply (list.Forall_forall (P a) l2).
Qed.

Section bsearch.
Context {S : Type} `{MemLaws S} (es : Z) (Hes : 0 < es) (call : Z -> Z -> Z -> M S Z) (f : Z) (cmp : list Z -> list Z -> Z).
Context (Hcmp : compares es (compare_wrapper call) f cmp) (Hord : orders es cmp).
Context (V : Z -> option Z) (R : rest_type (S:=S)) (key : Z) (k : list Z) (Hk : elem_ok es k) (Hkey : bytes_at V key k).

Definition slots (b : Z) (els : list (list Z)) : Prop := forall i e, els !! i = Some e -> bytes_at V (b + es * Z.of_nat i) e.

(** Everything before an element below the key is below it, everything behind an element above it is above. *)
Lemma sorted_sides l1 e l2 : Forall (elem_ok es) (l1 ++ e :: l2) -> StronglySorted (below cmp) (l1 ++ e :: l2) ->
  (cmp k e < 0 -> forall x, x ∈ e :: l2 -> cmp k x < 0) /\ (0 < cmp k e -> forall x, x ∈ l1 ++ [e] -> 0 < cmp k x).
Proof.
  intros Hok Hs. destruct Hord as [Hsgn Htr].
  assert (forall x y, elem_ok es x -> elem_ok es y -> below cmp x y -> (cmp k x < 0 -> cmp k y < 0) /\ (0 < cmp k y -> 0 < cmp k x)) as Hstep.
  { intros x y Hx Hy Hxy. unfold below in Hxy. pose proof (Hsgn k x Hk Hx). pose proof (Hsgn k y Hk Hy).
    pose proof (Htr x y k Hx Hy Hk Hxy). pose proof (Htr k x y Hk Hx Hy). lia. }
  pose proof Hok as [Ho1 [Hoe Ho2]%list.Forall_cons]%list.Forall_app. rewrite list.Forall_forall in Ho1, Ho2.
  apply sorted_app_inv in Hs as (_ & Hs & H12). apply StronglySorted_inv in Hs as [_ He]. rewrite list.Forall_forall in He. split.
  - intros Hlt x [->|Hx]%elem_of_cons; [done|]. by eapply (Hstep e x); [done|apply Ho2|apply He|].
  - intros Hgt x [Hx| ->%list_elem_of_singleton]%elem_of_app; [|done]. eapply (Hstep x e); [by apply Ho1|done| |done]. apply H12; [done|left].
Qed.

Lemma bsearch_ok fuel : forall b els s, let n := Z.of_nat (length els) in sees V R s -> slots b els -> Forall (elem_ok es) els -> StronglySorted (below cmp) els ->
  0 < b -> b + es * n < 2 ^ 32 -> (length els <= fuel)%nat ->
  exists r s', bsearch call fuel key b n es f s = Ok (r, s') /\ sees V R s' /\
    ((exists i e, els !! i = Some e /\ r = b + es * Z.of_nat i /\ cmp k e = 0) \/ (r = 0 /\ forall e, e ∈ els -> cmp k e <> 0)).
Proof.
  induction fuel as [|fuel IH]; intros b els s n Hs Hsl Hok Hsort Hb Hfit Hf; cbn [bsearch]; destruct (Z.eqb_spec n 0) as [Hn|Hn];
    try (exists 0, s; split; [done|]; split; [done|]; right; split; [done|]; destruct els; [set_solver|unfold n in Hn; simpl in Hn; lia]).
  { lia. }
  set (i := n / 2). assert (0 <= i < n) as Hi by (unfold i; split; [apply Z.div_pos; lia|apply Z.div_lt_upper_bound; lia]).
  destruct (lookup_lt_is_Some_2 els (Z.to_nat i)) as [e He]; [lia|]. assert (0 <= es * i < es * n) by nia.
  rewrite (u32_small (i * es)) by (unfold is_u32; lia). rewrite (Z.mul_comm i es), (u32_small (b + es * i)) by (unfold is_u32; lia).
  pose proof (Hsl _ _ He) as Hbe. rewrite Z2Nat.id in Hbe by lia. destruct Hs as (Hmo & Hr & Hv).
  assert (elem_ok es e) as Hoe by (by eapply (Forall_lookup_1 _ _ _ _ Hok)).
  destruct (Hcmp s key (b + es * i) k e Hmo Hk Hoe) as (s1 & E1 & Hmo1 & Hr1 & Hv1).
  { intros j c Hc. rewrite Hv. by apply Hkey. } { intros j c Hc. rewrite Hv. by apply Hbe. }
  change (call f key (b + es * i) s = Ok (cmp k e, s1)) in E1. rewrite (bind_step _ _ _ _ _ E1).
  assert (sees V R s1) as Hs1 by (split; [done|]; split; [congruence|]; intros x; by rewrite Hv1).
  pose proof (take_drop_middle _ _ _ He) as El. assert (length (take (Z.to_nat i) els) = Z.to_nat i) as Hlt by (apply length_take_le; lia).
  set (l1 := take (Z.to_nat i) els) in *. set (l2 := drop (Datatypes.S (Z.to_nat i)) els) in *. clearbody l1 l2. subst els.
  destruct (sorted_sides l1 e l2 Hok Hsort) as [Hlow Hhigh]. unfold n in *. rewrite length_app in *. cbn [length] in *.
  apply list.Forall_app in Hok as [Ho1 [_ Ho2]%list.Forall_cons]. apply sorted_app_inv in Hsort as (Hs1' & Hs2 & _). apply StronglySorted_inv in Hs2 as [Hs2 _].
  destruct (Z.ltb_spec (cmp k e) 0) as [Hneg|Hpos].
  - destruct (IH b l1 s1) as (r & s' & E & Hs' & Hres); [done| |done|done|done|lia|lia|].
    { intros j x Hx. apply Hsl. by apply lookup_app_l_Some. }
    exists r, s'. split; [by replace i with (Z.of_nat (length l1)) by lia|]. split; [done|]. destruct Hres as [(j & x & Hx & Hrx & Hc)|[-> Hno]].
    + left. exists j, x. split; [by apply lookup_app_l_Some|done].
    + right. split; [done|]. intros x [Hx|Hx]%elem_of_app; [by apply Hno|]. pose proof (Hlow Hneg x Hx). lia.
  - destruct (Z.ltb_spec 0 (cmp k e)) as [Hgt|Hle].
    + rewrite (u32_small (i + 1)), (u32_small (b + es * i + es)) by (unfold is_u32; nia).
      rewrite u32_small by (unfold is_u32; nia).
      destruct (IH (b + es * i + es) l2 s1) as (r & s' & E & Hs' & Hres); [done| |done|done|lia|nia|lia|].
      { intros j x Hx. replace (b + es * i + es + es * Z.of_nat j) with (b + es * Z.of_nat (length l1 + Datatypes.S j)) by lia. apply Hsl. by rewrite lookup_app_r, Nat.add_sub_swap, Nat.sub_diag by lia. }
      exists r, s'. split; [rewrite <- E; f_equal; lia|]. split; [done|]. destruct Hres as [(j & x & Hx & Hrx & Hc)|[-> Hno]].
      * left. exists (length l1 + Datatypes.S j)%nat, x. split; [by rewrite lookup_app_r, Nat.add_sub_swap, Nat.sub_diag by lia|]. split; [lia|done].
      * right. split; [done|]. intros x [Hx|[->|Hx]%elem_of_cons]%elem_of_app; [|lia|by apply Hno]. pose proof (Hhigh Hgt x ltac:(set_solver)). lia.
    + exists (b + es * i), s1. split; [done|]. split; [done|]. left. exists (Z.to_nat i), e. split; [by rewrite lookup_app_r, Hlt, Nat.sub_diag by lia|]. split; [lia|lia].
Qed.
End bsearch.

(** ** The library functions *)

Lemma written_self V b l x : bytes_at V b l -> written V b l x = V x.
Proof.
  intros Hb. unfold written. range_cases. destruct (lookup_lt_is_Some_2 l (Z.to_nat (x - b))) as [c Hc]; [lia|].
  rewrite Hc, <- (Hb _ _ Hc). f_equal. lia.
Qed.

(** C24: [qsort] over an array of [n] elements of [es] bytes, with a comparison
    function that depends on the two elements only and is a total preorder as
    the C standard requires, returns (at a depth of recursion of at most [n])
    with the same elements in ascending order; every byte outside the array
    keeps its value. *)
Theorem qsort_correct {S} `{MemLaws S} (s : S) (call : Z -> Z -> Z -> M S Z) (f b es : Z) (els : list (list Z)) (cmp : list Z -> list Z -> Z) (fuel : nat) :
  mem_ok s -> 0 < es -> Forall (elem_ok es) els -> bytes_at (view s) b (concat els) -> 0 < b -> b + es * Z.of_nat (length els) <= 2 ^ 32 ->
  compares es (compare_wrapper call) f cmp -> orders es cmp -> (length els < fuel)%nat ->
  exists s' els', qsort call fuel b (Z.of_nat (length els)) es f s = Ok (tt, s') /\
    els' ≡ₚ els /\ StronglySorted (below cmp) els' /\ leaves s s' (written (view s) b (concat els')).
Proof.
  intros Hmo Hes Hok Hb Hb0 Hfit Hcmp Hord Hf.
  destruct (qsort_r_ok es Hes (compare_wrapper call) f cmp Hcmp Hord fuel (view s) (rest s) b els s) as (s' & els' & E & Hh & P & Hs); try done.
  { split; [done|]. split; [done|]. intros x. by rewrite written_self. }
  exists s', els'. done.
Qed.

(** [bsearch] in an array sorted by the comparison function, as [qsort]
    leaves it, returns within [n] rounds a pointer to an element that compares
    equal to the key when there is one and NULL when there is none, and changes
    nothing in memory. *)
Theorem bsearch_correct {S} `{MemLaws S} (s : S) (call : Z -> Z -> Z -> M S Z) (f b es key : Z) (els : list (list Z)) (k : list Z) (cmp : list Z -> list Z -> Z) (fuel : nat) :
  mem_ok s -> 0 < es -> Forall (elem_ok es) els -> bytes_at (view s) b (concat els) -> 0 < b -> b + es * Z.of_nat (length els) < 2 ^ 32 ->
  elem_ok es k -> bytes_at (view s) key k ->
  compares es (compare_wrapper call) f cmp -> orders es cmp -> StronglySorted (below cmp) els -> (length els <= fuel)%nat ->
  exists r s', bsearch call fuel key b (Z.of_nat (length els)) es f s = Ok (r, s') /\ leaves s s' (view s) /\
    ((exists i e, els !! i = Some e /\ r = b + es * Z.of_nat i /\ cmp k e = 0) \/ (r = 0 /\ forall e, e ∈ els -> cmp k e <> 0)).
Proof.
  intros Hmo Hes Hok Hb Hb0 Hfit Hk Hkey Hcmp Hord Hsort Hf.
  destruct (bsearch_ok es Hes call f cmp Hcmp Hord (view s) (rest s) key k Hk Hkey fuel b els s) as (r & s' & E & L & Hr); try done.
  { intros i e He. rewrite <- (take_drop_middle _ _ _ He) in Hb, Hok. assert (length (take i els) = i) as Hl by (apply length_take_le; apply lookup_lt_Some in He; lia).
    intros j c Hc. pose proof Hok as [Hok1 _]%list.Forall_app. pose proof (length_elems es (take i els) Hok1) as Hl1. rewrite Hl in Hl1.
    rewrite <- (Hb (length (concat (take i els)) + j)%nat c); [f_equal; lia|].
    rewrite concat_app. cbn [concat]. rewrite lookup_app_r, Nat.add_sub_swap, Nat.sub_diag by lia. cbn [Nat.add]. by apply lookup_app_l_Some. }
  exists r, s'. done.
Qed.

(** Records of two bytes compared by the first. *)
Definition key_compare (_ a b : Z) : M flat Z := x ← load8 a; y ← load8 b; mret (x - y).
Definition key_cmp (x y : list Z) : Z := hd 0 x - hd 0 y.
Definition sort_example : flat := list_to_map [(1000, 3); (1001, 30); (1002, 1); (1003, 10); (1004, 2); (1005, 20); (2000, 2); (2001, 0)].
Definition sort_example_sorted : flat := list_to_map [(1000, 1); (1001, 10); (1002, 2); (1003, 20); (1004, 3); (1005, 30); (2000, 2); (2001, 0)].

Lemma sort_example_ok : flat_ok sort_example /\ flat_ok sort_example_sorted.
Proof. split; unfold flat_ok, is_u32, is_u8; apply (bool_decide_unpack _); vm_compute; exact I. Qed.

Lemma key_compares : compares 2 (compare_wrapper key_compare) 0 key_cmp.
Proof.
  intros s p q x y Hok [Hx _] [Hy _] Hp Hq. destruct x as [|x0 x]; [simpl in Hx; lia|]. destruct y as [|y0 y]; [simpl in Hy; lia|].
  specialize (Hp O x0 eq_refl). specialize (Hq O y0 eq_refl). rewrite Z.add_0_r in Hp, Hq. unfold compare_wrapper, key_compare, key_cmp. cbn [hd].
  destruct (load8_law _ _ _ Hok Hp) as (s1 & E1 & Ok1 & R1 & V1). rewrite (bind_step _ _ _ _ _ E1). rewrite <- V1 in Hq.
  destruct (load8_law _ _ _ Ok1 Hq) as (s2 & E2 & Ok2 & R2 & V2). rewrite (bind_step _ _ _ _ _ E2).
  exists s2. split; [done|]. split; [done|]. split; [congruence|]. intros z. by rewrite V2.
Qed.

Lemma key_orders : orders 2 key_cmp.
Proof. unfold key_cmp. split; intros; lia. Qed.

Lemma qsort_correct_witness : exists s' els', qsort key_compare 4 1000 3 2 0 sort_example = Ok (tt, s') /\
  els' ≡ₚ [[3; 30]; [1; 10]; [2; 20]] /\ StronglySorted (below key_cmp) els' /\ view s' 2000 = Some 2.
Proof.
  destruct (qsort_correct sort_example key_compare 0 1000 2 [[3; 30]; [1; 10]; [2; 20]] key_cmp 4) as (s' & els' & E & P & Hs & L).
  - apply sort_example_ok.
  - lia.
  - apply (bool_decide_unpack _). vm_compute. exact I.
  - apply flat_bytes_at. vm_compute. reflexivity.
  - lia.
  - cbn. lia.
  - exact key_compares.
  - exact key_orders.
  - cbn. lia.
  - exists s', els'. split; [exact E|]. split; [done|]. split; [done|]. rewrite (proj2 (proj2 L)). unfold written.
    rewrite (length_elems 2) by (rewrite P; apply (bool_decide_unpack _); vm_compute; exact I). rewrite P. reflexivity.
Defined.

Lemma bsearch_correct_witness : exists s', bsearch key_compare 3 2000 1000 3 2 0 sort_example_sorted = Ok (1002, s').
Proof.
  destruct (bsearch_correct sort_example_sorted key_compare 0 1000 2 2000 [[1; 10]; [2; 20]; [3; 30]] [2; 0] key_cmp 3) as (r & s' & E & _ & Hr).
  - apply sort_example_ok.
  - lia.
  - apply (bool_decide_unpack _). vm_compute. exact I.
  - apply flat_bytes_at. vm_compute. reflexivity.
  - lia.
  - cbn. lia.
  - apply (bool_decide_unpack _). vm_compute. exact I.
  - apply flat_bytes_at. vm_compute. reflexivity.
  - exact key_compares.
  - exact key_orders.
  - repeat constructor; unfold below, key_cmp; cbn; lia.
  - cbn. lia.
  - exists s'. replace 1002 with r; [exact E|]. destruct Hr as [(i & e & He & -> & Hc)|[-> Hno]].
    + destruct i as [|[|[|i]]]; cbn in He; (injection He as <- || discriminate He); (discriminate Hc || reflexivity).
    + exfalso. apply (Hno [2; 20]); [set_solver|reflexivity].
Defined.
