(* ===== verification/Strtol.v ===== *)
(** * Integers from strings

    [libc/stdlib/strtol.c], the template that [strtoul.c], [strtoll.c] and
    [strtoull.c] include with other types: [STRTOL] is written once over the
    integer type. Its result is compared with the value of the numeral, computed
    without bounds and then clamped to the type. *)
From Stdlib Require Import ZArith Lia Bool.
From stdpp Require Import base list gmap option.
From S2P Require Import Prelude Mem StrScan Memcmp Strlib.

Open Scope Z_scope.

(** [STRTOL_INT], [STRTOL_INT_MIN], [STRTOL_INT_MAX] and
    [STRTOL_INT_IS_UNSIGNED]. *)
Record inttype := mk_inttype { INT_MIN : Z; INT_MAX : Z; IS_UNSIGNED : bool }.

Definition long_type : inttype := mk_inttype (- 2 ^ 31) (2 ^ 31 - 1) false.
Definition ulong_type : inttype := mk_inttype 0 (2 ^ 32 - 1) true.
Definition llong_type : inttype := mk_inttype (- 2 ^ 63) (2 ^ 63 - 1) false.
Definition ullong_type : inttype := mk_inttype 0 (2 ^ 64 - 1) true.

Definition EINVAL : Z := 22.
Definition ERANGE : Z := 34.

(** Convert a character into a digit. *)
Definition debase (c : Z) : Z :=
  if (48 <=? c) && (c <=? 57) then c - 48
  else if (97 <=? c) && (c <=? 122) then 10 + c - 97
  else if (65 <=? c) && (c <=? 90) then 10 + c - 65
  else -1.

Section strtol.
Context {S : Type} `{Mem S} (t : inttype) (fuel : nat).

(** Reduction into the unsigned type of the same width. *)
Definition wrap_unsigned (z : Z) : Z := z mod (INT_MAX t - INT_MIN t + 1).
Definition fits (z : Z) : bool := (INT_MIN t <=? z) && (z <=? INT_MAX t).

Definition load_char (a : Z) : M S Z := b ← load8 a; mret (s8 b).

Fixpoint skip_space (n : nat) (str : Z) : M S Z :=
  match n with
  | O => mfail Fuel
  | Datatypes.S n' => b ← load8 str; if isspace b then skip_space n' (u32 (str + 1)) else mret str
  end.

(** [str[0] == '0' && (str[1] == 'x' || str[1] == 'X') && 0 <= debase(str[2]) < 16]. *)
Definition hex_prefix (str : Z) : M S bool :=
  c0 ← load_char str;
  if negb (c0 =? 48) then mret false
  else
    c1 ← load_char (u32 (str + 1));
    if negb ((c1 =? 120) || (c1 =? 88)) then mret false
    else c2 ← load_char (u32 (str + 2)); mret ((0 <=? debase c2) && (debase c2 <? 16)).

(** [str[0] == '0' && 0 <= debase(str[1]) < 8]. *)
Definition octal_prefix (str : Z) : M S bool :=
  c0 ← load_char str;
  if negb (c0 =? 48) then mret false
  else c1 ← load_char (u32 (str + 1)); mret ((0 <=? debase c1) && (debase c1 <? 8)).

Record progress := mk_progress { p_result : Z; p_converted : Z; p_overflow : bool }.

(** One digit of the accumulator; the value and whether it overflowed. *)
Definition add_digit (actually_negative : bool) (overflow_value base val result : Z) : Z * bool :=
  if negb (fits (result * base)) then (overflow_value, true)
  else
    let result := result * base in
    if val =? 0 then (result, false)
    else if negb actually_negative && (val <=? INT_MAX t - result) then (result + val, false)
    else if actually_negative && (val <? wrap_unsigned (result - INT_MIN t)) then (result - val, false)
    else (overflow_value, true).

Fixpoint digits_loop (n : nat) (actually_negative : bool) (overflow_value base str : Z) (p : progress) : M S (Z * progress) :=
  match n with
  | O => mfail Fuel
  | Datatypes.S n' =>
      c ← load_char str;
      if c =? 0 then mret (str, p)
      else
        let val := debase c in
        if (val <? 0) || (base <=? val) then mret (str, p)
        else
          let str := u32 (str + 1) in
          let converted := u32 (p_converted p + 1) in
          if p_overflow p then digits_loop n' actually_negative overflow_value base str (mk_progress (p_result p) converted true)
          else
            let '(r, o) := add_digit actually_negative overflow_value base val (p_result p) in
            digits_loop n' actually_negative overflow_value base str (mk_progress r converted o)
  end.

Definition store_end (end_ptr str : Z) : M S unit := mwhen (negb (end_ptr =? 0)) (store32 end_ptr str).

(** The result, and the value stored in [errno] if one is. *)
Definition STRTOL (str end_ptr base : Z) : M S (Z * option Z) :=
  if (base <? 0) || (base =? 1) || (36 <? base) then store_end end_ptr str;; mret (0, Some EINVAL)
  else
    let original_str := str in
    str ← skip_space fuel str;
    c ← load_char str;
    let negative := c =? 45 in
    let str := if (c =? 45) || (c =? 43) then u32 (str + 1) else str in
    let actually_negative := negb (IS_UNSIGNED t) && negative in
    '(str, base) ← (if base =? 0 then
                      h ← hex_prefix str;
                      if h : bool then mret (u32 (str + 2), 16)
                      else o ← octal_prefix str; if o : bool then mret (u32 (str + 1), 8) else mret (str, 10)
                    else if base =? 16 then
                      h ← hex_prefix str; if h : bool then mret (u32 (str + 2), base) else mret (str, base)
                    else mret (str, base));
    let overflow_value := if actually_negative then INT_MIN t else INT_MAX t in
    '(str, p) ← digits_loop fuel actually_negative overflow_value base str (mk_progress 0 0 false);
    let errno := if p_overflow p then Some ERANGE else None in
    let '(str, errno) := if p_converted p =? 0 then (original_str, Some EINVAL) else (str, errno) in
    store_end end_ptr str;;
    let result :=
      if IS_UNSIGNED t && negative then
        if p_overflow p then INT_MAX t else wrap_unsigned (- p_result p)
      else p_result p in
    mret (result, errno).
End strtol.

Definition strtol {S} `{Mem S} := STRTOL (S:=S) long_type.
Definition strtoul {S} `{Mem S} := STRTOL (S:=S) ulong_type.
Definition strtoll {S} `{Mem S} := STRTOL (S:=S) llong_type.
Definition strtoull {S} `{Mem S} := STRTOL (S:=S) ullong_type.

(** ** The numeral at the start of a string *)

Definition is_digit (base c : Z) : bool := (0 <=? debase c) && (debase c <? base).

(** The number the digits [ds] denote. *)
Definition magnitude (base : Z) (ds : list Z) : Z := foldl (fun m d => m * base + debase d) 0 ds.

Definition has_hex (l : list Z) : bool :=
  match l with c0 :: c1 :: c2 :: _ => (c0 =? 48) && ((c1 =? 120) || (c1 =? 88)) && is_digit 16 c2 | _ => false end.
Definition has_octal (l : list Z) : bool :=
  match l with c0 :: c1 :: _ => (c0 =? 48) && is_digit 8 c1 | _ => false end.

(** How many characters the prefix takes, and the base it announces. *)
Definition prefix_of (base : Z) (l : list Z) : nat * Z :=
  if base =? 0 then if has_hex l then (2%nat, 16) else if has_octal l then (1%nat, 8) else (O, 10)
  else if (base =? 16) && has_hex l then (2%nat, 16) else (O, base).

Record numeral_at := mk_numeral { n_negative : bool; n_base : Z; n_skip : nat; n_digits : list Z }.

Definition parse (base : Z) (l : list Z) : numeral_at :=
  let k := span (fun c => negb (isspace c)) l in
  let l1 := drop k l in
  let sign := match l1 with c :: _ => (c =? 45) || (c =? 43) | [] => false end in
  let j := if sign then 1%nat else O in
  let '(pre, b) := prefix_of base (drop j l1) in
  let l2 := drop pre (drop j l1) in
  mk_numeral (match l1 with c :: _ => c =? 45 | [] => false end) b (k + j + pre) (take (span (fun c => negb (is_digit b c)) l2) l2).

(** What the conversion should return for the numeral [n] in the type [t]. *)
Definition clamped (t : inttype) (n : numeral_at) : Z :=
  let m := magnitude (n_base n) (n_digits n) in
  if IS_UNSIGNED t then
    if INT_MAX t <? m then INT_MAX t else if n_negative n then (- m) mod (INT_MAX t + 1) else m
  else Z.max (INT_MIN t) (Z.min (INT_MAX t) (if n_negative n then - m else m)).

(** [ERANGE] is reported for a value outside the type, and also for the least
    value of a signed type when its last digit is not zero. *)
Definition out_of_range (t : inttype) (n : numeral_at) : bool :=
  let m := magnitude (n_base n) (n_digits n) in
  if negb (IS_UNSIGNED t) && n_negative n then
    (m >? - INT_MIN t) || ((m =? - INT_MIN t) && match list.last (n_digits n) with Some d => negb (debase d =? 0) | None => false end)
  else m >? INT_MAX t.

Definition expected_errno (t : inttype) (n : numeral_at) : option Z :=
  if bool_decide (n_digits n = []) then Some EINVAL else if out_of_range t n then Some ERANGE else None.

Definition type_ok (t : inttype) : Prop :=
  INT_MIN t <= 0 < INT_MAX t /\ (if IS_UNSIGNED t then INT_MIN t = 0 else INT_MIN t < 0).

(** ** Digits *)

Lemma debase_range c : -1 <= debase c < 36.
Proof. unfold debase. repeat (match goal with |- context [if ?b then _ else _] => destruct b eqn:? end); lia. Qed.

Lemma s8_eqb b k : is_u8 b -> 0 <= k < 128 -> (s8 b =? k) = (b =? k).
Proof. unfold is_u8, s8. intros Hb Hk. destruct (Z.ltb_spec b 128); [done|]. rewrite !(proj2 (Z.eqb_neq _ _)) by lia. done. Qed.

Lemma debase_s8 b : is_u8 b -> debase (s8 b) = debase b.
Proof.
  unfold is_u8, s8. intros Hb. destruct (Z.ltb_spec b 128); [done|]. unfold debase.
  rewrite !(proj2 (Z.leb_gt _ (b - 256))), !(proj2 (Z.leb_gt b _)) by lia. by rewrite !andb_false_r.
Qed.

Section digits.
Context (t : inttype) (Ht : type_ok t) (base : Z) (Hbase : 2 <= base).

Definition progress_step (neg : bool) (p : progress) (d : Z) : progress :=
  if p_overflow p then mk_progress (p_result p) (u32 (p_converted p + 1)) true
  else
    let '(r, o) := add_digit t neg (if neg then INT_MIN t else INT_MAX t) base (debase d) (p_result p) in
    mk_progress r (u32 (p_converted p + 1)) o.

Definition progress_of (neg : bool) (ds : list Z) : progress := foldl (progress_step neg) (mk_progress 0 0 false) ds.

Lemma magnitude_snoc ds d : magnitude base (ds ++ [d]) = magnitude base ds * base + debase d.
Proof. unfold magnitude. by rewrite foldl_app. Qed.

Lemma magnitude_nonneg ds : Forall (fun d => is_digit base d = true) ds -> 0 <= magnitude base ds.
Proof.
  induction ds as [|d ds IH] using rev_ind; [done|]. intros [Hds [Hd _]%list.Forall_cons]%list.Forall_app. rewrite magnitude_snoc.
  specialize (IH Hds). unfold is_digit in Hd. nia.
Qed.

Lemma converted_of neg ds : Z.of_nat (length ds) < 2 ^ 32 -> p_converted (progress_of neg ds) = Z.of_nat (length ds).
Proof.
  induction ds as [|d ds IH] using rev_ind; [done|]. unfold progress_of. rewrite foldl_app. fold (progress_of neg ds). cbn [foldl]. rewrite length_app. simpl length.
  intros Hl. unfold progress_step. destruct (p_overflow _); [|destruct (add_digit _ _ _ _ _ _)]; cbn [p_converted]; rewrite IH by lia; rewrite u32_small; unfold is_u32; lia.
Qed.

Lemma progress_positive ds : Forall (fun d => is_digit base d = true) ds -> let m := magnitude base ds in
  p_result (progress_of false ds) = Z.min (INT_MAX t) m /\ p_overflow (progress_of false ds) = (m >? INT_MAX t).
Proof.
  destruct Ht as [Hb _]. induction ds as [|d ds IH] using rev_ind; intros Hds m.
  { cbn. rewrite Z.min_r by lia. split; [done|]. symmetry. unfold m. cbn. destruct (Z.gtb_spec 0 (INT_MAX t)); [lia|done]. }
  pose proof Hds as [Hds' [Hd _]%list.Forall_cons]%list.Forall_app. specialize (IH Hds'). cbn zeta in IH. destruct IH as [Hr Ho].
  pose proof (magnitude_nonneg ds Hds') as Hm0. unfold is_digit in Hd. unfold m. rewrite magnitude_snoc. unfold progress_of. rewrite foldl_app. fold (progress_of false ds). cbn [foldl].
  set (M := magnitude base ds) in *. assert (M <= M * base) by nia. unfold progress_step, add_digit, fits. rewrite Ho, Hr. destruct (Z.gtb_spec M (INT_MAX t)); cbn [p_result p_overflow].
  - split; [lia|]. destruct (Z.gtb_spec (M * base + debase d) (INT_MAX t)); [done|lia].
  - rewrite Z.min_r by lia. rewrite (proj2 (Z.leb_le (INT_MIN t) (M * base))) by lia. cbn [andb]. destruct (Z.leb_spec (M * base) (INT_MAX t)); cbn [negb].
    + destruct (Z.eqb_spec (debase d) 0) as [->|]; cbn [p_result p_overflow andb].
      * rewrite Z.add_0_r. split; [lia|]. destruct (Z.gtb_spec (M * base) (INT_MAX t)); [lia|done].
      * destruct (Z.leb_spec (debase d) (INT_MAX t - M * base)); cbn [p_result p_overflow]; (split; [lia|]); destruct (Z.gtb_spec (M * base + debase d) (INT_MAX t)); done || lia.
    + cbn [p_result p_overflow]. split; [lia|]. destruct (Z.gtb_spec (M * base + debase d) (INT_MAX t)); [done|lia].
Qed.

Definition too_low (ds : list Z) : bool := let m := magnitude base ds in
  (m >? - INT_MIN t) || ((m =? - INT_MIN t) && match list.last ds with Some d => negb (debase d =? 0) | None => false end).

Lemma progress_negative ds : INT_MIN t < 0 -> Forall (fun d => is_digit base d = true) ds ->
  p_result (progress_of true ds) = Z.max (INT_MIN t) (- magnitude base ds) /\ p_overflow (progress_of true ds) = too_low ds.
Proof.
  destruct Ht as [Hb _]. intros Hmin. induction ds as [|d ds IH] using rev_ind; intros Hds.
  { cbn. split; [lia|]. unfold too_low. cbn. rewrite andb_false_r, orb_false_r. destruct (Z.gtb_spec 0 (- INT_MIN t)); [lia|done]. }
  pose proof Hds as [Hds' [Hd _]%list.Forall_cons]%list.Forall_app. destruct (IH Hds') as [Hr Ho].
  pose proof (magnitude_nonneg ds Hds') as Hm0. unfold is_digit in Hd. unfold too_low in *. rewrite magnitude_snoc, list.last_snoc. unfold progress_of. rewrite foldl_app. fold (progress_of true ds). cbn [foldl].
  set (M := magnitude base ds) in *. assert (2 * M <= M * base) by nia. unfold progress_step, add_digit, fits, wrap_unsigned. rewrite Ho, Hr.
  destruct (Z.gtb_spec M (- INT_MIN t)); cbn [orb p_result p_overflow].
  { split; [lia|]. destruct (Z.gtb_spec (M * base + debase d) (- INT_MIN t)); [done|lia]. }
  destruct (_ && _) eqn:Eo; cbn [p_result p_overflow].
  { split; [lia|]. destruct (Z.gtb_spec (M * base + debase d) (- INT_MIN t)); [done|lia]. }
  rewrite Z.max_r by lia. replace (- M * base) with (- (M * base)) by lia. rewrite (proj2 (Z.leb_le (- (M * base)) (INT_MAX t))) by lia. rewrite andb_true_r.
  destruct (Z.leb_spec (INT_MIN t) (- (M * base))); cbn [negb p_result p_overflow].
  2: { split; [lia|]. destruct (Z.gtb_spec (M * base + debase d) (- INT_MIN t)); [done|lia]. }
  destruct (Z.eqb_spec (debase d) 0) as [->|]; cbn [p_result p_overflow andb negb].
  { rewrite Z.add_0_r, andb_false_r. split; [lia|]. destruct (Z.gtb_spec (M * base) (- INT_MIN t)); [lia|done]. }
  rewrite Z.mod_small by lia. rewrite andb_true_r.
  destruct (Z.ltb_spec (debase d) (- (M * base) - INT_MIN t)); cbn [p_result p_overflow]; (split; [lia|]);
    destruct (Z.gtb_spec (M * base + debase d) (- INT_MIN t)), (Z.eqb_spec (M * base + debase d) (- INT_MIN t)); cbn; done || lia.
Qed.
End digits.

(** ** Reading the string *)

Section reading.
Context {S : Type} `{MemLaws S} (V : Z -> option Z) (R : rest_type (S:=S)) (HV : bytes_ok V).

Lemma reads_char a b : V a = Some b -> reads V R (load_char a) (s8 b).
Proof. intros Hb. eapply reads_bind; [by apply reads_load8|apply reads_ret]. Qed.

Lemma cstr_drop k : forall a l, cstr V a l -> (k <= length l)%nat -> cstr V (a + Z.of_nat k) (drop k l).
Proof.
  induction k as [|k IH]; intros a l Hc Hk; [by rewrite Z.add_0_r|]. destruct l as [|b l]; [simpl in Hk; lia|].
  destruct (cstr_next V HV _ _ _ Hc) as [_ Hc']. replace (a + Z.of_nat (Datatypes.S k)) with (a + 1 + Z.of_nat k) by lia. apply IH; [done|simpl in Hk; lia].
Qed.

Lemma cstr_u8 a l b : cstr V a l -> b ∈ l -> is_u8 b.
Proof. intros [Hc _] Hb. apply list_elem_of_lookup in Hb as [i Hi]. eapply HV, Hc, Hi. Qed.

Lemma skip_space_ok n : forall a l, cstr V a l -> (length l < n)%nat ->
  reads V R (skip_space n a) (a + Z.of_nat (span (fun c => negb (isspace c)) l)).
Proof.
  induction n as [|n IH]; intros a l Hc Hn; [lia|]. cbn [skip_space]. destruct l as [|b l].
  - eapply reads_bind; [by apply reads_load8, cstr_nil|]. cbn. rewrite Z.add_0_r. apply reads_ret.
  - destruct (cstr_tail _ _ _ _ Hc) as (Hb & _ & _). eapply reads_bind; [by apply reads_load8|]. cbn [span].
    destruct (isspace b); cbn [negb]; [|rewrite Z.add_0_r; apply reads_ret]. destruct (cstr_next V HV _ _ _ Hc) as [-> Hc'].
    replace (a + Z.of_nat (Datatypes.S (span (fun c => negb (isspace c)) l))) with (a + 1 + Z.of_nat (span (fun c => negb (isspace c)) l)) by lia.
    apply IH; [done|simpl in Hn; lia].
Qed.

(** The character at [a], NUL at the end of the string. *)
Lemma reads_first a l : cstr V a l -> reads V R (load_char a) (s8 (hd 0 (l ++ [0]))).
Proof. intros Hc. by apply reads_char, cstr_hd. Qed.

Lemma first_u8 a l : cstr V a l -> is_u8 (hd 0 (l ++ [0])).
Proof. intros Hc. by eapply HV, cstr_hd. Qed.

Lemma is_digit_s8 base b : is_u8 b -> (0 <=? debase (s8 b)) && (debase (s8 b) <? base) = is_digit base b.
Proof. intros Hb. by rewrite debase_s8. Qed.

Lemma octal_prefix_ok a l : cstr V a l -> reads V R (octal_prefix a) (has_octal l).
Proof.
  intros Hc. unfold octal_prefix. eapply reads_bind; [by apply reads_first|]. rewrite s8_eqb by (by eapply first_u8 || lia).
  destruct l as [|c0 l]; [apply reads_ret|]. cbn [hd app has_octal]. destruct (cstr_next V HV _ _ _ Hc) as [-> Hc1].
  destruct (c0 =? 48); cbn [negb]; [|destruct l; apply reads_ret]. eapply reads_bind; [by apply reads_first|].
  rewrite is_digit_s8 by (by eapply first_u8). destruct l; apply reads_ret.
Qed.

Lemma hex_prefix_ok a l : cstr V a l -> reads V R (hex_prefix a) (has_hex l).
Proof.
  intros Hc. unfold hex_prefix. eapply reads_bind; [by apply reads_first|]. rewrite s8_eqb by (by eapply first_u8 || lia).
  destruct l as [|c0 l]; [apply reads_ret|]. cbn [hd app has_hex]. destruct (cstr_next V HV _ _ _ Hc) as [Ha Hc1].
  assert (u32 (a + 2) = u32 (a + 1 + 1)) as Ha2 by (f_equal; lia). rewrite Ha, Ha2.
  destruct (c0 =? 48); cbn [negb andb]; [|destruct l as [|? [|? ?]]; apply reads_ret]. eapply reads_bind; [by apply reads_first|].
  rewrite !s8_eqb by (by eapply first_u8 || lia). destruct l as [|c1 l]; [apply reads_ret|]. cbn [hd app].
  destruct (cstr_next V HV _ _ _ Hc1) as [-> Hc2]. destruct ((c1 =? 120) || (c1 =? 88)); cbn [negb andb]; [|destruct l; apply reads_ret].
  eapply reads_bind; [by apply reads_first|]. rewrite is_digit_s8 by (by eapply first_u8). destruct l; apply reads_ret.
Qed.

Definition digits_of (base : Z) (l : list Z) : list Z := take (span (fun c => negb (is_digit base c)) l) l.

Lemma digits_of_ok base l : Forall (fun d => is_digit base d = true) (digits_of base l).
Proof.
  unfold digits_of. induction l as [|c l IH]; cbn [span]; [constructor|]. destruct (is_digit base c) eqn:E; cbn [negb]; constructor; done.
Qed.

Lemma digits_loop_ok t neg base n : forall a l p, cstr V a l -> (length l < n)%nat ->
  reads V R (digits_loop t n neg (if neg then INT_MIN t else INT_MAX t) base a p)
    (a + Z.of_nat (length (digits_of base l)), foldl (progress_step t base neg) p (digits_of base l)).
Proof.
  induction n as [|n IH]; intros a l p Hc Hn; [lia|]. cbn [digits_loop]. unfold digits_of. destruct l as [|c l].
  - eapply reads_bind; [by apply reads_first|]. cbn. rewrite Z.add_0_r. apply reads_ret.
  - destruct (cstr_tail _ _ _ _ Hc) as (Hb & Hc0 & _). pose proof (cstr_u8 _ _ c Hc ltac:(left)) as Hu.
    eapply reads_bind; [by apply reads_char|]. rewrite s8_eqb by (done || lia). rewrite (proj2 (Z.eqb_neq _ _) Hc0), debase_s8 by done. cbn [span].
    replace ((debase c <? 0) || (base <=? debase c)) with (negb (is_digit base c)) by (unfold is_digit; lia).
    destruct (is_digit base c); cbn [negb take length foldl]; [|rewrite Z.add_0_r; apply reads_ret].
    destruct (cstr_next V HV _ _ _ Hc) as [-> Hc']. fold (digits_of base l).
    replace (a + Z.of_nat (Datatypes.S (length (digits_of base l)))) with (a + 1 + Z.of_nat (length (digits_of base l))) by lia.
    assert (length l < n)%nat as Hn' by (simpl in Hn; lia). unfold progress_step at 2. destruct (p_overflow p); [by apply IH|].
    destruct (add_digit _ _ _ _ _ _) as [r o]. by apply IH.
Qed.
End reading.

(** ** The conversion *)

Section conversion.
Context {S : Type} `{MemLaws S} (V : Z -> option Z) (R : rest_type (S:=S)) (HV : bytes_ok V).

(** Memory once [*end_ptr = e] is done. *)
Definition with_end (end_ptr e x : Z) : option Z := if negb (end_ptr =? 0) && in_range end_ptr 4 x then Some (byte_of e (x - end_ptr)) else V x.

Lemma store_end_ok end_ptr e s : sees V R s -> (end_ptr <> 0 -> owns s end_ptr 4) ->
  exists s', store_end end_ptr e s = Ok (tt, s') /\ sees (with_end end_ptr e) R s'.
Proof.
  intros (Hok & Hr & Hv) Ho. unfold store_end, with_end. destruct (Z.eqb_spec end_ptr 0) as [->|Hne]; cbn [negb mwhen andb]; [exists s; split; [done|]; done|].
  destruct (store32_law s end_ptr e Hok) as (s' & E & Hok' & Hr' & Hv'); [intros k Hk; apply (Ho Hne); lia|].
  exists s'. split; [done|]. split; [done|]. split; [congruence|]. intros x. rewrite Hv'. fold (in_range end_ptr 4 x). by destruct (in_range end_ptr 4 x).
Qed.

Lemma prefix_ok base a l : cstr V a l ->
  reads V R (if base =? 0 then h ← hex_prefix a; if h : bool then mret (u32 (a + 2), 16)
               else o ← octal_prefix a; if o : bool then mret (u32 (a + 1), 8) else mret (a, 10)
             else if base =? 16 then h ← hex_prefix a; if h : bool then mret (u32 (a + 2), base) else mret (a, base)
             else mret (a, base))
    (a + Z.of_nat (prefix_of base l).1, (prefix_of base l).2) /\ ((prefix_of base l).1 <= length l)%nat.
Proof.
  intros Hc. unfold prefix_of. assert (has_hex l = true -> u32 (a + 2) = a + 2 /\ (2 <= length l)%nat) as Hh.
  { intros Hx. destruct l as [|? [|? ?]]; try done. split; [|simpl; lia]. apply u32_small. apply (cstr_u32 V HV a _ 2 Hc). simpl. lia. }
  assert (has_octal l = true -> u32 (a + 1) = a + 1 /\ (1 <= length l)%nat) as Ho.
  { intros Hx. destruct l as [|? ?]; try done. split; [|simpl; lia]. apply u32_small. apply (cstr_u32 V HV a _ 1 Hc). simpl. lia. }
  destruct (base =? 0).
  - destruct (has_hex l) eqn:Eh; [destruct (Hh eq_refl) as [Ex ?]|destruct (has_octal l) eqn:Eo; [destruct (Ho eq_refl) as [Ex ?]|]];
      (split; [|cbn [fst]; lia]); (eapply reads_bind; [by apply hex_prefix_ok|rewrite Eh]); [rewrite Ex; apply reads_ret|..];
      (eapply reads_bind; [by apply octal_prefix_ok|rewrite Eo]); cbn [fst snd]; rewrite ?Ex, ?Z.add_0_r; apply reads_ret.
  - destruct (Z.eqb_spec base 16) as [->|]; cbn [andb fst snd]; [|split; [rewrite Z.add_0_r; apply reads_ret|lia]].
    destruct (has_hex l) eqn:Eh; [destruct (Hh eq_refl) as [Ex ?]|]; (split; [|cbn [fst]; lia]);
      (eapply reads_bind; [by apply hex_prefix_ok|rewrite Eh]); cbn [fst snd]; rewrite ?Ex, ?Z.add_0_r; apply reads_ret.
Qed.

Lemma prefix_base base l : base = 0 \/ 2 <= base <= 36 -> 2 <= (prefix_of base l).2.
Proof. intros Hb. unfold prefix_of. destruct (Z.eqb_spec base 0), (has_hex l), (has_octal l), (base =? 16); cbn; lia. Qed.

(** The sign: whether it is there, and whether it is a minus. *)
Lemma sign_ok a l : cstr V a l -> let c := s8 (hd 0 (l ++ [0])) in
  let j := if match l with c :: _ => (c =? 45) || (c =? 43) | [] => false end then 1%nat else O in
  (c =? 45) = match l with c :: _ => c =? 45 | [] => false end /\
  (if (c =? 45) || (c =? 43) then u32 (a + 1) else a) = a + Z.of_nat j /\ (j <= length l)%nat.
Proof.
  intros Hc c j. unfold c. rewrite !s8_eqb by (by eapply first_u8 || lia). unfold j. destruct l as [|b l]; [cbn; split; [done|]; split; lia|].
  cbn [hd app]. destruct (cstr_next V HV _ _ _ Hc) as [-> _]. split; [done|]. destruct ((b =? 45) || (b =? 43)); cbn [length]; lia.
Qed.

Lemma result_ok t n : type_ok t -> 2 <= n_base n -> Forall (fun d => is_digit (n_base n) d = true) (n_digits n) ->
  let p := progress_of t (n_base n) (negb (IS_UNSIGNED t) && n_negative n) (n_digits n) in
  (if IS_UNSIGNED t && n_negative n then if p_overflow p then INT_MAX t else wrap_unsigned t (- p_result p) else p_result p) = clamped t n /\
  p_overflow p = out_of_range t n.
Proof.
  intros Ht Hb Hd p. unfold p, clamped, out_of_range, wrap_unsigned. pose proof Ht as [Hm Hu]. pose proof (magnitude_nonneg (n_base n) Hb (n_digits n) Hd) as Hm0.
  destruct (IS_UNSIGNED t) eqn:Et; cbn [negb andb].
  - destruct (progress_positive t Ht (n_base n) Hb (n_digits n) Hd) as [-> ->]. split; [|done]. rewrite Hu, Z.sub_0_r.
    destruct (Z.gtb_spec (magnitude (n_base n) (n_digits n)) (INT_MAX t)), (Z.ltb_spec (INT_MAX t) (magnitude (n_base n) (n_digits n))); try lia;
      (destruct (n_negative n); [|lia]); [done|]. by rewrite Z.min_r by lia.
  - destruct (n_negative n).
    + destruct (progress_negative t Ht (n_base n) Hb (n_digits n) Hu Hd) as [-> ->]. split; [lia|done].
    + destruct (progress_positive t Ht (n_base n) Hb (n_digits n) Hd) as [-> ->]. split; [lia|done].
Qed.

Lemma STRTOL_ok t fuel a end_ptr base l s : type_ok t -> sees V R s -> cstr V a l -> (length l < fuel)%nat -> base = 0 \/ 2 <= base <= 36 ->
  (end_ptr <> 0 -> owns s end_ptr 4) -> let n := parse base l in
  let e := if bool_decide (n_digits n = []) then a else a + Z.of_nat (n_skip n + length (n_digits n)) in
  exists s', STRTOL t fuel a end_ptr base s = Ok ((clamped t n, expected_errno t n), s') /\ sees (with_end end_ptr e) R s'.
Proof.
  intros Ht Hs Hc Hf Hb Ho n e. unfold STRTOL. replace ((base <? 0) || (base =? 1) || (36 <? base)) with false by lia.
  assert (forall s', sees V R s' -> end_ptr <> 0 -> owns s' end_ptr 4) as Ho'.
  { intros s' Hs' Hne x Hx. rewrite (proj2 (proj2 Hs')), <- (proj2 (proj2 Hs)). by apply Ho. }
  destruct ((skip_space_ok V R HV fuel a l Hc Hf) s Hs) as (s1 & E1 & Hs1). rewrite (bind_step _ _ _ _ _ E1).
  set (k := span (fun c => negb (isspace c)) l) in *. pose proof (span_le (fun c => negb (isspace c)) l : (k <= length l)%nat) as Hk.
  pose proof (cstr_drop V HV k a l Hc Hk) as Hc1. set (l1 := drop k l) in *.
  destruct ((reads_first V R _ _ Hc1) s1 Hs1) as (s2 & E2 & Hs2). rewrite (bind_step _ _ _ _ _ E2). cbn beta.
  destruct (sign_ok _ _ Hc1) as (-> & -> & Hj). set (j := if match l1 with c :: _ => (c =? 45) || (c =? 43) | [] => false end then 1%nat else O) in *.
  pose proof (cstr_drop V HV j _ _ Hc1 Hj) as Hc2. destruct (prefix_ok base _ _ Hc2) as [Hp Hpl]. pose proof (prefix_base base (drop j l1) Hb) as Hpb.
  destruct (Hp s2 Hs2) as (s3 & E3 & Hs3). rewrite (bind_step _ _ _ _ _ E3). cbn beta iota.
  assert (n = mk_numeral (match l1 with c :: _ => c =? 45 | [] => false end) (prefix_of base (drop j l1)).2 (k + j + (prefix_of base (drop j l1)).1)
    (digits_of (prefix_of base (drop j l1)).2 (drop (prefix_of base (drop j l1)).1 (drop j l1)))) as En.
  { unfold n, parse. fold k l1 j. by destruct (prefix_of base (drop j l1)). }
  pose proof (cstr_drop V HV _ _ _ Hc2 Hpl) as Hc3. set (b := (prefix_of base (drop j l1)).2) in *. set (pre := (prefix_of base (drop j l1)).1) in *.
  set (neg := negb (IS_UNSIGNED t) && match l1 with c :: _ => c =? 45 | [] => false end).
  assert (length (drop pre (drop j l1)) < fuel)%nat as Hf3 by (unfold l1; rewrite !length_drop; lia).
  destruct ((digits_loop_ok V R HV t neg b fuel _ _ (mk_progress 0 0 false) Hc3 Hf3) s3 Hs3) as (s4 & E4 & Hs4). rewrite (bind_step _ _ _ _ _ E4).
  cbn beta iota. set (ds := digits_of b (drop pre (drop j l1))) in *. fold (progress_of t b neg ds).
  assert (Z.of_nat (length ds) < 2 ^ 32) as Hds.
  { pose proof (cstr_u32 V HV a l (length l) Hc ltac:(lia)) as Hu. pose proof (cstr_u32 V HV a l 0 Hc ltac:(lia)) as Hu0. unfold is_u32 in Hu, Hu0.
    enough (length ds <= length l)%nat by lia. unfold ds, digits_of, l1. rewrite length_take, !length_drop. lia. }
  rewrite (converted_of t b neg ds Hds). destruct (result_ok t n Ht) as [Hres Hov]; [rewrite En; done|rewrite En; apply digits_of_ok|].
  rewrite En in Hres, Hov. cbn [n_base n_digits n_negative] in Hres, Hov. fold neg in Hres, Hov. fold ds in Hres, Hov. rewrite <- En in Hres, Hov.
  rewrite Hov. rewrite Hov in Hres. unfold expected_errno. rewrite En. cbn [n_digits]. fold ds. rewrite <- En.
  destruct (bool_decide (ds = [])) eqn:Ed.
  - apply bool_decide_eq_true in Ed. rewrite Ed. change (Z.of_nat (length []) =? 0) with true. cbv iota.
    destruct (store_end_ok end_ptr a s4 Hs4 (Ho' s4 Hs4)) as (s5 & E5 & Hs5). exists s5. rewrite (bind_step _ _ _ _ _ E5). split; [by rewrite Ed in Hres; rewrite <- Hres|].
    unfold e. rewrite En. cbn [n_digits]. fold ds. by rewrite Ed.
  - apply bool_decide_eq_false in Ed as Ed'. rewrite (proj2 (Z.eqb_neq _ _)) by (destruct ds; [done|simpl; lia]).
    destruct (store_end_ok end_ptr e s4 Hs4 (Ho' s4 Hs4)) as (s5 & E5 & Hs5). exists s5. split; [|done].
    replace (a + Z.of_nat k + Z.of_nat j + Z.of_nat pre + Z.of_nat (length ds)) with e by (unfold e; rewrite En; cbn [n_digits n_skip]; fold ds; rewrite Ed; lia).
    rewrite (bind_step _ _ _ _ _ E5). by rewrite <- Hres.
Qed.
End conversion.

(** What a conversion of the string [l] at [a] returns, stores in [errno] and in
    [*end_ptr]. *)
Definition conversion (t : inttype) (base : Z) (l : list Z) (a : Z) : Z * option Z * Z :=
  if (base <? 0) || (base =? 1) || (36 <? base) then (0, Some EINVAL, a)
  else
    let n := parse base l in
    (clamped t n, expected_errno t n, if bool_decide (n_digits n = []) then a else a + Z.of_nat (n_skip n + length (n_digits n))).

Definition yields {S} `{MemLaws S} (s : S) (m : M S (Z * option Z)) (end_ptr : Z) (r : Z * option Z * Z) : Prop :=
  exists s', m s = Ok (r.1, s') /\ leaves s s' (with_end (view s) end_ptr r.2).

Lemma STRTOL_yields {S} `{MemLaws S} (s : S) t fuel a end_ptr base l : type_ok t -> mem_ok s -> cstr (view s) a l -> (length l < fuel)%nat ->
  (end_ptr <> 0 -> owns s end_ptr 4) -> yields s (STRTOL t fuel a end_ptr base) end_ptr (conversion t base l a).
Proof.
  intros Ht Hok Hc Hf Ho. assert (sees (view s) (rest s) s) as Hs by done. pose proof (view_bytes s Hok) as HV. unfold conversion.
  destruct ((base <? 0) || (base =? 1) || (36 <? base)) eqn:Eb.
  - unfold STRTOL. destruct (store_end_ok (view s) (rest s) end_ptr a s Hs Ho) as (s' & E & Hs'). exists s'. split; [|exact Hs'].
    rewrite Eb. by rewrite (bind_step _ _ _ _ _ E).
  - destruct (STRTOL_ok (view s) (rest s) HV t fuel a end_ptr base l s Ht Hs Hc Hf) as (s' & E & Hs'); [lia|done|]. by exists s'.
Qed.

(** C25: [strtol], [strtoul], [strtoll] and [strtoull] on every string and base:
    white space, sign and the [0x] or [0] prefix are skipped as the base says,
    the longest run of digits is converted, and the result is its value clamped
    to the type (negated modulo the type for an unsigned one). [*end_ptr] is
    left behind the last digit, or at the start when there is none; [errno] is
    [EINVAL] for a bad base or no digit and [ERANGE] for a value outside the
    type. The least value of a signed type is the exception: it is returned,
    but with [ERANGE] whenever its last digit is not zero. *)
Theorem strtol_correct {S} `{MemLaws S} (s : S) (fuel : nat) (a end_ptr base : Z) (l : list Z) :
  mem_ok s -> cstr (view s) a l -> (length l < fuel)%nat -> (end_ptr <> 0 -> owns s end_ptr 4) ->
  yields s (strtol fuel a end_ptr base) end_ptr (conversion long_type base l a) /\
  yields s (strtoul fuel a end_ptr base) end_ptr (conversion ulong_type base l a) /\
  yields s (strtoll fuel a end_ptr base) end_ptr (conversion llong_type base l a) /\
  yields s (strtoull fuel a end_ptr base) end_ptr (conversion ullong_type base l a).
Proof. intros. split_and!; apply STRTOL_yields; try done; split; cbn; lia. Qed.

(** The string "-2147483648" at 1000 and room for the end pointer at 2000. *)
Definition strtol_example : flat :=
  list_to_map [(1000, 45); (1001, 50); (1002, 49); (1003, 52); (1004, 55); (1005, 52); (1006, 56); (1007, 51); (1008, 54); (1009, 52); (1010, 56); (1011, 0);
    (2000, 0); (2001, 0); (2002, 0); (2003, 0)].

(** The least [long] is converted, and reported as out of range. *)
Lemma strtol_correct_witness : exists s', strtol 12 1000 2000 10 strtol_example = Ok ((- 2 ^ 31, Some ERANGE), s') /\ view s' 2000 = Some 243.
Proof.
  destruct (strtol_correct strtol_example 12 1000 2000 10 [45; 50; 49; 52; 55; 52; 56; 51; 54; 52; 56]) as [(s' & E & L) _].
  - unfold mem_ok. cbn. unfold flat_ok, is_u32, is_u8. apply (bool_decide_unpack _). vm_compute. exact I.
  - split; [|reflexivity]. intros i b Hb. do 11 (destruct i as [|i]; [injection Hb as <-; split; [reflexivity|discriminate]|]). discriminate Hb.
  - cbn. lia.
  - intros _. apply (flat_owns _ _ 4). vm_compute. reflexivity.
  - exists s'. split; [exact E|]. rewrite (proj2 (proj2 L)). reflexivity.
Defined.
