(* ===== verification/Packet.v ===== *)
(** * Packet headers and the Internet checksum

    [net/net.c] ([packet_checksum_start] and the two checksums built on it) and
    the headers of [net/ip.c], [net/udp.c] and [net/tcp.c] that carry them. A
    packet is the list of its bytes; a field of a packed structure is a store at
    its offset, in the byte order of the machine. *)
From Stdlib Require Import ZArith Lia Bool.
From stdpp Require Import base list option.
From S2P Require Import Prelude Mem.

Open Scope Z_scope.

(** ** Byte order and fields *)

Definition htons (s : Z) : Z := Z.lor (Z.shiftl (Z.land s 0xFF) 8) (Z.shiftr (Z.land s 0xFF00) 8).
Definition htonl (l : Z) : Z :=
  Z.lor (Z.lor (Z.lor (Z.shiftl (Z.land l 0xFF) 24) (Z.shiftl (Z.land l 0xFF00) 8)) (Z.shiftr (Z.land l 0xFF0000) 8)) (Z.shiftr (Z.land l 0xFF000000) 24).
Definition ntohs : Z -> Z := htons.
Definition ntohl : Z -> Z := htonl.

Definition get8 (off : nat) (p : list Z) : Z := nth off p 0.
Definition put8 (off : nat) (v : Z) (p : list Z) : list Z := <[off := u8 v]> p.
Definition get16 (off : nat) (p : list Z) : Z := get8 off p + 256 * get8 (off + 1) p.
Definition put16 (off : nat) (v : Z) (p : list Z) : list Z := put8 (off + 1) (v / 256) (put8 off v p).
Definition put32 (off : nat) (v : Z) (p : list Z) : list Z := put16 (off + 2) (v / 65536) (put16 off v p).

(** Bits [lo, lo + width) of the byte at [off], a bit field. *)
Definition put_bits (off : nat) (lo width v : Z) (p : list Z) : list Z :=
  let b := get8 off p in
  put8 off (Z.lor (Z.land b (255 - (2 ^ width - 1) * 2 ^ lo)) ((v mod 2 ^ width) * 2 ^ lo)) p.

Definition put_bytes (off : nat) (bs : list Z) (p : list Z) : list Z := list_inserts off (u8 <$> bs) p.

(** ** Checksums *)

Definition CHECKSUM_MASK : Z := 0xFFFF.

(** [while (ibytes > 1) { checksum += *chunk; ... }] and the odd byte. *)
Fixpoint sum_chunks (packet : list Z) (checksum : Z) : Z :=
  match packet with
  | b0 :: b1 :: packet' => sum_chunks packet' (u32 (checksum + (b0 + 256 * b1)))
  | [b0] => u32 (checksum + b0)
  | [] => checksum
  end.

(** [while (checksum > CHECKSUM_MASK) checksum = (checksum & CHECKSUM_MASK) + (checksum >> 16);] *)
Fixpoint fold_carries (n : nat) (checksum : Z) : Z :=
  match n with
  | O => checksum
  | S n' => if CHECKSUM_MASK <? checksum then fold_carries n' (u32 (Z.land checksum CHECKSUM_MASK + Z.shiftr checksum 16)) else checksum
  end.

(** A 32-bit sum is below [2^16] after three rounds. *)
Definition carries : nat := 3.

Definition packet_checksum_start (packet : list Z) (size : Z) : Z := fold_carries carries (sum_chunks (take (Z.to_nat size) packet) 0).

Definition singular_checksum (packet : list Z) (size : Z) : Z := Z.land (lnot32 (packet_checksum_start packet size)) CHECKSUM_MASK.

Definition pseudo_header (source_ip dest_ip protocal segment_len : Z) : list Z :=
  put16 10 (htons segment_len) (put8 9 protocal (put8 8 0 (put32 4 (htonl dest_ip) (put32 0 (htonl source_ip) (replicate 12 0))))).

Definition transport_calculate_checksum (segment : list Z) (segment_len protocal source_ip dest_ip : Z) : Z :=
  let ip4_checksum_start := packet_checksum_start (pseudo_header source_ip dest_ip protocal segment_len) 12 in
  let udp_checksum_start := packet_checksum_start segment segment_len in
  let checksum := fold_carries carries (u32 (ip4_checksum_start + udp_checksum_start)) in
  Z.land (lnot32 checksum) CHECKSUM_MASK.

(** ** IPv4 *)

Definition EPROTO : Z := 71.
Definition IP4_TTL : Z := 0x80.
Definition IP4_HEADER : Z := 20.
Definition IP4_PROTOCAL_TCP : Z := 6.
Definition IP4_PROTOCAL_UDP : Z := 17.

Definition ip4_build_header (packet : list Z) (packet_size protocal source_ip dest_ip identification : Z) : list Z :=
  let p := put_bits 0 4 4 4 packet in
  let p := put_bits 0 0 4 5 p in
  let p := put8 1 0 p in
  let p := put16 2 (htons packet_size) p in
  let p := put16 4 (htonl identification) p in
  let p := put_bits 7 5 3 0 p in
  let p := put_bits 7 0 5 0 (put8 6 0 p) in
  let p := put8 8 IP4_TTL p in
  let p := put8 9 protocal p in
  let p := put32 12 (htonl source_ip) p in
  let p := put32 16 (htonl dest_ip) p in
  put16 10 (singular_checksum p IP4_HEADER) p.

(** The result and the packet, whose checksum field is put back. *)
Definition ip4_validate_header (ip : list Z) (protocal : Z) : Z * list Z :=
  let received_checksum := get16 10 ip in
  let p := put16 10 0 ip in
  let packet_checksum := singular_checksum p IP4_HEADER in
  let bad := negb (Z.shiftr (get8 0 p) 4 =? 4) || negb (Z.land (get8 0 p) 0xF =? 5) || negb (get8 9 p =? protocal) ||
             negb (received_checksum =? packet_checksum) in
  (if bad then - EPROTO else 0, put16 10 received_checksum p).

(** ** UDP *)

Definition udp_calculate_checksum (udp : list Z) (packet_len source_ip dest_ip : Z) : Z * list Z :=
  let p := put16 6 0 udp in (transport_calculate_checksum p packet_len IP4_PROTOCAL_UDP source_ip dest_ip, p).

Definition udp_validate_header (udp : list Z) (source_ip dest_ip : Z) : Z * list Z :=
  let received_checksum := get16 6 udp in
  if received_checksum =? 0 then (0, udp)
  else
    let '(packet_checksum, p) := udp_calculate_checksum udp (ntohs (get16 4 udp)) source_ip dest_ip in
    (if packet_checksum =? received_checksum then 0 else - EPROTO, put16 6 received_checksum p).

Definition udp_build_header (udp : list Z) (packet_len source_ip source_port dest_ip dest_port : Z) : list Z :=
  let p := put16 0 (htons source_port) udp in
  let p := put16 2 (htons dest_port) p in
  let p := put16 4 (htons packet_len) p in
  let '(c, p) := udp_calculate_checksum p packet_len source_ip dest_ip in
  put16 6 c p.

(** ** TCP *)

Definition TCPCB_FLAG_FIN : Z := 0x01.
Definition TCPCB_FLAG_SYN : Z := 0x02.
Definition TCPCB_FLAG_RST : Z := 0x04.
Definition TCPCB_FLAG_PSH : Z := 0x08.
Definition TCPCB_FLAG_ACK : Z := 0x10.
Definition TCPCB_FLAG_URG : Z := 0x20.

Definition TCP_HEADER : Z := 20.

Definition tcp_calculate_checksum (tcp : list Z) (tcp_len source_ip dest_ip : Z) : Z * list Z :=
  let p := put16 16 0 tcp in (transport_calculate_checksum p tcp_len IP4_PROTOCAL_TCP source_ip dest_ip, p).

Definition tcp_validate_header (tcp : list Z) (tcp_len source_ip dest_ip : Z) : Z * list Z :=
  let received_checksum := get16 16 tcp in
  let '(packet_checksum, p) := tcp_calculate_checksum tcp tcp_len source_ip dest_ip in
  (if packet_checksum =? received_checksum then 0 else - EPROTO, put16 16 received_checksum p).

Definition flag_bit (flags f : Z) : Z := if Z.land flags f =? 0 then 0 else 1.

Definition tcp_build_header (tcp : list Z) (source_ip source_port dest_ip dest_port seq_number ack_number flags window : Z)
    (options : list Z) (packet_len : Z) : outcome (list Z) :=
  let option_len := Z.of_nat (length options) in
  if negb (option_len mod 4 =? 0) then Fail Assert
  else
    let p := put16 0 (htons source_port) tcp in
    let p := put16 2 (htons dest_port) p in
    let p := put32 4 (htonl seq_number) p in
    let p := put32 8 (htonl ack_number) p in
    let p := put_bits 12 4 4 ((TCP_HEADER + option_len) / 4) p in
    let p := put_bits 13 5 1 (flag_bit flags TCPCB_FLAG_URG) p in
    let p := put_bits 13 4 1 (flag_bit flags TCPCB_FLAG_ACK) p in
    let p := put_bits 13 3 1 (flag_bit flags TCPCB_FLAG_PSH) p in
    let p := put_bits 13 2 1 (flag_bit flags TCPCB_FLAG_RST) p in
    let p := put_bits 13 1 1 (flag_bit flags TCPCB_FLAG_SYN) p in
    let p := put_bits 13 0 1 (flag_bit flags TCPCB_FLAG_FIN) p in
    let p := put16 14 (htons window) p in
    let p := put16 16 0 p in
    let p := put16 18 0 p in
    let p := put_bytes 20 options p in
    let '(c, p) := tcp_calculate_checksum p packet_len source_ip dest_ip in
    Ok (put16 16 c p).

(** Case analysis on the integer tests of the goal. *)
Ltac zcase :=
  repeat match goal with
  | |- context [?a =? ?b] => destruct (Z.eqb_spec a b)
  | |- context [?a <? ?b] => destruct (Z.ltb_spec a b)
  end.

(** ** Fields *)

Definition u16_ok (w : Z) : Prop := 0 <= w < 65536.

Lemma length_put8 off v p : length (put8 off v p) = length p.
Proof. apply length_insert. Qed.

Lemma length_put16 off v p : length (put16 off v p) = length p.
Proof. unfold put16. by rewrite !length_put8. Qed.

Lemma length_put32 off v p : length (put32 off v p) = length p.
Proof. unfold put32. by rewrite !length_put16. Qed.

Lemma length_put_bits off lo w v p : length (put_bits off lo w v p) = length p.
Proof. apply length_put8. Qed.

Lemma length_put_bytes off bs p : length (put_bytes off bs p) = length p.
Proof. apply length_inserts. Qed.

Create HintDb packet.
Create Rewrite HintDb packet.
#[export] Hint Rewrite length_put8 length_put16 length_put32 length_put_bits length_put_bytes : packet.

Lemma get8_lookup off p b : p !! off = Some b -> get8 off p = b.
Proof. intros Hb. unfold get8. by rewrite nth_lookup, Hb. Qed.

Lemma get8_put8_eq off v p : (off < length p)%nat -> get8 off (put8 off v p) = u8 v.
Proof. intros Hl. apply get8_lookup. by apply list_lookup_insert_eq. Qed.

Lemma get8_put8_ne off o v p : off <> o -> get8 off (put8 o v p) = get8 off p.
Proof. intros Hne. unfold get8, put8. by rewrite !nth_lookup, list_lookup_insert_ne. Qed.

Lemma get8_put16_ne off o v p : off <> o -> off <> (o + 1)%nat -> get8 off (put16 o v p) = get8 off p.
Proof. intros. unfold put16. by rewrite !get8_put8_ne. Qed.

Lemma get8_put32_ne off o v p : (off < o \/ o + 4 <= off)%nat -> get8 off (put32 o v p) = get8 off p.
Proof. intros. unfold put32. by rewrite !get8_put16_ne by lia. Qed.

Lemma get16_put16_eq off v p : (off + 1 < length p)%nat -> u16_ok v -> get16 off (put16 off v p) = v.
Proof.
  intros Hl Hv. unfold get16, put16. rewrite get8_put8_ne by lia. rewrite !get8_put8_eq by (autorewrite with packet; lia).
  unfold u16_ok, u8 in *. Z.to_euclidean_division_equations. lia.
Qed.

Lemma put16_put16 off v w p : put16 off v (put16 off w p) = put16 off v p.
Proof.
  unfold put16, put8. rewrite (list_insert_insert_ne _ off (off + 1)) by lia. by rewrite !list_insert_insert_eq.
Qed.

Lemma get16_put16_ne off o v p : (off + 2 <= o \/ o + 2 <= off)%nat -> get16 off (put16 o v p) = get16 off p.
Proof. intros. unfold get16. by rewrite !get8_put16_ne by lia. Qed.

Lemma lor_shift_add a b k : 0 <= k -> 0 <= b < 2 ^ k -> Z.lor (Z.shiftl a k) b = a * 2 ^ k + b.
Proof.
  intros Hk Hb. rewrite <- Z.shiftl_mul_pow2 by lia.
  assert (Z.land (Z.shiftl a k) b = 0) as H0; [|by rewrite <- Z.lxor_lor, Z.add_nocarry_lxor].
  apply Z.bits_inj'. intros i Hi. rewrite Z.land_spec, Z.bits_0. destruct (Z.lt_ge_cases i k).
  - by rewrite Z.shiftl_spec_low.
  - rewrite <- (Z.mod_small b (2 ^ k)) by lia. rewrite Z.mod_pow2_bits_high by lia. apply andb_false_r.
Qed.

Lemma htons_bytes w : htons w = w mod 256 * 256 + (w / 256) mod 256.
Proof.
  unfold htons. rewrite Z.shiftr_land. change (Z.shiftr 0xFF00 8) with (Z.ones 8). change 0xFF with (Z.ones 8).
  rewrite !Z.land_ones, Z.shiftr_div_pow2 by lia. change (2 ^ 8) with 256.
  rewrite lor_shift_add; [done|lia|]. change (2 ^ 8) with 256. apply Z.mod_pos_bound. lia.
Qed.

Lemma htons_u16 w : u16_ok (htons w).
Proof. rewrite htons_bytes. unfold u16_ok. Z.to_euclidean_division_equations. lia. Qed.

Lemma htons_htons w : u16_ok w -> ntohs (htons w) = w.
Proof. intros Hw. unfold ntohs. rewrite !htons_bytes. unfold u16_ok in Hw. Z.to_euclidean_division_equations. lia. Qed.

(** ** The ones' complement sum *)

Definition sumZ : list Z -> Z := foldr Z.add 0.

(** The little-endian 16-bit words of a packet, an odd last byte padded with 0. *)
Fixpoint words (p : list Z) : list Z :=
  match p with
  | b0 :: b1 :: p' => b0 + 256 * b1 :: words p'
  | [b0] => [b0]
  | [] => []
  end.

(** The ones' complement sum of words whose sum is [c]. *)
Definition oc (c : Z) : Z := if c =? 0 then 0 else (c - 1) mod 65535 + 1.

Definition byte_ok (b : Z) : Prop := 0 <= b < 256.

Lemma pair_ind (P : list Z -> Prop) :
  P [] -> (forall b, P [b]) -> (forall b0 b1 p, P p -> P (b0 :: b1 :: p)) -> forall p, P p.
Proof. intros H0 H1 H2. fix IH 1. intros [|b0 [|b1 p]]; [done..|]. by apply H2, IH. Qed.

Lemma words_ok p : Forall byte_ok p -> Forall u16_ok (words p).
Proof.
  induction p as [|b|b0 b1 p IH] using pair_ind; intros H; [constructor| |].
  - apply Forall_inv in H. unfold byte_ok in H. repeat constructor; simpl; lia.
  - apply list.Forall_cons in H as [H0 H]. apply list.Forall_cons in H as [H1 H]. unfold byte_ok in *.
    constructor; [unfold u16_ok; lia|auto].
Qed.

Lemma length_words p : (2 * length (words p) <= length p + 1)%nat.
Proof. induction p as [|b|b0 b1 p IH] using pair_ind; simpl; lia. Qed.

Lemma sumZ_bound ws : Forall u16_ok ws -> 0 <= sumZ ws <= 65535 * Z.of_nat (length ws).
Proof. induction 1 as [|w ws Hw _ IH]; simpl in *; [lia|]. unfold u16_ok in Hw. lia. Qed.

Lemma sumZ_insert ws i w v : ws !! i = Some w -> sumZ (<[i := v]> ws) = sumZ ws - w + v.
Proof.
  revert i. induction ws as [|w' ws IH]; intros [|i] H; simpl in *; simplify_eq; [lia|].
  rewrite (IH i) by done. lia.
Qed.

Lemma sum_chunks_ok p c :
  Forall byte_ok p -> 0 <= c -> c + sumZ (words p) < 2 ^ 32 -> sum_chunks p c = c + sumZ (words p).
Proof.
  revert c. induction p as [|b|b0 b1 p IH] using pair_ind; intros c Hp Hc Hs; simpl in *; [lia| |].
  - apply Forall_inv in Hp. unfold byte_ok in Hp. unfold u32. rewrite Z.mod_small; lia.
  - apply list.Forall_cons in Hp as [H0 Hp]. apply list.Forall_cons in Hp as [H1 Hp]. unfold byte_ok in *.
    pose proof (sumZ_bound _ (words_ok _ Hp)).
    rewrite IH; unfold u32; rewrite ?Z.mod_small; try done; lia.
Qed.

Lemma oc_small c : 0 <= c <= 65535 -> oc c = c.
Proof. intros. unfold oc. zcase; [lia|]. rewrite Z.mod_small; lia. Qed.

Lemma oc_range c : 0 <= c -> 0 <= oc c <= 65535.
Proof. intros. unfold oc. zcase; [lia|]. pose proof (Z.mod_pos_bound (c - 1) 65535). lia. Qed.

Lemma oc_zero c : 0 <= c -> oc c = 0 -> c = 0.
Proof. intros Hc. unfold oc. zcase; [done|]. pose proof (Z.mod_pos_bound (c - 1) 65535). lia. Qed.

(** The end-around carry keeps the ones' complement sum. *)
Lemma oc_congr c d k : 0 < c -> 0 < d -> c = d + 65535 * k -> oc c = oc d.
Proof. intros Hc Hd ->. unfold oc. zcase; try lia. f_equal. replace (d + 65535 * k - 1) with (d - 1 + k * 65535) by lia. apply Z_mod_plus_full. Qed.

Lemma oc_inj c d : 0 <= c -> 0 <= d -> oc c = oc d -> (c - d) mod 65535 = 0.
Proof.
  intros Hc Hd. unfold oc. pose proof (Z.mod_pos_bound (c - 1) 65535 ltac:(lia)). pose proof (Z.mod_pos_bound (d - 1) 65535 ltac:(lia)).
  destruct (Z.eqb_spec c 0) as [->|]; destruct (Z.eqb_spec d 0) as [->|]; intros E; [done|lia|lia|].
  replace (c - d) with ((c - 1) - (d - 1)) by lia. rewrite Zminus_mod. replace ((c - 1) mod 65535) with ((d - 1) mod 65535) by lia.
  by rewrite Z.sub_diag.
Qed.

Lemma carry_step c : 0 <= c < 2 ^ 32 ->
  u32 (Z.land c CHECKSUM_MASK + Z.shiftr c 16) = c - 65535 * (c / 65536).
Proof.
  intros Hc. change CHECKSUM_MASK with (Z.ones 16). rewrite Z.land_ones, Z.shiftr_div_pow2 by lia.
  change (2 ^ 16) with 65536. unfold u32. rewrite Z.mod_small; Z.to_euclidean_division_equations; lia.
Qed.

(** Three rounds are enough: the loop of the source ends with the ones' complement sum. *)
Lemma fold_carries_ok c : 0 <= c < 2 ^ 32 -> fold_carries carries c = oc c.
Proof.
  intros Hc. cbn [fold_carries carries]. destruct (Z.ltb_spec CHECKSUM_MASK c) as [Hm|Hm]; unfold CHECKSUM_MASK in Hm; [|by rewrite oc_small by lia].
  rewrite carry_step by lia. set (d := c - 65535 * (c / 65536)).
  assert (0 < d <= 131070 /\ c = d + 65535 * (c / 65536)) as [Hd E] by (unfold d; Z.to_euclidean_division_equations; lia).
  rewrite (oc_congr c d (c / 65536)) by lia. clearbody d. destruct (Z.ltb_spec CHECKSUM_MASK d) as [Hm'|Hm']; unfold CHECKSUM_MASK in Hm'; [|by rewrite oc_small by lia].
  rewrite carry_step by lia. set (e := d - 65535 * (d / 65536)).
  assert (0 < e <= 65535 /\ d = e + 65535 * (d / 65536)) as [He E'] by (unfold e; Z.to_euclidean_division_equations; lia).
  rewrite (oc_congr d e (d / 65536)) by lia. clearbody e. rewrite (proj2 (Z.ltb_ge CHECKSUM_MASK e)) by (unfold CHECKSUM_MASK; lia). by rewrite oc_small by lia.
Qed.

Lemma oc_add a b : 0 <= a -> 0 <= b -> oc (oc a + oc b) = oc (a + b).
Proof.
  intros Ha Hb. assert (forall c, 0 <= c -> exists k, c = oc c + 65535 * k /\ (0 < c -> 0 < oc c)) as Hoc.
  { intros c Hc. unfold oc. zcase; [exists 0; lia|]. exists ((c - 1) / 65535).
    pose proof (Z.div_mod (c - 1) 65535). pose proof (Z.mod_pos_bound (c - 1) 65535). lia. }
  destruct (Hoc a Ha) as (k & Ea & Pa). destruct (Hoc b Hb) as (k' & Eb & Pb). pose proof (oc_range a Ha). pose proof (oc_range b Hb).
  destruct (Z.eq_dec (a + b) 0) as [E|E]; [by replace a with 0 by lia; replace b with 0 by lia|].
  symmetry. apply oc_congr with (k := k + k'); lia.
Qed.

(** A sum to which its complement is added is all ones. *)
Lemma oc_complement s : 0 <= s -> oc (s + (65535 - oc s)) = 65535.
Proof.
  intros Hs. pose proof (oc_range s Hs). destruct (Z.eq_dec s 0) as [->|Hne]; [done|].
  transitivity (oc 65535); [|done]. apply oc_congr with (k := (s - 1) / 65535); [lia..|].
  unfold oc. rewrite (proj2 (Z.eqb_neq s 0)) by done. pose proof (Z.div_mod (s - 1) 65535). lia.
Qed.

Lemma complement_ok x : 0 <= x <= 65535 -> Z.land (lnot32 x) CHECKSUM_MASK = 65535 - x.
Proof.
  intros Hx. change CHECKSUM_MASK with (Z.ones 16). rewrite Z.land_ones by lia. unfold lnot32, Z.lnot, u32.
  Z.to_euclidean_division_equations. lia.
Qed.

Lemma packet_checksum_start_ok p size :
  Forall byte_ok p -> 0 <= size < 65536 -> packet_checksum_start p size = oc (sumZ (words (take (Z.to_nat size) p))).
Proof.
  intros Hp Hs. unfold packet_checksum_start. set (q := take _ p).
  assert (Forall byte_ok q) as Hq by by apply Forall_take.
  assert (0 <= sumZ (words q) < 2 ^ 32).
  { pose proof (sumZ_bound _ (words_ok q Hq)). pose proof (length_words q). assert (length q <= Z.to_nat size)%nat by (unfold q; rewrite length_take; lia). lia. }
  rewrite sum_chunks_ok by (done || lia). rewrite Z.add_0_l. apply fold_carries_ok. lia.
Qed.

Lemma sumZ_words_nonneg p : Forall byte_ok p -> 0 <= sumZ (words p).
Proof. intros Hp. pose proof (sumZ_bound _ (words_ok p Hp)). lia. Qed.

Lemma singular_checksum_ok p size :
  Forall byte_ok p -> 0 <= size < 65536 -> singular_checksum p size = 65535 - oc (sumZ (words (take (Z.to_nat size) p))).
Proof.
  intros Hp Hs. unfold singular_checksum. rewrite packet_checksum_start_ok by done.
  apply complement_ok, oc_range, sumZ_words_nonneg. by apply Forall_take.
Qed.

(** ** Packets keep bytes *)

Lemma put8_byte_ok off v p : Forall byte_ok p -> Forall byte_ok (put8 off v p).
Proof. intros Hp. apply Forall_insert; [done|]. unfold byte_ok, u8. apply Z.mod_pos_bound. lia. Qed.

Lemma put16_byte_ok off v p : Forall byte_ok p -> Forall byte_ok (put16 off v p).
Proof. intros Hp. by do 2 apply put8_byte_ok. Qed.

Lemma put32_byte_ok off v p : Forall byte_ok p -> Forall byte_ok (put32 off v p).
Proof. intros Hp. by do 2 apply put16_byte_ok. Qed.

Lemma put_bits_byte_ok off lo w v p : Forall byte_ok p -> Forall byte_ok (put_bits off lo w v p).
Proof. apply put8_byte_ok. Qed.

Lemma put_bytes_byte_ok off bs p : Forall byte_ok p -> Forall byte_ok (put_bytes off bs p).
Proof.
  unfold put_bytes. revert off. induction bs as [|b bs IH]; intros off Hp; simpl; [done|].
  apply (put8_byte_ok off b), IH, Hp.
Qed.

#[export] Hint Opaque put8 put16 put32 put_bits put_bytes : packet.
#[export] Hint Resolve put8_byte_ok put16_byte_ok put32_byte_ok put_bits_byte_ok put_bytes_byte_ok : packet.

Lemma pseudo_header_ok src dst pr len : Forall byte_ok (pseudo_header src dst pr len).
Proof. assert (Forall byte_ok (replicate 12 0)) by (apply Forall_replicate; unfold byte_ok; lia). unfold pseudo_header. auto 10 with packet. Qed.

(** The sum the checksum of a segment is the complement of. *)
Definition segment_sum (segment : list Z) (segment_len protocal source_ip dest_ip : Z) : Z :=
  sumZ (words (pseudo_header source_ip dest_ip protocal segment_len)) + sumZ (words (take (Z.to_nat segment_len) segment)).

Lemma segment_sum_nonneg p len pr src dst : Forall byte_ok p -> 0 <= segment_sum p len pr src dst.
Proof.
  intros Hp. unfold segment_sum. pose proof (sumZ_words_nonneg _ (pseudo_header_ok src dst pr len)).
  pose proof (sumZ_words_nonneg _ (Forall_take _ (Z.to_nat len) _ Hp)). lia.
Qed.

Lemma transport_calculate_checksum_ok p len pr src dst :
  Forall byte_ok p -> 0 <= len < 65536 ->
  transport_calculate_checksum p len pr src dst = 65535 - oc (segment_sum p len pr src dst).
Proof.
  intros Hp Hl. pose proof (pseudo_header_ok src dst pr len) as Hh. unfold transport_calculate_checksum, segment_sum.
  rewrite !packet_checksum_start_ok by (done || lia).
  rewrite (firstn_all2 (pseudo_header src dst pr len)) by (unfold pseudo_header; autorewrite with packet; simpl; lia).
  set (a := sumZ (words (pseudo_header src dst pr len))). set (b := sumZ (words (take (Z.to_nat len) p))).
  assert (0 <= a) as Ha by by apply sumZ_words_nonneg. assert (0 <= b) as Hb by by apply sumZ_words_nonneg, Forall_take.
  pose proof (oc_range a Ha). pose proof (oc_range b Hb). unfold u32. rewrite Z.mod_small, fold_carries_ok, oc_add by lia.
  apply complement_ok, oc_range. lia.
Qed.

(** ** Fields and words *)

Lemma take_put16 n off v p : (off + 1 < n)%nat -> take n (put16 off v p) = put16 off v (take n p).
Proof. intros. unfold put16, put8. by rewrite !take_insert_lt by lia. Qed.

Lemma words_put16 i v p : (2 * i + 1 < length p)%nat -> u16_ok v -> words (put16 (2 * i) v p) = <[i := v]> (words p).
Proof.
  intros Hl Hv. revert i Hl. induction p as [|b|b0 b1 p IH] using pair_ind; intros i Hl; simpl in Hl; [lia|lia|].
  destruct i as [|i].
  - unfold put16, put8. simpl. f_equal. unfold u8, u16_ok in *. Z.to_euclidean_division_equations. lia.
  - replace (2 * S i)%nat with (S (S (2 * i))) by lia.
    change (put16 (S (S (2 * i))) v (b0 :: b1 :: p)) with (b0 :: b1 :: put16 (2 * i) v p). simpl. f_equal. apply IH. lia.
Qed.

Lemma words_lookup i p : (2 * i + 1 < length p)%nat -> words p !! i = Some (get16 (2 * i) p).
Proof.
  revert i. induction p as [|b|b0 b1 p IH] using pair_ind; intros i Hl; simpl in Hl; [lia|lia|].
  destruct i as [|i]; [done|]. replace (2 * S i)%nat with (S (S (2 * i))) by lia. simpl. rewrite IH by lia. done.
Qed.

Lemma sum_put16 n i v p : (2 * i + 1 < n)%nat -> (n <= length p)%nat -> u16_ok v ->
  sumZ (words (take n (put16 (2 * i) v p))) = sumZ (words (take n p)) - get16 (2 * i) p + v.
Proof.
  intros Hi Hn Hv. rewrite take_put16 by lia. assert (2 * i + 1 < length (take n p))%nat by (rewrite length_take; lia).
  rewrite words_put16 by done. rewrite (sumZ_insert _ i _ _ (words_lookup i _ ltac:(done))). unfold get16, get8.
  by rewrite !nth_lookup, !lookup_take_lt by lia.
Qed.

Lemma get16_put8_ne off o v p : (off <> o)%nat -> (off + 1 <> o)%nat -> get16 off (put8 o v p) = get16 off p.
Proof. intros. unfold get16. by rewrite !get8_put8_ne by lia. Qed.

Lemma get16_put_bits_ne off o lo w v p : (off <> o)%nat -> (off + 1 <> o)%nat -> get16 off (put_bits o lo w v p) = get16 off p.
Proof. apply get16_put8_ne. Qed.

Lemma get16_put32_ne off o v p : (off + 2 <= o \/ o + 4 <= off)%nat -> get16 off (put32 o v p) = get16 off p.
Proof. intros. unfold get16. by rewrite !get8_put32_ne by lia. Qed.

Lemma get16_put_bytes_ne off o bs p : (off + 2 <= o)%nat -> get16 off (put_bytes o bs p) = get16 off p.
Proof. intros. unfold get16, get8, put_bytes. by rewrite !nth_lookup, !list_lookup_inserts_lt by lia. Qed.

Lemma get8_put_bits_ne off o lo w v p : off <> o -> get8 off (put_bits o lo w v p) = get8 off p.
Proof. apply get8_put8_ne. Qed.

(** Reads a field through the stores of the other fields. *)
Ltac field := repeat first
  [ rewrite get16_put_bytes_ne by lia | rewrite get16_put16_ne by lia | rewrite get16_put32_ne by lia | rewrite get16_put_bits_ne by lia
  | rewrite get16_put8_ne by lia | rewrite get8_put16_ne by lia | rewrite get8_put32_ne by lia | rewrite get8_put_bits_ne by lia
  | rewrite get8_put8_ne by lia ].

Lemma get8_byte_ok off p : Forall byte_ok p -> byte_ok (get8 off p).
Proof.
  intros Hp. unfold get8. rewrite nth_lookup. destruct (p !! off) eqn:E; simpl; [|unfold byte_ok; lia].
  by eapply Forall_lookup_1.
Qed.

Lemma get16_u16_ok off p : Forall byte_ok p -> u16_ok (get16 off p).
Proof. intros Hp. pose proof (get8_byte_ok off p Hp). pose proof (get8_byte_ok (off + 1) p Hp). unfold get16, byte_ok, u16_ok in *. lia. Qed.

Lemma put16_get16 off p : Forall byte_ok p -> (off + 1 < length p)%nat -> put16 off (get16 off p) p = p.
Proof.
  intros Hp Hl. pose proof (get8_byte_ok off p Hp) as H0. pose proof (get8_byte_ok (off + 1) p Hp) as H1. unfold put16, put8, get16.
  destruct (lookup_lt_is_Some_2 p off) as [b0 E0]; [lia|]. destruct (lookup_lt_is_Some_2 p (off + 1)) as [b1 E1]; [lia|].
  rewrite (get8_lookup _ _ _ E0), (get8_lookup _ _ _ E1) in *. unfold byte_ok, u8 in *. change (2 ^ 8) with 256.
  replace ((b0 + 256 * b1) mod 256) with b0 by (Z.to_euclidean_division_equations; lia).
  replace ((b0 + 256 * b1) / 256 mod 256) with b1 by (Z.to_euclidean_division_equations; lia).
  rewrite (list_insert_id p off) by done. by apply list_insert_id.
Qed.

(** A test of all the bytes. *)
Lemma all_bytes (P : Z -> bool) b : forallb (fun n => P (Z.of_nat n)) (seq 0 256) = true -> byte_ok b -> P b = true.
Proof.
  intros H Hb. unfold byte_ok in Hb. rewrite forallb_forall in H. specialize (H (Z.to_nat b)). rewrite Z2Nat.id in H by lia.
  apply H, in_seq. lia.
Qed.

Lemma complement_u16 s : 0 <= s -> u16_ok (65535 - oc s).
Proof. intros Hs. pose proof (oc_range s Hs). unfold u16_ok. lia. Qed.

(** Storing the complement of the sum taken with a zero in word [i] completes the sum. *)
Lemma sealed_sum n i a p :
  Forall byte_ok p -> 0 <= a -> (2 * i + 1 < n)%nat -> (n <= length p)%nat ->
  let c := 65535 - oc (a + sumZ (words (take n (put16 (2 * i) 0 p)))) in
  oc (a + sumZ (words (take n (put16 (2 * i) c p)))) = 65535.
Proof.
  intros Hp Ha Hi Hn c. set (s := sumZ (words (take n (put16 (2 * i) 0 p)))) in c.
  assert (0 <= s) as Hs by (apply sumZ_words_nonneg, Forall_take; auto with packet).
  rewrite <- (put16_put16 (2 * i) c 0 p). rewrite sum_put16; [|done|by autorewrite with packet|apply complement_u16; lia].
  rewrite get16_put16_eq by (lia || unfold u16_ok; lia). fold s. replace (a + (s - 0 + c)) with (a + s + c) by lia.
  apply oc_complement. lia.
Qed.

(** ** Headers built by the kernel *)

(** The two bit fields of the first byte. *)
Lemma version_length b :
  byte_ok b ->
  let c := u8 (Z.lor (Z.land (u8 (Z.lor (Z.land b (255 - (2 ^ 4 - 1) * 2 ^ 4)) (4 mod 2 ^ 4 * 2 ^ 4))) (255 - (2 ^ 4 - 1) * 2 ^ 0)) (5 mod 2 ^ 4 * 2 ^ 0)) in
  (Z.shiftr c 4 =? 4) && (Z.land c 15 =? 5) = true.
Proof.
  apply (all_bytes (fun b =>
    let c := u8 (Z.lor (Z.land (u8 (Z.lor (Z.land b (255 - (2 ^ 4 - 1) * 2 ^ 4)) (4 mod 2 ^ 4 * 2 ^ 4))) (255 - (2 ^ 4 - 1) * 2 ^ 0)) (5 mod 2 ^ 4 * 2 ^ 0)) in
    (Z.shiftr c 4 =? 4) && (Z.land c 15 =? 5))).
  vm_compute. reflexivity.
Qed.

Lemma ip4_build_ok p size protocal src dst ident :
  Forall byte_ok p -> (20 <= length p)%nat -> get16 10 p = 0 -> byte_ok protocal ->
  let q := ip4_build_header p size protocal src dst ident in
  ip4_validate_header q protocal = (0, q) /\ oc (sumZ (words (take 20 q))) = 65535.
Proof.
  intros Hp Hl H0 Hpr. unfold ip4_build_header.
  set (p0 := put32 16 _ _).
  assert (Forall byte_ok p0) as Hp0 by (unfold p0; auto 20 with packet).
  assert (length p0 = length p) as Hl0 by (unfold p0; by autorewrite with packet).
  assert (get16 10 p0 = 0) as Hz by (unfold p0; field; done).
  assert (get8 9 p0 = protocal) as H9.
  { unfold p0. field. rewrite get8_put8_eq by (autorewrite with packet; lia). unfold u8, byte_ok in *. by rewrite Z.mod_small. }
  assert ((Z.shiftr (get8 0 p0) 4 =? 4) && (Z.land (get8 0 p0) 15 =? 5) = true) as Hv.
  { unfold p0. field. unfold put_bits. rewrite !get8_put8_eq by (autorewrite with packet; lia). by apply version_length, get8_byte_ok. }
  clearbody p0. assert (put16 10 0 p0 = p0) as Hself by (rewrite <- Hz at 1; apply put16_get16; [done|lia]).
  pose proof (singular_checksum_ok p0 IP4_HEADER Hp0 ltac:(unfold IP4_HEADER; lia)) as Hc.
  assert (u16_ok (singular_checksum p0 IP4_HEADER)) as Hu by (rewrite Hc; apply complement_u16, sumZ_words_nonneg; by apply Forall_take).
  apply andb_true_iff in Hv as [Hv1 Hv2]. unfold ip4_validate_header. cbv zeta. rewrite put16_put16, Hself, Hv1, Hv2, H9, Z.eqb_refl.
  rewrite get16_put16_eq by (done || lia). rewrite Z.eqb_refl. split; [done|].
  pose proof (sealed_sum 20 5 0 p0 Hp0 ltac:(lia) ltac:(lia) ltac:(lia)) as Hs. cbv zeta in Hs. change (2 * 5)%nat with 10%nat in Hs.
  rewrite Hself, !Z.add_0_l in Hs. rewrite Hc. exact Hs.
Qed.

(** The checksum field of a transport header is word [i]. *)
Lemma transport_sealed i p len pr src dst :
  Forall byte_ok p -> (2 * i + 1 < Z.to_nat len)%nat -> (Z.to_nat len <= length p)%nat -> len < 65536 ->
  let c := transport_calculate_checksum (put16 (2 * i) 0 p) len pr src dst in
  u16_ok c /\ get16 (2 * i) (put16 (2 * i) c p) = c /\ oc (segment_sum (put16 (2 * i) c p) len pr src dst) = 65535.
Proof.
  intros Hp Hi Hn Hl c. assert (Forall byte_ok (put16 (2 * i) 0 p)) as Hp' by auto with packet.
  assert (c = 65535 - oc (segment_sum (put16 (2 * i) 0 p) len pr src dst)) as Ec by (apply transport_calculate_checksum_ok; [done|lia]).
  assert (u16_ok c) as Hc by (rewrite Ec; apply complement_u16; by apply segment_sum_nonneg).
  split_and!; [done|by apply get16_put16_eq; [lia|]|]. rewrite Ec. unfold segment_sum.
  apply sealed_sum; [done|apply sumZ_words_nonneg, pseudo_header_ok|done|done].
Qed.

Lemma udp_build_ok p len src sport dst dport :
  Forall byte_ok p -> 8 <= len < 65536 -> (Z.to_nat len <= length p)%nat ->
  let q := udp_build_header p len src sport dst dport in
  udp_validate_header q src dst = (0, q) /\ oc (segment_sum q len IP4_PROTOCAL_UDP src dst) = 65535 /\
  ntohs (get16 4 q) = len /\ get16 0 q = htons sport /\ get16 2 q = htons dport.
Proof.
  intros Hp Hl Hn. unfold udp_build_header. set (p0 := put16 4 _ _). unfold udp_calculate_checksum.
  assert (Forall byte_ok p0) as Hp0 by (unfold p0; auto with packet).
  assert (length p0 = length p) as Hl0 by (unfold p0; by autorewrite with packet).
  destruct (transport_sealed 3 p0 len IP4_PROTOCAL_UDP src dst) as (Hc & Hg & Hs); [done|lia|lia|lia|].
  change (2 * 3)%nat with 6%nat in *. rewrite put16_put16. revert Hc Hg Hs. set (c := transport_calculate_checksum _ _ _ _ _). intros Hc Hg Hs.
  assert (get16 4 (put16 6 c p0) = htons len) as H4
    by (field; apply get16_put16_eq; [by autorewrite with packet; lia|apply htons_u16]).
  split_and!; [|done|by rewrite H4; apply htons_htons; unfold u16_ok; lia| |];
    try (unfold p0; field; apply get16_put16_eq; [by autorewrite with packet; lia|apply htons_u16]).
  unfold udp_validate_header. rewrite Hg, H4, htons_htons by (unfold u16_ok; lia). destruct (Z.eqb_spec c 0); [done|].
  unfold udp_calculate_checksum. rewrite put16_put16. fold c. by rewrite Z.eqb_refl, put16_put16.
Qed.

Lemma tcp_build_ok p len src sport dst dport seq ack flags window options :
  Forall byte_ok p -> 20 <= len < 65536 -> (Z.to_nat len <= length p)%nat -> Z.of_nat (length options) mod 4 = 0 ->
  exists q, tcp_build_header p src sport dst dport seq ack flags window options len = Ok q /\ length q = length p /\
    tcp_validate_header q len src dst = (0, q) /\ oc (segment_sum q len IP4_PROTOCAL_TCP src dst) = 65535 /\
    get16 0 q = htons sport /\ get16 2 q = htons dport /\ get16 14 q = htons window.
Proof.
  intros Hp Hl Hn Ho. unfold tcp_build_header. rewrite Ho. cbn [negb Z.eqb]. set (p0 := put_bytes 20 options _). unfold tcp_calculate_checksum.
  assert (Forall byte_ok p0) as Hp0 by (unfold p0; auto 20 with packet).
  assert (length p0 = length p) as Hl0 by (unfold p0; by autorewrite with packet).
  destruct (transport_sealed 8 p0 len IP4_PROTOCAL_TCP src dst) as (Hc & Hg & Hs); [done|lia|lia|lia|].
  change (2 * 8)%nat with 16%nat in *. rewrite put16_put16. revert Hc Hg Hs. set (c := transport_calculate_checksum _ _ _ _ _). intros Hc Hg Hs.
  exists (put16 16 c p0). split_and!; [done|by autorewrite with packet| |done|..];
    try (unfold p0; field; apply get16_put16_eq; [by autorewrite with packet; lia|apply htons_u16]).
  unfold tcp_validate_header, tcp_calculate_checksum. rewrite Hg, put16_put16. fold c. by rewrite Z.eqb_refl, put16_put16.
Qed.

(** ** Damaged packets *)

Lemma sum_changed a n i v p :
  Forall byte_ok p -> 0 <= a -> (2 * i + 1 < n)%nat -> (n <= length p)%nat -> u16_ok v -> (v - get16 (2 * i) p) mod 65535 <> 0 ->
  oc (a + sumZ (words (take n (put16 (2 * i) v p)))) <> oc (a + sumZ (words (take n p))).
Proof.
  intros Hp Ha Hi Hn Hv Hne E. pose proof (sumZ_words_nonneg _ (Forall_take _ n _ Hp)).
  pose proof (sumZ_words_nonneg (take n (put16 (2 * i) v p)) ltac:(apply Forall_take; auto with packet)).
  apply oc_inj in E; [|lia..]. rewrite sum_put16 in E by done. apply Hne. rewrite <- E. f_equal. lia.
Qed.

Lemma put16_comm i j v w p : i <> j -> put16 (2 * i) v (put16 (2 * j) w p) = put16 (2 * j) w (put16 (2 * i) v p).
Proof.
  intros Hij. unfold put16, put8. rewrite (list_insert_insert_ne _ (2 * i) (2 * j + 1)) by lia.
  rewrite (list_insert_insert_ne _ (2 * i + 1) (2 * j + 1)) by lia. f_equal.
  rewrite (list_insert_insert_ne _ (2 * i) (2 * j)) by lia. by rewrite (list_insert_insert_ne _ (2 * i + 1) (2 * j)) by lia.
Qed.

(** A change of the word [i] of a packet whose field [j] is its checksum shows: the field
    changed, or the checksum did. *)
Lemma change_shows a n i j v p :
  Forall byte_ok p -> 0 <= a -> (2 * i + 1 < n)%nat -> (2 * j + 1 < n)%nat -> (n <= length p)%nat -> u16_ok v -> (v - get16 (2 * i) p) mod 65535 <> 0 ->
  65535 - oc (a + sumZ (words (take n (put16 (2 * j) 0 p)))) = get16 (2 * j) p ->
  65535 - oc (a + sumZ (words (take n (put16 (2 * j) 0 (put16 (2 * i) v p))))) <> get16 (2 * j) (put16 (2 * i) v p).
Proof.
  intros Hp Ha Hi Hj Hn Hv Hne E E'. destruct (decide (i = j)) as [->|Hij].
  - rewrite put16_put16, get16_put16_eq in E' by (done || lia). rewrite E in E'. by rewrite E', Z.sub_diag in Hne.
  - rewrite get16_put16_ne in E' by lia. rewrite put16_comm in E' by done.
    apply (sum_changed a n i v (put16 (2 * j) 0 p)); auto with packet; try lia.
    + by autorewrite with packet.
    + by rewrite get16_put16_ne by lia.
Qed.

Lemma tcp_change_ok p i v len src dst :
  Forall byte_ok p -> 20 <= len < 65536 -> (Z.to_nat len <= length p)%nat -> (2 * i + 1 < Z.to_nat len)%nat -> u16_ok v ->
  (v - get16 (2 * i) p) mod 65535 <> 0 ->
  (tcp_validate_header p len src dst).1 = 0 -> (tcp_validate_header (put16 (2 * i) v p) len src dst).1 = - EPROTO.
Proof.
  intros Hp Hl Hn Hi Hv Hne. unfold tcp_validate_header, tcp_calculate_checksum. cbn [fst].
  rewrite !transport_calculate_checksum_ok by (auto with packet; lia). unfold segment_sum.
  destruct (Z.eqb_spec (65535 - oc (sumZ (words (pseudo_header src dst IP4_PROTOCAL_TCP len)) + sumZ (words (take (Z.to_nat len) (put16 16 0 p))))) (get16 16 p)) as [E|]; [intros _|done].
  rewrite (proj2 (Z.eqb_neq _ _)); [done|]. apply (change_shows _ _ i 8); try done; try lia. apply sumZ_words_nonneg, pseudo_header_ok.
Qed.

Lemma ip4_change_ok p i v pr :
  Forall byte_ok p -> (20 <= length p)%nat -> (i < 10)%nat -> u16_ok v -> (v - get16 (2 * i) p) mod 65535 <> 0 ->
  (ip4_validate_header p pr).1 = 0 -> (ip4_validate_header (put16 (2 * i) v p) pr).1 = - EPROTO.
Proof.
  intros Hp Hn Hi Hv Hne. unfold ip4_validate_header. cbn [fst].
  rewrite !singular_checksum_ok by (auto with packet; unfold IP4_HEADER; lia). change (Z.to_nat IP4_HEADER) with 20%nat.
  destruct (Z.eqb_spec (get16 10 p) (65535 - oc (sumZ (words (take 20 (put16 10 0 p)))))) as [E|]; [intros _|by rewrite orb_true_r].
  rewrite (proj2 (Z.eqb_neq (get16 10 (put16 (2 * i) v p)) _)); [by rewrite orb_true_r|]. apply not_eq_sym.
  apply (change_shows 0 20 i 5); try done; try lia.
Qed.

Lemma udp_change_ok p i v src dst :
  let len := ntohs (get16 4 p) in
  Forall byte_ok p -> 8 <= len -> (Z.to_nat len <= length p)%nat -> (2 * i + 1 < Z.to_nat len)%nat -> u16_ok v ->
  (v - get16 (2 * i) p) mod 65535 <> 0 -> i <> 2%nat -> get16 6 p <> 0 -> get16 6 (put16 (2 * i) v p) <> 0 ->
  (udp_validate_header p src dst).1 = 0 -> (udp_validate_header (put16 (2 * i) v p) src dst).1 = - EPROTO.
Proof.
  intros len Hp Hl Hn Hi Hv Hne Hi2 H6 H6'. unfold udp_validate_header, udp_calculate_checksum.
  rewrite (proj2 (Z.eqb_neq (get16 6 p) 0)), (proj2 (Z.eqb_neq (get16 6 (put16 (2 * i) v p)) 0)) by done.
  rewrite (get16_put16_ne 4) by lia. fold len. cbn [fst].
  assert (len < 65536) by (pose proof (htons_u16 (get16 4 p)) as Hu; unfold len, ntohs, u16_ok in *; lia).
  rewrite !transport_calculate_checksum_ok by (auto with packet; lia). unfold segment_sum.
  destruct (Z.eqb_spec (65535 - oc (sumZ (words (pseudo_header src dst IP4_PROTOCAL_UDP len)) + sumZ (words (take (Z.to_nat len) (put16 6 0 p))))) (get16 6 p)) as [E|]; [intros _|done].
  rewrite (proj2 (Z.eqb_neq _ _)); [done|]. apply (change_shows _ _ i 3); try done; try lia. apply sumZ_words_nonneg, pseudo_header_ok.
Qed.

(** ** Claims *)

(** C32: The headers the kernel builds pass its own validation, and any receiver's. For a
    buffer of bytes holding a packet of [len] bytes (and, for IPv4, a zero checksum
    field, as in the cleared buffers the senders allocate), the packet [ip4_build_header],
    [udp_build_header] and [tcp_build_header] make is accepted by the matching
    [*_validate_header], which leaves it as it was; the ones' complement sum of its words,
    with those of the pseudo header for UDP and TCP, is [0xFFFF], the test of RFC 1071;
    and the ports, the length and the window are in network order in their fields. *)
Theorem headers_validate (p : list Z) (len src dst : Z)
  (Hp : Forall byte_ok p) (Hl : 20 <= len < 65536) (Hn : (Z.to_nat len <= length p)%nat) :
  (forall size protocal ident, get16 10 p = 0 -> byte_ok protocal ->
     let q := ip4_build_header p size protocal src dst ident in
     ip4_validate_header q protocal = (0, q) /\ oc (sumZ (words (take 20 q))) = 65535) /\
  (forall sport dport,
     let q := udp_build_header p len src sport dst dport in
     udp_validate_header q src dst = (0, q) /\ oc (segment_sum q len IP4_PROTOCAL_UDP src dst) = 65535 /\
     ntohs (get16 4 q) = len /\ get16 0 q = htons sport /\ get16 2 q = htons dport) /\
  (forall sport dport seq ack flags window options, Z.of_nat (length options) mod 4 = 0 ->
     exists q, tcp_build_header p src sport dst dport seq ack flags window options len = Ok q /\ length q = length p /\
       tcp_validate_header q len src dst = (0, q) /\ oc (segment_sum q len IP4_PROTOCAL_TCP src dst) = 65535 /\
       get16 0 q = htons sport /\ get16 2 q = htons dport /\ get16 14 q = htons window).
Proof.
  split_and!.
  - intros. apply ip4_build_ok; [done|lia|done..].
  - intros. apply udp_build_ok; [done|lia|done].
  - intros. by apply tcp_build_ok.
Qed.

Lemma headers_validate_witness :
  tcp_validate_header (match tcp_build_header (replicate 24 7) 0x0A000001 80 0x0A000002 1024 5 9 0x12 8192 [] 24 with Ok q => q | Fail _ => [] end)
    24 0x0A000001 0x0A000002 =
  (0, match tcp_build_header (replicate 24 7) 0x0A000001 80 0x0A000002 1024 5 9 0x12 8192 [] 24 with Ok q => q | Fail _ => [] end).
Proof.
  destruct (headers_validate (replicate 24 7) 24 0x0A000001 0x0A000002) as (_ & _ & H).
  - apply Forall_replicate. split; reflexivity || discriminate.
  - split; [discriminate|reflexivity].
  - apply Nat.leb_le. reflexivity.
  - destruct (H 80 1024 5 9 0x12 8192 [] eq_refl) as (q & -> & _ & Hv & _). exact Hv.
Defined.

(** C33: Damage to one aligned 16-bit word is detected. If a TCP segment, an IPv4 header or a
    UDP datagram with a checksum validates, then with any one of its words [w] replaced by
    [v], where [v] and [w] differ and are not the two zeros [0] and [0xFFFF] of ones'
    complement arithmetic, the validation returns [-EPROTO]. (For UDP the length word
    chooses what is summed and a zero checksum disables the test; both are excluded.) *)
Theorem corruption_detected (p : list Z) (i : nat) (v src dst : Z)
  (Hp : Forall byte_ok p) (Hv : u16_ok v) (Hne : (v - get16 (2 * i) p) mod 65535 <> 0) :
  (forall len, 20 <= len < 65536 -> (Z.to_nat len <= length p)%nat -> (2 * i + 1 < Z.to_nat len)%nat ->
     (tcp_validate_header p len src dst).1 = 0 -> (tcp_validate_header (put16 (2 * i) v p) len src dst).1 = - EPROTO) /\
  (forall protocal, (20 <= length p)%nat -> (i < 10)%nat ->
     (ip4_validate_header p protocal).1 = 0 -> (ip4_validate_header (put16 (2 * i) v p) protocal).1 = - EPROTO) /\
  (let len := ntohs (get16 4 p) in
   8 <= len -> (Z.to_nat len <= length p)%nat -> (2 * i + 1 < Z.to_nat len)%nat -> i <> 2%nat ->
   get16 6 p <> 0 -> get16 6 (put16 (2 * i) v p) <> 0 ->
   (udp_validate_header p src dst).1 = 0 -> (udp_validate_header (put16 (2 * i) v p) src dst).1 = - EPROTO).
Proof.
  split_and!.
  - intros. by apply tcp_change_ok.
  - intros. by apply ip4_change_ok.
  - intros. by apply udp_change_ok.
Qed.

Lemma corruption_detected_witness :
  (ip4_validate_header (put16 16 0x1234 (ip4_build_header (replicate 20 0) 60 6 0x0A000001 0x0A000002 1)) 6).1 = - EPROTO.
Proof.
  destruct (corruption_detected (ip4_build_header (replicate 20 0) 60 6 0x0A000001 0x0A000002 1) 8 0x1234 0 0) as (_ & H & _).
  - apply (bool_decide_unpack _). vm_compute. reflexivity.
  - split; [discriminate|reflexivity].
  - vm_compute. discriminate.
  - apply (H 6); [apply Nat.leb_le; vm_compute; reflexivity|lia|vm_compute; reflexivity].
Defined.
