(* ===== verification/Hoare.v ===== *)
(** * Partial correctness of computations

    What a computation of the monad of [Prelude] ends with when it does not fail,
    and the predicates of its state it preserves. *)
From Stdlib Require Import ZArith Bool.
From stdpp Require Import base list option.
From S2P Require Import Prelude.

(** ** What a computation ends with, if it does not fail *)

Definition ends {S A} (m : M S A) (s : S) (Q : A -> S -> Prop) : Prop :=
  match m s with
  | Ok (a, s') => Q a s'
  | Fail _ => True
  end.

Section calculus.
Context {S : Type}.

Lemma ends_ok {A} (m : M S A) s Q a s' : ends m s Q -> m s = Ok (a, s') -> Q a s'.
Proof. intros H E. unfold ends in H. by rewrite E in H. Qed.

Lemma ends_intro {A} (m : M S A) s Q : (forall a s', m s = Ok (a, s') -> Q a s') -> ends m s Q.
Proof. intros H. unfold ends. destruct (m s) as [[a s']|]; [by apply H|done]. Qed.

Lemma ends_bind {A B} (m : M S A) (k : A -> M S B) s Q : ends m s (fun a s' => ends (k a) s' Q) -> ends (m ≫= k) s Q.
Proof. unfold ends, mbind, M_bind. by destruct (m s) as [[a s']|]. Qed.

Lemma ends_ret {A} (a : A) s Q : Q a s -> ends (mret a : M S A) s Q.
Proof. done. Qed.

Lemma ends_gets {A} (g : S -> A) s Q : Q (g s) s -> ends (gets g) s Q.
Proof. done. Qed.

Lemma ends_modify (g : S -> S) s Q : Q tt (g s) -> ends (modify g) s Q.
Proof. done. Qed.

Lemma ends_assert b s Q : (b = true -> Q tt s) -> ends (massert b : M S unit) s Q.
Proof. destruct b; [|done]. intros H. by apply H. Qed.

Lemma ends_deref {A} (g : S -> option A) s Q : (forall a, g s = Some a -> Q a s) -> ends (deref g) s Q.
Proof. unfold ends, deref. destruct (g s); [|done]. intros H. by apply H. Qed.

Lemma ends_fail {A} f s Q : ends (mfail f : M S A) s Q.
Proof. done. Qed.

Lemma ends_fmap {A B} (g : A -> B) (m : M S A) s Q : ends m s (fun a s' => Q (g a) s') -> ends (g <$> m) s Q.
Proof. unfold ends, fmap, M_fmap. by destruct (m s) as [[a s']|]. Qed.

Lemma ends_mono {A} (m : M S A) s (P Q : A -> S -> Prop) : ends m s P -> (forall a s', P a s' -> Q a s') -> ends m s Q.
Proof. unfold ends. destruct (m s) as [[a s']|]; auto. Qed.
End calculus.

(** One step of the calculus on the goal. *)
Ltac estep :=
  lazymatch goal with
  | |- ends (_ ≫= _) _ _ => apply ends_bind
  | |- ends (mret _) _ _ => apply ends_ret
  | |- ends (gets _) _ _ => apply ends_gets
  | |- ends (modify _) _ _ => apply ends_modify
  | |- ends (mfail _) _ _ => apply ends_fail
  | |- ends (_ <$> _) _ _ => apply ends_fmap
  | |- ends (massert _) _ _ => apply ends_assert; intros ?
  | |- ends (deref _) _ _ => apply ends_deref; intros ? ?
  end.
Ltac ebranch :=
  match goal with
  | |- ends (if ?b then _ else _) _ _ => destruct b eqn:?
  | |- ends (match ?x with _ => _ end) _ _ => destruct x eqn:?
  end.

(** ** Preserved predicates *)

Definition pres {S A} (P : S -> Prop) (m : M S A) : Prop := forall s, P s -> ends m s (fun _ => P).

Section preserved.
Context {S : Type} (P : S -> Prop).

Lemma pres_bind {A B} (m : M S A) (k : A -> M S B) : pres P m -> (forall a, pres P (k a)) -> pres P (m ≫= k).
Proof. intros Hm Hk s Hs. apply ends_bind. eapply ends_mono; [by apply Hm|]. intros a s' Hs'. by apply Hk. Qed.

Lemma pres_ret {A} (a : A) : pres P (mret a : M S A).
Proof. by intros s. Qed.

Lemma pres_gets {A} (g : S -> A) : pres P (gets g).
Proof. by intros s. Qed.

Lemma pres_fail {A} f : pres P (mfail f : M S A).
Proof. by intros s. Qed.

Lemma pres_assert b : pres P (massert b : M S unit).
Proof. intros s Hs. by apply ends_assert. Qed.

Lemma pres_deref {A} (g : S -> option A) : pres P (deref g).
Proof. intros s Hs. by apply ends_deref. Qed.

Lemma pres_fmap {A B} (g : A -> B) (m : M S A) : pres P m -> pres P (g <$> m).
Proof. intros Hm s Hs. apply ends_fmap. by apply Hm. Qed.

Lemma pres_modify f : (forall s, P s -> P (f s)) -> pres P (modify f).
Proof. intros Hf s Hs. apply ends_modify. by apply Hf. Qed.

  (** Reading the state first: the rest may use what was read. *)
Lemma pres_gets_bind {A B} (g : S -> A) (k : A -> M S B) : (forall s, P s -> ends (k (g s)) s (fun _ => P)) -> pres P (gets g ≫= k).
Proof. intros Hk s Hs. apply ends_bind, ends_gets. by apply Hk. Qed.
End preserved.

(** Follows the structure of a computation down to its updates and calls. *)
Ltac keep :=
  repeat match goal with
  | |- pres _ (_ ≫= _) => apply pres_bind; [|intros ?]
  | |- pres _ (mret _) => apply pres_ret
  | |- pres _ (gets _) => apply pres_gets
  | |- pres _ (mfail _) => apply pres_fail
  | |- pres _ (massert _) => apply pres_assert
  | |- pres _ (deref _) => apply pres_deref
  | |- pres _ (_ <$> _) => apply pres_fmap
  | |- pres _ (if ?b then _ else _) => destruct b
  | |- pres _ (match ?x with _ => _ end) => destruct x
  | |- pres _ (let '_ := ?x in _) => destruct x
  end.

(** ** Preserved predicates and the values returned *)

Definition gives {S A} (P : S -> Prop) (Q : A -> Prop) (m : M S A) : Prop := forall s, P s -> ends m s (fun a s' => P s' /\ Q a).

Section gives.
Context {S : Type} (P : S -> Prop).

Lemma gives_bind {A B} (Q : A -> Prop) (R : B -> Prop) (m : M S A) (k : A -> M S B) :
  gives P Q m -> (forall a, Q a -> gives P R (k a)) -> gives P R (m ≫= k).
Proof. intros Hm Hk s Hs. apply ends_bind. eapply ends_mono; [by apply Hm|]. intros a s' [Hs' Ha]. by apply Hk. Qed.

Lemma gives_ret {A} (Q : A -> Prop) (a : A) : Q a -> gives P Q (mret a : M S A).
Proof. by intros Ha s Hs. Qed.

Lemma gives_gets {A} (Q : A -> Prop) (g : S -> A) : (forall s, P s -> Q (g s)) -> gives P Q (gets g).
Proof. intros Hg s Hs. split; [done|by apply Hg]. Qed.

Lemma gives_fail {A} (Q : A -> Prop) f : gives P Q (mfail f : M S A).
Proof. by intros s. Qed.

Lemma gives_assert b : gives P (fun _ => b = true) (massert b : M S unit).
Proof. intros s Hs. by apply ends_assert. Qed.

Lemma gives_modify f : (forall s, P s -> P (f s)) -> gives P (fun _ => True) (modify f).
Proof. intros Hf s Hs. split; [by apply Hf|done]. Qed.

Lemma gives_mono {A} (Q R : A -> Prop) (m : M S A) : gives P Q m -> (forall a, Q a -> R a) -> gives P R m.
Proof. intros Hm H s Hs. eapply ends_mono; [by apply Hm|]. intros a s' [Hs' Ha]. split; [done|by apply H]. Qed.

Lemma gives_true {A} (Q : A -> Prop) (m : M S A) : gives P Q m -> gives P (fun _ => True) m.
Proof. intros Hm. by eapply gives_mono. Qed.

  (** The rest of the computation from a known state. *)
Lemma gives_at {A B} (g : S -> A) (R : B -> Prop) (k : A -> M S B) :
  (forall s, P s -> ends (k (g s)) s (fun b s' => P s' /\ R b)) -> gives P R (gets g ≫= k).
Proof. intros Hk s Hs. apply ends_bind, ends_gets. by apply Hk. Qed.
End gives.
