(* ===== verification/Tcp.v ===== *)
(** * TCP connections

    [net/tcp.c], [net/tcp_input.c], [net/tcp_output.c] and [net/tcp_timer.c]: the
    protocol variables of a connection, the segments it queues and sends, the
    handlers of the segments it receives and of its three timers, and the calls
    of the owner thread. The calls block in [schedule]; what happens meanwhile
    (received frames, the clock, expired timers, the thread resumed) is a list
    of events that [tcp_schedule] consumes. *)
From Stdlib Require Import ZArith Lia Bool List.
From coqutil Require Import Datatypes.RecordSetters.
From stdpp Require Import base list option.
From S2P Require Import Prelude Packet.
Import TriangleBracketNotations.

Open Scope Z_scope.

(** ** Data *)

Inductive tcp_state :=
| TCP_ESTABLISHED
| TCP_SYN_SENT
| TCP_SYN_RECV
| TCP_FIN_WAIT1
| TCP_FIN_WAIT2
| TCP_TIME_WAIT
| TCP_CLOSE
| TCP_CLOSE_WAIT
| TCP_LAST_ACK
| TCP_LISTEN
| TCP_CLOSING.

#[export] Instance tcp_state_eq_dec : EqDecision tcp_state.
Proof. solve_decision. Defined.

Inductive socket_state :=
| SS_UNCONNECTED
| SS_CONNECTING
| SS_CONNECTED
| SS_DISCONNECTING
| SS_DISCONNECTED.

#[export] Instance socket_state_eq_dec : EqDecision socket_state.
Proof. solve_decision. Defined.

(** The fields of [struct tcp_packet] the protocol reads, in host order. *)
Record tcp_packet := mk_tcp_packet {
  sequence_number : Z;
  ack_number : Z;
  data_offset : Z;
  fin : bool;
  syn : bool;
  rst : bool;
  push : bool;
  ack : bool;
  window : Z;
  payload : list Z }.

(** A buffer: its identity, the length fields of its IP header, its TCP header
    and its [struct tcp_skb_cb]. *)
Record sk_buff := mk_sk_buff {
  skb_id : nat;
  total_length : Z;
  ihl : Z;
  tcph : tcp_packet;
  cb_seq : Z;
  cb_end_seq : Z;
  cb_flags : Z;
  cb_expires : Z;
  cb_when : Z }.

(** [struct tcp_sock]; a timer is its expiry when it is armed. *)
Record tcp_sock := mk_tcp_sock {
  state : tcp_state;
  msl_timer : option Z;
  snd_mss : Z;
  snd_iss : Z;
  snd_una : Z;
  snd_nxt : Z;
  snd_wnd : Z;
  snd_wl1 : Z;
  snd_wl2 : Z;
  snd_wds : Z;
  rcv_mss : Z;
  rcv_irs : Z;
  rcv_nxt : Z;
  rcv_wnd : Z;
  ssthresh : Z;
  cwnd : Z;
  number_of_dup_acks : Z;
  flight_size : Z;
  rto : Z;
  retransmit_timer : option Z;
  srtt : Z;
  rttvar : Z;
  persist_timer : option Z;
  persist_backoff : Z;
  rtt_end_seq : Z;
  rtt_time : Z;
  syn_retries : Z }.

Record sockaddr_in := mk_sockaddr_in { sin_addr : Z; sin_port : Z }.

Inductive timer_kind := Retransmit | Persist | Msl.

(** What happens while the owner thread is not running. *)
Inductive event :=
| Rx (frame : list Z)
| Tick (ms : Z)
| Timeout (k : timer_kind)
| Resume.

(** The socket with its [struct sock] and [struct inet_sock], the clock, the state of the
    owner thread, the buffers handed to the network card, what the stack slots of the
    option parser's variables hold before it runs, and the events to come. *)
Record conn := mk_conn {
  tsk : tcp_sock;
  so_state : socket_state;
  ssin : sockaddr_in;
  dsin : sockaddr_in;
  rx_queue : list sk_buff;
  rx_length : Z;
  tx_queue : list sk_buff;
  send_head : option nat;
  now : Z;
  waiting : bool;
  sent : list sk_buff;
  next_skb : nat;
  junk : Z * Z;
  events : list event }.

Definition ERANGE : Z := 34.
Definition ESHUTDOWN : Z := 108.
Definition ETH_DATA_LEN : Z := 1500.
Definition ETH_MAX_MTU : Z := 0xFFFF.
Definition ETH_P_IP : Z := 0x0800.
Definition MAX_OPTION_LEN : nat := 40.
Definition MAX_SEGMENT_LIFETIME : Z := 15.

(** Access to the protocol variables. *)
Definition tget : M conn tcp_sock := gets tsk.
Definition tmod (f : tcp_sock -> tcp_sock) : M conn unit := modify (fun c => c <| tsk ::= f |>).

(** [update_thread(sock->sk->owner_thread, THREAD_READY)] and
    [update_thread(current_thread, THREAD_WAITING)]. *)
Definition wake_owner : M conn unit := modify (fun c => c <| waiting := false |>).
Definition wait_owner : M conn unit := modify (fun c => c <| waiting := true |>).

(** ** Segments *)

Definition has (flags f : Z) : bool := negb (Z.land flags f =? 0).

Definition tcp_option_length (skb : sk_buff) : Z := u16 (data_offset (tcph skb) * 4 - TCP_HEADER).
Definition tcp_payload (skb : sk_buff) : list Z := drop (Z.to_nat (tcp_option_length skb)) (payload (tcph skb)).
Definition tcp_payload_lenth (skb : sk_buff) : M conn Z :=
  let payload_len := total_length skb - (ihl skb + data_offset (tcph skb)) * 4 in
  massert (0 <=? payload_len);;
  mret (u16 payload_len).
Definition tcp_sender_available_window (t : tcp_sock) : Z := u32 (snd_una t + snd_wnd t - snd_nxt t).

Definition tcp_set_option_value (options : list Z) (at_ : nat) (code len : Z) (value : list Z) : list Z * nat :=
  (put_bytes (at_ + 2) value (put8 (at_ + 1) (len + 2) (put8 at_ code options)), (at_ + 2 + Z.to_nat len)%nat).

Definition WORD_ALIGN (addr : Z) : Z := Z.land (addr + 4 - 1) (Z.lnot 3).

(** The options of a SYN: the maximum segment size and a window scale of 0. *)
Definition tcp_build_syn_options (t : tcp_sock) : list Z :=
  let mss := htons (snd_mss t) in
  let '(options, iter) := tcp_set_option_value (replicate MAX_OPTION_LEN 0) 0 2 2 [mss mod 256; mss / 256] in
  let '(options, iter) := tcp_set_option_value options iter 3 1 [0] in
  take (Z.to_nat (WORD_ALIGN (Z.of_nat iter))) options.

(** The buffer of a new segment: the header fields [tcp_build_header] and
    [ip4_build_header] store ([Packet] has their bytes), and the control block. The
    Ethernet header, whose address comes from the neighbour table, is left out. *)
Definition tcp_create_skb (seq ack_nr flags : Z) (options data : list Z) : M conn sk_buff :=
  let option_len := Z.of_nat (length options) in
  let payload_len := Z.of_nat (length data) in
  massert (option_len mod 4 =? 0);;
  id ← gets next_skb;
  wnd ← gets (fun c => rcv_wnd (tsk c));
  modify (fun c => c <| next_skb ::= S |>);;
  mret {| skb_id := id;
          total_length := u16 (IP4_HEADER + TCP_HEADER + option_len + payload_len);
          ihl := 5;
          tcph := {| sequence_number := u32 seq;
                     ack_number := u32 ack_nr;
                     data_offset := ((TCP_HEADER + option_len) / 4) mod 16;
                     fin := has flags TCPCB_FLAG_FIN;
                     syn := has flags TCPCB_FLAG_SYN;
                     rst := has flags TCPCB_FLAG_RST;
                     push := has flags TCPCB_FLAG_PSH;
                     ack := has flags TCPCB_FLAG_ACK;
                     window := u16 wnd;
                     payload := options ++ data |};
          cb_seq := u32 seq;
          cb_end_seq := u32 (seq + Z.max 0 (payload_len - 1));
          cb_flags := flags;
          cb_expires := 0;
          cb_when := 0 |}.

(** ** The protocol variables *)

Definition tcp_create_tcb (t : tcp_sock) : tcp_sock :=
  let mss := (ETH_DATA_LEN - (IP4_HEADER + TCP_HEADER)) / 4 * 4 in
  t <| state := TCP_CLOSE |> <| msl_timer := None |>
    <| snd_mss := mss |> <| snd_iss := 0 |> <| snd_una := 0 |> <| snd_nxt := 1 |> <| snd_wl1 := 0 |> <| snd_wl2 := 0 |>
    <| snd_wnd := ETH_MAX_MTU |> <| snd_wds := 0 |>
    <| rcv_mss := mss |> <| rcv_irs := 0 |> <| rcv_nxt := 0 |> <| rcv_wnd := ETH_MAX_MTU |>
    <| ssthresh := ETH_MAX_MTU |> <| cwnd := mss |> <| flight_size := 0 |> <| number_of_dup_acks := 0 |>
    <| rto := 1000 |> <| retransmit_timer := None |> <| persist_backoff := 1000 |> <| persist_timer := None |>
    <| rtt_end_seq := 0 |> <| rtt_time := 0 |> <| syn_retries := 0 |>.

Definition tcp_delete_tcb (t : tcp_sock) : tcp_sock :=
  t <| msl_timer := None |> <| rto := 1000 |> <| retransmit_timer := None |> <| persist_backoff := 1000 |>
    <| persist_timer := None |> <| rtt_end_seq := 0 |> <| rtt_time := 0 |> <| syn_retries := 0 |>.

Definition tcp_enter_close_state (t : tcp_sock) : tcp_sock :=
  t <| state := TCP_CLOSE |> <| retransmit_timer := None |> <| retransmit_timer := None |>.

Definition tcp_flush_tx : M conn unit := modify (fun c => c <| tx_queue := [] |> <| send_head := None |>).
Definition tcp_flush_rx : M conn unit := modify (fun c => c <| rx_queue := [] |>).

Definition next_state (s : tcp_state) (flags : Z) : tcp_state :=
  match s with
  | TCP_CLOSE => if flags =? TCPCB_FLAG_SYN then TCP_SYN_SENT else s
  | TCP_LISTEN => if flags =? TCPCB_FLAG_SYN then TCP_SYN_SENT else s
  | TCP_SYN_SENT =>
      if flags =? Z.lor TCPCB_FLAG_ACK TCPCB_FLAG_SYN then TCP_SYN_RECV
      else if flags =? TCPCB_FLAG_ACK then TCP_ESTABLISHED
      else if flags =? TCPCB_FLAG_RST then TCP_CLOSE
      else s
  | TCP_ESTABLISHED => if has flags TCPCB_FLAG_FIN then TCP_FIN_WAIT1 else s
  | TCP_CLOSE_WAIT => if has flags TCPCB_FLAG_FIN then TCP_LAST_ACK else s
  | _ => s
  end.

(** What sending a segment with these flags does to the state. *)
Definition tcp_state_transition (flags : Z) (t : tcp_sock) : tcp_sock :=
  let prev_state := state t in
  let t := t <| state := next_state prev_state flags |> in
  if negb (bool_decide (prev_state = state t)) && bool_decide (state t = TCP_ESTABLISHED) && (0 <? syn_retries t)
  then t <| rto := 3 |> <| cwnd := snd_mss t |>
  else t.

Definition tcp_return_code (t : tcp_sock) (success_code : Z) : Z :=
  match state t with
  | TCP_ESTABLISHED | TCP_FIN_WAIT1 => success_code
  | _ => -1
  end.

(** The smoothed round-trip time and its variance; the source's products with
    0.75, 0.25, 0.875 and 0.125 are exact and the conversion truncates. *)
Definition tcp_calculate_rto (rtt : Z) (t : tcp_sock) : tcp_sock :=
  let t :=
    if srtt t =? 0 then t <| srtt := rtt |> <| rttvar := rtt / 2 |>
    else
      let d := Z.abs (s32 (s32 (srtt t) - s32 rtt)) in
      let t := t <| rttvar := u32 ((3 * rttvar t + d) / 4) |> in
      t <| srtt := u32 ((7 * srtt t + rtt) / 8) |> in
  t <| rto := Z.max (u32 (srtt t + Z.max 100 (u32 (4 * rttvar t)))) 1000 |>.

Definition tcp_calculate_congestion (seg_ack : Z) (t : tcp_sock) : tcp_sock :=
  let t :=
    if cwnd t <=? ssthresh t then t <| cwnd := u32 (cwnd t + Z.min (u32 (seg_ack - snd_una t)) (snd_mss t)) |>
    else t <| cwnd := u32 (cwnd t + u32 (snd_mss t * snd_mss t) / cwnd t) |> in
  t <| cwnd := Z.min (cwnd t) ETH_MAX_MTU |>.

(** ** Output *)

Definition set_skb (skb : sk_buff) (q : list sk_buff) : list sk_buff :=
  (fun x => if Nat.eqb (skb_id x) (skb_id skb) then skb else x) <$> q.

(** Returns the buffer with its control block updated; the queue shares it. *)
Definition tcp_send_skb (skb : sk_buff) (is_retransmitted : bool) : M conn sk_buff :=
  payload_len ← tcp_payload_lenth skb;
  let is_actived_send := negb is_retransmitted && ((0 <? payload_len) || syn (tcph skb) || fin (tcph skb)) in
  tmod (fun t => t <| flight_size := u32 (flight_size t + payload_len) |>);;
  (if is_actived_send then tmod (fun t => t <| snd_nxt := u32 (cb_end_seq skb + 1) |>) else mret tt);;
  ms ← gets now;
  t ← tget;
  let skb := skb <| cb_when := ms |> <| cb_expires := u64 (ms + rto t) |> in
  modify (fun c => c <| tx_queue ::= set_skb skb |>);;
  tmod (tcp_state_transition (u8 (cb_flags skb)));;
  t ← tget;
  (if negb (bool_decide (is_Some (retransmit_timer t))) && is_actived_send then tmod (fun t => t <| retransmit_timer := Some (cb_expires skb) |>) else mret tt);;
  modify (fun c => c <| sent ::= (fun l => l ++ [skb]) |>);;
  mret skb.

Definition tcp_tx_queue_add_skb (skb : sk_buff) : M conn unit :=
  modify (fun c => c <| send_head ::= (fun h => match h with None => Some (skb_id skb) | Some _ => h end) |> <| tx_queue ::= (fun q => q ++ [skb]) |>).

Definition find_skb (id : nat) (q : list sk_buff) : option sk_buff := list_find (fun x => skb_id x = id) q ≫= fun p => Some p.2.

(** [send_head->next], [NULL] at the end of the queue. *)
Fixpoint next_of (id : nat) (q : list sk_buff) : option nat :=
  match q with
  | [] => None
  | x :: q' => if Nat.eqb (skb_id x) id then skb_id <$> head q' else next_of id q'
  end.

(** ** Input *)

Definition byte_at (l : list Z) (i : Z) : M conn Z := deref (fun _ => l !! Z.to_nat i).

(** The variable [value] points to after the call, and the result. *)
Definition tcp_get_option_value (options : list Z) (i value len : Z) : M conn (Z * Z) :=
  if len =? 1 then
    b0 ← byte_at options i;
    mret (value / 2 ^ 8 * 2 ^ 8 + b0, 0)
  else if len =? 2 then
    b0 ← byte_at options i;
    b1 ← byte_at options (i + 1);
    mret (value / 2 ^ 16 * 2 ^ 16 + u16 (b0 + Z.shiftl b1 8), 0)
  else if len =? 4 then
    b0 ← byte_at options i;
    b1 ← byte_at options (i + 1);
    b2 ← byte_at options (i + 2);
    b3 ← byte_at options (i + 3);
    mret (u32 (b0 + Z.shiftl b1 8 + Z.shiftl b2 16 + Z.shiftl b3 24), 0)
  else mret (value, u32 (- ERANGE)).

Fixpoint parse_options (n : nat) (options : list Z) (len i rmms window_scale : Z) : M conn (Z * Z) :=
  match n with
  | O => mfail Fuel
  | S n' =>
      if i <? len then
        o ← byte_at options i;
        if (o =? 0) || (o =? 1) then parse_options n' options len (u32 (i + 1)) rmms window_scale
        else
          rmms ← (if o =? 2 then fst <$> tcp_get_option_value options (i + 2) rmms 2 else mret rmms);
          window_scale ← (if o =? 3 then fst <$> tcp_get_option_value options (i + 2) window_scale 1 else mret window_scale);
          l ← byte_at options (i + 1);
          parse_options n' options len (u32 (i + l)) rmms window_scale
      else mret (rmms, window_scale)
  end.

(** Every round that advances consumes a byte of the options. *)
Definition tcp_parse_syn_options (options : list Z) (len : Z) : M conn unit :=
  j ← gets junk;
  '(opt_rmms, opt_window_scale) ← parse_options (S (Z.to_nat len)) options len 0 j.1 j.2;
  tmod (fun t => t <| rcv_mss := ntohs opt_rmms |> <| snd_wds := opt_window_scale |>).

(** The loop of [tcp_accept_ack] over the queue: what stays in it. *)
Fixpoint drop_acked (ack_number : Z) (is_acked_all : bool) (q : list sk_buff) : M conn (list sk_buff) :=
  match q with
  | [] => mret []
  | iter :: q' =>
      if (cb_end_seq iter <? ack_number) || is_acked_all then
        h ← gets send_head;
        massert (negb (bool_decide (h = Some (skb_id iter))));;
        drop_acked ack_number is_acked_all q'
      else
        r ← drop_acked ack_number is_acked_all q';
        mret (iter :: r)
  end.

Definition tcp_accept_ack (ack_number : Z) (is_acked_all : bool) : M conn unit :=
  tmod (fun t => let t := t <| snd_una := ack_number |> in t <| flight_size := u32 (snd_nxt t - snd_una t) |> <| number_of_dup_acks := 0 |>);;
  c ← gets id;
  let ack_from_retransmitted :=
    match tx_queue c with
    | first_element :: _ => bool_decide (send_head c = Some (skb_id first_element)) && (rtt_time (tsk c) =? 0)
    | [] => false
    end in
  (if ack_from_retransmitted then
     tmod (fun t => t <| cwnd := ssthresh t |>);;
     modify (fun c => c <| send_head := skb_id <$> head (tail (tx_queue c)) |>)
   else mret tt);;
  q ← gets tx_queue;
  q' ← drop_acked ack_number is_acked_all q;
  modify (fun c => c <| tx_queue := q' |>);;
  (match q' with
   | skb :: _ =>
       if ack_from_retransmitted then tmod (fun t => t <| retransmit_timer := None |>)
       else massert (negb (cb_expires skb =? 0));; tmod (fun t => t <| retransmit_timer := Some (cb_expires skb) |>)
   | [] => tmod (fun t => t <| retransmit_timer := None |>)
   end);;
  c ← gets id;
  let t := tsk c in
  if negb (rtt_time t =? 0) && (rtt_end_seq t <? ack_number) then
    let rtt := u32 (now c - rtt_time t) in
    tmod (fun t => (tcp_calculate_rto rtt t) <| rtt_time := 0 |>)
  else mret tt.

Definition tcp_is_fin_acked (q : list sk_buff) : bool := forallb (fun iter => negb (fin (tcph iter))) q.

(** [tcp_create_skb] and [tcp_send_skb] of a segment without options and payload. *)
Definition send_segment (seq ack_nr flags : Z) : M conn unit :=
  skb ← tcp_create_skb seq ack_nr flags [] [];
  tcp_send_skb skb false;;
  mret tt.

Definition tcp_handler_close (skb : sk_buff) : M conn unit :=
  let h := tcph skb in
  payload_len ← tcp_payload_lenth skb;
  if rst h then mret tt
  else
    t ← tget;
    if negb (ack h) then send_segment 0 (u32 (sequence_number h + payload_len)) (Z.lor TCPCB_FLAG_ACK TCPCB_FLAG_RST)
    else send_segment (ack_number h) (rcv_nxt t) TCPCB_FLAG_RST.

Definition tcp_handler_sync (skb : sk_buff) : M conn unit :=
  let h := tcph skb in
  let a := ack_number h in
  t ← tget;
  if ack h && ((a <=? snd_iss t) || (snd_nxt t <? a)) then
    (if negb (rst h) then send_segment a 0 TCPCB_FLAG_RST;; wake_owner else mret tt)
  else
    let acceptable_ack := ack h && (snd_una t <=? a) && (a <=? snd_nxt t) in
    if rst h then
      (if acceptable_ack then tmod tcp_enter_close_state;; tmod tcp_delete_tcb else mret tt)
    else if syn h && acceptable_ack then
      let option_len := tcp_option_length skb in
      (if 0 <? option_len then tcp_parse_syn_options (payload h) option_len else mret tt);;
      tmod (fun t => t <| rcv_irs := sequence_number h |> <| rcv_nxt := u32 (sequence_number h + 1) |> <| snd_nxt := a |> <| snd_wnd := window h |>);;
      tcp_accept_ack a false;;
      t ← tget;
      if snd_iss t <? snd_una t then
        tmod (fun t => t <| cwnd := u32 ((if 2190 <? snd_mss t then 2 else if 1095 <? snd_mss t then 3 else 4) * snd_mss t) |> <| ssthresh := window h |>);;
        send_segment (snd_nxt t) (rcv_nxt t) TCPCB_FLAG_ACK;;
        wake_owner
      else send_segment (snd_iss t) (rcv_nxt t) (Z.lor TCPCB_FLAG_ACK TCPCB_FLAG_SYN)
    else mret tt.

(** *** The handler of the synchronised states, step by step *)

(** Step one: the segment is in the receive window. *)
Definition acceptable_segment (t : tcp_sock) (seg_seq payload_len : Z) : bool :=
  let in_window x := (rcv_nxt t <=? x) && (x <? u32 (rcv_nxt t + rcv_wnd t)) in
  if negb (rcv_wnd t =? 0) then
    if 0 <? payload_len then in_window seg_seq || in_window (u32 (seg_seq + payload_len)) else in_window seg_seq
  else if 0 <? payload_len then false
  else seg_seq =? rcv_nxt t.

Definition one_of (s : tcp_state) (l : list tcp_state) : bool := bool_decide (s ∈ l).

(** Step five: the acknowledgement. [false] when the handler returns. The second test of
    [acceptable_segment] in SYN_RECV never holds here and log messages are left out. The
    shift by the peer's window scale is that of the x86, which takes the count modulo 32; C
    leaves counts from 32 on undefined. *)
Definition process_ack (skb : sk_buff) (payload_len : Z) : M conn bool :=
  let h := tcph skb in
  let seg_seq := sequence_number h in
  let seg_ack := ack_number h in
  t ← tget;
  let seg_wnd := u32 (Z.shiftl (window h) (Z.land (snd_wds t) 31)) in
  if bool_decide (state t = TCP_SYN_RECV) then
    (if (snd_una t <? seg_ack) && (seg_ack <=? snd_nxt t) then tmod (fun t => t <| state := TCP_ESTABLISHED |>) else mret tt);;
    mret true
  else if one_of (state t) [TCP_ESTABLISHED; TCP_CLOSE_WAIT; TCP_FIN_WAIT1; TCP_FIN_WAIT2; TCP_CLOSING] then
    if (snd_una t <? seg_ack) && (seg_ack <=? snd_nxt t) then
      tmod (tcp_calculate_congestion seg_ack);;
      tcp_accept_ack seg_ack false;;
      t ← tget;
      (if (snd_wl1 t <? seg_seq) || ((snd_wl1 t =? seg_seq) && (snd_wl2 t <=? seg_ack)) then
         tmod (fun t => t <| snd_wnd := seg_wnd |> <| snd_wl1 := seg_seq |> <| snd_wl2 := seg_ack |>)
       else mret tt);;
      mret true
    else if (snd_una t =? seg_ack) && (rcv_nxt t =? seg_seq) && negb (snd_wnd t =? seg_wnd) && (payload_len =? 0) then
      (if (snd_wnd t =? 0) && negb (seg_wnd =? 0) then tcp_flush_tx else mret tt);;
      tmod (fun t => t <| snd_wnd := seg_wnd |>);;
      mret true
    else if (0 <? flight_size t) && negb (syn h) && negb (fin h) && (snd_una t =? seg_ack) && (0 <? seg_wnd) then
      tmod (fun t => t <| number_of_dup_acks := u8 (number_of_dup_acks t + 1) |>);;
      t ← tget;
      (if number_of_dup_acks t =? 3 then
         tmod (fun t => let t := t <| ssthresh := Z.max (flight_size t / 2) (u32 (2 * snd_mss t)) |> in t <| cwnd := u32 (ssthresh t + 3 * snd_mss t) |>);;
         q ← gets tx_queue;
         match q with
         | [] => mfail Assert
         | skb :: _ => tcp_send_skb skb true;; mret tt
         end
       else if 3 <? number_of_dup_acks t then tmod (fun t => t <| cwnd := u32 (cwnd t + snd_mss t) |>)
       else mret tt);;
      mret true
    else if snd_nxt t <? seg_ack then
      send_segment (snd_nxt t) (rcv_nxt t) TCPCB_FLAG_ACK;;
      mret false
    else mret true
  else mret true.

(** The state after the acknowledgement of a FIN. [false] when the handler returns. *)
Definition process_fin_acked : M conn bool :=
  c ← gets id;
  let t := tsk c in
  let acked := tcp_is_fin_acked (tx_queue c) in
  match state t with
  | TCP_FIN_WAIT1 => (if acked then tmod (fun t => t <| state := TCP_FIN_WAIT2 |>) else mret tt);; mret true
  | TCP_CLOSING => (if acked then tmod (fun t => t <| state := TCP_TIME_WAIT |>) else mret tt);; mret true
  | TCP_LAST_ACK =>
      if acked then
        tmod tcp_enter_close_state;;
        wake_owner;;
        mret false
      else mret true
  | TCP_TIME_WAIT => send_segment (snd_nxt t) (rcv_nxt t) TCPCB_FLAG_ACK;; mret true
  | _ => mret true
  end.

(** Step seven: the text of the segment. Returns [is_sent_ack]. *)
Definition process_text (skb : sk_buff) (payload_len : Z) : M conn bool :=
  t ← tget;
  if one_of (state t) [TCP_ESTABLISHED; TCP_FIN_WAIT1; TCP_FIN_WAIT2] then
    (if (0 <? payload_len) || push (tcph skb) then modify (fun c => c <| rx_queue ::= (fun q => q ++ [skb]) |>) else mret tt);;
    if 0 <? payload_len then
      tmod (fun t => t <| rcv_nxt := u32 (rcv_nxt t + payload_len) |>);;
      t ← tget;
      send_segment (snd_nxt t) (rcv_nxt t) TCPCB_FLAG_ACK;;
      mret true
    else mret false
  else mret false.

Definition start_msl_timer : M conn unit :=
  ms ← gets now;
  tmod (fun t => t <| msl_timer := Some (u64 (ms + MAX_SEGMENT_LIFETIME * 2)) |>).

Definition enter_time_wait : M conn unit :=
  tmod (fun t => t <| state := TCP_TIME_WAIT |> <| retransmit_timer := None |> <| persist_timer := None |>);;
  start_msl_timer.

(** Step eight: a FIN. *)
Definition process_fin (is_sent_ack : bool) : M conn unit :=
  c ← gets id;
  (match state (tsk c) with
   | TCP_SYN_RECV | TCP_ESTABLISHED => tmod (fun t => t <| state := TCP_CLOSE_WAIT |>)
   | TCP_FIN_WAIT1 => if tcp_is_fin_acked (tx_queue c) then enter_time_wait else tmod (fun t => t <| state := TCP_CLOSING |>)
   | TCP_FIN_WAIT2 => enter_time_wait
   | TCP_TIME_WAIT => start_msl_timer
   | _ => mret tt
   end);;
  if is_sent_ack then mret tt
  else
    tmod (fun t => t <| rcv_nxt := u32 (rcv_nxt t + 1) |>);;
    t ← tget;
    let flags := if bool_decide (state t = TCP_CLOSE_WAIT) then TCPCB_FLAG_FIN else 0 in
    send_segment (snd_nxt t) (rcv_nxt t) (Z.lor flags TCPCB_FLAG_ACK).

Definition tcp_handler_established (skb : sk_buff) : M conn unit :=
  let h := tcph skb in
  payload_len ← tcp_payload_lenth skb;
  t ← tget;
  if negb (acceptable_segment t (sequence_number h) payload_len) then
    (if negb (rst h) then send_segment (snd_nxt t) (rcv_nxt t) TCPCB_FLAG_ACK else mret tt);;
    wake_owner
  else if rst h && one_of (state t) [TCP_SYN_RECV] then
    tcp_accept_ack 0 true;; tmod tcp_enter_close_state;; wake_owner
  else if rst h && one_of (state t) [TCP_ESTABLISHED; TCP_FIN_WAIT1; TCP_FIN_WAIT2] then
    tcp_flush_tx;; tcp_flush_rx;; tmod tcp_enter_close_state;; wake_owner
  else if rst h && one_of (state t) [TCP_CLOSING; TCP_LAST_ACK; TCP_TIME_WAIT] then
    tmod tcp_enter_close_state;; wake_owner
  else if syn h && one_of (state t) [TCP_SYN_RECV; TCP_ESTABLISHED; TCP_FIN_WAIT1; TCP_FIN_WAIT2; TCP_CLOSE_WAIT; TCP_CLOSING; TCP_LAST_ACK; TCP_TIME_WAIT] then
    send_segment (ack_number h) (rcv_nxt t) TCPCB_FLAG_RST;;
    tcp_flush_tx;; tcp_flush_rx;; tmod tcp_enter_close_state;; wake_owner
  else if negb (ack h) then mret tt
  else
    go ← process_ack skb payload_len;
    if negb go then mret tt
    else
      go ← process_fin_acked;
      if negb go then mret tt
      else
        is_sent_ack ← process_text skb payload_len;
        t ← tget;
        if fin h && one_of (state t) [TCP_CLOSE; TCP_LISTEN; TCP_SYN_SENT] then mret tt
        else
          (if fin h then process_fin is_sent_ack else mret tt);;
          wake_owner.

(** *** Received frames *)

(** The buffer of a received frame: an Ethernet header of 14 bytes, the IP header, the
    TCP header. *)
Definition get32 (off : nat) (p : list Z) : Z := get16 off p + 65536 * get16 (off + 2) p.

Definition skb_of_frame (id : nat) (frame : list Z) : sk_buff :=
  let ip := drop 14 frame in
  let tcp := drop 34 frame in
  {| skb_id := id;
     total_length := ntohs (get16 2 ip);
     ihl := Z.land (get8 0 ip) 0xF;
     tcph := {| sequence_number := ntohl (get32 4 tcp);
                ack_number := ntohl (get32 8 tcp);
                data_offset := Z.shiftr (get8 12 tcp) 4;
                fin := Z.testbit (get8 13 tcp) 0;
                syn := Z.testbit (get8 13 tcp) 1;
                rst := Z.testbit (get8 13 tcp) 2;
                push := Z.testbit (get8 13 tcp) 3;
                ack := Z.testbit (get8 13 tcp) 4;
                window := ntohs (get16 14 tcp);
                payload := drop 20 tcp |};
     cb_seq := 0; cb_end_seq := 0; cb_flags := 0; cb_expires := 0; cb_when := 0 |}.

(** The handler of a segment for the state of the connection. *)
Definition tcp_dispatch (skb : sk_buff) : M conn unit :=
  t ← tget;
  match state t with
  | TCP_CLOSE => tcp_handler_close skb
  | TCP_SYN_SENT => tcp_handler_sync skb
  | TCP_LISTEN => mret tt
  | _ => tcp_handler_established skb
  end.

(** [ethernet_rcv] always succeeds and [ip4_rcv] tests the type of the frame. *)
Definition tcp_handler (frame : list Z) : M conn Z :=
  c ← gets id;
  if bool_decide (so_state c = SS_DISCONNECTED) then mret (- ESHUTDOWN)
  else if negb (htons (get16 12 frame) =? ETH_P_IP) then mret (- EPROTO)
  else
    let ip := drop 14 frame in
    if negb (get8 9 ip =? IP4_PROTOCAL_TCP) then mret (- EPROTO)
    else
      let tcp := drop 34 frame in
      let tcp_len := ntohs (get16 2 ip) - IP4_HEADER in
      let source_ip := ntohl (get32 12 ip) in
      let dest_ip := ntohl (get32 16 ip) in
      let '(ret, tcp) := tcp_validate_header tcp (u16 tcp_len) source_ip dest_ip in
      if ret <? 0 then mret ret
      else
        (if (sin_addr (ssin c) =? dest_ip) && (sin_port (ssin c) =? ntohs (get16 2 tcp)) &&
            (sin_addr (dsin c) =? source_ip) && (sin_port (dsin c) =? ntohs (get16 0 tcp)) then
           modify (fun c => c <| next_skb ::= S |>);;
           tcp_dispatch (skb_of_frame (next_skb c) (take 34 frame ++ tcp))
         else mret tt);;
        mret 0.

(** ** Timers *)

(** What the retransmission of the first segment leaves behind. *)
Definition after_retransmission (skb : sk_buff) : M conn unit :=
  h ← gets send_head;
  (if bool_decide (h = Some (skb_id skb)) then mret tt
   else tmod (fun t => t <| ssthresh := Z.max (flight_size t / 2) (u32 (2 * snd_mss t)) |> <| cwnd := snd_mss t |>));;
  modify (fun c => c <| send_head := Some (skb_id skb) |>);;
  (if syn (tcph skb) then tmod (fun t => t <| syn_retries := u8 (syn_retries t + 1) |>) else mret tt);;
  t ← tget;
  (if negb (rtt_time t =? 0) then
     massert (cb_end_seq skb =? rtt_end_seq t);;
     tmod (fun t => t <| rtt_time := 0 |>)
   else mret tt);;
  t ← tget;
  if 128 * 1000 <=? rto t then tmod (fun t => t <| srtt := 0 |> <| rttvar := 0 |>) else mret tt.

Definition tcp_retransmit_timer : M conn unit :=
  ms ← gets now;
  tmod (fun t => let t := t <| rto := u32 (rto t * 2) |> in t <| retransmit_timer := Some (u64 (ms + rto t)) |>);;
  q ← gets tx_queue;
  match q with
  | [] => mfail Assert
  | skb :: _ =>
      skb ← tcp_send_skb skb true;
      after_retransmission skb
  end.

Definition tcp_persist_timer : M conn unit :=
  ms ← gets now;
  t ← tget;
  if negb (snd_wnd t =? 0) then tmod (fun t => t <| persist_timer := None |> <| persist_backoff := 1000 |>)
  else
    tmod (fun t => let t := t <| persist_backoff := u16 (persist_backoff t * 2) |> in t <| persist_timer := Some (u64 (ms + persist_backoff t)) |>);;
    q ← gets tx_queue;
    match q with
    | [] => mfail Assert
    | skb :: _ =>
        len ← tcp_payload_lenth skb;
        massert (len =? 1);;
        tcp_send_skb skb true;;
        mret tt
    end.

Definition tcp_msl_timer : M conn unit :=
  tmod (fun t => t <| msl_timer := None |>);;
  t ← tget;
  massert (one_of (state t) [TCP_TIME_WAIT; TCP_LAST_ACK]);;
  tmod (fun t => t <| state := TCP_CLOSE |>);;
  tmod tcp_delete_tcb;;
  wake_owner.

Definition timer_of (k : timer_kind) (t : tcp_sock) : option Z :=
  match k with
  | Retransmit => retransmit_timer t
  | Persist => persist_timer t
  | Msl => msl_timer t
  end.

Definition timer_function (k : timer_kind) : M conn unit :=
  match k with
  | Retransmit => tcp_retransmit_timer
  | Persist => tcp_persist_timer
  | Msl => tcp_msl_timer
  end.

(** ** Events and the owner thread *)

(** The tick handler runs the function of an armed timer that has expired. *)
Definition handle_event (e : event) : M conn unit :=
  match e with
  | Rx frame => tcp_handler frame;; mret tt
  | Tick ms => modify (fun c => c <| now := u64 (now c + ms) |>)
  | Timeout k =>
      c ← gets id;
      match timer_of k (tsk c) with
      | Some e => if e <=? now c then timer_function k else mret tt
      | None => mret tt
      end
  | Resume => mret tt
  end.

(** The waiting thread runs again at a [Resume] after it was made ready. *)
Fixpoint run_events (evs : list event) : M conn unit :=
  match evs with
  | [] => mfail Fuel
  | e :: evs' =>
      w ← gets waiting;
      match e, w with
      | Resume, false => modify (fun c => c <| events := evs' |>)
      | _, _ => handle_event e;; run_events evs'
      end
  end.

(** Events are let in where a call of the owner thread sleeps in [schedule]. The network
    thread and the timer interrupt can also preempt a call between two statements; that
    interleaving is left out. *)
Definition tcp_schedule : M conn unit :=
  evs ← gets events;
  run_events evs.

(** ** Calls of the owner thread *)

(** [while (tcp_sender_available_window(tsk) > 0 && sock->sk->send_head)]. *)
Fixpoint send_window (n : nat) : M conn unit :=
  match n with
  | O => mfail Fuel
  | S n' =>
      c ← gets id;
      match send_head c with
      | Some id =>
          if 0 <? tcp_sender_available_window (tsk c) then
            skb ← deref (fun c => find_skb id (tx_queue c));
            skb ← tcp_send_skb skb false;
            modify (fun c => c <| send_head := next_of id (tx_queue c) |>);;
            c ← gets Datatypes.id;
            (if rtt_time (tsk c) =? 0 then
               massert (bool_decide (skb_id <$> head (tx_queue c) = Some (skb_id skb)));;
               tmod (fun t => t <| rtt_end_seq := cb_end_seq skb |> <| rtt_time := cb_when skb |>)
             else mret tt);;
            send_window n'
          else mret tt
      | None => mret tt
      end
  end.

(** One round per wait; a round sends at most the segments of the queue. *)
Fixpoint transmit_loop (n : nat) : M conn unit :=
  match n with
  | O => mfail Fuel
  | S n' =>
      q ← gets tx_queue;
      match q with
      | [] => mret tt
      | _ :: _ =>
          send_window (S (length q));;
          wait_owner;;
          tcp_schedule;;
          transmit_loop n'
      end
  end.

Definition tcp_transmit : M conn unit :=
  evs ← gets events;
  transmit_loop (S (length evs)).

Definition tcp_transmit_skb (skb : sk_buff) : M conn unit :=
  tcp_tx_queue_add_skb skb;;
  tcp_transmit.

Definition tcp_bind (myaddr : sockaddr_in) : M conn Z :=
  modify (fun c => c <| ssin := myaddr |>);;
  mret 0.

Definition tcp_listen (backlog : Z) : M conn Z :=
  tmod tcp_create_tcb;;
  massert false;;
  tmod (fun t => t <| state := TCP_LISTEN |>);;
  mret 0.

Definition tcp_accept : M conn Z :=
  massert false;;
  mret 0.

(** [rand()] gives the initial sequence number. *)
Definition tcp_connect (vaddr : sockaddr_in) (rand : Z) : M conn Z :=
  modify (fun c => c <| so_state := SS_CONNECTING |> <| dsin := vaddr |>);;
  tmod tcp_create_tcb;;
  tmod (fun t => t <| snd_iss := rand |>);;
  t ← tget;
  skb ← tcp_create_skb rand 0 TCPCB_FLAG_SYN (tcp_build_syn_options t) [];
  tcp_transmit_skb skb;;
  modify (fun c => c <| so_state := SS_CONNECTED |>);;
  t ← tget;
  mret (tcp_return_code t 0).

(** [for (uint32_t iwnd = 0; iwnd < mwnd;)]: the segments of one window. *)
Fixpoint queue_window (n : nat) (msg : list Z) (starting_nxt mmss mwnd iwnd msg_sent_len : Z) : M conn Z :=
  match n with
  | O => mfail Fuel
  | S n' =>
      if iwnd <? mwnd then
        let msg_len := Z.of_nat (length msg) in
        let advertised_window := Z.min (Z.min mmss mwnd) (msg_len - msg_sent_len) in
        let flags := if msg_sent_len + advertised_window =? msg_len then TCPCB_FLAG_PSH else 0 in
        massert (msg_sent_len + advertised_window <=? msg_len);;
        t ← tget;
        skb ← tcp_create_skb (u32 (starting_nxt + msg_sent_len)) (rcv_nxt t) (Z.lor TCPCB_FLAG_ACK flags) []
                (take (Z.to_nat advertised_window) (drop (Z.to_nat msg_sent_len) msg));
        tcp_tx_queue_add_skb skb;;
        queue_window n' msg starting_nxt mmss mwnd (iwnd + advertised_window) (msg_sent_len + advertised_window)
      else mret msg_sent_len
  end.

(** A byte sent into a closed window. *)
Definition window_probe (msg : list Z) (msg_sent_len : Z) : M conn unit :=
  t ← tget;
  massert (snd_una t =? snd_nxt t);;
  massert (snd_wnd t =? 0);;
  let flags := if msg_sent_len + 1 =? Z.of_nat (length msg) then TCPCB_FLAG_PSH else 0 in
  skb ← tcp_create_skb (snd_nxt t) (rcv_nxt t) (Z.lor flags TCPCB_FLAG_ACK) [] (take 1 (drop (Z.to_nat msg_sent_len) msg));
  ms ← gets now;
  tmod (fun t => t <| persist_timer := Some (u64 (ms + 1000)) |>);;
  tcp_transmit_skb skb;;
  tmod (fun t => t <| persist_timer := None |>).

Fixpoint sendmsg_loop (n : nat) (msg : list Z) (starting_nxt mmss msg_sent_len : Z) : M conn Z :=
  match n with
  | O => mfail Fuel
  | S n' =>
      t ← tget;
      let msg_len := Z.of_nat (length msg) in
      if (msg_sent_len <? msg_len) && bool_decide (state t = TCP_ESTABLISHED) then
        let mwnd := Z.min (Z.min (cwnd t) (tcp_sender_available_window t)) (msg_len - msg_sent_len) in
        (if mwnd =? 0 then window_probe msg msg_sent_len else mret tt);;
        msg_sent_len ← queue_window (S (Z.to_nat mwnd)) msg starting_nxt mmss mwnd 0 msg_sent_len;
        tcp_transmit;;
        sendmsg_loop n' msg starting_nxt mmss msg_sent_len
      else mret msg_sent_len
  end.

(** A round waits at least once. *)
Definition tcp_sendmsg (msg : list Z) : M conn Z :=
  c ← gets id;
  if bool_decide (so_state c = SS_DISCONNECTED) then mret (- ESHUTDOWN)
  else
    let mmss := Z.min (snd_mss (tsk c)) (rcv_mss (tsk c)) in
    msg_sent_len ← sendmsg_loop (S (length (events c))) msg (snd_nxt (tsk c)) mmss 0;
    t ← tget;
    mret (tcp_return_code t msg_sent_len).

(** The scan of the receive queue for the end of a message: the buffer that completes it. *)
Fixpoint find_message_end (msg_len received_len : Z) (q : list sk_buff) : M conn (option nat) :=
  match q with
  | [] => mret None
  | iter :: q' =>
      len ← tcp_payload_lenth iter;
      let received_len := u16 (received_len + len) in
      massert (received_len <=? msg_len);;
      if (msg_len =? received_len) || push (tcph iter) then mret (Some (skb_id iter))
      else find_message_end msg_len received_len q'
  end.

Fixpoint await_message (n : nat) (msg_len : Z) : M conn (option nat) :=
  match n with
  | O => mfail Fuel
  | S n' =>
      c ← gets id;
      if one_of (state (tsk c)) [TCP_ESTABLISHED; TCP_FIN_WAIT1] then
        last_skb ← find_message_end msg_len 0 (rx_queue c);
        match last_skb with
        | Some _ => mret last_skb
        | None => wait_owner;; tcp_schedule;; await_message n' msg_len
        end
      else mret None
  end.

(** The copying loop: the bytes copied and the buffers left. *)
Fixpoint take_message (last_skb : option nat) (q : list sk_buff) : M conn (list Z * list sk_buff) :=
  match q with
  | [] => mret ([], [])
  | iter :: q' =>
      payload_len ← tcp_payload_lenth iter;
      let data := take (Z.to_nat payload_len) (tcp_payload iter) in
      if bool_decide (last_skb = Some (skb_id iter)) then mret (data, q')
      else
        '(rest, q'') ← take_message last_skb q';
        mret (data ++ rest, q'')
  end.

(** The result and the bytes stored in the buffer of the caller. *)
Definition tcp_recvmsg (msg_len : Z) : M conn (Z * list Z) :=
  c ← gets id;
  if bool_decide (so_state c = SS_DISCONNECTED) then mret (- ESHUTDOWN, [])
  else
    modify (fun c => c <| rx_length := msg_len |>);;
    last_skb ← await_message (S (length (events c))) msg_len;
    q ← gets rx_queue;
    '(msg, q') ← take_message last_skb q;
    modify (fun c => c <| rx_queue := q' |> <| rx_length := 0 |>);;
    t ← tget;
    mret (tcp_return_code t (Z.of_nat (length msg)), msg).

Fixpoint await_close (n : nat) : M conn unit :=
  match n with
  | O => mfail Fuel
  | S n' =>
      t ← tget;
      if bool_decide (state t = TCP_CLOSE) then mret tt
      else wait_owner;; tcp_schedule;; await_close n'
  end.

Definition tcp_shutdown : M conn Z :=
  c ← gets id;
  if bool_decide (so_state c = SS_DISCONNECTED) then mret (- ESHUTDOWN)
  else
    skb ← tcp_create_skb (snd_nxt (tsk c)) (rcv_nxt (tsk c)) (Z.lor TCPCB_FLAG_ACK TCPCB_FLAG_FIN) [] [];
    tcp_transmit_skb skb;;
    await_close (S (length (events c)));;
    mret 0.

(** ** An example and a claim *)

(** A connection that has just been established with the peer. *)
Definition ex_local : sockaddr_in := mk_sockaddr_in 0x0A000001 4000.
Definition ex_peer : sockaddr_in := mk_sockaddr_in 0x0A000002 80.
Definition ex_tcb : tcp_sock :=
  let t := tcp_create_tcb (mk_tcp_sock TCP_CLOSE None 0 0 0 0 0 0 0 0 0 0 0 0 0 0 0 0 0 None 0 0 None 0 0 0 0) in
  t <| state := TCP_ESTABLISHED |> <| snd_iss := 1000 |> <| snd_una := 1001 |> <| snd_nxt := 1001 |> <| rcv_irs := 500 |> <| rcv_nxt := 501 |>.
Definition ex_conn (evs : list event) : conn :=
  mk_conn ex_tcb SS_CONNECTED ex_local ex_peer [] 0 [] None 5 false [] 0 (0, 0) evs.

(** C31: An option of length 0 in the answer to a SYN hangs the kernel. At an option whose kind is
    neither end nor padding and whose length byte is 0, the loop of [tcp_parse_syn_options]
    adds 0 to its index: it does not end after any number of rounds, whatever the rest of
    the options. *)
Theorem tcp_zero_option_loops (options : list Z) (len i k rmms window_scale : Z) (n : nat) (c : conn)
  (Hi : 0 <= i < len) (Hw : len < 2 ^ 32) (Hk : options !! Z.to_nat i = Some k) (Hn : k <> 0 /\ k <> 1)
  (Hl : options !! Z.to_nat (i + 1) = Some 0) (Hr : (Z.to_nat i + 3 < length options)%nat) :
  parse_options n options len i rmms window_scale c = Fail Fuel.
Proof.
  revert rmms window_scale. induction n as [|n IH]; intros rmms ws; [done|]. destruct Hn as [H0 H1]. cbn [parse_options]. rewrite (proj2 (Z.ltb_lt i len)) by lia.
  rewrite (bind_step _ _ c k c) by (by apply deref_some). rewrite (proj2 (Z.eqb_neq k 0)), (proj2 (Z.eqb_neq k 1)) by done. cbn [orb].
  destruct (lookup_lt_is_Some_2 options (Z.to_nat (i + 2)) ltac:(lia)) as [b2 E2]. destruct (lookup_lt_is_Some_2 options (Z.to_nat (i + 2 + 1)) ltac:(lia)) as [b3 E3].
  assert (exists r', (if k =? 2 then fst <$> tcp_get_option_value options (i + 2) rmms 2 else mret rmms) c = Ok (r', c)) as [r' Er].
  { destruct (k =? 2); [|by eexists]. eexists. unfold tcp_get_option_value, fmap, M_fmap, mbind, M_bind, byte_at, deref. cbn [Z.eqb Pos.eqb]. by rewrite E2, E3. }
  assert (exists w', (if k =? 3 then fst <$> tcp_get_option_value options (i + 2) ws 1 else mret ws) c = Ok (w', c)) as [w' Ew].
  { destruct (k =? 3); [|by eexists]. eexists. unfold tcp_get_option_value, fmap, M_fmap, mbind, M_bind, byte_at, deref. cbn [Z.eqb Pos.eqb]. by rewrite E2. }
  rewrite (bind_step _ _ _ _ _ Er), (bind_step _ _ _ _ _ Ew), (bind_step _ _ c 0 c) by (by apply deref_some).
  rewrite Z.add_0_r, u32_small by (unfold is_u32; lia). apply IH.
Qed.

Lemma tcp_zero_option_loops_witness :
  parse_options 1000 [2; 4; 5; 180; 8; 0; 0; 0] 8 4 0 0 (ex_conn []) = Fail Fuel.
Proof.
  apply (tcp_zero_option_loops _ 8 4 8 0 0 1000).
  - lia.
  - reflexivity.
  - reflexivity.
  - lia.
  - reflexivity.
  - simpl. lia.
Defined.
