(* ===== verification/TcpStates.v ===== *)
(** * The state of a TCP connection

    Which computations of [Tcp] leave the state of the connection alone, what sending a
    segment does to it, and what the validation of a received frame gives back. *)
From Stdlib Require Import ZArith Lia Bool List.
From coqutil Require Import Datatypes.RecordSetters.
From stdpp Require Import base list option relations.
From S2P Require Import Prelude Hoare Packet Tcp.
Import TriangleBracketNotations.

Open Scope Z_scope.

Ltac tstep :=
  lazymatch goal with
  | |- ends tget _ _ => apply ends_gets
  | |- ends (tmod _) _ _ => apply ends_modify
  | _ => estep
  end.

(** ** States *)

Definition synchronised (s : tcp_state) : bool :=
  one_of s [TCP_SYN_RECV; TCP_ESTABLISHED; TCP_FIN_WAIT1; TCP_FIN_WAIT2; TCP_CLOSE_WAIT; TCP_CLOSING; TCP_LAST_ACK; TCP_TIME_WAIT].

(** The state of the connection is [s]. *)
Definition in_state (s : tcp_state) (c : conn) : Prop := state (tsk c) = s.

(** Computations that leave the state of the connection alone. *)
Definition keeps {A} (m : M conn A) : Prop := forall s, pres (in_state s) m.

Lemma keeps_modify f : (forall c, state (tsk (f c)) = state (tsk c)) -> keeps (modify f).
Proof. intros Hf s. apply pres_modify. intros c Hs. unfold in_state in *. by rewrite Hf. Qed.

Lemma keeps_tmod f : (forall t, state (f t) = state t) -> keeps (tmod f).
Proof. intros Hf. apply keeps_modify. intros c. apply (Hf (tsk c)). Qed.

Ltac keep_state :=
  repeat match goal with
  | |- keeps _ => intros ?
  | |- pres (in_state ?s) (modify _) => apply (keeps_modify _ ltac:(done) s)
  | |- pres (in_state ?s) (tmod _) => apply (keeps_tmod _ ltac:(done) s)
  | |- pres _ tget => apply pres_gets
  | |- pres _ _ => progress keep
  end.

Lemma rto_state rtt t : state (tcp_calculate_rto rtt t) = state t.
Proof. unfold tcp_calculate_rto. by case_match. Qed.

Lemma congestion_state a t : state (tcp_calculate_congestion a t) = state t.
Proof. unfold tcp_calculate_congestion. by case_match. Qed.

Lemma keeps_drop_acked a all q : keeps (drop_acked a all q).
Proof. intros s. induction q as [|x q IH]; cbn [drop_acked]; keep_state; done. Qed.

Lemma keeps_accept_ack a all : keeps (tcp_accept_ack a all).
Proof.
  unfold tcp_accept_ack. keep_state; try apply keeps_drop_acked; apply keeps_tmod; intros t; apply (rto_state _ t).
Qed.

Lemma keeps_create_skb seq a f o d : keeps (tcp_create_skb seq a f o d).
Proof. unfold tcp_create_skb. keep_state. Qed.

Lemma keeps_parse n o len i r w : keeps (parse_options n o len i r w).
Proof.
  intros s. revert i r w. induction n as [|n IH]; intros i r w; cbn [parse_options]; unfold byte_at, tcp_get_option_value, byte_at; keep_state; apply IH.
Qed.

Lemma keeps_parse_syn o len : keeps (tcp_parse_syn_options o len).
Proof. unfold tcp_parse_syn_options. keep_state. apply keeps_parse. Qed.

Lemma keeps_payload_lenth skb : keeps (tcp_payload_lenth skb).
Proof. unfold tcp_payload_lenth. keep_state. Qed.

Lemma transition_state flags t : state (tcp_state_transition flags t) = next_state (state t) flags.
Proof. unfold tcp_state_transition. by case_match. Qed.

(** Sending a segment changes the state as [tcp_state_transition] says. *)
Lemma send_state skb r c s : in_state s c -> ends (tcp_send_skb skb r) c (fun _ => in_state (next_state s (u8 (cb_flags skb)))).
Proof.
  intros Hs. unfold tcp_send_skb. tstep. eapply ends_mono; [by apply keeps_payload_lenth|]. intros len c1 H1. cbv zeta.
  tstep. eapply ends_mono; [apply keeps_tmod; [done|exact H1]|]. intros ? c2 H2.
  tstep. eapply (ends_mono _ _ (fun _ => in_state s)); [ebranch; [by apply keeps_tmod|by tstep]|]. intros ? c3 H3.
  do 6 tstep. set (c4 := _ <| tx_queue ::= _ |>). assert (in_state s c4) as H4 by exact H3. clearbody c4.
  do 4 tstep. set (c5 := _ <| tsk ::= _ |>).
  assert (in_state (next_state s (u8 (cb_flags skb))) c5) as H5 by (rewrite <- H4; apply transition_state). clearbody c5.
  tstep. eapply (ends_mono _ _ (fun _ => in_state _)); [ebranch; [by apply keeps_tmod|by tstep]|]. intros ? c6 H6.
  repeat tstep. exact H6.
Qed.

Lemma create_flags seq a f o d c s : in_state s c -> ends (tcp_create_skb seq a f o d) c (fun skb c' => in_state s c' /\ cb_flags skb = f).
Proof. intros Hs. unfold tcp_create_skb. repeat tstep. done. Qed.

Lemma segment_state seq a flags c s : 0 <= flags < 256 -> in_state s c -> ends (send_segment seq a flags) c (fun _ => in_state (next_state s flags)).
Proof.
  intros Hf Hs. unfold send_segment. tstep. eapply ends_mono; [by apply create_flags|]. intros skb c' [Hc' Hfl].
  tstep. eapply ends_mono; [by apply send_state|]. intros ? c'' Hc''. tstep. rewrite Hfl in Hc''. unfold u8 in Hc''. by rewrite Z.mod_small in Hc''.
Qed.

(** A pure acknowledgement keeps a synchronised state. *)
Lemma segment_keeps seq a c s : in_state s c -> synchronised s = true -> ends (send_segment seq a TCPCB_FLAG_ACK) c (fun _ => in_state s).
Proof.
  intros Hs Hy. eapply ends_mono; [by apply segment_state|]. intros ? c' Hc. unfold in_state in *. rewrite Hc. by destruct s.
Qed.

Lemma keeps_start_msl : keeps start_msl_timer.
Proof. unfold start_msl_timer. keep_state. Qed.

Lemma wake_keeps : keeps wake_owner.
Proof. unfold wake_owner. keep_state. Qed.

Lemma one_of_all (P : tcp_state -> bool) s l : forallb P l = true -> one_of s l = true -> P s = true.
Proof. intros Hl Ho. apply bool_decide_eq_true in Ho. rewrite forallb_forall in Hl. apply Hl. by apply list_elem_of_In. Qed.

Lemma keeps_when (b : bool) (m : M conn unit) : keeps m -> keeps (if b then m else mret tt).
Proof. intros Hm. destruct b; [done|keep_state]. Qed.

Lemma close_keeps skb c : in_state TCP_CLOSE c -> ends (tcp_handler_close skb) c (fun _ => in_state TCP_CLOSE).
Proof.
  intros Hs. unfold tcp_handler_close. cbv zeta. tstep. eapply ends_mono; [eapply keeps_payload_lenth; exact Hs|]. intros len c1 H1.
  ebranch; [by tstep|]. do 2 tstep. ebranch; (eapply ends_mono; [eapply segment_state; [done|exact H1]|]); intros ? c2 H2; exact H2.
Qed.

(** ** Events *)

(** The validation of a received segment gives it back as it was. *)
Lemma put16_restores off p : Forall byte_ok p -> put16 off (get16 off p) (put16 off 0 p) = p.
Proof.
  intros Hp. rewrite put16_put16. apply list_eq. intros i. unfold put16, put8.
  pose proof (get8_byte_ok off p Hp) as H0. pose proof (get8_byte_ok (off + 1) p Hp) as H1. unfold byte_ok in *.
  assert (u8 (get16 off p) = get8 off p /\ u8 (get16 off p / 256) = get8 (off + 1) p) as [-> ->].
  { unfold get16, u8. change (2 ^ 8) with 256. Z.to_euclidean_division_equations. lia. }
  assert (forall j b (q : list Z), q !! j = p !! j -> get8 j p = b -> <[j := b]> q !! j = p !! j) as Hset.
  { intros j b q Hq <-. destruct (decide (j < length q)%nat) as [Hl|Hl].
    - rewrite list_lookup_insert_eq by done. destruct (p !! j) eqn:E; [by rewrite (get8_lookup _ _ _ E)|].
      apply lookup_ge_None in Hq. lia.
    - by rewrite list_insert_ge by lia. }
  destruct (decide (i = off + 1)%nat) as [->|Hi].
  - apply Hset; [|done]. by rewrite list_lookup_insert_ne by lia.
  - rewrite list_lookup_insert_ne by done. destruct (decide (i = off)) as [->|Hi']; [by apply Hset|by rewrite list_lookup_insert_ne].
Qed.

Lemma validate_restores tcp len src dst : Forall byte_ok tcp -> (tcp_validate_header tcp len src dst).2 = tcp.
Proof. intros Hp. unfold tcp_validate_header, tcp_calculate_checksum. cbn [snd]. by apply put16_restores. Qed.

Lemma keeps_after_retransmission skb : keeps (after_retransmission skb).
Proof. unfold after_retransmission. keep_state. Qed.

Lemma retransmit_state c s : in_state s c ->
  ends tcp_retransmit_timer c (fun _ c' => exists x q, tx_queue c = x :: q /\ in_state (next_state s (u8 (cb_flags x))) c').
Proof.
  intros Hs. unfold tcp_retransmit_timer. do 4 tstep. set (c0 := _ <| tsk ::= _ |>). assert (in_state s c0) as H0 by exact Hs.
  change (tx_queue c) with (tx_queue c0). clearbody c0. do 2 tstep. destruct (tx_queue c0) as [|x q] eqn:Eq; [tstep|].
  tstep. eapply ends_mono; [by apply send_state|]. intros y c1 H1. cbn beta in H1.
  eapply ends_mono; [|intros ? c2 Hc2; exists x, q; split; [done|exact Hc2]]. revert H1. generalize (next_state s (u8 (cb_flags x))). intros s'.
  apply keeps_after_retransmission.
Qed.

Lemma persist_state c s : in_state s c ->
  ends tcp_persist_timer c (fun _ c' => in_state s c' \/ exists x q, tx_queue c = x :: q /\ in_state (next_state s (u8 (cb_flags x))) c').
Proof.
  intros Hs. unfold tcp_persist_timer. do 4 tstep. ebranch; [tstep; by left|]. do 2 tstep. set (c0 := _ <| tsk ::= _ |>). assert (in_state s c0) as H0 by exact Hs.
  change (tx_queue c) with (tx_queue c0). clearbody c0. do 2 tstep. destruct (tx_queue c0) as [|x q] eqn:Eq; [tstep|].
  tstep. eapply ends_mono; [by apply keeps_payload_lenth|]. intros len c1 H1. cbn beta in H1. do 3 tstep. eapply ends_mono; [by apply send_state|].
  intros ? c2 H2. tstep. right. eauto.
Qed.

Lemma msl_state c s : in_state s c -> ends tcp_msl_timer c (fun _ c' => (s = TCP_TIME_WAIT \/ s = TCP_LAST_ACK) /\ in_state TCP_CLOSE c').
Proof.
  intros Hs. unfold tcp_msl_timer, wake_owner. repeat tstep. split; [|done]. assert (one_of (state (tsk c)) [TCP_TIME_WAIT; TCP_LAST_ACK] = true) as Ho by exact H. rewrite Hs in Ho. destruct s; eauto; done.
Qed.

(** ** Frames a peer sends *)

(** The frame of a segment from [src] to [dst], as the builders of [Packet] make it. *)
Definition wire_frame (src dst : sockaddr_in) (seq ack_nr flags wnd : Z) (options data : list Z) : list Z :=
  let len := TCP_HEADER + Z.of_nat (length options) + Z.of_nat (length data) in
  match tcp_build_header (replicate (20 + length options) 0 ++ data) (sin_addr src) (sin_port src) (sin_addr dst) (sin_port dst)
          seq ack_nr flags wnd options len with
  | Ok tcp => replicate 12 0 ++ [8; 0] ++ ip4_build_header (replicate 20 0) (len + IP4_HEADER) IP4_PROTOCAL_TCP (sin_addr src) (sin_addr dst) 1 ++ tcp
  | Fail _ => []
  end.
