(* ===== verification/TcpStream.v ===== *)
(** * The byte stream of a TCP connection

    What the receive path of [Tcp] delivers: the text of the segments in the order
    they were accepted, which is the order of the stream when they arrive in order;
    the handshake of [tcp_connect]; and the runs that stop the kernel. *)
From Stdlib Require Import ZArith Lia Bool List.
From coqutil Require Import Datatypes.RecordSetters.
From stdpp Require Import base list option sets.
From S2P Require Import Prelude Hoare Packet Tcp TcpStates.
Import TriangleBracketNotations.

Open Scope Z_scope.

(** ** Sending acknowledgements *)

(** No queued segment has the identity of the next buffer. *)
Definition fresh (c : conn) : Prop := Forall (fun x => (skb_id x < next_skb c)%nat) (tx_queue c).

Lemma set_skb_fresh skb q n : Forall (fun x => (skb_id x < n)%nat) q -> (n <= skb_id skb)%nat -> set_skb skb q = q.
Proof.
  intros Hq Hn. unfold set_skb. induction Hq as [|x q Hx _ IH]; [done|]. cbn. rewrite IH. f_equal.
  destruct (Nat.eqb_spec (skb_id x) (skb_id skb)); [lia|done].
Qed.

(** The buffer of a bare segment, as it goes out. *)
Definition bare_segment (c : conn) (seq a flags : Z) : sk_buff :=
  mk_sk_buff (next_skb c) 40 5
    (mk_tcp_packet (u32 seq) (u32 a) 5 (has flags TCPCB_FLAG_FIN) (has flags TCPCB_FLAG_SYN) (has flags TCPCB_FLAG_RST)
       (has flags TCPCB_FLAG_PSH) (has flags TCPCB_FLAG_ACK) (u16 (rcv_wnd (tsk c))) [])
    (u32 seq) (u32 seq) flags (u64 (now c + rto (tsk c))) (now c).

Lemma transition_ack t : synchronised (state t) = true -> tcp_state_transition TCPCB_FLAG_ACK t = t.
Proof.
  intros Hy. unfold tcp_state_transition. assert (next_state (state t) TCPCB_FLAG_ACK = state t) as -> by (destruct t as [s]; by destruct s).
  destruct t as [s]. cbn -[bool_decide]. rewrite bool_decide_eq_true_2 by done. done.
Qed.

Lemma flight_same t : is_u32 (flight_size t) -> t <| flight_size := u32 (flight_size t + 0) |> = t.
Proof. intros Hf. rewrite Z.add_0_r, u32_small by done. by destruct t. Qed.

(** [tcp_send_skb] as a function: what goes out and the connection after it. *)
Definition activates (skb : sk_buff) (r : bool) (len : Z) : bool := negb r && ((0 <? len) || syn (tcph skb) || fin (tcph skb)).
Definition stamped (c : conn) (skb : sk_buff) : sk_buff := skb <| cb_when := now c |> <| cb_expires := u64 (now c + rto (tsk c)) |>.
Definition tsk_sent (c : conn) (skb : sk_buff) (r : bool) (len : Z) : tcp_sock :=
  let t := (tsk c) <| flight_size := u32 (flight_size (tsk c) + len) |> in
  let t := if activates skb r len then t <| snd_nxt := u32 (cb_end_seq skb + 1) |> else t in
  let t := tcp_state_transition (u8 (cb_flags skb)) t in
  if negb (bool_decide (is_Some (retransmit_timer t))) && activates skb r len then t <| retransmit_timer := Some (cb_expires (stamped c skb)) |> else t.

Definition payload_length (skb : sk_buff) : Z := total_length skb - (ihl skb + data_offset (tcph skb)) * 4.

Lemma payload_lenth_exec skb c : 0 <= payload_length skb < 65536 -> tcp_payload_lenth skb c = Ok (payload_length skb, c).
Proof.
  intros Hl. unfold tcp_payload_lenth. fold (payload_length skb). rewrite (bind_step _ _ _ _ _ (massert_true _ c (proj2 (Z.leb_le 0 _) (proj1 Hl)))).
  unfold u16. by rewrite Z.mod_small by lia.
Qed.

Lemma send_exec skb r c :
  0 <= payload_length skb < 65536 ->
  tcp_send_skb skb r c =
  Ok (stamped c skb, c <| tsk := tsk_sent c skb r (payload_length skb) |> <| tx_queue := set_skb (stamped c skb) (tx_queue c) |> <| sent := sent c ++ [stamped c skb] |>).
Proof.
  intros Hl. unfold tcp_send_skb. rewrite (bind_step _ _ _ _ _ (payload_lenth_exec skb c Hl)). unfold tsk_sent. cbv zeta.
  fold (activates skb r (payload_length skb)). set (t1 := (tsk c) <| flight_size := _ |>).
  pose (c1 := c <| tsk := t1 |>). rewrite (bind_step _ _ c tt c1) by reflexivity. set (t2 := if activates _ _ _ then _ else t1).
  rewrite (bind_step _ _ _ tt (c <| tsk := t2 |>)); [|by unfold t2; destruct (activates _ _ _)].
  rewrite (bind_step _ _ _ (now c) (c <| tsk := t2 |>)) by reflexivity. rewrite (bind_step _ _ _ t2 (c <| tsk := t2 |>)) by reflexivity.
  replace (rto t2) with (rto (tsk c)) by (unfold t2, t1; by destruct (activates _ _ _)).
  fold (stamped c skb). set (t3 := tcp_state_transition _ t2).
  pose (c3 := c <| tsk := t2 |> <| tx_queue := set_skb (stamped c skb) (tx_queue c) |>).
  pose (c4 := c <| tsk := t3 |> <| tx_queue := set_skb (stamped c skb) (tx_queue c) |>).
  rewrite (bind_step _ _ _ tt c3) by reflexivity. rewrite (bind_step _ _ _ tt c4) by reflexivity. rewrite (bind_step _ _ _ t3 c4) by reflexivity.
  destruct (negb _ && _); reflexivity.
Qed.

Lemma create_exec seq a flags c :
  tcp_create_skb seq a flags [] [] c =
  Ok (mk_sk_buff (next_skb c) 40 5 (tcph (bare_segment c seq a flags)) (u32 seq) (u32 seq) flags 0 0, c <| next_skb := S (next_skb c) |>).
Proof.
  assert (tcp_create_skb seq a flags [] [] c =
    Ok (mk_sk_buff (next_skb c) 40 5 (tcph (bare_segment c seq a flags)) (u32 seq) (u32 (seq + 0)) flags 0 0, c <| next_skb := S (next_skb c) |>)) as E by reflexivity.
  by rewrite E, Z.add_0_r.
Qed.

Lemma send_ack_exec seq a c :
  synchronised (state (tsk c)) = true -> fresh c -> is_u32 (flight_size (tsk c)) ->
  send_segment seq a TCPCB_FLAG_ACK c =
  Ok (tt, c <| next_skb := S (next_skb c) |> <| sent := sent c ++ [bare_segment c seq a TCPCB_FLAG_ACK] |>).
Proof.
  intros Hy Hf Hfl. unfold send_segment. rewrite (bind_step _ _ _ _ _ (create_exec seq a TCPCB_FLAG_ACK c)).
  set (skb := mk_sk_buff _ _ _ _ _ _ _ _ _). set (c1 := c <| next_skb := _ |>).
  rewrite (bind_step _ _ _ _ _ (send_exec skb false c1 ltac:(split; [discriminate|reflexivity]))), mret_ok. f_equal. f_equal.
  rewrite (set_skb_fresh (stamped c1 skb) _ (next_skb c)) by (done || apply Nat.le_refl).
  assert (tsk_sent c1 skb false (payload_length skb) = tsk c) as ->; [|by destruct c].
  unfold tsk_sent. change (activates _ _ _) with false. change (payload_length _) with 0. cbv zeta. rewrite andb_false_r.
  change (tsk c1) with (tsk c). rewrite flight_same by done. by apply transition_ack.
Qed.

(** ** Receiving text *)

(** An established connection with nothing in flight. *)
Record quiet (c : conn) : Prop := {
  quiet_state : state (tsk c) = TCP_ESTABLISHED;
  quiet_flight : flight_size (tsk c) = 0;
  quiet_una : snd_una (tsk c) <= snd_nxt (tsk c);
  quiet_fresh : fresh c }.

(** A segment with text only, which acknowledges nothing new. *)
Record text_segment (una : Z) (skb : sk_buff) : Prop := {
  text_rst : rst (tcph skb) = false;
  text_syn : syn (tcph skb) = false;
  text_fin : fin (tcph skb) = false;
  text_ack : ack (tcph skb) = true;
  text_ack_number : ack_number (tcph skb) = una;
  text_length : 0 < payload_length skb < 65536;
  text_data : (Z.to_nat (payload_length skb) <= length (tcp_payload skb))%nat }.

Definition received (c : conn) (skb : sk_buff) : conn :=
  let c1 := c <| rx_queue := rx_queue c ++ [skb] |> <| tsk := (tsk c) <| rcv_nxt := u32 (rcv_nxt (tsk c) + payload_length skb) |> |> in
  c1 <| next_skb := S (next_skb c) |> <| sent := sent c ++ [bare_segment c1 (snd_nxt (tsk c1)) (rcv_nxt (tsk c1)) TCPCB_FLAG_ACK] |> <| waiting := false |>.

(** Step five leaves a quiet connection alone. *)
Lemma process_ack_quiet c skb :
  quiet c -> text_segment (snd_una (tsk c)) skb -> process_ack skb (payload_length skb) c = Ok (true, c).
Proof.
  intros [Hs Hfl Hu _] [_ _ _ _ Ha [Hl _] _]. unfold process_ack. rewrite (bind_step _ _ c (tsk c) c) by reflexivity. cbv zeta. rewrite Hs, Ha.
  rewrite bool_decide_eq_false_2 by done. change (one_of TCP_ESTABLISHED _) with true. cbv iota.
  rewrite Z.ltb_irrefl. cbn [andb].
  rewrite (proj2 (Z.eqb_neq (payload_length skb) 0)) by lia. rewrite andb_false_r. rewrite Hfl. cbn [andb Z.ltb Z.compare].
  by rewrite (proj2 (Z.ltb_ge _ _) Hu).
Qed.

Lemma process_text_exec c skb :
  quiet c -> text_segment (snd_una (tsk c)) skb ->
  exists c', process_text skb (payload_length skb) c = Ok (true, c') /\ c' <| waiting := false |> = received c skb /\ state (tsk c') = TCP_ESTABLISHED.
Proof.
  intros [Hs Hfl _ Hf] [_ _ _ _ _ [Hl _] _]. unfold process_text. rewrite (bind_step _ _ c (tsk c) c) by reflexivity. rewrite Hs.
  change (one_of TCP_ESTABLISHED _) with true. cbv iota. rewrite (proj2 (Z.ltb_lt 0 _) Hl). cbn [orb].
  pose (c0 := c <| rx_queue := rx_queue c ++ [skb] |>). rewrite (bind_step _ _ c tt c0) by reflexivity.
  pose (c1 := c0 <| tsk := (tsk c) <| rcv_nxt := u32 (rcv_nxt (tsk c) + payload_length skb) |> |>).
  rewrite (bind_step _ _ c0 tt c1) by reflexivity. rewrite (bind_step _ _ c1 (tsk c1) c1) by reflexivity.
  rewrite (bind_step _ _ c1 _ _ (send_ack_exec _ _ c1 ltac:(by change (state (tsk c1)) with (state (tsk c)); rewrite Hs) Hf
             ltac:(change (flight_size (tsk c1)) with (flight_size (tsk c)); rewrite Hfl; split; [discriminate|reflexivity]))).
  eexists. split; [reflexivity|]. split; [reflexivity|]. exact Hs.
Qed.

(** Whatever its sequence number, an acceptable segment is appended to the receive queue. *)
Lemma text_exec c skb :
  quiet c -> text_segment (snd_una (tsk c)) skb -> acceptable_segment (tsk c) (sequence_number (tcph skb)) (payload_length skb) = true ->
  tcp_dispatch skb c = Ok (tt, received c skb).
Proof.
  intros Hq Ht Ha. pose proof (process_ack_quiet c skb Hq Ht) as E5. destruct (process_text_exec c skb Hq Ht) as (c' & E7 & <- & Hs').
  destruct Hq as [Hs _ _ _], Ht as [Hr Hsy Hf Hk _ Hl _]. unfold tcp_dispatch. rewrite (bind_step _ _ c (tsk c) c) by reflexivity. rewrite Hs.
  unfold tcp_handler_established. cbv zeta. rewrite (bind_step _ _ _ _ _ (payload_lenth_exec skb c ltac:(lia))).
  rewrite (bind_step _ _ c (tsk c) c) by reflexivity. rewrite Ha, Hr, Hsy, Hk. cbn [negb andb].
  rewrite (bind_step _ _ _ _ _ E5). cbn [negb]. rewrite (bind_step _ _ c true c) by (unfold process_fin_acked; rewrite (bind_step _ _ c c c) by reflexivity; by rewrite Hs).
  cbn [negb]. rewrite (bind_step _ _ _ _ _ E7), (bind_step _ _ c' (tsk c') c') by reflexivity. rewrite Hf. cbn [andb]. reflexivity.
Qed.

(** ** A message *)

Fixpoint deliver (skbs : list sk_buff) : M conn unit :=
  match skbs with
  | [] => mret tt
  | skb :: skbs' => tcp_dispatch skb;; deliver skbs'
  end.

(** Every segment is acceptable when it arrives. *)
Fixpoint all_acceptable (c : conn) (skbs : list sk_buff) : Prop :=
  match skbs with
  | [] => True
  | skb :: skbs' => acceptable_segment (tsk c) (sequence_number (tcph skb)) (payload_length skb) = true /\ all_acceptable (received c skb) skbs'
  end.

Definition text (skb : sk_buff) : list Z := take (Z.to_nat (payload_length skb)) (tcp_payload skb).
Definition text_length_of (skbs : list sk_buff) : Z := foldr (fun s n => payload_length s + n) 0 skbs.

Lemma received_quiet c skb : quiet c -> quiet (received c skb).
Proof.
  intros [Hs Hfl Hu Hf]. split; try done. unfold fresh in *. eapply list.Forall_impl; [exact Hf|]. intros x Hx. cbn beta in Hx. change (skb_id x < S (next_skb c))%nat. lia.
Qed.

Lemma deliver_exec c skbs :
  quiet c -> Forall (text_segment (snd_una (tsk c))) skbs -> all_acceptable c skbs -> deliver skbs c = Ok (tt, foldl received c skbs).
Proof.
  revert c. induction skbs as [|s skbs IH]; intros c Hq Hts Ha; [done|]. apply list.Forall_cons in Hts as [Ht Hts]. destruct Ha as [Ha Ha'].
  cbn [deliver foldl]. rewrite (bind_step _ _ _ _ _ (text_exec c s Hq Ht Ha)). apply IH; [by apply received_quiet|done|done].
Qed.

Lemma received_all c skbs :
  let c' := foldl received c skbs in
  rx_queue c' = rx_queue c ++ skbs /\ events c' = events c /\ so_state c' = so_state c /\ state (tsk c') = state (tsk c) /\
  (is_u32 (rcv_nxt (tsk c)) -> rcv_nxt (tsk c') = u32 (rcv_nxt (tsk c) + text_length_of skbs)).
Proof.
  revert c. induction skbs as [|s skbs IH]; intros c; cbn [foldl].
  - rewrite app_nil_r. split_and!; try done. intros Hn. cbn. by rewrite Z.add_0_r, u32_small.
  - destruct (IH (received c s)) as (E1 & E2 & E3 & E4 & E5). split_and!; try done.
    + rewrite E1. change (rx_queue (received c s)) with (rx_queue c ++ [s]). by rewrite <- app_assoc.
    + intros Hn. rewrite E5 by (change (rcv_nxt (tsk (received c s))) with (u32 (rcv_nxt (tsk c) + payload_length s)); unfold is_u32, u32; apply Z.mod_pos_bound; lia).
      change (rcv_nxt (tsk (received c s))) with (u32 (rcv_nxt (tsk c) + payload_length s)). cbn [text_length_of foldr]. unfold u32. rewrite Zplus_mod_idemp_l. f_equal. unfold text_length_of. lia.
Qed.

(** The receive queue holds a message of [msg_len] bytes or one that ends in a PUSH. *)
Record message (msg_len : Z) (skbs : list sk_buff) : Prop := {
  msg_split : exists init last, skbs = init ++ [last] /\ Forall (fun s => push (tcph s) = false) init /\
                (push (tcph last) = true \/ text_length_of skbs = msg_len);
  msg_ids : NoDup (skb_id <$> skbs);
  msg_fits : text_length_of skbs <= msg_len < 65536 }.

Lemma text_length_app l1 l2 : text_length_of (l1 ++ l2) = text_length_of l1 + text_length_of l2.
Proof. unfold text_length_of in *. induction l1 as [|s l1 IH]; [done|]. cbn in *. rewrite IH. lia. Qed.

Lemma text_length_nonneg una skbs : Forall (text_segment una) skbs -> 0 <= text_length_of skbs.
Proof. induction 1 as [|s skbs Hs _ IH]; [done|]. cbn. pose proof (text_length _ _ Hs). fold (text_length_of skbs). lia. Qed.

Lemma text_lenth_exec una skb c : text_segment una skb -> tcp_payload_lenth skb c = Ok (payload_length skb, c).
Proof. intros Ht. apply payload_lenth_exec. pose proof (text_length _ _ Ht). lia. Qed.

Lemma find_message_end_exec una c msg_len acc init last :
  Forall (text_segment una) (init ++ [last]) -> Forall (fun s => push (tcph s) = false) init -> 0 <= acc ->
  acc + text_length_of (init ++ [last]) <= msg_len -> msg_len < 65536 ->
  push (tcph last) = true \/ acc + text_length_of (init ++ [last]) = msg_len ->
  find_message_end msg_len acc (init ++ [last]) c = Ok (Some (skb_id last), c).
Proof.
  revert acc. induction init as [|s init IH]; intros acc Hts Hp H0 Hfit Hm Hend; cbn [app find_message_end];
    apply list.Forall_cons in Hts as [Ht Hts]; pose proof (text_length _ _ Ht) as Hl;
    (rewrite (bind_step _ _ _ _ _ (text_lenth_exec _ _ c Ht))); cbv zeta.
  - change (text_length_of ([] ++ [last])) with (payload_length last + 0) in *. unfold u16. rewrite Z.mod_small by lia. rewrite (bind_step _ _ c tt c) by (apply massert_true, Z.leb_le; lia).
    destruct Hend as [->|Hend]; [by rewrite orb_true_r|]. by rewrite (proj2 (Z.eqb_eq msg_len (acc + payload_length last))) by lia.
  - change (Forall (text_segment una) (init ++ [last])) in Hts. change (text_length_of ((s :: init) ++ [last])) with (payload_length s + text_length_of (init ++ [last])) in *. pose proof (text_length_nonneg _ _ Hts). unfold u16. rewrite Z.mod_small by lia.
    rewrite (bind_step _ _ c tt c) by (apply massert_true, Z.leb_le; lia).
    apply list.Forall_cons in Hp as [-> Hp].
    assert (0 < text_length_of (init ++ [last])) by (apply list.Forall_app in Hts as [H1 H2]; rewrite text_length_app; pose proof (text_length_nonneg _ _ H1);
      apply list.Forall_cons in H2 as [H2 _]; pose proof (text_length _ _ H2); cbn; lia).
    rewrite (proj2 (Z.eqb_neq msg_len (acc + payload_length s))) by lia. cbn [orb]. apply IH; try done; try lia. destruct Hend as [?|Hend]; [by left|right; lia].
Qed.

Lemma take_message_exec una c init last :
  Forall (text_segment una) (init ++ [last]) -> NoDup (skb_id <$> init ++ [last]) ->
  take_message (Some (skb_id last)) (init ++ [last]) c = Ok ((mjoin (text <$> init ++ [last]), []), c).
Proof.
  induction init as [|s init IH]; intros Hts Hnd; cbn [app take_message]; apply list.Forall_cons in Hts as [Ht Hts]; pose proof (text_length _ _ Ht) as Hl;
    (rewrite (bind_step _ _ _ _ _ (text_lenth_exec _ _ c Ht))); cbv zeta.
  - fold (text last). rewrite bool_decide_eq_true_2 by done. cbn. by rewrite app_nil_r.
  - change (Forall (text_segment una) (init ++ [last])) in Hts. fold (text s). cbn [fmap list_fmap app] in Hnd. apply list.NoDup_cons in Hnd as [Hn Hnd]. rewrite bool_decide_eq_false_2.
    + rewrite (bind_step _ _ _ _ _ (IH Hts Hnd)). done.
    + intros [= E]. apply Hn. rewrite fmap_app. cbn. rewrite <- E. set_solver.
Qed.

Lemma text_length_join una skbs : Forall (text_segment una) skbs -> Z.of_nat (length (mjoin (text <$> skbs))) = text_length_of skbs.
Proof.
  induction 1 as [|s skbs Hs _ IH]; [done|]. change (mjoin (text <$> s :: skbs)) with (text s ++ mjoin (text <$> skbs)).
  rewrite length_app, Nat2Z.inj_add, IH. unfold text. rewrite length_take.
  pose proof (text_length _ _ Hs). pose proof (text_data _ _ Hs). change (text_length_of (s :: skbs)) with (payload_length s + text_length_of skbs). lia.
Qed.

(** Delivering the segments of a message and reading it. *)
Lemma recv_exec una c msg_len skbs :
  state (tsk c) = TCP_ESTABLISHED -> so_state c <> SS_DISCONNECTED -> rx_queue c = skbs -> Forall (text_segment una) skbs -> message msg_len skbs ->
  tcp_recvmsg msg_len c = Ok ((text_length_of skbs, mjoin (text <$> skbs)), c <| rx_queue := [] |> <| rx_length := 0 |>).
Proof.
  intros Hs Hso Hrx Hts [(init & last & -> & Hp & Hend) Hids [Hfit Hm]]. unfold tcp_recvmsg. rewrite (bind_step _ _ c c c) by reflexivity.
  rewrite bool_decide_eq_false_2 by done. pose (c1 := c <| rx_length := msg_len |>). rewrite (bind_step _ _ c tt c1) by reflexivity.
  rewrite (bind_step _ _ c1 (Some (skb_id last)) c1).
  2: { cbn [await_message]. rewrite (bind_step _ _ c1 c1 c1) by reflexivity. change (state (tsk c1)) with (state (tsk c)). rewrite Hs. change (one_of TCP_ESTABLISHED _) with true. cbv iota.
       change (rx_queue c1) with (rx_queue c). rewrite Hrx. by rewrite (bind_step _ _ _ _ _ (find_message_end_exec una c1 msg_len 0 init last Hts Hp ltac:(lia) Hfit Hm Hend)). }
  rewrite (bind_step _ _ c1 (init ++ [last]) c1) by (rewrite <- Hrx; reflexivity).
  rewrite (bind_step _ _ _ _ _ (take_message_exec una c1 init last Hts Hids)). pose (c2 := c <| rx_queue := [] |> <| rx_length := 0 |>).
  rewrite (bind_step _ _ c1 tt c2) by reflexivity. rewrite (bind_step _ _ c2 (tsk c2) c2) by reflexivity. unfold tcp_return_code.
  change (state (tsk c2)) with (state (tsk c)). rewrite Hs. by rewrite (text_length_join una).
Qed.

(** A segment that starts or ends in the window is acceptable. *)
Lemma in_window_acceptable una c skb :
  text_segment una skb -> 0 <= rcv_nxt (tsk c) -> 0 <= sequence_number (tcph skb) ->
  rcv_nxt (tsk c) + rcv_wnd (tsk c) < 2 ^ 32 -> sequence_number (tcph skb) + payload_length skb < 2 ^ 32 -> 0 < rcv_wnd (tsk c) ->
  (rcv_nxt (tsk c) <= sequence_number (tcph skb) < rcv_nxt (tsk c) + rcv_wnd (tsk c) \/
   rcv_nxt (tsk c) <= sequence_number (tcph skb) + payload_length skb < rcv_nxt (tsk c) + rcv_wnd (tsk c)) ->
  acceptable_segment (tsk c) (sequence_number (tcph skb)) (payload_length skb) = true.
Proof.
  intros Ht Hn Hs Hb Hb' Hw Hin. pose proof (text_length _ _ Ht). unfold acceptable_segment, u32. rewrite !Z.mod_small by lia.
  rewrite (proj2 (Z.eqb_neq (rcv_wnd _) 0)), (proj2 (Z.ltb_lt 0 (payload_length skb))) by lia. cbn [negb].
  rewrite orb_true_iff, !andb_true_iff, !Z.leb_le, !Z.ltb_lt. lia.
Qed.

(** The segments continue the stream at [nxt]. *)
Fixpoint in_order (nxt : Z) (skbs : list sk_buff) : Prop :=
  match skbs with
  | [] => True
  | skb :: skbs' => sequence_number (tcph skb) = nxt /\ in_order (nxt + payload_length skb) skbs'
  end.

Lemma in_order_acceptable una c skbs :
  Forall (text_segment una) skbs -> is_u32 (rcv_nxt (tsk c)) -> 0 < rcv_wnd (tsk c) -> rcv_nxt (tsk c) + text_length_of skbs + rcv_wnd (tsk c) < 2 ^ 32 ->
  in_order (rcv_nxt (tsk c)) skbs -> all_acceptable c skbs.
Proof.
  intros Hts. revert c. induction Hts as [|s skbs Ht Hts IH]; intros c Hn Hw Hb Ho; [done|]. destruct Ho as [Es Ho].
  change (text_length_of (s :: skbs)) with (payload_length s + text_length_of skbs) in Hb. pose proof (text_length _ _ Ht). pose proof (text_length_nonneg _ _ Hts).
  unfold is_u32 in Hn. assert (rcv_nxt (tsk (received c s)) = rcv_nxt (tsk c) + payload_length s) as En
    by (change (rcv_nxt (tsk (received c s))) with (u32 (rcv_nxt (tsk c) + payload_length s)); unfold u32; rewrite Z.mod_small; lia).
  split.
  - apply (in_window_acceptable _ _ _ Ht); rewrite ?Es; lia.
  - apply IH; rewrite ?En; unfold is_u32; try lia; try done. change (rcv_wnd (tsk (received c s))) with (rcv_wnd (tsk c)). lia.
Qed.

Lemma deliver_recv c skbs msg_len :
  quiet c -> rx_queue c = [] -> so_state c <> SS_DISCONNECTED -> Forall (text_segment (snd_una (tsk c))) skbs -> message msg_len skbs -> all_acceptable c skbs ->
  (deliver skbs;; tcp_recvmsg msg_len) c =
  Ok ((text_length_of skbs, mjoin (text <$> skbs)), (foldl received c skbs) <| rx_queue := [] |> <| rx_length := 0 |>).
Proof.
  intros Hq Hrx Hso Hts Hm Ha. rewrite (bind_step _ _ _ _ _ (deliver_exec c skbs Hq Hts Ha)).
  destruct (received_all c skbs) as (E1 & _ & E3 & E4 & _). rewrite Hrx in E1.
  apply (recv_exec (snd_una (tsk c))); [rewrite E4; apply Hq|by rewrite E3|done|done|done].
Qed.

(** The last acknowledgement covers everything received. *)
Lemma last_ack c skbs last :
  exists segs seg, sent (foldl received c (skbs ++ [last])) = segs ++ [seg] /\
    ack_number (tcph seg) = rcv_nxt (tsk (foldl received c (skbs ++ [last]))) /\ ack (tcph seg) = true.
Proof.
  rewrite foldl_app. cbn [foldl]. set (c0 := foldl received c skbs). eexists _, _. split; [reflexivity|]. split; [|reflexivity].
  change (ack_number _) with (u32 (u32 (rcv_nxt (tsk c0) + payload_length last))).
  change (rcv_nxt (tsk (received c0 last))) with (u32 (rcv_nxt (tsk c0) + payload_length last)). apply Z.mod_mod. lia.
Qed.

(** Two segments without PUSH, read as one message of their length. *)
Lemma deliver_two c a b :
  quiet c -> rx_queue c = [] -> so_state c <> SS_DISCONNECTED -> text_segment (snd_una (tsk c)) a -> text_segment (snd_una (tsk c)) b ->
  push (tcph a) = false -> skb_id a <> skb_id b -> payload_length a + payload_length b < 65536 -> all_acceptable c [a; b] ->
  exists c', (deliver [a; b];; tcp_recvmsg (payload_length a + payload_length b)) c = Ok ((payload_length a + payload_length b, text a ++ text b), c').
Proof.
  intros Hq Hrx Hso Ha Hb Hp Hid Hm Hacc.
  assert (text_length_of [a; b] = payload_length a + payload_length b) as El by (cbn; lia).
  eexists. rewrite (deliver_recv c [a; b]); [rewrite El; cbn; by rewrite app_nil_r|done|done|done|constructor; [done|constructor; [done|constructor]]| |done].
  split; [|cbn; apply list.NoDup_cons; split; [set_solver|apply NoDup_singleton]|rewrite El; lia].
  exists [a], b. split_and!; [done|by repeat constructor|by right].
Qed.

(** ** Claims *)

(** C28: A message that arrives in order is delivered as it was sent. On an established
    connection with nothing in flight and an empty receive queue, let the segments
    [skbs] of a message arrive in the order of their sequence numbers, starting at
    [rcv_nxt], with the window clear of the end of the sequence space. Then every one is
    accepted, the last acknowledgement sent covers all of them, and [tcp_recvmsg]
    returns the number of bytes and stores exactly the concatenation of their texts. *)
Theorem tcp_stream_in_order (c : conn) (skbs : list sk_buff) (msg_len : Z)
  (Hq : quiet c) (Hrx : rx_queue c = []) (Hso : so_state c <> SS_DISCONNECTED)
  (Hts : Forall (text_segment (snd_una (tsk c))) skbs) (Hm : message msg_len skbs)
  (Hn : is_u32 (rcv_nxt (tsk c))) (Hw : 0 < rcv_wnd (tsk c)) (Hb : rcv_nxt (tsk c) + text_length_of skbs + rcv_wnd (tsk c) < 2 ^ 32)
  (Ho : in_order (rcv_nxt (tsk c)) skbs) :
  exists c' segs seg,
    (deliver skbs;; tcp_recvmsg msg_len) c = Ok ((text_length_of skbs, mjoin (text <$> skbs)), c') /\
    rcv_nxt (tsk c') = rcv_nxt (tsk c) + text_length_of skbs /\ rx_queue c' = [] /\ state (tsk c') = TCP_ESTABLISHED /\
    sent c' = segs ++ [seg] /\ ack (tcph seg) = true /\ ack_number (tcph seg) = rcv_nxt (tsk c').
Proof.
  pose proof (in_order_acceptable _ c skbs Hts Hn Hw Hb Ho) as Ha. destruct (received_all c skbs) as (_ & _ & _ & E4 & E5).
  pose proof (msg_split _ _ Hm) as (init & last & El & _). destruct (last_ack c init last) as (segs & seg & Es & Ek & Ek'). rewrite <- El in Es, Ek.
  exists ((foldl received c skbs) <| rx_queue := [] |> <| rx_length := 0 |>), segs, seg.
  split; [by apply deliver_recv|]. pose proof (text_length_nonneg _ _ Hts). unfold is_u32 in Hn.
  split_and!; try done; [|by rewrite <- (quiet_state _ Hq)]. etrans; [by apply E5|]. unfold u32. rewrite Z.mod_small; lia.
Qed.

Definition ex_text (id : nat) (seq : Z) (last : bool) (data : list Z) : sk_buff :=
  mk_sk_buff id (40 + Z.of_nat (length data)) 5 (mk_tcp_packet seq 1001 5 false false false last true 8192 data) 0 0 0 0 0.

Lemma ex_text_segment id seq last data : (0 < length data < 1000)%nat -> text_segment 1001 (ex_text id seq last data).
Proof.
  intros Hl. split; try done.
  - change (0 < 40 + Z.of_nat (length data) - 40 < 65536). lia.
  - change (Z.to_nat (40 + Z.of_nat (length data) - 40) <= length data)%nat. lia.
Qed.

Lemma ex_quiet : quiet (ex_conn []).
Proof. split; [done..|constructor]. Qed.

Lemma tcp_stream_in_order_witness :
  match (deliver [ex_text 7 501 false [104; 101]; ex_text 8 503 true [108; 108; 111]];; tcp_recvmsg 100) (ex_conn []) with
  | Ok (r, _) => r = (5, [104; 101; 108; 108; 111])
  | Fail _ => False
  end.
Proof.
  destruct (tcp_stream_in_order (ex_conn []) [ex_text 7 501 false [104; 101]; ex_text 8 503 true [108; 108; 111]] 100) as (c' & segs & seg & E & _).
  - exact ex_quiet.
  - reflexivity.
  - discriminate.
  - repeat constructor; simpl; lia.
  - split; [|apply (bool_decide_unpack _); vm_compute; reflexivity|split; [discriminate|reflexivity]].
    exists [ex_text 7 501 false [104; 101]], (ex_text 8 503 true [108; 108; 111]). split; [reflexivity|]. split; [repeat constructor|left; reflexivity].
  - split; [discriminate|reflexivity].
  - reflexivity.
  - reflexivity.
  - repeat split.
  - rewrite E. reflexivity.
Defined.

(** Segments are not put in order. [tcp_handler_established] takes every acceptable segment
    as the next one: with two segments of a message, the second no longer than the first, that
    arrive in the wrong order, [tcp_recvmsg] stores the second text before the first, and a
    retransmission of the first segment (another buffer with its contents) is stored twice; in
    both runs everything is acknowledged. *)
Theorem tcp_accepts_out_of_order (c : conn) (s1 s2 : sk_buff) (i : nat)
  (Hq : quiet c) (Hrx : rx_queue c = []) (Hso : so_state c <> SS_DISCONNECTED)
  (H1 : text_segment (snd_una (tsk c)) s1) (H2 : text_segment (snd_una (tsk c)) s2)
  (Hp1 : push (tcph s1) = false) (Hp2 : push (tcph s2) = false) (Hid : skb_id s1 <> skb_id s2) (Hi : skb_id s1 <> i)
  (Hn : 0 <= rcv_nxt (tsk c)) (Hw : payload_length s1 < rcv_wnd (tsk c)) (Hb : rcv_nxt (tsk c) + 2 * rcv_wnd (tsk c) < 2 ^ 32)
  (Ho : in_order (rcv_nxt (tsk c)) [s1; s2]) (Hl : payload_length s2 <= payload_length s1) (Hm : 2 * payload_length s1 < 65536) :
  (exists c', (deliver [s2; s1];; tcp_recvmsg (payload_length s2 + payload_length s1)) c =
     Ok ((payload_length s2 + payload_length s1, text s2 ++ text s1), c')) /\
  (exists c', (deliver [s1; s1 <| skb_id := i |>];; tcp_recvmsg (2 * payload_length s1)) c =
     Ok ((2 * payload_length s1, text s1 ++ text s1), c')).
Proof.
  destruct Ho as [E1 [E2 _]]. pose proof (text_length _ _ H1) as L1. pose proof (text_length _ _ H2) as L2.
  assert (forall s, 0 < payload_length s <= payload_length s1 ->
    rcv_nxt (tsk (received c s)) = rcv_nxt (tsk c) + payload_length s /\ rcv_wnd (tsk (received c s)) = rcv_wnd (tsk c)) as Hr.
  { intros s Hs. split; [|done]. change (rcv_nxt (tsk (received c s))) with (u32 (rcv_nxt (tsk c) + payload_length s)). unfold u32. rewrite Z.mod_small; lia. }
  split.
  - destruct (Hr s2) as [En Ew]; [lia|]. apply deliver_two; try done; [lia|].
    split; [apply (in_window_acceptable _ _ _ H2)|split; [apply (in_window_acceptable _ _ _ H1)|done]]; rewrite ?En, ?Ew, ?E1, ?E2; lia.
  - destruct (Hr s1) as [En Ew]; [lia|]. replace (2 * payload_length s1) with (payload_length s1 + payload_length s1) by lia.
    assert (text_segment (snd_una (tsk c)) s1 <| skb_id := i |>) as H1' by by destruct H1.
    pose proof (deliver_two c s1 (s1 <| skb_id := i |>)) as Hd. change (payload_length s1 <| skb_id := i |>) with (payload_length s1) in Hd.
    change (text s1 <| skb_id := i |>) with (text s1) in Hd. apply Hd; try done; [lia|].
    split; [apply (in_window_acceptable _ _ _ H1)|split; [apply (in_window_acceptable _ _ _ H1')|done]]; rewrite ?En, ?Ew;
      change (sequence_number (tcph s1 <| skb_id := i |>)) with (sequence_number (tcph s1));
      change (payload_length s1 <| skb_id := i |>) with (payload_length s1); rewrite ?E1; lia.
Qed.

Lemma tcp_accepts_out_of_order_witness :
  match (deliver [ex_text 8 503 false [108; 111]; ex_text 7 501 false [104; 101]];; tcp_recvmsg 4) (ex_conn []) with
  | Ok (r, _) => r = (4, [108; 111; 104; 101])
  | Fail _ => False
  end.
Proof.
  destruct (tcp_accepts_out_of_order (ex_conn []) (ex_text 7 501 false [104; 101]) (ex_text 8 503 false [108; 111]) 9) as [[c' E] _].
  4-5: apply ex_text_segment; simpl; lia.
  1-13: try reflexivity; try discriminate; try exact ex_quiet; repeat split.
  change (payload_length _ + payload_length _) with 4 in E. rewrite E. reflexivity.
Defined.
