(* ===== verification/TcpRuns.v ===== *)
(** * Runs of a TCP connection

    The three-way handshake of [tcp_connect] with a peer that answers, and two runs
    of [Tcp] that end in a failed assertion of the kernel: a passive close whose last
    acknowledgement is lost, and a cumulative acknowledgement after a timeout. *)
From Stdlib Require Import ZArith Lia Bool List.
From coqutil Require Import Datatypes.RecordSetters.
From stdpp Require Import base list option sets.
From S2P Require Import Prelude Hoare Packet Tcp TcpStates TcpStream.
Import TriangleBracketNotations.

Open Scope Z_scope.

(** ** A FIN from the peer *)

(** A FIN without text at the edge of the window. *)
Record fin_segment (t : tcp_sock) (skb : sk_buff) : Prop := {
  fs_rst : rst (tcph skb) = false;
  fs_syn : syn (tcph skb) = false;
  fs_fin : fin (tcph skb) = true;
  fs_push : push (tcph skb) = false;
  fs_ack : ack (tcph skb) = true;
  fs_seq : sequence_number (tcph skb) = rcv_nxt t;
  fs_ack_number : ack_number (tcph skb) = snd_una t;
  fs_length : payload_length skb = 0 }.

(** Nothing queued for sending. *)
Record idle (c : conn) : Prop := {
  idle_quiet : quiet c;
  idle_queue : tx_queue c = [];
  idle_head : send_head c = None;
  idle_timer : retransmit_timer (tsk c) = None;
  idle_wnd : 0 < rcv_wnd (tsk c);
  idle_nxt : 0 <= rcv_nxt (tsk c);
  idle_window : rcv_nxt (tsk c) + rcv_wnd (tsk c) < 2 ^ 32 }.

Definition with_wnd (w : Z) (c : conn) : conn := c <| tsk := (tsk c) <| snd_wnd := w |> |>.

(** Step five: at most the window of the peer changes. *)
Lemma process_ack_fin c skb : idle c -> fin_segment (tsk c) skb -> exists w, process_ack skb 0 c = Ok (true, with_wnd w c).
Proof.
  intros [[Hs Hfl Hu _] Hq Hh _ _ _ _] [_ _ Hf _ _ Hsq Ha _]. unfold process_ack. rewrite (bind_step _ _ c (tsk c) c) by reflexivity. cbv zeta. rewrite Hs, Ha, Hsq.
  rewrite bool_decide_eq_false_2 by done. change (one_of TCP_ESTABLISHED _) with true. cbv iota. rewrite Z.ltb_irrefl, !Z.eqb_refl. cbn [andb].
  set (w := u32 _). rewrite andb_true_r. destruct (negb (snd_wnd (tsk c) =? w)) eqn:Ew.
  - exists w. rewrite (bind_step _ _ c tt c); [reflexivity|]. destruct (_ && _); [|done]. unfold tcp_flush_tx, modify. do 2 f_equal. destruct c. cbn in *. by subst.
  - exists (snd_wnd (tsk c)). rewrite Hfl. cbn [andb Z.ltb Z.compare]. rewrite (proj2 (Z.ltb_ge _ _) Hu). unfold with_wnd. rewrite mret_ok. do 2 f_equal.
    destruct c as [t ? ? ? ? ? ? ? ? ? ? ? ? ?]. by destruct t.
Qed.

(** Step eight: the FIN is answered with one of our own. *)
Lemma process_fin_exec c :
  state (tsk c) = TCP_ESTABLISHED -> flight_size (tsk c) = 0 -> tx_queue c = [] -> retransmit_timer (tsk c) = None ->
  exists c', process_fin false c = Ok (tt, c') /\ state (tsk c') = TCP_LAST_ACK /\ tx_queue c' = [] /\
    retransmit_timer (tsk c') = Some (u64 (now c + rto (tsk c))) /\ now c' = now c /\
    (exists segs seg, sent c' = segs ++ [seg] /\ fin (tcph seg) = true /\ ack (tcph seg) = true).
Proof.
  intros Hs Hfl Hq Ht. unfold process_fin. rewrite (bind_step _ _ c c c) by reflexivity. rewrite Hs.
  pose (c1 := c <| tsk := (tsk c) <| state := TCP_CLOSE_WAIT |> |>). rewrite (bind_step _ _ c tt c1) by reflexivity.
  pose (c2 := c <| tsk := (tsk c) <| state := TCP_CLOSE_WAIT |> <| rcv_nxt := u32 (rcv_nxt (tsk c) + 1) |> |>). rewrite (bind_step _ _ c1 tt c2) by reflexivity.
  rewrite (bind_step _ _ c2 (tsk c2) c2) by reflexivity. cbv zeta. rewrite bool_decide_eq_true_2 by done. unfold send_segment.
  rewrite (bind_step _ _ _ _ _ (create_exec _ _ _ c2)). set (skb := mk_sk_buff _ _ _ _ _ _ _ _ _). set (c3 := c2 <| next_skb := _ |>).
  rewrite (bind_step _ _ _ _ _ (send_exec skb false c3 ltac:(split; [discriminate|reflexivity]))), mret_ok. eexists. split; [reflexivity|].
  assert (tsk_sent c3 skb false (payload_length skb) =
    (tcp_state_transition (u8 (cb_flags skb)) ((tsk c3) <| flight_size := u32 (flight_size (tsk c3) + 0) |> <| snd_nxt := u32 (cb_end_seq skb + 1) |>)) <| retransmit_timer := Some (u64 (now c + rto (tsk c))) |>) as E.
  { unfold tsk_sent. change (activates skb false (payload_length skb)) with true. change (payload_length skb) with 0. cbv zeta iota.
    set (t := tcp_state_transition _ _). assert (retransmit_timer t = None) as -> by exact Ht. reflexivity. }
  split_and!.
  - record.simp. rewrite E. reflexivity.
  - record.simp. change (tx_queue c3) with (tx_queue c). by rewrite Hq.
  - record.simp. rewrite E. reflexivity.
  - reflexivity.
  - eexists _, _. split; [reflexivity|]. done.
Qed.

Lemma fin_exec c skb : idle c -> fin_segment (tsk c) skb ->
  exists c', tcp_dispatch skb c = Ok (tt, c') /\ state (tsk c') = TCP_LAST_ACK /\ tx_queue c' = [] /\
    retransmit_timer (tsk c') = Some (u64 (now c + rto (tsk c))) /\ now c' = now c /\
    (exists segs seg, sent c' = segs ++ [seg] /\ fin (tcph seg) = true /\ ack (tcph seg) = true).
Proof.
  intros Hi Hf. destruct (process_ack_fin c skb Hi Hf) as [w E5]. destruct Hi as [[Hs Hfl _ _] Hq _ Ht Hw Hn Hb], Hf as [Hr Hsy Hfin Hp Hk Hsq _ Hl].
  destruct (process_fin_exec (with_wnd w c) Hs Hfl Hq Ht) as (c' & E8 & H1 & H2 & H3 & H4 & H5). exists (c' <| waiting := false |>).
  split; [|done]. unfold tcp_dispatch. rewrite (bind_step _ _ c (tsk c) c) by reflexivity. rewrite Hs. unfold tcp_handler_established. cbv zeta.
  rewrite (bind_step _ _ _ _ _ (payload_lenth_exec skb c ltac:(rewrite Hl; lia))). rewrite Hl, (bind_step _ _ c (tsk c) c) by reflexivity.
  assert (acceptable_segment (tsk c) (sequence_number (tcph skb)) 0 = true) as ->.
  { unfold acceptable_segment. rewrite (proj2 (Z.eqb_neq (rcv_wnd (tsk c)) 0)), Hsq by lia. cbn [negb Z.ltb Z.compare]. unfold u32. rewrite Z.mod_small by lia.
    apply andb_true_iff. rewrite Z.leb_le, Z.ltb_lt. lia. }
  rewrite Hr, Hsy, Hk. cbn [negb andb]. rewrite (bind_step _ _ _ _ _ E5). cbn [negb]. set (c1 := with_wnd w c) in *. assert (state (tsk c1) = TCP_ESTABLISHED) as Hs1 by exact Hs.
  rewrite (bind_step _ _ c1 true c1) by (unfold process_fin_acked; rewrite (bind_step _ _ c1 c1 c1) by reflexivity; by rewrite Hs1). cbn [negb].
  rewrite (bind_step _ _ c1 false c1).
  2: { unfold process_text. rewrite (bind_step _ _ c1 (tsk c1) c1) by reflexivity. rewrite Hs1, Hp. reflexivity. }
  rewrite (bind_step _ _ c1 (tsk c1) c1) by reflexivity. rewrite Hs1, Hfin. change (one_of TCP_ESTABLISHED _) with false. cbn [andb].
  rewrite (bind_step _ _ _ _ _ E8). reflexivity.
Qed.

(** The retransmission timer with nothing to retransmit. *)
Lemma retransmit_empty c e : tx_queue c = [] -> retransmit_timer (tsk c) = Some e -> e <= now c -> handle_event (Timeout Retransmit) c = Fail Assert.
Proof.
  intros Hq Ht He. cbn [handle_event timer_of timer_function]. rewrite (bind_step _ _ c c c) by reflexivity. rewrite Ht, (proj2 (Z.leb_le _ _) He).
  unfold tcp_retransmit_timer, mbind, M_bind, gets, tmod, modify. record.simp. by rewrite Hq.
Qed.

(** ** A timeout *)

Definition halved (t : tcp_sock) : tcp_sock := t <| ssthresh := Z.max (flight_size t / 2) (u32 (2 * snd_mss t)) |> <| cwnd := snd_mss t |>.

(** The first segment goes out again and becomes the next one to send. *)
Lemma after_retransmission_exec c skb :
  syn (tcph skb) = false -> rtt_time (tsk c) = 0 \/ cb_end_seq skb = rtt_end_seq (tsk c) ->
  exists c', after_retransmission skb c = Ok (tt, c') /\ send_head c' = Some (skb_id skb) /\ rtt_time (tsk c') = 0 /\ tx_queue c' = tx_queue c /\
    state (tsk c') = state (tsk c) /\ snd_una (tsk c') = snd_una (tsk c) /\ snd_nxt (tsk c') = snd_nxt (tsk c) /\
    rcv_nxt (tsk c') = rcv_nxt (tsk c) /\ rcv_wnd (tsk c') = rcv_wnd (tsk c).
Proof.
  intros Hs Hr. unfold after_retransmission. rewrite (bind_step _ _ c (send_head c) c) by reflexivity.
  pose (t1 := if bool_decide (send_head c = Some (skb_id skb)) then tsk c else halved (tsk c)). pose (c1 := c <| tsk := t1 |>).
  rewrite (bind_step _ _ c tt c1) by (unfold c1, t1; case_bool_decide; [by destruct c|done]).
  pose (c2 := c1 <| send_head := Some (skb_id skb) |>). rewrite (bind_step _ _ c1 tt c2), Hs by reflexivity. rewrite (bind_step _ _ c2 tt c2), (bind_step _ _ c2 t1 c2) by reflexivity.
  assert (rtt_time t1 = rtt_time (tsk c) /\ rtt_end_seq t1 = rtt_end_seq (tsk c)) as [Et Ee] by (unfold t1, halved; by case_bool_decide).
  pose (c3 := c2 <| tsk := t1 <| rtt_time := 0 |> |>).
  rewrite (bind_step _ _ c2 tt c3).
  2: { destruct (Z.eqb_spec (rtt_time t1) 0) as [E|E]; cbn [negb].
       - rewrite mret_ok. do 2 f_equal. unfold c3, c2, c1. rewrite <- E. by destruct t1.
       - rewrite (bind_step _ _ c2 tt c2); [done|]. apply massert_true, Z.eqb_eq. destruct Hr; congruence. }
  rewrite (bind_step _ _ c3 (tsk c3) c3) by reflexivity.
  destruct (_ <=? _); (eexists; split; [reflexivity|]); unfold c3, c2, c1, t1, halved; case_bool_decide; done.
Qed.

(** An established connection with two segments outstanding, both sent once. *)
Record outstanding (c : conn) (s1 s2 : sk_buff) (r : list sk_buff) : Prop := {
  out_state : state (tsk c) = TCP_ESTABLISHED;
  out_queue : tx_queue c = s1 :: s2 :: r;
  out_ids : skb_id s1 <> skb_id s2;
  out_flags : has (u8 (cb_flags s1)) TCPCB_FLAG_FIN = false;
  out_syn : syn (tcph s1) = false;
  out_length : 0 <= payload_length s1 < 65536;
  out_rtt : rtt_time (tsk c) = 0 \/ cb_end_seq s1 = rtt_end_seq (tsk c) }.

Lemma set_skb_head s x y r : skb_id s = skb_id x -> skb_id x <> skb_id y -> set_skb s (x :: y :: r) = s :: y :: set_skb s r.
Proof.
  intros E Hne. unfold set_skb. rewrite !fmap_cons, E, Nat.eqb_refl. destruct (Nat.eqb_spec (skb_id y) (skb_id x)); [congruence|done].
Qed.

Lemma timeout_exec c s1 s2 r e :
  outstanding c s1 s2 r -> retransmit_timer (tsk c) = Some e -> e <= now c ->
  exists c' s1' r', handle_event (Timeout Retransmit) c = Ok (tt, c') /\ tx_queue c' = s1' :: s2 :: r' /\ skb_id s1' = skb_id s1 /\ cb_end_seq s1' = cb_end_seq s1 /\
    send_head c' = Some (skb_id s1) /\ rtt_time (tsk c') = 0 /\ state (tsk c') = TCP_ESTABLISHED /\
    snd_una (tsk c') = snd_una (tsk c) /\ snd_nxt (tsk c') = snd_nxt (tsk c) /\ rcv_nxt (tsk c') = rcv_nxt (tsk c) /\ rcv_wnd (tsk c') = rcv_wnd (tsk c).
Proof.
  intros [Hs Hq Hid Hf Hsy Hl Hrtt] Ht He. cbn [handle_event timer_of timer_function]. rewrite (bind_step _ _ c c c) by reflexivity. rewrite Ht, (proj2 (Z.leb_le _ _) He).
  unfold tcp_retransmit_timer. rewrite (bind_step _ _ c (now c) c) by reflexivity.
  pose (t0 := (tsk c) <| rto := u32 (rto (tsk c) * 2) |> <| retransmit_timer := Some (u64 (now c + u32 (rto (tsk c) * 2))) |>).
  pose (c0 := c <| tsk := t0 |>). rewrite (bind_step _ _ c tt c0), (bind_step _ _ c0 (s1 :: s2 :: r) c0) by (done || (rewrite <- Hq; done)).
  rewrite (bind_step _ _ _ _ _ (send_exec s1 true c0 Hl)).
  assert (tsk_sent c0 s1 true (payload_length s1) = t0 <| flight_size := u32 (flight_size t0 + payload_length s1) |>) as ->.
  { unfold tsk_sent. change (activates s1 true _) with false. cbv zeta. rewrite andb_false_r. unfold tcp_state_transition.
    set (t1 := (tsk c0) <| flight_size := _ |>). assert (state t1 = TCP_ESTABLISHED) as E1 by exact Hs. unfold next_state. rewrite E1, Hf. cbn -[bool_decide u32 u64].
    rewrite bool_decide_eq_true_2 by done. cbn [negb andb]. unfold t1, c0, t0. rewrite <- Hs. by destruct c as [t]; destruct t. }
  set (c1 := c0 <| tsk := _ |> <| tx_queue := _ |> <| sent := _ |>).
  destruct (after_retransmission_exec c1 (stamped c0 s1) Hsy Hrtt) as (c' & E & H1 & H2 & H3 & H4 & H5 & H6 & H7 & H8). rewrite E.
  assert (tx_queue c1 = stamped c0 s1 :: s2 :: set_skb (stamped c0 s1) r) as Eq.
  { change (tx_queue c1) with (set_skb (stamped c0 s1) (tx_queue c)). rewrite Hq. by apply set_skb_head. }
  exists c', (stamped c0 s1), (set_skb (stamped c0 s1) r). rewrite H3, H4. split_and!; try done.
Qed.

(** An acknowledgement of both segments. *)
Record ack_segment (c : conn) (a : Z) (skb : sk_buff) : Prop := {
  as_rst : rst (tcph skb) = false;
  as_syn : syn (tcph skb) = false;
  as_ack : ack (tcph skb) = true;
  as_number : ack_number (tcph skb) = a;
  as_new : snd_una (tsk c) < a <= snd_nxt (tsk c);
  as_length : payload_length skb = 0;
  as_seq : sequence_number (tcph skb) = rcv_nxt (tsk c);
  as_window : 0 <= rcv_nxt (tsk c) /\ 0 < rcv_wnd (tsk c) /\ rcv_nxt (tsk c) + rcv_wnd (tsk c) < 2 ^ 32 }.

(** [tcp_accept_ack] moves [send_head] to the second segment and then removes it. *)
Lemma accept_ack_asserts c s1 s2 r a :
  tx_queue c = s1 :: s2 :: r -> send_head c = Some (skb_id s1) -> rtt_time (tsk c) = 0 -> skb_id s1 <> skb_id s2 -> cb_end_seq s1 < a -> cb_end_seq s2 < a ->
  tcp_accept_ack a false c = Fail Assert.
Proof.
  intros Hq Hh Hr Hid H1 H2. unfold tcp_accept_ack.
  pose (t1 := (tsk c) <| snd_una := a |> <| flight_size := u32 (snd_nxt (tsk c) - a) |> <| number_of_dup_acks := 0 |>). pose (c1 := c <| tsk := t1 |>).
  rewrite (bind_step _ _ c tt c1), (bind_step _ _ c1 c1 c1) by reflexivity. cbv zeta.
  change (tx_queue c1) with (tx_queue c). change (send_head c1) with (send_head c). change (rtt_time (tsk c1)) with (rtt_time (tsk c)).
  rewrite Hq, Hh, Hr, bool_decide_eq_true_2 by done. cbn [andb Z.eqb].
  pose (c2 := c1 <| tsk := t1 <| cwnd := ssthresh t1 |> |> <| send_head := Some (skb_id s2) |>).
  rewrite (bind_step _ _ c1 tt c2).
  2: { unfold mbind, M_bind, tmod, modify. unfold c2, c1. record.simp. by rewrite Hq. }
  rewrite (bind_step _ _ c2 (s1 :: s2 :: r) c2) by (rewrite <- Hq; reflexivity). apply bind_fail. cbn [drop_acked].
  rewrite (proj2 (Z.ltb_lt _ _) H1), (proj2 (Z.ltb_lt _ _) H2). cbn [orb]. rewrite (bind_step _ _ c2 (Some (skb_id s2)) c2) by reflexivity.
  rewrite (bind_step _ _ c2 tt c2) by (apply massert_true; rewrite bool_decide_eq_false_2 by congruence; done).
  rewrite (bind_step _ _ c2 (Some (skb_id s2)) c2) by reflexivity. apply bind_fail. by rewrite bool_decide_eq_true_2.
Qed.

Lemma cumulative_ack_asserts c s1 s2 r a skb :
  tx_queue c = s1 :: s2 :: r -> send_head c = Some (skb_id s1) -> rtt_time (tsk c) = 0 -> state (tsk c) = TCP_ESTABLISHED ->
  skb_id s1 <> skb_id s2 -> cb_end_seq s1 < a -> cb_end_seq s2 < a -> ack_segment c a skb -> tcp_dispatch skb c = Fail Assert.
Proof.
  intros Hq Hh Hr Hs Hid H1 H2 [Ar Asy Ak An [Au Ax] Al Asq (W1 & W2 & W3)].
  unfold tcp_dispatch. rewrite (bind_step _ _ c (tsk c) c) by reflexivity. rewrite Hs. unfold tcp_handler_established. cbv zeta.
  rewrite (bind_step _ _ _ _ _ (payload_lenth_exec skb c ltac:(rewrite Al; lia))). rewrite Al, (bind_step _ _ c (tsk c) c) by reflexivity.
  assert (acceptable_segment (tsk c) (sequence_number (tcph skb)) 0 = true) as ->.
  { unfold acceptable_segment. rewrite (proj2 (Z.eqb_neq (rcv_wnd (tsk c)) 0)), Asq by lia. cbn [negb Z.ltb Z.compare]. unfold u32. rewrite Z.mod_small by lia.
    apply andb_true_iff. rewrite Z.leb_le, Z.ltb_lt. lia. }
  rewrite Ar, Asy, Ak. cbn [negb andb]. apply bind_fail. unfold process_ack. rewrite (bind_step _ _ c (tsk c) c) by reflexivity. cbv zeta. rewrite Hs, An.
  rewrite bool_decide_eq_false_2 by done. change (one_of TCP_ESTABLISHED _) with true. cbv iota. rewrite (proj2 (Z.ltb_lt _ _) Au), (proj2 (Z.leb_le _ _) Ax). cbn [andb].
  pose (c1 := c <| tsk := tcp_calculate_congestion a (tsk c) |>). rewrite (bind_step _ _ c tt c1) by reflexivity. apply bind_fail.
  apply (accept_ack_asserts c1 s1 s2 r a); try done. rewrite <- Hr. change (tsk c1) with (tcp_calculate_congestion a (tsk c)). unfold tcp_calculate_congestion. by case_match.
Qed.

(** ** The handshake *)

(** The acknowledgement of the only queued segment. *)
Lemma accept_only_exec c s a :
  tx_queue c = [s] -> send_head c = None -> cb_end_seq s < a ->
  exists t, tcp_accept_ack a false c = Ok (tt, c <| tsk := t |> <| tx_queue := [] |>) /\
    state t = state (tsk c) /\ snd_una t = a /\ snd_nxt t = snd_nxt (tsk c) /\ snd_iss t = snd_iss (tsk c) /\ rcv_nxt t = rcv_nxt (tsk c) /\
    snd_mss t = snd_mss (tsk c) /\ syn_retries t = syn_retries (tsk c) /\ retransmit_timer t = None /\ flight_size t = u32 (snd_nxt (tsk c) - a) /\
    rcv_mss t = rcv_mss (tsk c) /\ snd_wds t = snd_wds (tsk c).
Proof.
  intros Hq Hh He. unfold tcp_accept_ack.
  pose (t1 := (tsk c) <| snd_una := a |> <| flight_size := u32 (snd_nxt (tsk c) - a) |> <| number_of_dup_acks := 0 |>). pose (c1 := c <| tsk := t1 |>).
  rewrite (bind_step _ _ c tt c1), (bind_step _ _ c1 c1 c1) by reflexivity. cbv zeta. change (tx_queue c1) with (tx_queue c). change (send_head c1) with (send_head c).
  rewrite Hq, Hh. rewrite bool_decide_eq_false_2 by done. cbn [andb]. rewrite (bind_step _ _ c1 tt c1) by reflexivity.
  rewrite (bind_step _ _ c1 [s] c1) by (rewrite <- Hq; reflexivity).
  rewrite (bind_step _ _ c1 [] c1).
  2: { cbn [drop_acked]. rewrite (proj2 (Z.ltb_lt _ _) He). cbn [orb]. rewrite (bind_step _ _ c1 None c1) by (rewrite <- Hh; reflexivity).
       by rewrite (bind_step _ _ c1 tt c1) by (apply massert_true; by rewrite bool_decide_eq_false_2). }
  pose (t2 := t1 <| retransmit_timer := None |>). pose (c2 := c <| tsk := t1 |> <| tx_queue := [] |>). pose (c3 := c <| tsk := t2 |> <| tx_queue := [] |>).
  rewrite (bind_step _ _ c1 tt c2), (bind_step _ _ c2 tt c3), (bind_step _ _ c3 c3 c3) by reflexivity. cbv zeta.
  destruct (_ && _).
  - exists ((tcp_calculate_rto (u32 (now c - rtt_time t2)) t2) <| rtt_time := 0 |>). split; [reflexivity|]. unfold tcp_calculate_rto. by case_match.
  - exists t2. done.
Qed.

(** Our acknowledgement of the SYN of the peer establishes the connection. *)
Lemma send_ack_established seq a c :
  tx_queue c = [] -> state (tsk c) = TCP_SYN_SENT -> syn_retries (tsk c) = 0 ->
  exists c' seg, send_segment seq a TCPCB_FLAG_ACK c = Ok (tt, c') /\ state (tsk c') = TCP_ESTABLISHED /\ tx_queue c' = [] /\ events c' = events c /\
    snd_una (tsk c') = snd_una (tsk c) /\ snd_nxt (tsk c') = snd_nxt (tsk c) /\ rcv_nxt (tsk c') = rcv_nxt (tsk c) /\
    retransmit_timer (tsk c') = retransmit_timer (tsk c) /\ sent c' = sent c ++ [seg] /\ cb_flags seg = TCPCB_FLAG_ACK /\ ack_number (tcph seg) = u32 a /\
    rcv_mss (tsk c') = rcv_mss (tsk c) /\ snd_wds (tsk c') = snd_wds (tsk c).
Proof.
  intros Hq Hs Hy. unfold send_segment. rewrite (bind_step _ _ _ _ _ (create_exec _ _ _ c)). set (skb := mk_sk_buff _ _ _ _ _ _ _ _ _). set (c1 := c <| next_skb := _ |>).
  rewrite (bind_step _ _ _ _ _ (send_exec skb false c1 ltac:(split; [discriminate|reflexivity]))), mret_ok.
  assert (tsk_sent c1 skb false (payload_length skb) = (tsk c) <| flight_size := u32 (flight_size (tsk c) + 0) |> <| state := TCP_ESTABLISHED |>) as E.
  { unfold tsk_sent. change (activates skb false _) with false. cbv zeta. rewrite andb_false_r. unfold tcp_state_transition. change (tsk c1) with (tsk c).
    set (t := (tsk c) <| flight_size := _ |>). assert (state t = TCP_SYN_SENT) as -> by exact Hs. change (next_state _ _) with TCP_ESTABLISHED.
    change (syn_retries _) with (syn_retries (tsk c)). rewrite Hy. by rewrite andb_false_r. }
  eexists _, (stamped c1 skb). split; [reflexivity|]. record.simp. rewrite E. change (tx_queue c1) with (tx_queue c). rewrite Hq. done.
Qed.

(** *** The options of the peer's SYN *)

Inductive tcp_option :=
| Padding (k : bool)
| Mss (b0 b1 : Z)
| Scale (b : Z)
| Other (kind : Z) (data : list Z).

Definition option_bytes (o : tcp_option) : list Z :=
  match o with
  | Padding k => [if k then 1 else 0]
  | Mss b0 b1 => [2; 4; b0; b1]
  | Scale b => [3; 3; b]
  | Other kind data => kind :: Z.of_nat (2 + length data) :: data
  end.

Definition options_bytes : list tcp_option -> list Z := mbind option_bytes.

Definition option_ok (o : tcp_option) : Prop :=
  match o with
  | Padding _ => True
  | Mss b0 b1 => byte_ok b0 /\ byte_ok b1
  | Scale b => byte_ok b
  | Other kind data => 3 < kind
  end.

(** The segment size and the window scale offered last; [m] and [w] without an offer. *)
Fixpoint offered (os : list tcp_option) (m w : Z) : Z * Z :=
  match os with
  | [] => (m, w)
  | Mss b0 b1 :: os' => offered os' (256 * b0 + b1) w
  | Scale b :: os' => offered os' m b
  | _ :: os' => offered os' m w
  end.

Lemma byte_at_app pre l i b c : 0 <= i -> l !! Z.to_nat i = Some b -> byte_at (pre ++ l) (Z.of_nat (length pre) + i) c = Ok (b, c).
Proof.
  intros Hi Hb. apply deref_some. rewrite lookup_app_r by lia. by replace (Z.to_nat (Z.of_nat (length pre) + i) - length pre)%nat with (Z.to_nat i) by lia.
Qed.

Lemma mss_value b0 b1 r : byte_ok b0 -> byte_ok b1 -> ntohs (r / 2 ^ 16 * 2 ^ 16 + u16 (b0 + Z.shiftl b1 8)) = 256 * b0 + b1.
Proof.
  unfold byte_ok, ntohs. intros H0 H1. rewrite htons_bytes, Z.shiftl_mul_pow2 by lia. unfold u16. change (2 ^ 16) with 65536. change (2 ^ 8) with 256.
  Z.to_euclidean_division_equations. lia.
Qed.

Lemma option_len_pos o : (1 <= length (option_bytes o))%nat.
Proof. destruct o; cbn; lia. Qed.

(** One option: the parser goes on behind it, with the values it offers. *)
Lemma parse_option o pre post len r w n c :
  option_ok o -> 0 <= w < 256 -> Z.of_nat (length (pre ++ option_bytes o)) <= len < 2 ^ 32 ->
  exists r' w', parse_options (S n) (pre ++ option_bytes o ++ post) len (Z.of_nat (length pre)) r w c =
      parse_options n ((pre ++ option_bytes o) ++ post) len (Z.of_nat (length (pre ++ option_bytes o))) r' w' c /\
    0 <= w' < 256 /\ forall os, offered os (ntohs r') w' = offered (o :: os) (ntohs r) w.
Proof.
  intros Ho Hw Hl. rewrite length_app in *. pose proof (option_len_pos o). rewrite <- app_assoc. cbn [parse_options]. rewrite (proj2 (Z.ltb_lt _ len)) by lia.
  pose proof (fun i b => byte_at_app pre (option_bytes o ++ post) i b c) as Hat.
  assert (byte_at (pre ++ option_bytes o ++ post) (Z.of_nat (length pre)) c = Ok (hd 0 (option_bytes o), c)) as H0.
  { rewrite <- (Z.add_0_r (Z.of_nat (length pre))). apply (Hat 0); [lia|]. by destruct o. }
  rewrite (bind_step _ _ _ _ _ H0). destruct o as [k|b0 b1|b|kind data]; cbn [option_bytes hd length option_ok] in *.
  - exists r, w. split_and!; [|lia|lia|done]. destruct k; cbn [Z.eqb Pos.eqb orb]; rewrite u32_small by (unfold is_u32; lia); f_equal; lia.
  - destruct Ho as [B0 B1]. exists (r / 2 ^ 16 * 2 ^ 16 + u16 (b0 + Z.shiftl b1 8)), w. cbn [Z.eqb Pos.eqb orb]. split_and!; [|lia|lia|].
    + rewrite (bind_step _ _ _ (r / 2 ^ 16 * 2 ^ 16 + u16 (b0 + Z.shiftl b1 8)) c).
      2: { unfold fmap, M_fmap, tcp_get_option_value, mbind, M_bind. cbn [Z.eqb Pos.eqb]. rewrite (Hat 2 b0) by done.
           replace (Z.of_nat (length pre) + 2 + 1) with (Z.of_nat (length pre) + 3) by lia. by rewrite (Hat 3 b1). }
      rewrite (bind_step _ _ _ w c) by done. rewrite (bind_step _ _ _ 4 c) by (by apply (Hat 1)). rewrite u32_small by (unfold is_u32; lia). f_equal. lia.
    + intros os. cbn [offered]. by rewrite mss_value.
  - exists r, b. cbn [Z.eqb Pos.eqb orb]. split_and!; [|apply Ho..|done].
    rewrite (bind_step _ _ _ r c) by done. rewrite (bind_step _ _ _ b c).
    2: { unfold fmap, M_fmap, tcp_get_option_value, mbind, M_bind. cbn [Z.eqb Pos.eqb]. rewrite (Hat 2 b) by done. cbn. do 3 f_equal. change (2 ^ 8) with 256. rewrite Z.div_small by lia. lia. }
    rewrite (bind_step _ _ _ 3 c) by (by apply (Hat 1)). rewrite u32_small by (unfold is_u32; lia). f_equal. lia.
  - exists r, w. split_and!; [|lia|lia|done]. rewrite (proj2 (Z.eqb_neq kind 0)), (proj2 (Z.eqb_neq kind 1)), (proj2 (Z.eqb_neq kind 2)), (proj2 (Z.eqb_neq kind 3)) by lia.
    cbn [orb]. rewrite (bind_step _ _ _ r c), (bind_step _ _ _ w c) by done. rewrite (bind_step _ _ _ (Z.of_nat (2 + length data)) c) by (by apply (Hat 1)).
    rewrite u32_small by (unfold is_u32; lia). f_equal. lia.
Qed.

Lemma parse_options_ok os : forall pre post r w n c,
  Forall option_ok os -> 0 <= w < 256 -> (length (options_bytes os) < n)%nat -> Z.of_nat (length (pre ++ options_bytes os)) < 2 ^ 32 ->
  exists r' w', parse_options n (pre ++ options_bytes os ++ post) (Z.of_nat (length (pre ++ options_bytes os))) (Z.of_nat (length pre)) r w c = Ok ((r', w'), c) /\
    (ntohs r', w') = offered os (ntohs r) w.
Proof.
  induction os as [|o os IH]; intros pre post r w n c Ho Hw Hn Hl.
  - exists r, w. split; [|done]. destruct n; [cbn in Hn; lia|]. cbn [parse_options options_bytes mbind list_bind]. rewrite app_nil_r, Z.ltb_irrefl. done.
  - apply list.Forall_cons in Ho as [Ho Hos]. change (options_bytes (o :: os)) with (option_bytes o ++ options_bytes os) in *.
    rewrite length_app in Hn. destruct n as [|n]; [lia|]. pose proof (option_len_pos o).
    destruct (parse_option o pre (options_bytes os ++ post) (Z.of_nat (length (pre ++ option_bytes o ++ options_bytes os))) r w n c Ho Hw) as (r1 & w1 & E & Hw1 & Hof);
      [rewrite !length_app in *; lia|].
    destruct (IH (pre ++ option_bytes o) post r1 w1 n c) as (r' & w' & E' & Hr); [done|done|lia|by rewrite <- app_assoc|].
    exists r', w'. split; [|by rewrite Hr]. rewrite <- (app_assoc (option_bytes o)), E. rewrite <- app_assoc in E'. rewrite <- E'. by rewrite <- !app_assoc.
Qed.

(** The answer of the peer: a SYN with the options [os] that acknowledges ours. *)
Record synack_segment (iss : Z) (os : list tcp_option) (skb : sk_buff) : Prop := {
  sa_rst : rst (tcph skb) = false;
  sa_syn : syn (tcph skb) = true;
  sa_ack : ack (tcph skb) = true;
  sa_number : ack_number (tcph skb) = iss + 1;
  sa_options : Forall option_ok os;
  sa_offset : 4 * data_offset (tcph skb) = 20 + Z.of_nat (length (options_bytes os)) /\ data_offset (tcph skb) < 16;
  sa_payload : exists data, payload (tcph skb) = options_bytes os ++ data }.

(** What the options make of the segment size and the window scale: without options the
    parser does not run; with options, a variable that none of them sets gets what its
    stack slot held. *)
Definition negotiated (os : list tcp_option) (t : tcp_sock) (j : Z * Z) : Z * Z :=
  match os with
  | [] => (rcv_mss t, snd_wds t)
  | _ => offered os (ntohs j.1) j.2
  end.

Lemma options_exec c iss os skb :
  synack_segment iss os skb -> 0 <= (junk c).2 < 256 ->
  exists t, (if 0 <? tcp_option_length skb then tcp_parse_syn_options (payload (tcph skb)) (tcp_option_length skb) else mret tt) c = Ok (tt, c <| tsk := t |>) /\
    (rcv_mss t, snd_wds t) = negotiated os (tsk c) (junk c) /\
    state t = state (tsk c) /\ snd_iss t = snd_iss (tsk c) /\ syn_retries t = syn_retries (tsk c) /\ snd_mss t = snd_mss (tsk c).
Proof.
  intros [_ _ _ _ Ho [Hoff H16] [data Hp]] Hj.
  assert (tcp_option_length skb = Z.of_nat (length (options_bytes os))) as ->.
  { unfold tcp_option_length, TCP_HEADER, u16. rewrite Z.mod_small; lia. }
  destruct os as [|o os'] eqn:Eos.
  { exists (tsk c). split_and!; try done. by destruct c. }
  rewrite <- Eos in *. assert (0 < Z.of_nat (length (options_bytes os))) as Hpos.
  { rewrite Eos. change (options_bytes (o :: os')) with (option_bytes o ++ options_bytes os'). rewrite length_app. pose proof (option_len_pos o). lia. }
  rewrite (proj2 (Z.ltb_lt _ _) Hpos), Hp. unfold tcp_parse_syn_options. rewrite (bind_step _ _ c (junk c) c) by reflexivity.
  destruct (parse_options_ok os [] data (junk c).1 (junk c).2 (S (length (options_bytes os))) c Ho Hj) as (r & w & E & Hr); [lia|cbn [app]; lia|].
  cbn [app length] in E. rewrite Nat2Z.id, (bind_step _ _ _ _ _ E).
  exists ((tsk c) <| rcv_mss := ntohs r |> <| snd_wds := w |>). split_and!; try done. rewrite Eos in Hr |- *. exact Hr.
Qed.

Lemma synack_exec c s skb iss os :
  tx_queue c = [s] -> send_head c = None -> cb_end_seq s = iss -> state (tsk c) = TCP_SYN_SENT -> snd_iss (tsk c) = iss -> snd_nxt (tsk c) = iss + 1 ->
  snd_una (tsk c) = 0 -> 0 <= iss -> syn_retries (tsk c) = 0 -> 0 <= (junk c).2 < 256 -> synack_segment iss os skb ->
  exists c' segs, tcp_dispatch skb c = Ok (tt, c') /\ state (tsk c') = TCP_ESTABLISHED /\ tx_queue c' = [] /\ waiting c' = false /\ events c' = events c /\
    snd_una (tsk c') = iss + 1 /\ snd_nxt (tsk c') = iss + 1 /\ rcv_nxt (tsk c') = u32 (sequence_number (tcph skb) + 1) /\ retransmit_timer (tsk c') = None /\
    sent c' = sent c ++ [segs] /\ cb_flags segs = TCPCB_FLAG_ACK /\ ack_number (tcph segs) = rcv_nxt (tsk c') /\
    (rcv_mss (tsk c'), snd_wds (tsk c')) = negotiated os (tsk c) (junk c).
Proof.
  intros Hq Hh He Hs Hi Hx Hu H0 Hy Hj Hsa. pose proof Hsa as [Sr Ss Sa Sn _ _ _]. unfold tcp_dispatch. rewrite (bind_step _ _ c (tsk c) c) by reflexivity. rewrite Hs.
  unfold tcp_handler_sync. cbv zeta. rewrite (bind_step _ _ c (tsk c) c) by reflexivity. rewrite Sr, Ss, Sa, Sn, Hi, Hx, Hu.
  rewrite (proj2 (Z.leb_gt (iss + 1) iss)), Z.ltb_irrefl, (proj2 (Z.leb_le 0 (iss + 1))), Z.leb_refl by lia. cbn [andb orb negb].
  destruct (options_exec c iss os skb Hsa Hj) as (t0 & E0 & N0 & N1 & N2 & N3 & N4). rewrite (bind_step _ _ _ _ _ E0). set (c0 := c <| tsk := t0 |>).
  pose (t1 := t0 <| rcv_irs := sequence_number (tcph skb) |> <| rcv_nxt := u32 (sequence_number (tcph skb) + 1) |> <| snd_nxt := iss + 1 |> <| snd_wnd := window (tcph skb) |>).
  pose (c1 := c <| tsk := t1 |>). rewrite (bind_step _ _ c0 tt c1) by reflexivity.
  destruct (accept_only_exec c1 s (iss + 1) Hq Hh ltac:(lia)) as (t2 & E & T1 & T2 & T3 & T4 & T5 & T6 & T7 & T8 & T9 & T10 & T11).
  rewrite (bind_step _ _ _ _ _ E). set (c2 := c1 <| tsk := t2 |> <| tx_queue := [] |>). rewrite (bind_step _ _ c2 t2 c2) by reflexivity.
  rewrite T2, T4. change (snd_iss (tsk c1)) with (snd_iss t0). rewrite N2, Hi, (proj2 (Z.ltb_lt iss (iss + 1))) by lia.
  match goal with |- context [tmod ?f] => pose (t3 := f t2); pose (c3 := c <| tsk := t3 |> <| tx_queue := [] |>) end.
  destruct (send_ack_established (snd_nxt t2) (rcv_nxt t2) c3 eq_refl) as (c4 & seg & E4 & U); [exact (eq_trans T1 (eq_trans N1 Hs))|exact (eq_trans T7 (eq_trans N3 Hy))|].
  destruct U as (U1 & U2 & U3 & U4 & U5 & U6 & U7 & U8 & U9 & U10 & U11 & U12). rewrite (bind_step _ _ c2 tt c3), (bind_step _ _ _ _ _ E4) by reflexivity.
  exists (c4 <| waiting := false |>), seg. split; [reflexivity|]. record.simp. rewrite U1, U2, U3, U4, U5, U6, U7, U8, U9, U10, U11, U12.
  change (snd_nxt (tsk c3)) with (snd_nxt t2). change (snd_una (tsk c3)) with (snd_una t2). change (rcv_nxt (tsk c3)) with (rcv_nxt t2). change (retransmit_timer (tsk c3)) with (retransmit_timer t2).
  change (rcv_mss (tsk c3)) with (rcv_mss t2). change (snd_wds (tsk c3)) with (snd_wds t2).
  rewrite T2, T3, T5, T8, T10, T11. split_and!; try done. apply Z.mod_mod. lia.
Qed.

(** A frame for the connection between the two addresses, with a valid checksum. *)
Record addressed (src dst : sockaddr_in) (frame : list Z) : Prop := {
  ad_bytes : Forall byte_ok frame;
  ad_type : htons (get16 12 frame) = ETH_P_IP;
  ad_protocol : get8 9 (drop 14 frame) = IP4_PROTOCAL_TCP;
  ad_dest : ntohl (get32 16 (drop 14 frame)) = sin_addr dst /\ ntohs (get16 2 (drop 34 frame)) = sin_port dst;
  ad_source : ntohl (get32 12 (drop 14 frame)) = sin_addr src /\ ntohs (get16 0 (drop 34 frame)) = sin_port src;
  ad_valid : (tcp_validate_header (drop 34 frame) (u16 (ntohs (get16 2 (drop 14 frame)) - IP4_HEADER)) (sin_addr src) (sin_addr dst)).1 = 0 }.

Lemma handler_exec frame c c' :
  so_state c <> SS_DISCONNECTED -> addressed (dsin c) (ssin c) frame ->
  tcp_dispatch (skb_of_frame (next_skb c) frame) (c <| next_skb := S (next_skb c) |>) = Ok (tt, c') -> tcp_handler frame c = Ok (0, c').
Proof.
  intros Hso [Hb Ht Hp [Hd1 Hd2] [Hs1 Hs2] Hv] E. unfold tcp_handler. rewrite (bind_step _ _ c c c) by reflexivity. rewrite bool_decide_eq_false_2 by done.
  rewrite Ht, Z.eqb_refl. cbn [negb]. rewrite Hp, Z.eqb_refl. cbn [negb]. cbv zeta. rewrite Hd1, Hs1.
  pose proof (validate_restores (drop 34 frame) (u16 (ntohs (get16 2 (drop 14 frame)) - IP4_HEADER)) (sin_addr (dsin c)) (sin_addr (ssin c)) (Forall_drop _ _ _ Hb)) as Hr.
  destruct (tcp_validate_header _ _ _ _) as [ret tcp]. cbn [fst snd] in *. subst ret tcp. rewrite Hd2, Hs2, !Z.eqb_refl, take_drop. cbn [Z.ltb Z.compare andb].
  rewrite (bind_step _ _ c tt c'); [done|]. by rewrite (bind_step _ _ c tt (c <| next_skb := S (next_skb c) |>)) by reflexivity.
Qed.

Lemma transition_syn t : state t = TCP_CLOSE -> tcp_state_transition TCPCB_FLAG_SYN t = t <| state := TCP_SYN_SENT |>.
Proof. intros Hs. unfold tcp_state_transition. by rewrite Hs. Qed.

(** The SYN goes out and the connection waits for the answer. *)
Lemma send_syn_exec c skb iss evs :
  tx_queue c = [skb] -> send_head c = Some (skb_id skb) -> payload_length skb = 0 -> syn (tcph skb) = true -> cb_flags skb = TCPCB_FLAG_SYN -> cb_end_seq skb = iss ->
  0 <= iss < 2 ^ 32 - 1 -> state (tsk c) = TCP_CLOSE -> 0 < tcp_sender_available_window (tsk c) -> rtt_time (tsk c) = 0 -> events c = evs ->
  exists c' s, send_window 2 c = Ok (tt, c') /\ tx_queue c' = [s] /\ send_head c' = None /\ cb_end_seq s = iss /\ state (tsk c') = TCP_SYN_SENT /\
    snd_nxt (tsk c') = iss + 1 /\ snd_iss (tsk c') = snd_iss (tsk c) /\ snd_una (tsk c') = snd_una (tsk c) /\ syn_retries (tsk c') = syn_retries (tsk c) /\
    events c' = evs /\ sent c' = sent c ++ [s] /\ cb_flags s = TCPCB_FLAG_SYN /\ so_state c' = so_state c /\ ssin c' = ssin c /\ dsin c' = dsin c /\
    rcv_mss (tsk c') = rcv_mss (tsk c) /\ snd_wds (tsk c') = snd_wds (tsk c) /\ junk c' = junk c.
Proof.
  intros Hq Hh Hl Hs Hf He Hi Hst Hw Hr Hev. cbn [send_window]. rewrite (bind_step _ _ c c c) by reflexivity. rewrite Hh, (proj2 (Z.ltb_lt _ _) Hw).
  rewrite (bind_step _ _ c skb c).
  2: { unfold deref, find_skb. rewrite Hq. cbn. by rewrite decide_True. }
  rewrite (bind_step _ _ _ _ _ (send_exec skb false c ltac:(rewrite Hl; lia))).
  assert (exists t, tsk_sent c skb false (payload_length skb) = t /\ state t = TCP_SYN_SENT /\ snd_nxt t = iss + 1 /\ snd_iss t = snd_iss (tsk c) /\ snd_una t = snd_una (tsk c) /\
    syn_retries t = syn_retries (tsk c) /\ rtt_time t = rtt_time (tsk c) /\ rcv_mss t = rcv_mss (tsk c) /\ snd_wds t = snd_wds (tsk c)) as (t & -> & T1 & T2 & T3 & T4 & T5 & T6 & T7 & T8).
  { eexists. split; [reflexivity|]. unfold tsk_sent, activates. rewrite Hl, Hs, Hf, He. cbn [negb andb orb Z.ltb Z.compare]. cbv zeta.
    assert (u32 (iss + 1) = iss + 1) as -> by (unfold u32; apply Z.mod_small; lia). rewrite !andb_true_r.
    change (u8 TCPCB_FLAG_SYN) with TCPCB_FLAG_SYN. rewrite transition_syn by exact Hst. destruct (negb _); done. }
  assert (set_skb (stamped c skb) (tx_queue c) = [stamped c skb]) as Eq by (rewrite Hq; unfold set_skb; cbn [fmap list_fmap]; by rewrite Nat.eqb_refl).
  rewrite Eq. set (s := stamped c skb) in *. set (c1 := c <| tsk := t |> <| tx_queue := [s] |> <| sent := _ |>).
  pose (c2 := c1 <| send_head := None |>). rewrite (bind_step _ _ c1 tt c2).
  2: { unfold modify. do 2 f_equal. change (tx_queue c1) with [s]. cbn [next_of]. change (skb_id s) with (skb_id skb). by rewrite Nat.eqb_refl. }
  rewrite (bind_step _ _ c2 c2 c2) by reflexivity. assert (rtt_time (tsk c2) = 0) as -> by exact (eq_trans T6 Hr). cbn [Z.eqb].
  pose (c3 := c2 <| tsk := t <| rtt_end_seq := cb_end_seq s |> <| rtt_time := cb_when s |> |>).
  rewrite (bind_step _ _ c2 tt c3) by (rewrite (bind_step _ _ c2 tt c2) by (apply massert_true; by rewrite bool_decide_eq_true_2); reflexivity).
  exists c3, s. split; [reflexivity|]. split_and!; done.
Qed.

(** The SYN carries the options for a segment size of 1460. *)
Lemma create_syn_exec iss t c :
  snd_mss t = 1460 -> 0 <= iss < 2 ^ 32 ->
  exists skb, tcp_create_skb iss 0 TCPCB_FLAG_SYN (tcp_build_syn_options t) [] c = Ok (skb, c <| next_skb := S (next_skb c) |>) /\
    payload_length skb = 0 /\ syn (tcph skb) = true /\ cb_flags skb = TCPCB_FLAG_SYN /\ cb_end_seq skb = iss.
Proof.
  intros Hm Hi. assert (tcp_build_syn_options t = [2; 4; 5; 180; 3; 3; 0; 0]) as -> by (unfold tcp_build_syn_options; rewrite Hm; vm_compute; reflexivity).
  eexists. split; [reflexivity|]. split_and!; try reflexivity. change (u32 (iss + 0) = iss). unfold u32. rewrite Z.mod_small; lia.
Qed.

(** One wait: a frame from the peer, then the thread runs again. *)
Lemma schedule_exec frame evs c c1 :
  events c = Rx frame :: Resume :: evs -> waiting c = true -> tcp_handler frame c = Ok (0, c1) -> waiting c1 = false ->
  tcp_schedule c = Ok (tt, c1 <| events := evs |>).
Proof.
  intros He Hw E Hw1. unfold tcp_schedule. rewrite (bind_step _ _ c (events c) c) by reflexivity. rewrite He. cbn [run_events].
  rewrite (bind_step _ _ c true c) by (rewrite <- Hw; reflexivity). rewrite (bind_step _ _ c tt c1) by (cbn [handle_event]; by rewrite (bind_step _ _ _ _ _ E)).
  by rewrite (bind_step _ _ c1 false c1) by (rewrite <- Hw1; reflexivity).
Qed.

Lemma add_skb_exec skb c : tx_queue c = [] -> send_head c = None ->
  tcp_tx_queue_add_skb skb c = Ok (tt, c <| tx_queue := [skb] |> <| send_head := Some (skb_id skb) |>).
Proof. destruct c. cbn. intros -> ->. done. Qed.

(** The SYN is sent, the answer arrives, and [tcp_transmit] returns. *)
Lemma syn_exchange c skb iss os frame evs :
  tx_queue c = [skb] -> send_head c = Some (skb_id skb) -> payload_length skb = 0 -> syn (tcph skb) = true -> cb_flags skb = TCPCB_FLAG_SYN -> cb_end_seq skb = iss ->
  0 <= iss < 2 ^ 32 - 1 -> state (tsk c) = TCP_CLOSE -> 0 < tcp_sender_available_window (tsk c) -> rtt_time (tsk c) = 0 -> events c = Rx frame :: Resume :: evs ->
  snd_iss (tsk c) = iss -> snd_una (tsk c) = 0 -> syn_retries (tsk c) = 0 -> so_state c <> SS_DISCONNECTED ->
  addressed (dsin c) (ssin c) frame -> 0 <= (junk c).2 < 256 -> synack_segment iss os (skb_of_frame 0 frame) ->
  exists c' s1 s2, tcp_transmit c = Ok (tt, c') /\ state (tsk c') = TCP_ESTABLISHED /\ events c' = evs /\
    snd_una (tsk c') = iss + 1 /\ snd_nxt (tsk c') = iss + 1 /\ rcv_nxt (tsk c') = u32 (sequence_number (tcph (skb_of_frame 0 frame)) + 1) /\
    tx_queue c' = [] /\ retransmit_timer (tsk c') = None /\
    sent c' = sent c ++ [s1; s2] /\ cb_flags s1 = TCPCB_FLAG_SYN /\ cb_flags s2 = TCPCB_FLAG_ACK /\ ack_number (tcph s2) = rcv_nxt (tsk c') /\
    (rcv_mss (tsk c'), snd_wds (tsk c')) = negotiated os (tsk c) (junk c).
Proof.
  intros Hq Hh Hl Hsy Hf He Hi Hst Hw Hr Hev Hiss Huna Hre Hso Ha Hj Hs.
  destruct (send_syn_exec c skb iss _ Hq Hh Hl Hsy Hf He Hi Hst Hw Hr Hev) as (c3 & s & E3 & W1 & W2 & W3 & W4 & W5 & W6 & W7 & W8 & W9 & W10 & W11 & W12 & W13 & W14 & W15 & W16 & W17).
  pose (c4 := c3 <| waiting := true |>). pose (c5 := c4 <| next_skb := S (next_skb c4) |>).
  destruct (synack_exec c5 s (skb_of_frame (next_skb c4) frame) iss os) as (c6 & seg & E6 & V1 & V2 & V3 & V4 & V5 & V6 & V7 & V8 & V9 & V10 & V11 & V12);
    [done|done|done|done|by rewrite <- Hiss|done|by rewrite <- Huna|lia|by rewrite <- Hre|by change (junk c5) with (junk c3); rewrite W17|by destruct Hs|].
  assert (tcp_handler frame c4 = Ok (0, c6)) as E7.
  { apply handler_exec; [|by change (dsin c4) with (dsin c3); change (ssin c4) with (ssin c3); rewrite W13, W14|done]. change (so_state c4) with (so_state c3). by rewrite W12. }
  pose (c7 := c6 <| events := evs |>). assert (tcp_schedule c4 = Ok (tt, c7)) as E8 by by apply (schedule_exec frame evs).
  exists c7, s, seg. split.
  - unfold tcp_transmit. rewrite (bind_step _ _ c (events c) c) by reflexivity. rewrite Hev. cbn [length transmit_loop].
    rewrite (bind_step _ _ c (tx_queue c) c) by reflexivity. rewrite Hq. cbn [length].
    rewrite (bind_step _ _ _ _ _ E3), (bind_step _ _ c3 tt c4), (bind_step _ _ _ _ _ E8) by reflexivity.
    by rewrite (bind_step _ _ c7 [] c7) by (rewrite <- V2; reflexivity).
  - assert (negotiated os (tsk c5) (junk c5) = negotiated os (tsk c) (junk c)) as En.
    { change (junk c5) with (junk c3). change (tsk c5) with (tsk c3). unfold negotiated. by rewrite W15, W16, W17. }
    split_and!; try done; [|by rewrite <- En]. change (sent c7) with (sent c6). rewrite V9. change (sent c5) with (sent c3). rewrite W10. by rewrite <- app_assoc.
Qed.

(** ** Claims *)


(** An answer with a segment size of 1400, a window scale of 7 and an option of kind 4. *)
Definition ex_options : list tcp_option := [Mss 5 120; Padding true; Scale 7; Padding true; Padding true; Other 4 []].
Definition ex_synack : list Z := wire_frame ex_peer ex_local 500 1001 0x12 8192 (options_bytes ex_options) [].


(** C30: Two losses stop the kernel. (1) A peer closes an idle connection: the FIN is answered
    with a FIN of our own and the state becomes LAST_ACK, but the FIN is never queued and the
    retransmission timer is started for it; if the last acknowledgement does not come
    before the timer expires, [tcp_retransmit_timer] finds an empty queue and its assertion fails. (2) With two segments
    outstanding, the first is lost and the timer fires: it is sent again and becomes the
    next segment to send. An acknowledgement of both then fails the assertion of
    [tcp_accept_ack] that the next segment to send is not acknowledged. *)
Theorem tcp_losses_fail_assertions :
  (forall c skb ms, idle c -> fin_segment (tsk c) skb -> 0 <= now c -> 0 <= rto (tsk c) <= ms -> now c + ms < 2 ^ 64 ->
     exists c', tcp_dispatch skb c = Ok (tt, c') /\ state (tsk c') = TCP_LAST_ACK /\
       (handle_event (Tick ms);; handle_event (Timeout Retransmit)) c' = Fail Assert) /\
  (forall c s1 s2 r e skb a, outstanding c s1 s2 r -> retransmit_timer (tsk c) = Some e -> e <= now c ->
     cb_end_seq s1 < a -> cb_end_seq s2 < a -> ack_segment c a skb ->
     (handle_event (Timeout Retransmit);; tcp_dispatch skb) c = Fail Assert).
Proof.
  split.
  - intros c skb ms Hi Hf Hn Hr Hb. destruct (fin_exec c skb Hi Hf) as (c' & E & H1 & H2 & H3 & H4 & _). exists c'. split_and!; [done..|].
    pose (c1 := c' <| now := u64 (now c' + ms) |>). rewrite (bind_step _ _ c' tt c1) by reflexivity. eapply retransmit_empty; [exact H2|exact H3|].
    change (now c1) with (u64 (now c' + ms)). rewrite H4. unfold u64. rewrite !Z.mod_small by lia. lia.
  - intros c s1 s2 r e skb a Ho Ht He H1 H2 Hk. destruct (timeout_exec c s1 s2 r e Ho Ht He) as (c' & s1' & r' & E & T1 & T2 & T3 & T4 & T5 & T6 & T7 & T8 & T9 & T10).
    rewrite (bind_step _ _ _ _ _ E). apply (cumulative_ack_asserts c' s1' s2 r' a); try done; try congruence.
    + rewrite T2. apply Ho.
    + destruct Hk as [K1 K2 K3 K4 K5 K6 K7 K8]. by split; rewrite ?T7, ?T8, ?T9, ?T10.
Qed.

Definition ex_fin : sk_buff := mk_sk_buff 7 40 5 (mk_tcp_packet 501 1001 5 true false false false true 8192 []) 0 0 0 0 0.

Lemma tcp_losses_fail_assertions_witness :
  match tcp_dispatch ex_fin (ex_conn []) with
  | Ok (_, c') => (handle_event (Tick 1000);; handle_event (Timeout Retransmit)) c' = Fail Assert
  | Fail _ => False
  end.
Proof.
  destruct (proj1 tcp_losses_fail_assertions (ex_conn []) ex_fin 1000) as (c' & E & _ & H).
  - split; try reflexivity; [exact ex_quiet|discriminate].
  - split; reflexivity.
  - discriminate.
  - split; discriminate.
  - reflexivity.
  - rewrite E. exact H.
Defined.
