(* ===== verification/TcpInvariant.v ===== *)
(** * The invariant of a TCP connection

    Every variable of a connection of [Tcp] stays within the width of its C type, every
    queued buffer is well formed, the buffers of the transmit queue are distinct and
    [send_head] is one of them or null: the invariant holds along every sequence of
    received frames, timer interrupts and calls of the owner thread. *)
From Stdlib Require Import ZArith Lia Bool List.
From coqutil Require Import Datatypes.RecordSetters.
From stdpp Require Import base list option sets relations.
From S2P Require Import Prelude Hoare Packet Tcp TcpStates.
Import TriangleBracketNotations.

Open Scope Z_scope.

(** ** Widths *)

Definition is_u16 (z : Z) : Prop := 0 <= z < 2 ^ 16.
Definition is_u8 (z : Z) : Prop := 0 <= z < 2 ^ 8.
Definition is_u64 (z : Z) : Prop := 0 <= z < 2 ^ 64.
Definition timer_ok (o : option Z) : Prop := from_option is_u64 True o.

Create HintDb width.
Lemma width_u32 z : is_u32 (u32 z).
Proof. apply Z.mod_pos_bound. lia. Qed.
Lemma width_u16 z : is_u16 (u16 z).
Proof. apply Z.mod_pos_bound. lia. Qed.
Lemma width_u8 z : is_u8 (u8 z).
Proof. apply Z.mod_pos_bound. lia. Qed.
Lemma width_u64 z : is_u64 (u64 z).
Proof. apply Z.mod_pos_bound. lia. Qed.
Lemma width_max a b : is_u32 a -> is_u32 b -> is_u32 (Z.max a b).
Proof. unfold is_u32. lia. Qed.
Lemma width_min a b : is_u32 a -> is_u32 b -> is_u32 (Z.min a b).
Proof. unfold is_u32. lia. Qed.
Lemma width_half a : is_u32 a -> is_u32 (a / 2).
Proof. unfold is_u32. intros. Z.to_euclidean_division_equations. lia. Qed.
Lemma width_16_32 a : is_u16 a -> is_u32 a.
Proof. unfold is_u16, is_u32. lia. Qed.
Lemma width_htons a : is_u32 (htons a).
Proof. pose proof (htons_u16 a). unfold u16_ok, is_u32 in *. lia. Qed.
Lemma timer_some z : is_u64 z -> timer_ok (Some z).
Proof. done. Qed.
Lemma timer_none : timer_ok None.
Proof. done. Qed.
#[export] Hint Resolve width_u32 width_u16 width_u8 width_u64 width_max width_min width_half width_htons timer_some timer_none : width.
#[export] Hint Extern 5 (is_u32 _) => (apply width_16_32; assumption) : width.
#[export] Hint Extern 2 (is_u32 ?x) => (lazymatch x with Z0 => idtac | Zpos _ => idtac end; split; [discriminate|reflexivity]) : width.
#[export] Hint Extern 2 (is_u16 ?x) => (lazymatch x with Z0 => idtac | Zpos _ => idtac end; split; [discriminate|reflexivity]) : width.
#[export] Hint Extern 2 (is_u8 ?x) => (lazymatch x with Z0 => idtac | Zpos _ => idtac end; split; [discriminate|reflexivity]) : width.
#[export] Hint Extern 2 (is_u64 ?x) => (lazymatch x with Z0 => idtac | Zpos _ => idtac end; split; [discriminate|reflexivity]) : width.

(** The variables of [struct tcp_sock] fit their types. *)
Record tcb_ok (t : tcp_sock) : Prop := {
  ok_snd_mss : is_u32 (snd_mss t);
  ok_snd_iss : is_u32 (snd_iss t);
  ok_snd_una : is_u32 (snd_una t);
  ok_snd_nxt : is_u32 (snd_nxt t);
  ok_snd_wnd : is_u32 (snd_wnd t);
  ok_snd_wl1 : is_u32 (snd_wl1 t);
  ok_snd_wl2 : is_u32 (snd_wl2 t);
  ok_rcv_mss : is_u32 (rcv_mss t);
  ok_rcv_irs : is_u32 (rcv_irs t);
  ok_rcv_nxt : is_u32 (rcv_nxt t);
  ok_rcv_wnd : is_u32 (rcv_wnd t);
  ok_ssthresh : is_u32 (ssthresh t);
  ok_cwnd : is_u32 (cwnd t);
  ok_flight_size : is_u32 (flight_size t);
  ok_rto : is_u32 (rto t);
  ok_srtt : is_u32 (srtt t);
  ok_rttvar : is_u32 (rttvar t);
  ok_rtt_end_seq : is_u32 (rtt_end_seq t);
  ok_snd_wds : is_u8 (snd_wds t);
  ok_number_of_dup_acks : is_u8 (number_of_dup_acks t);
  ok_syn_retries : is_u8 (syn_retries t);
  ok_persist_backoff : is_u16 (persist_backoff t);
  ok_rtt_time : is_u64 (rtt_time t);
  ok_msl_timer : timer_ok (msl_timer t);
  ok_retransmit_timer : timer_ok (retransmit_timer t);
  ok_persist_timer : timer_ok (persist_timer t) }.

Ltac tcb := intros [] ?; constructor; assumption.

Lemma set_state_ok t v : tcb_ok t -> tcb_ok (t <| state := v |>).
Proof. intros []; constructor; assumption. Qed.
Lemma set_snd_mss_ok t v : tcb_ok t -> is_u32 v -> tcb_ok (t <| snd_mss := v |>).
Proof. tcb. Qed.
Lemma set_snd_iss_ok t v : tcb_ok t -> is_u32 v -> tcb_ok (t <| snd_iss := v |>).
Proof. tcb. Qed.
Lemma set_snd_una_ok t v : tcb_ok t -> is_u32 v -> tcb_ok (t <| snd_una := v |>).
Proof. tcb. Qed.
Lemma set_snd_nxt_ok t v : tcb_ok t -> is_u32 v -> tcb_ok (t <| snd_nxt := v |>).
Proof. tcb. Qed.
Lemma set_snd_wnd_ok t v : tcb_ok t -> is_u32 v -> tcb_ok (t <| snd_wnd := v |>).
Proof. tcb. Qed.
Lemma set_snd_wl1_ok t v : tcb_ok t -> is_u32 v -> tcb_ok (t <| snd_wl1 := v |>).
Proof. tcb. Qed.
Lemma set_snd_wl2_ok t v : tcb_ok t -> is_u32 v -> tcb_ok (t <| snd_wl2 := v |>).
Proof. tcb. Qed.
Lemma set_rcv_mss_ok t v : tcb_ok t -> is_u32 v -> tcb_ok (t <| rcv_mss := v |>).
Proof. tcb. Qed.
Lemma set_rcv_irs_ok t v : tcb_ok t -> is_u32 v -> tcb_ok (t <| rcv_irs := v |>).
Proof. tcb. Qed.
Lemma set_rcv_nxt_ok t v : tcb_ok t -> is_u32 v -> tcb_ok (t <| rcv_nxt := v |>).
Proof. tcb. Qed.
Lemma set_rcv_wnd_ok t v : tcb_ok t -> is_u32 v -> tcb_ok (t <| rcv_wnd := v |>).
Proof. tcb. Qed.
Lemma set_ssthresh_ok t v : tcb_ok t -> is_u32 v -> tcb_ok (t <| ssthresh := v |>).
Proof. tcb. Qed.
Lemma set_cwnd_ok t v : tcb_ok t -> is_u32 v -> tcb_ok (t <| cwnd := v |>).
Proof. tcb. Qed.
Lemma set_flight_size_ok t v : tcb_ok t -> is_u32 v -> tcb_ok (t <| flight_size := v |>).
Proof. tcb. Qed.
Lemma set_rto_ok t v : tcb_ok t -> is_u32 v -> tcb_ok (t <| rto := v |>).
Proof. tcb. Qed.
Lemma set_srtt_ok t v : tcb_ok t -> is_u32 v -> tcb_ok (t <| srtt := v |>).
Proof. tcb. Qed.
Lemma set_rttvar_ok t v : tcb_ok t -> is_u32 v -> tcb_ok (t <| rttvar := v |>).
Proof. tcb. Qed.
Lemma set_rtt_end_seq_ok t v : tcb_ok t -> is_u32 v -> tcb_ok (t <| rtt_end_seq := v |>).
Proof. tcb. Qed.
Lemma set_snd_wds_ok t v : tcb_ok t -> is_u8 v -> tcb_ok (t <| snd_wds := v |>).
Proof. tcb. Qed.
Lemma set_number_of_dup_acks_ok t v : tcb_ok t -> is_u8 v -> tcb_ok (t <| number_of_dup_acks := v |>).
Proof. tcb. Qed.
Lemma set_syn_retries_ok t v : tcb_ok t -> is_u8 v -> tcb_ok (t <| syn_retries := v |>).
Proof. tcb. Qed.
Lemma set_persist_backoff_ok t v : tcb_ok t -> is_u16 v -> tcb_ok (t <| persist_backoff := v |>).
Proof. tcb. Qed.
Lemma set_rtt_time_ok t v : tcb_ok t -> is_u64 v -> tcb_ok (t <| rtt_time := v |>).
Proof. tcb. Qed.
Lemma set_msl_timer_ok t v : tcb_ok t -> timer_ok v -> tcb_ok (t <| msl_timer := v |>).
Proof. tcb. Qed.
Lemma set_retransmit_timer_ok t v : tcb_ok t -> timer_ok v -> tcb_ok (t <| retransmit_timer := v |>).
Proof. tcb. Qed.
Lemma set_persist_timer_ok t v : tcb_ok t -> timer_ok v -> tcb_ok (t <| persist_timer := v |>).
Proof. tcb. Qed.
#[export] Hint Resolve set_state_ok set_snd_mss_ok set_snd_iss_ok set_snd_una_ok set_snd_nxt_ok set_snd_wnd_ok set_snd_wl1_ok set_snd_wl2_ok set_rcv_mss_ok set_rcv_irs_ok set_rcv_nxt_ok set_rcv_wnd_ok set_ssthresh_ok set_cwnd_ok set_flight_size_ok set_rto_ok set_srtt_ok set_rttvar_ok set_rtt_end_seq_ok set_snd_wds_ok set_number_of_dup_acks_ok set_syn_retries_ok set_persist_backoff_ok set_rtt_time_ok set_msl_timer_ok set_retransmit_timer_ok set_persist_timer_ok : width.
#[export] Hint Resolve ok_snd_mss ok_snd_iss ok_snd_una ok_snd_nxt ok_snd_wnd ok_snd_wl1 ok_snd_wl2 ok_rcv_mss ok_rcv_irs ok_rcv_nxt ok_rcv_wnd ok_ssthresh ok_cwnd ok_flight_size ok_rto ok_srtt ok_rttvar ok_rtt_end_seq ok_snd_wds ok_number_of_dup_acks ok_syn_retries ok_persist_backoff ok_rtt_time ok_msl_timer ok_retransmit_timer ok_persist_timer : width.

(** A buffer is well formed. *)
Record skb_ok (s : sk_buff) : Prop := {
  sk_seq : is_u32 (sequence_number (tcph s));
  sk_ack : is_u32 (ack_number (tcph s));
  sk_window : is_u16 (window (tcph s));
  sk_length : is_u16 (total_length s);
  sk_offset : 0 <= data_offset (tcph s) < 16;
  sk_ihl : 0 <= ihl s < 16;
  sk_cb_seq : is_u32 (cb_seq s);
  sk_end_seq : is_u32 (cb_end_seq s);
  sk_expires : is_u64 (cb_expires s);
  sk_when : is_u64 (cb_when s);
  sk_payload : Forall byte_ok (payload (tcph s)) }.
Lemma sk_window32 s : skb_ok s -> is_u32 (window (tcph s)).
Proof. intros []. by apply width_16_32. Qed.
#[export] Hint Resolve sk_payload sk_window32 sk_seq sk_ack sk_window sk_end_seq sk_expires sk_when : width.

Definition event_ok (e : event) : Prop := match e with Rx frame => Forall byte_ok frame | _ => True end.

Definition ids (q : list sk_buff) : list nat := skb_id <$> q.

(** The transmit queue: distinct buffers, all allocated, and [send_head] is one of them. *)
Definition queue_ok (q : list sk_buff) (h : option nat) (n : nat) : Prop :=
  NoDup (ids q) /\ Forall (fun i => (i < n)%nat) (ids q) /\ from_option (fun i => i ∈ ids q) True h.

Record conn_ok (c : conn) : Prop := {
  co_tcb : tcb_ok (tsk c);
  co_tx : Forall skb_ok (tx_queue c);
  co_rx : Forall skb_ok (rx_queue c);
  co_sent : Forall skb_ok (sent c);
  co_now : is_u64 (now c);
  co_junk : is_u8 (junk c).2;
  co_events : Forall event_ok (events c);
  co_queue : queue_ok (tx_queue c) (send_head c) (next_skb c) }.

(** ** Updates of the variables *)

Abbreviation typed := (gives conn_ok).
Abbreviation any := (fun _ => True).

Lemma conn_put_tsk c t : conn_ok c -> tcb_ok t -> conn_ok (c <| tsk := t |>).
Proof. intros []. by split. Qed.

Lemma typed_tmod f : (forall t, tcb_ok t -> tcb_ok (f t)) -> typed any (tmod f).
Proof. intros Hf. apply gives_modify. intros c []. split; try assumption. by apply (Hf (tsk c)). Qed.

Lemma typed_tget : typed tcb_ok tget.
Proof. apply gives_gets. by intros c []. Qed.

Lemma typed_now : typed is_u64 (gets now).
Proof. apply gives_gets. by intros c []. Qed.

Lemma typed_id : typed conn_ok (gets id).
Proof. apply gives_gets. done. Qed.

Lemma typed_gets {A} (g : conn -> A) : typed any (gets g).
Proof. by apply gives_gets. Qed.

Lemma typed_modify f : (forall c, conn_ok c -> conn_ok (f c)) -> typed any (modify f).
Proof. apply gives_modify. Qed.

Lemma typed_deref {A} (g : conn -> option A) : typed any (deref g).
Proof. intros c Hc. by apply ends_deref. Qed.

Lemma typed_fmap {A B} (g : A -> B) (m : M conn A) : typed any m -> typed any (g <$> m).
Proof. intros Hm c Hc. apply ends_fmap. eapply ends_mono; [by apply Hm|]. by intros a c' [Hc' _]. Qed.

Lemma typed_wake : typed any wake_owner.
Proof. apply typed_modify. intros c []. by split. Qed.

Lemma typed_wait : typed any wait_owner.
Proof. apply typed_modify. intros c []. by split. Qed.

Lemma typed_payload_lenth s : typed is_u16 (tcp_payload_lenth s).
Proof. unfold tcp_payload_lenth. eapply gives_bind; [apply gives_assert|]. intros _ _. apply gives_ret, width_u16. Qed.

(** Follows the structure of a computation; updates of the variables by the widths. *)
Ltac typ1 :=
  match goal with
  | |- typed _ (tget ≫= _) => eapply gives_bind; [apply typed_tget|intros ? ?]
  | |- typed _ (gets now ≫= _) => eapply gives_bind; [apply typed_now|intros ? ?]
  | |- typed _ (gets id ≫= _) => eapply gives_bind; [apply typed_id|intros ? ?]
  | |- typed _ (tcp_payload_lenth _ ≫= _) => eapply gives_bind; [apply typed_payload_lenth|intros ? ?]
  | |- typed _ (massert _ ≫= _) => eapply gives_bind; [apply gives_assert|intros ? ?]
  | |- typed _ (_ ≫= _) => eapply (gives_bind _ any); [|intros ? _]
  | |- typed any (tmod _) => apply typed_tmod; intros ? ?; cbv zeta; auto 12 with width nocore
  | |- typed any wake_owner => apply typed_wake
  | |- typed any (mret _) => by apply gives_ret
  | |- typed any (gets _) => apply typed_gets
  | |- typed any (mfail _) => apply gives_fail
  | |- typed any (massert _) => eapply gives_true, gives_assert
  | |- typed any (if ?b then _ else _) => destruct b
  | |- typed any (match ?x with _ => _ end) => destruct x
  end.
Ltac typ := repeat typ1.

(** ** The congestion and round-trip variables *)

Lemma create_tcb_ok t : tcb_ok t -> tcb_ok (tcp_create_tcb t).
Proof. intros Ht. unfold tcp_create_tcb, ETH_DATA_LEN, ETH_MAX_MTU, IP4_HEADER, TCP_HEADER. cbv zeta. change ((1500 - (20 + 20)) / 4 * 4) with 1460. auto 40 with width nocore. Qed.

Lemma delete_tcb_ok t : tcb_ok t -> tcb_ok (tcp_delete_tcb t).
Proof. intros Ht. unfold tcp_delete_tcb. auto 20 with width nocore. Qed.

Lemma enter_close_ok t : tcb_ok t -> tcb_ok (tcp_enter_close_state t).
Proof. intros Ht. unfold tcp_enter_close_state. auto 20 with width nocore. Qed.

Lemma transition_ok f t : tcb_ok t -> tcb_ok (tcp_state_transition f t).
Proof. intros Ht. unfold tcp_state_transition. cbv zeta. destruct (_ && _); auto 10 with width nocore. Qed.

Lemma calculate_rto_ok rtt t : is_u32 rtt -> tcb_ok t -> tcb_ok (tcp_calculate_rto rtt t).
Proof. intros Hr Ht. unfold tcp_calculate_rto. destruct (_ =? 0); cbv zeta; auto 20 with width nocore. Qed.

Lemma calculate_congestion_ok a t : tcb_ok t -> tcb_ok (tcp_calculate_congestion a t).
Proof. intros Ht. unfold tcp_calculate_congestion, ETH_MAX_MTU. destruct (_ <=? _); cbv zeta; auto 20 with width nocore. Qed.
#[export] Hint Resolve create_tcb_ok delete_tcb_ok enter_close_ok transition_ok calculate_rto_ok calculate_congestion_ok : width.

(** ** The queue *)

Lemma ids_set_skb s q : ids (set_skb s q) = ids q.
Proof.
  unfold ids, set_skb. rewrite <- list_fmap_compose. apply list_fmap_ext. intros i x _. cbn. destruct (Nat.eqb_spec (skb_id x) (skb_id s)); congruence.
Qed.

Lemma set_skb_ok s q : skb_ok s -> Forall skb_ok q -> Forall skb_ok (set_skb s q).
Proof. intros Hs Hq. unfold set_skb. apply Forall_fmap. eapply list.Forall_impl; [exact Hq|]. intros x Hx. cbn. by destruct (_ =? _)%nat. Qed.

Lemma next_of_elem i q j : next_of i q = Some j -> j ∈ ids q.
Proof.
  induction q as [|x q IH]; [done|]. cbn [next_of]. destruct (_ =? _)%nat.
  - destruct q as [|y q]; [done|]. intros [= <-]. cbn. set_solver.
  - intros H. cbn. apply list_elem_of_further. by apply IH.
Qed.

Lemma queue_none q h n : queue_ok q h n -> queue_ok q None n.
Proof. by intros (H1 & H2 & _). Qed.

Lemma Forall_sub {A} (P : A -> Prop) l' l : sublist l' l -> Forall P l -> Forall P l'.
Proof. induction 1 as [|x l1 l2 _ IH|x l1 l2 _ IH]; intros Hl; [done|apply list.Forall_cons in Hl as [Hx Hl]; constructor; auto|apply list.Forall_cons in Hl as [_ Hl]; auto]. Qed.

(** A sublist that keeps [send_head]. *)
Lemma queue_sublist q q' h n : sublist q' q -> from_option (fun i => i ∈ ids q') True h -> NoDup (ids q) -> Forall (fun i => (i < n)%nat) (ids q) -> queue_ok q' h n.
Proof.
  intros Hs Hh Hn Hf. assert (sublist (ids q') (ids q)) as Hs' by by apply fmap_sublist. split_and!; [by eapply sublist_NoDup|by eapply Forall_sub|done].
Qed.

Lemma conn_put_queue c q h :
  conn_ok c -> sublist q (tx_queue c) -> from_option (fun i => i ∈ ids q) True h -> conn_ok (c <| tx_queue := q |> <| send_head := h |>).
Proof.
  intros [] Hs Hh. destruct co_queue0 as (N & F & _). split; try assumption; [by eapply Forall_sub|by eapply queue_sublist].
Qed.

Lemma typed_flush_tx : typed any tcp_flush_tx.
Proof. apply typed_modify. intros c Hc. apply (conn_put_queue c [] None Hc); [apply sublist_nil_l|done]. Qed.

Lemma typed_flush_rx : typed any tcp_flush_rx.
Proof. apply typed_modify. intros c []. by split. Qed.

(** *** Sending *)

Lemma stamp_ok s a b : skb_ok s -> is_u64 a -> is_u64 b -> skb_ok (s <| cb_when := a |> <| cb_expires := b |>).
Proof. intros []. by split. Qed.

Lemma typed_set_skb s : skb_ok s -> typed any (modify (fun c => c <| tx_queue ::= set_skb s |>)).
Proof.
  intros Hs. apply typed_modify. intros c []. split; try assumption; [by apply set_skb_ok|].
  destruct co_queue0 as (N & F & H). unfold queue_ok. change (tx_queue _) with (set_skb s (tx_queue c)). by rewrite ids_set_skb.
Qed.

Lemma typed_sent s : skb_ok s -> typed any (modify (fun c => c <| sent ::= (fun l => l ++ [s]) |>)).
Proof. intros Hs. apply typed_modify. intros c []. split; try assumption. apply Forall_app_2; [assumption|by constructor]. Qed.

(** Sending changes neither the identities in the queue nor [send_head]. *)
Lemma typed_send s r : skb_ok s -> typed (fun s' => skb_ok s' /\ skb_id s' = skb_id s) (tcp_send_skb s r).
Proof.
  intros Hs. unfold tcp_send_skb. typ1. cbv zeta. typ1; [typ|]. typ1; [typ|]. do 2 typ1.
  typ1; [by apply typed_set_skb, stamp_ok; eauto with width nocore|]. typ1; [typ|]. typ1. typ1; [typ|].
  { apply set_retransmit_timer_ok; [done|]. apply (width_u64 (a2 + rto a3)). }
  typ1; [apply typed_sent, stamp_ok; eauto with width nocore|]. apply gives_ret. split; [|done]. apply stamp_ok; eauto with width nocore.
Qed.

(** A buffer that is not on the queue yet. *)
Definition pending (s : sk_buff) (c : conn) : Prop := conn_ok c /\ skb_ok s /\ skb_id s ∉ ids (tx_queue c) /\ (skb_id s < next_skb c)%nat.

Lemma typed_create {B} (R : B -> Prop) seq a f o d (k : sk_buff -> M conn B) :
  Forall byte_ok (o ++ d) -> (forall s c, pending s c -> ends (k s) c (fun b c' => conn_ok c' /\ R b)) -> typed R (tcp_create_skb seq a f o d ≫= k).
Proof.
  intros Hb Hk c [T X R' E N J V (Q1 & Q2 & Q3)]. tstep. unfold tcp_create_skb. repeat tstep. apply Hk. split_and!.
  - split; try assumption. split_and!; try assumption. eapply list.Forall_impl; [exact Q2|]. cbn beta. intros i Hi. change (i < S (next_skb c))%nat. lia.
  - split; cbn; auto with width nocore; try (split; [discriminate|reflexivity]). apply Z.mod_pos_bound. lia.
  - intros Hin. rewrite list.Forall_forall in Q2. specialize (Q2 _ Hin). cbn in Q2. lia.
  - apply Nat.lt_succ_diag_r.
Qed.

Lemma typed_segment seq a f : typed any (send_segment seq a f).
Proof.
  apply typed_create; [constructor|]. intros s c (Hc & Hs & _). tstep. eapply ends_mono; [by apply typed_send|]. intros s' c'' [Hc'' _]. by tstep.
Qed.

(** A new segment goes on the queue. *)
Lemma add_pending s c : pending s c -> ends (tcp_tx_queue_add_skb s) c (fun _ => conn_ok).
Proof.
  intros ([T X R E N J V (Q1 & Q2 & Q3)] & Hs & Hi & Hn). unfold tcp_tx_queue_add_skb. tstep. split; try assumption.
  - apply Forall_app_2; [assumption|by constructor].
  - unfold queue_ok, ids. change (tx_queue _) with (tx_queue c ++ [s]). rewrite fmap_app. cbn [fmap list_fmap]. split_and!.
    + apply NoDup_app. split_and!; [assumption| |apply NoDup_singleton]. intros i Hin ->%list_elem_of_singleton. by apply Hi.
    + apply Forall_app_2; [assumption|]. by constructor.
    + change (from_option (fun i => i ∈ (skb_id <$> tx_queue c) ++ [skb_id s]) True (match send_head c with None => Some (skb_id s) | Some _ => send_head c end)).
      destruct (send_head c) as [h|] eqn:Eh; cbn; [|set_solver]. cbn in Q3. unfold ids in Q3. set_solver.
Qed.

(** *** Acknowledgements *)

Lemma drop_acked_sublist a all q c :
  ends (drop_acked a all q) c (fun q' c' => c' = c /\ sublist q' q /\ (forall h, send_head c = Some h -> h ∈ ids q -> h ∈ ids q')).
Proof.
  induction q as [|x q IH]; cbn [drop_acked]; [by tstep|]. ebranch.
  - repeat tstep. eapply ends_mono; [exact IH|]. intros q' c' (-> & Hs & Hh). split_and!; [done|by apply sublist_cons|].
    intros h Eh Hin. apply Hh; [done|]. cbn in Hin. apply elem_of_cons in Hin as [->|]; [|done].
    rewrite bool_decide_eq_true_2 in H by done. done.
  - tstep. eapply ends_mono; [exact IH|]. intros q' c' (-> & Hs & Hh). tstep. split_and!; [done|by apply sublist_skip|].
    intros h Eh Hin. cbn in *. apply elem_of_cons in Hin as [->|Hin]; [set_solver|]. apply list_elem_of_further. by apply Hh.
Qed.

(** The removal of the acknowledged segments leaves well-formed ones. *)
Lemma typed_drop_acked {B} a all (k : list sk_buff -> M conn B) (R : B -> Prop) :
  (forall q', Forall skb_ok q' -> typed R (k q')) ->
  typed R (q ← gets tx_queue; q' ← drop_acked a all q; modify (fun c => c <| tx_queue := q' |>);; k q').
Proof.
  intros Hk c Hc. do 3 tstep. eapply ends_mono; [apply drop_acked_sublist|]. intros q' c' (-> & Hs & Hh). do 2 tstep.
  apply Hk; [by eapply Forall_sub, co_tx|]. assert (conn_ok (c <| tx_queue := q' |> <| send_head := send_head c |>)) as H; [|by destruct c].
  apply conn_put_queue; [done..|]. destruct (co_queue _ Hc) as (_ & _ & H3). destruct (send_head c) as [h|]; [|done]. by apply Hh.
Qed.

Lemma second_in_queue q : from_option (fun i => i ∈ ids q) True (skb_id <$> head (tail q)).
Proof. destruct q as [|x [|y q]]; cbn; [done..|set_solver]. Qed.

Lemma typed_skip_first : typed any (modify (fun c => c <| send_head := skb_id <$> head (tail (tx_queue c)) |>)).
Proof.
  apply typed_modify. intros c Hc. assert (conn_ok (c <| tx_queue := tx_queue c |> <| send_head := skb_id <$> head (tail (tx_queue c)) |>)) as H; [|by destruct c].
  apply conn_put_queue; [done|done|apply second_in_queue].
Qed.

Lemma typed_accept_ack a all : is_u32 a -> typed any (tcp_accept_ack a all).
Proof.
  intros Ha. unfold tcp_accept_ack. typ1; [typ|]. typ1. cbv zeta. typ1; [destruct (match tx_queue _ with [] => _ | _ => _ end); [typ1; [typ|apply typed_skip_first]|typ]|].
  apply typed_drop_acked. intros q' Hq. typ1.
  - destruct q' as [|x q']; [typ|]. apply list.Forall_cons in Hq as [Hx _]. destruct (match tx_queue _ with [] => _ | _ => _ end); [typ|]. typ1. typ.
  - typ1. typ.
Qed.

(** ** The handlers *)

Lemma typed_parse n o len i r w : Forall byte_ok o -> is_u8 w -> typed (fun p => is_u8 p.2) (parse_options n o len i r w).
Proof.
  intros Ho. assert (forall j, typed byte_ok (byte_at o j)) as Hb.
  { intros j c Hc. unfold byte_at. apply ends_deref. intros b Eb. split; [done|]. by eapply Forall_lookup_1. }
  revert i r w. induction n as [|n IH]; intros i r w Hw; cbn [parse_options]; [apply gives_fail|]. destruct (_ <? _); [|by apply gives_ret].
  eapply gives_bind; [apply Hb|]. intros o1 _. destruct (_ || _); [by apply IH|]. eapply (gives_bind _ any).
  { destruct (_ =? _); [|by apply gives_ret]. apply typed_fmap. unfold tcp_get_option_value. cbn [Z.eqb Pos.eqb].
    eapply (gives_bind _ any); [by eapply gives_true|intros ? _]. eapply (gives_bind _ any); [by eapply gives_true|intros ? _]. by apply gives_ret. }
  intros r' _. eapply (gives_bind _ is_u8).
  { destruct (_ =? _); [|by apply gives_ret]. intros c Hc. tstep. unfold tcp_get_option_value. cbn [Z.eqb Pos.eqb]. tstep. eapply ends_mono; [by apply Hb|].
    intros b c' [Hc' Hb']. tstep. split; [done|]. cbn [fst]. unfold is_u8, byte_ok in *. change (2 ^ 8) with 256 in *. rewrite Z.div_small by lia. lia. }
  intros w' Hw'. eapply gives_bind; [apply Hb|]. intros l _. by apply IH.
Qed.

Lemma typed_parse_syn o len : Forall byte_ok o -> typed any (tcp_parse_syn_options o len).
Proof.
  intros Ho. unfold tcp_parse_syn_options. eapply (gives_bind _ (fun j => is_u8 j.2)); [apply gives_gets; apply co_junk|]. intros j Hj.
  eapply gives_bind; [by apply typed_parse|]. intros [r w] Hw. cbn [snd] in Hw. unfold ntohs. typ.
Qed.

Ltac typh :=
  repeat (typ1 || match goal with
  | |- typed any (send_segment _ _ _) => apply typed_segment
  | |- typed any (tcp_accept_ack _ _) => apply typed_accept_ack; auto with width nocore
  | |- typed any tcp_flush_tx => apply typed_flush_tx
  | |- typed any tcp_flush_rx => apply typed_flush_rx
  | |- typed any (tcp_parse_syn_options _ _) => apply typed_parse_syn; auto with width nocore
  end).

Lemma typed_handler_close s : skb_ok s -> typed any (tcp_handler_close s).
Proof. intros Hs. unfold tcp_handler_close. cbv zeta. typh. Qed.

Lemma typed_handler_sync s : skb_ok s -> typed any (tcp_handler_sync s).
Proof.
  intros Hs. unfold tcp_handler_sync. cbv zeta. typh.
Qed.

(** Sending the first segment of the queue again. *)
Lemma typed_send_first {B} (k : sk_buff -> M conn B) (R : B -> Prop) (m : M conn B) :
  typed R m -> (forall s, skb_ok s -> typed R (k s)) ->
  typed R (q ← gets tx_queue; match q with [] => m | s :: _ => k s end).
Proof.
  intros Hm Hk. eapply (gives_bind _ (Forall skb_ok)); [apply gives_gets, co_tx|]. intros [|s q] Hq; [done|]. apply Hk. by apply list.Forall_cons in Hq as [Hs _].
Qed.

Lemma typed_send_again s r : skb_ok s -> typed any (tcp_send_skb s r;; mret tt).
Proof. intros Hs. eapply (gives_bind _ any); [by eapply gives_true, typed_send|]. intros _ _. by apply gives_ret. Qed.

Lemma typed_process_ack s len : skb_ok s -> typed any (process_ack s len).
Proof.
  intros Hs. unfold process_ack. cbv zeta. typ1. typ1; [typh|]. typ1; [|typh]. typ1; [typh|]. typ1; [typh|]. typ1; [|typh].
  typ1; [typh|]. typ1. typ1; [|typh]. typ1; [|typh]. typ1; [typh|]. apply typed_send_first; [typh|]. intros s' Hs'. by apply typed_send_again.
Qed.

Lemma typed_process_fin_acked : typed any process_fin_acked.
Proof. unfold process_fin_acked. cbv zeta. typh. Qed.

Lemma typed_rx s : skb_ok s -> typed any (modify (fun c => c <| rx_queue ::= (fun q => q ++ [s]) |>)).
Proof. intros Hs. apply typed_modify. intros c []. split; try assumption. apply Forall_app_2; [assumption|by constructor]. Qed.

Lemma typed_process_text s len : skb_ok s -> typed any (process_text s len).
Proof. intros Hs. unfold process_text. typ1. typ1; [|typh]. typ1; [typ1; [by apply typed_rx|typh]|]. typh. Qed.

Lemma typed_start_msl : typed any start_msl_timer.
Proof. unfold start_msl_timer. typh. Qed.

Lemma typed_enter_time_wait : typed any enter_time_wait.
Proof. unfold enter_time_wait. typ1; [typh|apply typed_start_msl]. Qed.

Lemma typed_process_fin b : typed any (process_fin b).
Proof. unfold process_fin. typ1. typ1; [typh; apply typed_enter_time_wait || apply typed_start_msl|]. typh. Qed.

Lemma typed_established s : skb_ok s -> typed any (tcp_handler_established s).
Proof.
  intros Hs. unfold tcp_handler_established. cbv zeta. do 2 typ1. typ1; [typh|]. typ1; [typ1; [apply typed_accept_ack; split; [discriminate|reflexivity]|typh]|].
  do 4 (typ1; [typh|]). typ1; [by apply typed_process_ack|]. typ1; [typh|]. typ1; [apply typed_process_fin_acked|]. typ1; [typh|].
  typ1; [by apply typed_process_text|]. typ1. typ1; [typh|]. typ1; [typ1; [apply typed_process_fin|typh]|typh].
Qed.

Lemma typed_dispatch s : skb_ok s -> typed any (tcp_dispatch s).
Proof.
  intros Hs. unfold tcp_dispatch. typ1. destruct (state _); (by apply typed_established) || (by apply typed_handler_sync) || (by apply typed_handler_close) || typh.
Qed.

(** A received frame gives a well-formed buffer. *)
Lemma get16_u16 off p : Forall byte_ok p -> is_u16 (get16 off p).
Proof. apply get16_u16_ok. Qed.

Lemma land_le_mask l a : 0 <= l -> 0 <= a -> 0 <= Z.land l a <= a.
Proof.
  intros Hl Ha. split; [apply Z.land_nonneg; lia|]. rewrite <- (Z2N.id l), <- (Z2N.id a) by done. rewrite <- N2Z.inj_land. apply N2Z.inj_le, N.land_le_r.
Qed.

Lemma htonl_u32 l : 0 <= l -> is_u32 (htonl l).
Proof.
  intros Hl. unfold htonl. pose proof (land_le_mask l 0xFF). pose proof (land_le_mask l 0xFF00). pose proof (land_le_mask l 0xFF0000). pose proof (land_le_mask l 0xFF000000).
  rewrite !Z.shiftl_mul_pow2, !Z.shiftr_div_pow2 by lia. change (2 ^ 24) with 16777216. change (2 ^ 8) with 256.
  repeat apply is_u32_lor; unfold is_u32; Z.to_euclidean_division_equations; lia.
Qed.

Lemma frame_ok id frame : Forall byte_ok frame -> skb_ok (skb_of_frame id frame).
Proof.
  intros Hb. assert (forall n, Forall byte_ok (drop n frame)) as Hd by (intros n; by apply Forall_drop).
  assert (forall n off, byte_ok (get8 off (drop n frame))) as Hg by (intros n off; by apply get8_byte_ok).
  assert (forall n off, 0 <= get32 off (drop n frame)) as H32.
  { intros n off. unfold get32. pose proof (get16_u16_ok off _ (Hd n)). pose proof (get16_u16_ok (off + 2) _ (Hd n)). unfold u16_ok in *. lia. }
  split; cbn; try (apply htonl_u32, H32); try (split; [discriminate|reflexivity]); try (apply htons_u16).
  - rewrite Z.shiftr_div_pow2 by lia. specialize (Hg 34%nat 12%nat). unfold byte_ok in Hg. change (2 ^ 4) with 16. Z.to_euclidean_division_equations. lia.
  - pose proof (land_le_mask (get8 0 (drop 14 frame)) 15). specialize (Hg 14%nat 0%nat). unfold byte_ok in Hg. lia.
  - rewrite drop_drop. apply Hd.
Qed.

Lemma typed_handler frame : Forall byte_ok frame -> typed any (tcp_handler frame).
Proof.
  intros Hb. unfold tcp_handler. typ1. do 3 (typ1; [typ|]). cbv zeta.
  pose proof (validate_restores (drop 34 frame) (u16 (ntohs (get16 2 (drop 14 frame)) - IP4_HEADER)) (ntohl (get32 12 (drop 14 frame))) (ntohl (get32 16 (drop 14 frame))) (Forall_drop _ _ _ Hb)) as Ht.
  destruct (tcp_validate_header _ _ _ _) as [ret tcp]. cbn [snd] in Ht. subst tcp. rewrite take_drop. typ1; [typ|]. typ1; [|typ].
  typ1; [|typ]. typ1; [|by apply typed_dispatch, frame_ok]. apply typed_modify. intros c []. destruct co_queue0 as (Q1 & Q2 & Q3). split; try assumption. split_and!; try assumption.
  eapply list.Forall_impl; [exact Q2|]. intros i Hi. cbn beta in Hi. change (i < S (next_skb c))%nat. lia.
Qed.

(** ** Timers and events *)

(** Sending keeps the identities in the queue. *)
Lemma send_ids s r c : skb_ok s -> conn_ok c ->
  ends (tcp_send_skb s r) c (fun s' c' => conn_ok c' /\ skb_ok s' /\ skb_id s' = skb_id s /\ ids (tx_queue c') = ids (tx_queue c)).
Proof.
  intros Hs Hc. apply ends_intro. intros s' c' E. pose proof (ends_ok _ _ _ _ _ (typed_send s r Hs c Hc) E) as [Hc' [Hs' Hi]]. split_and!; try done.
  cut (ends (tcp_send_skb s r) c (fun _ c' => ids (tx_queue c') = ids (tx_queue c))); [intros H; exact (ends_ok _ _ _ _ _ H E)|].
  unfold tcp_send_skb, tcp_payload_lenth. do 2 tstep. tstep. tstep. cbv zeta. do 3 tstep. repeat (tstep || ebranch); cbn -[set_skb]; by rewrite ids_set_skb.
Qed.

Lemma typed_after s : forall c, conn_ok c -> skb_id s ∈ ids (tx_queue c) -> ends (after_retransmission s) c (fun _ => conn_ok).
Proof.
  intros c Hc Hin. unfold after_retransmission. do 3 tstep. eapply (ends_mono _ _ (fun _ c' => conn_ok c' /\ tx_queue c' = tx_queue c)).
  { ebranch; [by tstep|]. tstep. split; [|done]. pose proof (co_tcb _ Hc).
    pose (t := (tsk c) <| ssthresh := Z.max (flight_size (tsk c) / 2) (u32 (2 * snd_mss (tsk c))) |> <| cwnd := snd_mss (tsk c) |>).
    exact (conn_put_tsk c t Hc ltac:(unfold t; auto 12 with width nocore)). }
  intros _ c' [Hc' Hq]. do 2 tstep. set (c1 := c' <| send_head := _ |>).
  assert (conn_ok c1) as H1.
  { assert (conn_ok (c' <| tx_queue := tx_queue c' |> <| send_head := Some (skb_id s) |>)) as H by (apply conn_put_queue; [done..|by rewrite Hq]). by destruct c'. }
  match goal with |- ends ?m _ _ => assert (typed any m) as Ht; [typ|exact (ends_mono _ _ _ _ (Ht c1 H1) (fun _ _ H => proj1 H))] end.
Qed.

Lemma typed_retransmit : typed any tcp_retransmit_timer.
Proof.
  unfold tcp_retransmit_timer. typ1. typ1; [typ|]. intros c Hc. do 2 tstep. destruct (tx_queue c) as [|s q] eqn:Eq; [tstep|].
  pose proof (co_tx _ Hc) as Hx. rewrite Eq in Hx. apply list.Forall_cons in Hx as [Hs _].
  tstep. eapply ends_mono; [by apply send_ids|]. intros s' c' (Hc' & _ & Hi & Hids).
  eapply ends_mono; [apply typed_after; [done|]|by intros]. rewrite Hids, Eq, Hi. cbn. set_solver.
Qed.

Lemma typed_persist : typed any tcp_persist_timer.
Proof.
  unfold tcp_persist_timer. do 2 typ1. typ1; [typ|]. typ1; [typ|]. apply typed_send_first; [typ|]. intros s Hs. do 2 typ1. by apply typed_send_again.
Qed.

Lemma typed_msl : typed any tcp_msl_timer.
Proof. unfold tcp_msl_timer. typ. Qed.

Lemma typed_event e : event_ok e -> typed any (handle_event e).
Proof.
  intros He. destruct e as [frame|ms|k|]; cbn [handle_event].
  - typ1; [by apply typed_handler|typ].
  - apply typed_modify. intros c []. split; try assumption. apply width_u64.
  - typ1. typ1; [|typ]. typ1; [|typ]. destruct k; cbn [timer_function]; [apply typed_retransmit|apply typed_persist|apply typed_msl].
  - typ.
Qed.

Lemma typed_run evs : Forall event_ok evs -> typed any (run_events evs).
Proof.
  induction 1 as [|e evs He Hevs IH]; cbn [run_events]; [typ|]. typ1; [apply typed_gets|]. 
  assert (typed any (handle_event e;; run_events evs)) as Hr by (typ1; [by apply typed_event|done]).
  destruct e; try done. destruct a; [done|]. apply typed_modify. intros c []. by split.
Qed.

Lemma typed_schedule : typed any tcp_schedule.
Proof. unfold tcp_schedule. eapply (gives_bind _ (Forall event_ok)); [apply gives_gets, co_events|]. intros evs. apply typed_run. Qed.

(** ** The calls of the owner thread *)

Lemma find_skb_elem id q : id ∈ ids q -> exists s, find_skb id q = Some s /\ skb_id s = id /\ s ∈ q.
Proof.
  intros (s & -> & Hs)%list_elem_of_fmap. unfold find_skb. destruct (list_find_elem_of (fun x => skb_id x = skb_id s) q s Hs eq_refl) as [[i x] E].
  rewrite E. apply list_find_Some in E as (Ex & Hx & _). exists x. split_and!; [done|done|]. by eapply list_elem_of_lookup_2.
Qed.

(** What the body of the loop of [tcp_transmit] starts with. *)
Lemma send_head_found c id : conn_ok c -> send_head c = Some id -> exists s, find_skb id (tx_queue c) = Some s /\ skb_ok s.
Proof.
  intros Hc Hh. destruct (co_queue _ Hc) as (_ & _ & Hin). rewrite Hh in Hin. destruct (find_skb_elem id _ Hin) as (s & E & _ & Hs). exists s. split; [done|].
  pose proof (co_tx _ Hc) as Hx. rewrite list.Forall_forall in Hx. by apply Hx.
Qed.

Lemma typed_advance id : typed any (modify (fun c => c <| send_head := next_of id (tx_queue c) |>)).
Proof.
  apply typed_modify. intros c Hc. assert (conn_ok (c <| tx_queue := tx_queue c |> <| send_head := next_of id (tx_queue c) |>)) as H; [|by destruct c].
  apply conn_put_queue; [done..|]. destruct (next_of id (tx_queue c)) as [j|] eqn:E; [|done]. by eapply next_of_elem.
Qed.

Lemma typed_send_window n : typed any (send_window n).
Proof.
  induction n as [|n IH]; cbn [send_window]; [typ|]. intros c Hc. do 2 tstep. unfold Datatypes.id. destruct (send_head c) as [id|] eqn:Hh; [|by tstep]. ebranch; [|by tstep].
  destruct (send_head_found c id Hc Hh) as (s & E & Hs). tstep. apply ends_deref. intros s' E'. rewrite E in E'. injection E' as <-.
  match goal with |- ends ?m c _ => assert (typed any m) as Ht; [|by apply Ht] end.
  eapply gives_bind; [by apply typed_send|]. intros s' [Hs' _]. typ1; [apply typed_advance|]. typ1; [apply typed_gets|]. typ1; [typ|done].
Qed.

Lemma typed_transmit_loop n : typed any (transmit_loop n).
Proof.
  induction n as [|n IH]; cbn [transmit_loop]; [typ|]. typ1; [apply typed_gets|]. destruct a; [typ|].
  typ1; [apply typed_send_window|]. typ1; [apply typed_wait|]. typ1; [apply typed_schedule|done].
Qed.

Lemma typed_transmit : typed any tcp_transmit.
Proof. unfold tcp_transmit. typ1; [apply typed_gets|]. apply typed_transmit_loop. Qed.

Lemma transmit_pending s c : pending s c -> ends (tcp_transmit_skb s) c (fun _ c' => conn_ok c' /\ True).
Proof. intros Hp. unfold tcp_transmit_skb. tstep. eapply ends_mono; [by apply add_pending|]. intros ? c' Hc'. by apply typed_transmit. Qed.

(** A new segment, queued and transmitted. *)
Lemma typed_create_transmit {B} seq a f o d (k : M conn B) : Forall byte_ok (o ++ d) -> typed any k -> typed any (s ← tcp_create_skb seq a f o d; tcp_transmit_skb s;; k).
Proof.
  intros Hb Hk. apply typed_create; [done|]. intros s c Hp. tstep. eapply ends_mono; [by apply transmit_pending|]. intros ? c' [Hc' _]. by apply Hk.
Qed.

Lemma syn_options_ok t : Forall byte_ok (tcp_build_syn_options t ++ []).
Proof.
  rewrite app_nil_r. unfold tcp_build_syn_options, tcp_set_option_value. apply Forall_take.
  assert (Forall byte_ok (replicate MAX_OPTION_LEN 0)) by (apply Forall_replicate; unfold byte_ok; lia).
  do 2 (apply put_bytes_byte_ok; do 2 apply put8_byte_ok). done.
Qed.

Lemma typed_connect vaddr r : is_u32 r -> typed any (tcp_connect vaddr r).
Proof.
  intros Hr. unfold tcp_connect. typ1; [apply typed_modify; by intros c []; split|]. typ1; [typ|]. typ1; [typ|]. typ1.
  apply typed_create_transmit; [apply syn_options_ok|]. typ1; [apply typed_modify; by intros c []; split|]. typ1. typ.
Qed.

Lemma message_bytes msg i j : Forall byte_ok msg -> Forall byte_ok ([] ++ take i (drop j msg)).
Proof. intros Hm. by apply Forall_take, Forall_drop. Qed.

Lemma typed_queue_window n msg nx mm mw i l : Forall byte_ok msg -> typed any (queue_window n msg nx mm mw i l).
Proof.
  intros Hm. revert i l. induction n as [|n IH]; intros i l; cbn [queue_window]; [typ|]. destruct (_ <? _); [|typ]. cbv zeta. do 2 typ1.
  apply typed_create; [by apply message_bytes|]. intros s c Hp. tstep. eapply ends_mono; [by apply add_pending|]. intros ? c' Hc'. by apply IH.
Qed.

Lemma pending_tmod s f c : (forall t, tcb_ok t -> tcb_ok (f t)) -> pending s c -> ends (tmod f) c (fun _ c' => pending s c').
Proof. intros Hf (Hc & Hs & Hi & Hn). tstep. split_and!; try done. destruct Hc. split; try assumption. by apply Hf. Qed.

Lemma typed_window_probe msg l : Forall byte_ok msg -> typed any (window_probe msg l).
Proof.
  intros Hm. unfold window_probe. do 3 typ1. cbv zeta. apply typed_create; [by apply message_bytes|]. intros s c Hp. do 3 tstep.
  eapply ends_mono; [apply pending_tmod; [|done]; intros; auto 12 with width nocore|]. intros ? c' Hp'. tstep.
  eapply ends_mono; [by apply transmit_pending|]. intros ? c'' [Hc'' _]. revert c'' Hc''. match goal with |- forall c, conn_ok c -> ends ?m _ _ => assert (typed any m) as Ht by typ; exact Ht end.
Qed.

Lemma typed_sendmsg_loop n msg nx mm l : Forall byte_ok msg -> typed any (sendmsg_loop n msg nx mm l).
Proof.
  intros Hm. revert l. induction n as [|n IH]; intros l; cbn [sendmsg_loop]; [typ|]. typ1. cbv zeta. typ1; [|typ].
  typ1; [typ1; [by apply typed_window_probe|typ]|]. typ1; [by apply typed_queue_window|]. typ1; [apply typed_transmit|apply IH].
Qed.

Lemma typed_sendmsg msg : Forall byte_ok msg -> typed any (tcp_sendmsg msg).
Proof. intros Hm. unfold tcp_sendmsg. typ1. typ1; [typ|]. cbv zeta. typ1; [by apply typed_sendmsg_loop|]. typ. Qed.

Lemma typed_find_message_end l r q : typed any (find_message_end l r q).
Proof. revert r. induction q as [|s q IH]; intros r; cbn [find_message_end]; typ. apply IH. Qed.

Lemma typed_await_message n l : typed any (await_message n l).
Proof.
  induction n as [|n IH]; cbn [await_message]; [typ|]. typ1. typ1; [|typ]. typ1; [apply typed_find_message_end|]. typ1; [typ|].
  typ1; [apply typed_wait|]. typ1; [apply typed_schedule|done].
Qed.

Lemma typed_take_message h q : Forall skb_ok q -> typed (fun p => Forall skb_ok p.2) (take_message h q).
Proof.
  induction 1 as [|s q Hs Hq IH]; cbn [take_message]; [by apply gives_ret|]. typ1. cbv zeta. destruct (bool_decide _); [by apply gives_ret|].
  eapply gives_bind; [exact IH|]. intros [d q'] Hq'. by apply gives_ret.
Qed.

Lemma typed_recvmsg l : typed any (tcp_recvmsg l).
Proof.
  unfold tcp_recvmsg. typ1. typ1; [typ|]. typ1; [apply typed_modify; by intros c []; split|]. typ1; [apply typed_await_message|].
  eapply (gives_bind _ (Forall skb_ok)); [apply gives_gets, co_rx|]. intros q Hq. eapply gives_bind; [by apply typed_take_message|]. intros [d q'] Hq'.
  typ1; [apply typed_modify; by intros c []; split|]. typ.
Qed.

Lemma typed_await_close n : typed any (await_close n).
Proof. induction n as [|n IH]; cbn [await_close]; [typ|]. typ1. typ1; [typ|]. typ1; [apply typed_wait|]. typ1; [apply typed_schedule|done]. Qed.

Lemma typed_shutdown : typed any tcp_shutdown.
Proof. unfold tcp_shutdown. typ1. typ1; [typ|]. apply typed_create_transmit; [constructor|]. typ1; [apply typed_await_close|typ]. Qed.

(** ** Reachable connections *)

Inductive step : conn -> conn -> Prop :=
| step_event e c r c' : event_ok e -> handle_event e c = Ok (r, c') -> step c c'
| step_bind addr c r c' : tcp_bind addr c = Ok (r, c') -> step c c'
| step_connect addr iss c r c' : is_u32 iss -> tcp_connect addr iss c = Ok (r, c') -> step c c'
| step_sendmsg msg c r c' : Forall byte_ok msg -> tcp_sendmsg msg c = Ok (r, c') -> step c c'
| step_recvmsg len c r c' : tcp_recvmsg len c = Ok (r, c') -> step c c'
| step_shutdown c r c' : tcp_shutdown c = Ok (r, c') -> step c c'.

Lemma step_ok c c' : step c c' -> conn_ok c -> conn_ok c'.
Proof.
  intros Hs Hc. destruct Hs as [e c r c' He E|a c r c' E|a i c r c' Hi E|msg c r c' Hm E|l c r c' E|c r c' E].
  - exact (proj1 (ends_ok _ _ _ _ _ (typed_event e He c Hc) E)).
  - injection E as _ <-. by destruct Hc; split.
  - exact (proj1 (ends_ok _ _ _ _ _ (typed_connect a i Hi c Hc) E)).
  - exact (proj1 (ends_ok _ _ _ _ _ (typed_sendmsg msg Hm c Hc) E)).
  - exact (proj1 (ends_ok _ _ _ _ _ (typed_recvmsg l c Hc) E)).
  - exact (proj1 (ends_ok _ _ _ _ _ (typed_shutdown c Hc) E)).
Qed.

Lemma reachable_ok c c' : rtc step c c' -> conn_ok c -> conn_ok c'.
Proof. induction 1; [done|]. eauto using step_ok. Qed.

(** ** No dangling [send_head] *)

Definition no_segv {A} (m : M conn A) (c : conn) : Prop := m c <> Fail Segv.

Lemma no_segv_bind {A B} (m : M conn A) (k : A -> M conn B) c : no_segv m c -> ends m c (fun a c' => no_segv (k a) c') -> no_segv (m ≫= k) c.
Proof. unfold no_segv, ends, mbind, M_bind. destruct (m c) as [[a c']|]; [done|]. intros H _ [= ->]. by apply H. Qed.

Lemma send_no_segv s r c : no_segv (tcp_send_skb s r) c.
Proof.
  unfold no_segv, tcp_send_skb, tcp_payload_lenth, mbind, M_bind, massert, gets, tget, tmod, modify, mret, M_ret. destruct (0 <=? _); [|done].
  repeat case_match; done.
Qed.

Lemma send_window_no_segv n c : conn_ok c -> no_segv (send_window n) c.
Proof.
  revert c. induction n as [|n IH]; intros c Hc; cbn [send_window]; [done|]. apply no_segv_bind; [done|]. tstep. change (Datatypes.id c) with c.
  destruct (send_head c) as [i|] eqn:Hh; [|done]. destruct (0 <? _); [|done]. destruct (send_head_found c i Hc Hh) as (s & E & Hs).
  apply no_segv_bind; [unfold no_segv, deref; by rewrite E|]. apply ends_deref. intros s' E'. rewrite E in E'. injection E' as <-.
  apply no_segv_bind; [apply send_no_segv|]. eapply ends_mono; [by apply typed_send|]. intros s' c1 [H1 [Hs' _]].
  apply no_segv_bind; [done|]. eapply ends_mono; [by apply typed_advance|]. intros ? c2 [H2 _]. apply no_segv_bind; [done|]. tstep.
  apply no_segv_bind; [by destruct (_ =? 0); [unfold no_segv, mbind, M_bind, massert; destruct (bool_decide _)|]|].
  match goal with |- ends ?m _ _ => assert (typed any m) as Ht by typ end. eapply ends_mono; [by apply Ht|]. intros ? c3 [H3 _]. by apply IH.
Qed.

(** ** Claims *)

(** C26: Along every sequence of received frames, timer interrupts, clock ticks and calls of the
    owner thread ([tcp_bind], [tcp_connect], [tcp_sendmsg], [tcp_recvmsg], [tcp_shutdown]), a
    connection stays well typed: each protocol variable is within the width of its C
    type, the buffers queued and sent are well formed, and the buffers of the transmit queue are
    distinct with [send_head] one of them or null. In every connection reached the
    transmission loop therefore finds the buffer [send_head] points to and never follows a
    dangling pointer. *)
Theorem tcp_well_typed (c c' : conn) (Hc : conn_ok c) (Hs : rtc step c c') :
  conn_ok c' /\ (forall n, no_segv (send_window n) c') /\
  (forall i, send_head c' = Some i -> exists s, find_skb i (tx_queue c') = Some s /\ skb_ok s).
Proof.
  pose proof (reachable_ok c c' Hs Hc) as H. split_and!; [done| |].
  - intros n. by apply send_window_no_segv.
  - intros i. by apply send_head_found.
Qed.

Lemma ex_conn_ok : conn_ok (ex_conn []).
Proof. split; try constructor; try done; try (split; [discriminate|reflexivity]); constructor. Qed.

Lemma tcp_well_typed_witness :
  match handle_event (Rx (wire_frame ex_peer ex_local 501 1001 0x18 8192 [] [104; 105])) (ex_conn []) with
  | Ok (_, c') => conn_ok c' /\ length (rx_queue c') = 1%nat
  | Fail _ => False
  end.
Proof.
  destruct (handle_event _ _) as [[r c']|f] eqn:E.
  - split.
    + apply (tcp_well_typed (ex_conn []) c' ex_conn_ok). apply rtc_once. eapply step_event; [|exact E]. apply (bool_decide_unpack _). vm_compute. reflexivity.
    + vm_compute in E. injection E as _ <-. reflexivity.
  - vm_compute in E. discriminate E.
Defined.
