(* ===== verification/TcpDiagram.v ===== *)
(** * The state diagram of a TCP connection

    The moves of the state of a connection of [Tcp] against the state diagram and the
    event processing of RFC 793, and the places where the code departs from it. *)
From Stdlib Require Import ZArith Lia Bool List.
From coqutil Require Import Datatypes.RecordSetters.
From stdpp Require Import base list option sets relations.
From S2P Require Import Prelude Hoare Packet Tcp TcpStates TcpInvariant.
Import TriangleBracketNotations.

Open Scope Z_scope.

(** ** RFC 793

    The conditions on a segment with header [h] and [len] bytes of text that arrives at
    the connection [c]. Sequence numbers are compared modulo 2^32 in the window test;
    acknowledgement numbers are compared as numbers, as the code does. *)

(** SEG.LEN counts the SYN and the FIN. *)
Definition seg_len (h : tcp_packet) (len : Z) : Z := len + (if syn h then 1 else 0) + (if fin h then 1 else 0).

(** The place of a sequence number in the receive window. *)
Definition offset (t : tcp_sock) (x : Z) : Z := (x - rcv_nxt t) mod 2 ^ 32.

(** The segment occupies a portion of the valid receive sequence space (page 69): one of its
    octets is in the window, or it is empty and the next one expected. *)
Definition occupies (c : conn) (h : tcp_packet) (len : Z) : Prop :=
  (exists o, 0 <= o < Z.max 1 (seg_len h len) /\ offset (tsk c) (sequence_number h + o) < rcv_wnd (tsk c)) \/
  seg_len h len = 0 /\ rcv_wnd (tsk c) = 0 /\ sequence_number h = rcv_nxt (tsk c).

(** Everything before the FIN of the segment has been received with its text. *)
Definition in_order (c : conn) (h : tcp_packet) (len : Z) : Prop := (rcv_nxt (tsk c) - sequence_number h) mod 2 ^ 32 <= len.

(** The segment acknowledges something new: SND.UNA < SEG.ACK =< SND.NXT. *)
Definition acks (c : conn) (h : tcp_packet) : Prop := snd_una (tsk c) < ack_number h <= snd_nxt (tsk c).

(** It acknowledges our SYN: SND.ISS < SEG.ACK, SND.UNA =< SEG.ACK =< SND.NXT. *)
Definition acks_syn (c : conn) (h : tcp_packet) : Prop :=
  snd_iss (tsk c) < ack_number h /\ snd_una (tsk c) <= ack_number h <= snd_nxt (tsk c).

(** It leaves no FIN of ours waiting for its acknowledgement. *)
Definition acks_fin (c : conn) (h : tcp_packet) : Prop :=
  Forall (fun x => fin (tcph x) = true -> acks c h /\ cb_end_seq x < ack_number h) (tx_queue c).

(** The edges of sending a segment with these flags: SYN and FIN. *)
Inductive send_edge (flags : Z) : tcp_state -> tcp_state -> Prop :=
| snd_syn s : flags = TCPCB_FLAG_SYN -> s = TCP_CLOSE \/ s = TCP_LISTEN -> send_edge flags s TCP_SYN_SENT
| snd_fin s : has flags TCPCB_FLAG_FIN = true -> s = TCP_SYN_RECV \/ s = TCP_ESTABLISHED -> send_edge flags s TCP_FIN_WAIT1
| snd_last_fin : has flags TCPCB_FLAG_FIN = true -> send_edge flags TCP_CLOSE_WAIT TCP_LAST_ACK.

Section edges.
Context (c : conn) (h : tcp_packet) (len : Z).

(** In SYN_SENT (pages 66 to 68). *)
Inductive open_edge : tcp_state -> tcp_state -> Prop :=
| rcv_synack : syn h = true -> ack h = true -> rst h = false -> acks_syn c h -> open_edge TCP_SYN_SENT TCP_ESTABLISHED
| rcv_syn : syn h = true -> ack h = false -> rst h = false -> open_edge TCP_SYN_SENT TCP_SYN_RECV
| rcv_refused : rst h = true -> ack h = true -> acks_syn c h -> open_edge TCP_SYN_SENT TCP_CLOSE.

(** A FIN (pages 75 and 76). *)
Inductive fin_edge : tcp_state -> tcp_state -> Prop :=
| rcv_fin_open s : s = TCP_SYN_RECV \/ s = TCP_ESTABLISHED -> fin_edge s TCP_CLOSE_WAIT
| rcv_fin_both : ~ acks_fin c h -> fin_edge TCP_FIN_WAIT1 TCP_CLOSING
| rcv_fin_last : fin_edge TCP_FIN_WAIT2 TCP_TIME_WAIT.

(** In the synchronised states, for an acceptable segment (pages 70 to 76). *)
Inductive segment_edge : tcp_state -> tcp_state -> Prop :=
| rcv_rst s : rst h = true -> synchronised s = true -> segment_edge s TCP_CLOSE
| rcv_syn_in_window s : syn h = true -> synchronised s = true -> segment_edge s TCP_CLOSE
| rcv_ack_of_syn : ack h = true -> acks c h -> segment_edge TCP_SYN_RECV TCP_ESTABLISHED
| rcv_ack_of_fin : ack h = true -> acks_fin c h -> segment_edge TCP_FIN_WAIT1 TCP_FIN_WAIT2
| rcv_ack_of_both : ack h = true -> acks_fin c h -> segment_edge TCP_CLOSING TCP_TIME_WAIT
| rcv_ack_of_last : ack h = true -> ack_number h = snd_nxt (tsk c) -> segment_edge TCP_LAST_ACK TCP_CLOSE
| rcv_fin s s' : ack h = true -> fin h = true -> in_order c h len -> fin_edge s s' -> segment_edge s s'
| snd_first x q s s' : tx_queue c = x :: q -> send_edge (u8 (cb_flags x)) s s' -> segment_edge s s'.

(** ** Departures of the code *)

(** The window test lets in a segment whose last octet is the one before the window
    (it tests SEG.SEQ + SEG.LEN, not the octet before), and a SYN or FIN without text into
    a closed window (it does not count them). *)
Definition slips_in : Prop :=
  seg_len h len = len /\ 0 < len /\ offset (tsk c) (sequence_number h + len) = 0 \/
  len = 0 /\ 0 < seg_len h len /\ rcv_wnd (tsk c) = 0 /\ sequence_number h = rcv_nxt (tsk c).

Definition let_in : Prop := occupies c h len \/ slips_in.

(** A segment that opens the window again: it empties the transmit queue, the FIN in it
    included. *)
Definition reopens : Prop := ack_number h = snd_una (tsk c) /\ snd_wnd (tsk c) = 0 /\ len = 0.

Inductive departs : tcp_state -> tcp_state -> Prop :=
  (** A FIN is taken although text before it is missing. *)
| early_fin s s' : ack h = true -> fin h = true -> ~ in_order c h len -> fin_edge s s' -> departs s s'
  (** The peer's FIN is answered with our own, without a close of the user. *)
| fin_closes : ack h = true -> fin h = true -> departs TCP_CLOSE_WAIT TCP_LAST_ACK
  (** Any acknowledgement ends LAST_ACK when no FIN is queued, as after [fin_closes]. *)
| any_last_ack : ack h = true -> ack_number h <> snd_nxt (tsk c) -> acks_fin c h -> departs TCP_LAST_ACK TCP_CLOSE
  (** The FIN in a queue that is emptied counts as acknowledged. *)
| reopen_fin : ack h = true -> reopens -> departs TCP_FIN_WAIT1 TCP_FIN_WAIT2
| reopen_both : ack h = true -> reopens -> departs TCP_CLOSING TCP_TIME_WAIT.
End edges.

(** The bytes of text of a received frame. *)
Definition text_len (skb : sk_buff) : Z := u16 (total_length skb - (ihl skb + data_offset (tcph skb)) * 4).

(** The edges of the diagram that an event enables. *)
Inductive rfc793 (c : conn) : event -> tcp_state -> tcp_state -> Prop :=
| rfc_open frame s s' : open_edge c (tcph (skb_of_frame (next_skb c) frame)) s s' -> rfc793 c (Rx frame) s s'
| rfc_segment frame s s' : let skb := skb_of_frame (next_skb c) frame in
    occupies c (tcph skb) (text_len skb) -> segment_edge c (tcph skb) (text_len skb) s s' -> rfc793 c (Rx frame) s s'
| rfc_2msl : rfc793 c (Timeout Msl) TCP_TIME_WAIT TCP_CLOSE
| rfc_resend k x q s s' : k <> Msl -> tx_queue c = x :: q -> send_edge (u8 (cb_flags x)) s s' -> rfc793 c (Timeout k) s s'.

Inductive deviates (c : conn) : event -> tcp_state -> tcp_state -> Prop :=
  (** The reset that answers an unacceptable acknowledgement closes the connection. *)
| dev_refuses frame : let h := tcph (skb_of_frame (next_skb c) frame) in
    ack h = true -> rst h = false -> ~ acks_syn c h -> deviates c (Rx frame) TCP_SYN_SENT TCP_CLOSE
| dev_slips_in frame s s' : let skb := skb_of_frame (next_skb c) frame in
    slips_in c (tcph skb) (text_len skb) -> segment_edge c (tcph skb) (text_len skb) s s' -> deviates c (Rx frame) s s'
| dev_departs frame s s' : let skb := skb_of_frame (next_skb c) frame in
    let_in c (tcph skb) (text_len skb) -> departs c (tcph skb) (text_len skb) s s' -> deviates c (Rx frame) s s'
  (** The 2MSL timer closes LAST_ACK, where it is not armed. *)
| dev_2msl : deviates c (Timeout Msl) TCP_LAST_ACK TCP_CLOSE
  (** A segment that is not a SYN, sent again in SYN_SENT, moves the state. *)
| dev_resend k x q s' : k <> Msl -> tx_queue c = x :: q -> u8 (cb_flags x) <> TCPCB_FLAG_SYN ->
    s' = next_state TCP_SYN_SENT (u8 (cb_flags x)) -> deviates c (Timeout k) TCP_SYN_SENT s'.

(** ** The window test *)

Lemma window_lets_in c h len :
  tcb_ok (tsk c) -> is_u32 (sequence_number h) -> 0 <= len ->
  acceptable_segment (tsk c) (sequence_number h) len = true -> let_in c h len.
Proof.
  intros Ht Hs Hl Ha. pose proof (ok_rcv_nxt _ Ht) as Hn. pose proof (ok_rcv_wnd _ Ht) as Hw.
  unfold acceptable_segment in Ha. set (n := rcv_nxt (tsk c)) in *. set (w := rcv_wnd (tsk c)) in *. set (x := sequence_number h) in *.
  assert (len <= seg_len h len <= len + 2) as Hsl by (unfold seg_len; destruct (syn h), (fin h); lia).
  assert (forall y, (n <=? u32 y) && (u32 y <? u32 (n + w)) = true -> offset (tsk c) y < w) as Hin.
  { intros y [H1 H2]%andb_true_iff. apply Z.leb_le in H1. apply Z.ltb_lt in H2. unfold offset. fold n.
    pose proof (Z.mod_le (n + w) (2 ^ 32)). unfold is_u32 in *. unfold u32 in *.
    rewrite <- Zminus_mod_idemp_l. pose proof (Z.mod_le (y mod 2 ^ 32 - n) (2 ^ 32)). lia. }
  assert (forall o, 0 <= o < Z.max 1 (seg_len h len) -> offset (tsk c) (x + o) < w -> let_in c h len) as Hocc
    by (intros o Ho Hx; left; left; by exists o).
  assert ((n <=? x) && (x <? u32 (n + w)) = true -> let_in c h len) as H0.
  { intros Hx. apply (Hocc 0); [lia|]. rewrite Z.add_0_r. apply Hin. by rewrite u32_small. }
  destruct (Z.eqb_spec w 0) as [Hw0|Hw0]; cbn [negb] in Ha.
  - destruct (Z.ltb_spec 0 len); [done|]. apply Z.eqb_eq in Ha. assert (len = 0) as -> by lia.
    destruct (Z.eq_dec (seg_len h 0) 0); [left; right|right; right]; split_and!; (done || lia).
  - destruct (Z.ltb_spec 0 len); [|by apply H0]. apply orb_true_iff in Ha as [Ha|Ha]; [by apply H0|]. apply Hin in Ha.
    destruct (Z.eq_dec (seg_len h len) len) as [E|E]; [|apply (Hocc len); [lia|done]].
    destruct (Z.eq_dec (offset (tsk c) (x + len)) 0) as [E0|E0]; [right; left; done|].
    apply (Hocc (len - 1)); [lia|]. unfold offset in *. fold n in Ha, E0 |- *. Z.to_euclidean_division_equations. lia.
Qed.

(** ** The FINs in the transmit queue *)

Definition fins (c : conn) : list bool := (fun x => fin (tcph x)) <$> tx_queue c.

Lemma fin_acked_fins q : tcp_is_fin_acked q = forallb negb ((fun x => fin (tcph x)) <$> q).
Proof. induction q as [|x q IH]; [done|]. cbn. by rewrite <- IH. Qed.

Lemma fins_acked c c' : fins c' = fins c -> tcp_is_fin_acked (tx_queue c') = tcp_is_fin_acked (tx_queue c).
Proof. intros E. rewrite !fin_acked_fins. unfold fins in E. by rewrite E. Qed.

(** Without a FIN in the queue there is none to wait for. *)
Lemma no_fin_acks c h : tcp_is_fin_acked (tx_queue c) = true -> acks_fin c h.
Proof.
  intros H. unfold tcp_is_fin_acked in H. rewrite forallb_forall in H. apply list.Forall_forall. intros x Hx Hf.
  specialize (H x (proj1 (list_elem_of_In _ _) Hx)). by rewrite Hf in H.
Qed.

(** An acknowledgement of nothing new acknowledges no FIN. *)
Lemma fin_not_acked c h : ~ acks c h -> tcp_is_fin_acked (tx_queue c) = false -> ~ acks_fin c h.
Proof.
  intros Hn Hf Ha. apply not_true_iff_false in Hf. apply Hf. apply forallb_forall. intros x Hx. unfold acks_fin in Ha.
  rewrite list.Forall_forall in Ha. specialize (Ha x (proj2 (list_elem_of_In _ _) Hx)). destruct (fin (tcph x)); [|done]. by destruct (Hn (proj1 (Ha eq_refl))).
Qed.

Lemma set_skb_fins s q : (forall x, x ∈ q -> skb_id x = skb_id s -> fin (tcph x) = fin (tcph s)) ->
  (fun x => fin (tcph x)) <$> set_skb s q = (fun x => fin (tcph x)) <$> q.
Proof.
  intros H. unfold set_skb. rewrite <- list_fmap_compose. apply list_fmap_ext. intros i x Hx. cbn.
  destruct (Nat.eqb_spec (skb_id x) (skb_id s)); [|done]. symmetry. apply H; [by eapply list_elem_of_lookup_2|done].
Qed.

Lemma send_fins s r c : (forall x, x ∈ tx_queue c -> skb_id x = skb_id s -> fin (tcph x) = fin (tcph s)) ->
  ends (tcp_send_skb s r) c (fun _ c' => fins c' = fins c).
Proof.
  intros H. unfold tcp_send_skb, tcp_payload_lenth. repeat (tstep || ebranch); unfold fins; cbn -[set_skb]; by apply set_skb_fins.
Qed.

(** A segment that is not queued leaves the FINs of the queue alone. *)
Lemma segment_fins seq a f c : conn_ok c -> ends (send_segment seq a f) c (fun _ c' => fins c' = fins c).
Proof.
  intros Hc. destruct (co_queue _ Hc) as (_ & Hlt & _). unfold send_segment, tcp_create_skb. do 11 tstep.
  eapply ends_mono; [apply send_fins|intros ? c' E; tstep; exact E].
  intros x Hx Hi. exfalso. cbn in Hi. rewrite list.Forall_forall in Hlt. specialize (Hlt (skb_id x)). cbn in Hx.
  assert (skb_id x ∈ ids (tx_queue c)) as Hin by (by apply list_elem_of_fmap_2). apply Hlt in Hin. lia.
Qed.

(** The first queued segment is in the queue once. *)
Lemma first_fins x q r c : NoDup (ids (tx_queue c)) -> tx_queue c = x :: q -> ends (tcp_send_skb x r) c (fun _ c' => fins c' = fins c).
Proof.
  intros Hnd E. apply send_fins. intros y Hy Hi. rewrite E in Hy, Hnd. cbn in Hnd.
  apply list.NoDup_cons in Hnd as [Hx _]. apply elem_of_cons in Hy as [->|Hy]; [done|]. exfalso. apply Hx. rewrite <- Hi. by apply list_elem_of_fmap_2.
Qed.

(** [tcp_accept_ack] removes the segments that end before the acknowledgement. *)
Lemma drop_acked_filter a q c :
  ends (drop_acked a false q) c (fun q' c' => c' = c /\ q' = filter (fun x => ~ cb_end_seq x < a) q).
Proof.
  induction q as [|x q IH]; cbn [drop_acked]; [by tstep|]. rewrite orb_false_r, filter_cons. destruct (Z.ltb_spec (cb_end_seq x) a).
  - repeat tstep. eapply ends_mono; [exact IH|]. intros q' c' [-> ->]. split; [done|]. by rewrite decide_False by lia.
  - tstep. eapply ends_mono; [exact IH|]. intros q' c' [-> ->]. tstep. split; [done|]. by rewrite decide_True by lia.
Qed.

Lemma accept_queue a c : ends (tcp_accept_ack a false) c (fun _ c' => tx_queue c' = filter (fun x => ~ cb_end_seq x < a) (tx_queue c)).
Proof.
  unfold tcp_accept_ack. do 4 tstep. cbv zeta.
  tstep. eapply (ends_mono _ _ (fun _ c' => tx_queue c' = tx_queue c)); [ebranch; repeat tstep; done|]. intros ? c1 E1. cbn beta in E1.
  do 3 tstep. eapply ends_mono; [apply drop_acked_filter|]. intros q' c2 [-> Hq]. rewrite E1 in Hq.
  do 3 tstep. subst q'. set (q' := filter _ _). repeat (tstep || ebranch); done.
Qed.

(** The FINs left are those the segment does not acknowledge. *)
Lemma accept_fins c h q : acks c h -> q = filter (fun x => ~ cb_end_seq x < ack_number h) (tx_queue c) ->
  if tcp_is_fin_acked q then acks_fin c h else ~ acks_fin c h.
Proof.
  intros Ha ->. unfold acks_fin. destruct (tcp_is_fin_acked _) eqn:E; unfold tcp_is_fin_acked in E.
  - rewrite forallb_forall in E. apply list.Forall_forall. intros x Hx Hf. split; [done|].
    destruct (Z.lt_ge_cases (cb_end_seq x) (ack_number h)) as [|Hge]; [done|]. exfalso.
    assert (x ∈ filter (fun x => ~ cb_end_seq x < ack_number h) (tx_queue c)) as Hin by (apply list_elem_of_filter; split; [lia|done]).
    apply list_elem_of_In, E in Hin. by rewrite Hf in Hin.
  - intros Hall. apply not_true_iff_false in E. apply E. apply forallb_forall. intros x Hx. apply list_elem_of_In, list_elem_of_filter in Hx as [Hx Hin].
    rewrite list.Forall_forall in Hall. destruct (fin (tcph x)) eqn:Ef; [|done]. by destruct (Hx (proj2 (Hall x Hin Ef))).
Qed.

(** ** The acknowledgement step *)

Lemma ends_and {S A} (m : M S A) s (P Q : A -> S -> Prop) : ends m s P -> ends m s Q -> ends m s (fun a s' => P a s' /\ Q a s').
Proof. unfold ends. destruct (m s) as [[a s']|]; auto. Qed.

Section segment.
Context (c : conn) (skb : sk_buff) (len : Z).
Abbreviation h := (tcph skb).
Hypothesis (Hok : conn_ok c) (Hskb : skb_ok skb) (Hack : ack h = true).

Definition takes (s s' : tcp_state) : Prop := segment_edge c h len s s' \/ departs c h len s s'.

(** What the acknowledgement step leaves. *)
Record after_ack (c' : conn) : Prop := {
  aa_path : rtc takes (state (tsk c)) (state (tsk c'));
  aa_none : tcp_is_fin_acked (tx_queue c') = true -> acks_fin c h \/ reopens c h len /\ state (tsk c') <> TCP_LAST_ACK;
  aa_some : state (tsk c') = TCP_FIN_WAIT1 -> tcp_is_fin_acked (tx_queue c') = false -> ~ acks_fin c h;
}.

(** Nothing new is acknowledged and the FINs stay queued. *)
Lemma after_kept c' : rtc takes (state (tsk c)) (state (tsk c')) -> fins c' = fins c ->
  (state (tsk c') = TCP_FIN_WAIT1 -> ~ acks c h) -> after_ack c'.
Proof.
  intros Hp Hf Hn. pose proof (fins_acked c c' Hf) as E. split; [done|rewrite E|rewrite E].
  - intros Hq. left. by apply no_fin_acks.
  - intros Hs Hq. apply fin_not_acked; [by apply Hn|done].
Qed.

Lemma next_first x q : tx_queue c = x :: q -> synchronised (state (tsk c)) = true ->
  rtc takes (state (tsk c)) (next_state (state (tsk c)) (u8 (cb_flags x))).
Proof.
  intros Hq Hy. destruct (state (tsk c)); try discriminate Hy; cbn [next_state]; try apply rtc_refl;
    (destruct (has (u8 (cb_flags x)) TCPCB_FLAG_FIN) eqn:E; [|apply rtc_refl]); apply rtc_once; left; eapply snd_first; [done|constructor; auto|done|by constructor].
Qed.

Lemma acks_true : (snd_una (tsk c) <? ack_number h) && (ack_number h <=? snd_nxt (tsk c)) = true <-> acks c h.
Proof. by rewrite andb_true_iff, Z.ltb_lt, Z.leb_le. Qed.

(** New data acknowledged. *)
Lemma new_ack (m : M conn bool) s :
  in_state s c -> acks c h -> (forall c', in_state s c' -> ends m c' (fun _ c'' => in_state s c'' /\ tx_queue c'' = tx_queue c')) ->
  s <> TCP_LAST_ACK -> ends (tmod (tcp_calculate_congestion (ack_number h));; tcp_accept_ack (ack_number h) false;; m) c (fun _ => after_ack).
Proof.
  intros Hs Ha Hm Hl. do 2 tstep. set (c1 := c <| tsk ::= _ |>).
  assert (in_state s c1) as H1 by (etransitivity; [apply congestion_state|exact Hs]).
  tstep. eapply ends_mono; [apply ends_and; [eapply keeps_accept_ack; exact H1|apply accept_queue]|]. intros ? c2 [H2 Q2].
  change (tx_queue c1) with (tx_queue c) in Q2. eapply ends_mono; [by apply Hm|]. intros ? c3 [H3 Q3]. rewrite <- Q3 in Q2.
  pose proof (accept_fins c h _ Ha Q2) as Hf. split; [rewrite H3, Hs; apply rtc_refl| |]; destruct (tcp_is_fin_acked (tx_queue c3)); done || by left.
Qed.

Lemma ack_post : synchronised (state (tsk c)) = true -> ends (process_ack skb len) c (fun _ => after_ack).
Proof.
  intros Hy. unfold process_ack. do 2 tstep. cbv zeta. set (t := tsk c). destruct (bool_decide_reflect (state t = TCP_SYN_RECV)) as [E|_].
  { tstep. destruct ((snd_una t <? ack_number h) && (ack_number h <=? snd_nxt t)) eqn:Ea; repeat tstep.
    - apply acks_true in Ea. apply after_kept; [|done|done]. change (rtc takes (state t) TCP_ESTABLISHED). rewrite E. apply rtc_once. left. by apply rcv_ack_of_syn.
    - apply after_kept; [apply rtc_refl|done|]. fold t. by rewrite E. }
  ebranch; [|repeat tstep; apply after_kept; [apply rtc_refl|done|]; fold t; intros Es; by rewrite Es in Heqb].
  assert (state t <> TCP_LAST_ACK) as Hl by (intros El; by rewrite El in Heqb).
  destruct ((snd_una t <? ack_number h) && (ack_number h <=? snd_nxt t)) eqn:Ea.
  { apply acks_true in Ea. eapply (new_ack _ (state t)); [done|done| |done]. intros c' Hc'. do 3 tstep.
    ebranch; repeat tstep; done. }
  assert (~ acks c h) as Hn by (intros Ha%acks_true; unfold t in Ea; congruence).
  ebranch.
  { apply andb_true_iff in Heqb0 as [[[H1 H2]%andb_true_iff H3]%andb_true_iff H4]. apply Z.eqb_eq in H1, H4.
    tstep. ebranch.
    - apply andb_true_iff in Heqb0 as [H5 _]. apply Z.eqb_eq in H5. unfold tcp_flush_tx. repeat tstep.
      split; [apply rtc_refl|intros _; right; by split_and!|done].
    - repeat tstep. by apply after_kept; [apply rtc_refl|..]. }
  ebranch.
  { do 5 tstep. ebranch; [|ebranch; repeat tstep; by apply after_kept; [apply rtc_refl|..]].
    do 4 tstep. set (c1 := c <| tsk ::= _ |> <| tsk ::= _ |>). change (tx_queue c1) with (tx_queue c).
    destruct (tx_queue c) as [|x q] eqn:Eq; [tstep|]. tstep.
    assert (tx_queue c1 = x :: q) as Eq1 by exact Eq. assert (in_state (state t) c1) as Hs1 by done. assert (fins c1 = fins c) as Hf1 by done.
    assert (NoDup (ids (tx_queue c1))) as Hnd by (destruct (co_queue _ Hok) as (H & _); exact H). clearbody c1.
    eapply ends_mono; [apply ends_and; [by apply send_state|by eapply first_fins]|]. intros ? c' [Hs Hf]. repeat tstep.
    apply after_kept; [rewrite Hs; by apply (next_first x q)|congruence|done]. }
  ebranch.
  { tstep. eapply ends_mono; [apply ends_and; [by eapply segment_keeps|by apply segment_fins]|]. intros ? c' [Hs Hf]. tstep.
    apply after_kept; [rewrite Hs; apply rtc_refl|done|done]. }
  repeat tstep. by apply after_kept; [apply rtc_refl|..].
Qed.

(** ** The steps behind it *)

(** What the steps up to the FIN leave: in FIN_WAIT1 our FIN is still queued. *)
Record before_fin (c' : conn) : Prop := {
  bf_path : rtc takes (state (tsk c)) (state (tsk c'));
  bf_fin : state (tsk c') = TCP_FIN_WAIT1 -> tcp_is_fin_acked (tx_queue c') = false /\ ~ acks_fin c h;
}.

Lemma path_snoc c1 s' : rtc takes (state (tsk c)) (state (tsk c1)) -> takes (state (tsk c1)) s' -> rtc takes (state (tsk c)) s'.
Proof. apply rtc_r. Qed.

Lemma fin_acked_post c1 : conn_ok c1 -> after_ack c1 -> ends process_fin_acked c1 (fun _ => before_fin).
Proof.
  intros Hc1 [Hp Hnone Hsome]. unfold process_fin_acked. do 2 tstep. cbv zeta. unfold Datatypes.id.
  assert (forall c' s', takes (state (tsk c1)) s' -> state (tsk c') = s' -> s' <> TCP_FIN_WAIT1 -> before_fin c') as Hto
    by (intros c' s' He Hs Hn; split; [rewrite Hs; by eapply path_snoc|by rewrite Hs]).
  destruct (state (tsk c1)) eqn:Es; try (tstep; split; by rewrite Es).
  - tstep. ebranch; repeat tstep; [|by split; rewrite Es; auto]. eapply Hto; [|done|done].
    destruct (Hnone eq_refl) as [H|[H _]]; [left; by apply rcv_ack_of_fin|right; by apply reopen_fin].
  - tstep. eapply ends_mono; [by eapply segment_keeps|]. intros ? c' Hs. tstep. by split; rewrite Hs.
  - ebranch; [|tstep; by split; rewrite Es]. unfold wake_owner. repeat tstep. eapply Hto; [|done|done].
    destruct (Hnone eq_refl) as [H|[_ H]]; [|done]. destruct (Z.eq_dec (ack_number h) (snd_nxt (tsk c))); [left; by apply rcv_ack_of_last|right; by apply any_last_ack].
  - tstep. ebranch; repeat tstep; [|by split; rewrite Es]. eapply Hto; [|done|done].
    destruct (Hnone eq_refl) as [H|[H _]]; [left; by apply rcv_ack_of_both|right; by apply reopen_both].
Qed.

(** The state and the FINs stay. *)
Lemma before_kept c1 c2 : before_fin c1 -> state (tsk c2) = state (tsk c1) -> fins c2 = fins c1 -> before_fin c2.
Proof. intros [Hp Hf] Es Ef. split; [by rewrite Es|]. rewrite Es, (fins_acked c1 c2 Ef). done. Qed.

Lemma text_post c1 : conn_ok c1 -> before_fin c1 -> ends (process_text skb len) c1 (fun _ => before_fin).
Proof.
  intros Hc1 Hb. unfold process_text. do 2 tstep. ebranch; [|by tstep].
  assert (synchronised (state (tsk c1)) = true) as Hy by (eapply one_of_all; [|exact Heqb]; done).
  tstep. eapply (ends_mono _ _ (fun _ c2 => conn_ok c2 /\ state (tsk c2) = state (tsk c1) /\ fins c2 = fins c1)).
  { ebranch; [|by tstep]. apply ends_and; [|by tstep]. eapply ends_mono; [exact (typed_rx skb Hskb c1 Hc1)|]. intros ? c2 H. apply H. }
  intros ? c2 (Hc2 & Hs2 & Hf2). ebranch; [|tstep; by eapply before_kept].
  tstep. eapply (ends_mono _ _ (fun _ c3 => conn_ok c3 /\ state (tsk c3) = state (tsk c1) /\ fins c3 = fins c1)).
  { apply ends_and; [|by tstep]. eapply ends_mono; [apply (typed_tmod (fun t => t <| rcv_nxt := u32 (rcv_nxt t + len) |>)); [|exact Hc2]|intros ? c3 H; apply H]. intros t Ht. auto 12 with width nocore. }
  intros ? c3 (Hc3 & Hs3 & Hf3). do 3 tstep. eapply ends_mono; [apply ends_and; [by eapply segment_keeps|by apply segment_fins]|].
  intros ? c4 [Hs4 Hf4]. tstep. eapply before_kept; [done|congruence|congruence].
Qed.

Lemma fin_takes s s' : fin h = true -> fin_edge c h s s' -> takes s s'.
Proof.
  intros Hf He. destruct (Z_le_gt_dec ((rcv_nxt (tsk c) - sequence_number h) mod 2 ^ 32) len) as [Ho|Ho].
  - left. by eapply rcv_fin.
  - right. eapply early_fin; [done..| |done]. unfold in_order. lia.
Qed.

Lemma fin_post c1 b : fin h = true -> synchronised (state (tsk c1)) = true -> before_fin c1 ->
  ends (process_fin b) c1 (fun _ c' => rtc takes (state (tsk c)) (state (tsk c'))).
Proof.
  intros Hf Hy [Hp Hw]. unfold process_fin. do 3 tstep.
  eapply (ends_mono _ _ (fun _ c2 => rtc takes (state (tsk c)) (state (tsk c2)) /\ synchronised (state (tsk c2)) = true)).
  { assert (forall c' s', fin_edge c h (state (tsk c1)) s' -> synchronised s' = true -> state (tsk c') = s' ->
      rtc takes (state (tsk c)) (state (tsk c')) /\ synchronised (state (tsk c')) = true) as Hto
      by (intros c' s' He Hys Hs; rewrite Hs; split; [|done]; eapply path_snoc; [done|by apply fin_takes]).
    unfold enter_time_wait, start_msl_timer, Datatypes.id. destruct (state (tsk c1)) eqn:Es; try discriminate Hy; try (by repeat tstep; rewrite ?Es).
    - tstep. eapply Hto; [apply rcv_fin_open; by right|done|done].
    - tstep. eapply Hto; [apply rcv_fin_open; by left|done|done].
    - destruct (Hw eq_refl) as [E Hn]. rewrite E. tstep. eapply Hto; [by apply rcv_fin_both|done|done].
    - repeat tstep. eapply Hto; [apply rcv_fin_last|done|done].
    - repeat tstep. change (rtc takes (state (tsk c)) (state (tsk c1)) /\ synchronised (state (tsk c1)) = true). by rewrite Es. }
  intros ? c2 [Hp2 Hy2]. ebranch; [by tstep|]. do 4 tstep. cbv zeta.
  set (c3 := c2 <| tsk ::= _ |>). assert (in_state (state (tsk c2)) c3) as H3 by done.
  eapply ends_mono; [apply segment_state; [by case_bool_decide|exact H3]|]. intros ? c4 H4. rewrite H4.
  case_bool_decide as Ec; [|by destruct (state (tsk c2))]. change (state (tsk c3)) with (state (tsk c2)) in Ec. rewrite Ec in *.
  eapply rtc_r; [exact Hp2|]. right. by apply fin_closes.
Qed.
End segment.

(** ** The handlers *)

Lemma text_len_ends skb c (Q : Z -> conn -> Prop) : Q (text_len skb) c -> ends (tcp_payload_lenth skb) c Q.
Proof. intros H. unfold tcp_payload_lenth. repeat tstep. exact H. Qed.

Lemma text_len_pos skb : 0 <= text_len skb.
Proof. apply width_u16. Qed.

(** The connection is closed along an edge. *)
Lemma close_takes c skb len c1 : in_state (state (tsk c)) c1 -> takes c skb len (state (tsk c)) TCP_CLOSE ->
  ends (tmod tcp_enter_close_state;; wake_owner) c1 (fun _ c' => rtc (takes c skb len) (state (tsk c)) (state (tsk c'))).
Proof. intros Hs He. unfold wake_owner. repeat tstep. by apply rtc_once. Qed.

Lemma rst_takes c skb len l : forallb synchronised l = true -> rst (tcph skb) && one_of (state (tsk c)) l = true ->
  takes c skb len (state (tsk c)) TCP_CLOSE.
Proof. intros Hl [Hr Ho]%andb_true_iff. left. apply rcv_rst; [done|by eapply one_of_all]. Qed.

Lemma accepted_path c skb (len := text_len skb) : conn_ok c -> skb_ok skb -> synchronised (state (tsk c)) = true -> ack (tcph skb) = true ->
  ends (go ← process_ack skb len;
        if negb go then mret tt
        else
          go ← process_fin_acked;
          if negb go then mret tt
          else
            is_sent_ack ← process_text skb len;
            t ← tget;
            if fin (tcph skb) && one_of (state t) [TCP_CLOSE; TCP_LISTEN; TCP_SYN_SENT] then mret tt
            else
              (if fin (tcph skb) then process_fin is_sent_ack else mret tt);;
              wake_owner) c (fun _ c' => rtc (takes c skb len) (state (tsk c)) (state (tsk c'))).
Proof.
  intros Hok Hskb Hy Ha. set (h := tcph skb) in *.
  tstep. eapply ends_mono; [apply ends_and; [by apply ack_post|by apply typed_process_ack]|]. intros go c1 [A1 [O1 _]]. ebranch; [tstep; apply A1|].
  tstep. eapply ends_mono; [apply ends_and; [by eapply fin_acked_post|by apply typed_process_fin_acked]|]. intros go' c2 [A2 [O2 _]]. ebranch; [tstep; apply A2|].
  tstep. eapply ends_mono; [apply ends_and; [by eapply text_post|by apply typed_process_text]|]. intros sa c3 [A3 [O3 _]]. do 2 tstep. ebranch; [tstep; apply A3|].
  tstep. eapply (ends_mono _ _ (fun _ c' => rtc (takes c skb len) (state (tsk c)) (state (tsk c')))).
  - ebranch; [|tstep; apply A3]. eapply fin_post; [done|done| |done]. cbn [andb] in Heqb1. by destruct (state (tsk c3)).
  - intros ? c4 Hp. unfold wake_owner. by tstep.
Qed.

Lemma established_path c skb (len := text_len skb) : conn_ok c -> skb_ok skb -> synchronised (state (tsk c)) = true ->
  ends (tcp_handler_established skb) c (fun _ c' => state (tsk c') = state (tsk c) \/
    let_in c (tcph skb) len /\ rtc (takes c skb len) (state (tsk c)) (state (tsk c'))).
Proof.
  intros Hok Hskb Hy. unfold tcp_handler_established. cbv zeta. tstep. apply text_len_ends. fold len. do 2 tstep.
  destruct (acceptable_segment (tsk c) (sequence_number (tcph skb)) len) eqn:Hacc; cbn [negb].
  - apply (window_lets_in c (tcph skb) len (co_tcb _ Hok) (sk_seq _ Hskb) (text_len_pos skb)) in Hacc.
    eapply ends_mono; [|intros ? c' Hp; right; split; [exact Hacc|exact Hp]].
    ebranch; [tstep; eapply ends_mono; [by eapply keeps_accept_ack|]; intros ? c' Hc; apply close_takes; [done|by eapply rst_takes; [|exact Heqb]]|].
    ebranch; [unfold tcp_flush_tx, tcp_flush_rx; do 4 tstep; apply close_takes; [done|by eapply rst_takes; [|eassumption]]|].
    ebranch; [apply close_takes; [done|by eapply rst_takes; [|eassumption]]|].
    ebranch.
    + apply andb_true_iff in Heqb2 as [Hsy _]. unfold tcp_flush_tx, tcp_flush_rx. tstep. eapply ends_mono; [by apply segment_state|]. intros ? c' Hc.
      do 4 tstep. apply close_takes; [|left; by apply rcv_syn_in_window]. change (state (tsk c') = state (tsk c)). rewrite Hc. by destruct (state (tsk c)).
    + ebranch; [tstep; apply rtc_refl|]. apply negb_false_iff in Heqb3. by apply accepted_path.
  - eapply ends_mono; [|intros ? c' Hs; left; exact Hs]. tstep.
    eapply (ends_mono _ _ (fun _ => in_state (state (tsk c)))); [ebranch; [by apply segment_keeps|by tstep]|]. intros ? c' Hc. by apply wake_keeps.
Qed.

Lemma accept_una a c : ends (tcp_accept_ack a false) c (fun _ c' => snd_una (tsk c') = a /\ snd_iss (tsk c') = snd_iss (tsk c)).
Proof.
  unfold tcp_accept_ack. do 4 tstep. cbv zeta.
  tstep. eapply (ends_mono _ _ (fun _ c' => snd_una (tsk c') = a /\ snd_iss (tsk c') = snd_iss (tsk c))); [ebranch; repeat tstep; done|]. intros ? c1 E1. cbn beta in E1.
  do 3 tstep. eapply ends_mono; [apply drop_acked_filter|]. intros q' c2 [-> _]. do 3 tstep.
  eapply (ends_mono _ _ (fun _ c' => snd_una (tsk c') = a /\ snd_iss (tsk c') = snd_iss (tsk c))); [repeat (tstep || ebranch); done|]. intros ? c3 E3. cbn beta in E3.
  do 2 tstep. cbv zeta. unfold Datatypes.id. ebranch; [|by tstep]. tstep.
  change (snd_una (tcp_calculate_rto (u32 (now c3 - rtt_time (tsk c3))) (tsk c3)) = a /\ snd_iss (tcp_calculate_rto (u32 (now c3 - rtt_time (tsk c3))) (tsk c3)) = snd_iss (tsk c)).
  unfold tcp_calculate_rto. by destruct (srtt (tsk c3) =? 0).
Qed.

Lemma parse_pure n o len i r w c : ends (parse_options n o len i r w) c (fun _ c' => c' = c).
Proof.
  cut (pres (fun c' => c' = c) (parse_options n o len i r w)); [intros H; by apply H|]. revert i r w.
  induction n as [|n IH]; intros i r w; cbn [parse_options]; unfold byte_at, tcp_get_option_value, byte_at; keep; apply IH.
Qed.

Lemma parse_iss (b : bool) o len c :
  ends (if b then tcp_parse_syn_options o len else mret tt) c (fun _ c' => snd_iss (tsk c') = snd_iss (tsk c)).
Proof.
  destruct b; [|by tstep]. unfold tcp_parse_syn_options. do 3 tstep. eapply ends_mono; [apply parse_pure|]. intros [x y] c' ->. by tstep.
Qed.

(** The moves of SYN_SENT: along the diagram, or the reset of [dev_refuses]. *)
Definition opens (c : conn) (h : tcp_packet) (s' : tcp_state) : Prop :=
  s' = TCP_SYN_SENT \/ open_edge c h TCP_SYN_SENT s' \/ ack h = true /\ rst h = false /\ ~ acks_syn c h /\ s' = TCP_CLOSE.

Lemma sync_path c skb : in_state TCP_SYN_SENT c -> ends (tcp_handler_sync skb) c (fun _ c' => opens c (tcph skb) (state (tsk c'))).
Proof.
  intros Hs. unfold tcp_handler_sync. cbv zeta. set (h := tcph skb). set (t := tsk c). do 2 tstep. fold t. ebranch.
  { apply andb_true_iff in Heqb as [Ha Hn]. ebranch; [|tstep; by left]. tstep. eapply ends_mono; [by apply segment_state|]. intros ? c' Hc.
    eapply ends_mono; [eapply wake_keeps; exact Hc|]. intros ? c'' Hc'. right. right. rewrite Hc'. split_and!; [done|by destruct (rst h)| |done].
    apply orb_true_iff in Hn. rewrite Z.leb_le, Z.ltb_lt in Hn. unfold acks_syn. fold t. lia. }
  assert (ack h && (snd_una t <=? ack_number h) && (ack_number h <=? snd_nxt t) = true -> ack h = true /\ acks_syn c h) as Hsyn.
  { intros [[Ha H1]%andb_true_iff H2]%andb_true_iff. split; [done|]. rewrite Ha in Heqb. cbn in Heqb. apply orb_false_iff in Heqb as [H3 _].
    apply Z.leb_le in H1, H2. apply Z.leb_gt in H3. unfold acks_syn. fold t. lia. }
  ebranch.
  { ebranch; [|tstep; by left]. destruct (Hsyn eq_refl) as [Ha Hy]. repeat tstep. right. left. by apply rcv_refused. }
  ebranch; [|tstep; by left]. apply andb_true_iff in Heqb1 as [Hsy Hacc]. destruct (Hsyn Hacc) as [Ha Hy].
  tstep. eapply ends_mono; [apply ends_and; [by apply keeps_when; [apply keeps_parse_syn|]|apply parse_iss]|]. intros ? c1 [H1 I1].
  do 2 tstep. set (c2 := c1 <| tsk ::= _ |>). assert (in_state TCP_SYN_SENT c2) as H2 by exact H1. change (snd_iss (tsk c2) = snd_iss t) in I1. clearbody c2.
  tstep. eapply ends_mono; [apply ends_and; [eapply keeps_accept_ack; exact H2|apply accept_una]|]. intros ? c3 [H3 [U3 I3]]. do 2 tstep. ebranch.
  - tstep. eapply ends_mono; [apply keeps_tmod; [done|exact H3]|]. intros ? c4 H4. tstep. eapply ends_mono; [eapply segment_state; [done|exact H4]|]. intros ? c5 H5.
    eapply ends_mono; [eapply wake_keeps; exact H5|]. intros ? c6 H6. rewrite H6. right. left. by apply rcv_synack.
  - exfalso. apply Z.ltb_ge in Heqb1. destruct Hy as [Hy _]. fold t in Hy. lia.
Qed.

(** ** Events *)

(** An edge of the diagram, or a departure from it. *)
Definition allowed (c : conn) (e : event) (s s' : tcp_state) : Prop := rfc793 c e s s' \/ deviates c e s s'.

(** The number of the next buffer plays no part. *)
Lemma takes_next c skb len s s' : takes (c <| next_skb ::= S |>) skb len s s' -> takes c skb len s s'.
Proof.
  assert (forall s s', fin_edge (c <| next_skb ::= S |>) (tcph skb) s s' -> fin_edge c (tcph skb) s s') as Hfin
    by (intros ? ? []; constructor; assumption).
  intros [[]|[]]; (left; econstructor; (eassumption || by apply Hfin)) || (right; econstructor; (eassumption || by apply Hfin)).
Qed.

Lemma takes_allowed c frame (skb := skb_of_frame (next_skb c) frame) s s' :
  let_in c (tcph skb) (text_len skb) -> takes c skb (text_len skb) s s' -> allowed c (Rx frame) s s'.
Proof.
  intros Hin [He|He].
  - destruct Hin; [left; by apply rfc_segment|right; by apply dev_slips_in].
  - right. by apply dev_departs.
Qed.

Lemma dispatch_path c frame (skb := skb_of_frame (next_skb c) frame) : conn_ok (c <| next_skb ::= S |>) -> skb_ok skb ->
  ends (tcp_dispatch skb) (c <| next_skb ::= S |>) (fun _ c' => rtc (allowed c (Rx frame)) (state (tsk c)) (state (tsk c'))).
Proof.
  intros Hok Hskb. set (c1 := c <| next_skb ::= S |>) in *. unfold tcp_dispatch. do 2 tstep. change (state (tsk c1)) with (state (tsk c)).
  assert (synchronised (state (tsk c)) = true ->
    ends (tcp_handler_established skb) c1 (fun _ c' => rtc (allowed c (Rx frame)) (state (tsk c)) (state (tsk c')))) as Hest.
  { intros Hy. eapply ends_mono; [by apply established_path|]. intros ? c' [Hs|[Hin Hp]]; [rewrite Hs; apply rtc_refl|].
    eapply rtc_subrel; [|exact Hp]. intros s s' Ht. apply takes_allowed; [exact Hin|by apply takes_next]. }
  destruct (state (tsk c)) eqn:Hs; try (by apply Hest).
  - eapply ends_mono; [by apply sync_path|]. intros ? c' [->|[He|(Ha & Hr & Hn & ->)]]; [apply rtc_refl| |].
    + apply rtc_once. left. apply rfc_open. fold skb. destruct He; econstructor; eassumption.
    + apply rtc_once. right. by apply dev_refuses.
  - eapply ends_mono; [by apply close_keeps|]. intros ? c' Hc. rewrite Hc. apply rtc_refl.
  - tstep. change (state (tsk c1)) with (state (tsk c)). rewrite Hs. apply rtc_refl.
Qed.

Lemma handler_path frame c : conn_ok c -> Forall byte_ok frame ->
  ends (tcp_handler frame) c (fun _ c' => rtc (allowed c (Rx frame)) (state (tsk c)) (state (tsk c'))).
Proof.
  intros Hok Hb. unfold tcp_handler. do 2 tstep. unfold Datatypes.id. repeat (ebranch; [by tstep|]). cbv zeta.
  pose proof (validate_restores (drop 34 frame) (u16 (ntohs (get16 2 (drop 14 frame)) - IP4_HEADER)) (ntohl (get32 12 (drop 14 frame))) (ntohl (get32 16 (drop 14 frame))) (Forall_drop _ _ _ Hb)) as Ht.
  destruct (tcp_validate_header _ _ _ _) as [ret tcp] eqn:Ev. cbn [snd] in Ht. subst tcp. rewrite take_drop. ebranch; [by tstep|].
  tstep. ebranch; [|by repeat tstep]. do 2 tstep. eapply ends_mono; [apply dispatch_path|intros ? c' Hp; by tstep].
  - destruct Hok as [T X R E N J V (Q1 & Q2 & Q3)]. split; try assumption. split_and!; try assumption.
    eapply list.Forall_impl; [exact Q2|]. intros i Hi. cbn beta in Hi. change (i < S (next_skb c))%nat. lia.
  - by apply frame_ok.
Qed.

(** A queued segment that a timer sends again. *)
Lemma resend_allowed c k x q s : k <> Msl -> tx_queue c = x :: q -> rtc (allowed c (Timeout k)) s (next_state s (u8 (cb_flags x))).
Proof.
  intros Hk Hq. destruct s; cbn [next_state]; try apply rtc_refl.
  - destruct (has _ _) eqn:E; [|apply rtc_refl]. apply rtc_once. left. eapply rfc_resend; [done..|]. apply snd_fin; auto.
  - destruct (Z.eq_dec (u8 (cb_flags x)) TCPCB_FLAG_SYN) as [->|Hn]; [apply rtc_refl|]. apply rtc_once. right. by eapply dev_resend.
  - destruct (Z.eqb_spec (u8 (cb_flags x)) TCPCB_FLAG_SYN); [|apply rtc_refl]. apply rtc_once. left. eapply rfc_resend; [done..|]. apply snd_syn; auto.
  - destruct (has _ _) eqn:E; [|apply rtc_refl]. apply rtc_once. left. eapply rfc_resend; [done..|]. by apply snd_last_fin.
  - destruct (Z.eqb_spec (u8 (cb_flags x)) TCPCB_FLAG_SYN); [|apply rtc_refl]. apply rtc_once. left. eapply rfc_resend; [done..|]. apply snd_syn; auto.
Qed.

Lemma timeout_path k c : ends (handle_event (Timeout k)) c (fun _ c' => rtc (allowed c (Timeout k)) (state (tsk c)) (state (tsk c'))).
Proof.
  cbn [handle_event]. do 2 tstep. unfold Datatypes.id. ebranch; [|by tstep]. ebranch; [|by tstep]. destruct k; cbn [timer_function].
  - eapply ends_mono; [by apply retransmit_state|]. intros ? c' (x & q & E & Hc). rewrite Hc. by eapply resend_allowed.
  - eapply ends_mono; [by apply persist_state|]. intros ? c' [Hc|(x & q & E & Hc)]; rewrite Hc; [apply rtc_refl|by eapply resend_allowed].
  - eapply ends_mono; [by apply msl_state|]. intros ? c' (E & Hc). rewrite Hc. apply rtc_once. destruct E as [->| ->]; [left; constructor|right; constructor].
Qed.

Lemma event_path e c : conn_ok c -> event_ok e -> ends (handle_event e) c (fun _ c' => rtc (allowed c e) (state (tsk c)) (state (tsk c'))).
Proof.
  intros Hok He. destruct e as [frame| |k|]; [|cbn [handle_event]; by tstep|apply timeout_path|cbn [handle_event]; by tstep].
  cbn [handle_event]. tstep. eapply ends_mono; [by apply handler_path|]. intros ? c' Hp. by tstep.
Qed.

(** ** Claims *)


