(* ===== verification/Signal.v ===== *)
(** * Signals

    [ipc/signal.c] over the scheduler: the masks, [sigprocmask], [sigaction],
    [sigsuspend] and [kill], the delivery of a signal to a handler on the user
    stack, and the return from the handler through a page fault
    ([thread_page_fault] of [proc/sched.c]). The theorems state which signal is
    delivered, that a handler's return restores the interrupted context, whom
    [kill] reaches, and where delivery breaks an assertion or the balance of
    the scheduler lock. *)
From Stdlib Require Import ZArith Lia Bool List.
From coqutil Require Import Datatypes.RecordSetters.
From stdpp Require Import base list gmap option fin_maps.
From S2P Require Import Prelude Dlist Plist Sched Hoare.
Import TriangleBracketNotations.

Open Scope Z_scope.

(** ** Data *)

(** [struct interrupt_registers], the trap frame. *)
Record interrupt_registers := mk_regs {
  r_gs : Z; r_fs : Z; r_es : Z; r_ds : Z;
  r_edi : Z; r_esi : Z; r_ebp : Z; r_esp : Z; r_ebx : Z; r_edx : Z; r_ecx : Z; r_eax : Z;
  r_int_no : Z; r_err_code : Z;
  r_eip : Z; r_cs : Z; r_eflags : Z; r_useresp : Z; r_ss : Z }.

Record sigaction := mk_sigaction { sa_handler : Z; sa_flags : Z; sa_mask : Z }.

Record signal_frame := mk_frame {
  f_sigreturn : Z;
  f_signum : Z;
  f_signaling : bool;
  f_blocked : Z;
  f_uregs : interrupt_registers }.

(** The fields of [struct thread] only signals use; [pending] and [flags] are
    in the scheduler's record. *)
Record sig_thread := mk_sig_thread { blocked : Z; signaling : bool; uregs : interrupt_registers }.

(** The fields of [struct process] signals use; [wait_chld] is the list of the
    threads waiting on it. *)
Record process := mk_process {
  proc_pid : Z;
  gid : Z;
  parent : Z;
  proc_thread : Z;
  sighand : list sigaction;
  caused_signal : Z;
  proc_flags : Z;
  wait_chld : list Z }.

(** The machine: the scheduler, the signal fields of each thread and each
    process by address, the process table in the order of iteration, the trap
    frames by address and the signal frames on user stacks by address. *)
Record sig_state := mk_sig_state {
  sch : sched;
  sigs : gmap Z sig_thread;
  procs : gmap Z process;
  mprocess : list (Z * Z);
  traps : gmap Z interrupt_registers;
  frames : gmap Z signal_frame }.

(** How a call ends: it returns, the thread leaves for user mode with the
    registers of its trap frame, or the process is in [do_exit] with a code. *)
Inductive control := Returned (r : Z) | Usermode (regs : Z) | Exits (code : Z).

(** ** Signal numbers and masks *)

#[local] Abbreviation EINTR := 4.
#[local] Abbreviation EINVAL := 22.
Definition NSIG : Z := 32.
Definition SIGRTMIN : Z := 32.
Definition SIGKILL : Z := 9.
Definition SIGCHLD : Z := 17.
Definition SIGCONT : Z := 18.
Definition SIGSTOP : Z := 19.
#[local] Abbreviation SIG_DFL := 0.
#[local] Abbreviation SIG_IGN := 1.
#[local] Abbreviation SIGNAL_STOPED := 1.
#[local] Abbreviation SIGNAL_CONTINUED := 2.
#[local] Abbreviation SIGNAL_TERMINATED := 4.

Definition sigmask (sig : Z) : Z := bit (sig - 1).
Definition sigmasks (l : list Z) : Z := foldr (fun sig m => Z.lor (sigmask sig) m) 0 l.

Definition SIG_KERNEL_ONLY_MASK : Z := sigmasks [SIGKILL; SIGSTOP].
(** SIGSTOP, SIGTSTP, SIGTTIN, SIGTTOU *)
Definition SIG_KERNEL_STOP_MASK : Z := sigmasks [SIGSTOP; 20; 21; 22].
(** SIGQUIT, SIGILL, SIGTRAP, SIGABRT, SIGFPE, SIGSEGV, SIGBUS, SIGSYS, SIGXCPU, SIGXFSZ *)
Definition SIG_KERNEL_COREDUMP_MASK : Z := sigmasks [3; 4; 5; 6; 8; 11; 7; 31; 24; 25].
(** SIGCONT, SIGCHLD, SIGWINCH, SIGURG *)
Definition SIG_KERNEL_IGNORE_MASK : Z := sigmasks [SIGCONT; SIGCHLD; 28; 23].

Definition siginmask (sig mask : Z) : bool :=
  (0 <? sig) && (sig <? SIGRTMIN) && negb (Z.land (sigmask sig) mask =? 0).
Definition sig_kernel_only (sig : Z) : bool := (sig <? SIGRTMIN) && siginmask sig SIG_KERNEL_ONLY_MASK.
Definition sig_kernel_ignore (sig : Z) : bool := (sig <? SIGRTMIN) && siginmask sig SIG_KERNEL_IGNORE_MASK.
Definition sig_kernel_stop (sig : Z) : bool := (sig <? SIGRTMIN) && siginmask sig SIG_KERNEL_STOP_MASK.

(** The argument is an [unsigned long]. *)
Definition valid_signal (sig : Z) : bool := u32 sig <=? NSIG.

Definition sigismember (set sig : Z) : bool := Z.testbit set (sig - 1).
(** [btrl] on the word of the set *)
Definition sigdelset (set sig : Z) : Z := Z.land set (lnot32 (sigmask sig)).
Definition sigdelsetmask (set mask : Z) : Z := Z.land set (lnot32 mask).

(** [ffz]: [bsfl] of the complement, the lowest clear bit. *)
Fixpoint first_bit (w i : Z) (n : nat) : Z :=
  match n with
  | O => i
  | S n' => if Z.testbit w i then i else first_bit w (i + 1) n'
  end.
Definition ffz (word : Z) : Z := first_bit (lnot32 word) 0 32.

Definition next_signal (pending blocked : Z) : Z :=
  let mask := Z.land pending (lnot32 blocked) in
  if negb (Z.land mask SIG_KERNEL_COREDUMP_MASK =? 0) then
    ffz (lnot32 (Z.land mask SIG_KERNEL_COREDUMP_MASK)) + 1
  else if negb (Z.land mask (lnot32 (sigmask SIGCONT)) =? 0) then
    ffz (lnot32 (Z.land mask (lnot32 (sigmask SIGCONT)))) + 1
  else if negb (Z.land mask (sigmask SIGCONT) =? 0) then SIGCONT
  else 0.

(** ** Access to the state *)

Definition on_sch {A} : M sched A -> M sig_state A := zoom sch (fun c s => s <| sch := c |>).
Definition get_sig (th : Z) : M sig_state sig_thread := deref (fun s => sigs s !! th).
Definition put_sig (th : Z) (x : sig_thread) : M sig_state unit := modify (fun s => s <| sigs := <[th := x]> (sigs s) |>).
Definition get_process (p : Z) : M sig_state process := deref (fun s => procs s !! p).
Definition put_process (p : Z) (x : process) : M sig_state unit := modify (fun s => s <| procs := <[p := x]> (procs s) |>).
Definition get_regs (a : Z) : M sig_state interrupt_registers := deref (fun s => traps s !! a).
Definition put_regs (a : Z) (r : interrupt_registers) : M sig_state unit := modify (fun s => s <| traps := <[a := r]> (traps s) |>).
Definition put_frame (a : Z) (f : signal_frame) : M sig_state unit := modify (fun s => s <| frames := <[a := f]> (frames s) |>).

Definition map_thread (th : Z) (g : thread -> thread) : M sig_state unit :=
  on_sch (t ← get_thread th; put_thread th (g t)).
Definition map_pending (th : Z) (g : Z -> Z) : M sig_state unit :=
  map_thread th (fun t => t <| t_pending := g (t_pending t) |>).
Definition map_flags (th : Z) (g : Z -> Z) : M sig_state unit :=
  map_thread th (fun t => t <| t_flags := g (t_flags t) |>).
Definition map_proc_flags (p : Z) (g : Z -> Z) : M sig_state unit :=
  x ← get_process p; put_process p (x <| proc_flags := g (proc_flags x) |>).

(** Sequencing of calls that may not return. *)
Definition andthen (m k : M sig_state control) : M sig_state control :=
  c ← m; match c with Returned _ => k | _ => mret c end.

(** ** Calls on the masks and the actions *)

Definition sig_ignored (th sig : Z) : M sig_state bool :=
  x ← get_sig th;
  if sigismember (blocked x) sig then mret false
  else
    t ← on_sch (get_thread th);
    p ← get_process (t_parent t);
    a ← deref (fun _ => sighand p !! Z.to_nat (sig - 1));
    mret ((sa_handler a =? SIG_IGN) || ((sa_handler a =? SIG_DFL) && sig_kernel_ignore sig)).

(** [SIG_BLOCK], [SIG_UNBLOCK] and [SIG_SETMASK] are 0, 1 and 2; a null [set]
    is [None]. The result is the return value and what [oldset] receives. *)
Definition do_sigprocmask (how : Z) (set : option Z) : M sig_state (Z * Z) :=
  cur ← on_sch (gets current_thread);
  x ← get_sig cur;
  let oldset := blocked x in
  match set with
  | None => mret (0, oldset)
  | Some set =>
      let b :=
        if how =? 0 then Some (Z.lor (blocked x) set)
        else if how =? 1 then Some (Z.land (blocked x) (lnot32 set))
        else if how =? 2 then Some set
        else None in
      match b with
      | None => mret (- EINVAL, oldset)
      | Some b => put_sig cur (x <| blocked := Z.land b (lnot32 SIG_KERNEL_ONLY_MASK) |>);; mret (0, oldset)
      end
  end.

(** The result is the return value and what [old_action] receives. *)
Definition do_sigaction (signum : Z) (action : option sigaction) : M sig_state (Z * option sigaction) :=
  if negb (valid_signal signum) || (signum <? 1) || sig_kernel_only signum then mret (- EINVAL, None)
  else
    proc ← on_sch (gets current_process);
    p ← get_process proc;
    old ← deref (fun _ => sighand p !! Z.to_nat (signum - 1));
    match action with
    | None => mret (0, Some old)
    | Some a =>
        put_process proc (p <| sighand := <[Z.to_nat (signum - 1) := a]> (sighand p) |>);;
        mret (0, Some old)
    end.

(** ** Delivery *)

(** [sizeof(struct interrupt_registers)] and [sizeof(struct signal_frame)]: the
    [bool] is padded to a word. *)
Definition sizeof_regs : Z := 19 * 4.
Definition sizeof_frame : Z := 4 + 4 + 4 + 4 + sizeof_regs.
Definition PROCESS_TRAPPED_PAGE_FAULT : Z := 0xFFFFFFFF.

Definition sig_fatal (a : sigaction) (signum : Z) : bool :=
  negb (siginmask signum (Z.lor SIG_KERNEL_IGNORE_MASK SIG_KERNEL_STOP_MASK)) && (sa_handler a =? SIG_DFL).

Section signal.
(** The lists and offsets of the scheduler, and the address of [sigreturn] in
    the kernel. *)
Context (kernel_ready_list system_ready_list app_ready_list waiting_list terminated_list : Z).
Context (offsetof_sched_sibling : Z) (fuel : nat) (sigreturn_addr : Z).
#[local] Abbreviation update_thread th st :=
  (on_sch (update_thread kernel_ready_list system_ready_list app_ready_list waiting_list terminated_list
     offsetof_sched_sibling fuel th st)).

(** The user stack is writable where the frame goes. *)
Definition handle_signal (regs restored_sig : Z) : M sig_state control :=
  cur ← on_sch (gets current_thread);
  t ← on_sch (get_thread cur);
  x ← get_sig cur;
  let prev_signaling := signaling x in
  if t_pending t =? 0 then mret (Returned 0)
  else
    let signum := next_signal (t_pending t) (blocked x) in
    if signum =? 0 then mret (Returned 0)
    else
      r ← get_regs regs;
      let from_syscall := r_int_no r =? 0x7F in
      let r := if from_syscall then r <| r_eax := u32 (- EINTR) |> else r in
      put_regs regs r;;
      put_sig cur (x <| signaling := true |> <| uregs := r |>);;
      map_pending cur (fun p => sigdelset p signum);;
      ignored ← sig_ignored cur signum;
      massert (negb ignored);;
      proc ← on_sch (gets current_process);
      p ← get_process proc;
      a ← deref (fun _ => sighand p !! Z.to_nat (signum - 1));
      if sa_handler a =? SIG_DFL then
        massert (sig_fatal a signum);;
        put_process proc (p <| caused_signal := signum |>
          <| proc_flags := Z.land (Z.lor (proc_flags p) SIGNAL_TERMINATED)
                             (lnot32 (Z.lor SIGNAL_CONTINUED SIGNAL_STOPED)) |>);;
        put_sig cur (x <| signaling := false |> <| uregs := r |>);;
        map_pending cur (fun _ => 0);;
        mret (Exits signum)
      else if negb (sa_handler a =? SIG_IGN) then
        let frame := u32 (r_useresp r - sizeof_frame) in
        put_frame frame (mk_frame sigreturn_addr signum prev_signaling restored_sig r);;
        put_regs regs (r <| r_useresp := frame |> <| r_eip := sa_handler a |>);;
        put_sig cur (x <| signaling := true |> <| uregs := r |>
          <| blocked := Z.lor (blocked x) (Z.lor (sigmask signum) (sa_mask a)) |>);;
        mret (if from_syscall then Usermode regs else Returned 0)
      else mret (Returned 0).

Definition signal_handler (regs : Z) : M sig_state control :=
  cur ← on_sch (gets current_thread);
  if cur =? 0 then mret (Returned 0)
  else
    t ← on_sch (get_thread cur);
    x ← get_sig cur;
    if (t_pending t =? 0) || signaling x || negb (u32 (regs + sizeof_regs) =? t_kernel_stack t)
    then mret (Returned 0)
    else handle_signal regs (blocked x).

Definition sigreturn (regs : Z) : M sig_state unit :=
  cur ← on_sch (gets current_thread);
  r ← get_regs regs;
  f ← deref (fun s => frames s !! u32 (r_useresp r - 4));
  x ← get_sig cur;
  put_sig cur (mk_sig_thread (f_blocked f) (f_signaling f) (f_uregs f));;
  put_regs regs (f_uregs f);;
  map_flags cur (fun fl => Z.land fl (lnot32 TIF_SIGNAL_MANUAL)).

(** [thread_page_fault] of [proc/sched.c], with the faulting address of [cr2];
    [IRQ_HANDLER_STOP] is 1. *)
Definition thread_page_fault (regs cr2 : Z) : M sig_state control :=
  r ← get_regs regs;
  if r_cs r =? 0x1B then
    if cr2 =? PROCESS_TRAPPED_PAGE_FAULT then mret (Exits (s32 (r_eax r)))
    else if cr2 =? sigreturn_addr then sigreturn regs;; mret (Returned 1)
    else mret (Returned 1)
  else mfail Assert.

(** [schedule] as the thread that calls it sees it: [others] is the choice of the
    next thread, the switch, and all that runs until the thread is switched
    back to. A delivery that does not return skips [unlock_scheduler]. *)
Definition schedule (others : M sig_state unit) : M sig_state control :=
  cur ← on_sch (gets current_thread);
  t ← on_sch (get_thread cur);
  if decide (t_state t = THREAD_RUNNING) then mret (Returned 0)
  else
    on_sch lock_scheduler;;
    others;;
    t ← on_sch (get_thread cur);
    x ← get_sig cur;
    andthen
      (if negb (t_pending t =? 0) && (Z.land (t_flags t) TIF_SIGNAL_MANUAL =? 0)
       then handle_signal (u32 (t_kernel_stack t - sizeof_regs)) (blocked x)
       else mret (Returned 0))
      (on_sch unlock_scheduler;; mret (Returned 0)).

(** The loop of [do_sigsuspend]: the thread is running, so [schedule] returns at
    once and only interrupts, one per iteration, let others run. *)
Fixpoint wait_pending (irqs : list (M sig_state unit)) (others : M sig_state unit) : M sig_state control :=
  cur ← on_sch (gets current_thread);
  t ← on_sch (get_thread cur);
  if negb (t_pending t =? 0) then mret (Returned 0)
  else
    match irqs with
    | [] => mfail Fuel
    | irq :: irqs' => irq;; andthen (schedule others) (wait_pending irqs' others)
    end.

Definition do_sigsuspend (irqs : list (M sig_state unit)) (others : M sig_state unit) (set : Z) : M sig_state control :=
  cur ← on_sch (gets current_thread);
  x ← get_sig cur;
  let saveset := blocked x in
  put_sig cur (x <| blocked := set |>);;
  map_flags cur (fun f => Z.lor f TIF_SIGNAL_MANUAL);;
  andthen (wait_pending irqs others)
    (t ← on_sch (get_thread cur);
     andthen (handle_signal (u32 (t_kernel_stack t - sizeof_regs)) saveset) (mret (Returned 0))).

(** ** Sending *)

Definition find_process_by_pid (pid : Z) : M sig_state Z :=
  gets (fun s => default 0 ((list_to_map (mprocess s) : gmap Z Z) !! pid)).

(** [wake_up] with the only callback of [wait_chld], [poll_wakeup]. *)
Definition wake_up (l : list Z) : M sig_state unit :=
  foldr (fun th k => update_thread th THREAD_READY;; k) (mret tt) l.

Definition for_each_process (body : process -> M sig_state control) : M sig_state control :=
  l ← gets mprocess;
  foldr (fun e k => p ← get_process e.2; andthen (body p) k) (mret (Returned 0)) l.

(** [n] bounds the recursion: a group, its leader, the parent of the caller.
    [others] is what runs when a thread stops itself. *)
Fixpoint do_kill (n : nat) (others : M sig_state unit) (pid signum : Z) : M sig_state control :=
  match n with
  | O => mfail Fuel
  | S n' =>
      if negb (valid_signal signum) || (signum <? 0) then mret (Returned (- EINVAL))
      else if signum =? 0 then mret (Returned 0)
      else if 0 <? pid then
        proc ← find_process_by_pid pid;
        p ← get_process proc;
        let th := proc_thread p in
        cur ← on_sch (gets current_thread);
        me ← on_sch (gets current_process);
        if signum =? SIGCONT then
          map_proc_flags me (fun f => Z.land (Z.lor f SIGNAL_CONTINUED) (lnot32 SIGNAL_STOPED));;
          map_pending cur (fun p => sigdelsetmask p SIG_KERNEL_STOP_MASK);;
          mwhen (negb (th =? cur)) (update_thread th THREAD_READY);;
          m ← get_process me;
          q ← get_process (parent m);
          andthen (do_kill n' others (proc_pid q) SIGCHLD)
            (q ← get_process (parent m); wake_up (wait_chld q);; mret (Returned 0))
        else if sig_kernel_stop signum then
          map_proc_flags me (fun f => Z.land (Z.lor f SIGNAL_STOPED) (lnot32 SIGNAL_CONTINUED));;
          map_pending cur (fun p => sigdelset p SIGCONT);;
          update_thread th THREAD_WAITING;;
          m ← get_process me;
          q ← get_process (parent m);
          andthen (do_kill n' others (proc_pid q) SIGCHLD)
            (q ← get_process (parent m); wake_up (wait_chld q);;
             if th =? cur then andthen (schedule others) (mret (Returned 0)) else mret (Returned 0))
        else
          ignored ← sig_ignored th signum;
          if negb ignored : bool then
            map_pending th (fun p => Z.lor p (sigmask signum));;
            mwhen ((signum =? SIGKILL) && negb (th =? cur)) (update_thread th THREAD_READY);;
            mret (Returned 0)
          else mret (Returned 0)
      else if pid =? 0 then
        me ← on_sch (gets current_process);
        m ← get_process me;
        for_each_process (fun p => if gid p =? gid m then do_kill n' others (gid p) signum else mret (Returned 0))
      else if pid =? -1 then
        for_each_process (fun p => if 1 <? proc_pid p then do_kill n' others (gid p) signum else mret (Returned 0))
      else
        for_each_process (fun p => if gid p =? - pid then do_kill n' others (gid p) signum else mret (Returned 0))
  end.

(** ** Which signal is delivered *)

Lemma lnot32_invol w : is_u32 w -> lnot32 (lnot32 w) = w.
Proof.
  intros Hw. apply u32_eq_testbit; [apply u32_range|done|]. intros i Hi.
  by rewrite !testbit_lnot32, negb_involutive by done.
Qed.

Lemma first_bit_spec w n i : (exists j, i <= j < i + Z.of_nat n /\ Z.testbit w j = true) ->
  let k := first_bit w i n in i <= k < i + Z.of_nat n /\ Z.testbit w k = true /\ forall j, i <= j < k -> Z.testbit w j = false.
Proof.
  revert i. induction n as [|n IH]; intros i (j & Hj & Hb); [lia|]. cbn [first_bit].
  destruct (Z.testbit w i) eqn:E; [split; [lia|]; split; [done|]; intros; lia|].
  destruct (IH (i + 1)) as (H1 & H2 & H3).
  { exists j. split; [|done]. destruct (Z.eq_dec j i) as [->|]; [congruence|lia]. }
  split; [lia|]. split; [done|]. intros k Hk. destruct (Z.eq_dec k i) as [->|]; [done|]. apply H3. lia.
Qed.

Lemma nonzero_bit w : is_u32 w -> w <> 0 -> exists j, 0 <= j < 32 /\ Z.testbit w j = true.
Proof.
  intros Hw Hne. unfold is_u32 in Hw. exists (Z.log2 w). split.
  - split; [apply Z.log2_nonneg|]. apply Z.log2_lt_pow2; lia.
  - apply Z.bit_log2. lia.
Qed.

(** The signal [ffz(~w) + 1] of a set that is not empty. *)
Lemma ffz_first w : is_u32 w -> w <> 0 ->
  let k := ffz (lnot32 w) + 1 in 1 <= k <= 32 /\ sigismember w k = true /\ forall j, 1 <= j < k -> sigismember w j = false.
Proof.
  intros Hw Hne. unfold ffz. rewrite lnot32_invol by done.
  destruct (first_bit_spec w 32 0) as (H1 & H2 & H3); [by apply nonzero_bit|]. cbv zeta. unfold sigismember.
  split; [lia|]. split; [by rewrite Z.add_simpl_r|]. intros j Hj. apply H3. lia.
Qed.

(** A signal that is pending and not blocked. *)
Definition deliverable (pending blocked sig : Z) : Prop :=
  1 <= sig <= NSIG /\ sigismember pending sig = true /\ sigismember blocked sig = false.

(** The order of delivery: those that dump core, then the others, SIGCONT last;
    the smaller number first in each class. *)
Definition rank (sig : Z) : Z := if sigismember SIG_KERNEL_COREDUMP_MASK sig then 0 else if sig =? SIGCONT then 2 else 1.
Definition sooner (i j : Z) : Prop := rank i < rank j \/ rank i = rank j /\ i < j.

Lemma ismember_land a b sig : sigismember (Z.land a b) sig = sigismember a sig && sigismember b sig.
Proof. apply Z.land_spec. Qed.

Lemma ismember_lnot32 a sig : 1 <= sig <= 32 -> sigismember (lnot32 a) sig = negb (sigismember a sig).
Proof. intros. unfold sigismember. apply testbit_lnot32. lia. Qed.

Lemma ismember_sigmask i sig : 1 <= i -> 1 <= sig -> sigismember (sigmask i) sig = (sig =? i).
Proof. intros. unfold sigismember, sigmask. rewrite testbit_bit by lia. destruct (Z.eqb_spec sig i); lia. Qed.

Lemma land_empty a b : is_u32 a -> Z.land a b = 0 -> forall sig, sigismember a sig && sigismember b sig = false.
Proof. intros Ha H sig. rewrite <- ismember_land, H. apply Z.bits_0. Qed.

Lemma next_signal_member pending blocked : is_u32 pending -> is_u32 blocked ->
  let mask := Z.land pending (lnot32 blocked) in
  forall sig, 1 <= sig <= NSIG -> sigismember mask sig = true <-> deliverable pending blocked sig.
Proof.
  intros Hp Hb mask sig Hsig. unfold mask. rewrite ismember_land, ismember_lnot32 by done.
  unfold deliverable. destruct (sigismember pending sig), (sigismember blocked sig); naive_solver.
Qed.

(** One branch of [next_signal]: the least signal of a class, none of whose
    sooner classes has one. *)
Lemma next_signal_class mask class sig : is_u32 mask -> Z.land mask class <> 0 ->
  sig = ffz (lnot32 (Z.land mask class)) + 1 ->
  (forall i, 1 <= i <= 32 -> sigismember mask i = true -> sigismember class i = false -> rank sig < rank i) ->
  (forall i, 1 <= i <= 32 -> sigismember mask i = true -> sigismember class i = true -> rank i = rank sig) ->
  1 <= sig <= NSIG /\ sigismember mask sig = true /\
  forall i, 1 <= i <= 32 -> sigismember mask i = true -> i = sig \/ sooner sig i.
Proof.
  intros Hm Hne -> Hout Hin. destruct (ffz_first (Z.land mask class)) as (H1 & H2 & H3); [by apply is_u32_land_l|done|].
  rewrite ismember_land in H2. apply andb_true_iff in H2 as [H2 H2']. split; [done|]. split; [done|].
  intros i Hi Hmem. destruct (sigismember class i) eqn:Ec; [|right; left; by apply Hout].
  destruct (Z.lt_trichotomy i (ffz (lnot32 (Z.land mask class)) + 1)) as [Hlt|[->|Hgt]]; [|by left|].
  - specialize (H3 i ltac:(lia)). rewrite ismember_land, Hmem, Ec in H3. done.
  - right. right. split; [symmetry; by apply Hin|done].
Qed.

Lemma rank_coredump sig : sigismember SIG_KERNEL_COREDUMP_MASK sig = true -> rank sig = 0.
Proof. unfold rank. by intros ->. Qed.
Lemma rank_other sig : sigismember SIG_KERNEL_COREDUMP_MASK sig = false -> sig <> SIGCONT -> rank sig = 1.
Proof. unfold rank. intros -> H%Z.eqb_neq. by rewrite H. Qed.

Lemma next_signal_spec pending blocked : is_u32 pending -> is_u32 blocked ->
  let mask := Z.land pending (lnot32 blocked) in let sig := next_signal pending blocked in
  sig = 0 /\ (forall i, 1 <= i <= 32 -> sigismember mask i = false) \/
  1 <= sig <= NSIG /\ sigismember mask sig = true /\
  forall i, 1 <= i <= 32 -> sigismember mask i = true -> i = sig \/ sooner sig i.
Proof.
  intros Hp Hb mask. assert (is_u32 mask) as Hm by by apply is_u32_land_l. unfold next_signal. fold mask. cbv zeta.
  destruct (Z.eqb_spec (Z.land mask SIG_KERNEL_COREDUMP_MASK) 0) as [E1|E1]; cbn [negb].
  2: { right. destruct (ffz_first (Z.land mask SIG_KERNEL_COREDUMP_MASK)) as (_ & H2 & _); [by apply is_u32_land_l|done|].
    rewrite ismember_land in H2. apply andb_true_iff in H2 as [_ H2]. apply rank_coredump in H2.
    apply (next_signal_class _ SIG_KERNEL_COREDUMP_MASK); [done..| |].
    - intros i Hi _ Hc. rewrite H2. destruct (Z.eq_dec i SIGCONT) as [->|Hne]; [done|]. by rewrite rank_other.
    - intros i Hi _ Hc. by rewrite H2, rank_coredump. }
  assert (forall i, sigismember mask i = true -> sigismember SIG_KERNEL_COREDUMP_MASK i = false) as Hnc.
  { intros i Hi. pose proof (land_empty _ _ Hm E1 i) as H. by rewrite Hi in H. }
  assert (forall i, 1 <= i <= 32 -> sigismember (lnot32 (sigmask SIGCONT)) i = negb (i =? SIGCONT)) as Hcl.
  { intros i Hi. rewrite ismember_lnot32, ismember_sigmask by (unfold SIGCONT; lia). done. }
  destruct (Z.eqb_spec (Z.land mask (lnot32 (sigmask SIGCONT))) 0) as [E2|E2]; cbn [negb].
  2: { right. destruct (ffz_first (Z.land mask (lnot32 (sigmask SIGCONT)))) as (H1 & H2 & _); [by apply is_u32_land_l|done|].
    rewrite ismember_land, Hcl in H2 by done. apply andb_true_iff in H2 as [H2 H2'].
    assert (rank (ffz (lnot32 (Z.land mask (lnot32 (sigmask SIGCONT)))) + 1) = 1) as Hr by (apply rank_other; [auto|lia]).
    apply (next_signal_class _ (lnot32 (sigmask SIGCONT))); [done..| |].
    - intros i Hi _ Hc. rewrite Hr. rewrite Hcl in Hc by done. apply negb_false_iff, Z.eqb_eq in Hc. by subst.
    - intros i Hi Hmem Hc. rewrite Hr. rewrite Hcl in Hc by done. apply rank_other; [auto|lia]. }
  assert (forall i, 1 <= i <= 32 -> sigismember mask i = true -> i = SIGCONT) as Honly.
  { intros i Hi Hmem. pose proof (land_empty _ _ Hm E2 i) as H. rewrite Hmem, Hcl in H by done. simpl in H. lia. }
  destruct (Z.eqb_spec (Z.land mask (sigmask SIGCONT)) 0) as [E3|E3]; cbn [negb].
  - left. split; [done|]. intros i Hi. destruct (sigismember mask i) eqn:Em; [|done].
    pose proof (land_empty _ _ Hm E3 i) as H. by rewrite Em, (Honly i Hi Em) in H.
  - right. split; [done|]. split; [|by left; apply Honly].
    destruct (sigismember mask SIGCONT) eqn:Em; [done|]. destruct E3. apply Z.eqb_eq. unfold sigmask.
    rewrite land_bit_eqb by (unfold SIGCONT; lia). apply negb_true_iff. apply Em.
Qed.

(** ** Steps of the machine *)

Definition set_thread (th : Z) (t : thread) (s : sig_state) : sig_state :=
  s <| sch := with_threads (<[th := t]> (threads (sch s))) (sch s) |>.

Lemma on_sch_same {A} (m : M sched A) s a : m (sch s) = Ok (a, sch s) -> on_sch m s = Ok (a, s).
Proof. intros H. unfold on_sch, zoom. rewrite H. by destruct s. Qed.

Lemma thread_step th t s : threads (sch s) !! th = Some t -> on_sch (get_thread th) s = Ok (t, s).
Proof. intros H. apply on_sch_same. by apply deref_some. Qed.

Lemma map_thread_step th t g s : threads (sch s) !! th = Some t -> map_thread th g s = Ok (tt, set_thread th (g t) s).
Proof. intros H. unfold map_thread, on_sch, zoom, get_thread, deref, mbind, M_bind. by rewrite H. Qed.

Lemma set_thread_same th t s : threads (sch s) !! th = Some t -> set_thread th t s = s.
Proof.
  intros H. unfold set_thread. rewrite insert_id by done. destruct s as [[] ? ? ? ? ?]. done.
Qed.

(** The action a thread's process has for a signal. *)
Definition action (th sig : Z) (s : sig_state) : option sigaction :=
  t ← threads (sch s) !! th; p ← procs s !! t_parent t; sighand p !! Z.to_nat (sig - 1).

Lemma action_at th sig t p s : threads (sch s) !! th = Some t -> procs s !! t_parent t = Some p ->
  action th sig s = sighand p !! Z.to_nat (sig - 1).
Proof. intros Ht Hp. unfold action. rewrite Ht. simpl. by rewrite Hp. Qed.

Definition ignores (a : sigaction) (sig : Z) : bool := (sa_handler a =? 1) || ((sa_handler a =? 0) && sig_kernel_ignore sig).

Lemma sig_ignored_step th sig x a s : sigs s !! th = Some x -> action th sig s = Some a ->
  sig_ignored th sig s = Ok (negb (sigismember (blocked x) sig) && ignores a sig, s).
Proof.
  intros Hx Ha. unfold sig_ignored. rewrite (bind_step _ _ _ x s) by by apply deref_some.
  destruct (sigismember _ _); [done|]. unfold action in Ha.
  destruct (threads (sch s) !! th) as [t|] eqn:Ht; simplify_eq/=.
  destruct (procs s !! t_parent t) as [p|] eqn:Hp; simplify_eq/=.
  rewrite (bind_step _ _ _ t s) by by apply thread_step.
  rewrite (bind_step _ _ _ p s) by by apply deref_some.
  rewrite (bind_step _ _ _ a s) by by apply deref_some. done.
Qed.

(** What signal delivery finds: the current thread and its process, their
    fields, and the trap frame. *)
Record at_trap (cur proc regs : Z) (t : thread) (x : sig_thread) (p : process) (r : interrupt_registers) (s : sig_state) : Prop := {
  tr_cur : current_thread (sch s) = cur;
  tr_proc : current_process (sch s) = proc;
  tr_thread : threads (sch s) !! cur = Some t;
  tr_parent : t_parent t = proc;
  tr_sig : sigs s !! cur = Some x;
  tr_process : procs s !! proc = Some p;
  tr_regs : traps s !! regs = Some r }.

(** The registers a handler interrupts: a system call is made to return [-EINTR]. *)
Definition interrupted (r : interrupt_registers) : interrupt_registers :=
  if r_int_no r =? 0x7F then r <| r_eax := u32 (- EINTR) |> else r.

(** The machine once the handler [a] of [signum] is set up. *)
Definition delivered (cur regs : Z) (t : thread) (x : sig_thread) (r : interrupt_registers) (signum restored : Z)
  (a : sigaction) (s : sig_state) : sig_state :=
  let frame := u32 (r_useresp r - sizeof_frame) in
  (set_thread cur (t <| t_pending := sigdelset (t_pending t) signum |>) s)
    <| sigs := <[cur := mk_sig_thread (Z.lor (blocked x) (Z.lor (sigmask signum) (sa_mask a))) true (interrupted r)]> (sigs s) |>
    <| traps := <[regs := (interrupted r) <| r_useresp := frame |> <| r_eip := sa_handler a |>]> (traps s) |>
    <| frames := <[frame := mk_frame sigreturn_addr signum (signaling x) restored (interrupted r)]> (frames s) |>.

(** Delivery up to the assertion. *)
Definition accepted (cur regs : Z) (t : thread) (x : sig_thread) (r : interrupt_registers) (signum : Z) (s : sig_state) : sig_state :=
  (set_thread cur (t <| t_pending := sigdelset (t_pending t) signum |>) s)
    <| sigs := <[cur := x <| signaling := true |> <| uregs := interrupted r |>]> (sigs s) |>
    <| traps := <[regs := interrupted r]> (traps s) |>.

Lemma handle_signal_accepts cur proc regs restored t x p r a s :
  at_trap cur proc regs t x p r s ->
  let signum := next_signal (t_pending t) (blocked x) in
  signum <> 0 -> sigismember (blocked x) signum = false ->
  sighand p !! Z.to_nat (signum - 1) = Some a ->
  let s1 := accepted cur regs t x r signum s in
  handle_signal regs restored s =
    (massert (negb (ignores a signum));;
     if sa_handler a =? 0 then
       massert (sig_fatal a signum);;
       put_process proc (p <| caused_signal := signum |>
         <| proc_flags := Z.land (Z.lor (proc_flags p) 4) (lnot32 (Z.lor 2 1)) |>);;
       put_sig cur (x <| signaling := false |> <| uregs := interrupted r |>);;
       map_pending cur (fun _ => 0);;
       mret (Exits signum)
     else if negb (sa_handler a =? 1) then
       let frame := u32 (r_useresp (interrupted r) - sizeof_frame) in
       put_frame frame (mk_frame sigreturn_addr signum (signaling x) restored (interrupted r));;
       put_regs regs ((interrupted r) <| r_useresp := frame |> <| r_eip := sa_handler a |>);;
       put_sig cur (x <| signaling := true |> <| uregs := interrupted r |>
         <| blocked := Z.lor (blocked x) (Z.lor (sigmask signum) (sa_mask a)) |>);;
       mret (if r_int_no r =? 0x7F then Usermode regs else Returned 0)
     else mret (Returned 0)) s1.
Proof.
  intros [Hcur Hproc Ht Hpar Hx Hp Hr] signum Hne Hblk Ha s1. unfold handle_signal.
  rewrite (bind_step _ _ _ cur s) by (rewrite <- Hcur; by apply on_sch_same).
  rewrite (bind_step _ _ _ t s) by by apply thread_step.
  rewrite (bind_step _ _ _ x s) by by apply deref_some.
  cbv zeta. fold signum. destruct (Z.eqb_spec (t_pending t) 0) as [E|_].
  { destruct Hne. unfold signum. by rewrite E. }
  rewrite (proj2 (Z.eqb_neq signum 0)) by done.
  rewrite (bind_step _ _ _ r s) by by apply deref_some.
  fold (interrupted r).
  set (sa := s <| traps := <[regs := interrupted r]> (traps s) |>).
  rewrite (bind_step _ _ _ tt sa) by done.
  set (sb := sa <| sigs := <[cur := x <| signaling := true |> <| uregs := interrupted r |>]> (sigs s) |>).
  rewrite (bind_step _ _ _ tt sb) by done.
  rewrite (bind_step _ _ _ tt s1) by (unfold map_pending; by rewrite (map_thread_step cur t)).
  rewrite (bind_step _ _ _ (ignores a signum) s1).
  2: { rewrite (sig_ignored_step cur signum (x <| signaling := true |> <| uregs := interrupted r |>) a s1).
    - replace (blocked (x <| signaling := true |> <| uregs := interrupted r |>)) with (blocked x) by done. by rewrite Hblk.
    - apply lookup_insert_eq.
    - rewrite <- Ha. apply (action_at _ _ (t <| t_pending := sigdelset (t_pending t) signum |>)); [apply lookup_insert_eq|].
      by rewrite <- Hpar in Hp. }
  destruct (ignores a signum); cbn [negb]; [done|].
  rewrite !(bind_step (massert true) _ s1 tt s1) by done.
  rewrite (bind_step _ _ _ proc s1) by (rewrite <- Hproc; by apply on_sch_same).
  rewrite (bind_step _ _ _ p s1) by by apply deref_some.
  rewrite (bind_step _ _ _ a s1) by by apply deref_some. done.
Qed.

Lemma handle_signal_user cur proc regs restored t x p r a s :
  at_trap cur proc regs t x p r s ->
  let signum := next_signal (t_pending t) (blocked x) in
  signum <> 0 -> sigismember (blocked x) signum = false ->
  sighand p !! Z.to_nat (signum - 1) = Some a -> sa_handler a <> 0 -> sa_handler a <> 1 ->
  handle_signal regs restored s =
    Ok (if r_int_no r =? 0x7F then Usermode regs else Returned 0, delivered cur regs t x r signum restored a s).
Proof.
  intros Htr signum Hne Hblk Ha H0 H1. rewrite (handle_signal_accepts cur proc regs restored t x p r a s) by done.
  fold signum. unfold ignores. rewrite (proj2 (Z.eqb_neq _ _) H0), (proj2 (Z.eqb_neq _ _) H1). cbn [orb andb negb].
  unfold massert. rewrite (bind_step _ _ _ tt (accepted cur regs t x r signum s)) by done.
  unfold mbind, M_bind, put_frame, put_regs, put_sig, modify, mret, M_ret. do 2 f_equal.
  assert (r_useresp (interrupted r) = r_useresp r) as -> by (unfold interrupted; by destruct (_ =? _)).
  unfold delivered, accepted, set_thread. destruct s. record.simp. by rewrite !insert_insert_eq.
Qed.

(** The current thread's next signal, when it has one, is not blocked. *)
Lemma next_signal_unblocked pending blocked : is_u32 pending -> is_u32 blocked ->
  next_signal pending blocked <> 0 -> deliverable pending blocked (next_signal pending blocked).
Proof.
  intros Hp Hb Hne. destruct (next_signal_spec pending blocked Hp Hb) as [[E _]|(H1 & H2 & _)]; [done|].
  by apply next_signal_member.
Qed.

(** Delivery of a signal the process ignores. *)
Lemma handle_signal_ignored cur proc regs restored t x p r a s :
  at_trap cur proc regs t x p r s ->
  let signum := next_signal (t_pending t) (blocked x) in
  signum <> 0 -> sigismember (blocked x) signum = false ->
  sighand p !! Z.to_nat (signum - 1) = Some a -> ignores a signum = true ->
  handle_signal regs restored s = Fail Assert.
Proof.
  intros Htr signum Hne Hblk Ha Hi. rewrite (handle_signal_accepts cur proc regs restored t x p r a s) by done.
  fold signum. by rewrite Hi.
Qed.

(** Return from the handler. *)
Lemma sigreturn_step regs cur t x r f s : current_thread (sch s) = cur -> threads (sch s) !! cur = Some t ->
  sigs s !! cur = Some x -> traps s !! regs = Some r -> frames s !! u32 (r_useresp r - 4) = Some f ->
  sigreturn regs s = Ok (tt, set_thread cur (t <| t_flags := Z.land (t_flags t) (lnot32 TIF_SIGNAL_MANUAL) |>) s
    <| sigs := <[cur := mk_sig_thread (f_blocked f) (f_signaling f) (f_uregs f)]> (sigs s) |>
    <| traps := <[regs := f_uregs f]> (traps s) |>).
Proof.
  intros Hcur Ht Hx Hr Hf. unfold sigreturn.
  rewrite (bind_step _ _ _ cur s) by (rewrite <- Hcur; by apply on_sch_same).
  rewrite (bind_step _ _ _ r s) by by apply deref_some.
  rewrite (bind_step _ _ _ f s) by by apply deref_some.
  rewrite (bind_step _ _ _ x s) by by apply deref_some.
  set (s1 := s <| sigs := <[cur := mk_sig_thread (f_blocked f) (f_signaling f) (f_uregs f)]> (sigs s) |>).
  rewrite (bind_step _ _ _ tt s1) by done.
  set (s2 := s1 <| traps := <[regs := f_uregs f]> (traps s) |>).
  rewrite (bind_step _ _ _ tt s2) by done.
  unfold map_flags. by rewrite (map_thread_step cur t).
Qed.

(** ** Sending a signal to one process *)

(** A signal [do_kill] only records: not null, neither SIGCONT nor a stop. *)
Definition ordinary (signum : Z) : bool :=
  (1 <=? signum) && (signum <=? NSIG) && negb (signum =? SIGCONT) && negb (sig_kernel_stop signum).

(** The thread of the process of a pid, with what decides whether it gets the signal. *)
Record target (pid proc th : Z) (p : process) (t : thread) (x : sig_thread) (a : sigaction) (signum : Z) (s : sig_state) : Prop := {
  tg_find : (list_to_map (mprocess s) : gmap Z Z) !! pid = Some proc;
  tg_proc : procs s !! proc = Some p;
  tg_thread : proc_thread p = th;
  tg_state : threads (sch s) !! th = Some t;
  tg_sig : sigs s !! th = Some x;
  tg_action : action th signum s = Some a }.

(** The signal is recorded, unless it is ignored and not blocked. *)
Definition posted (th signum : Z) (t : thread) (x : sig_thread) (a : sigaction) (s : sig_state) : sig_state :=
  if negb (sigismember (blocked x) signum) && ignores a signum then s
  else set_thread th (t <| t_pending := Z.lor (t_pending t) (sigmask signum) |>) s.

Lemma ordinary_guards signum : ordinary signum = true ->
  negb (valid_signal signum) || (signum <? 0) = false /\ (signum =? 0) = false /\ (signum =? SIGCONT) = false /\
  sig_kernel_stop signum = false.
Proof.
  unfold ordinary, valid_signal, NSIG. rewrite !andb_true_iff, !negb_true_iff. intros [[[H1 H2] H3] H4].
  rewrite u32_small by (unfold is_u32; lia). repeat split; try done; lia.
Qed.

Lemma do_kill_ordinary n others pid proc th p t x a signum s : 0 < pid -> ordinary signum = true -> signum <> SIGKILL ->
  target pid proc th p t x a signum s ->
  do_kill (S n) others pid signum s = Ok (Returned 0, posted th signum t x a s).
Proof.
  intros Hpid Hord Hk [Hf Hp Hth Ht Hx Ha]. destruct (ordinary_guards _ Hord) as (E1 & E2 & E3 & E4).
  cbn [do_kill]. rewrite E1, E2, E3, E4, (proj2 (Z.ltb_lt _ _) Hpid).
  rewrite (bind_step _ _ _ proc s) by (unfold find_process_by_pid, gets; by rewrite Hf).
  rewrite (bind_step _ _ _ p s) by by apply deref_some. cbv zeta. rewrite Hth.
  rewrite (bind_step _ _ _ (current_thread (sch s)) s) by by apply on_sch_same.
  rewrite (bind_step _ _ _ (current_process (sch s)) s) by by apply on_sch_same.
  rewrite (bind_step _ _ _ _ s (sig_ignored_step th signum x a s Hx Ha)). unfold posted.
  destruct (negb _ && _); cbn [negb]; [done|].
  unfold map_pending. rewrite (bind_step _ _ _ _ _ (map_thread_step th t _ s Ht)), (proj2 (Z.eqb_neq _ _) Hk). done.
Qed.

Lemma action_set_thread th th' sig t t' s : threads (sch s) !! th = Some t -> t_parent t' = t_parent t ->
  action th' sig (set_thread th t' s) = action th' sig s.
Proof.
  intros Ht Hpar. unfold action. destruct (decide (th' = th)) as [->|Hne]; cbn.
  - rewrite lookup_insert_eq, Ht. cbn. by rewrite Hpar.
  - by rewrite lookup_insert_ne.
Qed.

Lemma posted_target pid proc th p t x a signum s : target pid proc th p t x a signum s ->
  exists t', target pid proc th p t' x a signum (posted th signum t x a s) /\
    posted th signum t' x a (posted th signum t x a s) = posted th signum t x a s.
Proof.
  intros [Hf Hp Hth Ht Hx Ha]. unfold posted. destruct (negb _ && _) eqn:E.
  { exists t. by split. }
  set (t' := t <| t_pending := Z.lor (t_pending t) (sigmask signum) |>). exists t'. split.
  - split; [done|done|done|apply lookup_insert_eq|done|]. by rewrite (action_set_thread _ _ _ t).
  - assert (t' <| t_pending := Z.lor (t_pending t') (sigmask signum) |> = t') as ->.
    { unfold t'. destruct t. record.simp. f_equal. by rewrite <- Z.lor_assoc, Z.lor_diag. }
    apply set_thread_same. apply lookup_insert_eq.
Qed.

Lemma posted_frame th signum t x a s : mprocess (posted th signum t x a s) = mprocess s /\ procs (posted th signum t x a s) = procs s.
Proof. unfold posted. by destruct (_ && _). Qed.

Lemma posted_others th signum t x a s th' : th' <> th -> threads (sch (posted th signum t x a s)) !! th' = threads (sch s) !! th'.
Proof. intros H. unfold posted. destruct (_ && _); [done|]. cbn. by rewrite lookup_insert_ne. Qed.

(** ** Sending a signal to a group *)

(** The walk over the table: the members of the group, each by a signal to the
    process whose pid is the group's. *)
Lemma walk_group (kill : Z -> M sig_state control) g s s' (l : list (Z * Z)) :
  procs s' = procs s -> kill g s = Ok (Returned 0, s') -> kill g s' = Ok (Returned 0, s') ->
  Forall (fun e => is_Some (procs s !! e.2)) l ->
  let walk := foldr (fun e k => p ← get_process e.2; andthen (if gid p =? g then kill (gid p) else mret (Returned 0)) k)
                (mret (Returned 0)) l in
  walk s' = Ok (Returned 0, s') /\
  (Exists (fun e => gid <$> procs s !! e.2 = Some g) l -> walk s = Ok (Returned 0, s')).
Proof.
  intros Hpr Hk Hk' Hl. cbv zeta. induction Hl as [|e l [p Hp] Hl [IH1 IH2]]; cbn [foldr].
  { split; [done|]. by intros H%Exists_nil. }
  split.
  - rewrite (bind_step _ _ _ p s') by (apply deref_some; by rewrite Hpr). unfold andthen at 1.
    destruct (Z.eqb_spec (gid p) g) as [->|_]; [rewrite (bind_step _ _ _ _ _ Hk')|rewrite (bind_step _ _ _ (Returned 0) s') by done]; exact IH1.
  - rewrite Exists_cons, Hp. cbn. intros Hex. rewrite (bind_step _ _ _ p s) by by apply deref_some. unfold andthen at 1.
    destruct (Z.eqb_spec (gid p) g) as [E|E].
    + rewrite E, (bind_step _ _ _ _ _ Hk). exact IH1.
    + rewrite (bind_step _ _ _ (Returned 0) s) by done. apply IH2. destruct Hex as [[= ?]|Hex]; [done|exact Hex].
Qed.

Lemma walk_group_fails (kill : Z -> M sig_state control) g s (l : list (Z * Z)) f : kill g s = Fail f ->
  Forall (fun e => is_Some (procs s !! e.2)) l -> Exists (fun e => gid <$> procs s !! e.2 = Some g) l ->
  foldr (fun e k => p ← get_process e.2; andthen (if gid p =? g then kill (gid p) else mret (Returned 0)) k)
    (mret (Returned 0)) l s = Fail f.
Proof.
  intros Hk Hl Hex. induction Hl as [|e l [p Hp] Hl IH]; [by apply Exists_nil in Hex|]. cbn [foldr].
  rewrite (bind_step _ _ _ p s) by by apply deref_some. unfold andthen at 1.
  rewrite Exists_cons, Hp in Hex. destruct (Z.eqb_spec (gid p) g) as [E|E].
  - by rewrite E, (bind_fail _ _ _ _ Hk).
  - rewrite (bind_step _ _ _ (Returned 0) s) by done. apply IH. destruct Hex as [[= ?]|Hex]; [done|exact Hex].
Qed.

(** ** What a stop or a continuation changes *)

(** The flags of a process that is told to stop or to continue. *)
Definition job_flags (signum f : Z) : Z :=
  if signum =? SIGCONT then Z.land (Z.lor f 2) (lnot32 1) else Z.land (Z.lor f 1) (lnot32 2).

Lemma job_control_guards signum : sig_kernel_stop signum = true \/ signum = SIGCONT ->
  negb (valid_signal signum) || (signum <? 0) = false /\ (signum =? 0) = false.
Proof.
  intros [H| ->]; [|done]. unfold sig_kernel_stop, siginmask, SIGRTMIN in H. unfold valid_signal, NSIG.
  rewrite u32_small by (unfold is_u32; lia). split; lia.
Qed.


(** ** Job control runs to its end *)

#[local] Abbreviation sched_ok :=
  (sched_ok kernel_ready_list system_ready_list app_ready_list waiting_list terminated_list offsetof_sched_sibling).
Definition scheduled (ths : list Z) (s : sig_state) : Prop := exists Q, sched_ok ths Q (sch s).

(** Only the scheduler's lists and the threads' records differ. *)
Record same_rest (s s' : sig_state) : Prop := {
  sm_cur : current_thread (sch s') = current_thread (sch s);
  sm_proc : current_process (sch s') = current_process (sch s);
  sm_sigs : sigs s' = sigs s;
  sm_procs : procs s' = procs s;
  sm_table : mprocess s' = mprocess s }.

Lemma update_thread_total ths th t st s : scheduled ths s -> (length ths <= fuel)%nat -> threads (sch s) !! th = Some t ->
  exists s', update_thread th st s = Ok (tt, s') /\ scheduled ths s' /\ same_rest s s' /\
    threads (sch s') = <[th := with_state st t]> (threads (sch s)).
Proof.
  intros [Q Hok] Hfuel Ht. destruct (decide (t_state t = st)) as [E|E].
  - exists s. split; [|split; [by exists Q|split; [done|]]].
    + apply on_sch_same. unfold Sched.update_thread. rewrite (bind_step _ _ _ t (sch s)) by by apply deref_some.
      by rewrite decide_True.
    + rewrite insert_id; [done|]. rewrite Ht. f_equal. destruct t. cbn in *. by subst.
  - destruct (update_thread_ok _ _ _ _ _ _ _ ths Q (sch s) th t st Hok Hfuel Ht E) as (p' & E1 & Hok' & _).
    match type of E1 with _ = Ok (tt, ?c) => exists (s <| sch := c |>) end.
    split; [unfold on_sch, zoom; by rewrite E1|]. split; [eexists; exact Hok'|done].
Qed.

(** Recording a signal does not move a thread. *)
Lemma scheduled_pending ths th t v s : scheduled ths s -> threads (sch s) !! th = Some t ->
  scheduled ths (set_thread th (t <| t_pending := v |>) s).
Proof.
  intros [Q Hok] Ht. exists Q. set (t' := t <| t_pending := v |>).
  assert (forall th' u, <[th := t']> (threads (sch s)) !! th' = Some u -> exists u0, threads (sch s) !! th' = Some u0 /\
    t_state u = t_state u0 /\ t_policy u = t_policy u0 /\ t_parent u = t_parent u0 /\ t_kernel_stack u = t_kernel_stack u0) as Hold.
  { intros th' u [[<- <-]|[_ Hu]]%lookup_insert_Some; [by exists t|by exists u]. }
  destruct Hok as [H1 H2 H3 H4 H5 (tc & H6 & H7)]. split; [done| | |done| |].
  - intros th'. rewrite H2. cbn. destruct (decide (th' = th)) as [->|]; [|by rewrite lookup_insert_ne].
    rewrite lookup_insert_eq, Ht. naive_solver.
  - intros th' u h (u0 & Hu0 & E1 & E2 & _)%Hold Hh. rewrite E1, E2. by apply H3.
  - intros th' u (u0 & Hu0 & _ & _ & E3 & _)%Hold. rewrite E3. by apply (H5 th').
  - cbn. destruct (decide (current_thread (sch s) = th)) as [E|]; [|rewrite lookup_insert_ne by done; by exists tc].
    rewrite E, lookup_insert_eq. exists t'. rewrite E, Ht in H6. by injection H6 as <-.
Qed.

Lemma wake_up_total ths l s : scheduled ths s -> (length ths <= fuel)%nat ->
  Forall (fun th => is_Some (threads (sch s) !! th)) l ->
  exists s', wake_up l s = Ok (tt, s') /\ scheduled ths s' /\ same_rest s s' /\
    forall th, th ∉ l -> threads (sch s') !! th = threads (sch s) !! th.
Proof.
  intros Hs Hfuel. revert s Hs. induction l as [|th l IH]; intros s Hs Hl; unfold wake_up; cbn [foldr].
  { exists s. by split. }
  apply list.Forall_cons in Hl as [[t Ht] Hl].
  destruct (update_thread_total ths th t THREAD_READY s Hs Hfuel Ht) as (s1 & E1 & Hs1 & [] & Hth1).
  rewrite (bind_step _ _ _ _ _ E1). fold (wake_up l).
  destruct (IH s1 Hs1) as (s2 & E2 & Hs2 & [] & Hth2).
  { eapply list.Forall_impl; [exact Hl|]. intros th' [t' Ht']. cbn. rewrite Hth1.
    destruct (decide (th' = th)) as [->|]; [rewrite lookup_insert_eq; eauto|rewrite lookup_insert_ne by done; eauto]. }
  exists s2. split; [done|]. split; [done|]. split; [split; congruence|].
  intros th' [Hne Hnin]%not_elem_of_cons. rewrite Hth2 by done. by rewrite Hth1, lookup_insert_ne.
Qed.

Lemma scheduled_posted ths th signum t x a s : scheduled ths s -> threads (sch s) !! th = Some t ->
  scheduled ths (posted th signum t x a s) /\ same_rest s (posted th signum t x a s).
Proof. intros Hs Ht. unfold posted. destruct (_ && _); [by split|]. split; [by apply scheduled_pending|done]. Qed.

(** Threads, processes and their signal fields are there, with an action for every signal. *)
Record wf (s : sig_state) : Prop := {
  wf_threads : forall th t, threads (sch s) !! th = Some t ->
    is_Some (sigs s !! th) /\ exists p, procs s !! t_parent t = Some p /\ length (sighand p) = Z.to_nat NSIG;
  wf_procs : forall a p, procs s !! a = Some p -> is_Some (threads (sch s) !! proc_thread p) }.

Lemma wf_target a p signum s : wf s -> procs s !! a = Some p -> (list_to_map (mprocess s) : gmap Z Z) !! proc_pid p = Some a ->
  1 <= signum <= NSIG -> exists t x act, target (proc_pid p) a (proc_thread p) p t x act signum s.
Proof.
  intros [Hth Hpr] Hp Hf Hs. destruct (Hpr a p Hp) as [t Ht]. destruct (Hth _ _ Ht) as ([x Hx] & p' & Hp' & Hlen).
  destruct (lookup_lt_is_Some_2 (sighand p') (Z.to_nat (signum - 1))) as [act Hact].
  { rewrite Hlen. unfold NSIG in *. lia. }
  exists t, x, act. split; try done. by rewrite (action_at _ _ t p').
Qed.

(** Moving a thread or changing what is pending keeps this. *)
Lemma wf_set s s' th t t' : wf s -> threads (sch s) !! th = Some t -> t_parent t' = t_parent t ->
  threads (sch s') = <[th := t']> (threads (sch s)) -> sigs s' = sigs s -> procs s' = procs s -> wf s'.
Proof.
  intros [H1 H2] Ht Hpar E1 E2 E3. split; rewrite E1, ?E2, E3.
  - intros th' u [[<- <-]|[_ Hu]]%lookup_insert_Some; [rewrite Hpar|]; by apply H1.
  - intros a p Hp. destruct (H2 a p Hp) as [u Hu]. destruct (decide (proc_thread p = th)) as [->|];
      [rewrite lookup_insert_eq|rewrite lookup_insert_ne by done]; eauto.
Qed.

Lemma wf_proc me m m' s s' : wf s -> procs s !! me = Some m -> sighand m' = sighand m -> proc_thread m' = proc_thread m ->
  sch s' = sch s -> sigs s' = sigs s -> procs s' = <[me := m']> (procs s) -> wf s'.
Proof.
  intros [H1 H2] Hm E1 E2 E3 E4 E5. split; rewrite E3, ?E4, E5.
  - intros th t Ht. destruct (H1 th t Ht) as (Hx & p & Hp & Hlen). split; [done|].
    destruct (decide (t_parent t = me)) as [E|]; [|rewrite lookup_insert_ne by done; eauto].
    rewrite E in Hp |- *. rewrite lookup_insert_eq. exists m'. split; [done|]. rewrite E1. congruence.
  - intros a p [[<- <-]|[_ Hp]]%lookup_insert_Some; [rewrite E2; by apply (H2 me)|by apply (H2 a)].
Qed.

(** The tail of job control: SIGCHLD to the parent of the caller, whose waiters are woken. *)
Lemma notify_parent ths n others me m a q s : scheduled ths s -> wf s -> (length ths <= fuel)%nat ->
  procs s !! me = Some m -> parent m = a -> procs s !! a = Some q -> 0 < proc_pid q ->
  (list_to_map (mprocess s) : gmap Z Z) !! proc_pid q = Some a -> Forall (fun th => is_Some (threads (sch s) !! th)) (wait_chld q) ->
  exists s', (m ← get_process me; q ← get_process (parent m);
      andthen (do_kill (S n) others (proc_pid q) SIGCHLD)
        (q ← get_process (parent m); wake_up (wait_chld q);; mret (Returned 0))) s = Ok (Returned 0, s') /\
    scheduled ths s' /\ procs s' = procs s /\
    forall th', th' ∉ wait_chld q -> t_state <$> threads (sch s') !! th' = t_state <$> threads (sch s) !! th'.
Proof.
  intros Hs Hwf Hfuel Hm Ha Hq Hpos Hf Hw.
  destruct (wf_target a q SIGCHLD s Hwf Hq Hf) as (t & x & act & Htg); [unfold SIGCHLD, NSIG; lia|].
  set (th := proc_thread q) in *.
  rewrite (bind_step _ _ _ m s), Ha by by apply deref_some.
  rewrite (bind_step _ _ _ q s) by by apply deref_some.
  destruct (scheduled_posted ths th SIGCHLD t x act s Hs (tg_state _ _ _ _ _ _ _ _ _ Htg)) as [Hs1 [_ _ _ Hpr _]].
  set (s1 := posted th SIGCHLD t x act s) in *.
  unfold andthen. rewrite (bind_step _ _ _ (Returned 0) s1) by by apply (do_kill_ordinary n others _ a th q).
  rewrite (bind_step _ _ _ q s1) by (apply deref_some; by rewrite Hpr).
  destruct (wake_up_total ths (wait_chld q) s1 Hs1 Hfuel) as (s2 & E2 & Hs2 & [] & Hth2).
  { eapply list.Forall_impl; [exact Hw|]. intros th' [t' Ht']. destruct (decide (th' = th)) as [->|].
    - unfold s1, posted. destruct (_ && _); [by exists t'|]. cbn. rewrite lookup_insert_eq. eauto.
    - cbn. unfold s1. rewrite posted_others by done. eauto. }
  exists s2. rewrite (bind_step _ _ _ tt s2) by done. split; [done|]. split; [done|]. split; [congruence|].
  intros th' Hth'. rewrite Hth2 by done. destruct (decide (th' = th)) as [->|Hne].
  - unfold s1, posted. destruct (_ && _); [done|]. cbn. by rewrite lookup_insert_eq, (tg_state _ _ _ _ _ _ _ _ _ Htg).
  - unfold s1. by rewrite posted_others.
Qed.

(** The state of the thread a job control signal is sent to. *)
Definition job_state (signum : Z) : thread_state := if signum =? SIGCONT then THREAD_READY else THREAD_WAITING.

Lemma job_control_total ths n others pid signum proc p m q s : let me := current_process (sch s) in
  scheduled ths s -> wf s -> (length ths <= fuel)%nat ->
  0 < pid -> sig_kernel_stop signum = true \/ signum = SIGCONT ->
  (list_to_map (mprocess s) : gmap Z Z) !! pid = Some proc -> procs s !! proc = Some p ->
  proc_thread p <> current_thread (sch s) -> is_Some (threads (sch s) !! current_thread (sch s)) ->
  procs s !! me = Some m -> parent m <> me -> procs s !! parent m = Some q -> 0 < proc_pid q ->
  (list_to_map (mprocess s) : gmap Z Z) !! proc_pid q = Some (parent m) ->
  Forall (fun th => is_Some (threads (sch s) !! th)) (wait_chld q) -> proc_thread p ∉ wait_chld q ->
  exists s', do_kill (S (S n)) others pid signum s = Ok (Returned 0, s') /\ scheduled ths s' /\
    procs s' = <[me := m <| proc_flags := job_flags signum (proc_flags m) |>]> (procs s) /\
    t_state <$> threads (sch s') !! proc_thread p = Some (job_state signum).
Proof.
  intros me Hs Hwf Hfuel Hpid Hsig Hf Hp Hth [tc Htc] Hm Hne Hq Hqp Hqf Hw Hnw.
  destruct (job_control_guards _ Hsig) as [E1 E2]. remember (S n) as n1 eqn:En.
  cbn [do_kill]. rewrite E1, E2, (proj2 (Z.ltb_lt _ _) Hpid).
  rewrite (bind_step _ _ _ proc s) by (unfold find_process_by_pid, gets; by rewrite Hf).
  rewrite (bind_step _ _ _ p s) by by apply deref_some. cbv zeta.
  rewrite (bind_step _ _ _ (current_thread (sch s)) s) by by apply on_sch_same.
  rewrite (bind_step _ _ _ me s) by by apply on_sch_same.
  set (th := proc_thread p) in *. set (cur := current_thread (sch s)) in *.
  rewrite (proj2 (Z.eqb_neq th cur) Hth). cbn [negb mwhen].
  set (m' := m <| proc_flags := job_flags signum (proc_flags m) |>). set (P := <[me := m']> (procs s)).
  set (s1 := s <| procs := P |>).
  assert (map_proc_flags me (job_flags signum) s = Ok (tt, s1)) as Ef.
  { unfold map_proc_flags. by rewrite (bind_step _ _ _ m s) by by apply deref_some. }
  assert (wf s1) as Hwf1 by by apply (wf_proc me m m' s).
  assert (forall v, exists s3, (map_pending cur v;; update_thread th (job_state signum)) s1 = Ok (tt, s3) /\
    scheduled ths s3 /\ wf s3 /\ mprocess s3 = mprocess s /\ procs s3 = P /\
    t_state <$> threads (sch s3) !! th = Some (job_state signum) /\
    forall x, is_Some (threads (sch s) !! x) -> is_Some (threads (sch s3) !! x)) as Hmid.
  { intros v. unfold map_pending. set (t1 := tc <| t_pending := v (t_pending tc) |>).
    rewrite (bind_step _ _ _ tt (set_thread cur t1 s1)) by by apply (map_thread_step cur tc).
    assert (scheduled ths (set_thread cur t1 s1)) as Hs2 by by apply (scheduled_pending ths cur tc).
    assert (wf (set_thread cur t1 s1)) as Hwf2 by by apply (wf_set s1 _ cur tc t1).
    destruct (wf_procs s Hwf _ _ Hp) as [t Ht].
    assert (threads (sch (set_thread cur t1 s1)) !! th = Some t) as Ht2 by (cbn; by rewrite lookup_insert_ne).
    destruct (update_thread_total ths th t (job_state signum) _ Hs2 Hfuel Ht2) as (s3 & E3 & Hs3 & [_ _ Hsg Hpr Hmp] & Hts).
    exists s3. split; [done|]. split; [done|]. split; [by apply (wf_set _ _ th t (with_state (job_state signum) t) Hwf2)|].
    split; [done|]. split; [done|]. split; [by rewrite Hts, lookup_insert_eq|].
    intros x [u Hu]. rewrite Hts. cbn. rewrite !lookup_insert_is_Some'. eauto. }
  assert (forall k : M sig_state control, (exists s', k s1 = Ok (Returned 0, s') /\ scheduled ths s' /\ procs s' = P /\
      t_state <$> threads (sch s') !! th = Some (job_state signum)) ->
    exists s', (map_proc_flags me (job_flags signum);; k) s = Ok (Returned 0, s') /\ scheduled ths s' /\ procs s' = P /\
      t_state <$> threads (sch s') !! th = Some (job_state signum)) as Hgo.
  { intros k (s' & Hk & Hrest). exists s'. by rewrite (bind_step _ _ _ _ _ Ef). }
  assert (forall v, exists s', (map_pending cur v;; update_thread th (job_state signum);; m ← get_process me; q ← get_process (parent m);
      andthen (do_kill n1 others (proc_pid q) SIGCHLD)
        (q ← get_process (parent m); wake_up (wait_chld q);; mret (Returned 0))) s1 = Ok (Returned 0, s') /\
      scheduled ths s' /\ procs s' = P /\ t_state <$> threads (sch s') !! th = Some (job_state signum)) as Hall.
  { intros v. destruct (Hmid v) as (s3 & E3 & Hs3 & Hwf3 & Hmp & Hpr & Hst & Hdom).
    apply bind_ok in E3 as ([] & s2 & E2' & E3). rewrite (bind_step _ _ _ _ _ E2'), (bind_step _ _ _ _ _ E3). subst n1.
    destruct (notify_parent ths n others me m' (parent m) q s3) as (s' & E & Hs' & Hpr' & Hst'); try done.
    - rewrite Hpr. apply lookup_insert_eq.
    - rewrite Hpr. unfold P. by rewrite lookup_insert_ne.
    - by rewrite Hmp.
    - eapply list.Forall_impl; [exact Hw|]. intros x Hx. by apply Hdom.
    - exists s'. split; [exact E|]. split; [done|]. split; [congruence|]. by rewrite Hst'. }
  unfold job_flags, job_state in Hgo, Hall |- *. destruct (Z.eqb_spec signum SIGCONT) as [Ec|Ec].
  2: destruct Hsig as [-> | ->]; [|done].
  all: apply Hgo, Hall.
Qed.

(** ** The theorems *)

Lemma sigprocmask_step how set b x cur s : current_thread (sch s) = cur -> sigs s !! cur = Some x ->
  (how = 0 /\ b = Z.lor (blocked x) set \/ how = 1 /\ b = Z.land (blocked x) (lnot32 set) \/ how = 2 /\ b = set) ->
  do_sigprocmask how (Some set) s =
    Ok ((0, blocked x), s <| sigs := <[cur := x <| blocked := Z.land b (lnot32 SIG_KERNEL_ONLY_MASK) |>]> (sigs s) |>).
Proof.
  intros Hcur Hx Hb. unfold do_sigprocmask.
  rewrite (bind_step _ _ _ cur s) by (rewrite <- Hcur; by apply on_sch_same).
  rewrite (bind_step _ _ _ x s) by by apply deref_some.
  by destruct Hb as [[-> ->]|[[-> ->]|[-> ->]]].
Qed.

(** C34: [next_signal] returns 0 exactly when no signal is both pending and
    unblocked; otherwise it returns one that is, and every other one that is
    comes later: the signals that dump core go first, SIGCONT last, and the
    smaller number first within a class. *)
Theorem next_signal_correct pending blocked : is_u32 pending -> is_u32 blocked ->
  let sig := next_signal pending blocked in
  (sig = 0 <-> forall i, ~ deliverable pending blocked i) /\
  (sig <> 0 -> deliverable pending blocked sig /\ forall i, deliverable pending blocked i -> i = sig \/ sooner sig i).
Proof.
  intros Hp Hb sig. pose proof (next_signal_member pending blocked Hp Hb) as Hmem.
  destruct (next_signal_spec pending blocked Hp Hb) as [[E Hno]|(H1 & H2 & H3)].
  - fold sig in E. split; [|done]. split; [|done]. intros _ i Hd. assert (1 <= i <= 32) as Hi by apply Hd.
    apply Hmem in Hd; [|done]. by rewrite Hno in Hd.
  - fold sig in H1, H2, H3. assert (deliverable pending blocked sig) as Hd by by apply Hmem.
    split; [split; [intros E; lia|intros Hno; by destruct (Hno sig)]|].
    intros _. split; [done|]. intros i Hi. assert (1 <= i <= 32) as Hr by apply Hi. apply H3; [done|]. by apply Hmem.
Qed.

(** C35: A handler is entered with its frame below the user stack pointer, its
    signal no longer pending and blocked together with its mask; and whatever
    it does to the rest of the machine, returning from it (the page fault at
    [sigreturn] with the stack pointer just above the frame's first word)
    restores the interrupted registers, the mask and the signalling flag; a
    system call that was interrupted returns [-EINTR]. *)
Theorem signal_handler_roundtrip cur proc regs restored t x p r a s :
  at_trap cur proc regs t x p r s -> is_u32 (t_pending t) -> is_u32 (blocked x) ->
  let signum := next_signal (t_pending t) (blocked x) in
  signum <> 0 -> sighand p !! Z.to_nat (signum - 1) = Some a -> sa_handler a <> 0 -> sa_handler a <> 1 ->
  sigreturn_addr <> PROCESS_TRAPPED_PAGE_FAULT ->
  let frame := u32 (r_useresp r - sizeof_frame) in
  exists s1, handle_signal regs restored s = Ok (if r_int_no r =? 0x7F then Usermode regs else Returned 0, s1) /\
    (r_eip <$> traps s1 !! regs) = Some (sa_handler a) /\ (r_useresp <$> traps s1 !! regs) = Some frame /\
    (t_pending <$> threads (sch s1) !! cur) = Some (sigdelset (t_pending t) signum) /\
    (blocked <$> sigs s1 !! cur) = Some (Z.lor (blocked x) (Z.lor (sigmask signum) (sa_mask a))) /\
    forall s2 regs2 t2 x2 r2, current_thread (sch s2) = cur -> threads (sch s2) !! cur = Some t2 -> sigs s2 !! cur = Some x2 ->
      frames s2 !! frame = frames s1 !! frame ->
      traps s2 !! regs2 = Some r2 -> r_cs r2 = 0x1B -> r_useresp r2 = u32 (frame + 4) ->
      exists s3, thread_page_fault regs2 sigreturn_addr s2 = Ok (Returned 1, s3) /\
        traps s3 !! regs2 = Some (interrupted r) /\
        sigs s3 !! cur = Some (mk_sig_thread restored (signaling x) (interrupted r)) /\
        procs s3 = procs s2 /\ t_pending <$> threads (sch s3) !! cur = Some (t_pending t2).
Proof.
  intros Htr Hp Hb signum Hne Ha H0 H1 Haddr frame.
  assert (deliverable (t_pending t) (blocked x) signum) as (_ & _ & Hblk) by by apply next_signal_unblocked.
  set (s1 := delivered cur regs t x r signum restored a s). exists s1.
  split; [by apply (handle_signal_user cur proc regs restored t x p)|].
  assert (traps s1 !! regs = Some ((interrupted r) <| r_useresp := frame |> <| r_eip := sa_handler a |>)) as ->
    by apply lookup_insert_eq.
  assert (threads (sch s1) !! cur = Some (t <| t_pending := sigdelset (t_pending t) signum |>)) as -> by apply lookup_insert_eq.
  assert (sigs s1 !! cur = Some (mk_sig_thread (Z.lor (blocked x) (Z.lor (sigmask signum) (sa_mask a))) true (interrupted r)))
    as -> by apply lookup_insert_eq.
  assert (frames s1 !! frame = Some (mk_frame sigreturn_addr signum (signaling x) restored (interrupted r))) as ->
    by apply lookup_insert_eq.
  split_and!; [done..|]. intros s2 regs2 t2 x2 r2 Hcur Ht2 Hx2 Hf Hr2 Hcs Hsp.
  unfold thread_page_fault. rewrite (bind_step _ _ _ r2 s2) by by apply deref_some.
  rewrite Hcs, Z.eqb_refl, (proj2 (Z.eqb_neq _ _) Haddr), Z.eqb_refl.
  assert (frames s2 !! u32 (r_useresp r2 - 4) = Some (mk_frame sigreturn_addr signum (signaling x) restored (interrupted r))) as Hf2.
  { rewrite Hsp, u32_sub_l, Z.add_simpl_r. unfold frame. by rewrite u32_idem. }
  eexists. rewrite (bind_step _ _ _ _ _ (sigreturn_step regs2 cur t2 x2 r2 _ s2 Hcur Ht2 Hx2 Hr2 Hf2)). split; [done|].
  split; [apply lookup_insert_eq|]. split; [apply lookup_insert_eq|]. split; [done|].
  apply fmap_Some. eexists. split; [apply lookup_insert_eq|done].
Qed.

(** C36: A signal that arrives while it is blocked is recorded even when the
    process ignores it, and delivering it once it is unblocked fails the
    assertion of [handle_signal]: with the default action of SIGCHLD, blocking
    it, receiving one and unblocking it takes the kernel down. *)
Theorem unblocking_ignored_signal_panics n others cur proc regs pid t x p r a s :
  at_trap cur proc regs t x p r s -> cur <> 0 -> t_pending t = 0 -> blocked x = 0 -> signaling x = false ->
  u32 (regs + sizeof_regs) = t_kernel_stack t ->
  0 < pid -> (list_to_map (mprocess s) : gmap Z Z) !! pid = Some proc -> proc_thread p = cur ->
  sighand p !! Z.to_nat (SIGCHLD - 1) = Some a -> sa_handler a = 0 ->
  (do_sigprocmask 0 (Some (sigmask SIGCHLD));;
   do_kill (S n) others pid SIGCHLD;;
   do_sigprocmask 1 (Some (sigmask SIGCHLD));;
   signal_handler regs) s = Fail Assert.
Proof.
  intros [Hcur Hproc Ht Hpar Hx Hp Hr] Hnz Hpend Hblk Hsig Hstk Hpid Hf Hth Ha H0.
  set (x1 := x <| blocked := Z.land (Z.lor 0 (sigmask SIGCHLD)) (lnot32 SIG_KERNEL_ONLY_MASK) |>).
  set (s1 := s <| sigs := <[cur := x1]> (sigs s) |>).
  rewrite (bind_step _ _ _ (0, blocked x) s1) by (apply sigprocmask_step; [done|done|left; by rewrite Hblk]).
  set (t2 := t <| t_pending := Z.lor (t_pending t) (sigmask SIGCHLD) |>). set (s2 := set_thread cur t2 s1).
  assert (action cur SIGCHLD s1 = Some a) as Hact by (rewrite <- Ha; apply (action_at _ _ t); [done|by rewrite Hpar]).
  rewrite (bind_step _ _ _ (Returned 0) s2)
    by (rewrite (do_kill_ordinary n others pid proc cur p t x1 a); [done|done|done|done|split; try done; apply lookup_insert_eq]).
  set (x3 := x1 <| blocked := Z.land (Z.land (blocked x1) (lnot32 (sigmask SIGCHLD))) (lnot32 SIG_KERNEL_ONLY_MASK) |>).
  set (s3 := s2 <| sigs := <[cur := x3]> (sigs s2) |>).
  rewrite (bind_step _ _ _ (0, blocked x1) s3) by (apply sigprocmask_step; [done|apply lookup_insert_eq|naive_solver]).
  assert (threads (sch s3) !! cur = Some t2) as Ht3 by apply lookup_insert_eq.
  assert (sigs s3 !! cur = Some x3) as Hx3 by apply lookup_insert_eq.
  assert (t_pending t2 = sigmask SIGCHLD) as Hp2 by (unfold t2; record.simp; by rewrite Hpend).
  unfold signal_handler. rewrite (bind_step _ _ _ cur s3) by (rewrite <- Hcur; by apply on_sch_same).
  rewrite (proj2 (Z.eqb_neq _ _) Hnz).
  rewrite (bind_step _ _ _ t2 s3) by by apply thread_step. rewrite (bind_step _ _ _ x3 s3) by by apply deref_some.
  rewrite Hp2. change (signaling x3) with (signaling x). change (t_kernel_stack t2) with (t_kernel_stack t).
  rewrite Hsig, Hstk, Z.eqb_refl. cbn [orb negb]. change (sigmask SIGCHLD =? 0) with false. cbn [orb].
  assert (next_signal (t_pending t2) (blocked x3) = SIGCHLD) as Hn by (rewrite Hp2; by vm_compute).
  apply (handle_signal_ignored cur proc regs _ t2 x3 p r a); [by split|..]; rewrite ?Hn; try done.
  unfold ignores. by rewrite H0.
Qed.

(** [kill] of a process group signals its leader only: whatever its other
    members, each of them makes [do_kill] signal the process whose pid is the
    group's, so no other thread changes; and when the leader has exited, the
    null pointer the lookup returns is dereferenced. *)
Theorem group_kill_signals_leader n others g signum s : 2 <= g -> ordinary signum = true -> signum <> SIGKILL ->
  Forall (fun e => is_Some (procs s !! e.2)) (mprocess s) ->
  Exists (fun e => gid <$> procs s !! e.2 = Some g) (mprocess s) ->
  (forall proc th p t x a, target g proc th p t x a signum s ->
     exists s', do_kill (S (S n)) others (- g) signum s = Ok (Returned 0, s') /\ s' = posted th signum t x a s /\
       forall th', th' <> th -> threads (sch s') !! th' = threads (sch s) !! th') /\
  ((list_to_map (mprocess s) : gmap Z Z) !! g = None -> procs s !! 0 = None ->
     do_kill (S (S n)) others (- g) signum s = Fail Segv).
Proof.
  intros Hg Hord Hk Hall Hex. destruct (ordinary_guards _ Hord) as (E1 & E2 & E3 & E4).
  assert (forall o, (foldr (fun e k => p ← get_process e.2;
      andthen (if gid p =? g then do_kill (S n) others (gid p) signum else mret (Returned 0)) k)
      (mret (Returned 0)) (mprocess s)) s = o -> do_kill (S (S n)) others (- g) signum s = o) as Hgo.
  { intros o <-. remember (S n) as n1. cbn [do_kill].
    rewrite E1, E2, (proj2 (Z.ltb_ge 0 (- g))), (proj2 (Z.eqb_neq (- g) 0)), (proj2 (Z.eqb_neq (- g) (-1))) by lia.
    unfold for_each_process. rewrite (bind_step _ _ _ (mprocess s) s) by done. by rewrite Z.opp_involutive. }
  split.
  - intros proc th p t x a Htg. exists (posted th signum t x a s).
    destruct (posted_target _ _ _ _ _ _ _ _ _ Htg) as (t' & Htg' & Hidem).
    split; [|split; [done|intros; by apply posted_others]]. apply Hgo.
    apply (walk_group (fun g => do_kill (S n) others g signum) g); [apply posted_frame| | |done|done].
    + by apply (do_kill_ordinary n others g proc th p t x a); [lia|..].
    + rewrite (do_kill_ordinary n others g proc th p t' x a) by (done || lia). by rewrite Hidem.
  - intros Hnone H0. apply Hgo. apply (walk_group_fails (fun g => do_kill (S n) others g signum)); [|done|done].
    cbn [do_kill]. rewrite E1, E2, (proj2 (Z.ltb_lt 0 g)) by lia.
    rewrite (bind_step _ _ _ 0 s) by (unfold find_process_by_pid, gets; by rewrite Hnone).
    apply bind_fail. unfold get_process, deref. by rewrite H0.
Qed.

(** Stopping or continuing another process moves its thread but marks the
    caller: [do_kill] returns 0 with the target's thread waiting (ready for
    SIGCONT), and the only process whose flags change is the current one. *)
Theorem job_control_marks_caller ths n others pid signum proc p m q s : let me := current_process (sch s) in
  scheduled ths s -> wf s -> (length ths <= fuel)%nat ->
  0 < pid -> sig_kernel_stop signum = true \/ signum = SIGCONT ->
  (list_to_map (mprocess s) : gmap Z Z) !! pid = Some proc -> procs s !! proc = Some p -> proc <> me ->
  proc_thread p <> current_thread (sch s) -> is_Some (threads (sch s) !! current_thread (sch s)) ->
  procs s !! me = Some m -> parent m <> me -> procs s !! parent m = Some q -> 0 < proc_pid q ->
  (list_to_map (mprocess s) : gmap Z Z) !! proc_pid q = Some (parent m) ->
  Forall (fun th => is_Some (threads (sch s) !! th)) (wait_chld q) -> proc_thread p ∉ wait_chld q ->
  exists s', do_kill (S (S n)) others pid signum s = Ok (Returned 0, s') /\
    t_state <$> threads (sch s') !! proc_thread p = Some (job_state signum) /\
    procs s' !! proc = Some p /\ proc_flags <$> procs s' !! me = Some (job_flags signum (proc_flags m)).
Proof.
  intros me Hs Hwf Hfuel Hpid Hsig Hf Hp Hpm Hth Htc Hm Hne Hq Hqp Hqf Hw Hnw.
  destruct (job_control_total ths n others pid signum proc p m q s) as (s' & E & _ & Hpr & Hst); try done.
  exists s'. split; [done|]. split; [done|]. fold me in Hpr. rewrite Hpr. split; [by rewrite lookup_insert_ne|].
  by rewrite lookup_insert_eq.
Qed.

(** C37: A thread that sleeps in a system call and is woken by a signal it has a
    handler for leaves [schedule] for user mode without [unlock_scheduler]:
    the lock counter keeps the increment, while it is given back when nothing
    is pending. *)
Theorem interrupted_syscall_keeps_lock others cur proc t t1 x p r a s s1 :
  current_thread (sch s) = cur -> threads (sch s) !! cur = Some t -> t_state t <> THREAD_RUNNING ->
  0 <= scheduler_lock_counter (sch s) < 2 ^ 32 - 1 ->
  others (s <| sch := with_lock (scheduler_lock_counter (sch s) + 1) false (sch s) |>) = Ok (tt, s1) ->
  scheduler_lock_counter (sch s1) = scheduler_lock_counter (sch s) + 1 ->
  at_trap cur proc (u32 (t_kernel_stack t1 - sizeof_regs)) t1 x p r s1 -> is_u32 (t_pending t1) -> is_u32 (blocked x) ->
  Z.land (t_flags t1) TIF_SIGNAL_MANUAL = 0 ->
  let signum := next_signal (t_pending t1) (blocked x) in
  (signum <> 0 -> sighand p !! Z.to_nat (signum - 1) = Some a -> sa_handler a <> 0 -> sa_handler a <> 1 ->
     r_int_no r = 0x7F ->
     exists s2, schedule others s = Ok (Usermode (u32 (t_kernel_stack t1 - sizeof_regs)), s2) /\
       scheduler_lock_counter (sch s2) = scheduler_lock_counter (sch s) + 1) /\
  (t_pending t1 = 0 ->
     exists s2, schedule others s = Ok (Returned 0, s2) /\ scheduler_lock_counter (sch s2) = scheduler_lock_counter (sch s)).
Proof.
  intros Hcur Ht Hst Hlock Ho Hc1 Htr Hp Hb Hman signum.
  assert (forall o, (andthen
      (if negb (t_pending t1 =? 0) && (Z.land (t_flags t1) TIF_SIGNAL_MANUAL =? 0)
       then handle_signal (u32 (t_kernel_stack t1 - sizeof_regs)) (blocked x) else mret (Returned 0))
      (on_sch unlock_scheduler;; mret (Returned 0))) s1 = o -> schedule others s = o) as Hgo.
  { intros o <-. unfold schedule. rewrite (bind_step _ _ _ cur s) by (rewrite <- Hcur; by apply on_sch_same).
    rewrite (bind_step _ _ _ t s), decide_False by (done || by apply thread_step).
    rewrite (bind_step _ _ _ tt (s <| sch := with_lock (scheduler_lock_counter (sch s) + 1) false (sch s) |>)).
    2: { unfold on_sch, zoom, lock_scheduler, modify. by rewrite u32_small by (unfold is_u32; lia). }
    rewrite (bind_step _ _ _ _ _ Ho). rewrite (bind_step _ _ _ t1 s1) by (apply thread_step; apply Htr).
    by rewrite (bind_step _ _ _ x s1) by (apply deref_some; apply Htr). }
  rewrite Hman, Z.eqb_refl in Hgo. split.
  - intros Hne Ha H0 H1 Hint.
    assert (deliverable (t_pending t1) (blocked x) signum) as (_ & _ & Hblk) by by apply next_signal_unblocked.
    eexists. split; [apply Hgo|].
    + destruct (Z.eqb_spec (t_pending t1) 0) as [E|_]; [destruct Hne; unfold signum; by rewrite E|]. cbn [negb andb].
      unfold andthen. rewrite (bind_step _ _ _ _ _ (handle_signal_user cur proc _ (blocked x) t1 x p r a s1 Htr Hne Hblk Ha H0 H1)).
      by rewrite Hint.
    + done.
  - intros Hp0. eexists. split; [apply Hgo; by rewrite Hp0|]. cbn. rewrite Hc1, Z.add_simpl_r, u32_small; [done|unfold is_u32; lia].
Qed.

(** [sigprocmask] never leaves SIGKILL blocked, but the mask of an action is
    not filtered: while a handler whose mask has SIGKILL runs, SIGKILL is
    blocked and is not delivered whatever is pending. *)
Theorem handler_mask_blocks_sigkill cur proc regs restored t x p r a s :
  at_trap cur proc regs t x p r s -> is_u32 (t_pending t) -> is_u32 (blocked x) -> is_u32 (sa_mask a) ->
  (forall how set b old s', do_sigprocmask how (Some set) s = Ok ((b, old), s') ->
     b = 0 -> exists x', sigs s' !! cur = Some x' /\ sigismember (blocked x') SIGKILL = false) /\
  let signum := next_signal (t_pending t) (blocked x) in
  (signum <> 0 -> sighand p !! Z.to_nat (signum - 1) = Some a -> sa_handler a <> 0 -> sa_handler a <> 1 ->
   sigismember (sa_mask a) SIGKILL = true ->
   exists c s1 x1, handle_signal regs restored s = Ok (c, s1) /\ sigs s1 !! cur = Some x1 /\
     forall pending, is_u32 pending -> next_signal pending (blocked x1) <> SIGKILL).
Proof.
  intros Htr Hp Hb Hm. split.
  - intros how set b old s'. destruct Htr as [Hcur _ _ _ Hx _ _]. unfold do_sigprocmask.
    rewrite (bind_step _ _ _ cur s) by (rewrite <- Hcur; by apply on_sch_same).
    rewrite (bind_step _ _ _ x s) by by apply deref_some.
    destruct (if how =? 0 then _ else _) as [b'|]; intros E Hz; [|by simplify_eq/=].
    rewrite (bind_step _ _ _ tt (s <| sigs := <[cur := x <| blocked := Z.land b' (lnot32 SIG_KERNEL_ONLY_MASK) |>]> (sigs s) |>)) in E
      by done. injection E as _ _ <-. eexists. split; [apply lookup_insert_eq|].
    change (sigismember (Z.land b' (lnot32 SIG_KERNEL_ONLY_MASK)) SIGKILL = false). rewrite ismember_land. change (sigismember (lnot32 SIG_KERNEL_ONLY_MASK) SIGKILL) with false. apply andb_false_r.
  - intros signum Hne Ha H0 H1 Hk.
    assert (deliverable (t_pending t) (blocked x) signum) as (Hr & _ & Hblk) by by apply next_signal_unblocked.
    eexists _, _, _. split; [by apply (handle_signal_user cur proc regs restored t x p r a)|]. split; [apply lookup_insert_eq|].
    cbn [blocked]. fold signum. set (b := Z.lor (blocked x) (Z.lor (sigmask signum) (sa_mask a))).
    assert (is_u32 b) as Hb' by (apply is_u32_lor; [done|apply is_u32_lor; [apply is_u32_bit; unfold NSIG in Hr; lia|done]]).
    intros pending Hpd E. destruct (next_signal_unblocked pending b Hpd Hb') as (_ & _ & Hn); rewrite E in *; [done|].
    unfold sigismember in Hn, Hk. unfold b in Hn. by rewrite !Z.lor_spec, Hk, !orb_true_r in Hn.
Qed.

(** [sigsuspend] with a pending signal its own mask blocks returns at once and
    leaves that mask in place of the saved one. *)
Lemma sigsuspend_keeps_mask irqs others set cur t x s :
  current_thread (sch s) = cur -> threads (sch s) !! cur = Some t -> sigs s !! cur = Some x ->
  t_pending t <> 0 -> next_signal (t_pending t) set = 0 ->
  exists s', do_sigsuspend irqs others set s = Ok (Returned 0, s') /\ blocked <$> sigs s' !! cur = Some set /\
    t_flags <$> threads (sch s') !! cur = Some (Z.lor (t_flags t) TIF_SIGNAL_MANUAL).
Proof.
  intros Hcur Ht Hx Hp Hn. set (x1 := x <| blocked := set |>). set (t1 := t <| t_flags := Z.lor (t_flags t) TIF_SIGNAL_MANUAL |>).
  set (s1 := set_thread cur t1 (s <| sigs := <[cur := x1]> (sigs s) |>)).
  assert (threads (sch s1) !! cur = Some t1) as Ht1 by apply lookup_insert_eq.
  assert (sigs s1 !! cur = Some x1) as Hx1 by apply lookup_insert_eq.
  assert (on_sch (gets current_thread) s1 = Ok (cur, s1)) as Hc1 by (rewrite <- Hcur; by apply on_sch_same).
  exists s1. rewrite Hx1, Ht1. split; [|done]. unfold do_sigsuspend.
  rewrite (bind_step _ _ _ cur s) by (rewrite <- Hcur; by apply on_sch_same).
  rewrite (bind_step _ _ _ x s) by by apply deref_some. cbv zeta.
  rewrite (bind_step _ _ _ tt (s <| sigs := <[cur := x1]> (sigs s) |>)) by done.
  rewrite (bind_step _ _ _ tt s1) by by apply (map_thread_step cur t).
  unfold andthen at 1. rewrite (bind_step _ _ _ (Returned 0) s1).
  2: { destruct irqs; cbn [wait_pending]; rewrite (bind_step _ _ _ _ _ Hc1); rewrite (bind_step _ _ _ t1 s1) by (by apply thread_step);
       by rewrite (proj2 (Z.eqb_neq (t_pending t1) 0) Hp). }
  rewrite (bind_step _ _ _ t1 s1) by by apply thread_step.
  assert (forall regs set', handle_signal regs set' s1 = Ok (Returned 0, s1)) as Hh.
  { intros regs set'. unfold handle_signal. rewrite (bind_step _ _ _ _ _ Hc1). rewrite (bind_step _ _ _ t1 s1) by by apply thread_step.
    rewrite (bind_step _ _ _ x1 s1) by by apply deref_some.
    rewrite (proj2 (Z.eqb_neq (t_pending t1) 0) Hp). change (t_pending t1) with (t_pending t). change (blocked x1) with set. by rewrite Hn. }
  unfold andthen. by rewrite (bind_step _ _ _ _ _ (Hh _ _)).
Qed.
End signal.

(** ** An example: a process with a handler for SIGUSR1, its group and its parent *)

Definition ex_actions : list sigaction := <[9%nat := mk_sigaction 5000 0 (sigmask SIGKILL)]> (replicate 32 (mk_sigaction 0 0 0)).
Definition ex_regs : interrupt_registers :=
  mk_regs 35 35 35 35 1 2 3 4 5 6 7 8 0x7F 0 6000 0x1B 0x202 0xBFFF0000 35.
Definition ex_sig : sig_thread := mk_sig_thread 0 false ex_regs.
Definition ex_process (pid gid th : Z) : process := mk_process pid gid 902 th ex_actions 0 0 [].

(** The machine, with a set of signals pending for the running thread. *)
Definition ex_machine (pending : Z) : sig_state :=
  mk_sig_state
    (with_threads (<[1000 := (example_thread THREAD_RUNNING 900 4096) <| t_pending := pending |>]> (threads example_sched)) example_sched)
    (list_to_map [(1000, ex_sig); (2000, ex_sig); (3000, ex_sig)])
    (list_to_map [(900, ex_process 2 2 1000); (901, ex_process 3 2 2000); (902, ex_process 1 1 3000)])
    [(1, 902); (2, 900); (3, 901)]
    {[4020 := ex_regs]} ∅.

#[local] Abbreviation ex_thread pending := ((example_thread THREAD_RUNNING 900 4096) <| t_pending := pending |>).

Lemma ex_at_trap pending : at_trap 1000 900 4020 (ex_thread pending) ex_sig (ex_process 2 2 1000) ex_regs (ex_machine pending).
Proof. split; by vm_compute. Qed.

Lemma ex_scheduled : scheduled 8 16 24 32 40 4 example_ths (ex_machine 0).
Proof. exists (fun _ => []). apply example_sched_ok. Qed.

Lemma ex_wf : wf (ex_machine 0).
Proof.
  split.
  - intros th t Ht. apply (elem_of_list_to_map_2 ((1000, ex_thread 0) ::
      [(1000, example_thread THREAD_RUNNING 900 4096); (2000, example_thread THREAD_NEW 901 8192);
       (3000, example_thread THREAD_NEW 902 12288)])) in Ht. set_unfold in Ht.
    destruct_or?; simplify_eq; (split; [by eexists; vm_compute|by eexists; split; vm_compute]).
  - intros a p Hp. apply elem_of_list_to_map_2 in Hp. set_unfold in Hp.
    destruct_or?; simplify_eq; vm_compute; eauto.
Qed.

Lemma next_signal_correct_witness : next_signal (sigmask 10 + sigmask SIGCONT) (sigmask SIGCHLD) = 10 /\
  deliverable (sigmask 10 + sigmask SIGCONT) (sigmask SIGCHLD) 10.
Proof.
  assert (next_signal (sigmask 10 + sigmask SIGCONT) (sigmask SIGCHLD) = 10) as E by (vm_compute; reflexivity).
  split; [exact E|].
  destruct (next_signal_correct (sigmask 10 + sigmask SIGCONT) (sigmask SIGCHLD)) as [_ H].
  - split; [discriminate|reflexivity].
  - split; [discriminate|reflexivity].
  - destruct H as [H _]; [rewrite E; discriminate|]. rewrite E in H. exact H.
Defined.

Lemma signal_handler_roundtrip_witness : exists s1, handle_signal 7000 4020 0 (ex_machine (sigmask 10)) = Ok (Usermode 4020, s1) /\
  r_eip <$> traps s1 !! 4020 = Some 5000.
Proof.
  destruct (signal_handler_roundtrip 7000 1000 900 4020 0 (ex_thread (sigmask 10)) ex_sig (ex_process 2 2 1000) ex_regs
    (mk_sigaction 5000 0 (sigmask SIGKILL)) (ex_machine (sigmask 10))) as (s1 & E & Heip & _).
  - apply ex_at_trap.
  - split; [discriminate|reflexivity].
  - split; [discriminate|reflexivity].
  - vm_compute. discriminate.
  - vm_compute. reflexivity.
  - discriminate.
  - discriminate.
  - discriminate.
  - exists s1. split; [exact E|exact Heip].
Defined.

Lemma unblocking_ignored_signal_panics_witness :
  (do_sigprocmask 0 (Some (sigmask SIGCHLD));;
   do_kill 8 16 24 32 40 4 4 7000 2 (mret tt) 2 SIGCHLD;;
   do_sigprocmask 1 (Some (sigmask SIGCHLD));;
   signal_handler 7000 4020) (ex_machine 0) = Fail Assert.
Proof.
  apply (unblocking_ignored_signal_panics 8 16 24 32 40 4 4 7000 1 (mret tt) 1000 900 4020 2 (ex_thread 0) ex_sig
    (ex_process 2 2 1000) ex_regs (mk_sigaction 0 0 0)); try reflexivity; [apply ex_at_trap|discriminate].
Defined.

Lemma group_kill_signals_leader_witness : exists s',
  do_kill 8 16 24 32 40 4 4 7000 2 (mret tt) (-2) 15 (ex_machine 0) = Ok (Returned 0, s') /\
  threads (sch s') !! 2000 = threads (sch (ex_machine 0)) !! 2000.
Proof.
  destruct (group_kill_signals_leader 8 16 24 32 40 4 4 7000 0 (mret tt) 2 15 (ex_machine 0)) as [H _].
  - discriminate.
  - reflexivity.
  - discriminate.
  - repeat (apply list.Forall_cons; split; [vm_compute; eauto|]). apply list.Forall_nil. exact I.
  - right. left. reflexivity.
  - destruct (H 900 1000 (ex_process 2 2 1000) (ex_thread 0) ex_sig (mk_sigaction 0 0 0)) as (s' & E & _ & Ho).
    + split; vm_compute; reflexivity.
    + exists s'. split; [exact E|]. apply Ho. discriminate.
Defined.

Lemma job_control_marks_caller_witness : exists s',
  do_kill 8 16 24 32 40 4 4 7000 2 (mret tt) 3 SIGSTOP (ex_machine 0) = Ok (Returned 0, s') /\
  proc_flags <$> procs s' !! 900 = Some 1.
Proof.
  destruct (job_control_marks_caller 8 16 24 32 40 4 4 7000 example_ths 0 (mret tt) 3 SIGSTOP 901 (ex_process 3 2 2000)
    (ex_process 2 2 1000) (ex_process 1 1 3000) (ex_machine 0)) as (s' & E & _ & _ & Hf); try discriminate; try reflexivity.
  - apply ex_scheduled.
  - apply ex_wf.
  - simpl. lia.
  - left. reflexivity.
  - vm_compute. eauto.
  - apply list.Forall_nil. exact I.
  - apply not_elem_of_nil.
  - exists s'. split; [exact E|exact Hf].
Defined.

Definition ex_asleep : sig_state := set_thread 1000 (example_thread THREAD_WAITING 900 4096) (ex_machine 0).

Lemma interrupted_syscall_keeps_lock_witness : exists s2,
  schedule 7000 (map_pending 1000 (fun _ => sigmask 10)) ex_asleep = Ok (Usermode 4020, s2) /\
  scheduler_lock_counter (sch s2) = 1.
Proof.
  destruct (interrupted_syscall_keeps_lock 7000 (map_pending 1000 (fun _ => sigmask 10)) 1000 900
    (example_thread THREAD_WAITING 900 4096) ((example_thread THREAD_WAITING 900 4096) <| t_pending := sigmask 10 |>)
    ex_sig (ex_process 2 2 1000) ex_regs (mk_sigaction 5000 0 (sigmask SIGKILL)) ex_asleep
    (set_thread 1000 ((example_thread THREAD_WAITING 900 4096) <| t_pending := sigmask 10 |>)
       (ex_asleep <| sch := with_lock 1 false (sch ex_asleep) |>))) as [H _]; try reflexivity; try discriminate.
  - split; [discriminate|reflexivity].
  - split; vm_compute; reflexivity.
  - split; [discriminate|reflexivity].
  - split; [discriminate|reflexivity].
  - destruct H as (s2 & E & Hc); try reflexivity; try discriminate.
    exists s2. split; [exact E|exact Hc].
Defined.

Lemma handler_mask_blocks_sigkill_witness : exists c s1 x1,
  handle_signal 7000 4020 0 (ex_machine (sigmask 10)) = Ok (c, s1) /\ sigs s1 !! 1000 = Some x1 /\
  next_signal (sigmask SIGKILL) (blocked x1) <> SIGKILL.
Proof.
  destruct (handler_mask_blocks_sigkill 7000 1000 900 4020 0 (ex_thread (sigmask 10)) ex_sig (ex_process 2 2 1000) ex_regs
    (mk_sigaction 5000 0 (sigmask SIGKILL)) (ex_machine (sigmask 10))) as [_ H].
  - apply ex_at_trap.
  - split; [discriminate|reflexivity].
  - split; [discriminate|reflexivity].
  - split; [discriminate|reflexivity].
  - destruct H as (c & s1 & x1 & E & Hx & Hn); try reflexivity; try discriminate.
    exists c, s1, x1. split; [exact E|]. split; [exact Hx|]. apply Hn. split; [discriminate|reflexivity].
Defined.
