(* ===== verification/Tty.v ===== *)
(** * Terminal line discipline

    [devices/char/n_tty.c] and the pseudo terminals of [devices/char/pty.c]:
    the ring of characters received by a terminal, line editing, output
    processing, and the read and write calls. The kernel a terminal runs in is
    an interface, which the signals and the scheduler implement. The theorems
    state that the ring is a line editor over a list of characters, that a pair
    of terminals delivers lines, and what erasing and writing get wrong. *)
From Stdlib Require Import ZArith Lia Bool List.
From coqutil Require Import Datatypes.RecordSetters.
From stdpp Require Import base list gmap option fin_maps.
From S2P Require Import Prelude Dlist Plist Sched Hoare Signal.
Import TriangleBracketNotations.

Open Scope Z_scope.

(** ** Data *)

Record termios := mk_termios { c_iflag : Z; c_oflag : Z; c_lflag : Z; c_cc : list Z }.

Inductive driver := Pty | Serial.

(** The fields of [struct tty_struct] the line discipline uses; the wait queues
    are the lists of the threads on them. *)
Record tty_struct := mk_tty {
  drv : driver;
  link : option Z;
  tios : termios;
  pgrp : Z;
  session : Z;
  write_wait : list Z;
  read_wait : list Z;
  read_head : Z;
  read_tail : Z;
  read_count : Z;
  read_buf : list Z }.

Definition N_TTY_BUF_SIZE : Z := 4096.
Definition N_TTY_BUF_ALIGN (v : Z) : Z := Z.land v (N_TTY_BUF_SIZE - 1).

(** [c_cc] by index. A character received or written is the value of a C [char], which is
    signed: between -128 and 127. An entry of [c_cc] is an unsigned byte, and comparisons are
    between [int]s, so a character from -128 to -1 is never a control character. *)
Definition CC (i : nat) (t : tty_struct) : Z := nth i (c_cc (tios t)) 0.
#[local] Abbreviation INTR_CHAR := (CC 0).
#[local] Abbreviation QUIT_CHAR := (CC 1).
#[local] Abbreviation ERASE_CHAR := (CC 2).
#[local] Abbreviation KILL_CHAR := (CC 3).
#[local] Abbreviation EOF_CHAR := (CC 4).
#[local] Abbreviation MIN_CHAR := (CC 6).
#[local] Abbreviation SUSP_CHAR := (CC 10).
#[local] Abbreviation EOL_CHAR := (CC 11).
#[local] Abbreviation WERASE_CHAR := (CC 14).
#[local] Abbreviation EOL2_CHAR := (CC 16).

(** The bits of [c_iflag], [c_oflag] and [c_lflag], octal in the source. *)
Definition flag (word f : Z) : bool := negb (Z.land word f =? 0).
#[local] Abbreviation I_ISTRIP t := (flag (c_iflag (tios t)) 0x20).
#[local] Abbreviation I_INLCR t := (flag (c_iflag (tios t)) 0x40).
#[local] Abbreviation I_IGNCR t := (flag (c_iflag (tios t)) 0x80).
#[local] Abbreviation I_ICRNL t := (flag (c_iflag (tios t)) 0x100).
#[local] Abbreviation I_IUCLC t := (flag (c_iflag (tios t)) 0x200).
#[local] Abbreviation O_OPOST t := (flag (c_oflag (tios t)) 1).
#[local] Abbreviation O_OLCUC t := (flag (c_oflag (tios t)) 2).
#[local] Abbreviation O_ONLCR t := (flag (c_oflag (tios t)) 4).
#[local] Abbreviation O_OCRNL t := (flag (c_oflag (tios t)) 8).
#[local] Abbreviation L_ISIG t := (flag (c_lflag (tios t)) 1).
#[local] Abbreviation L_ICANON t := (flag (c_lflag (tios t)) 2).
#[local] Abbreviation L_ECHO t := (flag (c_lflag (tios t)) 8).
#[local] Abbreviation L_ECHOE t := (flag (c_lflag (tios t)) 0x10).
#[local] Abbreviation L_ECHOK t := (flag (c_lflag (tios t)) 0x20).
#[local] Abbreviation L_ECHONL t := (flag (c_lflag (tios t)) 0x40).
#[local] Abbreviation L_IEXTEN t := (flag (c_lflag (tios t)) 0x8000).

Definition LINE_SEPARATOR (t : tty_struct) (ch : Z) : bool :=
  (EOF_CHAR t =? ch) || (EOL_CHAR t =? ch) || ((EOL2_CHAR t =? ch) && L_IEXTEN t) || (ch =? 10).

#[local] Abbreviation isspace c := ((c =? 32) || ((9 <=? c) && (c <=? 13))).
#[local] Abbreviation toupper c := (if (97 <=? c) && (c <=? 122) then c - 32 else c).
#[local] Abbreviation tolower c := (if (65 <=? c) && (c <=? 90) then c + 32 else c).

(** ** What the line discipline asks of the kernel *)

(** Waking the threads of a wait queue, and [do_kill], whose result says
    whether it returned to its caller; [k_ok l] holds when the threads [l] can
    be woken. *)
Class Kernel (K : Type) := {
  k_wake_up : list Z -> M K unit;
  k_do_kill : Z -> Z -> M K bool;
  k_ok : list Z -> K -> Prop;
  k_wake_up_ok l l' k : k_ok l k -> l' ⊆ l -> exists k', k_wake_up l' k = Ok (tt, k') /\ k_ok l k' }.

(** The terminals by address, the bytes sent to the serial port, and the rest of the kernel. *)
Record tty_state (K : Type) := mk_tty_state { ttys : gmap Z tty_struct; wire : list Z; kern : K }.
Arguments mk_tty_state {K}.
Arguments ttys {K}.
Arguments wire {K}.
Arguments kern {K}.

Section ldisc.
Context {K : Type} `{Kernel K}.
#[local] Abbreviation S := (tty_state K).

Definition get_tty (a : Z) : M S tty_struct := deref (fun s => ttys s !! a).
Definition put_tty (a : Z) (t : tty_struct) : M S unit :=
  modify (fun s => mk_tty_state (<[a := t]> (ttys s)) (wire s) (kern s)).
Definition on_kern {A} : M K A -> M S A := zoom kern (fun k s => mk_tty_state (ttys s) (wire s) k).
Definition wake_up (l : list Z) : M S unit := on_kern (k_wake_up l).
Definition do_kill (pid sig : Z) : M S bool := on_kern (k_do_kill pid sig).

(** ** The ring of received characters *)

Definition ntty_receive_room (t : tty_struct) : Z := N_TTY_BUF_SIZE - read_count t.

(** A character of the ring; the index is aligned. *)
Definition ring (t : tty_struct) (i : Z) : Z := nth (Z.to_nat (N_TTY_BUF_ALIGN i)) (read_buf t) 0.

Definition put_tty_queue (a ch : Z) : M S unit :=
  t ← get_tty a;
  if N_TTY_BUF_SIZE <=? read_count t then mfail Assert
  else
    tail ← (if negb (read_count t =? 0) then mret (N_TTY_BUF_ALIGN (read_tail t + 1))
            else massert (read_head t =? read_tail t);; mret (read_tail t));
    _ ← deref (fun _ => read_buf t !! Z.to_nat tail);
    put_tty a (t <| read_tail := tail |> <| read_buf := <[Z.to_nat tail := ch]> (read_buf t) |>
                 <| read_count := read_count t + 1 |>).

(** The loop of [opost_block] over the characters. *)
Definition opost_char (t : tty_struct) (ch : Z) : list Z :=
  if O_ONLCR t && (ch =? 10) then [13; ch]
  else if O_OCRNL t && (ch =? 13) then [10]
  else [if O_OLCUC t then toupper ch else ch].

(** The first loop of [eraser]. *)
Fixpoint line_scan (t : tty_struct) (line_length : Z) (n : nat) : Z :=
  match n with
  | O => line_length
  | Datatypes.S n' =>
      if line_length <? read_count t then
        if LINE_SEPARATOR t (ring t (read_tail t - line_length)) then line_length
        else if N_TTY_BUF_ALIGN (read_tail t - (line_length + 1)) =? read_head t then line_length + 1
        else line_scan t (line_length + 1) n'
      else line_length
  end.

(** Its second loop, over the last word. *)
Fixpoint last_word (t : tty_struct) (i line_length : Z) (n : nat) : Z :=
  match n with
  | O => i
  | Datatypes.S n' =>
      if i <? line_length then
        if isspace (ring t (read_tail t - i)) then i else last_word t (i + 1) line_length n'
      else i
  end.

Definition erase_length (t : tty_struct) (ch line_length : Z) : Z :=
  if WERASE_CHAR t =? ch then last_word t 0 line_length (Z.to_nat line_length)
  else if KILL_CHAR t =? ch then line_length
  else 1.

(** ** Input and output processing over a driver *)

Section over_driver.
(** [tty->driver->tops->write] *)
Context (write : Z -> list Z -> M S unit).

(** The buffer [wbuf] has [N_TTY_BUF_SIZE] bytes. *)
Definition opost_block (a : Z) (buf : list Z) : M S Z :=
  t ← get_tty a;
  let room := ntty_receive_room t in
  if room =? 0 then mret 0
  else
    let buf := if room <? Z.of_nat (length buf) then take (Z.to_nat room) buf else buf in
    if O_OPOST t then
      let wbuf := buf ≫= opost_char t in
      if N_TTY_BUF_SIZE <? Z.of_nat (length wbuf) then mfail Segv
      else write a wbuf;; mret (Z.of_nat (length wbuf))
    else write a buf;; mret (Z.of_nat (length buf)).

Definition echo (a : Z) (buf : list Z) : M S unit := _ ← opost_block a buf; mret tt.

Definition eraser (a ch : Z) : M S unit :=
  t ← get_tty a;
  let line_length := line_scan t 0 (Z.to_nat (read_count t)) in
  if line_length =? 0 then mret tt
  else
    let len := erase_length t ch line_length in
    mwhen (L_ECHO t && (((KILL_CHAR t =? ch) && L_ECHOK t) ||
                        (((ERASE_CHAR t =? ch) || (WERASE_CHAR t =? ch)) && L_ECHOE t)))
      (echo a [ch]);;
    t ← get_tty a;
    put_tty a (t <| read_count := read_count t - len |>
                 <| read_tail := if negb (read_head t =? read_tail t) then N_TTY_BUF_ALIGN (read_tail t - len) else read_tail t |>).

(** [ch] after ISTRIP, IUCLC and the mapping of CR and NL; [None] when it is dropped. *)
Definition input_char (t : tty_struct) (ch : Z) : option Z :=
  let ch := if I_ISTRIP t then Z.land ch 0x7f else ch in
  let ch := if I_IUCLC t && L_IEXTEN t then tolower ch else ch in
  if ch =? 13 then if I_IGNCR t then None else Some (if I_ICRNL t then 10 else ch)
  else Some (if (ch =? 10) && I_INLCR t then 13 else ch).

(** SIGINT, SIGQUIT, SIGTSTP *)
Definition signal_char (t : tty_struct) (ch : Z) : Z :=
  if INTR_CHAR t =? ch then 2 else if QUIT_CHAR t =? ch then 3 else if SUSP_CHAR t =? ch then 20 else -1.

(** One iteration of the loop in canonical mode; [false] when [do_kill] did not return. *)
Definition receive_char (a ch : Z) : M S bool :=
  t ← get_tty a;
  match input_char t ch with
  | None => mret true
  | Some ch =>
      let sig := signal_char t ch in
      if L_ISIG t && valid_signal sig && (0 <? sig) then
        if 0 <? pgrp t then do_kill (- pgrp t) sig else mret true
      else if (ch =? ERASE_CHAR t) || (ch =? KILL_CHAR t) || ((ch =? WERASE_CHAR t) && L_IEXTEN t) then
        eraser a ch;; mret true
      else if EOF_CHAR t =? ch then
        put_tty_queue a 0;; t ← get_tty a; wake_up (read_wait t);; mret true
      else if (EOL_CHAR t =? ch) || ((ch =? EOL2_CHAR t) && L_IEXTEN t) || (ch =? 10) then
        put_tty_queue a ch;;
        mwhen (L_ECHONL t && (ch =? 10)) (echo a [ch]);;
        t ← get_tty a; wake_up (read_wait t);; mret true
      else
        put_tty_queue a ch;; mwhen (L_ECHO t) (echo a [ch]);; mret true
  end.

Fixpoint receive_chars (a : Z) (cp : list Z) : M S unit :=
  match cp with
  | [] => mret tt
  | ch :: cp' => go ← receive_char a ch; if go : bool then receive_chars a cp' else mret tt
  end.

Fixpoint put_chars (a : Z) (cp : list Z) : M S unit :=
  match cp with
  | [] => mret tt
  | ch :: cp' => put_tty_queue a ch;; put_chars a cp'
  end.

Definition ntty_receive_buf (a : Z) (cp : list Z) : M S unit :=
  t ← get_tty a;
  if L_ICANON t then receive_chars a cp
  else
    put_chars a cp;;
    mwhen (L_ECHO t) (echo a cp);;
    t ← get_tty a;
    mwhen (MIN_CHAR t <=? read_count t) (wake_up (read_wait t)).

(** The other end of a pair receives what it has room for. *)
Definition pty_write (a : Z) (buf : list Z) : M S Z :=
  t ← get_tty a;
  match link t with
  | None => mret 0
  | Some to =>
      t' ← get_tty to;
      let c := Z.min (ntty_receive_room t') (Z.of_nat (length buf)) in
      ntty_receive_buf to (take (Z.to_nat c) buf);;
      mret c
  end.
End over_driver.

(** The driver's [write]; a pair of terminals that both echo would call each
    other for ever, [n] bounds the depth. *)
Fixpoint tty_write (n : nat) (a : Z) (buf : list Z) : M S unit :=
  match n with
  | O => mfail Fuel
  | Datatypes.S n' =>
      t ← get_tty a;
      match drv t with
      | Serial => modify (fun s => mk_tty_state (ttys s) (wire s ++ buf) (kern s))
      | Pty => _ ← pty_write (tty_write n') a buf; mret tt
      end
  end.

(** ** The calls *)

(** The caller: its thread, and its process's terminal, group and pid. *)
Record caller := mk_caller { cl_thread : Z; cl_tty : option Z; cl_gid : Z; cl_pid : Z }.

Definition background (c : caller) (a : Z) (t : tty_struct) : bool :=
  bool_decide (cl_tty c = Some a) && negb (cl_gid c =? pgrp t) && negb (cl_pid c =? session t).

#[local] Abbreviation ERESTARTSYS := 512.
#[local] Abbreviation EFAULT := 14.
#[local] Abbreviation SIGTTIN := 21.
#[local] Abbreviation SIGTTOU := 22.

(** The search for the end of a line. *)
Fixpoint find_line (t : tty_struct) (pos count : Z) (n : nat) : Z :=
  match n with
  | O => 0
  | Datatypes.S n' =>
      if LINE_SEPARATOR t (ring t pos) then count + 1
      else if pos =? read_tail t then 0
      else find_line t (N_TTY_BUF_ALIGN (pos + 1)) (count + 1) n'
  end.

(** [length] when the loop of [ntty_read] ends. *)
Definition readable (t : tty_struct) : option Z :=
  if L_ICANON t && negb (read_count t =? 0) then
    let length := find_line t (read_head t) 0 (Z.to_nat N_TTY_BUF_SIZE) in
    if length =? 0 then None else Some length
  else if negb (L_ICANON t) && (MIN_CHAR t <=? read_count t) then Some (read_count t)
  else None.

(** Each sleep lets the others run, in the order of [others]. *)
Fixpoint wait_readable (a : Z) (others : list (M S unit)) : M S Z :=
  t ← get_tty a;
  match readable t, others with
  | Some length, _ => mret length
  | None, [] => mfail Fuel
  | None, other :: others' => other;; wait_readable a others'
  end.

Definition copy_from_read_buf (t : tty_struct) (length : Z) : list Z :=
  (fun i => ring t (read_head t + Z.of_nat i)) <$> seq 0 (Z.to_nat length).

Definition assert_from_read_buf (t : tty_struct) (length : Z) : M S unit :=
  if length =? 0 then mret tt
  else
    massert (length <=? read_count t);;
    if negb (read_head t =? read_tail t) then
      if read_tail t <? read_head t then massert (read_head t + length - 1 <=? read_tail t + N_TTY_BUF_SIZE)
      else massert (read_head t + length - 1 <=? read_tail t)
    else massert (length =? 1).

(** [min_t(int, length, nr)]: the result is the count and the bytes copied. *)
Definition take_read_buf (a length nr : Z) : M S (Z * list Z) :=
  t ← get_tty a;
  if (length =? 0) || (read_count t <? length) then mret (- EFAULT, [])
  else
    let count := Z.min length (s32 nr) in
    assert_from_read_buf t count;;
    let buf := copy_from_read_buf t count in
    put_tty a (if count =? read_count t then t <| read_head := 0 |> <| read_tail := 0 |> <| read_count := 0 |>
               else t <| read_head := N_TTY_BUF_ALIGN (read_head t + count) |> <| read_count := read_count t - count |>);;
    wake_up (write_wait t);;
    mret (count, buf).

Definition ntty_read (c : caller) (a nr : Z) (others : list (M S unit)) : M S (Z * list Z) :=
  t ← get_tty a;
  if background c a t then
    _ ← do_kill (- cl_gid c) SIGTTIN; mret (- ERESTARTSYS, [])
  else
    put_tty a (t <| read_wait := read_wait t ++ [cl_thread c] |>);;
    length ← wait_readable a others;
    t ← get_tty a;
    put_tty a (t <| read_wait := filter (fun th => th <> cl_thread c) (read_wait t) |>);;
    take_read_buf a length nr.

Fixpoint wait_room (a nr : Z) (others : list (M S unit)) : M S unit :=
  t ← get_tty a;
  if nr <=? ntty_receive_room t then mret tt
  else
    match others with
    | [] => mfail Fuel
    | other :: others' => other;; wait_room a nr others'
    end.

Definition ntty_write (write : Z -> list Z -> M S unit) (c : caller) (a : Z) (buf : list Z) (others : list (M S unit)) : M S Z :=
  t ← get_tty a;
  if background c a t then
    _ ← do_kill (- cl_gid c) SIGTTOU; mret (- ERESTARTSYS)
  else
    put_tty a (t <| write_wait := write_wait t ++ [cl_thread c] |>);;
    wait_room a (Z.of_nat (length buf)) others;;
    _ ← opost_block write a buf;
    t ← get_tty a;
    put_tty a (t <| write_wait := filter (fun th => th <> cl_thread c) (write_wait t) |>);;
    mret (Z.of_nat (length buf)).

(** The ring is zeroed memory of [kcalloc]. *)
Definition ntty_open (a : Z) : M S Z :=
  t ← get_tty a;
  put_tty a (t <| read_buf := replicate (Z.to_nat N_TTY_BUF_SIZE) 0 |> <| read_wait := [] |> <| write_wait := [] |>);;
  mret 0.

(** The ring is freed. *)
Definition ntty_close (a : Z) : M S unit :=
  t ← get_tty a; put_tty a (t <| read_buf := [] |>).

(** [poll_wait] puts the current thread on both queues; POLLIN, POLLRDNORM,
    POLLOUT and POLLWRNORM. *)
Definition ntty_poll (cur a : Z) : M S Z :=
  t ← get_tty a;
  put_tty a (t <| read_wait := read_wait t ++ [cur] |> <| write_wait := write_wait t ++ [cur] |>);;
  mret (Z.lor (if negb (read_count t =? 0) then Z.lor 1 0x40 else 0)
              (if read_count t <? N_TTY_BUF_SIZE then Z.lor 4 0x100 else 0)).

(** ** The ring as a list *)

Record rep (t : tty_struct) (q : list Z) : Prop := {
  rp_buf : length (read_buf t) = Z.to_nat N_TTY_BUF_SIZE;
  rp_head : 0 <= read_head t < N_TTY_BUF_SIZE;
  rp_count : read_count t = Z.of_nat (length q);
  rp_size : Z.of_nat (length q) <= N_TTY_BUF_SIZE;
  rp_tail : read_tail t = if decide (q = []) then read_head t else N_TTY_BUF_ALIGN (read_head t + Z.of_nat (length q) - 1);
  rp_ring : forall i, (i < length q)%nat -> q !! i = Some (ring t (read_head t + Z.of_nat i)) }.

(** The fields that receiving and erasing leave. *)
Record same_conf (t t' : tty_struct) : Prop := {
  sc_drv : drv t' = drv t;
  sc_link : link t' = link t;
  sc_tios : tios t' = tios t;
  sc_pgrp : pgrp t' = pgrp t;
  sc_session : session t' = session t;
  sc_rwait : read_wait t' = read_wait t;
  sc_wwait : write_wait t' = write_wait t }.

Lemma same_conf_refl t : same_conf t t.
Proof. done. Qed.
Lemma same_conf_trans t1 t2 t3 : same_conf t1 t2 -> same_conf t2 t3 -> same_conf t1 t3.
Proof. intros [] []. split; congruence. Qed.

Lemma align_mod v : N_TTY_BUF_ALIGN v = v mod 4096.
Proof. unfold N_TTY_BUF_ALIGN, N_TTY_BUF_SIZE. change (4096 - 1) with (Z.ones 12). by rewrite Z.land_ones by lia. Qed.

Lemma align_range v : 0 <= N_TTY_BUF_ALIGN v < N_TTY_BUF_SIZE.
Proof. rewrite align_mod. unfold N_TTY_BUF_SIZE. apply Z.mod_pos_bound. lia. Qed.

Lemma align_align v w : N_TTY_BUF_ALIGN (N_TTY_BUF_ALIGN v + w) = N_TTY_BUF_ALIGN (v + w).
Proof. rewrite !align_mod. by rewrite Zplus_mod_idemp_l. Qed.

Lemma align_small v : 0 <= v < N_TTY_BUF_SIZE -> N_TTY_BUF_ALIGN v = v.
Proof. intros Hv. rewrite align_mod. apply Z.mod_small. exact Hv. Qed.

Lemma ring_align t v w : ring t (N_TTY_BUF_ALIGN v + w) = ring t (v + w).
Proof. unfold ring. by rewrite align_align. Qed.

(** Distinct places of a window of the ring. *)
Lemma align_inj h i j : 0 <= i < N_TTY_BUF_SIZE -> 0 <= j < N_TTY_BUF_SIZE -> N_TTY_BUF_ALIGN (h + i) = N_TTY_BUF_ALIGN (h + j) -> i = j.
Proof. rewrite !align_mod. unfold N_TTY_BUF_SIZE. intros Hi Hj E. Z.to_euclidean_division_equations. lia. Qed.

Lemma rep_tail t q : rep t q -> q <> [] -> read_tail t = N_TTY_BUF_ALIGN (read_head t + Z.of_nat (length q) - 1).
Proof. intros Hr Hq. rewrite (rp_tail _ _ Hr). by rewrite decide_False. Qed.


Lemma rep_nil t : length (read_buf t) = Z.to_nat N_TTY_BUF_SIZE -> 0 <= read_head t < N_TTY_BUF_SIZE ->
  read_count t = 0 -> read_tail t = read_head t -> rep t [].
Proof. intros H1 H2 H3 H4. split; try done. intros i Hi. simpl in Hi. lia. Qed.

(** ** Updates of the state *)

Definition set_tty (a : Z) (t : tty_struct) (s : S) : S := mk_tty_state (<[a := t]> (ttys s)) (wire s) (kern s).
Definition set_kern (k : K) (s : S) : S := mk_tty_state (ttys s) (wire s) k.

Lemma set_tty_tty a t t' s : set_tty a t (set_tty a t' s) = set_tty a t s.
Proof. unfold set_tty. simpl. by rewrite insert_insert_eq. Qed.

Lemma get_tty_ok a t s : ttys s !! a = Some t -> get_tty a s = Ok (t, s).
Proof. intros Ht. by apply deref_some. Qed.

Lemma put_queue_ok a ch t q s : ttys s !! a = Some t -> rep t q -> Z.of_nat (length q) < N_TTY_BUF_SIZE ->
  exists t', put_tty_queue a ch s = Ok (tt, set_tty a t' s) /\ same_conf t t' /\ rep t' (q ++ [ch]).
Proof.
  intros Ht Hr Hlen. pose proof Hr as [Hb Hh Hc Hs Htl Hrg].
  set (tail := N_TTY_BUF_ALIGN (read_head t + Z.of_nat (length q))).
  set (t' := t <| read_tail := tail |> <| read_buf := <[Z.to_nat tail := ch]> (read_buf t) |> <| read_count := read_count t + 1 |>).
  pose proof (align_range (read_head t + Z.of_nat (length q))) as Hta. fold tail in Hta.
  destruct (lookup_lt_is_Some_2 (read_buf t) (Z.to_nat tail)) as [old Hold]; [rewrite Hb; lia|].
  exists t'. split; [|split; [done|]].
  - unfold put_tty_queue. rewrite (bind_step _ _ _ _ _ (get_tty_ok _ _ _ Ht)).
    rewrite (proj2 (Z.leb_gt _ _)) by lia.
    rewrite (bind_step _ _ _ tail s).
    2: { destruct (Z.eqb_spec (read_count t) 0) as [E|E]; cbn [negb].
      - assert (q = []) as Eq by (destruct q; [done|simpl in Hc; lia]). rewrite decide_True in Htl by done.
        rewrite Htl, Z.eqb_refl. unfold tail. rewrite Eq. change (Z.of_nat (length (@nil Z))) with 0.
        by rewrite Z.add_0_r, align_small.
      - rewrite decide_False in Htl by (intros ->; simpl in Hc; lia). unfold tail, mret, M_ret.
        by rewrite Htl, align_align, Z.sub_add. }
    by rewrite (bind_step _ _ _ old s) by by apply deref_some.
  - assert (forall v, ring t' v = if decide (N_TTY_BUF_ALIGN v = tail) then ch else ring t v) as Hring.
    { intros v. unfold ring. pose proof (align_range v). replace (read_buf t') with (<[Z.to_nat tail := ch]> (read_buf t)) by done.
      rewrite !nth_lookup. destruct (decide (N_TTY_BUF_ALIGN v = tail)) as [E|E].
      - rewrite E. rewrite list_lookup_insert_eq; [done|]. rewrite Hb. unfold N_TTY_BUF_SIZE in *. lia.
      - rewrite list_lookup_insert_ne; [done|]. intros E'. apply E. lia. }
    assert (length (q ++ [ch]) = (length q + 1)%nat) as Hl by by rewrite length_app.
    split; rewrite ?Hl.
    + replace (read_buf t') with (<[Z.to_nat tail := ch]> (read_buf t)) by done. by rewrite length_insert.
    + done.
    + change (read_count t') with (read_count t + 1). lia.
    + lia.
    + rewrite decide_False by (by destruct q). change (read_tail t') with tail. unfold tail.
      change (read_head t') with (read_head t). f_equal. lia.
    + intros i Hi. change (read_head t') with (read_head t). rewrite Hring. destruct (decide (i = length q)) as [->|Hne].
      * rewrite decide_True by done. by rewrite lookup_app_r, Nat.sub_diag by lia.
      * rewrite decide_False; [rewrite lookup_app_l by lia; apply Hrg; lia|].
        intros E. apply align_inj in E; unfold N_TTY_BUF_SIZE in *; lia.
Qed.

(** ** Erasing *)

(** How many elements a list starts with before the first that satisfies [p]. *)
Fixpoint lead (p : Z -> bool) (l : list Z) : nat :=
  match l with
  | [] => O
  | x :: l' => if p x then O else Datatypes.S (lead p l')
  end.

Lemma lead_le p l : (lead p l <= length l)%nat.
Proof. induction l as [|x l IH]; simpl; [lia|]. destruct (p x); lia. Qed.

(** The characters of the unfinished line an erasure may take: all of them, but
    for the first one of the ring when it has two or more. *)
Definition line_len (t : tty_struct) (q : list Z) : nat :=
  let k := lead (LINE_SEPARATOR t) (reverse q) in
  if decide (k = length q /\ (2 <= length q)%nat) then (k - 1)%nat else k.

Lemma ring_back t q i : rep t q -> (i < length q)%nat -> reverse q !! i = Some (ring t (read_tail t - Z.of_nat i)).
Proof.
  intros Hr Hi. rewrite reverse_lookup by done. rewrite (rp_ring _ _ Hr) by lia. f_equal.
  rewrite (rep_tail t q Hr) by (intros ->; simpl in Hi; lia). unfold Z.sub at 1. rewrite ring_align. f_equal. lia.
Qed.

Lemma tail_head t q i : rep t q -> (2 <= length q)%nat -> (i < length q)%nat ->
  (N_TTY_BUF_ALIGN (read_tail t - Z.of_nat i) =? read_head t) = (Datatypes.S i =? length q)%nat.
Proof.
  intros Hr Hl Hi. pose proof Hr as [_ Hh _ Hs _ _]. rewrite (rep_tail t q Hr) by (intros ->; simpl in Hl; lia).
  unfold Z.sub at 1. rewrite align_align. rewrite <- (align_small (read_head t)) at 2 by done.
  destruct (Nat.eqb_spec (Datatypes.S i) (length q)) as [E|E].
  - apply Z.eqb_eq. f_equal. lia.
  - apply Z.eqb_neq. intros E'. rewrite <- (Z.add_0_r (read_head t)) in E' at 2.
    replace (read_head t + Z.of_nat (length q) - 1 + - Z.of_nat i) with (read_head t + (Z.of_nat (length q) - 1 - Z.of_nat i)) in E' by lia.
    apply align_inj in E'; unfold N_TTY_BUF_SIZE in *; lia.
Qed.

Lemma tail_head_1 t q : rep t q -> length q = 1%nat -> (N_TTY_BUF_ALIGN (read_tail t - 1) =? read_head t) = false.
Proof.
  intros Hr Hl. pose proof Hr as [_ Hh _ _ _ _]. rewrite (rep_tail t q Hr) by (intros ->; done). rewrite Hl.
  unfold Z.sub at 1. rewrite align_align, align_mod. unfold N_TTY_BUF_SIZE in Hh. apply Z.eqb_neq. Z.to_euclidean_division_equations. lia.
Qed.

Lemma drop_back t q i : rep t q -> (i < length q)%nat ->
  drop i (reverse q) = ring t (read_tail t - Z.of_nat i) :: drop (Datatypes.S i) (reverse q).
Proof. intros Hr Hi. apply drop_S. by apply ring_back. Qed.

(** The loop over a queue of two characters or more. *)
Lemma line_scan_long t q n i : rep t q -> (2 <= length q)%nat -> (i + 2 <= length q)%nat -> (length q <= i + n)%nat ->
  lead (LINE_SEPARATOR t) (reverse q) = (i + lead (LINE_SEPARATOR t) (drop i (reverse q)))%nat ->
  line_scan t (Z.of_nat i) n = Z.of_nat (line_len t q).
Proof.
  intros Hr Hl. revert i. induction n as [|n IH]; intros i Hi Hn Hk; [lia|]. cbn [line_scan].
  rewrite (rp_count _ _ Hr), (proj2 (Z.ltb_lt _ _)) by lia.
  rewrite (drop_back t q i Hr) in Hk by lia. cbn [lead] in Hk. unfold line_len.
  destruct (LINE_SEPARATOR t (ring t (read_tail t - Z.of_nat i))); [rewrite decide_False by lia; lia|].
  replace (Z.of_nat i + 1) with (Z.of_nat (Datatypes.S i)) by lia. rewrite (tail_head t q) by (done || lia).
  pose proof (lead_le (LINE_SEPARATOR t) (drop (Datatypes.S i) (reverse q))) as Hle. rewrite length_drop, length_reverse in Hle.
  destruct (Nat.eqb_spec (Datatypes.S (Datatypes.S i)) (length q)) as [E|E].
  - case_decide; lia.
  - apply IH; [lia|lia|]. rewrite Hk. lia.
Qed.

Lemma line_scan_ok t q : rep t q -> line_scan t 0 (Z.to_nat (read_count t)) = Z.of_nat (line_len t q).
Proof.
  intros Hr. rewrite (rp_count _ _ Hr), Nat2Z.id. destruct (decide (2 <= length q)%nat) as [Hl|Hl].
  { apply (line_scan_long t q _ 0); try done; lia. }
  destruct q as [|x [|y q]]; [done| |simpl in Hl; lia].
  pose proof (drop_back t [x] 0 Hr ltac:(simpl; lia)) as Ed. change (drop 0 (reverse [x])) with [x] in Ed.
  injection Ed as Ed. cbn [line_scan length]. rewrite (rp_count _ _ Hr).
  pose proof (tail_head_1 t [x] Hr eq_refl) as E1. change (Z.of_nat 0) with 0 in Ed. change (Z.of_nat (length [x])) with 1. rewrite <- Ed. cbn [Z.ltb Z.compare].
  unfold line_len. change (reverse [x]) with [x]. cbn [lead].
  destruct (LINE_SEPARATOR t x); [by rewrite decide_False by (simpl; lia)|]. rewrite decide_False by (simpl; lia).
  change (0 + 1) with 1. by rewrite E1.
Qed.

Definition is_space (c : Z) : bool := (c =? 32) || ((9 <=? c) && (c <=? 13)).

Lemma last_word_ok t q m n i : rep t q -> (m <= length q)%nat -> (i <= m)%nat -> (m <= i + n)%nat ->
  last_word t (Z.of_nat i) (Z.of_nat m) n = Z.of_nat (i + Nat.min (m - i) (lead is_space (drop i (reverse q))))%nat.
Proof.
  intros Hr Hm. revert i. induction n as [|n IH]; intros i Hi Hn; cbn [last_word]; [f_equal; lia|].
  destruct (Z.ltb_spec (Z.of_nat i) (Z.of_nat m)) as [Hlt|Hge]; [|f_equal; lia].
  rewrite (drop_back t q i Hr) by lia. cbn [lead]. fold (is_space (ring t (read_tail t - Z.of_nat i))).
  destruct (is_space _); [f_equal; lia|]. replace (Z.of_nat i + 1) with (Z.of_nat (Datatypes.S i)) by lia.
  rewrite IH by lia. f_equal. lia.
Qed.

(** How many characters an erasure takes from a line of [m]. *)
Definition erase_len (t : tty_struct) (ch : Z) (q : list Z) (m : nat) : nat :=
  if WERASE_CHAR t =? ch then Nat.min m (lead is_space (reverse q)) else if KILL_CHAR t =? ch then m else 1%nat.

Definition erased (t : tty_struct) (ch : Z) (q : list Z) : list Z :=
  let m := line_len t q in if decide (m = 0%nat) then q else take (length q - erase_len t ch q m) q.

Lemma line_len_bound t q : (line_len t q <= length q)%nat /\ ((2 <= length q)%nat -> (line_len t q < length q)%nat).
Proof.
  pose proof (lead_le (LINE_SEPARATOR t) (reverse q)) as H0. rewrite length_reverse in H0.
  unfold line_len. case_decide; lia.
Qed.

Lemma erase_length_ok t q ch m : rep t q -> (m <= length q)%nat -> erase_length t ch (Z.of_nat m) = Z.of_nat (erase_len t ch q m).
Proof.
  intros Hr Hm. unfold erase_length, erase_len. rewrite Nat2Z.id.
  destruct (WERASE_CHAR t =? ch); [|by destruct (KILL_CHAR t =? ch)].
  change 0 with (Z.of_nat 0) at 1. rewrite (last_word_ok t q m m 0) by (done || lia). rewrite drop_0. f_equal. lia.
Qed.

(** Dropping the last [n] characters of the ring. *)
Lemma rep_drop t q n : rep t q -> (n <= length q)%nat -> ((2 <= length q)%nat -> (n < length q)%nat) ->
  rep (t <| read_count := read_count t - Z.of_nat n |>
         <| read_tail := if negb (read_head t =? read_tail t) then N_TTY_BUF_ALIGN (read_tail t - Z.of_nat n) else read_tail t |>)
    (take (length q - n) q).
Proof.
  intros Hr Hn Hn2. pose proof Hr as [Hb Hh Hc Hs Htl Hrg]. set (t' := t <| read_count := _ |> <| read_tail := _ |>).
  split; try done; rewrite ?length_take.
  - change (read_count t') with (read_count t - Z.of_nat n). lia.
  - lia.
  - change (read_head t') with (read_head t). change (read_tail t') with
      (if negb (read_head t =? read_tail t) then N_TTY_BUF_ALIGN (read_tail t - Z.of_nat n) else read_tail t).
    destruct (decide (2 <= length q)%nat) as [H2|H2].
    + pose proof (tail_head t q 0 Hr H2 ltac:(lia)) as E. rewrite Z.sub_0_r in E.
      assert (N_TTY_BUF_ALIGN (read_tail t) = read_tail t) as Ea.
      { rewrite (rep_tail t q Hr) by (intros ->; simpl in H2; lia). apply align_small, align_range. }
      rewrite Ea in E. rewrite Z.eqb_sym, E, (proj2 (Nat.eqb_neq _ _)) by lia. cbn [negb].
      rewrite decide_False by (intros E0%(f_equal length); rewrite length_take in E0; simpl in E0; lia).
      rewrite (rep_tail t q Hr) by (intros ->; simpl in H2; lia). unfold Z.sub at 1. rewrite align_align. f_equal.
      specialize (Hn2 H2). lia.
    + assert (read_tail t = read_head t) as E.
      { destruct q as [|x [|y q]]; [by rewrite decide_True in Htl| |simpl in H2; lia]. rewrite (rep_tail t [x] Hr) by done. simpl length.
        replace (read_head t + Z.of_nat 1 - 1) with (read_head t) by lia. by apply align_small. }
      rewrite E, Z.eqb_refl. cbn [negb]. destruct (decide (take (length q - n) q = [])) as [Et|Et]; [done|].
      replace (read_head t + Z.of_nat ((length q - n) `min` length q) - 1) with (read_head t); [symmetry; by apply align_small|].
      assert (length (take (length q - n) q) <> 0%nat) as E1 by (intros E1; apply Et; by apply nil_length_inv).
      rewrite length_take in E1. lia.
  - intros i Hi. rewrite lookup_take_lt by lia. rewrite Hrg by lia. done.
Qed.

(** ** The line editor *)

(** What a received character does to the queue in canonical mode. *)
Definition edit (t : tty_struct) (q : list Z) (ch : Z) : list Z :=
  match input_char t ch with
  | None => q
  | Some ch =>
      if L_ISIG t && valid_signal (signal_char t ch) && (0 <? signal_char t ch) then q
      else if (ch =? ERASE_CHAR t) || (ch =? KILL_CHAR t) || ((ch =? WERASE_CHAR t) && L_IEXTEN t) then erased t ch q
      else if EOF_CHAR t =? ch then q ++ [0]
      else q ++ [ch]
  end.

(** Whether it sends a signal. *)
Definition kills (t : tty_struct) (ch : Z) : bool :=
  match input_char t ch with
  | None => false
  | Some ch => L_ISIG t && valid_signal (signal_char t ch) && (0 <? signal_char t ch) && (0 <? pgrp t)
  end.

Lemma edit_conf t t' q ch : same_conf t t' -> edit t' q ch = edit t q ch.
Proof.
  intros [_ _ E _ _ _ _].
  unfold edit, input_char, signal_char, erased, erase_len, line_len, LINE_SEPARATOR, CC. by rewrite E.
Qed.

Lemma kills_conf t t' ch : same_conf t t' -> kills t' ch = kills t ch.
Proof. intros [_ _ E E' _ _ _]. unfold kills, input_char, signal_char, CC. by rewrite E, E'. Qed.

Lemma foldl_edit_conf t t' q cs : same_conf t t' -> foldl (edit t') q cs = foldl (edit t) q cs.
Proof. intros Hc. revert q. induction cs as [|ch cs IH]; intros q; [done|]. simpl. by rewrite (edit_conf t t'), IH. Qed.

Lemma edit_length t q ch : (length (edit t q ch) <= length q + 1)%nat.
Proof.
  unfold edit. destruct (input_char t ch) as [c|]; [|lia]. destruct (_ && _); [lia|].
  destruct (_ || _); [|destruct (_ =? _); rewrite length_app; simpl; lia].
  unfold erased. case_decide; [lia|]. rewrite length_take. lia.
Qed.

Section editor.
(** A driver that takes output and leaves the terminal [a] alone, in the states
    of an invariant that does not depend on the ring of [a]. *)
Context (a : Z) (write : Z -> list Z -> M S unit) (inv : S -> Prop).
Context (inv_set : forall s t t', inv s -> ttys s !! a = Some t -> same_conf t t' -> inv (set_tty a t' s)).
Context (inv_wake : forall s t, inv s -> ttys s !! a = Some t ->
  exists k', k_wake_up (read_wait t) (kern s) = Ok (tt, k') /\ inv (set_kern k' s)).
Context (inv_write : forall s t b, inv s -> ttys s !! a = Some t ->
  exists s', write a b s = Ok (tt, s') /\ inv s' /\ ttys s' !! a = Some t).

Lemma tty_wake_ok s t : inv s -> ttys s !! a = Some t ->
  exists s', wake_up (read_wait t) s = Ok (tt, s') /\ inv s' /\ ttys s' !! a = Some t.
Proof.
  intros Hs Ht. destruct (inv_wake s t Hs Ht) as (k' & E & Hs'). exists (set_kern k' s).
  split; [|done]. unfold wake_up, on_kern, zoom. by rewrite E.
Qed.

Lemma echo_ok s t ch : inv s -> ttys s !! a = Some t ->
  exists s', echo write a [ch] s = Ok (tt, s') /\ inv s' /\ ttys s' !! a = Some t.
Proof.
  intros Hs Ht. unfold echo, opost_block. set (room := ntty_receive_room t).
  assert (exists n s', (t ← get_tty a;
    let room := ntty_receive_room t in
    if room =? 0 then mret 0
    else
      let buf := if room <? Z.of_nat (length [ch]) then take (Z.to_nat room) [ch] else [ch] in
      if O_OPOST t then
        let wbuf := buf ≫= opost_char t in
        if N_TTY_BUF_SIZE <? Z.of_nat (length wbuf) then mfail Segv
        else write a wbuf;; mret (Z.of_nat (length wbuf))
      else write a buf;; mret (Z.of_nat (length buf))) s = Ok (n, s') /\ inv s' /\ ttys s' !! a = Some t) as (n & s' & E & Hs').
  2: { exists s'. by rewrite (bind_step _ _ _ _ _ E). }
  rewrite (bind_step _ _ _ _ _ (get_tty_ok _ _ _ Ht)). cbv zeta. fold room.
  destruct (room =? 0); [by exists 0, s|]. set (b := if room <? _ then _ else _).
  assert ((length b <= 1)%nat) as Hb by (unfold b; destruct (_ <? _); [rewrite length_take|]; simpl; lia).
  assert ((length (b ≫= opost_char t) <= 2)%nat) as Hw.
  { destruct b as [|c [|]]; simpl in *; [lia| |lia]. rewrite app_nil_r. unfold opost_char.
    destruct (_ && _); [simpl; lia|]. destruct (_ && _); simpl; lia. }
  destruct (O_OPOST t).
  - rewrite (proj2 (Z.ltb_ge _ _)) by (unfold N_TTY_BUF_SIZE; lia).
    destruct (inv_write s t (b ≫= opost_char t) Hs Ht) as (s' & E & Hs'). eexists _, s'. by rewrite (bind_step _ _ _ _ _ E).
  - destruct (inv_write s t b Hs Ht) as (s' & E & Hs'). eexists _, s'. by rewrite (bind_step _ _ _ _ _ E).
Qed.

Lemma maybe_echo_ok (c : bool) s t ch : inv s -> ttys s !! a = Some t ->
  exists s', mwhen c (echo write a [ch]) s = Ok (tt, s') /\ inv s' /\ ttys s' !! a = Some t.
Proof. intros Hs Ht. destruct c; [by apply echo_ok|by exists s]. Qed.

Lemma eraser_ok s t q ch : inv s -> ttys s !! a = Some t -> rep t q ->
  exists s' t', eraser write a ch s = Ok (tt, s') /\ ttys s' !! a = Some t' /\ same_conf t t' /\ rep t' (erased t ch q) /\ inv s'.
Proof.
  intros Hs Ht Hr. unfold eraser. rewrite (bind_step _ _ _ _ _ (get_tty_ok _ _ _ Ht)). cbv zeta.
  rewrite (line_scan_ok t q Hr). destruct (line_len_bound t q) as [Hb1 Hb2]. unfold erased. set (m := line_len t q) in *.
  destruct (decide (m = 0%nat)) as [E|E].
  { rewrite (proj2 (Z.eqb_eq (Z.of_nat m) 0)) by lia. by exists s, t. }
  rewrite (proj2 (Z.eqb_neq (Z.of_nat m) 0)) by lia. rewrite (erase_length_ok t q ch m Hr Hb1).
  match goal with |- context [mwhen ?c (echo write a [ch])] => destruct (maybe_echo_ok c s t ch Hs Ht) as (s1 & E1 & Hs1 & Ht1) end.
  rewrite (bind_step _ _ _ _ _ E1), (bind_step _ _ _ _ _ (get_tty_ok _ _ _ Ht1)).
  assert ((erase_len t ch q m <= m)%nat) as Hle.
  { clear - E. unfold erase_len. destruct (WERASE_CHAR t =? ch); [apply Nat.le_min_l|]. destruct (KILL_CHAR t =? ch); lia. }
  set (t' := t <| read_count := _ |> <| read_tail := _ |>). exists (set_tty a t' s1), t'. split; [done|].
  split; [apply lookup_insert_eq|]. split; [done|]. split; [|by apply (inv_set s1 t)].
  apply (rep_drop t q); [done|lia|]. intros H2. specialize (Hb2 H2). lia.
Qed.

Lemma receive_char_ok s t q ch : inv s -> ttys s !! a = Some t -> rep t q -> Z.of_nat (length q) < N_TTY_BUF_SIZE ->
  kills t ch = false ->
  exists s' t', receive_char write a ch s = Ok (true, s') /\ ttys s' !! a = Some t' /\ same_conf t t' /\ rep t' (edit t q ch) /\ inv s'.
Proof.
  intros Hs Ht Hr Hlen Hk. unfold receive_char, edit, kills in *. rewrite (bind_step _ _ _ _ _ (get_tty_ok _ _ _ Ht)).
  destruct (input_char t ch) as [c|]; [|by exists s, t]. cbv zeta.
  destruct (L_ISIG t && valid_signal (signal_char t c) && (0 <? signal_char t c)).
  { simpl in Hk. rewrite Hk. by exists s, t. }
  clear Hk. destruct (_ || _ || _).
  { destruct (eraser_ok s t q c Hs Ht Hr) as (s' & t' & E & Hrest). exists s', t'. by rewrite (bind_step _ _ _ _ _ E). }
  assert (forall x, exists s1 t1, put_tty_queue a x s = Ok (tt, s1) /\ ttys s1 !! a = Some t1 /\ same_conf t t1 /\ rep t1 (q ++ [x]) /\ inv s1)
    as Hput.
  { intros x. destruct (put_queue_ok a x t q s Ht Hr Hlen) as (t1 & E & Hc & Hr1). exists (set_tty a t1 s), t1.
    split; [done|]. split; [apply lookup_insert_eq|]. split; [done|]. split; [done|]. by apply (inv_set s t). }
  destruct (EOF_CHAR t =? c).
  { destruct (Hput 0) as (s1 & t1 & E1 & Ht1 & Hc & Hr1 & Hs1). destruct (tty_wake_ok s1 t1 Hs1 Ht1) as (s2 & E2 & Hs2 & Ht2).
    exists s2, t1. by rewrite (bind_step _ _ _ _ _ E1), (bind_step _ _ _ _ _ (get_tty_ok _ _ _ Ht1)), (bind_step _ _ _ _ _ E2). }
  destruct (Hput c) as (s1 & t1 & E1 & Ht1 & Hc & Hr1 & Hs1). destruct (_ || _ || _).
  - match goal with |- context [mwhen ?b (echo write a [c])] => destruct (maybe_echo_ok b s1 t1 c Hs1 Ht1) as (s2 & E2 & Hs2 & Ht2) end.
    destruct (tty_wake_ok s2 t1 Hs2 Ht2) as (s3 & E3 & Hs3 & Ht3). exists s3, t1.
    by rewrite (bind_step _ _ _ _ _ E1), (bind_step _ _ _ _ _ E2), (bind_step _ _ _ _ _ (get_tty_ok _ _ _ Ht2)), (bind_step _ _ _ _ _ E3).
  - match goal with |- context [mwhen ?b (echo write a [c])] => destruct (maybe_echo_ok b s1 t1 c Hs1 Ht1) as (s2 & E2 & Hs2 & Ht2) end.
    exists s2, t1. by rewrite (bind_step _ _ _ _ _ E1), (bind_step _ _ _ _ _ E2).
Qed.

Lemma receive_chars_ok cs s t q : inv s -> ttys s !! a = Some t -> rep t q ->
  Z.of_nat (length q + length cs) <= N_TTY_BUF_SIZE -> Forall (fun ch => kills t ch = false) cs ->
  exists s' t', receive_chars write a cs s = Ok (tt, s') /\ ttys s' !! a = Some t' /\ same_conf t t' /\
    rep t' (foldl (edit t) q cs) /\ inv s'.
Proof.
  revert s t q. induction cs as [|ch cs IH]; intros s t q Hs Ht Hr Hlen Hk; cbn [receive_chars].
  { by exists s, t. }
  apply list.Forall_cons in Hk as [Hk1 Hk]. simpl length in Hlen.
  destruct (receive_char_ok s t q ch Hs Ht Hr) as (s1 & t1 & E1 & Ht1 & Hc1 & Hr1 & Hs1); [lia|done|].
  rewrite (bind_step _ _ _ _ _ E1). pose proof (edit_length t q ch).
  destruct (IH s1 t1 (edit t q ch) Hs1 Ht1 Hr1) as (s2 & t2 & E2 & Ht2 & Hc2 & Hr2 & Hs2); [lia| |].
  { eapply list.Forall_impl; [exact Hk|]. intros x Hx. by rewrite (kills_conf t t1). }
  exists s2, t2. split; [done|]. split; [done|]. split; [by eapply same_conf_trans|].
  split; [|done]. cbn [foldl]. by rewrite <- (foldl_edit_conf t t1).
Qed.

End editor.

(** ** Reading *)

(** The length of the first line, 0 when none is complete. *)
Definition first_line (t : tty_struct) (q : list Z) : nat :=
  let k := lead (LINE_SEPARATOR t) q in if decide (k < length q)%nat then Datatypes.S k else O.

Lemma find_line_ok t q n i : rep t q -> (i < length q)%nat -> (length q <= i + n)%nat ->
  lead (LINE_SEPARATOR t) q = (i + lead (LINE_SEPARATOR t) (drop i q))%nat ->
  find_line t (N_TTY_BUF_ALIGN (read_head t + Z.of_nat i)) (Z.of_nat i) n = Z.of_nat (first_line t q).
Proof.
  intros Hr. pose proof Hr as [_ _ _ Hs _ Hrg]. revert i. induction n as [|n IH]; intros i Hi Hn Hk; [lia|]. cbn [find_line].
  rewrite (drop_S _ _ _ (Hrg i Hi)) in Hk. cbn [lead] in Hk. unfold first_line.
  rewrite <- (Z.add_0_r (N_TTY_BUF_ALIGN _)), ring_align, !Z.add_0_r.
  pose proof (lead_le (LINE_SEPARATOR t) (drop (Datatypes.S i) q)) as Hle. rewrite length_drop in Hle.
  destruct (LINE_SEPARATOR t (ring t (read_head t + Z.of_nat i))); [rewrite decide_True by lia; lia|].
  rewrite (rep_tail t q Hr) by (intros ->; simpl in Hi; lia).
  destruct (Z.eqb_spec (N_TTY_BUF_ALIGN (read_head t + Z.of_nat i)) (N_TTY_BUF_ALIGN (read_head t + Z.of_nat (length q) - 1))) as [E|E].
  - replace (read_head t + Z.of_nat (length q) - 1) with (read_head t + (Z.of_nat (length q) - 1)) in E by lia.
    apply align_inj in E; unfold N_TTY_BUF_SIZE in *; try lia. by rewrite decide_False by lia.
  - assert (Datatypes.S i <> length q) by (intros E'; apply E; f_equal; lia).
    rewrite align_align. replace (read_head t + Z.of_nat i + 1) with (read_head t + Z.of_nat (Datatypes.S i)) by lia.
    replace (Z.of_nat i + 1) with (Z.of_nat (Datatypes.S i)) by lia. apply IH; lia.
Qed.

Lemma readable_ok t q : rep t q -> L_ICANON t = true ->
  readable t = if decide (first_line t q = 0%nat) then None else Some (Z.of_nat (first_line t q)).
Proof.
  intros Hr Hi. pose proof Hr as [_ Hh Hc Hs _ _]. unfold readable. rewrite Hi, Hc. cbn [andb].
  destruct q as [|x q]; [done|]. rewrite (proj2 (Z.eqb_neq _ 0)) by (simpl; lia). cbn [negb].
  pose proof (find_line_ok t (x :: q) (Z.to_nat N_TTY_BUF_SIZE) 0 Hr ltac:(simpl; lia) ltac:(unfold N_TTY_BUF_SIZE in *; lia) eq_refl) as E.
  change (Z.of_nat 0) with 0 in E. rewrite Z.add_0_r, align_small in E by done. cbv zeta. rewrite E.
  destruct (decide (first_line t (x :: q) = 0%nat)) as [->|E']; [done|]. by rewrite (proj2 (Z.eqb_neq _ _)) by lia.
Qed.

Lemma assert_read_ok t q c s : rep t q -> (0 < c <= length q)%nat -> assert_from_read_buf t (Z.of_nat c) s = Ok (tt, s).
Proof.
  intros Hr Hc. pose proof Hr as [_ Hh Hcnt Hs _ _]. unfold assert_from_read_buf.
  rewrite (proj2 (Z.eqb_neq _ 0)), Hcnt by lia. rewrite (bind_step _ _ _ tt s) by (apply massert_true; lia).
  pose proof (rep_tail t q Hr ltac:(intros ->; simpl in Hc; lia)) as Ht. rewrite align_mod in Ht.
  unfold N_TTY_BUF_SIZE in *. destruct (Z.eqb_spec (read_head t) (read_tail t)) as [E|E]; cbn [negb].
  - apply massert_true. apply Z.eqb_eq. Z.to_euclidean_division_equations. lia.
  - destruct (Z.ltb_spec (read_tail t) (read_head t)); apply massert_true; apply Z.leb_le; Z.to_euclidean_division_equations; lia.
Qed.

Lemma copy_read_ok t q c : rep t q -> (c <= length q)%nat -> copy_from_read_buf t (Z.of_nat c) = take c q.
Proof.
  intros Hr Hc. unfold copy_from_read_buf. rewrite Nat2Z.id. apply list_eq. intros i.
  destruct (decide (i < c)%nat) as [Hi|Hi].
  - rewrite list_lookup_fmap, lookup_seq_lt by done. cbn. rewrite lookup_take_lt by done. by rewrite (rp_ring _ _ Hr) by lia.
  - rewrite !lookup_ge_None_2; [done|rewrite length_take; lia|rewrite length_fmap, length_seq; lia].
Qed.

(** Taking [c] characters from the front. *)
Lemma rep_take t q c : rep t q -> (c <= length q)%nat ->
  rep (if Z.of_nat c =? read_count t then t <| read_head := 0 |> <| read_tail := 0 |> <| read_count := 0 |>
       else t <| read_head := N_TTY_BUF_ALIGN (read_head t + Z.of_nat c) |> <| read_count := read_count t - Z.of_nat c |>)
    (drop c q).
Proof.
  intros Hr Hc. pose proof Hr as [Hb Hh Hcnt Hs Htl Hrg]. rewrite Hcnt.
  destruct (Z.eqb_spec (Z.of_nat c) (Z.of_nat (length q))) as [E|E].
  { rewrite drop_ge by lia. by apply rep_nil. }
  set (t' := t <| read_head := _ |> <| read_count := _ |>).
  assert (read_head t' = N_TTY_BUF_ALIGN (read_head t + Z.of_nat c)) as Eh by done.
  split; rewrite ?length_drop.
  - done.
  - rewrite Eh. apply align_range.
  - change (read_count t') with (Z.of_nat (length q) - Z.of_nat c). lia.
  - lia.
  - rewrite decide_False by (intros E0%(f_equal length); rewrite length_drop in E0; simpl in E0; lia). rewrite Eh.
    change (read_tail t') with (read_tail t). rewrite (rep_tail t q Hr) by (intros ->; simpl in *; lia).
    unfold Z.sub at 2. rewrite <- Z.add_assoc, align_align. f_equal. lia.
  - intros i Hi. rewrite lookup_drop, Hrg by lia. rewrite Eh, ring_align. change (ring t') with (ring t).
    do 2 f_equal. lia.
Qed.

Lemma take_read_ok a s t q len nr k' : ttys s !! a = Some t -> rep t q -> (0 < len <= length q)%nat -> 0 < nr < 2 ^ 31 ->
  k_wake_up (write_wait t) (kern s) = Ok (tt, k') ->
  let c := Nat.min len (Z.to_nat nr) in
  exists t', take_read_buf a (Z.of_nat len) nr s = Ok ((Z.of_nat c, take c q), set_kern k' (set_tty a t' s)) /\
    same_conf t t' /\ rep t' (drop c q).
Proof.
  intros Ht Hr Hlen Hnr Hk c. unfold take_read_buf. rewrite (bind_step _ _ _ _ _ (get_tty_ok _ _ _ Ht)).
  rewrite (proj2 (Z.eqb_neq _ 0)), (rp_count _ _ Hr), (proj2 (Z.ltb_ge _ _)) by lia. cbn [orb]. cbv zeta.
  rewrite s32_small by lia. replace (Z.min (Z.of_nat len) nr) with (Z.of_nat c) by lia.
  rewrite (bind_step _ _ _ _ _ (assert_read_ok t q c s Hr ltac:(lia))). rewrite (copy_read_ok t q c Hr) by lia.
  pose proof (rep_take t q c Hr ltac:(lia)) as Hr'. rewrite (rp_count _ _ Hr) in Hr'. set (t' := if _ =? _ then _ else _) in *.
  exists t'. rewrite (bind_step _ _ _ tt (set_tty a t' s)) by done.
  assert (same_conf t t') as Hsc by (unfold t'; by destruct (_ =? _)).
  split; [|split; [done|exact Hr']].
  rewrite (bind_step _ _ _ tt (set_kern k' (set_tty a t' s))); [done|].
  unfold wake_up, on_kern, zoom. change (kern (set_tty a t' s)) with (kern s). by rewrite Hk.
Qed.

(** ** A pseudo terminal: a raw master and its slave *)

Lemma put_chars_ok a cs s t q : ttys s !! a = Some t -> rep t q -> Z.of_nat (length q + length cs) <= N_TTY_BUF_SIZE ->
  exists t', put_chars a cs s = Ok (tt, if decide (cs = []) then s else set_tty a t' s) /\
    same_conf t t' /\ rep t' (q ++ cs) /\ (cs = [] -> t' = t).
Proof.
  revert s t q. induction cs as [|c cs IH]; intros s t q Ht Hr Hlen; cbn [put_chars].
  { exists t. rewrite app_nil_r. done. }
  simpl length in Hlen. destruct (put_queue_ok a c t q s Ht Hr) as (t1 & E1 & Hc1 & Hr1); [lia|].
  destruct (IH (set_tty a t1 s) t1 (q ++ [c])) as (t2 & E2 & Hc2 & Hr2 & Hnil);
    [apply lookup_insert_eq|done|rewrite length_app; simpl; lia|].
  exists t2. rewrite (bind_step _ _ _ _ _ E1), E2. split.
  - rewrite (decide_False (P := c :: cs = [])) by done. case_decide as E; [by rewrite (Hnil E)|by rewrite set_tty_tty].
  - split; [by eapply same_conf_trans|]. by rewrite <- app_assoc in Hr2.
Qed.

(** What the wait queues of a terminal need of the kernel. *)
Definition waiters (t : tty_struct) : list Z := read_wait t ++ write_wait t.

Record pair (m sl : Z) (s : S) : Prop := {
  pr_ne : m <> sl;
  pr_master : exists tm q, ttys s !! m = Some tm /\ rep tm q /\ drv tm = Pty /\ link tm = Some sl /\
    L_ICANON tm = false /\ L_ECHO tm = false /\
    exists ts, ttys s !! sl = Some ts /\ drv ts = Pty /\ link ts = Some m /\ k_ok (waiters tm ++ waiters ts) (kern s) }.

Lemma pair_set_slave m sl s t t' : pair m sl s -> ttys s !! sl = Some t -> same_conf t t' -> pair m sl (set_tty sl t' s).
Proof.
  intros [Hne (tm & q & Hm & Hr & Hd & Hl & Hi & He & ts & Hs & Hd' & Hl' & Hk)] Ht Hc. rewrite Ht in Hs. injection Hs as <-.
  split; [done|]. exists tm, q. split; [simpl; by rewrite lookup_insert_ne|]. split_and!; try done.
  exists t'. destruct Hc. split; [apply lookup_insert_eq|]. split; [congruence|]. split; [congruence|].
  unfold waiters in *. rewrite sc_rwait0, sc_wwait0. done.
Qed.

Lemma pair_wake m sl s t : pair m sl s -> ttys s !! sl = Some t ->
  exists k', k_wake_up (read_wait t) (kern s) = Ok (tt, k') /\ pair m sl (set_kern k' s).
Proof.
  intros [Hne (tm & q & Hm & Hr & Hd & Hl & Hi & He & ts & Hs & Hd' & Hl' & Hk)] Ht. rewrite Ht in Hs. injection Hs as <-.
  destruct (k_wake_up_ok _ (read_wait t) _ Hk) as (k' & E & Hk').
  { unfold waiters. intros x Hx. rewrite !elem_of_app. auto. }
  exists k'. split; [done|]. split; [done|]. exists tm, q. split_and!; try done. by exists t.
Qed.

(** The master takes what the slave echoes. *)
Lemma pair_write m sl n s t b : pair m sl s -> ttys s !! sl = Some t ->
  exists s', tty_write (Datatypes.S n) sl b s = Ok (tt, s') /\ pair m sl s' /\ ttys s' !! sl = Some t.
Proof.
  intros [Hne (tm & q & Hm & Hr & Hd & Hl & Hi & He & ts & Hs & Hd' & Hl' & Hk)] Ht. rewrite Ht in Hs. injection Hs as <-.
  cbn [tty_write]. rewrite (bind_step _ _ _ _ _ (get_tty_ok _ _ _ Ht)), Hd'. unfold pty_write.
  set (c := Z.to_nat (Z.min (ntty_receive_room tm) (Z.of_nat (length b)))).
  assert ((c <= length b)%nat /\ Z.of_nat (length q + c) <= N_TTY_BUF_SIZE) as [Hc1 Hc2].
  { unfold c, ntty_receive_room. rewrite (rp_count _ _ Hr). pose proof (rp_size _ _ Hr). lia. }
  destruct (put_chars_ok m (take c b) s tm q Hm Hr) as (tm' & E1 & Hcf & Hr' & Hnil).
  { rewrite length_take. lia. }
  set (s1 := if decide (take c b = []) then s else set_tty m tm' s) in E1.
  assert (ttys s1 !! m = Some tm' /\ ttys s1 !! sl = Some t /\ kern s1 = kern s) as (Hm1 & Hs1 & Hk1).
  { unfold s1. case_decide as E; [by rewrite (Hnil E)|]. split; [apply lookup_insert_eq|]. split; [|done].
    simpl. by rewrite lookup_insert_ne. }
  destruct Hcf. assert (waiters tm' = waiters tm) as Hwt by (unfold waiters; congruence).
  assert (forall k', k_ok (waiters tm ++ waiters t) k' -> pair m sl (set_kern k' s1)) as Hpair.
  { intros k' Hk'. split; [done|]. exists tm', (q ++ take c b). split; [done|]. split; [done|].
    split; [congruence|]. split; [congruence|]. split; [by rewrite sc_tios0|]. split; [by rewrite sc_tios0|].
    exists t. rewrite Hwt. done. }
  destruct (k_wake_up_ok _ (read_wait tm') (kern s) Hk) as (k' & Ek & Hk').
  { rewrite sc_rwait0. unfold waiters. intros x Hx. rewrite !elem_of_app. auto. }
  exists (if MIN_CHAR tm' <=? read_count tm' then set_kern k' s1 else s1).
  assert ((t0 ← get_tty sl; match link t0 with
      | None => mret 0
      | Some to => t' ← get_tty to; let c := Z.min (ntty_receive_room t') (Z.of_nat (length b)) in
          ntty_receive_buf (tty_write n) to (take (Z.to_nat c) b);; mret c end) s =
    Ok (Z.min (ntty_receive_room tm) (Z.of_nat (length b)), if MIN_CHAR tm' <=? read_count tm' then set_kern k' s1 else s1)) as E.
  { rewrite (bind_step _ _ _ _ _ (get_tty_ok _ _ _ Ht)), Hl', (bind_step _ _ _ _ _ (get_tty_ok _ _ _ Hm)). cbv zeta. fold c.
    rewrite (bind_step _ _ _ tt (if MIN_CHAR tm' <=? read_count tm' then set_kern k' s1 else s1)); [done|].
    unfold ntty_receive_buf. rewrite (bind_step _ _ _ _ _ (get_tty_ok _ _ _ Hm)), Hi, (bind_step _ _ _ _ _ E1), He.
    rewrite (bind_step _ _ _ tt s1) by done. rewrite (bind_step _ _ _ _ _ (get_tty_ok _ _ _ Hm1)).
    destruct (_ <=? _); [|done]. unfold mwhen, wake_up, on_kern, zoom. by rewrite Hk1, Ek. }
  rewrite (bind_step _ _ _ _ _ E). split; [done|]. destruct (_ <=? _).
  - split; [by apply Hpair|done].
  - split; [|done]. assert (s1 = set_kern (kern s1) s1) as -> by (by destruct s1). rewrite Hk1. by apply Hpair.
Qed.

(** Typing into the master edits the slave's queue. *)
Lemma pty_type m sl n cs s t q : pair m sl s -> ttys s !! sl = Some t -> L_ICANON t = true -> rep t q ->
  Forall (fun ch => kills t ch = false) cs ->
  let c := Nat.min (Z.to_nat (ntty_receive_room t)) (length cs) in
  exists s' t', pty_write (tty_write (Datatypes.S n)) m cs s = Ok (Z.of_nat c, s') /\ pair m sl s' /\
    ttys s' !! sl = Some t' /\ same_conf t t' /\ rep t' (foldl (edit t) q (take c cs)).
Proof.
  intros Hp Ht Hi Hr Hk c. pose proof Hp as [Hne (tm & qm & Hm & _ & Hd & Hl & _)].
  assert (Z.min (ntty_receive_room t) (Z.of_nat (length cs)) = Z.of_nat c /\ Z.of_nat (length q + c) <= N_TTY_BUF_SIZE) as [Ec Hc].
  { unfold c, ntty_receive_room. rewrite (rp_count _ _ Hr). pose proof (rp_size _ _ Hr). lia. }
  destruct (receive_chars_ok sl (tty_write (Datatypes.S n)) (pair m sl)
    ltac:(intros; by eapply pair_set_slave) ltac:(intros; by apply pair_wake) ltac:(intros; by apply pair_write)
    (take c cs) s t q Hp Ht Hr) as (s' & t' & E & Ht' & Hcf & Hr' & Hp').
  { rewrite length_take. lia. }
  { by apply list.Forall_take. }
  exists s', t'. split; [|done]. unfold pty_write.
  rewrite (bind_step _ _ _ _ _ (get_tty_ok _ _ _ Hm)), Hl, (bind_step _ _ _ _ _ (get_tty_ok _ _ _ Ht)). cbv zeta.
  rewrite Ec, Nat2Z.id. rewrite (bind_step _ _ _ tt s'); [done|].
  unfold ntty_receive_buf. by rewrite (bind_step _ _ _ _ _ (get_tty_ok _ _ _ Ht)), Hi.
Qed.

Lemma rep_ext t t' q : rep t q -> read_buf t' = read_buf t -> read_head t' = read_head t -> read_tail t' = read_tail t ->
  read_count t' = read_count t -> rep t' q.
Proof.
  intros [] E1 E2 E3 E4. split; rewrite ?E1, ?E2, ?E3, ?E4; try done. intros i Hi. rewrite rp_ring0 by done.
  unfold ring. by rewrite E1.
Qed.

(** A read when a line is there returns at once. *)
Lemma ntty_read_line c sl nr others s t q k' : ttys s !! sl = Some t -> L_ICANON t = true -> rep t q ->
  background c sl t = false -> first_line t q <> 0%nat -> 0 < nr < 2 ^ 31 ->
  k_wake_up (write_wait t) (kern s) = Ok (tt, k') ->
  let n := Nat.min (first_line t q) (Z.to_nat nr) in
  exists s' t', ntty_read c sl nr others s = Ok ((Z.of_nat n, take n q), s') /\ ttys s' !! sl = Some t' /\ rep t' (drop n q).
Proof.
  intros Ht Hi Hr Hbg Hl Hnr Hk n. unfold ntty_read. rewrite (bind_step _ _ _ _ _ (get_tty_ok _ _ _ Ht)), Hbg.
  set (t1 := t <| read_wait := read_wait t ++ [cl_thread c] |>). set (s1 := set_tty sl t1 s).
  assert (ttys s1 !! sl = Some t1) as Ht1 by apply lookup_insert_eq.
  assert (rep t1 q) as Hr1 by by apply (rep_ext t).
  rewrite (bind_step _ _ _ tt s1) by done.
  assert (readable t1 = Some (Z.of_nat (first_line t q))) as Erd.
  { rewrite (readable_ok t1 q Hr1 Hi). change (first_line t1 q) with (first_line t q). by rewrite decide_False. }
  assert (wait_readable sl others s1 = Ok (Z.of_nat (first_line t q), s1)) as Ew.
  { destruct others; cbn [wait_readable]; by rewrite (bind_step _ _ _ _ _ (get_tty_ok _ _ _ Ht1)), Erd. }
  rewrite (bind_step _ _ _ _ _ Ew), (bind_step _ _ _ _ _ (get_tty_ok _ _ _ Ht1)).
  set (t2 := t1 <| read_wait := filter (fun th => th <> cl_thread c) (read_wait t1) |>). set (s2 := set_tty sl t2 s1).
  rewrite (bind_step _ _ _ tt s2) by done.
  assert (rep t2 q) as Hr2 by by apply (rep_ext t1).
  assert ((first_line t q <= length q)%nat) as Hle by (unfold first_line; case_decide; lia).
  destruct (take_read_ok sl s2 t2 q (first_line t q) nr k') as (t3 & E3 & _ & Hr3); [apply lookup_insert_eq|done|lia|done|done|].
  eexists _, t3. split; [exact E3|]. split; [apply lookup_insert_eq|done].
Qed.

(** ** The standard settings of [devices/char/tty.c] *)

(** ICRNL, IXON; OPOST, ONLCR; ISIG, ICANON, ECHO, ECHOE, ECHOK, ECHOCTL, ECHOKE,
    IEXTEN; and [INIT_C_CC]. *)
Definition tty_std_termios : termios :=
  mk_termios 0x500 5 0x8A3B [3; 28; 127; 21; 4; 0; 1; 0; 17; 19; 26; 0; 18; 15; 23; 22; 0; 0; 0].

Definition printable (c : Z) : Prop := 32 <= c < 127.


(** Opening a terminal whose [tty_struct] is zeroed gives an empty queue. *)
Lemma ntty_open_ok a s t : ttys s !! a = Some t -> read_head t = 0 -> read_tail t = 0 -> read_count t = 0 ->
  exists t', ntty_open a s = Ok (0, set_tty a t' s) /\ rep t' [] /\ tios t' = tios t.
Proof.
  intros Ht E1 E2 E3. unfold ntty_open. rewrite (bind_step _ _ _ _ _ (get_tty_ok _ _ _ Ht)). eexists. split; [done|].
  split; [|done]. set (t' := t <| read_buf := _ |> <| read_wait := _ |> <| write_wait := _ |>).
  apply rep_nil; change (read_head t') with (read_head t); change (read_tail t') with (read_tail t); rewrite ?E1, ?E2; done.
Qed.

(** [poll] reports input exactly when the queue is not empty, and room exactly when it is not full. *)
Lemma ntty_poll_ok cur a s t q : ttys s !! a = Some t -> rep t q ->
  exists mask s', ntty_poll cur a s = Ok (mask, s') /\ (Z.testbit mask 0 = true <-> q <> []) /\
    (Z.testbit mask 2 = true <-> Z.of_nat (length q) < N_TTY_BUF_SIZE).
Proof.
  intros Ht Hr. unfold ntty_poll. rewrite (bind_step _ _ _ _ _ (get_tty_ok _ _ _ Ht)). eexists _, _. split; [done|].
  rewrite (rp_count _ _ Hr). destruct q as [|x q]; cbn [length].
  - split; [split; [done|by intros []]|done].
  - rewrite (proj2 (Z.eqb_neq _ 0)) by lia. cbn [negb]. destruct (Z.ltb_spec (Z.of_nat (Datatypes.S (length q))) N_TTY_BUF_SIZE).
    + split; [split; [done|done]|split; [done|done]].
    + split; [split; [done|done]|split; [done|lia]].
Qed.
Ltac settings :=
  repeat match goal with
  | |- context [flag ?w ?f] => let v := eval vm_compute in (flag w f) in change (flag w f) with v
  | |- context [nth ?i ?l 0] => let v := eval vm_compute in (nth i l 0) in change (nth i l 0) with v
  end; cbn [andb].

(** What a printable character or a newline does. *)
Lemma printable_edit t q c : tios t = tty_std_termios -> printable c \/ c = 10 ->
  edit t q c = q ++ [c] /\ kills t c = false /\ LINE_SEPARATOR t c = (c =? 10).
Proof.
  intros E Hc. assert (input_char t c = Some c) as Ei.
  { unfold input_char. rewrite E. settings. unfold printable in Hc. rewrite (proj2 (Z.eqb_neq c 13)) by lia. by rewrite andb_false_r. }
  assert (signal_char t c = -1) as Es.
  { unfold signal_char, CC. rewrite E. settings. unfold printable in Hc.
    rewrite (proj2 (Z.eqb_neq 3 c)), (proj2 (Z.eqb_neq 28 c)), (proj2 (Z.eqb_neq 26 c)) by lia. done. }
  unfold edit, kills, LINE_SEPARATOR. rewrite Ei, Es. unfold CC. rewrite E. settings. unfold printable in Hc.
  change (valid_signal (-1)) with false. cbn [andb].
  rewrite (proj2 (Z.eqb_neq c 127)), (proj2 (Z.eqb_neq c 21)), (proj2 (Z.eqb_neq c 23)), (proj2 (Z.eqb_neq 4 c)), (proj2 (Z.eqb_neq 0 c)) by lia.
  done.
Qed.

Lemma printables_edit t q cs : tios t = tty_std_termios -> Forall (fun c => printable c \/ c = 10) cs ->
  foldl (edit t) q cs = q ++ cs /\ Forall (fun c => kills t c = false) cs.
Proof.
  intros E Hcs. revert q. induction Hcs as [|c cs Hc _ IH]; intros q; [by rewrite app_nil_r|].
  destruct (printable_edit t q c E Hc) as (E1 & E2 & _). destruct (IH (q ++ [c])) as [E3 E4]. cbn [foldl].
  rewrite E1, E3, <- app_assoc. split; [done|]. by constructor.
Qed.

Lemma lead_printable t l r : tios t = tty_std_termios -> Forall printable l ->
  lead (LINE_SEPARATOR t) (l ++ r) = (length l + lead (LINE_SEPARATOR t) r)%nat.
Proof.
  intros E Hl. induction Hl as [|c l Hc _ IH]; [done|]. cbn [app lead length].
  destruct (printable_edit t [] c E (or_introl Hc)) as (_ & _ & E3). rewrite E3. unfold printable in Hc.
  rewrite (proj2 (Z.eqb_neq c 10)) by lia. by rewrite IH.
Qed.

(** The line of printable characters [l] with its newline. *)
Lemma first_line_printable t l : tios t = tty_std_termios -> Forall printable l -> first_line t (l ++ [10]) = length (l ++ [10]).
Proof.
  intros E Hl. unfold first_line. rewrite (lead_printable t l [10] E Hl).
  destruct (printable_edit t [] 10 E (or_intror eq_refl)) as (_ & _ & E3). cbn [lead]. rewrite E3. cbn.
  rewrite length_app, decide_True; simpl; lia.
Qed.

Lemma icanon_std t : tios t = tty_std_termios -> L_ICANON t = true.
Proof. by intros ->. Qed.

(** Erasing the line with the kill character. *)
Lemma kill_edit t x l : tios t = tty_std_termios -> printable x -> Forall printable l -> l <> [] ->
  edit t (x :: l) 21 = [x] /\ kills t 21 = false.
Proof.
  intros E Hx Hl Hne. unfold edit, kills. assert (input_char t 21 = Some 21) as -> by (unfold input_char; by rewrite E).
  assert (signal_char t 21 = -1) as -> by (unfold signal_char, CC; by rewrite E).
  unfold CC. rewrite E. settings. change (valid_signal (-1)) with false. cbn [andb orb Z.eqb Pos.eqb]. split; [|done].
  assert (line_len t (x :: l) = length l) as Hll.
  { unfold line_len. rewrite <- (app_nil_r (reverse (x :: l))), (lead_printable t _ [] E), length_reverse.
    - cbn [lead]. rewrite decide_True; [simpl; lia|]. destruct l; [done|]. simpl. lia.
    - apply Forall_reverse. by constructor. }
  unfold erased. rewrite Hll. rewrite decide_False by (by destruct l).
  unfold erase_len, CC. rewrite E. settings. cbn [Z.eqb Pos.eqb length].
  replace (Datatypes.S (length l) - length l)%nat with 1%nat by lia. done.
Qed.

(** Typing characters that leave a line of printable ones, and reading it. *)
Lemma pty_read_back m sl n cs l c nr others s t : pair m sl s -> ttys s !! sl = Some t -> tios t = tty_std_termios -> rep t [] ->
  Forall (fun ch => kills t ch = false) cs -> Z.of_nat (length cs) <= N_TTY_BUF_SIZE ->
  foldl (edit t) [] cs = l ++ [10] -> Forall printable l -> background c sl t = false -> Z.of_nat (length l) < nr < 2 ^ 31 ->
  exists s' t', (_ ← pty_write (tty_write (Datatypes.S n)) m cs; ntty_read c sl nr others) s =
      Ok ((Z.of_nat (length l) + 1, l ++ [10]), s') /\
    ttys s' !! sl = Some t' /\ rep t' [].
Proof.
  intros Hp Ht E Hr Hk Hlen Ee Hl Hbg Hnr.
  destruct (pty_type m sl n cs s t [] Hp Ht (icanon_std t E) Hr Hk) as (s1 & t1 & E1 & Hp1 & Ht1 & Hc1 & Hr1).
  assert (length (l ++ [10]) = (length l + 1)%nat) as El by by rewrite length_app.
  rewrite take_ge, Ee in Hr1
    by (unfold ntty_receive_room; rewrite (rp_count _ _ Hr); change (Z.of_nat (length (@nil Z))) with 0; unfold N_TTY_BUF_SIZE in *; lia).
  rewrite (bind_step _ _ _ _ _ E1).
  assert (tios t1 = tty_std_termios) as E' by (rewrite (sc_tios _ _ Hc1); done).
  destruct Hp1 as [_ (tm & _ & _ & _ & _ & _ & _ & _ & ts & Hts & _ & _ & Hko)]. rewrite Ht1 in Hts. injection Hts as <-.
  destruct (k_wake_up_ok _ (write_wait t1) _ Hko) as (k' & Ek & _); [unfold waiters; intros x Hx; rewrite !elem_of_app; auto|].
  destruct (ntty_read_line c sl nr others s1 t1 (l ++ [10]) k' Ht1 (icanon_std t1 E') Hr1) as (s2 & t2 & E2 & Ht2 & Hr2);
    [| |lia|done|].
  { destruct Hc1. unfold background in *. by rewrite sc_pgrp0, sc_session0. }
  { rewrite (first_line_printable t1 l E' Hl), El. lia. }
  rewrite (first_line_printable t1 l E' Hl), El, Nat.min_l in E2, Hr2 by lia. rewrite take_ge in E2 by lia. rewrite drop_ge in Hr2 by lia.
  exists s2, t2. rewrite E2. split; [|done]. do 3 f_equal. lia.
Qed.

(** ** The theorems *)

(** The writes of the master, one after the other. *)
Fixpoint pty_writes (n : nat) (m : Z) (css : list (list Z)) : M S (list Z) :=
  match css with
  | [] => mret []
  | cs :: css' => c ← pty_write (tty_write n) m cs; l ← pty_writes n m css'; mret (c :: l)
  end.

(** What they do to the queue of the slave, and what they return: as much of
    each write is taken as the queue has room for. *)
Fixpoint typed (t : tty_struct) (q : list Z) (css : list (list Z)) : list Z * list Z :=
  match css with
  | [] => (q, [])
  | cs :: css' =>
      let c := Nat.min (Z.to_nat N_TTY_BUF_SIZE - length q) (length cs) in
      let '(q', l) := typed t (foldl (edit t) q (take c cs)) css' in (q', Z.of_nat c :: l)
  end.

(** C38: A slave in canonical mode is a line editor: whatever the master writes,
    as long as no character sends a signal, every write returns the number of
    characters there was room for, the queue of the slave is the one those
    characters edit, and the echo goes to the master; no write fails, however
    much is written. *)
Theorem pty_writes_refine m sl n css s t q : pair m sl s -> ttys s !! sl = Some t -> L_ICANON t = true -> rep t q ->
  Forall (Forall (fun ch => kills t ch = false)) css ->
  exists s' t', pty_writes (Datatypes.S n) m css s = Ok ((typed t q css).2, s') /\ pair m sl s' /\
    ttys s' !! sl = Some t' /\ same_conf t t' /\ rep t' (typed t q css).1.
Proof.
  revert s t q. induction css as [|cs css IH]; intros s t q Hp Ht Hi Hr Hk; cbn [pty_writes typed].
  { by exists s, t. }
  apply list.Forall_cons in Hk as [Hk1 Hk]. destruct (pty_type m sl n cs s t q Hp Ht Hi Hr Hk1) as (s1 & t1 & E1 & Hp1 & Ht1 & Hc1 & Hr1).
  replace (Z.to_nat (ntty_receive_room t)) with (Z.to_nat N_TTY_BUF_SIZE - length q)%nat in *
    by (unfold ntty_receive_room; rewrite (rp_count _ _ Hr); unfold N_TTY_BUF_SIZE; lia).
  set (c := Nat.min (Z.to_nat N_TTY_BUF_SIZE - length q) (length cs)) in *.
  destruct (IH s1 t1 _ Hp1 Ht1 ltac:(by rewrite (sc_tios _ _ Hc1)) Hr1) as (s2 & t2 & E2 & Hp2 & Ht2 & Hc2 & Hr2).
  { eapply list.Forall_impl; [exact Hk|]. intros x Hx. eapply list.Forall_impl; [exact Hx|]. intros ch Hch. by rewrite (kills_conf t t1). }
  assert (forall q0, typed t1 q0 css = typed t q0 css) as Et.
  { clear - Hc1. induction css as [|cs' css' IHc]; intros q0; [done|]. cbn [typed]. by rewrite (foldl_edit_conf t t1), IHc. }
  rewrite Et in E2, Hr2. destruct (typed t (foldl (edit t) q (take c cs)) css) as [q' l]. exists s2, t2.
  rewrite (bind_step _ _ _ _ _ E1), (bind_step _ _ _ _ _ E2). split; [done|]. split; [done|]. split; [done|].
  split; [by eapply same_conf_trans|done].
Qed.

(** C39: A line of printable characters typed at the master is what a read of
    the slave returns, newline included, without sleeping; the queue is empty
    again. *)
Theorem tty_line_roundtrip m sl n l c nr others s t : pair m sl s -> ttys s !! sl = Some t -> tios t = tty_std_termios -> rep t [] ->
  Forall printable l -> Z.of_nat (length l) < N_TTY_BUF_SIZE -> background c sl t = false -> Z.of_nat (length l) < nr < 2 ^ 31 ->
  exists s' t', (_ ← pty_write (tty_write (Datatypes.S n)) m (l ++ [10]); ntty_read c sl nr others) s =
      Ok ((Z.of_nat (length l) + 1, l ++ [10]), s') /\
    ttys s' !! sl = Some t' /\ rep t' [].
Proof.
  intros Hp Ht E Hr Hl Hlen Hbg Hnr.
  assert (Forall (fun c => printable c \/ c = 10) (l ++ [10])) as Hcs.
  { apply list.Forall_app. split; [eapply list.Forall_impl; [exact Hl|by left]|repeat constructor; by right]. }
  destruct (printables_edit t [] (l ++ [10]) E Hcs) as [Ee Hk].
  apply (pty_read_back m sl n (l ++ [10]) l c nr others s t); try done. rewrite length_app. simpl. lia.
Qed.

(** The kill character does not erase the line: with two characters or more
    in the queue and no complete line, the scan of [eraser] stops at the head
    of the ring without counting it, so the first character stays and becomes
    part of the next line. *)
Theorem tty_kill_keeps_first m sl n x l l' c nr others s t : pair m sl s -> ttys s !! sl = Some t ->
  tios t = tty_std_termios -> rep t [] ->
  printable x -> Forall printable l -> l <> [] -> Forall printable l' ->
  Z.of_nat (length l + length l') + 3 <= N_TTY_BUF_SIZE -> background c sl t = false -> N_TTY_BUF_SIZE < nr < 2 ^ 31 ->
  exists s' t', (_ ← pty_write (tty_write (Datatypes.S n)) m (x :: l ++ [21] ++ l' ++ [10]); ntty_read c sl nr others) s =
      Ok ((Z.of_nat (length l') + 2, (x :: l') ++ [10]), s') /\
    ttys s' !! sl = Some t' /\ rep t' [].
Proof.
  intros Hp Ht E Hr Hx Hl Hne Hl' Hlen Hbg Hnr.
  assert (forall u, Forall printable u -> Forall (fun c => printable c \/ c = 10) u) as Hor
    by (intros u Hu; eapply list.Forall_impl; [exact Hu|by left]).
  destruct (printables_edit t [] (x :: l) E) as [E1 K1]; [apply Hor; by constructor|].
  destruct (printables_edit t [x] (l' ++ [10]) E) as [E2 K2].
  { apply list.Forall_app. split; [by apply Hor|repeat constructor; by right]. }
  destruct (kill_edit t x l E Hx Hl Hne) as [E3 K3].
  destruct (pty_read_back m sl n (x :: l ++ [21] ++ l' ++ [10]) (x :: l') c nr others s t) as (s' & t' & Er & Hrest); try done.
  - rewrite app_comm_cons. apply list.Forall_app. split; [done|]. by constructor.
  - simpl. rewrite !length_app. simpl. rewrite length_app. simpl. lia.
  - rewrite app_comm_cons, foldl_app, E1. cbn [app foldl]. by rewrite E3, E2.
  - by constructor.
  - simpl. unfold N_TTY_BUF_SIZE in *. lia.
  - exists s', t'. split; [|done]. rewrite Er. do 3 f_equal. simpl. lia.
Qed.

Lemma wait_room_never a nr others s : N_TTY_BUF_SIZE < nr -> (exists t q, ttys s !! a = Some t /\ rep t q) ->
  Forall (pres (fun s => exists t q, ttys s !! a = Some t /\ rep t q)) others ->
  forall r s', wait_room a nr others s <> Ok (r, s').
Proof.
  intros Hnr Hs Ho. revert s Hs. induction Ho as [|o others Hpo _ IH]; intros s (t & q & Ht & Hr) r s'; cbn [wait_room];
    rewrite (bind_step _ _ _ _ _ (get_tty_ok _ _ _ Ht)); unfold ntty_receive_room; rewrite (rp_count _ _ Hr);
    rewrite (proj2 (Z.leb_gt _ _)) by lia; [done|].
  specialize (Hpo s (ex_intro _ t (ex_intro _ q (conj Ht Hr)))). unfold ends in Hpo. unfold mbind, M_bind.
  destruct (o s) as [[u s1]|]; [by apply IH|done].
Qed.

Lemma opost_newlines t n : tios t = tty_std_termios -> length (replicate n 10 ≫= opost_char t) = (2 * n)%nat.
Proof.
  intros E. induction n as [|n IH]; [done|]. cbn [replicate mbind list_bind]. rewrite length_app, IH.
  unfold opost_char. rewrite E. settings. cbn. lia.
Qed.

(** C40: [ntty_write] of more characters than the ring of the terminal has never
    returns, whatever other threads do while it sleeps; and one of more than
    2048 newlines writes past the end of the buffer [opost_block] expands them
    into, which only allows for one byte per character. *)
Theorem tty_write_limits write c a buf others s t : ttys s !! a = Some t -> tios t = tty_std_termios -> background c a t = false ->
  (forall q r s', rep t q -> N_TTY_BUF_SIZE < Z.of_nat (length buf) ->
     Forall (pres (fun s => exists t q, ttys s !! a = Some t /\ rep t q)) others ->
     ntty_write write c a buf others s <> Ok (r, s')) /\
  (forall n, rep t [] -> buf = replicate n 10 -> 2048 < Z.of_nat n <= N_TTY_BUF_SIZE ->
     ntty_write write c a buf others s = Fail Segv).
Proof.
  intros Ht E Hbg. unfold ntty_write. rewrite (bind_step _ _ _ _ _ (get_tty_ok _ _ _ Ht)), Hbg.
  set (t1 := t <| write_wait := write_wait t ++ [cl_thread c] |>). set (s1 := set_tty a t1 s).
  assert (ttys s1 !! a = Some t1) as Ht1 by apply lookup_insert_eq.
  split; [intros q r s' Hr Hlen Ho|intros n Hr Hb Hn]; rewrite (bind_step _ _ _ tt s1) by done.
  - intros Er. apply bind_ok in Er as ([] & s2 & Er & _). revert Er. apply wait_room_never; [done| |done].
    exists t1, q. split; [done|]. by apply (rep_ext t).
  - assert (read_count t1 = 0) as Hc by apply (rp_count _ _ Hr).
    assert (length buf = n) as Hl by (rewrite Hb; apply length_replicate).
    assert (wait_room a (Z.of_nat (length buf)) others s1 = Ok (tt, s1)) as Ew.
    { destruct others; cbn [wait_room]; rewrite (bind_step _ _ _ _ _ (get_tty_ok _ _ _ Ht1));
        unfold ntty_receive_room; rewrite Hc, Hl, (proj2 (Z.leb_le _ _)) by lia; done. }
    rewrite (bind_step _ _ _ _ _ Ew). apply bind_fail. unfold opost_block.
    rewrite (bind_step _ _ _ _ _ (get_tty_ok _ _ _ Ht1)). unfold ntty_receive_room. rewrite Hc. cbv zeta.
    rewrite (proj2 (Z.eqb_neq (N_TTY_BUF_SIZE - 0) 0)) by (unfold N_TTY_BUF_SIZE; lia). rewrite (proj2 (Z.ltb_ge (N_TTY_BUF_SIZE - 0) (Z.of_nat (length buf)))) by lia.
    replace (flag (c_oflag (tios t1)) 1) with true by (change (tios t1) with (tios t); by rewrite E).
    rewrite Hb, (opost_newlines t1 n) by done. by rewrite (proj2 (Z.ltb_lt _ _)) by (unfold N_TTY_BUF_SIZE; lia).
Qed.
End ldisc.

(** ** The kernel of the signals and the scheduler *)

Section signal_kernel.
Context (kernel_ready_list system_ready_list app_ready_list waiting_list terminated_list : Z).
Context (offsetof_sched_sibling : Z) (fuel : nat) (sigreturn_addr : Z).
Context (n : nat) (others : M sig_state unit) (ths : list Z) (Hfuel : (length ths <= fuel)%nat).
#[local] Abbreviation scheduled :=
  (scheduled kernel_ready_list system_ready_list app_ready_list waiting_list terminated_list offsetof_sched_sibling ths).
#[local] Abbreviation wake_up :=
  (Signal.wake_up kernel_ready_list system_ready_list app_ready_list waiting_list terminated_list offsetof_sched_sibling fuel).

Lemma signal_wake_ok (l l' : list Z) s : scheduled s /\ l ⊆ ths -> l' ⊆ l ->
  exists s', wake_up l' s = Ok (tt, s') /\ scheduled s' /\ l ⊆ ths.
Proof.
  intros [Hs Hl] Hl'. pose proof Hs as [Q Hok].
  destruct (wake_up_total kernel_ready_list system_ready_list app_ready_list waiting_list terminated_list offsetof_sched_sibling
    fuel ths l' s Hs Hfuel) as (s' & E & Hs' & _); [|by exists s'].
  apply list.Forall_forall. intros th Hth. apply (so_ths _ _ _ _ _ _ _ _ _ Hok). set_solver.
Qed.

Definition signal_kernel : Kernel sig_state := {|
  k_wake_up := wake_up;
  k_do_kill pid sig :=
    c ← Signal.do_kill kernel_ready_list system_ready_list app_ready_list waiting_list terminated_list
          offsetof_sched_sibling fuel sigreturn_addr n others pid sig;
    mret (match c with Returned _ => true | _ => false end);
  k_ok l s := scheduled s /\ l ⊆ ths;
  k_wake_up_ok l l' s := signal_wake_ok l l' s |}.
End signal_kernel.

(** ** An example: a slave whose reader sleeps, in the machine of [Signal] *)

Lemma ex_fuel : (length example_ths <= 4)%nat.
Proof. simpl. lia. Qed.

Definition ex_kernel : Kernel sig_state := signal_kernel 8 16 24 32 40 4 4 7000 3 (mret tt) example_ths ex_fuel.
Definition ex_tty (lnk : Z) (tio : termios) (rw : list Z) : tty_struct :=
  mk_tty Pty (Some lnk) tio 2 2 [] rw 0 0 0 (replicate 4096 0).
Definition ex_slave : tty_struct := ex_tty 100 tty_std_termios [2000].
Definition ex_ttys : tty_state sig_state :=
  mk_tty_state (list_to_map [(100, ex_tty 200 (mk_termios 0 0 0 (c_cc tty_std_termios)) []); (200, ex_slave)]) [] (ex_machine 0).
Definition ex_caller : caller := mk_caller 3000 (Some 200) 2 3.

#[local] Existing Instance ex_kernel.

Lemma ex_rep lnk tio rw : rep (ex_tty lnk tio rw) [].
Proof. by apply rep_nil. Qed.

Lemma ex_pair : pair 100 200 ex_ttys.
Proof.
  split; [done|]. exists (ex_tty 200 (mk_termios 0 0 0 (c_cc tty_std_termios)) []), []. split; [done|]. split; [apply ex_rep|].
  split_and!; try done. exists ex_slave. split; [done|]. split; [done|]. split; [done|].
  split; [apply ex_scheduled|]. intros x Hx. apply list_elem_of_singleton in Hx as ->. unfold example_ths. set_solver.
Qed.

Lemma pty_writes_refine_witness : exists s' t', pty_writes 1 100 [[97; 98; 127]; [99; 10]] ex_ttys = Ok ([3; 2], s') /\
  ttys s' !! 200 = Some t' /\ rep t' [97; 99; 10].
Proof.
  destruct (pty_writes_refine 100 200 0 [[97; 98; 127]; [99; 10]] ex_ttys ex_slave []) as (s' & t' & E & _ & Ht & _ & Hr).
  - apply ex_pair.
  - reflexivity.
  - reflexivity.
  - apply ex_rep.
  - repeat constructor.
  - exists s', t'. split; [exact E|]. split; [exact Ht|exact Hr].
Defined.

Lemma tty_line_roundtrip_witness : exists s',
  (_ ← pty_write (tty_write 1) 100 [104; 105; 10]; ntty_read ex_caller 200 64 []) ex_ttys = Ok ((3, [104; 105; 10]), s').
Proof.
  destruct (tty_line_roundtrip 100 200 0 [104; 105] ex_caller 64 [] ex_ttys ex_slave) as (s' & t' & E & _).
  - apply ex_pair.
  - reflexivity.
  - reflexivity.
  - apply ex_rep.
  - repeat constructor; discriminate.
  - reflexivity.
  - reflexivity.
  - split; reflexivity.
  - exists s'. exact E.
Defined.

Lemma tty_kill_keeps_first_witness : exists s',
  (_ ← pty_write (tty_write 1) 100 [97; 98; 99; 21; 100; 10]; ntty_read ex_caller 200 5000 []) ex_ttys = Ok ((3, [97; 100; 10]), s').
Proof.
  destruct (tty_kill_keeps_first 100 200 0 97 [98; 99] [100] ex_caller 5000 [] ex_ttys ex_slave) as (s' & t' & E & _).
  - apply ex_pair.
  - reflexivity.
  - reflexivity.
  - apply ex_rep.
  - split; [discriminate|reflexivity].
  - repeat constructor; discriminate.
  - discriminate.
  - repeat constructor; discriminate.
  - discriminate.
  - reflexivity.
  - split; reflexivity.
  - exists s'. exact E.
Defined.

Lemma tty_write_limits_witness : ntty_write (tty_write 1) ex_caller 200 (replicate 2049 10) [] ex_ttys = Fail Segv.
Proof.
  destruct (tty_write_limits (tty_write 1) ex_caller 200 (replicate 2049 10) [] ex_ttys ex_slave) as [_ H].
  - reflexivity.
  - reflexivity.
  - reflexivity.
  - apply (H 2049%nat); [apply ex_rep|reflexivity|]. split; [reflexivity|discriminate].
Defined.
